(* ===== verification/_CoqProject ===== *)
-Q . S2P
Prelude.v
ReturnCode.v
Effects.v
Bitmap.v
Memory.v
Replacer.v
OsFile.v
BufferPool.v
PoolInvariant.v
PoolTheorems.v
PoolAlloc.v
RecordPage.v
RecordPageTheorems.v
RecordPageContract.v
RecordFile.v
RecordFileTheorems.v
KeyCompare.v
BTreeNode.v
BTree.v
BTreeScan.v
BTreeNodeLaws.v
BTreeInsertLemmas.v
BTreeInsert.v
BTreeDelete.v
BTreeOrder.v
BTreeSearch.v
BTreeIndex.v
Dates.v
TableMeta.v
TableMetaTheorems.v
ConditionFilter.v
Trx.v
Index.v
Table.v
Values.v
SmallFloats.v
TableScan.v
Db.v
TableTheorems.v
TableFrame.v
TableDemo.v
TrxTheorems.v
TrxRuns.v
Catalog.v
CatalogRuns.v
Expression.v
Tuples.v
TuplesTheorems.v
TupleFilter.v
KeyOrder.v
Aggregation.v
AggregationTheorems.v
AggregationGroups.v
ExecNodes.v
Syntax.v
Select.v
LoadData.v
QueryFilter.v
Executors.v
ExecutorBuilder.v
Server.v
RowTheorems.v
QueryTheorems.v
SelectTheorems.v
ServerTheorems.v
ExecutorTheorems.v
LoadTheorems.v
SelectDemo.v
ExecutorDemo.v
ParserTables.v
Lexer.v
LexRules.v
LexerTheorems.v
ParserGrammar.v
Parser.v
ParserCertificate.v
ParserTheorems.v
ParserInsert.v
ParseStage.v
ParserDemo.v
