(* ===== verification/Prelude.v ===== *)
(** * Verification of Atangyldb

    The program is a small SQL database (a MiniOB server) in C++.  Modelled is what happens
    between the text of a request and the operating system: the scanner and the parser of SQL under
    src/observer/sql/parser; the execution of statements under src/observer/sql/executor: values,
    expressions, schemas, filters, products, aggregation, sorting and output, both ways in which a
    SELECT is put together from them (execution nodes, and executors for joins and sub-queries), the
    other statements, the transaction of a session and LOAD DATA; the storage layer under
    src/observer/storage; and what all of these use of deps/common.

    ** The parts and how they interact

    - Return codes ([rc.h], [rc.cpp]): ReturnCode.v.  Every operation reports one; [strrc]
      names it in the log.
    - Bitmap ([deps/common/lang/bitmap.cpp]): Bitmap.v.  Slot allocation in record pages.
    - Replacer, LRUReplacer ([lru_replacer.cpp], [replacer.h]): Replacer.v.  The class
      [Replacer] is the C++ interface, [ReplacerLaws] what the buffer pool relies on,
      [Module LRU] the implementation with its list and hash table.
    - BPManager, DiskBufferPool ([disk_buffer_pool.h], [disk_buffer_pool.cpp]): BufferPool.v.
      The state [Pool] is the frames, the page table, the free list, the replacer, the
      open files and the world; one definition per member function.  The file system calls
      are the class [OS] of OsFile.v with the laws [OSLaws]; [Module MemFS] is an instance
      in memory, on which the witnesses run.
    - RecordPageHandler, RecordFileHandler, RecordFileScanner ([record_manager.h],
      [record_manager.cpp]): RecordPage.v (layout and page operations on the bytes of a
      page) and RecordFile.v (the handlers over the pool).
    - BplusTreeHandler, BplusTreeScanner ([bplus_tree.h], [bplus_tree.cpp]): KeyCompare.v
      (order of keys), BTreeNode.v (changes of nodes as functions on bytes), BTree.v (the
      handler over the pool), BTreeScan.v (scans).
    - DateUtil ([meta_util.cpp]): Dates.v, on the memory block of the value.
    - FieldMeta, IndexMeta, TableMeta ([field_meta.cpp], [index_meta.cpp], [table_meta.cpp]):
      TableMeta.v.  The JSON library is the class [Json] with the laws [JsonLaws];
      [Module JsonTree] of TableMetaTheorems.v is an instance.
    - DefaultConditionFilter, CompositeConditionFilter ([condition_filter.cpp]):
      ConditionFilter.v.  Uninitialised descriptions are arguments.
    - Operation, Trx ([trx.h], [trx.cpp]): Trx.v, over a class of stores [TrxStore] (how to
      reach the bytes of a record) and a class [TrxTables] (what a table does at commit and
      rollback); tables implement both in Table.v.
    - Index, BplusTreeIndex ([index.h], [bplus_tree_index.cpp]): Index.v.
    - Table ([table.h], [table.cpp]): Table.v (records, texts, index entries, commit and
      rollback) and TableScan.v (scans, deletes, updates, files, indexes).  A table object is
      identified by its address; the state [DB] is the pool and the table objects.
    - Db, DefaultHandler ([db.cpp], [default_handler.cpp], part of [os/path.cpp]): Db.v.  The
      state [CS] is the handler, the tables, the pool and the transaction of the caller.
    - TupleValue and its subclasses ([value.h]): Values.v; SmallFloats.v on small integers in
      single precision.
    - [ast], AstUtil ([util.cpp]): Expression.v.
    - Tuple, TupleField, TupleSchema, TupleSet, TupleSetDescartesIterator ([tuple.h],
      [tuple.cpp]): Tuples.v.  A schema is a state, as it computes its map of positions once.
    - DefaultCartesianFilter, DefaultExpressionFilter ([condition_filter.cpp]): TupleFilter.v.
    - AggregationExeNode and its table ([aggregate_execution_node.h],
      [aggregate_execution_node.cpp]): Aggregation.v.  [std::map] is a sorted list that calls the
      comparison of the program, which may fail.
    - SelectExeNode, cartesianExeNode, OrderByExeNode, OutputExeNode, ExpExeNode
      ([execution_node.cpp], [exp_execution_node.cpp], [TupleRecordConverter] of [tuple.cpp]):
      ExecNodes.v.  [std::sort] is the class [StdSort] with the laws [StdSortLaws].
    - The structures of statements ([parse_defs.h], [parse.cpp]): Syntax.v, with the functions
      that the parser fills them with.
    - [do_select] and the functions that build its nodes ([execute_stage.cpp]), Session
      ([session.h]): Select.v.  The state [ES] is the session, the response and [CS].
    - LOAD DATA ([load_data], [insert_record_from_file]): LoadData.v.  The files that are read are
      the class [InputFiles].
    - Filter and its subclasses ([condition_filter.cpp]): QueryFilter.v; Executor and its
      subclasses ([executor.h], [executor.cpp]): Executors.v.  The order in which a hash set is
      walked is the class [StdHash]; the bytes of a string object that are compared as text are
      the class [StringObjects].
    - ExecutorBuilder ([executor_builder.cpp]) and [do_select_v2]: ExecutorBuilder.v.  The
      argument [depth] bounds how deep sub-queries are nested in the statement.
    - [handle_request], [handle_event] ([execute_stage.cpp], [default_storage_stage.cpp]):
      Server.v: what a statement is dispatched to, the text of the response, and the end of the
      transaction.  [Junk] is the memory that the program reads before it writes it.
    - Scanner ([lex.yy.c]): ParserTables.v has the tables of the automaton, Lexer.v [yylex] on the
      buffer that [scan_string] fills; the state [yyguts_t] is that of the generated code.
      LexRules.v has the rules of [lex_sql.l] as regular expressions, the specification.
    - Parser ([yacc_sql.tab.c], [parse.cpp]): ParserTables.v has the tables, Parser.v the
      automaton [yyparse] with its stacks, lookahead and error recovery, the actions of all rules
      on [ParserContext], and [sql_parse] and [parse].  ParserGrammar.v has the rules of
      [yacc_sql.y], the specification.  [ParseStage::handle_request] is in ParseStage.v: it
      joins [parse] and [handle_request] to a function from a text to the answer.

    The scanner cuts the text of a request into tokens, the automaton of the parser calls it for
    each and builds one statement, which the execution stage checks and runs.
    A query becomes one scan per table, with the conditions on that table only; the rows are
    converted to tuples; the product of the tables, with the conditions between tables, is one set
    of tuples; it is aggregated, or sorted and projected, with the conditions and columns that are
    expressions; and the result is printed into the response.  The columns of the product are found
    by name through a map of positions that is computed separately from the catalog.

    DefaultHandler finds the table of a command; the table scans its record file or an index,
    tests each record for visibility with the transaction and then with the filter, and
    stores, marks or removes records and index entries; commit and rollback call back into the
    tables.  The record files and the tree reach pages only through the pool: [get_this_page] or
    [allocate_page] pins a frame, the client writes through the pointer to its data, calls
    [mark_dirty] and [unpin_page].  A pointer into a frame is the index of the frame; what
    the pointer shows after an eviction is what the frame holds then.

    ** Conventions

    A function of the program is a computation [M S A] (Effects.v) on the state of its
    object: a value, a return code, undefined behaviour [Ub], or [OutOfFuel]; the state is
    kept on an early return.  Bytes are values 0 to 255 in lists, integers are [Z] with the
    wrap-around written out ([int32], [uint32]); memory blocks are read and written with
    [load], [put], [rd32], [wr32] of Memory.v.  Loops with a bound are [for_range],
    [for_down] and [scan]; the loops along pages and the recursion from a node to its parent
    take fuel.  The fuel of [find_leaf] is the height of the tree (shown sufficient by
    [BTreeSearch]); the scans of a record file need one unit per page and slot; the other
    fuel arguments bound the number of pages visited in the same way, and the fuel of a scan of
    a table the number of rows.  [yylex] takes four units for each byte of its buffer and the
    parser fourteen steps for each byte of the text, which ParserTheorems.v shows to be enough.

    ** The theorems

    - Buffer pool: PoolInvariant.v defines [view], the logical content of a page (the frame
      that caches it, or else the disk), and the invariant [pool_inv]; PoolTheorems.v and
      PoolAlloc.v show that reading, eviction, pinning and unpinning change no page, that a
      client's write is seen by later reads and by no other page, and what allocation
      and [force_page] do.  [pool_check] decides the invariant for a concrete pool.
    - Record pages: RecordPageTheorems.v defines [page_ok] and the abstract content
      [records]; RecordPageContract.v shows that the page operations implement a map from
      slots to records, on every branch.  RecordPage.v has the layout arithmetic, which is
      done in floating point.  RecordFileTheorems.v lifts insertion to the pool and has the
      text pages and the error paths of the handlers.
    - B+ tree: BTreeNodeLaws.v and BTreeInsertLemmas.v describe a node by its arrays;
      BTreeInsert.v and BTreeDelete.v show what insertion, split, removal, merge and
      redistribution do to the lists of keys, RIDs and children; BTreeOrder.v that leaves
      stay sorted; BTreeSearch.v that the descent finds the one leaf that can hold a key and
      that it terminates, over the pool; BTreeIndex.v that [get_entry], [insert_entry] and
      [delete_entry] look up, add and remove exactly one entry, where no node is split or
      merged.
    - Transactions, over the tables of Table.v and their pool: TrxTheorems.v shows what
      Trx::delete_record does to a record on every branch (an own insertion is only forgotten,
      the mark of another transaction is overwritten), that the first insertion of a transaction is
      visible at once, and how commit_insert and rollback_delete reset the word of a record, through
      the pool and without marking the page.  TrxRuns.v has the sessions: the step relation lets any
      session make any call of Table and Trx with any outcome, errors included; it shows the
      invariant of the transaction numbers, isolation, and which calls commit and rollback
      make, whose return code they keep and what they leave.
    - Dates, metadata, filters: which dates are accepted and that the stored form is ordered like
      the calendar (Dates.v); layout of records and the round trip through JSON
      (TableMetaTheorems.v); what a condition is compiled to and when it is the comparison it
      stands for (ConditionFilter.v).
    - Tables: TableTheorems.v follows a value from the record through the filter and the choice
      of an index; TableFrame.v has the frame conditions of all calls on a table and what opening
      a table and creating an index do.  TableDemo.v runs a concrete table.
    - Catalog: Catalog.v has the invariant of the handler and what create_table and drop_table do
      to it; CatalogRuns.v shows it for every run of the handler, and runs one.  A drop_table that
      fails deletes the table object but not its name: the invariant carries the set of
      these objects.
    - Queries: Values.v shows that values are ordered and what the text of a float is;
      Expression.v that typed expressions evaluate to what they stand for, exactly on small
      integers; TuplesTheorems.v that the iterator over a product visits every combination once and
      that columns are found by name; TupleFilter.v what a condition with expressions means;
      AggregationTheorems.v the aggregates of a column and the table of groups,
      AggregationGroups.v the groups of rows; KeyOrder.v the order of rows by several columns, and
      the order of values that the theorems are stated with, apart from the comparison of the program;
      SmallFloats.v the rounding of sums and quotients.
    - SELECT: RowTheorems.v follows a row from the insertion to the tuple of a query;
      QueryTheorems.v shows that sorting sorts and that the product with its conditions is the join;
      SelectTheorems.v that the map of positions agrees with the product, what the output consists
      of, and when a query ends its transaction.  SelectDemo.v runs queries on a concrete table and
      shows what becomes of errors.
    - Statements: ServerTheorems.v shows which statements leave a transaction open, from the
      calls that TrxRuns.v shows to leave it alone.
      ExecutorTheorems.v: the nested loop join with its conditions is the filtered product, which
      conditions between tables are pushed to it, the operator of a condition that is read from
      right to left, and membership in the rows of a sub-query.  LoadTheorems.v: a line of values
      is read back as the values, and what is lost.  ExecutorDemo.v runs joins, sub-queries and
      sessions.
    - Scanner: LexRules.v also computes for every state of the automaton which regular
      expressions are left, and LexerTheorems.v shows with it that the tokens are those of the
      rules, by longest match, with the backing up and the end of the buffer.
    - Parser: ParserCertificate.v computes which states may lie under each other on the stack and
      how far a token can be from the next; ParserTheorems.v shows with it that what is accepted is
      a sentence of the grammar and that the parser ends on every text.  ParserInsert.v: the text of
      an INSERT of rows of constants is read back as these rows.  ParserDemo.v has the statements
      of concrete texts, among them those that are not understood as they are written, and a
      session from texts to answers.
    - Replacement policy, bitmap, return codes and order of keys: in their files.

    Several theorems show defects of the program: the name says which
    ([redistribute_leaf_from_left] loses a RID, and so on).

    ** Not modelled

    Log output; failures of [malloc]; [print] and [print_tree], which only print; the
    pointers that IndexNode keeps in the page (recomputed before every use); threads, as the
    storage operations run in one handler thread.  The iteration order of [unordered_map] is
    the parameter [HashOrder], [OperationOrder] or [TableOrder].  The
    parts of the scanner that read from a file or that nothing calls; what the parser
    prints; the structures of statements are values, so freeing them is not modelled.  The stages
    that only pass an event on, the events, the network, the client and the rest of deps/common
    (threads, timers, logging, configuration) are input, output and glue. *)
From Stdlib Require Export ZArith Lia Bool.
From stdpp Require Export base tactics numbers option list list_numbers gmap strings sorting.

#[global] Open Scope Z_scope.

Declare Scope c_scope.
Delimit Scope c_scope with C.

(** ** Machine integers *)

(** Two's-complement reduction to [int] (32 bits, signed). *)
Definition int32 (z : Z) : Z := (z + 2 ^ 31) mod 2 ^ 32 - 2 ^ 31.

(** Reduction to [unsigned int]. *)
Definition uint32 (z : Z) : Z := z mod 2 ^ 32.

Definition is_int32 (z : Z) : Prop := - 2 ^ 31 <= z < 2 ^ 31.

Lemma int32_id z : is_int32 z -> int32 z = z.
Proof. unfold is_int32, int32. intros. rewrite Z.mod_small; lia. Qed.

Lemma int32_range z : is_int32 (int32 z).
Proof.
  unfold is_int32, int32. pose proof (Z.mod_pos_bound (z + 2 ^ 31) (2 ^ 32)). lia.
Qed.

Lemma int32_uint32 z : is_int32 z -> int32 (uint32 z) = z.
Proof.
  intros H. rewrite <- (int32_id z H) at 2. unfold int32, uint32.
  by rewrite Zplus_mod_idemp_l.
Qed.

(** ** Arrays

    A C array is a list; [aget] and [aset] are the subscript and the
    assignment to a subscript.  Outside the bounds [aget] returns the
    inhabitant and [aset] changes nothing: the definitions that could leave the
    bounds test them and say what the program does there. *)
Definition aget `{!Inhabited A} (l : list A) (i : Z) : A :=
  if i <? 0 then inhabitant else l !!! Z.to_nat i.

Definition aset {A} (l : list A) (i : Z) (x : A) : list A :=
  if i <? 0 then l else <[Z.to_nat i := x]> l.

(** Length as an [int]. *)
Definition alen {A} (l : list A) : Z := Z.of_nat (length l).

Section arrays.
Context {A : Type} `{!Inhabited A}.
Implicit Types (l : list A) (i j : Z) (x : A).

Lemma alen_aset l i x : alen (aset l i x) = alen l.
Proof. unfold alen, aset. case_match; [done|]. by rewrite length_insert. Qed.

Lemma alen_nonneg l : 0 <= alen l.
Proof. unfold alen. lia. Qed.

Lemma aget_aset_eq l i x : 0 <= i < alen l -> aget (aset l i x) i = x.
Proof.
  unfold aget, aset, alen. intros [H1 H2]. destruct (Z.ltb_spec i 0); [lia|].
  apply list_lookup_total_insert_eq. lia.
Qed.

Lemma aget_aset_ne l i j x : i <> j -> aget (aset l i x) j = aget l j.
Proof.
  unfold aget, aset. intros Hne.
  destruct (Z.ltb_spec j 0), (Z.ltb_spec i 0); try done.
  apply list_lookup_total_insert_ne. lia.
Qed.

Lemma aget_aset l i j x :
  0 <= i < alen l -> aget (aset l i x) j = if Z.eqb i j then x else aget l j.
Proof.
  intros H. destruct (Z.eqb_spec i j) as [->|].
  - by apply aget_aset_eq.
  - by apply aget_aset_ne.
Qed.

Lemma aget_lookup l i : 0 <= i < alen l -> l !! Z.to_nat i = Some (aget l i).
Proof.
  unfold alen, aget. intros H. destruct (Z.ltb_spec i 0); [lia|].
  apply list_lookup_lookup_total_lt. lia.
Qed.

Lemma lookup_aget l (n : nat) x : l !! n = Some x -> aget l (Z.of_nat n) = x.
Proof.
  intros H. unfold aget. destruct (Z.ltb_spec (Z.of_nat n) 0); [lia|].
  rewrite Nat2Z.id. by apply list_lookup_total_correct.
Qed.

(** Arrays with the same length and the same elements are equal. *)
Lemma array_eq (l k : list A) :
  alen l = alen k -> (forall i, 0 <= i < alen l -> aget l i = aget k i) -> l = k.
Proof.
  intros Hlen Hget. unfold alen in *.
  apply list_eq_same_length with (n := length l); [lia|done|].
  intros i x y Hi Hx Hy.
  rewrite <- (lookup_aget _ _ _ Hx), <- (lookup_aget _ _ _ Hy). apply Hget. lia.
Qed.

Lemma aget_app l (k : list A) i :
  0 <= i -> aget (l ++ k) i = if i <? alen l then aget l i else aget k (i - alen l).
Proof.
  intros Hi. unfold aget, alen. destruct (Z.ltb_spec i 0); [lia|].
  destruct (Z.ltb_spec i (Z.of_nat (length l))).
  - apply lookup_total_app_l. lia.
  - destruct (Z.ltb_spec (i - Z.of_nat (length l)) 0); [lia|].
    rewrite lookup_total_app_r by lia. f_equal. lia.
Qed.

Lemma alen_app l (k : list A) : alen (l ++ k) = alen l + alen k.
Proof. unfold alen. rewrite length_app. lia. Qed.

Lemma aget_take l i (n : Z) :
  0 <= i < n -> aget (take (Z.to_nat n) l) i = aget l i.
Proof.
  intros Hi. unfold aget. destruct (Z.ltb_spec i 0); [lia|].
  apply lookup_total_take_lt. lia.
Qed.

Lemma aget_drop l i (n : Z) :
  0 <= i -> 0 <= n -> aget (drop (Z.to_nat n) l) i = aget l (n + i).
Proof.
  intros Hi Hn. unfold aget. destruct (Z.ltb_spec i 0), (Z.ltb_spec (n + i) 0); try lia.
  rewrite lookup_total_drop. f_equal. lia.
Qed.

Lemma alen_take l (n : Z) : 0 <= n <= alen l -> alen (take (Z.to_nat n) l) = n.
Proof. unfold alen. rewrite length_take. lia. Qed.

Lemma alen_drop l (n : Z) : 0 <= n <= alen l -> alen (drop (Z.to_nat n) l) = alen l - n.
Proof. unfold alen. rewrite length_drop. lia. Qed.

Lemma aget_cons l x i : 0 < i -> aget (x :: l) i = aget l (i - 1).
Proof.
  intros Hi. unfold aget. destruct (Z.ltb_spec i 0), (Z.ltb_spec (i - 1) 0); try lia.
  replace (Z.to_nat i) with (S (Z.to_nat (i - 1))) by lia. done.
Qed.

Lemma aget_cons_0 l x : aget (x :: l) 0 = x.
Proof. done. Qed.

Lemma alen_nil : alen (@nil A) = 0.
Proof. done. Qed.

Lemma alen_cons l x : alen (x :: l) = alen l + 1.
Proof. unfold alen. simpl. lia. Qed.
End arrays.

(** Insertion and removal at a position, and an update of a function at one point. *)
Definition insert_at {A} (pos : Z) (x : A) (l : list A) : list A :=
  take (Z.to_nat pos) l ++ x :: drop (Z.to_nat pos) l.

Definition delete_at {A} (pos : Z) (l : list A) : list A :=
  take (Z.to_nat pos) l ++ drop (Z.to_nat (pos + 1)) l.

Definition fupd {A} (i : Z) (x : A) (f : Z -> A) : Z -> A := fun j => if j =? i then x else f j.

(** The first [n] values of a function. *)
Definition tabulate {A} (n : Z) (f : Z -> A) : list A := f <$> seqZ 0 n.

Section positions.
Context {A : Type} `{!Inhabited A}.
Implicit Types (l : list A) (i pos n : Z) (x : A) (f g : Z -> A).

Lemma alen_insert_at pos x l : 0 <= pos <= alen l -> alen (insert_at pos x l) = alen l + 1.
Proof. intros. unfold insert_at, alen in *. rewrite length_app. simpl. rewrite length_take, length_drop. lia. Qed.

Lemma aget_insert_at pos x l i :
  0 <= pos <= alen l -> 0 <= i ->
  aget (insert_at pos x l) i = if i <? pos then aget l i else if i =? pos then x else aget l (i - 1).
Proof.
  intros Hp Hi. unfold insert_at. rewrite aget_app, alen_take by lia.
  destruct (Z.ltb_spec i pos); [by rewrite aget_take by lia|].
  destruct (Z.eqb_spec i pos) as [->|]; [by rewrite Z.sub_diag|].
  rewrite aget_cons, aget_drop by lia. f_equal. lia.
Qed.

Lemma alen_delete_at pos l : 0 <= pos < alen l -> alen (delete_at pos l) = alen l - 1.
Proof. intros. unfold delete_at, alen in *. rewrite length_app, length_take, length_drop. lia. Qed.

Lemma aget_delete_at pos l i :
  0 <= pos < alen l -> 0 <= i -> aget (delete_at pos l) i = if i <? pos then aget l i else aget l (i + 1).
Proof.
  intros Hp Hi. unfold delete_at. rewrite aget_app, alen_take by lia.
  destruct (Z.ltb_spec i pos); [by rewrite aget_take by lia|]. rewrite aget_drop by lia. f_equal. lia.
Qed.

Lemma alen_tabulate n f : 0 <= n -> alen (tabulate n f) = n.
Proof. intros. unfold tabulate, alen. rewrite length_fmap, length_seqZ. lia. Qed.

Lemma aget_tabulate n f i : 0 <= i < n -> aget (tabulate n f) i = f i.
Proof.
  intros Hi. unfold aget, tabulate. destruct (Z.ltb_spec i 0); [lia|].
  apply list_lookup_total_correct. rewrite list_lookup_fmap, lookup_seqZ_lt by lia. simpl. f_equal. f_equal. lia.
Qed.

(** A list is a tabulation when the lengths and the values agree. *)
Lemma tabulate_eq n f l : alen l = n -> (forall i, 0 <= i < n -> f i = aget l i) -> tabulate n f = l.
Proof.
  intros Hl Hf. pose proof (alen_nonneg l). apply array_eq; rewrite alen_tabulate by lia; [done|].
  intros i Hi. rewrite aget_tabulate by lia. by apply Hf.
Qed.

Lemma tabulate_ext n f g : (forall i, 0 <= i < n -> f i = g i) -> tabulate n f = tabulate n g.
Proof.
  intros Hf. destruct (decide (0 <= n)).
  - apply tabulate_eq; [by apply alen_tabulate|]. intros i Hi. rewrite aget_tabulate by done. by apply Hf.
  - unfold tabulate. by rewrite seqZ_nil by lia.
Qed.

Lemma tabulate_take n m (f : Z -> A) : 0 <= m <= n -> take (Z.to_nat m) (tabulate n f) = tabulate m f.
Proof.
  intros Hm. symmetry. apply tabulate_eq; [rewrite alen_take; rewrite ?alen_tabulate by lia; lia|].
  intros i Hi. by rewrite aget_take, aget_tabulate by lia.
Qed.

Lemma tabulate_drop n m (f g : Z -> A) :
  0 <= m <= n -> (forall i, 0 <= i < n - m -> g i = f (m + i)) ->
  tabulate (n - m) g = drop (Z.to_nat m) (tabulate n f).
Proof.
  intros Hm Hg. apply tabulate_eq; [rewrite alen_drop; rewrite ?alen_tabulate by lia; lia|].
  intros i Hi. rewrite aget_drop, aget_tabulate by lia. by apply Hg.
Qed.

Lemma tabulate_delete n pos (f g : Z -> A) :
  0 <= pos < n -> (forall j, 0 <= j < n - 1 -> g j = if j <? pos then f j else f (j + 1)) ->
  tabulate (n - 1) g = delete_at pos (tabulate n f).
Proof.
  intros Hpos Hg. apply tabulate_eq; [rewrite alen_delete_at; rewrite alen_tabulate by lia; lia|].
  intros i Hi. rewrite Hg by lia. rewrite aget_delete_at by (rewrite ?alen_tabulate by lia; lia).
  destruct (Z.ltb_spec i pos); by rewrite aget_tabulate by lia.
Qed.

Lemma tabulate_app n m (f g e : Z -> A) :
  0 <= n -> 0 <= m -> (forall j, 0 <= j < n -> e j = f j) -> (forall j, 0 <= j < m -> e (n + j) = g j) ->
  tabulate (n + m) e = tabulate n f ++ tabulate m g.
Proof.
  intros Hn Hm Hf Hg. apply tabulate_eq; [rewrite alen_app, !alen_tabulate by lia; done|].
  intros i Hi. rewrite aget_app, alen_tabulate by lia. destruct (Z.ltb_spec i n).
  - rewrite aget_tabulate by lia. apply Hf. lia.
  - rewrite aget_tabulate by lia. rewrite <- Hg by lia. f_equal. lia.
Qed.

Lemma tabulate_snoc n (f e : Z -> A) :
  0 <= n -> (forall j, 0 <= j < n -> e j = f j) -> tabulate (n + 1) e = tabulate n f ++ [e n].
Proof.
  intros Hn He. rewrite (tabulate_app n 1 f (fun _ => e n)); [done|lia|lia|done|].
  intros j Hj. by replace j with 0 by lia; rewrite Z.add_0_r.
Qed.

Lemma tabulate_cons n (f e : Z -> A) :
  0 <= n -> (forall j, 0 <= j < n -> e (j + 1) = f j) -> tabulate (n + 1) e = e 0 :: tabulate n f.
Proof.
  intros Hn He. rewrite Z.add_comm. rewrite (tabulate_app 1 n (fun _ => e 0) f); [done|lia|lia| |].
  - intros j Hj. by replace j with 0 by lia.
  - intros j Hj. rewrite Z.add_comm. by apply He.
Qed.
End positions.

Create Rewrite HintDb arrays.
#[export] Hint Rewrite @alen_aset @alen_app @alen_cons : arrays.

(** ** Lists *)

Lemma forallb_elem {A} (p : A -> bool) l x : forallb p l = true -> x ∈ l -> p x = true.
Proof. intros Hf Hx. eapply forallb_forall in Hf; [done|]. by apply list_elem_of_In. Qed.

Lemma filter_id {A} (P : A -> Prop) `{!forall x, Decision (P x)} (l : list A) :
  Forall P l -> filter P l = l.
Proof.
  induction 1 as [|x l Hx Hl IH]; [done|]. rewrite filter_cons_True by done. by rewrite IH.
Qed.

(** In a list with distinct first components, a first component has one partner. *)
Lemma assoc_unique {A B} (l : list (A * B)) a b c :
  NoDup l.*1 -> (a, b) ∈ l -> (a, c) ∈ l -> b = c.
Proof.
  intros Hnd [i Hi]%list_elem_of_lookup [j Hj]%list_elem_of_lookup.
  assert (i = j) as ->; [|congruence].
  eapply NoDup_lookup; [done| |]; rewrite list_lookup_fmap; [by rewrite Hi|by rewrite Hj].
Qed.

Lemma last_split {A} (l : list A) (x : A) : last l = Some x -> l = removelast l ++ [x].
Proof. intros H. apply last_Some in H as [k ->]. by rewrite removelast_last. Qed.

Lemma snoc_cases {A} (l : list A) : l = [] \/ exists k x, l = k ++ [x].
Proof. destruct l as [|x k _] using rev_ind; eauto. Qed.

Lemma last_cons_is_Some {A} (x : A) l : is_Some (last (x :: l)).
Proof. revert x. induction l as [|y l IH]; intros x; [by exists x|]. apply IH. Qed.

(** A predicate that changes at one element changes the count by one. *)
Lemma filter_ext {A} (P Q : A -> Prop) `{!forall x, Decision (P x), !forall x, Decision (Q x)} (l : list A) :
  (forall x, x ∈ l -> P x <-> Q x) -> filter P l = filter Q l.
Proof.
  induction l as [|x l IH]; intros Heq; [done|]. rewrite !filter_cons.
  rewrite IH by (intros; apply Heq; by right).
  pose proof (Heq x ltac:(by left)). destruct (decide (P x)), (decide (Q x)); tauto || done.
Qed.

Lemma filter_count_add {A} (P Q : A -> Prop) `{!forall x, Decision (P x), !forall x, Decision (Q x)} (l : list A) x :
  NoDup l -> x ∈ l -> ~ P x -> Q x -> (forall y, y ∈ l -> y <> x -> P y <-> Q y) ->
  alen (filter Q l) = alen (filter P l) + 1.
Proof.
  intros Hnd Hx HP HQ Heq. apply list_elem_of_split in Hx as (l1 & l2 & ->).
  apply NoDup_app in Hnd as (_ & Hn1 & Hnd2). apply NoDup_cons in Hnd2 as [Hn2 _].
  rewrite !filter_app, (filter_cons_True Q), (filter_cons_False P) by done.
  rewrite (filter_ext P Q l1), (filter_ext P Q l2); [unfold alen; rewrite !length_app; simpl; lia| |].
  - intros y Hy. apply Heq; [set_solver|]. intros ->. done.
  - intros y Hy. apply Heq; [set_solver|]. intros ->. apply (Hn1 x); set_solver.
Qed.

(** ** Loops

    [for_up n i f a] runs the body [f] for the counter values
    [i], [i + 1], ..., [i + n - 1]; [for_down n i f a] for
    [i], [i - 1], ..., [i - n + 1]. *)
Fixpoint for_up {A} (n : nat) (i : Z) (f : Z -> A -> A) (a : A) : A :=
  match n with
  | O => a
  | S n' => for_up n' (i + 1) f (f i a)
  end.

Fixpoint for_down {A} (n : nat) (i : Z) (f : Z -> A -> A) (a : A) : A :=
  match n with
  | O => a
  | S n' => for_down n' (i - 1) f (f i a)
  end.

(** [for (i = lo; i < hi; i++)]. *)
Definition for_range {A} (lo hi : Z) (f : Z -> A -> A) (a : A) : A :=
  for_up (Z.to_nat (hi - lo)) lo f a.

(** The first counter value of [lo, hi) at which the test holds, [hi] if there is none:
    [for (i = lo; i < hi; i++) if (p(i)) break;]. *)
Fixpoint scan_up (n : nat) (i : Z) (p : Z -> bool) : Z :=
  match n with
  | O => i
  | S n' => if p i then i else scan_up n' (i + 1) p
  end.

Definition scan (lo hi : Z) (p : Z -> bool) : Z := scan_up (Z.to_nat (hi - lo)) lo p.

Lemma for_up_inv {A} (P : Z -> A -> Prop) (n : nat) i f (a : A) :
  P i a ->
  (forall j b, i <= j < i + Z.of_nat n -> P j b -> P (j + 1) (f j b)) ->
  P (i + Z.of_nat n) (for_up n i f a).
Proof.
  revert i a. induction n as [|n IH]; intros i a H0 Hstep; simpl.
  - by rewrite Z.add_0_r.
  - replace (i + Z.of_nat (S n)) with (i + 1 + Z.of_nat n) by lia.
    apply IH; [apply Hstep; [lia|done] | intros; apply Hstep; [lia|done]].
Qed.

Lemma for_range_inv {A} (P : Z -> A -> Prop) lo hi f (a : A) :
  lo <= hi -> P lo a ->
  (forall j b, lo <= j < hi -> P j b -> P (j + 1) (f j b)) ->
  P hi (for_range lo hi f a).
Proof.
  intros Hle H0 Hstep. unfold for_range.
  replace hi with (lo + Z.of_nat (Z.to_nat (hi - lo))) at 1 by lia.
  apply for_up_inv; [done|]. intros; apply Hstep; [lia|done].
Qed.

Lemma for_down_inv {A} (P : Z -> A -> Prop) (n : nat) i f (a : A) :
  P i a ->
  (forall j b, i - Z.of_nat n < j <= i -> P j b -> P (j - 1) (f j b)) ->
  P (i - Z.of_nat n) (for_down n i f a).
Proof.
  revert i a. induction n as [|n IH]; intros i a H0 Hstep; simpl.
  - by rewrite Z.sub_0_r.
  - replace (i - Z.of_nat (S n)) with (i - 1 - Z.of_nat n) by lia.
    apply IH; [apply Hstep; [lia|done] | intros; apply Hstep; [lia|done]].
Qed.

Lemma scan_up_spec (n : nat) i p :
  i <= scan_up n i p <= i + Z.of_nat n /\
  (forall j, i <= j < scan_up n i p -> p j = false) /\
  (scan_up n i p < i + Z.of_nat n -> p (scan_up n i p) = true).
Proof.
  revert i. induction n as [|n IH]; intros i; simpl; [split_and!; intros; lia|].
  destruct (p i) eqn:Hp; [split_and!; intros; try lia; done|].
  destruct (IH (i + 1)) as (H1 & H2 & H3). split_and!; [lia|lia| |].
  - intros j Hj. destruct (decide (j = i)) as [->|]; [done|]. apply H2. lia.
  - intros. apply H3. lia.
Qed.

Lemma scan_spec lo hi p :
  lo <= hi ->
  lo <= scan lo hi p <= hi /\
  (forall j, lo <= j < scan lo hi p -> p j = false) /\
  (scan lo hi p < hi -> p (scan lo hi p) = true).
Proof.
  intros Hle. unfold scan. destruct (scan_up_spec (Z.to_nat (hi - lo)) lo p) as (H1 & H2 & H3).
  split_and!; try lia; try done. intros. apply H3. lia.
Qed.
