(* ===== verification/ReturnCode.v ===== *)
(** * Return codes (rc.h, rc.cpp)

    [Module Part] holds the per-subsystem enumerations of rc.h; [RC] is the main
    enumeration with one constructor per enumerator, [rc_code] its numeric value and
    [strrc] the printer of rc.cpp. *)
From S2P Require Import Prelude.
From Stdlib Require Import String.

Module Part.

Inductive RCBufferPool :=
| BP_EXIST | BP_FILEERR | BP_INVALIDNAME | BP_WINDOWS | BP_CLOSED | BP_OPEN | BP_NOBUF | BP_EOF
| BP_INVALIDPAGENUM | BP_NOTINBUF | BP_PAGE_PINNED | BP_OPEN_TOO_MANY_FILES | BP_ILLEGAL_FILE_ID.

Definition RCBufferPool_code (p : RCBufferPool) : Z :=
  match p with
  | BP_EXIST => 1 | BP_FILEERR => 2 | BP_INVALIDNAME => 3 | BP_WINDOWS => 4 | BP_CLOSED => 5
  | BP_OPEN => 6 | BP_NOBUF => 7 | BP_EOF => 8 | BP_INVALIDPAGENUM => 9 | BP_NOTINBUF => 10
  | BP_PAGE_PINNED => 11 | BP_OPEN_TOO_MANY_FILES => 12 | BP_ILLEGAL_FILE_ID => 13
  end.

Inductive RCRecord :=
| RD_CLOSED | RD_OPENNED | RD_INVALIDRECSIZE | RD_INVALIDRID | RD_NO_MORE_RECINMEM | RD_OPEN
| RD_NO_MORE_IDXINMEM | RD_INVALID_KEY | RD_DUPLICATE_KEY | RD_NOMEM | RD_SCANCLOSED
| RD_SCANOPENNED | RD_EOF | RD_NOT_EXIST.

Definition RCRecord_code (p : RCRecord) : Z :=
  match p with
  | RD_CLOSED => 1 | RD_OPENNED => 2 | RD_INVALIDRECSIZE => 3 | RD_INVALIDRID => 4
  | RD_NO_MORE_RECINMEM => 5 | RD_OPEN => 6 | RD_NO_MORE_IDXINMEM => 7 | RD_INVALID_KEY => 8
  | RD_DUPLICATE_KEY => 9 | RD_NOMEM => 10 | RD_SCANCLOSED => 11 | RD_SCANOPENNED => 12
  | RD_EOF => 13 | RD_NOT_EXIST => 14
  end.

Inductive RCSchema :=
| DB_EXIST | DB_NOT_EXIST | DB_NOT_OPENED | TABLE_NOT_EXIST | TABLE_EXIST | TABLE_NAME_ILLEGAL
| FIELD_NOT_EXIST | FIELD_EXIST | FIELD_NAME_ILLEGAL | FIELD_MISSING | FIELD_REDUNDAN
| FIELD_TYPE_MISMATCH | INDEX_NAME_REPEAT | INDEX_EXIST | INDEX_NOT_EXIST | INDEX_NAME_ILLEGAL.

Definition RCSchema_code (p : RCSchema) : Z :=
  match p with
  | DB_EXIST => 1 | DB_NOT_EXIST => 2 | DB_NOT_OPENED => 3 | TABLE_NOT_EXIST => 4 | TABLE_EXIST => 5
  | TABLE_NAME_ILLEGAL => 6 | FIELD_NOT_EXIST => 7 | FIELD_EXIST => 8 | FIELD_NAME_ILLEGAL => 9
  | FIELD_MISSING => 10 | FIELD_REDUNDAN => 11 | FIELD_TYPE_MISMATCH => 12 | INDEX_NAME_REPEAT => 13
  | INDEX_EXIST => 14 | INDEX_NOT_EXIST => 15 | INDEX_NAME_ILLEGAL => 16
  end.

Inductive RCSQL :=
| SQL_SELECT.

Definition RCSQL_code (p : RCSQL) : Z :=
  match p with
  | SQL_SELECT => 1
  end.

Inductive RCIOError :=
| READ | SHORT_READ | WRITE | FSYNC | DIR_FSYNC | TRUNCATE | FSTAT | IO_DELETE | BLOCKED | ACCESS
| CHECKRESERVEDLOCK | CLOSE | DIR_CLOSE | SHMOPEN | SHMSIZE | SHMLOCK | SHMMAP | SEEK | DELETE_NOENT
| MMAP | GETTEMPPATH | IO_CONVPATH | VNODE | BEGIN_ATOMIC | COMMIT_ATOMIC | ROLLBACK_ATOMIC | DATA
| CORRUPTFS | OPEN_TOO_MANY_FILES.

Definition RCIOError_code (p : RCIOError) : Z :=
  match p with
  | READ => 1 | SHORT_READ => 2 | WRITE => 3 | FSYNC => 4 | DIR_FSYNC => 5 | TRUNCATE => 6
  | FSTAT => 7 | IO_DELETE => 8 | BLOCKED => 9 | ACCESS => 10 | CHECKRESERVEDLOCK => 11
  | CLOSE => 12 | DIR_CLOSE => 13 | SHMOPEN => 14 | SHMSIZE => 15 | SHMLOCK => 16 | SHMMAP => 17
  | SEEK => 18 | DELETE_NOENT => 19 | MMAP => 20 | GETTEMPPATH => 21 | IO_CONVPATH => 22
  | VNODE => 23 | BEGIN_ATOMIC => 24 | COMMIT_ATOMIC => 25 | ROLLBACK_ATOMIC => 26 | DATA => 27
  | CORRUPTFS => 28 | OPEN_TOO_MANY_FILES => 29
  end.

Inductive RCLock :=
| LOCK | UNLOCK | SHAREDCACHE | LVIRT | NEED_WAIT | RESOURCE_DELETED.

Definition RCLock_code (p : RCLock) : Z :=
  match p with
  | LOCK => 1 | UNLOCK => 2 | SHAREDCACHE => 3 | LVIRT => 4 | NEED_WAIT => 5 | RESOURCE_DELETED => 6
  end.

Inductive RCBusy :=
| BRECOVERY | SNAPSHOT | TIMEOUT.

Definition RCBusy_code (p : RCBusy) : Z :=
  match p with
  | BRECOVERY => 1 | SNAPSHOT => 2 | TIMEOUT => 3
  end.

Inductive RCCantOpen :=
| NOTEMPDIR | ISDIR | FULLPATH | CO_CONVPATH | DIRTYWAL | SYMLINK.

Definition RCCantOpen_code (p : RCCantOpen) : Z :=
  match p with
  | NOTEMPDIR => 1 | ISDIR => 2 | FULLPATH => 3 | CO_CONVPATH => 4 | DIRTYWAL => 5 | SYMLINK => 6
  end.

Inductive RCCorrupt :=
| CORRUPT_VIRT | CORRUPT_SEQUENCE | CORRUPT_INDEX.

Definition RCCorrupt_code (p : RCCorrupt) : Z :=
  match p with
  | CORRUPT_VIRT => 1 | CORRUPT_SEQUENCE => 2 | CORRUPT_INDEX => 3
  end.

Inductive RCReadonly :=
| RO_RECOVERY | CANTLOCK | RO_ROLLBACK | DBMOVED | CANTINIT | DIRECTORY.

Definition RCReadonly_code (p : RCReadonly) : Z :=
  match p with
  | RO_RECOVERY => 1 | CANTLOCK => 2 | RO_ROLLBACK => 3 | DBMOVED => 4 | CANTINIT => 5
  | DIRECTORY => 6
  end.

Inductive RCAbort :=
| AROLLBACK.

Definition RCAbort_code (p : RCAbort) : Z :=
  match p with
  | AROLLBACK => 1
  end.

Inductive RCContraint :=
| CHECK | COMMITHOOK | FOREIGNKEY | FUNCTION | NOTNULL | PRIMARYKEY | TRIGGER | UNIQUE | CVIRT
| ROWID | PINNED.

Definition RCContraint_code (p : RCContraint) : Z :=
  match p with
  | CHECK => 1 | COMMITHOOK => 2 | FOREIGNKEY => 3 | FUNCTION => 4 | NOTNULL => 5 | PRIMARYKEY => 6
  | TRIGGER => 7 | UNIQUE => 8 | CVIRT => 9 | ROWID => 10 | PINNED => 11
  end.

Inductive RCNotice :=
| RECOVER_WAL | RECOVER_ROLLBACK | AUTOINDEX.

Definition RCNotice_code (p : RCNotice) : Z :=
  match p with
  | RECOVER_WAL => 1 | RECOVER_ROLLBACK => 2 | AUTOINDEX => 3
  end.

Inductive RCAuth :=
| USER.

Definition RCAuth_code (p : RCAuth) : Z :=
  match p with
  | USER => 1
  end.

End Part.

(** The enumerators of [enum RC]. *)
Inductive RC :=
| SUCCESS | GENERIC_ERROR | INVALID_ARGUMENT | SQL_SYNTAX | BUFFERPOOL | RECORD | INTERNAL | PERM
| ABORT | BUSY | LOCKED | NOMEM | READONLY | INTERRUPT | IOERR | CORRUPT | NOTFOUND | FULL
| CANTOPEN | PROTOCOL | EMPTY | SCHEMA | TOOBIG | CONSTRAINT | MISMATCH | MISUSE | NOLFS | AUTH
| FORMAT | RANGE | NOTADB | NOTICE | BUFFERPOOL_EXIST | BUFFERPOOL_FILEERR | BUFFERPOOL_INVALIDNAME
| BUFFERPOOL_WINDOWS | BUFFERPOOL_CLOSED | BUFFERPOOL_OPEN | BUFFERPOOL_NOBUF | BUFFERPOOL_EOF
| BUFFERPOOL_INVALID_PAGE_NUM | BUFFERPOOL_NOTINBUF | BUFFERPOOL_PAGE_PINNED
| BUFFERPOOL_OPEN_TOO_MANY_FILES | BUFFERPOOL_ILLEGAL_FILE_ID | RECORD_CLOSED | RECORD_OPENNED
| RECORD_INVALIDRECSIZE | RECORD_INVALIDRID | RECORD_NOMORERECINMEM | RECORD_OPEN
| RECORD_NO_MORE_IDX_IN_MEM | RECORD_INVALID_KEY | RECORD_DUPLICATE_KEY | RECORD_NOMEM
| RECORD_SCANCLOSED | RECORD_SCANOPENNED | RECORD_EOF | RECORD_RECORD_NOT_EXIST | SCHEMA_DB_EXIST
| SCHEMA_DB_NOT_EXIST | SCHEMA_DB_NOT_OPENED | SCHEMA_TABLE_NOT_EXIST | SCHEMA_TABLE_EXIST
| SCHEMA_TABLE_NAME_ILLEGAL | SCHEMA_FIELD_NOT_EXIST | SCHEMA_FIELD_EXIST
| SCHEMA_FIELD_NAME_ILLEGAL | SCHEMA_FIELD_MISSING | SCHEMA_FIELD_REDUNDAN
| SCHEMA_FIELD_TYPE_MISMATCH | SCHEMA_INDEX_NAME_REPEAT | SCHEMA_INDEX_EXIST
| SCHEMA_INDEX_NOT_EXIST | SCHEMA_INDEX_NAME_ILLEGAL | IOERR_READ | IOERR_SHORT_READ | IOERR_WRITE
| IOERR_FSYNC | IOERR_DIR_FSYNC | IOERR_TRUNCATE | IOERR_FSTAT | IOERR_DELETE | IOERR_BLOCKED
| IOERR_ACCESS | IOERR_CHECKRESERVEDLOCK | IOERR_CLOSE | IOERR_DIR_CLOSE | IOERR_SHMOPEN
| IOERR_SHMSIZE | IOERR_SHMLOCK | IOERR_SHMMAP | IOERR_SEEK | IOERR_DELETE_NOENT | IOERR_MMAP
| IOERR_GETTEMPPATH | IOERR_CONVPATH | IOERR_VNODE | IOERR_BEGIN_ATOMIC | IOERR_COMMIT_ATOMIC
| IOERR_ROLLBACK_ATOMIC | IOERR_DATA | IOERR_CORRUPTFS | IOERR_OPEN_TOO_MANY_FILES | LOCKED_LOCK
| LOCKED_UNLOCK | LOCKED_SHAREDCACHE | LOCKED_VIRT | LOCKED_NEED_WAIT | LOCKED_RESOURCE_DELETED
| BUSY_RECOVERY | BUSY_SNAPSHOT | BUSY_TIMEOUT | CANTOPEN_NOTEMPDIR | CANTOPEN_ISDIR
| CANTOPEN_FULLPATH | CANTOPEN_CONVPATH | CANTOPEN_DIRTYWAL | CANTOPEN_SYMLINK | READONLY_RECOVERY
| READONLY_CANTLOCK | READONLY_ROLLBACK | READONLY_DBMOVED | READONLY_CANTINIT | READONLY_DIRECTORY
| ABORT_ROLLBACK | CONSTRAINT_CHECK | CONSTRAINT_COMMITHOOK | CONSTRAINT_FOREIGNKEY
| CONSTRAINT_FUNCTION | CONSTRAINT_NOTNULL | CONSTRAINT_PRIMARYKEY | CONSTRAINT_TRIGGER
| CONSTRAINT_UNIQUE | CONSTRAINT_VIRT | CONSTRAINT_ROWID | CONSTRAINT_PINNED | NOTICE_RECOVER_WAL
| NOTICE_RECOVER_ROLLBACK | NOTICE_AUTOINDEX | AUTH_USER.

(** [BASE | (PART << 8)]. *)
Definition part (base p : Z) : Z := Z.lor base (Z.shiftl p 8).

(** Numeric values; the second component of a [part] value names its base code. *)
Definition rc_code (rc : RC) : Z :=
  match rc with
  | SUCCESS => 0 | GENERIC_ERROR => 1 | INVALID_ARGUMENT => 2 | SQL_SYNTAX => 3 | BUFFERPOOL => 4
  | RECORD => 5 | INTERNAL => 6 | PERM => 7 | ABORT => 8 | BUSY => 9 | LOCKED => 10 | NOMEM => 11
  | READONLY => 12 | INTERRUPT => 13 | IOERR => 14 | CORRUPT => 15 | NOTFOUND => 16 | FULL => 17
  | CANTOPEN => 18 | PROTOCOL => 19 | EMPTY => 20 | SCHEMA => 21 | TOOBIG => 22 | CONSTRAINT => 23
  | MISMATCH => 24 | MISUSE => 25 | NOLFS => 26 | AUTH => 27 | FORMAT => 28 | RANGE => 29
  | NOTADB => 30 | NOTICE => 100 | BUFFERPOOL_EXIST => part 4 (Part.RCBufferPool_code Part.BP_EXIST)
  | BUFFERPOOL_FILEERR => part 4 (Part.RCBufferPool_code Part.BP_FILEERR)
  | BUFFERPOOL_INVALIDNAME => part 4 (Part.RCBufferPool_code Part.BP_INVALIDNAME)
  | BUFFERPOOL_WINDOWS => part 4 (Part.RCBufferPool_code Part.BP_WINDOWS)
  | BUFFERPOOL_CLOSED => part 4 (Part.RCBufferPool_code Part.BP_CLOSED)
  | BUFFERPOOL_OPEN => part 4 (Part.RCBufferPool_code Part.BP_OPEN)
  | BUFFERPOOL_NOBUF => part 4 (Part.RCBufferPool_code Part.BP_NOBUF)
  | BUFFERPOOL_EOF => part 4 (Part.RCBufferPool_code Part.BP_EOF)
  | BUFFERPOOL_INVALID_PAGE_NUM => part 4 (Part.RCBufferPool_code Part.BP_INVALIDPAGENUM)
  | BUFFERPOOL_NOTINBUF => part 4 (Part.RCBufferPool_code Part.BP_NOTINBUF)
  | BUFFERPOOL_PAGE_PINNED => part 4 (Part.RCBufferPool_code Part.BP_PAGE_PINNED)
  | BUFFERPOOL_OPEN_TOO_MANY_FILES => part 4 (Part.RCBufferPool_code Part.BP_OPEN_TOO_MANY_FILES)
  | BUFFERPOOL_ILLEGAL_FILE_ID => part 4 (Part.RCBufferPool_code Part.BP_ILLEGAL_FILE_ID)
  | RECORD_CLOSED => part 5 (Part.RCRecord_code Part.RD_CLOSED)
  | RECORD_OPENNED => part 5 (Part.RCRecord_code Part.RD_OPENNED)
  | RECORD_INVALIDRECSIZE => part 5 (Part.RCRecord_code Part.RD_INVALIDRECSIZE)
  | RECORD_INVALIDRID => part 5 (Part.RCRecord_code Part.RD_INVALIDRID)
  | RECORD_NOMORERECINMEM => part 5 (Part.RCRecord_code Part.RD_NO_MORE_RECINMEM)
  | RECORD_OPEN => part 5 (Part.RCRecord_code Part.RD_OPEN)
  | RECORD_NO_MORE_IDX_IN_MEM => part 5 (Part.RCRecord_code Part.RD_NO_MORE_IDXINMEM)
  | RECORD_INVALID_KEY => part 5 (Part.RCRecord_code Part.RD_INVALID_KEY)
  | RECORD_DUPLICATE_KEY => part 5 (Part.RCRecord_code Part.RD_DUPLICATE_KEY)
  | RECORD_NOMEM => part 5 (Part.RCRecord_code Part.RD_NOMEM)
  | RECORD_SCANCLOSED => part 5 (Part.RCRecord_code Part.RD_SCANCLOSED)
  | RECORD_SCANOPENNED => part 5 (Part.RCRecord_code Part.RD_SCANOPENNED)
  | RECORD_EOF => part 5 (Part.RCRecord_code Part.RD_EOF)
  | RECORD_RECORD_NOT_EXIST => part 5 (Part.RCRecord_code Part.RD_NOT_EXIST)
  | SCHEMA_DB_EXIST => part 21 (Part.RCSchema_code Part.DB_EXIST)
  | SCHEMA_DB_NOT_EXIST => part 21 (Part.RCSchema_code Part.DB_NOT_EXIST)
  | SCHEMA_DB_NOT_OPENED => part 21 (Part.RCSchema_code Part.DB_NOT_OPENED)
  | SCHEMA_TABLE_NOT_EXIST => part 21 (Part.RCSchema_code Part.TABLE_NOT_EXIST)
  | SCHEMA_TABLE_EXIST => part 21 (Part.RCSchema_code Part.TABLE_EXIST)
  | SCHEMA_TABLE_NAME_ILLEGAL => part 21 (Part.RCSchema_code Part.TABLE_NAME_ILLEGAL)
  | SCHEMA_FIELD_NOT_EXIST => part 21 (Part.RCSchema_code Part.FIELD_NOT_EXIST)
  | SCHEMA_FIELD_EXIST => part 21 (Part.RCSchema_code Part.FIELD_EXIST)
  | SCHEMA_FIELD_NAME_ILLEGAL => part 21 (Part.RCSchema_code Part.FIELD_NAME_ILLEGAL)
  | SCHEMA_FIELD_MISSING => part 21 (Part.RCSchema_code Part.FIELD_MISSING)
  | SCHEMA_FIELD_REDUNDAN => part 21 (Part.RCSchema_code Part.FIELD_REDUNDAN)
  | SCHEMA_FIELD_TYPE_MISMATCH => part 21 (Part.RCSchema_code Part.FIELD_TYPE_MISMATCH)
  | SCHEMA_INDEX_NAME_REPEAT => part 21 (Part.RCSchema_code Part.INDEX_NAME_REPEAT)
  | SCHEMA_INDEX_EXIST => part 21 (Part.RCSchema_code Part.INDEX_EXIST)
  | SCHEMA_INDEX_NOT_EXIST => part 21 (Part.RCSchema_code Part.INDEX_NOT_EXIST)
  | SCHEMA_INDEX_NAME_ILLEGAL => part 21 (Part.RCSchema_code Part.INDEX_NAME_ILLEGAL)
  | IOERR_READ => part 14 (Part.RCIOError_code Part.READ)
  | IOERR_SHORT_READ => part 14 (Part.RCIOError_code Part.SHORT_READ)
  | IOERR_WRITE => part 14 (Part.RCIOError_code Part.WRITE)
  | IOERR_FSYNC => part 14 (Part.RCIOError_code Part.FSYNC)
  | IOERR_DIR_FSYNC => part 14 (Part.RCIOError_code Part.DIR_FSYNC)
  | IOERR_TRUNCATE => part 14 (Part.RCIOError_code Part.TRUNCATE)
  | IOERR_FSTAT => part 14 (Part.RCIOError_code Part.FSTAT)
  | IOERR_DELETE => part 14 (Part.RCIOError_code Part.IO_DELETE)
  | IOERR_BLOCKED => part 14 (Part.RCIOError_code Part.BLOCKED)
  | IOERR_ACCESS => part 14 (Part.RCIOError_code Part.ACCESS)
  | IOERR_CHECKRESERVEDLOCK => part 14 (Part.RCIOError_code Part.CHECKRESERVEDLOCK)
  | IOERR_CLOSE => part 14 (Part.RCIOError_code Part.CLOSE)
  | IOERR_DIR_CLOSE => part 14 (Part.RCIOError_code Part.DIR_CLOSE)
  | IOERR_SHMOPEN => part 14 (Part.RCIOError_code Part.SHMOPEN)
  | IOERR_SHMSIZE => part 14 (Part.RCIOError_code Part.SHMSIZE)
  | IOERR_SHMLOCK => part 14 (Part.RCIOError_code Part.SHMLOCK)
  | IOERR_SHMMAP => part 14 (Part.RCIOError_code Part.SHMMAP)
  | IOERR_SEEK => part 14 (Part.RCIOError_code Part.SEEK)
  | IOERR_DELETE_NOENT => part 14 (Part.RCIOError_code Part.DELETE_NOENT)
  | IOERR_MMAP => part 14 (Part.RCIOError_code Part.MMAP)
  | IOERR_GETTEMPPATH => part 14 (Part.RCIOError_code Part.GETTEMPPATH)
  | IOERR_CONVPATH => part 14 (Part.RCIOError_code Part.IO_CONVPATH)
  | IOERR_VNODE => part 14 (Part.RCIOError_code Part.VNODE)
  | IOERR_BEGIN_ATOMIC => part 14 (Part.RCIOError_code Part.BEGIN_ATOMIC)
  | IOERR_COMMIT_ATOMIC => part 14 (Part.RCIOError_code Part.COMMIT_ATOMIC)
  | IOERR_ROLLBACK_ATOMIC => part 14 (Part.RCIOError_code Part.ROLLBACK_ATOMIC)
  | IOERR_DATA => part 14 (Part.RCIOError_code Part.DATA)
  | IOERR_CORRUPTFS => part 14 (Part.RCIOError_code Part.CORRUPTFS)
  | IOERR_OPEN_TOO_MANY_FILES => part 14 (Part.RCIOError_code Part.OPEN_TOO_MANY_FILES)
  | LOCKED_LOCK => part 10 (Part.RCLock_code Part.LOCK)
  | LOCKED_UNLOCK => part 10 (Part.RCLock_code Part.UNLOCK)
  | LOCKED_SHAREDCACHE => part 10 (Part.RCLock_code Part.SHAREDCACHE)
  | LOCKED_VIRT => part 10 (Part.RCLock_code Part.LVIRT)
  | LOCKED_NEED_WAIT => part 10 (Part.RCLock_code Part.NEED_WAIT)
  | LOCKED_RESOURCE_DELETED => part 10 (Part.RCLock_code Part.RESOURCE_DELETED)
  | BUSY_RECOVERY => part 9 (Part.RCBusy_code Part.BRECOVERY)
  | BUSY_SNAPSHOT => part 9 (Part.RCBusy_code Part.SNAPSHOT)
  | BUSY_TIMEOUT => part 9 (Part.RCBusy_code Part.TIMEOUT)
  | CANTOPEN_NOTEMPDIR => part 18 (Part.RCCantOpen_code Part.NOTEMPDIR)
  | CANTOPEN_ISDIR => part 18 (Part.RCCantOpen_code Part.ISDIR)
  | CANTOPEN_FULLPATH => part 18 (Part.RCCantOpen_code Part.FULLPATH)
  | CANTOPEN_CONVPATH => part 18 (Part.RCCantOpen_code Part.CO_CONVPATH)
  | CANTOPEN_DIRTYWAL => part 18 (Part.RCCantOpen_code Part.DIRTYWAL)
  | CANTOPEN_SYMLINK => part 18 (Part.RCCantOpen_code Part.SYMLINK)
  | READONLY_RECOVERY => part 12 (Part.RCReadonly_code Part.RO_RECOVERY)
  | READONLY_CANTLOCK => part 12 (Part.RCReadonly_code Part.CANTLOCK)
  | READONLY_ROLLBACK => part 12 (Part.RCReadonly_code Part.RO_ROLLBACK)
  | READONLY_DBMOVED => part 12 (Part.RCReadonly_code Part.DBMOVED)
  | READONLY_CANTINIT => part 12 (Part.RCReadonly_code Part.CANTINIT)
  | READONLY_DIRECTORY => part 12 (Part.RCReadonly_code Part.DIRECTORY)
  | ABORT_ROLLBACK => part 8 (Part.RCAbort_code Part.AROLLBACK)
  | CONSTRAINT_CHECK => part 23 (Part.RCContraint_code Part.CHECK)
  | CONSTRAINT_COMMITHOOK => part 23 (Part.RCContraint_code Part.COMMITHOOK)
  | CONSTRAINT_FOREIGNKEY => part 23 (Part.RCContraint_code Part.FOREIGNKEY)
  | CONSTRAINT_FUNCTION => part 23 (Part.RCContraint_code Part.FUNCTION)
  | CONSTRAINT_NOTNULL => part 23 (Part.RCContraint_code Part.NOTNULL)
  | CONSTRAINT_PRIMARYKEY => part 23 (Part.RCContraint_code Part.PRIMARYKEY)
  | CONSTRAINT_TRIGGER => part 23 (Part.RCContraint_code Part.TRIGGER)
  | CONSTRAINT_UNIQUE => part 23 (Part.RCContraint_code Part.UNIQUE)
  | CONSTRAINT_VIRT => part 23 (Part.RCContraint_code Part.CVIRT)
  | CONSTRAINT_ROWID => part 23 (Part.RCContraint_code Part.ROWID)
  | CONSTRAINT_PINNED => part 23 (Part.RCContraint_code Part.PINNED)
  | NOTICE_RECOVER_WAL => part 100 (Part.RCNotice_code Part.RECOVER_WAL)
  | NOTICE_RECOVER_ROLLBACK => part 100 (Part.RCNotice_code Part.RECOVER_ROLLBACK)
  | NOTICE_AUTOINDEX => part 100 (Part.RCNotice_code Part.AUTOINDEX)
  | AUTH_USER => part 27 (Part.RCAuth_code Part.USER)
  end.

(** [strrc]: every enumerator has its case. *)
Definition strrc (rc : RC) : string :=
  match rc with
  | SUCCESS => "SUCCESS" | GENERIC_ERROR => "GENERIC_ERROR" | INVALID_ARGUMENT => "INVALID_ARGUMENT"
  | SQL_SYNTAX => "SQL_SYNTAX" | BUFFERPOOL => "BUFFERPOOL" | RECORD => "RECORD"
  | INTERNAL => "INTERNAL" | PERM => "PERM" | ABORT => "ABORT" | BUSY => "BUSY" | LOCKED => "LOCKED"
  | NOMEM => "NOMEM" | READONLY => "READONLY" | INTERRUPT => "INTERRUPT" | IOERR => "IOERR"
  | CORRUPT => "CORRUPT" | NOTFOUND => "NOTFOUND" | FULL => "FULL" | CANTOPEN => "CANTOPEN"
  | PROTOCOL => "PROTOCOL" | EMPTY => "EMPTY" | SCHEMA => "SCHEMA" | TOOBIG => "TOOBIG"
  | CONSTRAINT => "CONSTRAINT" | MISMATCH => "MISMATCH" | MISUSE => "MISUSE" | NOLFS => "NOLFS"
  | AUTH => "AUTH" | FORMAT => "FORMAT" | RANGE => "RANGE" | NOTADB => "NOTADB" | NOTICE => "NOTICE"
  | BUFFERPOOL_EXIST => "BUFFERPOOL_EXIST" | BUFFERPOOL_FILEERR => "BUFFERPOOL_FILEERR"
  | BUFFERPOOL_INVALIDNAME => "BUFFERPOOL_INVALIDNAME" | BUFFERPOOL_WINDOWS => "BUFFERPOOL_WINDOWS"
  | BUFFERPOOL_CLOSED => "BUFFERPOOL_CLOSED" | BUFFERPOOL_OPEN => "BUFFERPOOL_OPEN"
  | BUFFERPOOL_NOBUF => "BUFFERPOOL_NOBUF" | BUFFERPOOL_EOF => "BUFFERPOOL_EOF"
  | BUFFERPOOL_INVALID_PAGE_NUM => "BUFFERPOOL_INVALID_PAGE_NUM"
  | BUFFERPOOL_NOTINBUF => "BUFFERPOOL_NOTINBUF"
  | BUFFERPOOL_PAGE_PINNED => "BUFFERPOOL_PAGE_PINNED"
  | BUFFERPOOL_OPEN_TOO_MANY_FILES => "BUFFERPOOL_OPEN_TOO_MANY_FILES"
  | BUFFERPOOL_ILLEGAL_FILE_ID => "BUFFERPOOL_ILLEGAL_FILE_ID" | RECORD_CLOSED => "RECORD_CLOSED"
  | RECORD_OPENNED => "RECORD_OPENNED" | RECORD_INVALIDRECSIZE => "RECORD_INVALIDRECSIZE"
  | RECORD_INVALIDRID => "RECORD_INVALIDRID" | RECORD_NOMORERECINMEM => "RECORD_NOMORERECINMEM"
  | RECORD_OPEN => "RECORD_OPEN" | RECORD_NO_MORE_IDX_IN_MEM => "RECORD_NO_MORE_IDX_IN_MEM"
  | RECORD_INVALID_KEY => "RECORD_INVALID_KEY" | RECORD_DUPLICATE_KEY => "RECORD_DUPLICATE_KEY"
  | RECORD_NOMEM => "RECORD_NOMEM" | RECORD_SCANCLOSED => "RECORD_SCANCLOSED"
  | RECORD_SCANOPENNED => "RECORD_SCANOPENNED" | RECORD_EOF => "RECORD_EOF"
  | RECORD_RECORD_NOT_EXIST => "RECORD_RECORD_NOT_EXIST" | SCHEMA_DB_EXIST => "SCHEMA_DB_EXIST"
  | SCHEMA_DB_NOT_EXIST => "SCHEMA_DB_NOT_EXIST" | SCHEMA_DB_NOT_OPENED => "SCHEMA_DB_NOT_OPENED"
  | SCHEMA_TABLE_NOT_EXIST => "SCHEMA_TABLE_NOT_EXIST" | SCHEMA_TABLE_EXIST => "SCHEMA_TABLE_EXIST"
  | SCHEMA_TABLE_NAME_ILLEGAL => "SCHEMA_TABLE_NAME_ILLEGAL"
  | SCHEMA_FIELD_NOT_EXIST => "SCHEMA_FIELD_NOT_EXIST" | SCHEMA_FIELD_EXIST => "SCHEMA_FIELD_EXIST"
  | SCHEMA_FIELD_NAME_ILLEGAL => "SCHEMA_FIELD_NAME_ILLEGAL"
  | SCHEMA_FIELD_MISSING => "SCHEMA_FIELD_MISSING"
  | SCHEMA_FIELD_REDUNDAN => "SCHEMA_FIELD_REDUNDAN"
  | SCHEMA_FIELD_TYPE_MISMATCH => "SCHEMA_FIELD_TYPE_MISMATCH"
  | SCHEMA_INDEX_NAME_REPEAT => "SCHEMA_INDEX_NAME_REPEAT"
  | SCHEMA_INDEX_EXIST => "SCHEMA_INDEX_EXIST" | SCHEMA_INDEX_NOT_EXIST => "SCHEMA_INDEX_NOT_EXIST"
  | SCHEMA_INDEX_NAME_ILLEGAL => "SCHEMA_INDEX_NAME_ILLEGAL" | IOERR_READ => "IOERR_READ"
  | IOERR_SHORT_READ => "IOERR_SHORT_READ" | IOERR_WRITE => "IOERR_WRITE"
  | IOERR_FSYNC => "IOERR_FSYNC" | IOERR_DIR_FSYNC => "IOERR_DIR_FSYNC"
  | IOERR_TRUNCATE => "IOERR_TRUNCATE" | IOERR_FSTAT => "IOERR_FSTAT"
  | IOERR_DELETE => "IOERR_DELETE" | IOERR_BLOCKED => "IOERR_BLOCKED"
  | IOERR_ACCESS => "IOERR_ACCESS" | IOERR_CHECKRESERVEDLOCK => "IOERR_CHECKRESERVEDLOCK"
  | IOERR_CLOSE => "IOERR_CLOSE" | IOERR_DIR_CLOSE => "IOERR_DIR_CLOSE"
  | IOERR_SHMOPEN => "IOERR_SHMOPEN" | IOERR_SHMSIZE => "IOERR_SHMSIZE"
  | IOERR_SHMLOCK => "IOERR_SHMLOCK" | IOERR_SHMMAP => "IOERR_SHMMAP" | IOERR_SEEK => "IOERR_SEEK"
  | IOERR_DELETE_NOENT => "IOERR_DELETE_NOENT" | IOERR_MMAP => "IOERR_MMAP"
  | IOERR_GETTEMPPATH => "IOERR_GETTEMPPATH" | IOERR_CONVPATH => "IOERR_CONVPATH"
  | IOERR_VNODE => "IOERR_VNODE" | IOERR_BEGIN_ATOMIC => "IOERR_BEGIN_ATOMIC"
  | IOERR_COMMIT_ATOMIC => "IOERR_COMMIT_ATOMIC" | IOERR_ROLLBACK_ATOMIC => "IOERR_ROLLBACK_ATOMIC"
  | IOERR_DATA => "IOERR_DATA" | IOERR_CORRUPTFS => "IOERR_CORRUPTFS"
  | IOERR_OPEN_TOO_MANY_FILES => "IOERR_OPEN_TOO_MANY_FILES" | LOCKED_LOCK => "LOCKED_LOCK"
  | LOCKED_UNLOCK => "LOCKED_UNLOCK" | LOCKED_SHAREDCACHE => "LOCKED_SHAREDCACHE"
  | LOCKED_VIRT => "LOCKED_VIRT" | LOCKED_NEED_WAIT => "LOCKED_NEED_WAIT"
  | LOCKED_RESOURCE_DELETED => "LOCKED_RESOURCE_DELETED" | BUSY_RECOVERY => "BUSY_RECOVERY"
  | BUSY_SNAPSHOT => "BUSY_SNAPSHOT" | BUSY_TIMEOUT => "BUSY_TIMEOUT"
  | CANTOPEN_NOTEMPDIR => "CANTOPEN_NOTEMPDIR" | CANTOPEN_ISDIR => "CANTOPEN_ISDIR"
  | CANTOPEN_FULLPATH => "CANTOPEN_FULLPATH" | CANTOPEN_CONVPATH => "CANTOPEN_CONVPATH"
  | CANTOPEN_DIRTYWAL => "CANTOPEN_DIRTYWAL" | CANTOPEN_SYMLINK => "CANTOPEN_SYMLINK"
  | READONLY_RECOVERY => "READONLY_RECOVERY" | READONLY_CANTLOCK => "READONLY_CANTLOCK"
  | READONLY_ROLLBACK => "READONLY_ROLLBACK" | READONLY_DBMOVED => "READONLY_DBMOVED"
  | READONLY_CANTINIT => "READONLY_CANTINIT" | READONLY_DIRECTORY => "READONLY_DIRECTORY"
  | ABORT_ROLLBACK => "ABORT_ROLLBACK" | CONSTRAINT_CHECK => "CONSTRAINT_CHECK"
  | CONSTRAINT_COMMITHOOK => "CONSTRAINT_COMMITHOOK"
  | CONSTRAINT_FOREIGNKEY => "CONSTRAINT_FOREIGNKEY" | CONSTRAINT_FUNCTION => "CONSTRAINT_FUNCTION"
  | CONSTRAINT_NOTNULL => "CONSTRAINT_NOTNULL" | CONSTRAINT_PRIMARYKEY => "CONSTRAINT_PRIMARYKEY"
  | CONSTRAINT_TRIGGER => "CONSTRAINT_TRIGGER" | CONSTRAINT_UNIQUE => "CONSTRAINT_UNIQUE"
  | CONSTRAINT_VIRT => "CONSTRAINT_VIRT" | CONSTRAINT_ROWID => "CONSTRAINT_ROWID"
  | CONSTRAINT_PINNED => "CONSTRAINT_PINNED" | NOTICE_RECOVER_WAL => "NOTICE_RECOVER_WAL"
  | NOTICE_RECOVER_ROLLBACK => "NOTICE_RECOVER_ROLLBACK" | NOTICE_AUTOINDEX => "NOTICE_AUTOINDEX"
  | AUTH_USER => "AUTH_USER"
  end%string.

Definition all_rc : list RC :=
  [SUCCESS; GENERIC_ERROR; INVALID_ARGUMENT; SQL_SYNTAX; BUFFERPOOL; RECORD; INTERNAL; PERM; ABORT;
   BUSY; LOCKED; NOMEM; READONLY; INTERRUPT; IOERR; CORRUPT; NOTFOUND; FULL; CANTOPEN; PROTOCOL;
   EMPTY; SCHEMA; TOOBIG; CONSTRAINT; MISMATCH; MISUSE; NOLFS; AUTH; FORMAT; RANGE; NOTADB; NOTICE;
   BUFFERPOOL_EXIST; BUFFERPOOL_FILEERR; BUFFERPOOL_INVALIDNAME; BUFFERPOOL_WINDOWS;
   BUFFERPOOL_CLOSED; BUFFERPOOL_OPEN; BUFFERPOOL_NOBUF; BUFFERPOOL_EOF;
   BUFFERPOOL_INVALID_PAGE_NUM; BUFFERPOOL_NOTINBUF; BUFFERPOOL_PAGE_PINNED;
   BUFFERPOOL_OPEN_TOO_MANY_FILES; BUFFERPOOL_ILLEGAL_FILE_ID; RECORD_CLOSED; RECORD_OPENNED;
   RECORD_INVALIDRECSIZE; RECORD_INVALIDRID; RECORD_NOMORERECINMEM; RECORD_OPEN;
   RECORD_NO_MORE_IDX_IN_MEM; RECORD_INVALID_KEY; RECORD_DUPLICATE_KEY; RECORD_NOMEM;
   RECORD_SCANCLOSED; RECORD_SCANOPENNED; RECORD_EOF; RECORD_RECORD_NOT_EXIST; SCHEMA_DB_EXIST;
   SCHEMA_DB_NOT_EXIST; SCHEMA_DB_NOT_OPENED; SCHEMA_TABLE_NOT_EXIST; SCHEMA_TABLE_EXIST;
   SCHEMA_TABLE_NAME_ILLEGAL; SCHEMA_FIELD_NOT_EXIST; SCHEMA_FIELD_EXIST; SCHEMA_FIELD_NAME_ILLEGAL;
   SCHEMA_FIELD_MISSING; SCHEMA_FIELD_REDUNDAN; SCHEMA_FIELD_TYPE_MISMATCH;
   SCHEMA_INDEX_NAME_REPEAT; SCHEMA_INDEX_EXIST; SCHEMA_INDEX_NOT_EXIST; SCHEMA_INDEX_NAME_ILLEGAL;
   IOERR_READ; IOERR_SHORT_READ; IOERR_WRITE; IOERR_FSYNC; IOERR_DIR_FSYNC; IOERR_TRUNCATE;
   IOERR_FSTAT; IOERR_DELETE; IOERR_BLOCKED; IOERR_ACCESS; IOERR_CHECKRESERVEDLOCK; IOERR_CLOSE;
   IOERR_DIR_CLOSE; IOERR_SHMOPEN; IOERR_SHMSIZE; IOERR_SHMLOCK; IOERR_SHMMAP; IOERR_SEEK;
   IOERR_DELETE_NOENT; IOERR_MMAP; IOERR_GETTEMPPATH; IOERR_CONVPATH; IOERR_VNODE;
   IOERR_BEGIN_ATOMIC; IOERR_COMMIT_ATOMIC; IOERR_ROLLBACK_ATOMIC; IOERR_DATA; IOERR_CORRUPTFS;
   IOERR_OPEN_TOO_MANY_FILES; LOCKED_LOCK; LOCKED_UNLOCK; LOCKED_SHAREDCACHE; LOCKED_VIRT;
   LOCKED_NEED_WAIT; LOCKED_RESOURCE_DELETED; BUSY_RECOVERY; BUSY_SNAPSHOT; BUSY_TIMEOUT;
   CANTOPEN_NOTEMPDIR; CANTOPEN_ISDIR; CANTOPEN_FULLPATH; CANTOPEN_CONVPATH; CANTOPEN_DIRTYWAL;
   CANTOPEN_SYMLINK; READONLY_RECOVERY; READONLY_CANTLOCK; READONLY_ROLLBACK; READONLY_DBMOVED;
   READONLY_CANTINIT; READONLY_DIRECTORY; ABORT_ROLLBACK; CONSTRAINT_CHECK; CONSTRAINT_COMMITHOOK;
   CONSTRAINT_FOREIGNKEY; CONSTRAINT_FUNCTION; CONSTRAINT_NOTNULL; CONSTRAINT_PRIMARYKEY;
   CONSTRAINT_TRIGGER; CONSTRAINT_UNIQUE; CONSTRAINT_VIRT; CONSTRAINT_ROWID; CONSTRAINT_PINNED;
   NOTICE_RECOVER_WAL; NOTICE_RECOVER_ROLLBACK; NOTICE_AUTOINDEX; AUTH_USER ].

Lemma all_rc_complete rc : In rc all_rc.
Proof. destruct rc; repeat (first [left; reflexivity | right]). Qed.

(** Decides injectivity on a list by comparing neighbours of the sorted images. *)
Lemma inj_by_NoDup {A B} (f : A -> B) (l : list A) :
  (forall a, In a l) -> List.NoDup (map f l) -> forall a b, f a = f b -> a = b.
Proof.
  intros Hall Hnd a b Hab. induction l as [|c l IH]; [by destruct (Hall a)|].
  assert (Hgen : forall l : list A, List.NoDup (map f l) -> In a l -> In b l -> a = b).
  { clear -Hab. induction l as [|d l IH]; simpl; [tauto|].
    intros Hnd Ha Hb. inversion Hnd as [|? ? Hnin Hnd']; subst.
    destruct Ha as [->|Ha], Hb as [->|Hb]; try done.
    - exfalso. apply Hnin. rewrite Hab. by apply in_map.
    - exfalso. apply Hnin. rewrite <- Hab. by apply in_map.
    - by apply IH. }
  by apply (Hgen (c :: l)).
Qed.

Lemma rc_code_inj : Inj (=) (=) rc_code.
Proof.
  intros a b. apply (inj_by_NoDup _ all_rc); [apply all_rc_complete|].
  by apply NoDup_ListNoDup, (bool_decide_unpack (NoDup (map rc_code all_rc))); vm_compute.
Qed.

Lemma strrc_inj : Inj (=) (=) strrc.
Proof.
  intros a b. apply (inj_by_NoDup _ all_rc); [apply all_rc_complete|].
  by apply NoDup_ListNoDup, (bool_decide_unpack (NoDup (map strrc all_rc))); vm_compute.
Qed.

(** Codes are compared by value, as the program does. *)
#[export] Instance RC_eq_dec : EqDecision RC.
Proof.
  refine (fun a b => cast_if (decide (rc_code a = rc_code b))).
  - by apply rc_code_inj.
  - by intros ->.
Defined.

(** The values of the enumerators of [enum RC] are pairwise distinct and
    non-negative, only [SUCCESS] is zero, and [strrc] prints two different codes
    differently: a caller that compares codes or reads the log never confuses two of them. *)
Theorem rc_codes_distinct :
  Inj (=) (=) rc_code /\ Inj (=) (=) strrc /\
  (forall rc, 0 <= rc_code rc) /\ (forall rc, rc_code rc = 0 <-> rc = SUCCESS).
Proof.
  split_and!.
  - apply rc_code_inj.
  - apply strrc_inj.
  - by destruct rc; vm_compute.
  - by destruct rc; vm_compute; split.
Qed.
