(* ===== verification/Effects.v ===== *)
(** * Effects

    The program's functions change state and report failure with an early
    [return rc].  [M S A] is a computation over the state [S]: its result is a value,
    a return code other than success, undefined behaviour of the C++ program
    ([Ub]: null dereference, access outside an object, failed [assert]), or an
    exhausted fuel argument ([OutOfFuel], the only result that is not one of the
    program).  The state is kept in every case: an early return does not undo the
    changes made before it. *)
From S2P Require Import Prelude ReturnCode.

Inductive res (A : Type) :=
| Ok (a : A)
| Err (rc : RC)
| Ub
| OutOfFuel.

Arguments Ok {A} a.
Arguments Err {A} rc.
Arguments Ub {A}.
Arguments OutOfFuel {A}.

#[export] Instance res_eq_dec `{!EqDecision A} : EqDecision (res A).
Proof. solve_decision. Defined.

Definition M (S A : Type) : Type := S -> res A * S.

Definition ret {S A} (a : A) : M S A := fun s => (Ok a, s).

Definition bind {S A B} (m : M S A) (k : A -> M S B) : M S B := fun s =>
  match m s with
  | (Ok a, s') => k a s'
  | (Err rc, s') => (Err rc, s')
  | (Ub, s') => (Ub, s')
  | (OutOfFuel, s') => (OutOfFuel, s')
  end.

(** [return rc;] with [rc <> SUCCESS]. *)
Definition fail {S A} (rc : RC) : M S A := fun s => (Err rc, s).
Definition undefined {S A} : M S A := fun s => (Ub, s).
Definition no_fuel {S A} : M S A := fun s => (OutOfFuel, s).
Definition get {S} : M S S := fun s => (Ok s, s).
Definition modify {S} (f : S -> S) : M S unit := fun s => (Ok tt, f s).
Definition gets {S A} (f : S -> A) : M S A := fun s => (Ok (f s), s).

(** [rc = f();] with [rc] kept in a variable instead of returned. *)
Definition rc_of {S} (m : M S unit) : M S RC := fun s =>
  match m s with
  | (Ok _, s') => (Ok SUCCESS, s')
  | (Err rc, s') => (Ok rc, s')
  | (Ub, s') => (Ub, s')
  | (OutOfFuel, s') => (OutOfFuel, s')
  end.

(** As [rc_of] for a function with an output parameter. *)
Definition try {S A} (m : M S A) : M S (RC + A) := fun s =>
  match m s with
  | (Ok a, s') => (Ok (inr a), s')
  | (Err rc, s') => (Ok (inl rc), s')
  | (Ub, s') => (Ub, s')
  | (OutOfFuel, s') => (OutOfFuel, s')
  end.

(** [return rc;] with [rc] in a variable. *)
Definition return_rc {S} (rc : RC) : M S unit :=
  match rc with SUCCESS => ret tt | _ => fail rc end.

Notation "'let!' x ':=' m 'in' k" := (bind m (fun x => k))
  (at level 10, x pattern, m at level 100, k at level 200,
   format "'let!'  x  ':='  m  'in' '//' k") : c_scope.
Notation "m ;; k" := (bind m (fun _ => k))
  (at level 100, k at level 200, right associativity, format "m ;; '//' k") : c_scope.

(** The guards [if (b) return rc;] and [if (b) { undefined behaviour }]. *)
Definition fail_if {S} (b : bool) (rc : RC) : M S unit := if b then fail rc else ret tt.
Definition undefined_if {S} (b : bool) : M S unit := if b then undefined else ret tt.

(** Runs [m i] for [i = lo, ..., lo + n - 1], stopping at the first failure. *)
Fixpoint for_m {S} (n : nat) (i : Z) (m : Z -> M S unit) : M S unit :=
  match n with
  | O => ret tt
  | Datatypes.S n' => bind (m i) (fun _ => for_m n' (i + 1) m)
  end.

Fixpoint iter_m {S A} (l : list A) (m : A -> M S unit) : M S unit :=
  match l with
  | [] => ret tt
  | x :: l' => bind (m x) (fun _ => iter_m l' m)
  end.

Section laws.
Context {S A B : Type}.
Implicit Types (m : M S A) (k : A -> M S B) (s : S).

Lemma bind_Ok m k s b s' :
  bind m k s = (Ok b, s') <-> exists a s1, m s = (Ok a, s1) /\ k a s1 = (Ok b, s').
Proof.
  unfold bind. split.
  - destruct (m s) as [[a|rc| |] s1]; intros; simplify_eq; eauto.
  - by intros (a & s1 & -> & ?).
Qed.

Lemma bind_run m k s a s1 : m s = (Ok a, s1) -> bind m k s = k a s1.
Proof. unfold bind. by intros ->. Qed.

Lemma bind_run_Err m k s rc s1 : m s = (Err rc, s1) -> bind m k s = (Err rc, s1).
Proof. unfold bind. by intros ->. Qed.

Lemma bind_ret (a : A) k s : bind (ret a) k s = k a s.
Proof. done. Qed.
End laws.

(** [keeps R m]: whatever [m] returns, the final state is related to the initial one.
    With [R] an invariant ("holds before implies holds after") this is preservation. *)
Definition keeps {S A} (R : S -> S -> Prop) (m : M S A) : Prop :=
  forall s, R s (snd (m s)).

Lemma keeps_bind {S A B} (R : S -> S -> Prop) `{!Transitive R} (m : M S A) (k : A -> M S B) :
  keeps R m -> (forall a, keeps R (k a)) -> keeps R (bind m k).
Proof.
  intros Hm Hk s. specialize (Hm s). unfold bind.
  destruct (m s) as [[a|rc| |] s1]; simpl in *; try done.
  etrans; [done|]. apply Hk.
Qed.

Lemma keeps_ret {S A} (R : S -> S -> Prop) `{!Reflexive R} (a : A) : keeps R (ret a).
Proof. intros s. simpl. reflexivity. Qed.

Lemma keeps_fail {S A} (R : S -> S -> Prop) `{!Reflexive R} rc : keeps R (@fail S A rc).
Proof. intros s. simpl. reflexivity. Qed.

Lemma keeps_rc_of {S} (R : S -> S -> Prop) (m : M S unit) : keeps R m -> keeps R (rc_of m).
Proof. intros Hm s. specialize (Hm s). unfold rc_of. by destruct (m s) as [[]]. Qed.

Lemma keeps_iter {S A} (R : S -> S -> Prop) `{!PreOrder R} (l : list A) (m : A -> M S unit) :
  (forall x, keeps R (m x)) -> keeps R (iter_m l m).
Proof.
  intros Hm. induction l as [|x l IH]; simpl.
  - apply keeps_ret, _.
  - apply keeps_bind; [apply _|apply Hm|]. done.
Qed.

Create HintDb effects.
#[export] Hint Resolve keeps_ret keeps_fail keeps_rc_of : effects.

(** An [Err] never carries [SUCCESS]. *)
Definition err_fails {S A} (m : M S A) : Prop := forall s s', m s <> (Err SUCCESS, s').

Lemma err_fails_bind {S A B} (m : M S A) (k : A -> M S B) :
  err_fails m -> (forall a, err_fails (k a)) -> err_fails (bind m k).
Proof.
  intros Hm Hk s s'. unfold bind. destruct (m s) as [[a|rc| |] s1] eqn:E; try done.
  - apply Hk.
  - intros Heq. simplify_eq. by apply Hm in E.
Qed.

Lemma err_fails_fail {S A} rc : rc <> SUCCESS -> err_fails (@fail S A rc).
Proof. intros Hrc s s'. unfold fail. intros [= ->]. done. Qed.

Lemma err_fails_if {S A} (b : bool) (m1 m2 : M S A) :
  err_fails m1 -> err_fails m2 -> err_fails (if b then m1 else m2).
Proof. by destruct b. Qed.

Lemma err_fails_fail_if {S} (b : bool) rc : rc <> SUCCESS -> err_fails (@fail_if S b rc).
Proof. intros. apply err_fails_if; [by apply err_fails_fail|done]. Qed.

Lemma err_fails_iter {S A} (l : list A) (m : A -> M S unit) :
  (forall x, err_fails (m x)) -> err_fails (iter_m l m).
Proof.
  intros Hm. induction l; simpl; [done|]. by apply err_fails_bind.
Qed.

Create HintDb err_fails.

(** Proves [err_fails] by following the structure of a computation. *)
Ltac err_fails_tac :=
  repeat first
    [ assumption
    | apply err_fails_bind; [|intros]
    | apply err_fails_fail; discriminate
    | apply err_fails_fail_if; discriminate
    | apply err_fails_if
    | apply err_fails_iter; intros
    | solve [intros ? ?; done]
    | solve [auto with err_fails nocore]
    | match goal with |- err_fails (match ?x with _ => _ end) => destruct x end ].

(** A computation without undefined behaviour that needs no fuel: it returns. *)
Definition defined {S A} (m : M S A) : Prop := forall s, (m s).1 <> Ub /\ (m s).1 <> OutOfFuel.

Lemma defined_bind_at {S A B} (m : M S A) (k : A -> M S B) s :
  (m s).1 <> Ub /\ (m s).1 <> OutOfFuel -> (forall a, defined (k a)) ->
  (bind m k s).1 <> Ub /\ (bind m k s).1 <> OutOfFuel.
Proof.
  intros Hm Hk. unfold bind. destruct (m s) as [[a|rc| |] s1]; simpl in *; [apply Hk|..]; naive_solver.
Qed.

Lemma defined_bind {S A B} (m : M S A) (k : A -> M S B) :
  defined m -> (forall a, defined (k a)) -> defined (bind m k).
Proof. intros Hm Hk s. by apply defined_bind_at. Qed.

Lemma defined_if {S A} (b : bool) (m1 m2 : M S A) : defined m1 -> defined m2 -> defined (if b then m1 else m2).
Proof. by destruct b. Qed.

Lemma defined_rc_of {S} (m : M S unit) : defined m -> defined (rc_of m).
Proof. intros Hm s. specialize (Hm s). unfold rc_of. destruct (m s) as [[]]; simpl in *; naive_solver. Qed.

Lemma defined_try {S A} (m : M S A) : defined m -> defined (try m).
Proof. intros Hm s. specialize (Hm s). unfold try. destruct (m s) as [[]]; simpl in *; naive_solver. Qed.

Lemma defined_fail_if {S} (b : bool) rc : defined (@fail_if S b rc).
Proof. by destruct b. Qed.

Create HintDb defined.
#[export] Hint Resolve defined_fail_if : defined.

(** Proves [defined] by following the structure of a computation. *)
Ltac defined_tac :=
  repeat first
    [ assumption
    | solve [intros ?; done]
    | solve [auto with defined nocore]
    | apply defined_bind; [|intros]
    | apply defined_rc_of
    | apply defined_try
    | apply defined_if
    | match goal with |- defined (match ?x with _ => _ end) => destruct x end ].

(** ** Execution of a step *)

Section steps.
Context {S A B : Type}.
Implicit Types (s : S).

Lemma bind_gets (f : S -> A) (k : A -> M S B) s : bind (gets f) k s = k (f s) s.
Proof. done. Qed.
Lemma bind_get (k : S -> M S B) s : bind get k s = k s s.
Proof. done. Qed.
Lemma bind_modify (f : S -> S) (k : unit -> M S B) s : bind (modify f) k s = k tt (f s).
Proof. done. Qed.
Lemma bind_fail (rc : RC) (k : A -> M S B) s : bind (fail rc) k s = (Err rc, s).
Proof. done. Qed.
Lemma bind_undefined (k : A -> M S B) s : bind undefined k s = (Ub, s).
Proof. done. Qed.
Lemma bind_fail_if (b : bool) rc (k : unit -> M S B) s :
  bind (fail_if b rc) k s = if b then (Err rc, s) else k tt s.
Proof. by destruct b. Qed.
Lemma bind_undefined_if (b : bool) (k : unit -> M S B) s :
  bind (undefined_if b) k s = if b then (Ub, s) else k tt s.
Proof. by destruct b. Qed.
Lemma bind_if (b : bool) (m1 m2 : M S A) (k : A -> M S B) s :
  bind (if b then m1 else m2) k s = if b then bind m1 k s else bind m2 k s.
Proof. by destruct b. Qed.
Lemma bind_assoc {C} (m : M S A) (k : A -> M S B) (l : B -> M S C) s :
  bind (bind m k) l s = bind m (fun a => bind (k a) l) s.
Proof. unfold bind. by destruct (m s) as [[]]. Qed.
Lemma ret_inv (a : A) s r s' : ret a s = (r, s') -> r = Ok a /\ s' = s.
Proof. unfold ret. intros. by simplify_eq. Qed.
Lemma bind_rc_of (m : M S unit) (k : RC -> M S B) s r s1 :
  m s = (r, s1) ->
  bind (rc_of m) k s =
    match r with
    | Ok _ => k SUCCESS s1 | Err rc => k rc s1 | Ub => (Ub, s1) | OutOfFuel => (OutOfFuel, s1)
    end.
Proof. unfold bind, rc_of. intros ->. by destruct r. Qed.
Lemma bind_try (m : M S A) (k : RC + A -> M S B) s r s1 :
  m s = (r, s1) ->
  bind (try m) k s =
    match r with
    | Ok a => k (inr a) s1 | Err rc => k (inl rc) s1 | Ub => (Ub, s1) | OutOfFuel => (OutOfFuel, s1)
    end.
Proof. unfold bind, try. intros ->. by destruct r. Qed.
End steps.

(** Simplifies the run of a computation in hypothesis [H] until a call. *)
Ltac step_in H :=
  match type of H with
  | bind (bind _ _) _ _ = _ => rewrite bind_assoc in H
  | bind (gets _) _ _ = _ => rewrite bind_gets in H
  | bind get _ _ = _ => rewrite bind_get in H
  | bind (modify _) _ _ = _ => rewrite bind_modify in H
  | bind (ret _) _ _ = _ => rewrite bind_ret in H
  | bind (fail _) _ _ = _ => rewrite bind_fail in H
  | bind undefined _ _ = _ => rewrite bind_undefined in H
  | bind (fail_if ?b _) _ _ = _ =>
      rewrite bind_fail_if in H; let E := fresh "Hg" in destruct b eqn:E
  | bind (undefined_if ?b) _ _ = _ =>
      rewrite bind_undefined_if in H; let E := fresh "Hg" in destruct b eqn:E
  | bind (if ?b then _ else _) _ _ = _ =>
      rewrite bind_if in H; let E := fresh "Hg" in destruct b eqn:E
  end; cbv beta in H.

Ltac steps_in H := repeat (step_in H; try discriminate H).

(** Inverts a successful run [H]; the failing branches are closed. *)
Ltac inv_ok H :=
  steps_in H;
  try match type of H with
  | bind ?m ?k ?s = (Ok _, _) =>
      let a := fresh "x" in let s1 := fresh "s" in let H1 := fresh "Hm" in
      apply bind_Ok in H as (a & s1 & H1 & H); cbv beta in H
  end.
