(* ===== verification/Bitmap.v ===== *)
(** * Bitmap (deps/common/lang/bitmap.cpp)

    [common::Bitmap] is a view of raw memory: [mem] is the memory from the pointer
    [bitmap_] on, one [Z] in [0, 256) per [char], and [size] the number of bits.  The
    memory may be longer than the bitmap: in a record page the records follow it.
    A read outside [mem] makes the scan functions return [None]. *)
From S2P Require Import Prelude.

(** The value of a [char] that holds the bits of [b]. *)
Definition schar (b : Z) : Z := if b <? 128 then b else b - 256.

Definition is_byte (b : Z) : Prop := 0 <= b < 256.

Definition find_first_zero (byte start : Z) : Z :=
  let i := scan start 8 (fun i => Z.land byte (Z.shiftl 1 i) =? 0) in
  if i <? 8 then i else -1.

Definition find_first_setted (byte start : Z) : Z :=
  let i := scan start 8 (fun i => negb (Z.land byte (Z.shiftl 1 i) =? 0)) in
  if i <? 8 then i else -1.

Definition get_bit (mem : list Z) (index : Z) : bool :=
  negb (Z.land (aget mem (Z.quot index 8)) (Z.shiftl 1 (Z.rem index 8)) =? 0).

(** [bits |= (1 << (index % 8))], stored back in a [char]. *)
Definition set_bit (mem : list Z) (index : Z) : list Z :=
  aset mem (Z.quot index 8)
    (Z.land (Z.lor (aget mem (Z.quot index 8)) (Z.shiftl 1 (Z.rem index 8))) 255).

(** [bits &= ~(1 << (index % 8))]. *)
Definition clear_bit (mem : list Z) (index : Z) : list Z :=
  aset mem (Z.quot index 8)
    (Z.land (Z.land (aget mem (Z.quot index 8)) (Z.lnot (Z.shiftl 1 (Z.rem index 8)))) 255).

(** The loop shared by the two scans: [skip] is the [char] value of a byte without a
    candidate, [find] the search inside a byte.  [start_in_byte] is reset only after
    a byte was searched. *)
Fixpoint next_bit_loop (skip : Z) (find : Z -> Z -> Z) (mem : list Z)
    (n : nat) (iter start_in_byte : Z) : option Z :=
  match n with
  | O => Some (-1)
  | S n' =>
      if negb (iter <? alen mem) then None
      else
        let byte := aget mem iter in
        if negb (schar byte =? skip) then
          let index_in_byte := find byte start_in_byte in
          if 0 <=? index_in_byte then Some (iter * 8 + index_in_byte)
          else next_bit_loop skip find mem n' (iter + 1) 0
        else next_bit_loop skip find mem n' (iter + 1) start_in_byte
  end.

Definition bitmap_end (size : Z) : Z :=
  if Z.rem size 8 =? 0 then Z.quot size 8 else Z.quot size 8 + 1.

Definition next_bit (skip : Z) (find : Z -> Z -> Z) (mem : list Z) (size start : Z) : option Z :=
  let lo := Z.quot start 8 in
  let n := Z.to_nat (bitmap_end size - lo + 1) in
  match next_bit_loop skip find mem n lo (Z.rem start 8) with
  | Some r => Some (if size <=? r then -1 else r)
  | None => None
  end.

Definition next_unsetted_bit (mem : list Z) (size start : Z) : option Z :=
  next_bit (-1) find_first_zero mem size start.

Definition next_setted_bit (mem : list Z) (size start : Z) : option Z :=
  next_bit 0 find_first_setted mem size start.

(** ** Specification *)

(** Bit [i] of the memory. *)
Definition bit (mem : list Z) (i : Z) : bool := Z.testbit (aget mem (i / 8)) (i mod 8).

Definition bytes_ok (mem : list Z) : Prop := Forall is_byte mem.

(** The result [r] of a scan from [start] for the first bit equal to [want]. *)
Definition first_bit (want : bool) (mem : list Z) (size start r : Z) : Prop :=
  (r = -1 /\ forall j, start <= j < size -> bit mem j = negb want) \/
  (start <= r < size /\ bit mem r = want /\ forall j, start <= j < r -> bit mem j = negb want).

(** ** Lemmas *)

Lemma aget_byte mem i : bytes_ok mem -> is_byte (aget mem i).
Proof.
  intros Hok. unfold aget. destruct (Z.ltb_spec i 0); [split; vm_compute; congruence|].
  destruct (decide (Z.to_nat i < length mem)%nat) as [Hlt|Hge].
  - destruct (lookup_lt_is_Some_2 _ _ Hlt) as [x Hx].
    rewrite (list_lookup_total_correct _ _ _ Hx). by eapply Forall_lookup_1.
  - rewrite list_lookup_total_alt, lookup_ge_None_2 by lia. split; vm_compute; congruence.
Qed.

Lemma bytes_ok_aset mem i b : bytes_ok mem -> is_byte b -> bytes_ok (aset mem i b).
Proof. intros. unfold aset. case_match; [done|]. by apply Forall_insert. Qed.

Lemma land_shiftl_testbit b i : 0 <= i -> (Z.land b (Z.shiftl 1 i) =? 0) = negb (Z.testbit b i).
Proof.
  intros Hi. rewrite Z.shiftl_1_l. destruct (Z.testbit b i) eqn:Hb; simpl.
  - apply Z.eqb_neq. intros H0.
    assert (Z.testbit (Z.land b (2 ^ i)) i = false) as H1 by (rewrite H0; apply Z.bits_0).
    rewrite Z.land_spec, Hb, Z.pow2_bits_true in H1 by lia. done.
  - apply Z.eqb_eq, Z.bits_inj'. intros n Hn. rewrite Z.land_spec, Z.bits_0.
    destruct (decide (n = i)) as [->|]; [by rewrite Hb|].
    rewrite Z.pow2_bits_false by lia. apply andb_false_r.
Qed.

Lemma byte_high_bits b i : is_byte b -> 8 <= i -> Z.testbit b i = false.
Proof.
  intros [H1 H2] Hi. destruct (decide (b = 0)) as [->|]; [apply Z.bits_0|].
  apply Z.bits_above_log2; [lia|]. apply Z.log2_lt_pow2; [lia|].
  apply Z.lt_le_trans with (2 ^ 8); [lia|]. apply Z.pow_le_mono_r; lia.
Qed.

Lemma land_255_testbit b i : 0 <= i < 8 -> Z.testbit (Z.land b 255) i = Z.testbit b i.
Proof.
  intros Hi. change 255 with (Z.ones 8). rewrite Z.land_spec, Z.ones_spec_low by lia.
  apply andb_true_r.
Qed.

Lemma land_255_byte b : is_byte (Z.land b 255).
Proof. change 255 with (Z.ones 8). rewrite Z.land_ones by lia. apply Z.mod_pos_bound. lia. Qed.

Lemma index_quot i : 0 <= i -> Z.quot i 8 = i / 8 /\ Z.rem i 8 = i mod 8.
Proof. intros. rewrite Z.quot_div_nonneg, Z.rem_mod_nonneg by lia. done. Qed.

Lemma get_bit_bit mem i : 0 <= i -> get_bit mem i = bit mem i.
Proof.
  intros Hi. unfold get_bit, bit. destruct (index_quot i Hi) as [-> ->].
  rewrite land_shiftl_testbit by (pose proof (Z.mod_pos_bound i 8); lia).
  apply negb_involutive.
Qed.

Lemma alen_set_bit mem i : alen (set_bit mem i) = alen mem.
Proof. apply alen_aset. Qed.

Lemma alen_clear_bit mem i : alen (clear_bit mem i) = alen mem.
Proof. apply alen_aset. Qed.

Lemma bytes_ok_set_bit mem i : bytes_ok mem -> bytes_ok (set_bit mem i).
Proof. intros. apply bytes_ok_aset; [done|]. apply land_255_byte. Qed.

Lemma bytes_ok_clear_bit mem i : bytes_ok mem -> bytes_ok (clear_bit mem i).
Proof. intros. apply bytes_ok_aset; [done|]. apply land_255_byte. Qed.

(** Updates of one bit, on the level of bits. *)
Lemma bit_aset_gen mem i j b v :
  0 <= i -> i / 8 < alen mem -> 0 <= j ->
  (forall n, 0 <= n < 8 -> Z.testbit b n = if n =? i mod 8 then v else Z.testbit (aget mem (i / 8)) n) ->
  bit (aset mem (i / 8) b) j = if j =? i then v else bit mem j.
Proof.
  intros Hi Hlen Hj Hb. unfold bit.
  assert (0 <= i / 8) by (apply Z.div_pos; lia).
  pose proof (Z.mod_pos_bound j 8 ltac:(lia)).
  rewrite aget_aset by lia.
  pose proof (Z.div_mod i 8 ltac:(lia)). pose proof (Z.div_mod j 8 ltac:(lia)).
  destruct (Z.eqb_spec (i / 8) (j / 8)) as [Heq|Hne].
  - rewrite Hb by lia. rewrite Heq. destruct (Z.eqb_spec (j mod 8) (i mod 8)), (Z.eqb_spec j i); try done; lia.
  - destruct (Z.eqb_spec j i); [subst; lia|done].
Qed.

Lemma bit_set_bit mem i j :
  0 <= i -> i / 8 < alen mem -> 0 <= j ->
  bit (set_bit mem i) j = if j =? i then true else bit mem j.
Proof.
  intros Hi Hlen Hj. unfold set_bit. destruct (index_quot i Hi) as [-> ->].
  apply bit_aset_gen; try done. intros n Hn.
  pose proof (Z.mod_pos_bound i 8 ltac:(lia)).
  rewrite land_255_testbit, Z.lor_spec, Z.shiftl_1_l by lia.
  destruct (Z.eqb_spec n (i mod 8)) as [->|].
  - rewrite Z.pow2_bits_true by lia. apply orb_true_r.
  - rewrite Z.pow2_bits_false by lia. apply orb_false_r.
Qed.

Lemma bit_clear_bit mem i j :
  0 <= i -> i / 8 < alen mem -> 0 <= j ->
  bit (clear_bit mem i) j = if j =? i then false else bit mem j.
Proof.
  intros Hi Hlen Hj. unfold clear_bit. destruct (index_quot i Hi) as [-> ->].
  apply bit_aset_gen; try done. intros n Hn.
  pose proof (Z.mod_pos_bound i 8 ltac:(lia)).
  rewrite land_255_testbit, Z.land_spec, Z.lnot_spec, Z.shiftl_1_l by lia.
  destruct (Z.eqb_spec n (i mod 8)) as [->|].
  - rewrite Z.pow2_bits_true by lia. apply andb_false_r.
  - rewrite Z.pow2_bits_false by lia. apply andb_true_r.
Qed.

(** ** Correctness of the scans *)

(** What a search inside a byte must promise for the scan over bytes. *)
Record byte_search (want : bool) (skip : Z) (find : Z -> Z -> Z) : Prop := {
  search_skip byte n :
    is_byte byte -> schar byte = skip -> 0 <= n < 8 -> Z.testbit byte n = negb want;
  search_find byte s :
    is_byte byte -> 0 <= s < 8 ->
    (find byte s = -1 /\ forall n, s <= n < 8 -> Z.testbit byte n = negb want) \/
    (s <= find byte s < 8 /\ Z.testbit byte (find byte s) = want /\
     forall n, s <= n < find byte s -> Z.testbit byte n = negb want) }.

Lemma find_by_scan want byte s p :
  0 <= s < 8 -> (forall n, 0 <= n < 8 -> p n = Bool.eqb (Z.testbit byte n) want) ->
  let r := (let i := scan s 8 p in if i <? 8 then i else -1) in
  (r = -1 /\ forall n, s <= n < 8 -> Z.testbit byte n = negb want) \/
  (s <= r < 8 /\ Z.testbit byte r = want /\ forall n, s <= n < r -> Z.testbit byte n = negb want).
Proof.
  intros Hs Hp. cbv zeta. destruct (scan_spec s 8 p ltac:(lia)) as (H1 & H2 & H3).
  assert (Hneg : forall n, s <= n < scan s 8 p -> Z.testbit byte n = negb want).
  { intros n Hn. specialize (H2 n Hn). rewrite Hp in H2 by lia.
    by destruct (Z.testbit byte n), want. }
  destruct (Z.ltb_spec (scan s 8 p) 8); [right|left].
  - split_and!; [lia|lia| |done]. specialize (H3 ltac:(lia)). rewrite Hp in H3 by lia.
    by apply eqb_prop.
  - split; [done|]. intros. apply Hneg. lia.
Qed.

Lemma find_first_zero_search : byte_search false (-1) find_first_zero.
Proof.
  constructor.
  - intros byte n [H1 H2] Hs Hn. unfold schar in Hs.
    assert (byte = 255) as -> by (destruct (Z.ltb_spec byte 128); lia).
    change 255 with (Z.ones 8). by apply Z.ones_spec_low.
  - intros byte s Hb Hs. apply find_by_scan; [done|]. intros n Hn.
    rewrite land_shiftl_testbit by lia. by destruct (Z.testbit byte n).
Qed.

Lemma find_first_setted_search : byte_search true 0 find_first_setted.
Proof.
  constructor.
  - intros byte n [H1 H2] Hs Hn. unfold schar in Hs.
    assert (byte = 0) as -> by (destruct (Z.ltb_spec byte 128); lia). apply Z.bits_0.
  - intros byte s Hb Hs. apply find_by_scan; [done|]. intros n Hn.
    rewrite land_shiftl_testbit by lia. by destruct (Z.testbit byte n).
Qed.

Section scan_correct.
Context (want : bool) (skip : Z) (find : Z -> Z -> Z) (Hsearch : byte_search want skip find).
Context (mem : list Z) (Hmem : bytes_ok mem).

(** As [first_bit], over the bits of [n] bytes from byte [iter] on. *)
Definition loop_result (n : nat) (iter s r : Z) : Prop :=
  (r = -1 /\ forall j, iter * 8 + s <= j < (iter + Z.of_nat n) * 8 -> bit mem j = negb want) \/
  (iter * 8 + s <= r /\ bit mem r = want /\
   forall j, iter * 8 + s <= j < r -> bit mem j = negb want).

Lemma bit_in_byte iter n : 0 <= n < 8 -> bit mem (iter * 8 + n) = Z.testbit (aget mem iter) n.
Proof.
  intros Hn. unfold bit.
  replace ((iter * 8 + n) / 8) with iter
    by (rewrite Z.add_comm, Z.div_add, Z.div_small by lia; lia).
  by replace ((iter * 8 + n) mod 8) with n
    by (rewrite Z.add_comm, Z.mod_add, Z.mod_small by lia; lia).
Qed.

Lemma bits_in_byte iter s e v :
  0 <= s -> e <= 8 -> (forall n, s <= n < e -> Z.testbit (aget mem iter) n = v) ->
  forall j, iter * 8 + s <= j < iter * 8 + e -> bit mem j = v.
Proof.
  intros Hs He Hb j Hj. replace j with (iter * 8 + (j - iter * 8)) by lia.
  rewrite bit_in_byte by lia. apply Hb. lia.
Qed.

(** One byte without a candidate, then the bytes after it. *)
Lemma loop_result_next n iter s r :
  (forall m, s <= m < 8 -> Z.testbit (aget mem iter) m = negb want) -> 0 <= s < 8 ->
  loop_result n (iter + 1) 0 r -> loop_result (S n) iter s r.
Proof.
  intros Hb Hs Hr. pose proof (bits_in_byte iter s 8 (negb want) ltac:(lia) ltac:(lia) Hb) as Hj.
  destruct Hr as [[-> Hr]|(H1 & H2 & H3)]; [left|right].
  - split; [done|]. intros j ?. destruct (decide (j < iter * 8 + 8)).
    + apply Hj. lia.
    + apply Hr. lia.
  - split_and!; [lia|done|]. intros j ?. destruct (decide (j < iter * 8 + 8)).
    + apply Hj. lia.
    + apply H3. lia.
Qed.

Lemma next_bit_loop_spec (n : nat) iter s :
  0 <= iter -> iter + Z.of_nat n <= alen mem -> 0 <= s < 8 ->
  s = 0 \/ (0 < n)%nat /\ schar (aget mem iter) <> skip ->
  exists r, next_bit_loop skip find mem n iter s = Some r /\ loop_result n iter s r.
Proof.
  destruct Hsearch as [Hskip Hfind]. revert iter s.
  induction n as [|n IH]; intros iter s Hi Hlen Hs Hcase; simpl.
  { exists (-1). split; [done|]. left. split; [done|]. lia. }
  destruct (Z.ltb_spec iter (alen mem)); [simpl|lia].
  pose proof (aget_byte mem iter Hmem) as Hbyte.
  destruct (Z.eqb_spec (schar (aget mem iter)) skip) as [Heq|Hne]; simpl.
  - assert (s = 0) as -> by (destruct Hcase as [|[_ ?]]; done).
    destruct (IH (iter + 1) 0) as (r & -> & Hr); [lia|lia|lia|by left|].
    exists r. split; [done|]. apply loop_result_next; [|lia|done].
    intros m Hm. apply Hskip; auto with lia.
  - destruct (Hfind (aget mem iter) s Hbyte Hs) as [[Hf Hno]|(Hf & Hyes & Hno)].
    + rewrite Hf. simpl. destruct (IH (iter + 1) 0) as (r & -> & Hr); [lia|lia|lia|by left|].
      exists r. split; [done|]. by apply loop_result_next.
    + destruct (Z.leb_spec 0 (find (aget mem iter) s)); [|lia].
      eexists. split; [done|]. right. split_and!; [lia|by rewrite bit_in_byte by lia|].
      by apply bits_in_byte; [lia|lia|].
Qed.

Lemma bitmap_end_covers size : 0 <= size -> 0 <= bitmap_end size /\ size <= bitmap_end size * 8.
Proof.
  intros Hs. unfold bitmap_end. destruct (index_quot size Hs) as [-> ->].
  pose proof (Z.div_mod size 8 ltac:(lia)). pose proof (Z.mod_pos_bound size 8 ltac:(lia)).
  destruct (Z.eqb_spec (size mod 8) 0); lia.
Qed.

Lemma next_bit_spec size start :
  0 <= start -> 0 <= size -> bitmap_end size < alen mem ->
  start mod 8 = 0 \/ schar (aget mem (start / 8)) <> skip ->
  exists r, next_bit skip find mem size start = Some r /\ first_bit want mem size start r.
Proof.
  intros Hst Hsz Hlen Hcase. unfold next_bit. destruct (index_quot start Hst) as [-> ->].
  destruct (bitmap_end_covers size Hsz) as [He0 He].
  pose proof (Z.div_mod start 8 ltac:(lia)). pose proof (Z.mod_pos_bound start 8 ltac:(lia)).
  assert (0 <= start / 8) by (apply Z.div_pos; lia).
  destruct (decide (bitmap_end size < start / 8)).
  { replace (Z.to_nat _) with 0%nat by lia. simpl.
    exists (-1). split; [by destruct (size <=? -1)|]. left. split; [done|lia]. }
  destruct (next_bit_loop_spec (Z.to_nat (bitmap_end size - start / 8 + 1)) (start / 8) (start mod 8))
    as (r & -> & Hr); [lia|lia|lia|destruct Hcase; [by left|right; split; [lia|done]]|].
  eexists. split; [done|]. unfold loop_result in Hr.
  replace (start / 8 * 8 + start mod 8) with start in Hr by lia.
  destruct (Z.leb_spec size r).
  - left. split; [done|]. intros j Hj. destruct Hr as [[-> Hr]|(Ha & Hb & Hc)]; [lia|].
    apply Hc. lia.
  - destruct Hr as [[-> Hr]|(Ha & Hb & Hc)]; [left|right].
    + split; [done|]. intros j Hj. apply Hr. lia.
    + split_and!; try done; lia.
Qed.
End scan_correct.

(** Exported form of the two scans. *)
Lemma next_unsetted_bit_first mem size start :
  bytes_ok mem -> 0 <= start -> 0 <= size -> bitmap_end size < alen mem ->
  start mod 8 = 0 \/ schar (aget mem (start / 8)) <> -1 ->
  exists r, next_unsetted_bit mem size start = Some r /\ first_bit false mem size start r.
Proof. intros. apply next_bit_spec; try done. apply find_first_zero_search. Qed.

Lemma next_setted_bit_first mem size start :
  bytes_ok mem -> 0 <= start -> 0 <= size -> bitmap_end size < alen mem ->
  start mod 8 = 0 \/ schar (aget mem (start / 8)) <> 0 ->
  exists r, next_setted_bit mem size start = Some r /\ first_bit true mem size start r.
Proof. intros. apply next_bit_spec; try done. apply find_first_setted_search. Qed.

(** The scan for the successor of a set bit needs no alignment hypothesis. *)
Lemma next_setted_after mem size i :
  bytes_ok mem -> 0 <= i -> 0 <= size -> bitmap_end size < alen mem -> bit mem i = true ->
  exists r, next_setted_bit mem size (i + 1) = Some r /\ first_bit true mem size (i + 1) r.
Proof.
  intros Hmem Hi Hs Hlen Hb. apply next_setted_bit_first; try done; [lia|].
  pose proof (Z.div_mod i 8 ltac:(lia)). pose proof (Z.mod_pos_bound i 8 ltac:(lia)).
  destruct (decide (i mod 8 = 7)) as [H7|H7]; [left|right].
  - replace (i + 1) with ((i / 8 + 1) * 8) by lia. apply Z.mod_mul. lia.
  - assert ((i + 1) / 8 = i / 8) as ->.
    { symmetry. apply Z.div_unique with (i mod 8 + 1); lia. }
    intros Hz0. unfold bit in Hb. pose proof (aget_byte mem (i / 8) Hmem) as [? ?].
    assert (aget mem (i / 8) = 0) as Hz
      by (unfold schar in Hz0; destruct (Z.ltb_spec (aget mem (i / 8)) 128); lia).
    by rewrite Hz, Z.bits_0 in Hb.
Qed.

(** [next_unsetted_bit] returns the first clear bit at or after [start] below
    [size], or -1 when there is none, provided the memory reaches one byte past the
    bitmap (the loop runs to [iter <= end]) and the scan does not start inside a full byte. *)
Theorem next_unsetted_bit_correct mem size start :
  bytes_ok mem -> 0 <= start -> 0 <= size -> bitmap_end size < alen mem ->
  start mod 8 = 0 \/ schar (aget mem (start / 8)) <> -1 ->
  exists r, next_unsetted_bit mem size start = Some r /\ first_bit false mem size start r.
Proof. apply next_unsetted_bit_first. Qed.

Lemma next_unsetted_bit_correct_witness :
  exists r, next_unsetted_bit [255; 11; 0] 12 8 = Some r /\ first_bit false [255; 11; 0] 12 8 r.
Proof.
  apply next_unsetted_bit_correct; try lia.
  - repeat constructor; unfold is_byte; lia.
  - vm_compute. done.
  - left. reflexivity.
Defined.

(** Without the alignment hypothesis the scans are wrong: a start inside a byte
    that holds no candidate keeps its offset for the next byte, so the candidates of
    that byte below the offset are missed.  Bit 8 is the first set bit after bit 3, and
    the scan reports that there is none. *)
Theorem next_setted_bit_unaligned :
  next_setted_bit [0; 1; 0] 16 3 = Some (-1) /\ bit [0; 1; 0] 8 = true /\
  next_unsetted_bit [255; 254; 255] 16 3 = Some (-1) /\ bit [255; 254; 255] 8 = false.
Proof. by vm_compute. Qed.
