(* ===== verification/Memory.v ===== *)
(** * Memory blocks

    A block of raw memory is a list of bytes; [rd32]/[wr32] are the accesses through
    an [int *] (little endian, as on the machines the program is built for), [load] and
    [put] the [memcpy]s out of and into a block. *)
From S2P Require Import Prelude Bitmap.

(** The four bytes of an [int]. *)
Definition le32 (v : Z) : list Z :=
  let u := uint32 v in
  [u mod 256; u / 2 ^ 8 mod 256; u / 2 ^ 16 mod 256; u / 2 ^ 24 mod 256].

Definition of_le32 (l : list Z) : Z :=
  int32 (aget l 0 + 2 ^ 8 * aget l 1 + 2 ^ 16 * aget l 2 + 2 ^ 24 * aget l 3).

(** [memcpy(dst, m + off, n)]. *)
Definition load (m : list Z) (off n : Z) : list Z :=
  take (Z.to_nat n) (drop (Z.to_nat off) m).

(** [memcpy(m + off, bs, sizeof bs)]. *)
Definition put (m : list Z) (off : Z) (bs : list Z) : list Z :=
  take (Z.to_nat off) m ++ bs ++ drop (Z.to_nat (off + alen bs)) m.

Definition rd32 (m : list Z) (off : Z) : Z := of_le32 (load m off 4).
Definition wr32 (m : list Z) (off v : Z) : list Z := put m off (le32 v).

(** [memset(m + off, 0, n)]. *)
Definition zero (m : list Z) (off n : Z) : list Z := put m off (replicate (Z.to_nat n) 0).

Definition in_block (m : list Z) (off n : Z) : Prop := 0 <= off /\ 0 <= n /\ off + n <= alen m.

Section blocks.
Implicit Types (m bs : list Z) (off n i v : Z).

Lemma alen_put m off bs : in_block m off (alen bs) -> alen (put m off bs) = alen m.
Proof.
  intros (H1 & H2 & H3). unfold put. rewrite !alen_app, alen_take, alen_drop by lia. lia.
Qed.

Lemma alen_load m off n : in_block m off n -> alen (load m off n) = n.
Proof. intros (H1 & H2 & H3). unfold load. rewrite alen_take; [done|]. rewrite alen_drop; lia. Qed.

Lemma aget_load m off n i :
  in_block m off n -> 0 <= i < n -> aget (load m off n) i = aget m (off + i).
Proof. intros (H1 & H2 & H3) Hi. unfold load. rewrite aget_take, aget_drop by lia. done. Qed.

Lemma aget_put m off bs i :
  in_block m off (alen bs) -> 0 <= i ->
  aget (put m off bs) i = if (off <=? i) && (i <? off + alen bs) then aget bs (i - off) else aget m i.
Proof.
  intros (H1 & H2 & H3) Hi. unfold put. rewrite aget_app, alen_take by lia.
  destruct (Z.ltb_spec i off).
  - rewrite aget_take by lia. destruct (Z.leb_spec off i); [lia|done].
  - rewrite aget_app by lia. destruct (Z.leb_spec off i); [simpl|lia].
    destruct (Z.ltb_spec (i - off) (alen bs)), (Z.ltb_spec i (off + alen bs)); try lia; try done.
    rewrite aget_drop by lia. f_equal. lia.
Qed.

(** Reading back a range that was written, or one apart from it. *)
Lemma load_put_same m off bs : in_block m off (alen bs) -> load (put m off bs) off (alen bs) = bs.
Proof.
  intros H. pose proof (alen_put m off bs H) as Hl. destruct H as (H1 & H2 & H3).
  assert (in_block (put m off bs) off (alen bs)) by (split_and!; lia).
  apply array_eq; rewrite alen_load by done; [done|]. intros i Hi.
  rewrite aget_load, aget_put by (try done; try split_and!; lia).
  destruct (Z.leb_spec off (off + i)), (Z.ltb_spec (off + i) (off + alen bs)); try lia.
  simpl. f_equal. lia.
Qed.

Lemma load_put_other m off bs o n :
  in_block m off (alen bs) -> in_block m o n -> o + n <= off \/ off + alen bs <= o ->
  load (put m off bs) o n = load m o n.
Proof.
  intros H Ho Hd. pose proof (alen_put m off bs H) as Hl.
  assert (in_block (put m off bs) o n) by (destruct Ho as (? & ? & ?); split_and!; lia).
  apply array_eq; rewrite !alen_load by done; [done|]. intros i Hi.
  destruct Ho as (? & ? & ?).
  rewrite !aget_load, aget_put by (try done; try split_and!; lia).
  destruct (Z.leb_spec off (o + i)), (Z.ltb_spec (o + i) (off + alen bs)); try lia; done.
Qed.

Lemma alen_le32 v : alen (le32 v) = 4.
Proof. done. Qed.

Lemma le32_bytes v : bytes_ok (le32 v).
Proof.
  unfold le32, bytes_ok, is_byte. repeat constructor; apply Z.mod_pos_bound; lia.
Qed.

Lemma of_le32_le32 v : is_int32 v -> of_le32 (le32 v) = v.
Proof.
  intros Hv. unfold of_le32, le32. cbv zeta.
  change (aget [?a; ?b; ?c; ?d] 0) with a. change (aget [?a; ?b; ?c; ?d] 1) with b.
  change (aget [?a; ?b; ?c; ?d] 2) with c. change (aget [?a; ?b; ?c; ?d] 3) with d.
  set (u := uint32 v). assert (Hu : 0 <= u < 2 ^ 32) by (apply Z.mod_pos_bound; lia).
  assert (Hsum : u mod 256 + 2 ^ 8 * (u / 2 ^ 8 mod 256) + 2 ^ 16 * (u / 2 ^ 16 mod 256)
            + 2 ^ 24 * (u / 2 ^ 24 mod 256) = u).
  { clearbody u. change (2 ^ 8) with 256. change (2 ^ 16) with (256 * 256).
    change (2 ^ 24) with (256 * 256 * 256). change (2 ^ 32) with (256 * 256 * 256 * 256) in Hu.
    rewrite <- !Z.div_div by lia.
    pose proof (Z.div_mod u 256 ltac:(lia)). pose proof (Z.div_mod (u / 256) 256 ltac:(lia)).
    pose proof (Z.div_mod (u / 256 / 256) 256 ltac:(lia)).
    assert (u / 256 / 256 / 256 < 256).
    { rewrite !Z.div_div by lia. apply Z.div_lt_upper_bound; lia. }
    assert (0 <= u / 256 / 256 / 256) by (repeat apply Z.div_pos; lia).
    rewrite (Z.mod_small (u / 256 / 256 / 256) 256) by lia. lia. }
  rewrite Hsum. by apply int32_uint32.
Qed.

Lemma rd32_range m off : is_int32 (rd32 m off).
Proof. apply int32_range. Qed.

Lemma alen_wr32 m off v : in_block m off 4 -> alen (wr32 m off v) = alen m.
Proof. intros. by apply alen_put. Qed.

Lemma rd32_wr32_same m off v : in_block m off 4 -> is_int32 v -> rd32 (wr32 m off v) off = v.
Proof.
  intros. unfold rd32, wr32. rewrite <- (alen_le32 v).
  rewrite load_put_same by done. by apply of_le32_le32.
Qed.

Lemma rd32_wr32_other m off v o :
  in_block m off 4 -> in_block m o 4 -> o + 4 <= off \/ off + 4 <= o ->
  rd32 (wr32 m off v) o = rd32 m o.
Proof. intros. unfold rd32, wr32. by rewrite load_put_other. Qed.

Lemma rd32_put_other m off bs o :
  in_block m off (alen bs) -> in_block m o 4 -> o + 4 <= off \/ off + alen bs <= o ->
  rd32 (put m off bs) o = rd32 m o.
Proof. intros. unfold rd32. by rewrite load_put_other. Qed.

Lemma bytes_ok_load m off n : bytes_ok m -> bytes_ok (load m off n).
Proof. intros. unfold load. by apply Forall_take, Forall_drop. Qed.

Lemma bytes_ok_put m off bs : bytes_ok m -> bytes_ok bs -> bytes_ok (put m off bs).
Proof.
  intros. unfold put. apply Forall_app; split; [by apply Forall_take|].
  apply Forall_app; split; [done|]. by apply Forall_drop.
Qed.

Lemma alen_replicate (n : Z) (x : Z) : 0 <= n -> alen (replicate (Z.to_nat n) x) = n.
Proof. intros. unfold alen. rewrite length_replicate. lia. Qed.

(** Updates of single bytes and bits. *)
Lemma load_aset_other m o n i b : in_block m o n -> i < o \/ o + n <= i -> load (aset m i b) o n = load m o n.
Proof.
  intros Hb Hi. destruct Hb as (H1 & H2 & H3).
  assert (in_block (aset m i b) o n) by (unfold in_block; rewrite alen_aset; lia).
  apply array_eq; rewrite !alen_load by done; [done|]. intros j Hj.
  rewrite !aget_load by done. rewrite aget_aset_ne; [done|lia].
Qed.

Lemma rd32_aset_other m o i b : in_block m o 4 -> i < o \/ o + 4 <= i -> rd32 (aset m i b) o = rd32 m o.
Proof. intros. unfold rd32. by rewrite load_aset_other. Qed.

Lemma bit_put_other m o bs i :
  in_block m o (alen bs) -> 0 <= i -> i < 8 * o \/ 8 * (o + alen bs) <= i -> bit (put m o bs) i = bit m i.
Proof.
  intros Hb Hi Ho. unfold bit. rewrite aget_put by (try done; apply Z.div_pos; lia).
  destruct (Z.leb_spec o (i / 8)), (Z.ltb_spec (i / 8) (o + alen bs)); try done. exfalso.
  pose proof (Z.div_mod i 8 ltac:(lia)). pose proof (Z.mod_pos_bound i 8 ltac:(lia)). lia.
Qed.

Lemma bit_wr32_other m o v i : in_block m o 4 -> 8 * (o + 4) <= i -> bit (wr32 m o v) i = bit m i.
Proof. intros Hb Hi. pose proof Hb as (? & ? & ?). apply bit_put_other; rewrite ?alen_le32; auto with lia. Qed.

Lemma aget_replicate (n : nat) (x : Z) i : 0 <= i < Z.of_nat n -> aget (replicate n x) i = x.
Proof.
  intros Hi. unfold aget. destruct (Z.ltb_spec i 0); [lia|]. apply lookup_total_replicate_2. lia.
Qed.

Lemma div_add_mul8 k i : (8 * k + i) / 8 = k + i / 8.
Proof. rewrite Z.add_comm, Z.mul_comm, Z.div_add by lia. lia. Qed.

Lemma mod_add_mul8 k i : (8 * k + i) mod 8 = i mod 8.
Proof. rewrite Z.add_comm, Z.mul_comm, Z.mod_add by lia. done. Qed.
End blocks.

Create HintDb memory.
#[export] Hint Rewrite alen_le32 : arrays.
#[export] Hint Resolve le32_bytes bytes_ok_load bytes_ok_put bytes_ok_set_bit bytes_ok_clear_bit : memory.
