(* ===== verification/Replacer.v ===== *)
(** * Replacement policy (storage/default/replacer.h, lru_replacer.cpp)

    [Replacer] is the abstract class of replacer.h as a type class, [ReplacerLaws] what
    the buffer pool relies on: a replacer behaves as the list [evictable] of frame
    identifiers, newest first.  [Module LRU] is LRUReplacer: a doubly linked list of
    frames and a hash table from a frame to its list node.  A node of the [std::list]
    is named by the number of its allocation, which is what an iterator holds. *)
From S2P Require Import Prelude.

Abbreviation FrameId := Z (only parsing).

Class Replacer (R : Type) := {
  Victim : R -> option FrameId * R;
  Pin : FrameId -> R -> R;
  Unpin : FrameId -> R -> R;
  Size : R -> Z }.

Class ReplacerLaws (R : Type) `{Replacer R} := {
  replacer_ok : R -> Prop;
  evictable : R -> list FrameId;
  capacity : R -> Z;
  evictable_NoDup r : replacer_ok r -> NoDup (evictable r);
  evictable_length r : replacer_ok r -> alen (evictable r) <= capacity r;
  Victim_none r : replacer_ok r -> evictable r = [] -> Victim r = (None, r);
  Victim_some r l f :
    replacer_ok r -> evictable r = l ++ [f] ->
    exists r', Victim r = (Some f, r') /\ replacer_ok r' /\ evictable r' = l /\
      capacity r' = capacity r;
  Pin_ok f r : replacer_ok r -> replacer_ok (Pin f r);
  Pin_evictable f r : replacer_ok r -> evictable (Pin f r) = filter (fun g => g <> f) (evictable r);
  Pin_capacity f r : capacity (Pin f r) = capacity r;
  Unpin_ok f r : replacer_ok r -> replacer_ok (Unpin f r);
  Unpin_evictable f r :
    replacer_ok r ->
    evictable (Unpin f r) =
      if decide (f ∈ evictable r) then evictable r
      else take (Z.to_nat (capacity r)) (f :: evictable r);
  Unpin_capacity f r : capacity (Unpin f r) = capacity r;
  Size_length r : replacer_ok r -> Size r = alen (evictable r) }.

Module LRU.

Record LRUReplacer := {
  cache_map_ : gmap Z Z;          (* FrameId -> list node *)
  cache_list_ : list (Z * Z);     (* (list node, FrameId), front to back: new -> old *)
  size_ : Z;
  capacity_ : Z;
  fresh_node : Z                  (* the next list node to be allocated *)
}.

Definition create (num_pages : Z) : LRUReplacer :=
  {| cache_map_ := ∅; cache_list_ := []; size_ := 0; capacity_ := num_pages; fresh_node := 0 |}.

(** [cache_list_.erase(it)]. *)
Definition erase (it : Z) (l : list (Z * Z)) : list (Z * Z) := filter (fun x => x.1 <> it) l.

(** [Victim(&frame_id)]: the result is [*frame_id] when the function returns true.
    [back()] of an empty list is undefined; the test of [size_] excludes it. *)
Definition victim (r : LRUReplacer) : option Z * LRUReplacer :=
  if size_ r =? 0 then (None, r)
  else
    match last (cache_list_ r) with
    | None => (None, r)
    | Some back =>
        (Some back.2,
         {| cache_map_ := delete back.2 (cache_map_ r);
            cache_list_ := removelast (cache_list_ r);
            size_ := size_ r - 1; capacity_ := capacity_ r; fresh_node := fresh_node r |})
    end.

Definition pin (frame_id : Z) (r : LRUReplacer) : LRUReplacer :=
  match cache_map_ r !! frame_id with
  | Some it =>
      {| cache_map_ := delete frame_id (cache_map_ r);
         cache_list_ := erase it (cache_list_ r);
         size_ := size_ r - 1; capacity_ := capacity_ r; fresh_node := fresh_node r |}
  | None => r
  end.

(** The first [if] of [Unpin]: [push_front] and the new map entry. *)
Definition push (frame_id : Z) (r : LRUReplacer) : LRUReplacer :=
  match cache_map_ r !! frame_id with
  | Some _ => r
  | None =>
      {| cache_map_ := <[frame_id := fresh_node r]> (cache_map_ r);
         cache_list_ := (fresh_node r, frame_id) :: cache_list_ r;
         size_ := size_ r + 1; capacity_ := capacity_ r; fresh_node := fresh_node r + 1 |}
  end.

(** The second [if] of [Unpin]: the oldest frame leaves a full list. *)
Definition evict_over_capacity (r : LRUReplacer) : LRUReplacer :=
  if capacity_ r <? size_ r then
    match last (cache_list_ r) with
    | None => r
    | Some back =>
        {| cache_map_ := delete back.2 (cache_map_ r);
           cache_list_ := removelast (cache_list_ r);
           size_ := size_ r - 1; capacity_ := capacity_ r; fresh_node := fresh_node r |}
    end
  else r.

Definition unpin (frame_id : Z) (r : LRUReplacer) : LRUReplacer :=
  evict_over_capacity (push frame_id r).

#[global] Instance LRU_Replacer : Replacer LRUReplacer := {
  Victim := victim; Pin := pin; Unpin := unpin; Size := size_ }.

(** The frames of the list, and the invariant that ties the map to the list. *)
Definition frames (r : LRUReplacer) : list Z := (cache_list_ r).*2.

Record inv (r : LRUReplacer) : Prop := {
  inv_nodes : NoDup (cache_list_ r).*1;
  inv_frames : NoDup (frames r);
  inv_map : forall f it, cache_map_ r !! f = Some it <-> (it, f) ∈ cache_list_ r;
  inv_size : size_ r = alen (cache_list_ r);
  inv_fresh : Forall (fun x => x.1 < fresh_node r) (cache_list_ r) }.

Definition ok (r : LRUReplacer) : Prop := inv r /\ size_ r <= capacity_ r.

(** ** Lemmas *)

Lemma map_none r f : inv r -> cache_map_ r !! f = None <-> f ∉ frames r.
Proof.
  intros Hinv. unfold frames. split.
  - intros Hn Hin. apply list_elem_of_fmap in Hin as ((it & g) & Heq & Hin); simpl in Heq; subst g.
    apply (inv_map r Hinv) in Hin. congruence.
  - intros Hn. destruct (cache_map_ r !! f) as [it|] eqn:E; [|done].
    apply (inv_map r Hinv) in E. destruct Hn. apply list_elem_of_fmap. by exists (it, f).
Qed.

Lemma create_inv n : inv (create n).
Proof.
  constructor; simpl; try constructor.
  - rewrite lookup_empty. done.
  - intros Hin. inversion Hin.
Qed.

Lemma create_ok n : 0 <= n -> ok (create n).
Proof. intros. split; [apply create_inv|done]. Qed.

Lemma push_inv f r : inv r -> inv (push f r).
Proof.
  intros Hinv. unfold push. destruct (cache_map_ r !! f) eqn:E; [done|].
  assert (Hf : f ∉ frames r) by (by apply (map_none r f Hinv)).
  destruct Hinv as [H1 H2 H3 H4 H5]. constructor; simpl.
  - apply NoDup_cons. split; [|done]. intros Hin.
    apply list_elem_of_fmap in Hin as (x & Heq & Hin).
    rewrite Forall_forall in H5. specialize (H5 x Hin). lia.
  - apply NoDup_cons. done.
  - intros g it. rewrite elem_of_cons, <- H3. destruct (decide (f = g)) as [->|].
    + rewrite lookup_insert_eq. split; [intros; simplify_eq; by left|].
      intros [?|?]; simplify_eq; done.
    + rewrite lookup_insert_ne by done. split; [by right|]. intros [?|?]; simplify_eq; done.
  - rewrite alen_cons. lia.
  - constructor; simpl; [lia|]. eapply Forall_impl; [done|]. simpl. lia.
Qed.

(** Removing the last node of the list together with its map entry. *)
Lemma drop_last_inv r l it f :
  inv r -> cache_list_ r = l ++ [(it, f)] ->
  inv {| cache_map_ := delete f (cache_map_ r); cache_list_ := l;
         size_ := size_ r - 1; capacity_ := capacity_ r; fresh_node := fresh_node r |}.
Proof.
  intros [H1 H2 H3 H4 H5] Hl. unfold frames in *. rewrite Hl in *.
  rewrite fmap_app in H1, H2. apply NoDup_app in H1 as (H1 & H1' & _).
  apply NoDup_app in H2 as (H2 & H2' & _). constructor; simpl; try done.
  - intros g jt. destruct (decide (f = g)) as [<-|].
    + rewrite lookup_delete_eq. split; [done|]. intros Hin. destruct (H2' f); [|simpl; set_solver].
      apply list_elem_of_fmap. by exists (jt, f).
    + rewrite lookup_delete_ne, H3 by done. rewrite elem_of_app, list_elem_of_singleton. naive_solver.
  - rewrite H4, alen_app. vm_compute (alen [_]). lia.
  - by apply Forall_app in H5 as [? _].
Qed.

Lemma erase_frames r f it :
  inv r -> cache_map_ r !! f = Some it ->
  (erase it (cache_list_ r)).*2 = filter (fun g => g <> f) (frames r).
Proof.
  intros Hinv Hm. apply (inv_map r Hinv) in Hm.
  assert (Hiff : Forall (fun x => x.1 <> it <-> x.2 <> f) (cache_list_ r)).
  { apply Forall_forall. intros [jt g] Hin. simpl.
    apply (inv_map r Hinv) in Hin as Hg. apply (inv_map r Hinv) in Hm as Hf.
    split; intros Hne ->; [congruence|]. apply Hne.
    eapply (assoc_unique (cache_list_ r)); [apply Hinv|done|done]. }
  unfold erase, frames. clear Hinv Hm. induction Hiff as [|[jt g] l Hx Hl IH]; [done|].
  rewrite fmap_cons, !filter_cons. simpl in *.
  destruct (decide (jt <> it)), (decide (g <> f)); try naive_solver. rewrite fmap_cons. by f_equal.
Qed.

Lemma erase_split l1 l2 it (f : Z) :
  NoDup (l1 ++ (it, f) :: l2).*1 -> erase it (l1 ++ (it, f) :: l2) = l1 ++ l2.
Proof.
  intros Hnd. rewrite fmap_app, fmap_cons in Hnd. apply NoDup_app in Hnd as (_ & Hd & Hnd).
  apply NoDup_cons in Hnd as [Hn _]. unfold erase. rewrite filter_app, filter_cons_False; simpl.
  - rewrite !filter_id; [done| |]; apply Forall_forall; intros [jt g] Hin Heq; simpl in *; subst jt.
    + apply Hn, list_elem_of_fmap. by exists (it, g).
    + apply (Hd it); [|by left]. apply list_elem_of_fmap. by exists (it, g).
  - naive_solver.
Qed.

Lemma erase_inv r f it :
  inv r -> cache_map_ r !! f = Some it ->
  inv {| cache_map_ := delete f (cache_map_ r); cache_list_ := erase it (cache_list_ r);
         size_ := size_ r - 1; capacity_ := capacity_ r; fresh_node := fresh_node r |}.
Proof.
  intros Hinv Hm. pose proof (erase_frames r f it Hinv Hm) as Hfr.
  assert (Hin : (it, f) ∈ cache_list_ r) by (by apply (inv_map r Hinv)).
  destruct Hinv as [H1 H2 H3 H4 H5]. constructor; simpl.
  - unfold erase. eapply sublist_NoDup; [exact H1|apply fmap_sublist, sublist_filter].
  - unfold frames; simpl. rewrite Hfr. by apply NoDup_filter.
  - intros g jt. unfold erase. rewrite list_elem_of_filter; simpl.
    destruct (decide (f = g)) as [<-|].
    + rewrite lookup_delete_eq. split; [done|]. intros [Hne Hj]. destruct Hne.
      apply H3 in Hj. congruence.
    + rewrite lookup_delete_ne, H3 by done. split; [|naive_solver]. intros Hj. split; [|done].
      intros ->. pose proof (assoc_unique _ _ _ _ H1 Hin Hj). done.
  - rewrite H4. apply list_elem_of_split in Hin as (l1 & l2 & Hl). rewrite Hl in *.
    rewrite (erase_split l1 l2 it f) by done. rewrite !alen_app, alen_cons. lia.
  - unfold erase. rewrite Forall_forall in H5 |- *. intros x [_ Hx]%list_elem_of_filter. by apply H5.
Qed.

(** The oldest frame: the last element of the list, its map entry and its place in [frames]. *)
Lemma victim_split r l f :
  inv r -> frames r = l ++ [f] ->
  exists it k, cache_list_ r = k ++ [(it, f)] /\ k.*2 = l /\ last (cache_list_ r) = Some (it, f) /\
    removelast (cache_list_ r) = k.
Proof.
  unfold frames. intros Hinv Hf. destruct (cache_list_ r) as [|x k _] eqn:E using rev_ind.
  { destruct l; discriminate Hf. }
  rewrite fmap_app in Hf. apply app_inj_2 in Hf as [Hk Hx]; [|done]. destruct x as [it g].
  simplify_eq/=. exists it, k. split_and!; [done|done|apply last_snoc|apply removelast_last].
Qed.

Lemma victim_some r l f :
  ok r -> frames r = l ++ [f] ->
  exists r', victim r = (Some f, r') /\ ok r' /\ frames r' = l /\ capacity_ r' = capacity_ r.
Proof.
  intros [Hinv Hcap] Hf. destruct (victim_split r l f Hinv Hf) as (it & k & Hl & Hk & Hlast & Hrm).
  unfold victim. rewrite Hlast. destruct (Z.eqb_spec (size_ r) 0) as [H0|H0].
  { rewrite (inv_size r Hinv), Hl, alen_app in H0. pose proof (alen_nonneg k).
    vm_compute (alen [_]) in H0. lia. }
  eexists. split; [done|]. rewrite Hrm; simpl.
  split_and!; [split; [by eapply drop_last_inv|simpl; lia]|done|done].
Qed.

Lemma pin_frames f r : inv r -> frames (pin f r) = filter (fun g => g <> f) (frames r).
Proof.
  intros Hinv. unfold pin. destruct (cache_map_ r !! f) as [it|] eqn:E.
  - by apply erase_frames.
  - symmetry. apply filter_id, Forall_forall. intros g Hg ->. by apply (map_none r f Hinv) in E.
Qed.

Lemma pin_ok f r : ok r -> ok (pin f r).
Proof.
  intros [Hinv Hcap]. unfold pin. destruct (cache_map_ r !! f) as [it|] eqn:E; [|done].
  split; [by apply erase_inv|simpl; lia].
Qed.

Lemma push_frames f r :
  inv r -> frames (push f r) = if decide (f ∈ frames r) then frames r else f :: frames r.
Proof.
  intros Hinv. unfold push. pose proof (map_none r f Hinv) as Hn.
  destruct (cache_map_ r !! f) eqn:E; case_decide; try done.
  - by destruct Hn as [_ Hn]; specialize (Hn ltac:(done)).
  - by destruct Hn as [Hn _]; specialize (Hn eq_refl).
Qed.

Lemma evict_spec r :
  inv r -> size_ r <= capacity_ r + 1 -> 0 <= capacity_ r ->
  ok (evict_over_capacity r) /\
  frames (evict_over_capacity r) = take (Z.to_nat (capacity_ r)) (frames r).
Proof.
  intros Hinv Hsz Hc. unfold evict_over_capacity.
  assert (Hlen : alen (frames r) = size_ r).
  { rewrite (inv_size r Hinv). unfold alen, frames. by rewrite length_fmap. }
  destruct (Z.ltb_spec (capacity_ r) (size_ r)).
  - destruct (frames r) as [|f l _] eqn:E using rev_ind; [rewrite alen_nil in Hlen; lia|].
    destruct (victim_split r l f Hinv E) as (it & k & Hl & Hk & Hlast & Hrm).
    rewrite Hlast, Hrm. split; [split; [by eapply drop_last_inv|simpl; lia]|].
    unfold frames; simpl. rewrite alen_app in Hlen. vm_compute (alen [_]) in Hlen.
    rewrite Hk, take_app_le by (unfold alen in Hlen; lia).
    rewrite take_ge; [done|unfold alen in Hlen; lia].
  - split; [split; [done|lia]|]. rewrite take_ge; [done|unfold alen in Hlen; lia].
Qed.

Lemma unpin_spec f r :
  ok r ->
  ok (unpin f r) /\
  frames (unpin f r) =
    if decide (f ∈ frames r) then frames r else take (Z.to_nat (capacity_ r)) (f :: frames r).
Proof.
  intros [Hinv Hcap]. unfold unpin.
  assert (Hlen : alen (frames r) = size_ r).
  { rewrite (inv_size r Hinv). unfold alen, frames. by rewrite length_fmap. }
  assert (Hsz : size_ (push f r) <= capacity_ (push f r) + 1 /\ capacity_ (push f r) = capacity_ r).
  { unfold push. destruct (cache_map_ r !! f); simpl; lia. }
  destruct Hsz as [Hsz Hce]. pose proof (alen_nonneg (frames r)).
  destruct (evict_spec (push f r)) as [Hok Hfr]; [by apply push_inv|done|lia|].
  split; [done|]. rewrite Hfr, Hce, push_frames by done. case_decide; [|done].
  apply take_ge. unfold alen in Hlen. lia.
Qed.

Lemma victim_none r : ok r -> frames r = [] -> victim r = (None, r).
Proof.
  intros [Hinv _] He. unfold victim. rewrite (inv_size r Hinv).
  unfold frames in He. by rewrite (fmap_nil_inv _ _ He).
Qed.

Lemma pin_capacity f r : capacity_ (pin f r) = capacity_ r.
Proof. unfold pin. by case_match. Qed.

Lemma unpin_capacity f r : capacity_ (unpin f r) = capacity_ r.
Proof. unfold unpin, evict_over_capacity, push. repeat case_match; done. Qed.

#[global] Program Instance LRU_laws : ReplacerLaws LRUReplacer := {
  replacer_ok := ok; evictable := frames; capacity := capacity_ }.
Next Obligation. intros r [Hinv _]. apply Hinv. Qed.
Next Obligation.
  intros r [Hinv Hc]. unfold frames, alen. rewrite length_fmap.
  pose proof (inv_size r Hinv). unfold alen in *. lia.
Qed.
Next Obligation. apply victim_none. Qed.
Next Obligation. intros. by apply victim_some. Qed.
Next Obligation. intros. by apply pin_ok. Qed.
Next Obligation. intros f r [Hinv _]. by apply pin_frames. Qed.
Next Obligation. apply pin_capacity. Qed.
Next Obligation. intros. by apply unpin_spec. Qed.
Next Obligation. intros. by apply unpin_spec. Qed.
Next Obligation. apply unpin_capacity. Qed.
Next Obligation.
  intros r [Hinv _]. simpl. rewrite (inv_size r Hinv). unfold frames, alen. by rewrite length_fmap.
Qed.

(** ** Refinement: the abstract policy

    A bounded list of distinct frames; [Victim] takes the oldest one. *)
Inductive op := OpVictim | OpPin (f : Z) | OpUnpin (f : Z).

Definition step (o : op) (r : LRUReplacer) : option Z * LRUReplacer :=
  match o with
  | OpVictim => victim r
  | OpPin f => (None, pin f r)
  | OpUnpin f => (None, unpin f r)
  end.

Definition spec_step (cap : nat) (o : op) (l : list Z) : option Z * list Z :=
  match o with
  | OpVictim => (last l, removelast l)
  | OpPin f => (None, filter (fun g => g <> f) l)
  | OpUnpin f => (None, if decide (f ∈ l) then l else take cap (f :: l))
  end.

(** The outputs of a sequence of operations, and the final state. *)
Fixpoint run {S} (st : op -> S -> option Z * S) (ops : list op) (s : S) : list (option Z) * S :=
  match ops with
  | [] => ([], s)
  | o :: ops' =>
      let '(out, s1) := st o s in
      let '(outs, s2) := run st ops' s1 in (out :: outs, s2)
  end.

Lemma step_refines o r :
  ok r ->
  ok (step o r).2 /\ capacity_ (step o r).2 = capacity_ r /\
  spec_step (Z.to_nat (capacity_ r)) o (frames r) = ((step o r).1, frames (step o r).2).
Proof.
  intros Hok. destruct o as [|f|f]; simpl.
  - destruct (frames r) as [|f l _] eqn:E using rev_ind.
    + rewrite (victim_none r Hok E). simpl. by rewrite E.
    + destruct (victim_some r l f Hok E) as (r' & -> & Hok' & Hl & Hc). simpl.
      rewrite last_snoc, removelast_last. by subst.
  - split_and!; [by apply pin_ok|apply pin_capacity|].
    by rewrite pin_frames by apply Hok.
  - destruct (unpin_spec f r Hok) as [Hok' ->].
    split_and!; [done|apply unpin_capacity|done].
Qed.

Lemma run_refines ops r :
  ok r ->
  ok (run step ops r).2 /\
  run (spec_step (Z.to_nat (capacity_ r))) ops (frames r) =
    ((run step ops r).1, frames (run step ops r).2).
Proof.
  revert r. induction ops as [|o ops IH]; intros r Hok; simpl; [done|].
  destruct (step_refines o r Hok) as (Hok' & Hc & ->).
  destruct (step o r) as [out r1] eqn:E; simpl in *. specialize (IH r1 Hok').
  rewrite Hc in IH. destruct IH as [Hok2 ->]. by destruct (run step ops r1) as [outs r2].
Qed.

(** C32. LRUReplacer implements the least-recently-unpinned policy: after any sequence of
    [Victim], [Pin] and [Unpin] on a new replacer for [n] pages, the outputs are those of
    the abstract bounded list, and list, map and [size_] agree with it. *)
Theorem lru_refines_spec (n : nat) (ops : list op) :
  let '(outs, r) := run step ops (create (Z.of_nat n)) in
  run (spec_step n) ops [] = (outs, frames r) /\ inv r /\ size_ r = alen (frames r) /\
  size_ r <= Z.of_nat n.
Proof.
  destruct (run_refines ops (create (Z.of_nat n))) as [[Hinv Hcap] Hrun]; [apply create_ok; lia|].
  assert (Hc : capacity_ (run step ops (create (Z.of_nat n))).2 = Z.of_nat n).
  { change (Z.of_nat n) with (capacity_ (create (Z.of_nat n))) at 2.
    assert (Hok : ok (create (Z.of_nat n))) by (apply create_ok; lia). revert Hok.
    generalize (create (Z.of_nat n)). clear. induction ops as [|o ops IH]; intros r Hok; simpl; [done|].
    destruct (step_refines o r Hok) as (Hok' & Hc & _). destruct (step o r) as [out r1]; simpl in *.
    specialize (IH r1 Hok'). rewrite Hc in IH. by destruct (run step ops r1). }
  simpl in Hrun. rewrite Nat2Z.id in Hrun.
  destruct (run step ops (create (Z.of_nat n))) as [outs r]; simpl in *.
  split_and!; [done|done| |lia]. rewrite (inv_size r Hinv). unfold frames, alen. by rewrite length_fmap.
Qed.

End LRU.
