(* ===== verification/OsFile.v ===== *)
(** * Paged files and the system calls on them

    [Page] is the unit of I/O of disk_buffer_pool.h.  The system calls are not part of
    the program: [OS] is the interface through which the buffer pool uses them, over an
    abstract world [W], and [OSLaws] the documented behaviour the theorems rely on.
    Every call may fail.  [Module MemFS] is a concrete in-memory file system that
    satisfies the laws; the witnesses run the program on it. *)
From S2P Require Import Prelude.
From Stdlib Require Import String.

(** [typedef struct { PageNum page_num; char data[BP_PAGE_DATA_SIZE]; } Page;] *)
Record Page := { p_page_num : Z; p_data : list Z }.

Definition BP_PAGE_SIZE : Z := Z.shiftl 1 12.
Definition sizeof_PageNum : Z := 4.
Definition BP_PAGE_DATA_SIZE : Z := BP_PAGE_SIZE - sizeof_PageNum.
Definition sizeof_Page : Z := sizeof_PageNum + BP_PAGE_DATA_SIZE.

Lemma sizeof_Page_eq : sizeof_Page = 4096.
Proof. done. Qed.

Definition zero_page : Page :=
  {| p_page_num := 0; p_data := replicate (Z.to_nat BP_PAGE_DATA_SIZE) 0 |}.

#[export] Instance Page_eq_dec : EqDecision Page.
Proof. solve_decision. Defined.
#[export] Instance Page_inhabited : Inhabited Page := populate zero_page.

Class OS (W : Type) := {
  os_create : string -> W -> option Z * W;    (* open(name, O_RDWR | O_CREAT | O_EXCL) *)
  os_open : string -> W -> option Z * W;      (* open(name, O_RDWR); None is a negative result *)
  os_close : Z -> W -> bool * W;              (* true: the result is not negative *)
  os_unlink : string -> W -> bool * W;        (* true: the result is not -1 *)
  os_lseek : Z -> Z -> W -> Z * W;            (* lseek(fd, offset, SEEK_SET) *)
  os_read : Z -> Page -> W -> (bool * Page) * W;  (* read(fd, page, sizeof(Page)): was it the whole
                                                     page, and the content of the buffer after *)
  os_write : Z -> Page -> W -> bool * W;      (* write(fd, page, sizeof(Page)) == sizeof(Page) *)
  os_clock : W -> Z                           (* clock_gettime(CLOCK_MONOTONIC), in ns *)
}.

(** Observations on the world: the file behind an open descriptor, the file offset of a
    descriptor, and the page image at a byte offset of a file. *)
Class OSLaws (W : Type) `{OS W} := {
  os_file : W -> Z -> option Z;
  os_offset : W -> Z -> Z;
  os_content : W -> Z -> Z -> option Page;
  os_lseek_ok fd off w :
    is_Some (os_file w fd) -> 0 <= off ->
    exists w', os_lseek fd off w = (off, w') /\ os_offset w' fd = off /\
      (forall d, os_file w' d = os_file w d) /\
      (forall f o, os_content w' f o = os_content w f o);
  os_read_ok fd p w f b q w' :
    os_file w fd = Some f -> os_read fd p w = ((b, q), w') ->
    (forall d, os_file w' d = os_file w d) /\
    (forall f' o, os_content w' f' o = os_content w f' o) /\
    (b = true -> os_content w f (os_offset w fd) = Some q);
  os_write_ok fd p w f b w' :
    os_file w fd = Some f -> os_write fd p w = (b, w') ->
    (forall d, os_file w' d = os_file w d) /\
    (b = true -> os_content w' f (os_offset w fd) = Some p) /\
    (forall f' o q, os_content w f' o = Some q ->
       f' <> f \/ o + sizeof_Page <= os_offset w fd \/ os_offset w fd + sizeof_Page <= o ->
       os_content w' f' o = Some q) }.

Module MemFS.

Record fs := {
  names : gmap string Z;               (* directory: name -> inode *)
  contents : gmap Z (gmap Z Page);     (* inode -> byte offset -> page image *)
  fds : gmap Z (Z * Z);                (* descriptor -> (inode, offset) *)
  next : Z                             (* next unused inode and descriptor *)
}.

Definition empty : fs := {| names := ∅; contents := ∅; fds := ∅; next := 3 |}.

Definition open_inode (i : Z) (w : fs) : option Z * fs :=
  (Some (next w), {| names := names w; contents := contents w;
                     fds := <[next w := (i, 0)]> (fds w); next := next w + 1 |}).

Definition fs_create (name : string) (w : fs) : option Z * fs :=
  match names w !! name with
  | Some _ => (None, w)
  | None =>
      open_inode (next w) {| names := <[name := next w]> (names w);
        contents := <[next w := ∅]> (contents w); fds := fds w; next := next w + 1 |}
  end.

Definition fs_open (name : string) (w : fs) : option Z * fs :=
  match names w !! name with
  | Some i => open_inode i w
  | None => (None, w)
  end.

Definition fs_close (fd : Z) (w : fs) : bool * fs :=
  match fds w !! fd with
  | Some _ => (true, {| names := names w; contents := contents w;
                        fds := delete fd (fds w); next := next w |})
  | None => (false, w)
  end.

Definition fs_unlink (name : string) (w : fs) : bool * fs :=
  match names w !! name with
  | Some _ => (true, {| names := delete name (names w); contents := contents w;
                        fds := fds w; next := next w |})
  | None => (false, w)
  end.

Definition fs_lseek (fd off : Z) (w : fs) : Z * fs :=
  match fds w !! fd with
  | Some (i, _) =>
      if off <? 0 then (-1, w)
      else (off, {| names := names w; contents := contents w;
                    fds := <[fd := (i, off)]> (fds w); next := next w |})
  | None => (-1, w)
  end.

Definition fs_content (w : fs) (i off : Z) : option Page := contents w !! i ≫= (.!! off).

Definition advance (fd : Z) (w : fs) : fs :=
  match fds w !! fd with
  | Some (i, off) =>
      {| names := names w; contents := contents w;
         fds := <[fd := (i, off + sizeof_Page)]> (fds w); next := next w |}
  | None => w
  end.

Definition fs_read (fd : Z) (buf : Page) (w : fs) : (bool * Page) * fs :=
  match fds w !! fd with
  | Some (i, off) =>
      match fs_content w i off with
      | Some p => ((true, p), advance fd w)
      | None => ((false, buf), w)
      end
  | None => ((false, buf), w)
  end.

Definition fs_write (fd : Z) (p : Page) (w : fs) : bool * fs :=
  match fds w !! fd with
  | Some (i, off) =>
      (true, advance fd {| names := names w;
               contents := <[i := <[off := p]> (default ∅ (contents w !! i))]> (contents w);
               fds := fds w; next := next w |})
  | None => (false, w)
  end.

#[global] Instance MemFS_OS : OS fs := {
  os_create := fs_create; os_open := fs_open; os_close := fs_close; os_unlink := fs_unlink;
  os_lseek := fs_lseek; os_read := fs_read; os_write := fs_write; os_clock := fun w => next w }.

Definition fs_file (w : fs) (fd : Z) : option Z := fst <$> fds w !! fd.
Definition fs_offset (w : fs) (fd : Z) : Z := default 0 (snd <$> fds w !! fd).

Lemma fs_file_seek w fd i off off' d :
  fds w !! fd = Some (i, off) ->
  fst <$> <[fd := (i, off')]> (fds w) !! d = fs_file w d.
Proof.
  intros H. unfold fs_file. destruct (decide (fd = d)) as [<-|].
  - by rewrite lookup_insert_eq, H.
  - by rewrite lookup_insert_ne.
Qed.

Lemma fs_file_advance w fd d : fs_file (advance fd w) d = fs_file w d.
Proof.
  unfold advance. destruct (fds w !! fd) as [[i off]|] eqn:E; [|done].
  unfold fs_file at 1; simpl. by apply fs_file_seek with (off := off).
Qed.

Lemma fs_content_advance w fd f o : fs_content (advance fd w) f o = fs_content w f o.
Proof. unfold advance. by destruct (fds w !! fd) as [[]|]. Qed.

#[global] Program Instance MemFS_OSLaws : OSLaws fs := {
  os_file := fs_file; os_offset := fs_offset; os_content := fs_content }.
Next Obligation.
  intros fd off w [f Hf] Hoff. unfold fs_file in Hf. simpl. unfold fs_lseek.
  destruct (fds w !! fd) as [[i o]|] eqn:E; [|done]. destruct (Z.ltb_spec off 0); [lia|].
  eexists. split; [done|]. split_and!.
  - unfold fs_offset; simpl. by rewrite lookup_insert_eq.
  - intros d. unfold fs_file at 1; simpl. by apply fs_file_seek with (off := o).
  - done.
Qed.
Next Obligation.
  simpl. intros fd p w f b q w' Hf Hr. unfold fs_read, fs_file in *.
  destruct (fds w !! fd) as [[i o]|] eqn:E; [|done]. simplify_eq/=.
  destruct (fs_content w f o) as [r|] eqn:Ec; simplify_eq/=; [|done].
  split_and!; intros; [apply fs_file_advance|apply fs_content_advance|].
  unfold fs_offset. by rewrite E.
Qed.
Next Obligation.
  simpl. intros fd p w f b w' Hf Hw. unfold fs_write, fs_file in *.
  destruct (fds w !! fd) as [[i o]|] eqn:E; [|done]. simplify_eq/=.
  unfold fs_offset. rewrite E; simpl.
  split_and!; intros; [apply fs_file_advance| |].
  - rewrite fs_content_advance. unfold fs_content; simpl. rewrite lookup_insert_eq; simpl.
    by rewrite lookup_insert_eq.
  - rewrite fs_content_advance. unfold fs_content in *; simpl.
    destruct (decide (f' = f)) as [->|].
    + rewrite lookup_insert_eq; simpl. rewrite lookup_insert_ne.
      2: { pose proof sizeof_Page_eq. intros <-. destruct H0 as [?|[?|?]]; [done|lia|lia]. }
      destruct (contents w !! f); done.
    + by rewrite lookup_insert_ne by done.
Qed.

End MemFS.
