(* ===== verification/BufferPool.v ===== *)
(** * Disk buffer pool (storage/default/disk_buffer_pool.h, .cpp)

    [BPManager] manages the frames (free list, page table, replacer); [Pool] is
    DiskBufferPool together with the world of OsFile.v.  A [Frame *] is the index of the
    frame in [frames_].  A [BPFileHandle] keeps the index of its header frame;
    [hdr_page], [bitmap] and [file_sub_header] of the source point into that frame, so
    here they are reads and writes of its bytes.  The order in which a hash table is
    iterated is not specified by the language: [HashOrder] is any such order. *)
From S2P Require Import Prelude ReturnCode Effects Bitmap Memory Replacer OsFile.
From Stdlib Require Import String.

#[global] Open Scope c_scope.

Record Frame := {
  f_dirty : bool;
  f_pin_count : Z;      (* unsigned int *)
  f_acc_time : Z;
  f_file_desc : Z;
  f_page : Page
}.

#[export] Instance Frame_inhabited : Inhabited Frame :=
  populate {| f_dirty := false; f_pin_count := 0; f_acc_time := 0; f_file_desc := 0;
              f_page := zero_page |}.

(** [frame = None] is a null or uninitialised pointer. *)
Record BPPageHandle := { ph_open : bool; ph_frame : option Z }.

Definition null_handle : BPPageHandle := {| ph_open := false; ph_frame := None |}.

Record BPFileHandle := { fh_file_name : string; fh_file_desc : Z; fh_hdr_frame : Z }.

Definition BP_FILE_SUB_HDR_SIZE : Z := 8.
Definition MAX_OPEN_FILE : Z := 1024.
Definition BP_BUFFER_SIZE : Z := 50.

Class HashOrder := {
  hash_order : gmap Z Z -> list (Z * Z);
  hash_order_perm m : hash_order m ≡ₚ map_to_list m }.

#[export] Program Instance sorted_order : HashOrder | 100 := {
  hash_order := fun m => map_to_list m }.
Next Obligation. done. Qed.

Section BPManager.
Context {R : Type} `{Replacer R}.

Record BPManager := {
  frames_ : list Frame;
  page_table_ : gmap Z (gmap Z Z);     (* file_desc -> page number -> frame *)
  free_list_ : list Z;
  replacer_ : R
}.

Definition set_frames fs (b : BPManager) : BPManager :=
  {| frames_ := fs; page_table_ := page_table_ b; free_list_ := free_list_ b;
     replacer_ := replacer_ b |}.
Definition set_page_table pt (b : BPManager) : BPManager :=
  {| frames_ := frames_ b; page_table_ := pt; free_list_ := free_list_ b;
     replacer_ := replacer_ b |}.
Definition set_free_list l (b : BPManager) : BPManager :=
  {| frames_ := frames_ b; page_table_ := page_table_ b; free_list_ := l;
     replacer_ := replacer_ b |}.
Definition set_replacer r (b : BPManager) : BPManager :=
  {| frames_ := frames_ b; page_table_ := page_table_ b; free_list_ := free_list_ b;
     replacer_ := r |}.

(** The constructor: [raw] is the content of the uninitialised [new Frame[size]]. *)
Definition BPManager_create (raw : list Frame) (r : R) : BPManager :=
  {| frames_ := (fun f => {| f_dirty := f_dirty f; f_pin_count := 0; f_acc_time := f_acc_time f;
                             f_file_desc := f_file_desc f; f_page := f_page f |}) <$> raw;
     page_table_ := ∅;
     free_list_ := Z.of_nat <$> seq 0 (List.length raw);
     replacer_ := r |}.

Definition bpm_get (file_desc page_num : Z) (b : BPManager) : option Z :=
  page_table_ b !! file_desc ≫= (.!! page_num).

Definition DeletePageTable (fd pn : Z) (b : BPManager) : BPManager :=
  let inner := delete pn (default ∅ (page_table_ b !! fd)) in
  set_page_table
    (if decide (inner = ∅) then delete fd (page_table_ b) else <[fd := inner]> (page_table_ b)) b.

Definition AddPageTable (fd pn frame_id : Z) (b : BPManager) : BPManager :=
  set_page_table (<[fd := <[pn := frame_id]> (default ∅ (page_table_ b !! fd))]> (page_table_ b)) b.

Definition bpm_alloc (b : BPManager) : option Z * BPManager :=
  match free_list_ b with
  | frame_id :: rest =>
      (Some frame_id, set_replacer (Pin frame_id (replacer_ b)) (set_free_list rest b))
  | [] =>
      match Victim (replacer_ b) with
      | (None, r) => (None, set_replacer r b)
      | (Some frame_id, r) =>
          let fr := aget (frames_ b) frame_id in
          let b1 := DeletePageTable (f_file_desc fr) (p_page_num (f_page fr)) (set_replacer r b) in
          (Some frame_id, set_replacer (Pin frame_id (replacer_ b1)) b1)
      end
  end.

Definition deleteFrame (fd pn frame_id : Z) (b : BPManager) : BPManager :=
  let b1 := set_replacer (Pin frame_id (replacer_ b)) b in
  let b2 := DeletePageTable fd pn b1 in
  set_free_list (free_list_ b2 ++ [frame_id]) b2.

End BPManager.
Arguments BPManager R : clear implicits.

Section DiskBufferPool.
Context {R W : Type} `{Replacer R} `{OS W} `{HashOrder}.

Record Pool := {
  bpm : BPManager R;
  free_file_ids_ : list Z;
  open_file_ : gmap Z BPFileHandle;
  file_name_id_ : gmap string Z;
  world : W
}.

Definition set_bpm b (s : Pool) : Pool :=
  {| bpm := b; free_file_ids_ := free_file_ids_ s; open_file_ := open_file_ s;
     file_name_id_ := file_name_id_ s; world := world s |}.
Definition set_world w (s : Pool) : Pool :=
  {| bpm := bpm s; free_file_ids_ := free_file_ids_ s; open_file_ := open_file_ s;
     file_name_id_ := file_name_id_ s; world := w |}.
Definition set_files ids fs names (s : Pool) : Pool :=
  {| bpm := bpm s; free_file_ids_ := ids; open_file_ := fs; file_name_id_ := names;
     world := world s |}.

Definition Pool_create (b : BPManager R) (w : W) : Pool :=
  {| bpm := b; free_file_ids_ := Z.of_nat <$> seq 0 (Z.to_nat MAX_OPEN_FILE);
     open_file_ := ∅; file_name_id_ := ∅; world := w |}.

(** Access to a frame through its pointer. *)
Definition frame_of (f : Z) (s : Pool) : Frame := aget (frames_ (bpm s)) f.

Definition upd_frame (f : Z) (g : Frame -> Frame) (s : Pool) : Pool :=
  set_bpm (set_frames (aset (frames_ (bpm s)) f (g (frame_of f s))) (bpm s)) s.

Definition set_dirty d (fr : Frame) : Frame :=
  {| f_dirty := d; f_pin_count := f_pin_count fr; f_acc_time := f_acc_time fr;
     f_file_desc := f_file_desc fr; f_page := f_page fr |}.
Definition set_pin_count n (fr : Frame) : Frame :=
  {| f_dirty := f_dirty fr; f_pin_count := uint32 n; f_acc_time := f_acc_time fr;
     f_file_desc := f_file_desc fr; f_page := f_page fr |}.
Definition set_page p (fr : Frame) : Frame :=
  {| f_dirty := f_dirty fr; f_pin_count := f_pin_count fr; f_acc_time := f_acc_time fr;
     f_file_desc := f_file_desc fr; f_page := p |}.
(** [frame->dirty = false; frame->file_desc = fd; frame->pin_count = 1;] *)
Definition take_frame fd (fr : Frame) : Frame :=
  {| f_dirty := false; f_pin_count := 1; f_acc_time := f_acc_time fr;
     f_file_desc := fd; f_page := f_page fr |}.

Definition with_data (g : list Z -> list Z) (p : Page) : Page :=
  {| p_page_num := p_page_num p; p_data := g (p_data p) |}.

(** A write through [page->data] of a frame. *)
Definition upd_data (f : Z) (g : list Z -> list Z) (s : Pool) : Pool :=
  upd_frame f (fun fr => set_page (with_data g (f_page fr)) fr) s.

Definition data_of (f : Z) (s : Pool) : list Z := p_data (f_page (frame_of f s)).

(** A call on a system call that returns a value and a new world. *)
Definition sys {A} (c : W -> A * W) : M Pool A := fun s =>
  let '(a, w) := c (world s) in (Ok a, set_world w s).

(** *** The file header: BPFileSubHeader and the bitmap behind it *)

Definition hdr_page_count (fh : BPFileHandle) (s : Pool) : Z := rd32 (data_of (fh_hdr_frame fh) s) 0.
Definition hdr_allocated_pages (fh : BPFileHandle) (s : Pool) : Z :=
  rd32 (data_of (fh_hdr_frame fh) s) 4.
Definition hdr_bitmap_byte (fh : BPFileHandle) (byte : Z) (s : Pool) : Z :=
  aget (data_of (fh_hdr_frame fh) s) (BP_FILE_SUB_HDR_SIZE + byte).

Definition set_page_count fh v := upd_data (fh_hdr_frame fh) (fun d => wr32 d 0 (int32 v)).
Definition set_allocated_pages fh v := upd_data (fh_hdr_frame fh) (fun d => wr32 d 4 (int32 v)).
Definition set_bitmap_byte fh byte v :=
  upd_data (fh_hdr_frame fh) (fun d => aset d (BP_FILE_SUB_HDR_SIZE + byte) (Z.land v 255)).

(** A page number whose bit is inside the header page. *)
Definition bit_in_header (page_num : Z) : bool :=
  (0 <=? page_num) && (page_num / 8 <? BP_PAGE_DATA_SIZE - BP_FILE_SUB_HDR_SIZE).

(** *** Blocks *)

Definition flush_block (frame : Z) : M Pool unit :=
  let! fr := gets (frame_of frame) in
  let offset := p_page_num (f_page fr) * sizeof_Page in
  let! r := sys (os_lseek (f_file_desc fr) offset) in
  fail_if (r =? offset - 1) IOERR_SEEK ;;
  let! ok := sys (os_write (f_file_desc fr) (f_page fr)) in
  fail_if (negb ok) IOERR_WRITE ;;
  modify (upd_frame frame (set_dirty false)).

(** The second component is what [*buffer] holds after the call. *)
Definition allocate_block : M Pool Z :=
  let! b := gets bpm in
  let '(r, b1) := bpm_alloc b in
  modify (set_bpm b1) ;;
  match r with
  | None => fail NOMEM
  | Some frame =>
      let! fr := gets (frame_of frame) in
      (if f_dirty fr then flush_block frame else ret tt) ;;
      ret frame
  end.

Definition dispose_block (buf : Z) : M Pool unit :=
  let! fr := gets (frame_of buf) in
  fail_if (negb (f_pin_count fr =? 0)) LOCKED_UNLOCK ;;
  (if f_dirty fr then flush_block buf else ret tt) ;;
  modify (upd_frame buf (set_dirty false)) ;;
  let! fr := gets (frame_of buf) in
  modify (fun s => set_bpm (deleteFrame (f_file_desc fr) (p_page_num (f_page fr)) buf (bpm s)) s).

Definition load_page (page_num : Z) (fh : BPFileHandle) (frame : Z) : M Pool unit :=
  let offset := page_num * sizeof_Page in
  let! r := sys (os_lseek (fh_file_desc fh) offset) in
  fail_if (r =? -1) IOERR_SEEK ;;
  let! old := gets (fun s => f_page (frame_of frame s)) in
  let! x := sys (os_read (fh_file_desc fh) old) in
  modify (upd_frame frame (set_page x.2)) ;;
  fail_if (negb x.1) IOERR_READ.

(** *** Checks *)

Definition check_file_id (file_id : Z) : M Pool BPFileHandle :=
  fail_if ((file_id <? 0) || (MAX_OPEN_FILE <=? file_id)) BUFFERPOOL_ILLEGAL_FILE_ID ;;
  let! fs := gets open_file_ in
  match fs !! file_id with
  | None => fail BUFFERPOOL_ILLEGAL_FILE_ID
  | Some fh => ret fh
  end.

Definition check_page_num (page_num : Z) (fh : BPFileHandle) : M Pool unit :=
  let! count := gets (hdr_page_count fh) in
  fail_if (count <=? page_num) BUFFERPOOL_INVALID_PAGE_NUM ;;
  undefined_if (negb (bit_in_header page_num)) ;;
  let! byte := gets (hdr_bitmap_byte fh (Z.quot page_num 8)) in
  fail_if (Z.land byte (Z.shiftl 1 (Z.rem page_num 8)) =? 0) BUFFERPOOL_INVALID_PAGE_NUM.

(** *** Operations on pages *)

(** [get_this_page]: the result is the return code and the content of [*page_handle],
    which a failure may have changed. *)
Definition get_this_page_h (file_id page_num : Z) (h : BPPageHandle) : M Pool (RC * BPPageHandle) :=
  let! x := try (let! fh := check_file_id file_id in check_page_num page_num fh ;; ret fh) in
  match x with
  | inl rc => ret (rc, h)
  | inr fh =>
      let! cached := gets (fun s => bpm_get (fh_file_desc fh) page_num (bpm s)) in
      match cached with
      | Some frame =>
          modify (upd_frame frame (fun fr => set_pin_count (f_pin_count fr + 1) fr)) ;;
          modify (fun s => set_bpm (set_replacer (Pin frame (replacer_ (bpm s))) (bpm s)) s) ;;
          ret (SUCCESS, {| ph_open := true; ph_frame := Some frame |})
      | None =>
          let! y := try allocate_block in
          match y with
          | inl rc => ret (rc, h)
          | inr frame =>
              modify (upd_frame frame (take_frame (fh_file_desc fh))) ;;
              let! rc := rc_of (load_page page_num fh frame) in
              if decide (rc = SUCCESS) then
                modify (fun s => set_bpm (AddPageTable (fh_file_desc fh) page_num frame (bpm s)) s) ;;
                ret (SUCCESS, {| ph_open := true; ph_frame := Some frame |})
              else
                modify (upd_frame frame (set_pin_count 0)) ;;
                let! _ := rc_of (dispose_block frame) in
                ret (rc, {| ph_open := ph_open h; ph_frame := Some frame |})
          end
      end
  end.

(** The same for a local handle that is not used after a failure. *)
Definition get_this_page (file_id page_num : Z) : M Pool BPPageHandle :=
  let! x := get_this_page_h file_id page_num null_handle in
  if decide (x.1 = SUCCESS) then ret x.2 else fail x.1.

(** The loop of [allocate_page] that looks for a page whose bit is clear. *)
Definition find_free_page (fh : BPFileHandle) (s : Pool) : Z :=
  scan 0 (hdr_page_count fh s)
    (fun i => Z.land (hdr_bitmap_byte fh (Z.quot i 8) s) (Z.shiftl 1 (Z.rem i 8)) =? 0).

(** [file_handle->bitmap[page_num / 8] |= (1 << (page_num % 8))]. *)
Definition mark_allocated (fh : BPFileHandle) (page_num : Z) : M Pool unit :=
  undefined_if (negb (bit_in_header page_num)) ;;
  let! byte := gets (hdr_bitmap_byte fh (Z.quot page_num 8)) in
  modify (set_bitmap_byte fh (Z.quot page_num 8) (Z.lor byte (Z.shiftl 1 (Z.rem page_num 8)))).

(** [allocate_page] when the file has to grow. *)
Definition allocate_new_page (fh : BPFileHandle) : M Pool BPPageHandle :=
  let! frame := allocate_block in
  let! page_num := gets (hdr_page_count fh) in
  let! allocated := gets (hdr_allocated_pages fh) in
  modify (set_allocated_pages fh (allocated + 1)) ;;
  modify (set_page_count fh (page_num + 1)) ;;
  mark_allocated fh page_num ;;
  modify (upd_frame (fh_hdr_frame fh) (set_dirty true)) ;;
  let! now := gets (fun s => os_clock (world s)) in
  let! count := gets (hdr_page_count fh) in
  modify (upd_frame frame (fun fr =>
    {| f_dirty := false; f_pin_count := 1; f_acc_time := now; f_file_desc := fh_file_desc fh;
       f_page := {| p_page_num := count - 1; p_data := p_data zero_page |} |})) ;;
  modify (fun s => set_bpm (AddPageTable (fh_file_desc fh) (count - 1) frame (bpm s)) s) ;;
  flush_block frame ;;
  ret {| ph_open := true; ph_frame := Some frame |}.

Definition allocate_page (file_id : Z) : M Pool BPPageHandle :=
  let! fh := check_file_id file_id in
  let! allocated := gets (hdr_allocated_pages fh) in
  let! count := gets (hdr_page_count fh) in
  if allocated <? count then
    let! i := gets (find_free_page fh) in
    if i <? count then
      modify (set_allocated_pages fh (allocated + 1)) ;;
      mark_allocated fh i ;;
      get_this_page file_id i
    else allocate_new_page fh
  else allocate_new_page fh.

Definition get_page_num (h : BPPageHandle) : M Pool Z :=
  fail_if (negb (ph_open h)) BUFFERPOOL_CLOSED ;;
  match ph_frame h with
  | None => undefined
  | Some frame => gets (fun s => p_page_num (f_page (frame_of frame s)))
  end.

(** [*data] points into the frame: the result is the frame. *)
Definition get_data (h : BPPageHandle) : M Pool Z :=
  fail_if (negb (ph_open h)) BUFFERPOOL_CLOSED ;;
  match ph_frame h with None => undefined | Some frame => ret frame end.

Definition mark_dirty (h : BPPageHandle) : M Pool unit :=
  match ph_frame h with
  | None => undefined
  | Some frame => modify (upd_frame frame (set_dirty true))
  end.

(** The caller's handle is closed as well: the result is [*page_handle] after the call. *)
Definition unpin_page (h : BPPageHandle) : M Pool BPPageHandle :=
  match ph_frame h with
  | None => undefined
  | Some frame =>
      modify (upd_frame frame (fun fr => set_pin_count (f_pin_count fr - 1) fr)) ;;
      let! fr := gets (frame_of frame) in
      (if f_pin_count fr =? 0 then
         modify (fun s => set_bpm (set_replacer (Unpin frame (replacer_ (bpm s))) (bpm s)) s)
       else ret tt) ;;
      ret {| ph_open := false; ph_frame := Some frame |}
  end.

Definition dispose_page (file_id page_num : Z) : M Pool unit :=
  let! fh := check_file_id file_id in
  check_page_num page_num fh ;;
  let! cached := gets (fun s => bpm_get (fh_file_desc fh) page_num (bpm s)) in
  match cached with
  | None => fail BUFFERPOOL_PAGE_PINNED
  | Some frame =>
      let! fr := gets (frame_of frame) in
      fail_if (negb (f_pin_count fr =? 0)) BUFFERPOOL_PAGE_PINNED ;;
      modify (fun s => set_bpm (deleteFrame (fh_file_desc fh) page_num frame (bpm s)) s) ;;
      modify (upd_frame (fh_hdr_frame fh) (set_dirty true)) ;;
      let! allocated := gets (hdr_allocated_pages fh) in
      modify (set_allocated_pages fh (allocated - 1)) ;;
      let! byte := gets (hdr_bitmap_byte fh (Z.quot page_num 8)) in
      modify (set_bitmap_byte fh (Z.quot page_num 8)
                (Z.land byte (Z.lnot (Z.shiftl 1 (Z.rem page_num 8)))))
  end.

(** [page_table_[fd]] of the C++ map: the entry is created when it is missing. *)
Definition touch_page_table (fd : Z) : M Pool (gmap Z Z) :=
  let! pt := gets (fun s => page_table_ (bpm s)) in
  let inner := default ∅ (pt !! fd) in
  modify (fun s => set_bpm (set_page_table (<[fd := inner]> (page_table_ (bpm s))) (bpm s)) s) ;;
  ret inner.

(** [force_page(file_handle, page_num)] with [page_num == -1]. *)
Definition force_every_page (fh : BPFileHandle) : M Pool unit :=
  let! inner := touch_page_table (fh_file_desc fh) in
  iter_m (hash_order inner) (fun it =>
    let! fr := gets (frame_of it.2) in
    fail_if (negb (f_pin_count fr =? 0)) BUFFERPOOL_PAGE_PINNED ;;
    if f_dirty fr then flush_block it.2 else ret tt) ;;
  iter_m (hash_order inner) (fun it =>
    let! _ := rc_of (flush_block it.2) in
    modify (fun s => set_bpm (deleteFrame (fh_file_desc fh) it.1 it.2 (bpm s)) s)).

Definition force_page_of (fh : BPFileHandle) (page_num : Z) : M Pool unit :=
  if page_num =? -1 then force_every_page fh
  else
    let! cached := gets (fun s => bpm_get (fh_file_desc fh) page_num (bpm s)) in
    match cached with
    | None => ret tt
    | Some frame =>
        let! fr := gets (frame_of frame) in
        fail_if (negb (f_pin_count fr =? 0)) BUFFERPOOL_PAGE_PINNED ;;
        (if f_dirty fr then flush_block frame else ret tt) ;;
        modify (fun s => set_bpm (deleteFrame (fh_file_desc fh) page_num frame (bpm s)) s)
    end.

Definition force_page (file_id page_num : Z) : M Pool unit :=
  let! fh := check_file_id file_id in force_page_of fh page_num.

(** The first loop collects the frames it flushed; the pairs it stores hold the frame
    number twice, so the second loop passes a frame number as page number. *)
Fixpoint flush_dirty (l : list (Z * Z)) (deleted_pages : list (Z * Z)) : M Pool (list (Z * Z)) :=
  match l with
  | [] => ret deleted_pages
  | it :: l' =>
      let! fr := gets (frame_of it.2) in
      if f_dirty fr then
        flush_block it.2 ;; flush_dirty l' (deleted_pages ++ [(it.2, it.2)])
      else flush_dirty l' deleted_pages
  end.

Definition force_all_pages (fh : BPFileHandle) : M Pool unit :=
  let! inner := touch_page_table (fh_file_desc fh) in
  let! deleted_pages := flush_dirty (hash_order inner) [] in
  iter_m deleted_pages (fun it =>
    let! _ := rc_of (flush_block it.2) in
    modify (fun s => set_bpm (deleteFrame (fh_file_desc fh) it.1 it.2 (bpm s)) s)).

Definition flush_all_pages (file_id : Z) : M Pool unit :=
  let! fh := check_file_id file_id in force_all_pages fh.

Definition get_page_count (file_id : Z) : M Pool Z :=
  let! fh := check_file_id file_id in gets (hdr_page_count fh).

(** *** Files *)

(** The header page that [create_file] writes. *)
Definition new_header_page : Page :=
  {| p_page_num := 0;
     p_data := aset (wr32 (wr32 (p_data zero_page) 4 1) 0 1) BP_FILE_SUB_HDR_SIZE
                 (Z.lor (aget (p_data zero_page) BP_FILE_SUB_HDR_SIZE) 1) |}.

Definition create_file (file_name : string) : M Pool unit :=
  let! r := sys (os_create file_name) in
  match r with
  | None => fail SCHEMA_DB_EXIST
  | Some fd =>
      let! _ := sys (os_close fd) in
      let! r := sys (os_open file_name) in
      match r with
      | None => fail IOERR_ACCESS
      | Some fd =>
          let! off := sys (os_lseek fd 0) in
          if off =? -1 then let! _ := sys (os_close fd) in fail IOERR_SEEK
          else
            let! ok := sys (os_write fd new_header_page) in
            let! _ := sys (os_close fd) in
            fail_if (negb ok) IOERR_WRITE
      end
  end.

Definition drop_file (file_name : string) : M Pool unit :=
  let! ok := sys (os_unlink file_name) in fail_if (negb ok) IOERR.

Definition open_file (file_name : string) : M Pool Z :=
  let! names := gets file_name_id_ in
  match names !! file_name with
  | Some file_id => ret file_id
  | None =>
      let! ids := gets free_file_ids_ in
      match ids with
      | [] => fail BUFFERPOOL_OPEN_TOO_MANY_FILES
      | open_index :: rest =>
          let! r := sys (os_open file_name) in
          match r with
          | None => fail IOERR_ACCESS
          | Some fd =>
              let! x := try allocate_block in
              match x with
              | inl rc => let! _ := sys (os_close fd) in fail rc
              | inr frame =>
                  let fh := {| fh_file_name := file_name; fh_file_desc := fd;
                               fh_hdr_frame := frame |} in
                  modify (upd_frame frame (take_frame fd)) ;;
                  let! rc := rc_of (load_page 0 fh frame) in
                  if decide (rc = SUCCESS) then
                    modify (fun s => set_bpm (AddPageTable fd 0 frame (bpm s)) s) ;;
                    modify (fun s => set_files rest (<[open_index := fh]> (open_file_ s))
                                       (<[file_name := open_index]> (file_name_id_ s)) s) ;;
                    ret open_index
                  else
                    modify (upd_frame frame (set_pin_count 0)) ;;
                    let! _ := rc_of (dispose_block frame) in
                    let! _ := sys (os_close fd) in
                    fail rc
              end
          end
      end
  end.

Definition close_file (file_id : Z) : M Pool unit :=
  let! fh := check_file_id file_id in
  modify (upd_frame (fh_hdr_frame fh) (fun fr => set_pin_count (f_pin_count fr - 1) fr)) ;;
  let! rc := rc_of (force_all_pages fh) in
  if decide (rc = SUCCESS) then
    let! ok := sys (os_close (fh_file_desc fh)) in
    fail_if (negb ok) IOERR_CLOSE ;;
    modify (fun s => set_files (free_file_ids_ s ++ [file_id]) (delete file_id (open_file_ s))
                       (delete (fh_file_name fh) (file_name_id_ s)) s)
  else
    modify (upd_frame (fh_hdr_frame fh) (fun fr => set_pin_count (f_pin_count fr + 1) fr)) ;;
    fail rc.

End DiskBufferPool.
Arguments Pool R W : clear implicits.
