(* ===== verification/PoolInvariant.v ===== *)
(** * Invariant and logical content of the buffer pool

    [view s fd pn] is the page a client should see: the cached frame if there is one,
    the image on disk otherwise.  [pool_inv] ties the page table, the free list, the
    replacer and the disk together.  The theorems show that loading, pinning and
    evicting pages change neither.  [pool_check] evaluates the clauses of [pool_inv] that speak
    about the tables, for a given world; [pool_check_sound] makes it a proof of the invariant.
    [Module Demo] is a pool of two frames over the in-memory file system, on which the
    witnesses run. *)
From S2P Require Import Prelude ReturnCode Effects Bitmap Memory Replacer OsFile BufferPool.
From Stdlib Require Import String.

Section tables.
Context {R : Type} `{Replacer R}.
Implicit Types (b : BPManager R).

Lemma get_DeletePageTable fd pn fd' pn' b :
  bpm_get fd' pn' (DeletePageTable fd pn b) =
    if decide (fd' = fd /\ pn' = pn) then None else bpm_get fd' pn' b.
Proof.
  unfold bpm_get, DeletePageTable; simpl. set (inner := delete pn _).
  assert (Hinner : forall k, inner !! k = if decide (k = pn) then None else bpm_get fd k b).
  { intros k. unfold inner, bpm_get. destruct (decide (k = pn)) as [->|].
    - apply lookup_delete_eq.
    - rewrite lookup_delete_ne by done. by destruct (page_table_ b !! fd). }
  destruct (decide (fd' = fd)) as [->|Hne].
  - destruct (decide (inner = ∅)) as [E|E].
    + rewrite lookup_delete_eq; simpl. specialize (Hinner pn'). rewrite E, lookup_empty in Hinner.
      destruct (decide (pn' = pn)); destruct (decide (fd = fd /\ pn' = pn)); naive_solver.
    + rewrite lookup_insert_eq; simpl. rewrite Hinner.
      destruct (decide (pn' = pn)), (decide (fd = fd /\ pn' = pn)); naive_solver.
  - destruct (decide (fd' = fd /\ pn' = pn)) as [[? _]|_]; [done|].
    destruct (decide (inner = ∅)); by rewrite ?lookup_delete_ne, ?lookup_insert_ne by done.
Qed.

Lemma get_AddPageTable fd pn f fd' pn' b :
  bpm_get fd' pn' (AddPageTable fd pn f b) =
    if decide (fd' = fd /\ pn' = pn) then Some f else bpm_get fd' pn' b.
Proof.
  unfold bpm_get, AddPageTable; simpl. destruct (decide (fd' = fd)) as [->|Hne].
  - rewrite lookup_insert_eq; simpl. destruct (decide (pn' = pn)) as [->|].
    + by rewrite lookup_insert_eq, decide_True.
    + rewrite lookup_insert_ne, decide_False by naive_solver. by destruct (page_table_ b !! fd).
  - by rewrite lookup_insert_ne, decide_False by naive_solver.
Qed.

End tables.

Section invariant.
Context {R W : Type} `{ReplacerLaws R} `{OSLaws W} `{HashOrder}.
Implicit Types (s : Pool R W) (fd pn f : Z).

Definition cached s fd pn : option Z := bpm_get fd pn (bpm s).
Definition nframes s : Z := alen (frames_ (bpm s)).
Definition evictables s : list Z := evictable (replacer_ (bpm s)).

(** The disk image of page [pn] of the file behind [fd]. *)
Definition on_disk (w : W) fd pn : option Page :=
  match os_file w fd with Some i => os_content w i (pn * sizeof_Page) | None => None end.

Definition view s fd pn : option Page :=
  match cached s fd pn with
  | Some f => Some (f_page (frame_of f s))
  | None => on_disk (world s) fd pn
  end.

(** [fd] is the descriptor of an open file of the pool. *)
Definition live s fd : Prop := exists id fh, open_file_ s !! id = Some fh /\ fh_file_desc fh = fd.

Record pool_inv s : Prop := {
  pi_range fd pn f : cached s fd pn = Some f -> 0 <= f < nframes s /\ 0 <= pn /\ live s fd;
  pi_inj fd pn fd' pn' f :
    cached s fd pn = Some f -> cached s fd' pn' = Some f -> fd = fd' /\ pn = pn';
  pi_tag fd pn f :
    cached s fd pn = Some f ->
    f_file_desc (frame_of f s) = fd /\ p_page_num (f_page (frame_of f s)) = pn;
  pi_clean fd pn f :
    cached s fd pn = Some f -> f_dirty (frame_of f s) = false ->
    on_disk (world s) fd pn = Some (f_page (frame_of f s));
  pi_free_nodup : NoDup (free_list_ (bpm s));
  pi_free f :
    f ∈ free_list_ (bpm s) ->
    0 <= f < nframes s /\ f_dirty (frame_of f s) = false /\ (forall fd pn, cached s fd pn <> Some f);
  pi_replacer : replacer_ok (replacer_ (bpm s));
  pi_evictable f :
    f ∈ evictables s -> f_pin_count (frame_of f s) = 0 /\ exists fd pn, cached s fd pn = Some f;
  pi_header id fh :
    open_file_ s !! id = Some fh ->
    cached s (fh_file_desc fh) 0 = Some (fh_hdr_frame fh) /\ fh_hdr_frame fh ∉ evictables s;
  pi_open fd : live s fd -> is_Some (os_file (world s) fd);
  pi_files fd fd' : live s fd -> live s fd' -> os_file (world s) fd = os_file (world s) fd' -> fd = fd' }.

(** What an operation that is not a write of the client must not change. *)
Record same_view s s' : Prop := {
  sv_view fd pn q : live s fd -> view s fd pn = Some q -> view s' fd pn = Some q;
  sv_files : open_file_ s' = open_file_ s;
  sv_names : file_name_id_ s' = file_name_id_ s }.

#[export] Instance same_view_preorder : PreOrder same_view.
Proof.
  split.
  - by constructor.
  - intros s1 s2 s3 [V1 F1 N1] [V2 F2 N2]. constructor; [|congruence|congruence].
    intros fd pn q Hl Hv. apply V2; [|by apply V1]. unfold live in *. by rewrite F1.
Qed.

(** A frame that an operation holds: in no table. *)
Definition loose s f : Prop :=
  (0 <= f < nframes s) /\ (forall fd pn, cached s fd pn <> Some f) /\
  (f ∉ free_list_ (bpm s)) /\ (f ∉ evictables s).

(** ** State updates *)

Lemma frame_upd f g h s :
  0 <= f < nframes s ->
  frame_of g (upd_frame f h s) = if f =? g then h (frame_of f s) else frame_of g s.
Proof. intros Hf. unfold frame_of, upd_frame; simpl. by rewrite aget_aset by done. Qed.

Lemma nframes_upd f h s : nframes (upd_frame f h s) = nframes s.
Proof. apply alen_aset. Qed.

Lemma cached_upd f h s fd pn : cached (upd_frame f h s) fd pn = cached s fd pn.
Proof. done. Qed.

(** An update of a loose frame is invisible. *)
Lemma inv_upd_loose f h s :
  pool_inv s -> loose s f -> pool_inv (upd_frame f h s) /\ loose (upd_frame f h s) f /\
  same_view s (upd_frame f h s).
Proof.
  intros Hinv (Hf & Hc & Hfree & Hev).
  assert (Hfr : forall g, f <> g -> frame_of g (upd_frame f h s) = frame_of g s).
  { intros g Hg. rewrite frame_upd by done. destruct (Z.eqb_spec f g); done. }
  split_and!.
  - destruct Hinv as [I1 I2 I3 I4 I5 I6 I7 I8 I9 I10 I11]. constructor; try done.
    + intros fd pn g Hg. rewrite nframes_upd. by apply I1.
    + intros fd pn g Hg. rewrite Hfr; [by apply I3|]. intros ->. by apply (Hc fd pn).
    + intros fd pn g Hg. rewrite Hfr; [by apply I4|]. intros ->. by apply (Hc fd pn).
    + intros g Hg. rewrite nframes_upd, Hfr; [by apply I6|]. intros ->. done.
    + intros g Hg. rewrite Hfr; [by apply I8|]. intros ->. done.
  - unfold loose. by rewrite nframes_upd.
  - constructor; try done. intros fd pn q _. unfold view. rewrite cached_upd.
    destruct (cached s fd pn) as [g|] eqn:E; [|done]. rewrite Hfr; [done|]. intros ->.
    by apply (Hc fd pn).
Qed.

(** The world may change as long as the disk images of the open files stay. *)
Lemma inv_set_world w s :
  pool_inv s ->
  (forall d, os_file w d = os_file (world s) d) ->
  (forall fd pn q, live s fd -> on_disk (world s) fd pn = Some q -> on_disk w fd pn = Some q) ->
  pool_inv (set_world w s) /\ same_view s (set_world w s).
Proof.
  intros [I1 I2 I3 I4 I5 I6 I7 I8 I9 I10 I11] Hfile Hdisk. split.
  - constructor; try done.
    + intros fd pn f Hc Hd. apply Hdisk; [|by apply I4]. by apply (I1 fd pn f).
    + intros fd Hl. simpl. rewrite Hfile. by apply I10.
    + intros fd fd' Hl Hl'. simpl. rewrite !Hfile. by apply I11.
  - constructor; try done. intros fd pn q Hl. unfold view, cached; simpl.
    destruct (bpm_get fd pn (bpm s)); [done|]. by apply Hdisk.
Qed.


(** ** Write-back *)

Lemma bind_sys {A B} (c : W -> A * W) (k : A -> M (Pool R W) B) s :
  bind (sys c) k s = k (c (world s)).1 (set_world (c (world s)).2 s).
Proof. unfold bind, sys. by destruct (c (world s)). Qed.

Lemma on_disk_Some w fd pn i : os_file w fd = Some i -> on_disk w fd pn = os_content w i (pn * sizeof_Page).
Proof. unfold on_disk. by intros ->. Qed.

(** A successful [flush_block] puts the frame's page on disk and changes nothing else there. *)
Lemma flush_block_ok f s s' i :
  os_file (world s) (f_file_desc (frame_of f s)) = Some i ->
  0 <= p_page_num (f_page (frame_of f s)) ->
  flush_block f s = (Ok tt, s') ->
  exists w', s' = upd_frame f (set_dirty false) (set_world w' s) /\
    (forall d, os_file w' d = os_file (world s) d) /\
    os_content w' i (p_page_num (f_page (frame_of f s)) * sizeof_Page) = Some (f_page (frame_of f s)) /\
    (forall i' n q, os_content (world s) i' (n * sizeof_Page) = Some q ->
       i' <> i \/ n <> p_page_num (f_page (frame_of f s)) ->
       os_content w' i' (n * sizeof_Page) = Some q).
Proof.
  intros Hi Hpn Hrun. unfold flush_block in Hrun. pose proof sizeof_Page_eq as Hsz.
  steps_in Hrun. set (fr := frame_of f s) in *.
  destruct (os_lseek_ok (f_file_desc fr) (p_page_num (f_page fr) * sizeof_Page) (world s))
    as (w1 & Hl & Ho & Hf1 & Hc1); [by eexists|lia|].
  rewrite bind_sys, Hl in Hrun. steps_in Hrun.
  destruct (os_write (f_file_desc fr) (f_page fr) w1) as [b w2] eqn:Ew.
  rewrite bind_sys in Hrun. simpl in Hrun. rewrite Ew in Hrun. simpl in Hrun. steps_in Hrun.
  unfold modify in Hrun. injection Hrun as <-.
  destruct (os_write_ok _ _ _ i _ _ (eq_trans (Hf1 _) Hi) Ew) as (Hf2 & Hnew & Hold).
  exists w2. rewrite Ho in *. split_and!.
  - done.
  - intros d. by rewrite Hf2, Hf1.
  - apply Hnew. by destruct b.
  - intros i' n q Hq Hne. apply Hold; [by rewrite Hc1|]. rewrite Hsz in *.
    destruct (decide (i' = i)); [right|by left].
    assert (n <> p_page_num (f_page fr)) by naive_solver. lia.
Qed.

(** The same as a statement about the pool: [fd] and [pn] are the page the frame holds. *)
Lemma flush_block_disk f s s' fd pn :
  pool_inv s -> f_file_desc (frame_of f s) = fd -> p_page_num (f_page (frame_of f s)) = pn ->
  live s fd -> 0 <= pn -> flush_block f s = (Ok tt, s') ->
  exists w', s' = upd_frame f (set_dirty false) (set_world w' s) /\
    (forall d, os_file w' d = os_file (world s) d) /\
    on_disk w' fd pn = Some (f_page (frame_of f s)) /\
    (forall fd' n q, live s fd' -> on_disk (world s) fd' n = Some q -> (fd', n) <> (fd, pn) ->
       on_disk w' fd' n = Some q).
Proof.
  intros Hinv Hfd Hpn Hl Hpn0 Hrun. destruct (pi_open s Hinv fd Hl) as [i Hi].
  destruct (flush_block_ok f s s' i) as (w' & -> & Hf & Hnew & Hold);
    [by rewrite Hfd|by rewrite Hpn|done|].
  rewrite Hpn in *. exists w'. split_and!; [done|done| |].
  - by rewrite (on_disk_Some _ _ _ i) by (by rewrite Hf).
  - intros fd' n q Hl' Hd Hne. destruct (pi_open s Hinv fd' Hl') as [i' Hi'].
    rewrite (on_disk_Some _ _ _ i') in Hd by done.
    rewrite (on_disk_Some _ _ _ i') by (by rewrite Hf).
    apply Hold; [done|]. destruct (decide (i' = i)) as [->|]; [right|by left].
    intros ->. apply Hne. f_equal. apply (pi_files s Hinv); [done|done|congruence].
Qed.

(** ** Allocation *)

(** The table of cached pages without page [pn] of [fd]. *)
Definition uncached s s' fd pn : Prop :=
  forall fd' pn', cached s' fd' pn' = if decide (fd' = fd /\ pn' = pn) then None else cached s fd' pn'.

Lemma uncached_Some s s' fd pn f fd' pn' g :
  pool_inv s -> cached s fd pn = Some f -> uncached s s' fd pn ->
  cached s' fd' pn' = Some g -> cached s fd' pn' = Some g /\ g <> f.
Proof.
  intros Hinv Hc Hu. rewrite Hu. destruct (decide _) as [|Hne]; [done|]. intros Hg.
  split; [done|]. intros ->. destruct (pi_inj s Hinv _ _ _ _ _ Hg Hc). naive_solver.
Qed.

(** Dropping a page and its frame from the tables keeps the invariant and frees the frame. *)
Lemma inv_drop s b fd pn f :
  pool_inv s -> cached s fd pn = Some f -> (forall id fh, open_file_ s !! id = Some fh -> fh_hdr_frame fh <> f) ->
  frames_ b = frames_ (bpm s) -> free_list_ b = free_list_ (bpm s) -> replacer_ok (replacer_ b) ->
  (forall g, g ∈ evictable (replacer_ b) <-> g ∈ evictables s /\ g <> f) ->
  uncached s (set_bpm b s) fd pn ->
  pool_inv (set_bpm b s) /\ loose (set_bpm b s) f.
Proof.
  intros Hinv Hc Hhdr Hfr Hfree Hok Hev Hu.
  pose proof (fun fd' pn' g => uncached_Some s _ fd pn f fd' pn' g Hinv Hc Hu) as Hsub.
  assert (Hframe : forall g, frame_of g (set_bpm b s) = frame_of g s)
    by (intros g; unfold frame_of; simpl; by rewrite Hfr).
  assert (Hn : nframes (set_bpm b s) = nframes s) by (unfold nframes; simpl; by rewrite Hfr).
  destruct Hinv as [I1 I2 I3 I4 I5 I6 I7 I8 I9 I10 I11]. split.
  - constructor; try done.
    + intros fd' pn' g Hg. apply Hsub in Hg as [Hg _]. rewrite Hn. by apply I1.
    + intros fd1 pn1 fd2 pn2 g Hg1 Hg2. apply Hsub in Hg1 as [? _], Hg2 as [? _]. by eapply I2.
    + intros fd' pn' g Hg. apply Hsub in Hg as [Hg _]. rewrite Hframe. by apply I3.
    + intros fd' pn' g Hg. apply Hsub in Hg as [Hg _]. rewrite Hframe. by apply I4.
    + simpl. by rewrite Hfree.
    + simpl. intros g Hg. rewrite Hfree in Hg. rewrite Hn, Hframe.
      destruct (I6 g Hg) as (? & ? & Hnc). split_and!; [lia|lia|done|]. intros fd' pn' Hg'.
      apply Hsub in Hg' as [Hg' _]. by apply (Hnc fd' pn').
    + intros g Hg. apply Hev in Hg as [Hg Hne]. destruct (I8 g Hg) as (Hp & fd' & pn' & Hg').
      rewrite Hframe. split; [done|]. exists fd', pn'. rewrite Hu, decide_False; [done|].
      intros [-> ->]. congruence.
    + intros id fh Hid. destruct (I9 id fh Hid) as [Hh Hne]. specialize (Hhdr id fh Hid).
      split; [|intros Hin; apply Hev in Hin as [? _]; done].
      rewrite Hu, decide_False; [done|]. intros [Hd Hp]. apply Hhdr. rewrite Hd, Hp in Hh. congruence.
  - unfold loose. rewrite Hn. split_and!.
    + by apply (I1 _ _ _ Hc).
    + by apply (I1 _ _ _ Hc).
    + intros fd' pn' Hg. by apply Hsub in Hg as [_ ?].
    + simpl. rewrite Hfree. intros Hin. destruct (I6 f Hin) as (_ & _ & Hnc). by apply (Hnc fd pn).
    + intros Hin. apply Hev in Hin as [_ ?]. done.
Qed.

(** [alloc] from the free list. *)
Lemma inv_alloc_free s f rest :
  pool_inv s -> free_list_ (bpm s) = f :: rest ->
  let s' := set_bpm (set_replacer (Pin f (replacer_ (bpm s))) (set_free_list rest (bpm s))) s in
  pool_inv s' /\ loose s' f /\ f_dirty (frame_of f s) = false /\ same_view s s'.
Proof.
  intros [I1 I2 I3 I4 I5 I6 I7 I8 I9 I10 I11] Efree s'. rewrite Efree in *.
  destruct (I6 f) as (Hr & Hd & Hnc); [set_solver|]. apply NoDup_cons in I5 as [Hn5 I5].
  assert (Hevf : f ∉ evictables s).
  { intros Hin. destruct (I8 f Hin) as (_ & fd & pn & Hc). by apply (Hnc fd pn). }
  assert (Hev : evictables s' = evictables s).
  { unfold evictables, s'; simpl. rewrite Pin_evictable by done.
    apply filter_id, Forall_forall. by intros x Hx ->. }
  split_and!; [|unfold loose; by rewrite Hev|done|by constructor].
  constructor; try done.
  - simpl. intros g Hg. apply I6. set_solver.
  - simpl. by apply Pin_ok.
  - rewrite Hev. apply I8.
  - rewrite Hev. apply I9.
Qed.

(** [alloc] by eviction. *)
Lemma inv_alloc_victim s f b :
  pool_inv s -> free_list_ (bpm s) = [] -> bpm_alloc (bpm s) = (Some f, b) ->
  exists fd pn, cached s fd pn = Some f /\ f ∈ evictables s /\ frames_ b = frames_ (bpm s) /\
    pool_inv (set_bpm b s) /\ loose (set_bpm b s) f /\ uncached s (set_bpm b s) fd pn.
Proof.
  intros Hinv Efree Ha. unfold bpm_alloc in Ha. rewrite Efree in Ha.
  pose proof (pi_replacer s Hinv) as Hrep.
  destruct (snoc_cases (evictables s)) as [Eev|(l & g & Eev)].
  { rewrite Victim_none in Ha by done. discriminate Ha. }
  destruct (Victim_some _ _ _ Hrep Eev) as (r' & Hv & Hok & Hl & Hcap).
  rewrite Hv in Ha. injection Ha as -> Hb.
  destruct (pi_evictable s Hinv f) as (Hpin & fd & pn & Hc); [rewrite Eev; set_solver|].
  destruct (pi_tag s Hinv _ _ _ Hc) as [Hfd Hpn]. unfold frame_of in Hfd, Hpn.
  rewrite Hfd, Hpn in Hb. exists fd, pn.
  assert (Hnd : NoDup (l ++ [f])) by (rewrite <- Eev; by apply evictable_NoDup).
  apply NoDup_app in Hnd as (_ & Hnd & _).
  assert (Hu : uncached s (set_bpm b s) fd pn).
  { intros fd' pn'. unfold cached. rewrite <- Hb.
    trans (bpm_get fd' pn' (DeletePageTable fd pn (bpm s))); [done|apply get_DeletePageTable]. }
  destruct (inv_drop s b fd pn f Hinv Hc) as [Hi Hlo]; try done; try (by rewrite <- Hb).
  - intros id fh Hid Heq. destruct (pi_header s Hinv id fh Hid) as [_ Hn]. apply Hn.
    rewrite Heq, Eev. set_solver.
  - rewrite <- Hb. by apply Pin_ok.
  - intros g. rewrite <- Hb, Eev; simpl. rewrite Pin_evictable, Hl, list_elem_of_filter by done.
    rewrite elem_of_app, list_elem_of_singleton. split; [intros [? ?]; tauto|tauto].
  - split_and!; try done; [rewrite Eev; set_solver|by rewrite <- Hb].
Qed.

(** After an eviction the page is seen through the disk. *)
Lemma same_view_evict s b s' fd pn f :
  cached s fd pn = Some f -> uncached s (set_bpm b s) fd pn -> frames_ b = frames_ (bpm s) ->
  same_view (set_bpm b s) s' ->
  view s' fd pn = Some (f_page (frame_of f s)) -> same_view s s'.
Proof.
  intros Hc Hu Hfr [Hv Hf Hn] Hd. constructor; [|done|done].
  intros fd' pn' q Hl Hq. destruct (decide (fd' = fd /\ pn' = pn)) as [[-> ->]|Hne].
  - unfold view in Hq. rewrite Hc in Hq. congruence.
  - apply Hv; [done|]. unfold view in *. rewrite Hu, decide_False by done.
    destruct (cached s fd' pn'); [|done]. unfold frame_of in *; simpl. by rewrite Hfr.
Qed.

Lemma flush_loose f s s' fd pn :
  pool_inv s -> loose s f -> f_file_desc (frame_of f s) = fd -> p_page_num (f_page (frame_of f s)) = pn ->
  live s fd -> 0 <= pn -> cached s fd pn = None -> flush_block f s = (Ok tt, s') ->
  pool_inv s' /\ loose s' f /\ cached s' fd pn = None /\
  on_disk (world s') fd pn = Some (f_page (frame_of f s)) /\
  (forall fd' n, cached s' fd' n = cached s fd' n) /\
  (forall g, g <> f -> frame_of g s' = frame_of g s) /\
  (forall fd' n q, live s fd' -> (fd', n) <> (fd, pn) -> view s fd' n = Some q -> view s' fd' n = Some q) /\
  open_file_ s' = open_file_ s /\ file_name_id_ s' = file_name_id_ s.
Proof.
  intros Hinv Hlo Hfd Hpn Hl Hpn0 Hc Hrun.
  destruct (flush_block_disk f s s' fd pn Hinv Hfd Hpn Hl Hpn0 Hrun) as (w' & -> & Hf & Hnew & Hold).
  assert (Hw : pool_inv (set_world w' s)).
  { destruct Hinv as [I1 I2 I3 I4 I5 I6 I7 I8 I9 I10 I11]. constructor; try done.
    - intros fd' n g Hg Hd. simpl. apply Hold; [by apply (I1 fd' n g)|by apply I4|].
      intros [= -> ->]. change (cached s fd pn = Some g) in Hg. congruence.
    - intros fd' Hl'. simpl. rewrite Hf. by apply I10.
    - intros fd1 fd2 Hl1 Hl2. simpl. rewrite !Hf. by apply I11. }
  assert (Hlo' : loose (set_world w' s) f) by done.
  destruct (inv_upd_loose f (set_dirty false) (set_world w' s) Hw Hlo') as (Hi & Hlo2 & [Hv _ _]).
  split_and!; try done.
  { intros g Hg. rewrite frame_upd by apply Hlo. by destruct (Z.eqb_spec f g). }
  intros fd' n q Hl' Hne Hq. apply Hv; [done|].
  unfold view in *. change (cached (set_world w' s) fd' n) with (cached s fd' n).
  destruct (cached s fd' n); [done|]. simpl. by apply Hold.
Qed.

(** What [allocate_block] does to the other frames: their pages stay where they are. *)
Record taken s s' f : Prop := {
  tk_sub fd pn g : cached s' fd pn = Some g -> cached s fd pn = Some g;
  tk_keep fd pn g :
    cached s fd pn = Some g -> g <> f ->
    cached s' fd pn = Some g /\ frame_of g s' = frame_of g s;
  tk_source : f ∈ free_list_ (bpm s) \/ f ∈ evictables s }.

Lemma taken_uncached s b fd pn f s' :
  pool_inv s -> cached s fd pn = Some f -> uncached s (set_bpm b s) fd pn ->
  frames_ b = frames_ (bpm s) -> f ∈ evictables s ->
  (forall fd pn, cached s' fd pn = cached (set_bpm b s) fd pn) ->
  (forall g, g <> f -> frame_of g s' = frame_of g (set_bpm b s)) -> taken s s' f.
Proof.
  intros Hinv Hc Hu Hfr Hev Hcs Hfs. constructor.
  - intros fd' pn' g. rewrite Hcs. intros Hg. by eapply uncached_Some in Hg as [? _].
  - intros fd' pn' g Hg Hne. rewrite Hcs, Hfs, Hu by done. split.
    + rewrite decide_False; [done|]. intros [-> ->]. congruence.
    + unfold frame_of; simpl. by rewrite Hfr.
  - by right.
Qed.

Lemma allocate_block_ok s s' f :
  pool_inv s -> allocate_block s = (Ok f, s') ->
  pool_inv s' /\ loose s' f /\ same_view s s' /\ taken s s' f.
Proof.
  intros Hinv Hrun. unfold allocate_block in Hrun. rewrite bind_gets in Hrun.
  destruct (bpm_alloc (bpm s)) as [r b] eqn:Ha. rewrite bind_modify in Hrun.
  destruct r as [g|]; [|discriminate Hrun]. rewrite bind_gets in Hrun.
  destruct (free_list_ (bpm s)) as [|g0 rest] eqn:Efree.
  - destruct (inv_alloc_victim s g b Hinv Efree Ha) as (fd & pn & Hc & Hev & Hfr & Hi & Hlo & Hu).
    assert (Hframe : frame_of g (set_bpm b s) = frame_of g s) by (unfold frame_of; simpl; by rewrite Hfr).
    destruct (pi_range s Hinv _ _ _ Hc) as (Hr & Hpn0 & Hl).
    destruct (pi_tag s Hinv _ _ _ Hc) as [Hfd Hpn].
    assert (Hnone : cached (set_bpm b s) fd pn = None) by (by rewrite Hu, decide_True).
    destruct (f_dirty (frame_of g (set_bpm b s))) eqn:Ed.
    + apply bind_Ok in Hrun as ([] & s2 & Hflush & Hrun). apply ret_inv in Hrun as [[= ->] ->].
      rewrite <- Hframe in Hfd, Hpn.
      destruct (flush_loose g _ s2 fd pn Hi Hlo Hfd Hpn Hl Hpn0 Hnone Hflush)
        as (Hi2 & Hlo2 & Hc2 & Hd2 & Hcs & Hfs & Hv2 & Hf2 & Hn2).
      split_and!; [done|done| |by eapply taken_uncached]. constructor; [|done|done].
      intros fd' n q Hl' Hq. destruct (decide ((fd', n) = (fd, pn))) as [[= -> ->]|Hne].
      * unfold view in *. rewrite Hc in Hq. rewrite Hc2, Hd2. congruence.
      * apply Hv2; [done|done|]. unfold view in *. rewrite Hu, decide_False by naive_solver.
        destruct (cached s fd' n); [|done]. unfold frame_of in *; simpl. by rewrite Hfr.
    + rewrite bind_ret in Hrun. apply ret_inv in Hrun as [[= ->] ->].
      split_and!; [done|done| |by eapply taken_uncached].
      eapply same_view_evict; [done|done|done|done|].
      unfold view. rewrite Hnone. simpl. apply (pi_clean s Hinv _ _ _ Hc). by rewrite <- Hframe.
  - unfold bpm_alloc in Ha. rewrite Efree in Ha. injection Ha as <- <-.
    destruct (inv_alloc_free s g0 rest Hinv Efree) as (Hi & Hlo & Hd & Hv).
    unfold frame_of in Hrun, Hd. simpl in Hrun. rewrite Hd in Hrun.
    rewrite bind_ret in Hrun. apply ret_inv in Hrun as [[= ->] ->].
    split_and!; [done|done|done|]. constructor; [done|done|]. left. rewrite Efree. set_solver.
Qed.

(** [allocate_block] reports [NOMEM] only when no frame is free or evictable, and then
    it has changed nothing. *)
Lemma allocate_block_nomem s s' :
  pool_inv s -> allocate_block s = (Err NOMEM, s') ->
  s' = s /\ free_list_ (bpm s) = [] /\ evictables s = [].
Proof.
  intros Hinv Hrun. unfold allocate_block in Hrun. rewrite bind_gets in Hrun.
  unfold bpm_alloc in Hrun. pose proof (pi_replacer s Hinv) as Hrep.
  assert (Hno : forall g (t : Pool R W), flush_block g t <> (Err NOMEM, s')).
  { intros g t Hf. unfold flush_block in Hf. rewrite bind_gets, bind_sys, bind_fail_if in Hf.
    destruct (_ =? _); [discriminate Hf|]. rewrite bind_sys, bind_fail_if in Hf.
    destruct (negb _); discriminate Hf. }
  assert (Hno2 : forall g (t : Pool R W), 
    ((let! fr := gets (frame_of g) in
      (if f_dirty fr then flush_block g else ret tt);; ret g) : M _ _) t <> (Err NOMEM, s')).
  { intros g t Hf. rewrite bind_gets in Hf. destruct (f_dirty _); [|discriminate Hf].
    unfold bind in Hf. destruct (flush_block g t) as [[]] eqn:E; try discriminate Hf.
    injection Hf as -> ->. by apply Hno in E. }
  destruct (free_list_ (bpm s)) as [|g rest] eqn:Efree.
  - destruct (snoc_cases (evictables s)) as [Eev|(l & g & Eev)].
    + rewrite (Victim_none _ Hrep Eev) in Hrun. rewrite bind_modify in Hrun.
      injection Hrun as <-. split_and!; try done. destruct s as [[] ? ? ? ?]; done.
    + destruct (Victim_some _ _ _ Hrep Eev) as (r' & Hv & _). rewrite Hv, bind_modify in Hrun.
      by apply Hno2 in Hrun.
  - rewrite bind_modify in Hrun. by apply Hno2 in Hrun.
Qed.

(** ** Loading and pinning *)

(** [page_handle->frame->pin_count++; replacer_->Pin(frame)]. *)
Definition pinned f s : Pool R W :=
  let s1 := upd_frame f (fun fr => set_pin_count (f_pin_count fr + 1) fr) s in
  set_bpm (set_replacer (Pin f (replacer_ (bpm s1))) (bpm s1)) s1.

Lemma inv_pin_replacer s f :
  pool_inv s ->
  let s' := set_bpm (set_replacer (Pin f (replacer_ (bpm s))) (bpm s)) s in
  pool_inv s' /\ same_view s s' /\ (f ∉ evictables s').
Proof.
  intros [I1 I2 I3 I4 I5 I6 I7 I8 I9 I10 I11] s'.
  assert (Hev : forall g, g ∈ evictables s' <-> g <> f /\ g ∈ evictables s).
  { intros g. unfold evictables, s'; simpl. by rewrite Pin_evictable, list_elem_of_filter. }
  split_and!.
  - constructor; try done.
    + simpl. by apply Pin_ok.
    + intros g [_ Hg]%Hev. by apply I8.
    + intros id fh Hid. destruct (I9 id fh Hid) as [Hh Hne]. split; [done|]. by intros [_ ?]%Hev.
  - by constructor.
  - by intros [? _]%Hev.
Qed.

(** Changing only the pin count of a frame that is not evictable. *)
Lemma inv_upd_pin s f n :
  pool_inv s -> 0 <= f < nframes s -> f ∉ evictables s ->
  pool_inv (upd_frame f (set_pin_count n) s) /\ same_view s (upd_frame f (set_pin_count n) s).
Proof.
  intros [I1 I2 I3 I4 I5 I6 I7 I8 I9 I10 I11] Hf Hev.
  assert (Hfr : forall g, f_dirty (frame_of g (upd_frame f (set_pin_count n) s)) = f_dirty (frame_of g s) /\
    f_file_desc (frame_of g (upd_frame f (set_pin_count n) s)) = f_file_desc (frame_of g s) /\
    f_page (frame_of g (upd_frame f (set_pin_count n) s)) = f_page (frame_of g s)).
  { intros g. rewrite frame_upd by done. destruct (Z.eqb_spec f g); by subst. }
  split.
  - constructor; try done.
    + intros fd pn g Hg. rewrite nframes_upd. by apply I1.
    + intros fd pn g Hg. destruct (Hfr g) as (_ & -> & ->). by apply I3.
    + intros fd pn g Hg. destruct (Hfr g) as (-> & _ & ->). by apply I4.
    + intros g Hg. rewrite nframes_upd. destruct (Hfr g) as (-> & _ & _). by apply I6.
    + intros g Hg. rewrite frame_upd by done. destruct (Z.eqb_spec f g) as [<-|]; [done|]. by apply I8.
  - constructor; try done. intros fd pn q _. unfold view. rewrite cached_upd.
    destruct (cached s fd pn) as [g|]; [|done]. by destruct (Hfr g) as (_ & _ & ->).
Qed.

Lemma inv_pinned s fd pn f :
  pool_inv s -> cached s fd pn = Some f ->
  pool_inv (pinned f s) /\ same_view s (pinned f s) /\ cached (pinned f s) fd pn = Some f /\
  (f ∉ evictables (pinned f s)).
Proof.
  intros Hinv Hc. destruct (pi_range s Hinv _ _ _ Hc) as (Hf & _ & _).
  destruct (inv_pin_replacer s f Hinv) as (Hi & Hv & Hev).
  destruct (inv_upd_pin _ f (f_pin_count (frame_of f s) + 1) Hi Hf Hev) as [Hi' Hv'].
  split_and!; [exact Hi'| |done|exact Hev]. etrans; [exact Hv|exact Hv'].
Qed.

(** Entering a loaded frame into the page table. *)
Lemma inv_add s fd pn f :
  pool_inv s -> loose s f -> cached s fd pn = None -> live s fd -> 0 <= pn ->
  f_file_desc (frame_of f s) = fd -> p_page_num (f_page (frame_of f s)) = pn ->
  on_disk (world s) fd pn = Some (f_page (frame_of f s)) ->
  let s' := set_bpm (AddPageTable fd pn f (bpm s)) s in
  pool_inv s' /\ same_view s s' /\ cached s' fd pn = Some f /\ (f ∉ evictables s').
Proof.
  intros [I1 I2 I3 I4 I5 I6 I7 I8 I9 I10 I11] (Hf & Hnc & Hfree & Hev) Hnone Hl Hpn Hfd Hnum Hd s'.
  assert (Hc : forall fd' pn', cached s' fd' pn' =
    if decide (fd' = fd /\ pn' = pn) then Some f else cached s fd' pn').
  { intros. apply get_AddPageTable. }
  assert (Hcase : forall fd' pn' g, cached s' fd' pn' = Some g ->
    fd' = fd /\ pn' = pn /\ g = f \/ g <> f /\ cached s fd' pn' = Some g).
  { intros fd' pn' g. rewrite Hc. destruct (decide _) as [[-> ->]|]; [intros [= ->]; by left|].
    intros Hg. right. split; [|done]. intros ->. by apply (Hnc fd' pn'). }
  split_and!.
  - constructor; try done.
    + intros fd' pn' g Hg. destruct (Hcase _ _ _ Hg) as [(-> & -> & ->)|[_ ?]]; [done|by apply I1].
    + intros fd1 pn1 fd2 pn2 g Hg1 Hg2.
      destruct (Hcase _ _ _ Hg1) as [(-> & -> & ->)|[? ?]], (Hcase _ _ _ Hg2) as [(-> & -> & E)|[? ?]];
        try done. by eapply I2.
    + intros fd' pn' g Hg. destruct (Hcase _ _ _ Hg) as [(-> & -> & ->)|[_ ?]]; [done|by apply I3].
    + intros fd' pn' g Hg Hdirty. destruct (Hcase _ _ _ Hg) as [(-> & -> & ->)|[_ ?]]; [done|by apply I4].
    + intros g Hg. destruct (I6 g Hg) as (? & ? & Hng). split_and!; [lia|by apply I6|done|].
      intros fd' pn' Hg'. destruct (Hcase _ _ _ Hg') as [(-> & -> & ->)|[_ ?]]; [done|by apply (Hng fd' pn')].
    + intros g Hg. destruct (I8 g Hg) as (? & fd' & pn' & Hg'). split; [done|]. exists fd', pn'.
      rewrite Hc, decide_False; [done|]. intros [-> ->]. congruence.
    + intros id fh Hid. destruct (I9 id fh Hid) as [Hh ?]. split; [|done]. rewrite Hc.
      destruct (decide _) as [[E1 E2]|]; [|done]. rewrite E1, E2 in Hh. congruence.
  - constructor; try done. intros fd' pn' q Hl' Hq. unfold view in *. rewrite Hc.
    destruct (decide _) as [[-> ->]|]; [|done]. rewrite Hnone in Hq. unfold frame_of in *; simpl. congruence.
  - by rewrite Hc, decide_True.
  - done.
Qed.

Lemma load_page_ok s s' pn fh f :
  is_Some (os_file (world s) (fh_file_desc fh)) -> 0 <= pn ->
  load_page pn fh f s = (Ok tt, s') ->
  exists w' q, s' = upd_frame f (set_page q) (set_world w' s) /\
    on_disk (world s) (fh_file_desc fh) pn = Some q /\
    (forall d, os_file w' d = os_file (world s) d) /\
    (forall fd n, on_disk w' fd n = on_disk (world s) fd n).
Proof.
  intros [i Hi] Hpn Hrun. unfold load_page in Hrun. pose proof sizeof_Page_eq.
  destruct (os_lseek_ok (fh_file_desc fh) (pn * sizeof_Page) (world s))
    as (w1 & Hl & Ho & Hf1 & Hc1); [by eexists|lia|].
  rewrite bind_sys, Hl in Hrun. simpl in Hrun. steps_in Hrun. rewrite bind_sys in Hrun. simpl in Hrun.
  destruct (os_read (fh_file_desc fh) _ w1) as [[b q] w2] eqn:Er.
  rewrite bind_modify in Hrun. unfold fail_if in Hrun. simpl in Hrun.
  destruct b; simpl in Hrun; [|discriminate Hrun]. apply ret_inv in Hrun as [_ ->].
  destruct (os_read_ok _ _ _ i _ _ _ (eq_trans (Hf1 _) Hi) Er) as (Hf2 & Hc2 & Hq).
  exists w2, q. split_and!; [done| |intros; by rewrite Hf2|].
  - rewrite (on_disk_Some _ _ _ i), <- Hc1, <- Ho by done. by apply Hq.
  - intros fd n. unfold on_disk. rewrite Hf2, Hf1. destruct (os_file (world s) fd); [|done].
    by rewrite Hc2, Hc1.
Qed.

(** The two checks read the state only. *)
Lemma check_file_id_run id s :
  check_file_id id s =
    (if (id <? 0) || (MAX_OPEN_FILE <=? id) then Err BUFFERPOOL_ILLEGAL_FILE_ID
     else match open_file_ s !! id with
          | Some fh => Ok fh
          | None => Err BUFFERPOOL_ILLEGAL_FILE_ID
          end, s).
Proof.
  unfold check_file_id. rewrite bind_fail_if. destruct (_ || _); [done|].
  rewrite bind_gets. by destruct (open_file_ s !! id).
Qed.

Definition page_bit (fh : BPFileHandle) pn s : bool :=
  negb (Z.land (hdr_bitmap_byte fh (Z.quot pn 8) s) (Z.shiftl 1 (Z.rem pn 8)) =? 0).

Lemma check_page_num_run pn fh s :
  check_page_num pn fh s =
    (if hdr_page_count fh s <=? pn then Err BUFFERPOOL_INVALID_PAGE_NUM
     else if negb (bit_in_header pn) then Ub
     else if page_bit fh pn s then Ok tt else Err BUFFERPOOL_INVALID_PAGE_NUM, s).
Proof.
  unfold check_page_num. rewrite bind_gets, bind_fail_if. destruct (_ <=? _); [done|].
  rewrite bind_undefined_if. destruct (negb _); [done|]. rewrite bind_gets.
  unfold page_bit, fail_if. by destruct (_ =? 0).
Qed.

Lemma checks_run id pn s r s1 :
  (let! fh := check_file_id id in check_page_num pn fh ;; ret fh) s = (r, s1) ->
  s1 = s /\
  match r with
  | Ok fh => open_file_ s !! id = Some fh /\ 0 <= pn < hdr_page_count fh s /\
             page_bit fh pn s = true /\ 0 <= id < MAX_OPEN_FILE
  | Err rc => rc = BUFFERPOOL_ILLEGAL_FILE_ID \/ rc = BUFFERPOOL_INVALID_PAGE_NUM
  | Ub => pn < 0 \/ BP_PAGE_DATA_SIZE - BP_FILE_SUB_HDR_SIZE <= pn / 8
  | OutOfFuel => False
  end.
Proof.
  unfold bind at 1. rewrite check_file_id_run.
  destruct (Z.ltb_spec id 0), (Z.leb_spec MAX_OPEN_FILE id); simpl; intros Hr; simplify_eq;
    try (split; [done|by left]).
  destruct (open_file_ s !! id) as [fh|] eqn:E; simplify_eq; [|split; [done|by left]].
  unfold bind in Hr. rewrite check_page_num_run in Hr.
  destruct (Z.leb_spec (hdr_page_count fh s) pn); simplify_eq; [split; [done|by right]|].
  unfold bit_in_header in Hr.
  destruct (Z.leb_spec 0 pn); simpl in Hr; simplify_eq; [|split; [done|by left]].
  destruct (Z.ltb_spec (pn / 8) (BP_PAGE_DATA_SIZE - BP_FILE_SUB_HDR_SIZE)); simpl in Hr;
    simplify_eq; [|split; [done|by right]].
  destruct (page_bit fh pn s) eqn:Eb; unfold ret in Hr; simplify_eq; [|split; [done|by right]].
  split_and!; try done.
Qed.

Lemma sys_fails {A} (c : W -> A * W) : err_fails (@sys R W A c).
Proof. intros t t'. unfold sys. by destruct (c (world t)). Qed.
Local Hint Resolve sys_fails : err_fails.

Lemma flush_block_fails f : err_fails (@flush_block R W _ f).
Proof. unfold flush_block. err_fails_tac. Qed.

Local Hint Resolve flush_block_fails : err_fails.

Lemma allocate_block_fails : err_fails (allocate_block (R := R) (W := W)).
Proof.
  unfold allocate_block. apply err_fails_bind; [by intros ? ?|]. intros b.
  destruct (bpm_alloc b) as [r b1]. err_fails_tac.
Qed.

Lemma load_page_fails pn fh f : err_fails (@load_page R W _ pn fh f).
Proof. unfold load_page. err_fails_tac. Qed.

(** [allocate_block], [take_frame] and [load_page] one after the other: page [pn] is in a
    frame that no table knows yet. *)
Lemma load_into_frame s s1 s2 id fh f pn q0 :
  pool_inv s -> open_file_ s !! id = Some fh -> 0 <= pn ->
  cached s (fh_file_desc fh) pn = None -> view s (fh_file_desc fh) pn = Some q0 ->
  allocate_block s = (Ok f, s1) ->
  load_page pn fh f (upd_frame f (take_frame (fh_file_desc fh)) s1) = (Ok tt, s2) ->
  pool_inv s2 /\ same_view s s2 /\ loose s2 f /\ taken s s2 f /\
  frame_of f s2 = set_page q0 (take_frame (fh_file_desc fh) (frame_of f s1)) /\
  on_disk (world s2) (fh_file_desc fh) pn = Some q0.
Proof.
  intros Hinv Hfh Hpn Hnone Hview Ha El. assert (Hl : live s (fh_file_desc fh)) by (by exists id, fh).
  destruct (allocate_block_ok s s1 f Hinv Ha) as (Hia & Hla & Hva & Hta).
  destruct (inv_upd_loose f (take_frame (fh_file_desc fh)) s1 Hia Hla) as (Hib & Hlb & Hvb).
  set (sb := upd_frame f _ s1) in *.
  assert (Hvsb : same_view s sb) by (by etrans).
  assert (Hlb2 : live sb (fh_file_desc fh)).
  { exists id, fh. split; [|done]. by rewrite (sv_files _ _ Hvsb). }
  destruct (load_page_ok sb s2 pn fh f (pi_open sb Hib _ Hlb2) Hpn El) as (w' & q & -> & Hq & Hwf & Hwd).
  assert (q = q0) as ->.
  { pose proof (sv_view _ _ Hvsb _ _ _ Hl Hview) as Hq0. unfold view in Hq0.
    destruct (cached sb (fh_file_desc fh) pn) as [g|] eqn:Eg; [|congruence].
    apply (tk_sub _ _ _ Hta) in Eg. congruence. }
  destruct (inv_set_world w' sb Hib Hwf) as [Hic Hvc]; [intros; by rewrite Hwd|].
  destruct (inv_upd_loose f (set_page q0) (set_world w' sb) Hic Hlb) as (Hid & Hld & Hvd).
  split_and!; [done|by etrans; [exact Hvsb|etrans]|done| | |].
  - destruct Hta as [T1 T2 T3]. constructor; [exact T1| |exact T3]. intros fd n g Hg Hne.
    destruct (T2 _ _ _ Hg Hne) as [Hg1 Hg2]. split; [exact Hg1|].
    rewrite frame_upd by apply Hlb. destruct (Z.eqb_spec f g); [by subst|].
    change (frame_of g (set_world w' sb)) with (frame_of g sb). unfold sb.
    rewrite frame_upd by apply Hla. by destruct (Z.eqb_spec f g).
  - rewrite frame_upd, Z.eqb_refl by (apply Hlb).
    change (frame_of f (set_world w' sb)) with (frame_of f sb). unfold sb.
    by rewrite frame_upd, Z.eqb_refl by (apply Hla).
  - simpl. by rewrite Hwd.
Qed.

(** A page that [get_this_page] can return: it exists and carries its number. *)
Definition page_exists s id pn : Prop :=
  forall fh, open_file_ s !! id = Some fh ->
  exists q, view s (fh_file_desc fh) pn = Some q /\ p_page_num q = pn.

(** The frame [f] of a page has been pinned: once more if the page was cached, and once if it has been loaded; no
    other page that was pinned has moved or changed. *)
Record pins s s' (fd pn f : Z) : Prop := {
  pn_count : match cached s fd pn with
             | Some g => g = f /\ frame_of f s' = set_pin_count (f_pin_count (frame_of f s) + 1) (frame_of f s)
             | None => f_pin_count (frame_of f s') = 1
             end;
  pn_others fd' pn' g : cached s fd' pn' = Some g -> g <> f -> f_pin_count (frame_of g s) <> 0 ->
    cached s' fd' pn' = Some g /\ frame_of g s' = frame_of g s }.

(** The post-condition of a successful [get_this_page]. *)
Record got_page s s' id pn (h' : BPPageHandle) : Prop := {
  gp_inv : pool_inv s';
  gp_view : same_view s s';
  gp_frame : exists fh f, open_file_ s !! id = Some fh /\
    h' = {| ph_open := true; ph_frame := Some f |} /\
    cached s' (fh_file_desc fh) pn = Some f /\ (f ∉ evictables s') /\
    0 <= pn < hdr_page_count fh s /\ page_bit fh pn s = true;
  gp_pins fh f : open_file_ s !! id = Some fh -> ph_frame h' = Some f -> pins s s' (fh_file_desc fh) pn f }.

Lemma pinned_pins s fd pn f : pool_inv s -> cached s fd pn = Some f -> pins s (pinned f s) fd pn f.
Proof.
  intros Hinv Hc. destruct (pi_range s Hinv _ _ _ Hc) as (Hf & _ & _).
  assert (Hfr : forall g, frame_of g (pinned f s) =
    if f =? g then set_pin_count (f_pin_count (frame_of f s) + 1) (frame_of f s) else frame_of g s).
  { intros g. unfold pinned. change (frame_of g (set_bpm _ ?s1)) with (frame_of g s1). by rewrite frame_upd. }
  constructor.
  - rewrite Hc. split; [done|]. by rewrite Hfr, Z.eqb_refl.
  - intros fd' pn' g Hg Hne _. split; [exact Hg|]. rewrite Hfr. by rewrite (proj2 (Z.eqb_neq f g)).
Qed.

Lemma get_this_page_success s s' id pn h h' :
  pool_inv s -> page_exists s id pn ->
  get_this_page_h id pn h s = (Ok (SUCCESS, h'), s') -> got_page s s' id pn h'.
Proof.
  intros Hinv Hex Hrun. unfold get_this_page_h in Hrun.
  destruct ((let! fh := check_file_id id in check_page_num pn fh;; ret fh) s) as [r s1] eqn:Ec.
  rewrite (bind_try _ _ _ _ _ Ec) in Hrun. apply checks_run in Ec as [-> Hr].
  destruct r as [fh|rc| |]; try discriminate Hrun.
  2: { apply ret_inv in Hrun as [[= <- _] ->]. by destruct Hr. }
  destruct Hr as (Hfh & Hpn & Hbit & _). rewrite bind_gets in Hrun.
  destruct (bpm_get (fh_file_desc fh) pn (bpm s)) as [f|] eqn:Eget.
  - rewrite !bind_modify in Hrun. apply ret_inv in Hrun as [[= ->] ->].
    destruct (inv_pinned s _ _ _ Hinv Eget) as (? & ? & ? & ?).
    change (got_page s (pinned f s) id pn {| ph_open := true; ph_frame := Some f |}).
    constructor; [done|done|exists fh, f; split_and!; done || lia|].
    intros fh' f' Hfh' [= ->]. rewrite Hfh in Hfh'. injection Hfh' as <-. by apply pinned_pins.
  - destruct (allocate_block s) as [ra sa] eqn:Ea. rewrite (bind_try _ _ _ _ _ Ea) in Hrun.
    destruct ra as [f|rc| |]; try discriminate Hrun.
    2: { apply ret_inv in Hrun as [[= <- _] ->]. by destruct (allocate_block_fails _ _ Ea). }
    rewrite bind_modify in Hrun.
    destruct (load_page pn fh f (upd_frame f (take_frame (fh_file_desc fh)) sa)) as [rl sl] eqn:El.
    rewrite (bind_rc_of _ _ _ _ _ El) in Hrun.
    destruct rl as [[]|rc| |]; try discriminate Hrun; simpl in Hrun.
    2: { destruct (decide (rc = SUCCESS)) as [->|Hne]; [by destruct (load_page_fails _ _ _ _ _ El)|].
         rewrite bind_modify in Hrun. unfold bind in Hrun.
         destruct (rc_of _ _) as [[]]; try discriminate Hrun. apply ret_inv in Hrun as [[= <- _] _]. done. }
    rewrite bind_modify in Hrun. apply ret_inv in Hrun as [[= ->] ->].
    destruct (Hex fh Hfh) as (q0 & Hq0 & Hnum).
    destruct (load_into_frame s sa sl id fh f pn q0 Hinv Hfh ltac:(lia) Eget Hq0 Ea El)
      as (Hil & Hvl & Hll & Htl & Hfl & Hdl).
    destruct (inv_add sl (fh_file_desc fh) pn f Hil Hll) as (Hie & Hve & Hce & Hee).
    + destruct (cached sl (fh_file_desc fh) pn) as [g|] eqn:Eg; [|done].
      apply (tk_sub _ _ _ Htl) in Eg. unfold cached in Eg. congruence.
    + exists id, fh. split; [|done]. by rewrite (sv_files _ _ Hvl).
    + lia.
    + by rewrite Hfl.
    + by rewrite Hfl.
    + by rewrite Hfl.
    + constructor; [done|by etrans|exists fh, f; split_and!; done || lia|].
      intros fh' f' Hfh' [= ->]. rewrite Hfh in Hfh'. injection Hfh' as <-. constructor.
      * change (cached s (fh_file_desc fh) pn) with (bpm_get (fh_file_desc fh) pn (bpm s)). rewrite Eget.
        change (f_pin_count (frame_of f' sl) = 1). by rewrite Hfl.
      * intros fd' pn' g Hg Hne _. destruct (tk_keep _ _ _ Htl _ _ _ Hg Hne) as [Hg' Hfr].
        split; [|exact Hfr]. unfold cached. simpl. rewrite get_AddPageTable, decide_False; [exact Hg'|].
        intros [-> ->]. unfold cached in Hg. congruence.
Qed.

End invariant.

(** ** Deciding the invariant, and a small pool to run *)

Section check.
Context {R W : Type} `{ReplacerLaws R} `{OSLaws W} `{HashOrder}.
Implicit Types (s : Pool R W).

Definition entries s : list (Z * Z * Z) :=
  map_to_list (page_table_ (bpm s)) ≫= fun t => (fun e => (t.1, e.1, e.2)) <$> map_to_list t.2.

Definition live_fds s : list Z := fh_file_desc <$> (map_to_list (open_file_ s)).*2.

Lemma elem_of_entries s fd pn f : cached s fd pn = Some f <-> (fd, pn, f) ∈ entries s.
Proof.
  unfold cached, bpm_get, entries. rewrite list_elem_of_bind. split.
  - intros (m & Hm & Hf)%bind_Some. exists (fd, m). split.
    + apply list_elem_of_fmap. exists (pn, f). split; [done|]. by apply elem_of_map_to_list.
    + by apply elem_of_map_to_list.
  - intros ([fd' m] & Hin & Hm). apply list_elem_of_fmap in Hin as ([pn' f'] & [= -> -> ->] & Hf).
    apply elem_of_map_to_list in Hm. apply bind_Some. exists m. split; [exact Hm|].
    by apply elem_of_map_to_list in Hf.
Qed.

Lemma elem_of_live s fd : live s fd <-> fd ∈ live_fds s.
Proof.
  unfold live, live_fds. rewrite list_elem_of_fmap. split.
  - intros (id & fh & Hid & <-). exists fh. split; [done|]. apply list_elem_of_fmap.
    exists (id, fh). split; [done|]. by apply elem_of_map_to_list.
  - intros (fh & -> & Hin). apply list_elem_of_fmap in Hin as ([id fh'] & -> & Hin).
    apply elem_of_map_to_list in Hin. by exists id, fh'.
Qed.

Definition check_entry s (e : Z * Z * Z) : bool :=
  let '(fd, pn, f) := e in
  let fr := frame_of f s in
  bool_decide (0 <= f < nframes s /\ 0 <= pn /\ (fd ∈ live_fds s) /\ f_file_desc fr = fd /\
    p_page_num (f_page fr) = pn) &&
  (f_dirty fr || bool_decide (on_disk (world s) fd pn = Some (f_page fr))).

Definition check_free s f : bool :=
  bool_decide (0 <= f < nframes s) && negb (f_dirty (frame_of f s)) &&
  bool_decide (f ∉ (entries s).*2).

Definition check_evictable s f : bool :=
  bool_decide (f_pin_count (frame_of f s) = 0 /\ (f ∈ (entries s).*2)).

Definition check_file s (x : Z * BPFileHandle) : bool :=
  bool_decide (cached s (fh_file_desc x.2) 0 = Some (fh_hdr_frame x.2) /\
    (fh_hdr_frame x.2 ∉ evictables s) /\ is_Some (os_file (world s) (fh_file_desc x.2))).

Definition pool_check s : bool :=
  forallb (check_entry s) (entries s) && bool_decide (NoDup (entries s).*2) &&
  bool_decide (NoDup (free_list_ (bpm s))) && forallb (check_free s) (free_list_ (bpm s)) &&
  forallb (check_evictable s) (evictables s) && forallb (check_file s) (map_to_list (open_file_ s)) &&
  bool_decide (NoDup (os_file (world s) <$> remove_dups (live_fds s))).

Lemma entry_frame s fd pn f : (fd, pn, f) ∈ entries s -> f ∈ (entries s).*2.
Proof. intros Hin. apply list_elem_of_fmap. by exists (fd, pn, f). Qed.

Lemma NoDup_fmap_inj {A B} (g : A -> B) (l : list A) x y :
  NoDup (g <$> l) -> x ∈ l -> y ∈ l -> g x = g y -> x = y.
Proof.
  intros Hnd [i Hi]%list_elem_of_lookup [j Hj]%list_elem_of_lookup Heq.
  assert (i = j) as ->; [|congruence].
  eapply NoDup_lookup; [done|rewrite list_lookup_fmap, Hi; done|rewrite list_lookup_fmap, Hj; simpl; congruence].
Qed.

Lemma pool_check_sound s : replacer_ok (replacer_ (bpm s)) -> pool_check s = true -> pool_inv s.
Proof.
  intros Hr. unfold pool_check. rewrite !andb_true_iff, !bool_decide_eq_true.
  intros [[[[[[He Hinj] Hnd] Hfree] Hev] Hfile] Hfds].
  assert (Hent : forall fd pn f, cached s fd pn = Some f -> check_entry s (fd, pn, f) = true).
  { intros fd pn f Hc%elem_of_entries. by eapply forallb_elem in He. }
  assert (Hopen : forall id fh, open_file_ s !! id = Some fh -> check_file s (id, fh) = true).
  { intros id fh Hid%elem_of_map_to_list. by eapply forallb_elem in Hfile. }
  constructor; try done.
  - intros fd pn f Hc%Hent. unfold check_entry in Hc. apply andb_true_iff in Hc as [Hc%bool_decide_eq_true _].
    destruct Hc as (? & ? & ? & _). split_and!; try lia. by apply elem_of_live.
  - intros fd pn fd' pn' f Hc%elem_of_entries Hc'%elem_of_entries.
    by pose proof (NoDup_fmap_inj snd _ _ _ Hinj Hc Hc' eq_refl); simplify_eq.
  - intros fd pn f Hc%Hent. unfold check_entry in Hc. apply andb_true_iff in Hc as [Hc%bool_decide_eq_true _].
    tauto.
  - intros fd pn f Hc%Hent Hd. unfold check_entry in Hc. rewrite Hd in Hc.
    by apply andb_true_iff in Hc as [_ Hc%bool_decide_eq_true].
  - intros f Hin. eapply forallb_elem in Hfree; [|exact Hin]. unfold check_free in Hfree.
    rewrite !andb_true_iff, !bool_decide_eq_true in Hfree. destruct Hfree as [[? Hd] Hn].
    split_and!; [lia|lia|by destruct (f_dirty _)|]. intros fd pn Hc%elem_of_entries%entry_frame. done.
  - intros f Hin. eapply forallb_elem in Hev; [|exact Hin]. apply bool_decide_eq_true in Hev as [? Hf].
    split; [done|]. apply list_elem_of_fmap in Hf as ([[fd pn] f'] & -> & Hf). exists fd, pn.
    by apply elem_of_entries.
  - intros id fh Hid%Hopen%bool_decide_eq_true. simpl in Hid. tauto.
  - intros fd (id & fh & Hid & <-). apply Hopen, bool_decide_eq_true in Hid. simpl in Hid. tauto.
  - intros fd fd' Hl%elem_of_live Hl'%elem_of_live. apply (NoDup_fmap_inj _ _ _ _ Hfds); by apply elem_of_remove_dups.
Qed.

End check.

Module Demo.

(** [new Frame[2]] on zeroed memory. *)
Definition raw : list Frame := replicate 2 inhabitant.
Definition pool : Type := Pool LRU.LRUReplacer MemFS.fs.

Definition boot : pool := Pool_create (BPManager_create raw (LRU.create 2)) MemFS.empty.

(** The value and the state of a run. *)
Definition value {A} (x : res A * pool) (d : A) : A := match x.1 with Ok a => a | _ => d end.

(** The pool after [create_file("t")] and [open_file("t")]: file id 0, its header in frame 0. *)
Definition opened : pool := (open_file "t" (create_file "t" boot).2).2.

(** After a first [allocate_page] (page 1, frame 1) and [unpin_page] of it. *)
Definition one_page : pool :=
  let x := allocate_page 0 opened in (unpin_page (value x null_handle) x.2).2.

(** The same page pinned. *)
Definition held : pool := (allocate_page 0 opened).2.

Lemma opened_inv : pool_inv opened.
Proof.
  apply pool_check_sound; [|vm_compute; reflexivity].
  replace (replacer_ (bpm opened)) with (Pin 0 (LRU.create 2)) by (vm_compute; reflexivity).
  apply Pin_ok. by apply LRU.create_ok.
Qed.

Lemma held_inv : pool_inv held.
Proof.
  apply pool_check_sound; [|vm_compute; reflexivity].
  replace (replacer_ (bpm held)) with (Pin 1 (Pin 0 (LRU.create 2))) by (vm_compute; reflexivity).
  do 2 apply Pin_ok. by apply LRU.create_ok.
Qed.

Lemma one_page_inv : pool_inv one_page.
Proof.
  apply pool_check_sound; [|vm_compute; reflexivity].
  replace (replacer_ (bpm one_page)) with (Unpin 1 (Pin 1 (Pin 0 (LRU.create 2))))
    by (vm_compute; reflexivity).
  apply Unpin_ok. do 2 apply Pin_ok. by apply LRU.create_ok.
Qed.

End Demo.

(** [page_exists] for page 1 of file 0 in the state after the first allocation. *)
Lemma one_page_exists : page_exists Demo.one_page 0 1.
Proof.
  intros fh Hfh. vm_compute in Hfh. injection Hfh as <-. eexists. split; [vm_compute; reflexivity|done].
Qed.

(** The open files of the demo pool: one, with its header in frame 0. *)
Lemma demo_files (s : Demo.pool) :
  open_file_ s = open_file_ Demo.held ->
  forall id fh, open_file_ s !! id = Some fh -> fh_hdr_frame fh <> 1.
Proof.
  intros Heq id fh Hfh. rewrite Heq in Hfh. apply elem_of_map_to_list in Hfh.
  replace (map_to_list (open_file_ Demo.held)) with
    [(0, {| fh_file_name := "t"; fh_file_desc := 6; fh_hdr_frame := 0 |})] in Hfh
    by (vm_compute; reflexivity).
  apply list_elem_of_singleton in Hfh. by injection Hfh as -> ->.
Qed.
