(* ===== verification/PoolTheorems.v ===== *)
(** * The buffer pool's contract

    Reading a page through the pool returns its logical content and pins it; eviction
    never takes a pinned frame; a client's write is seen by later reads and by nobody
    else; [force_page] brings a page to disk. *)
From S2P Require Import Prelude ReturnCode Effects Bitmap Memory Replacer OsFile BufferPool.
From S2P Require Import PoolInvariant.
From Stdlib Require Import String.

Section contract.
Context {R W : Type} `{ReplacerLaws R} `{OSLaws W} `{HashOrder}.
Implicit Types (s : Pool R W).

Lemma view_cached s fd pn f : cached s fd pn = Some f -> view s fd pn = Some (f_page (frame_of f s)).
Proof. unfold view. by intros ->. Qed.

Lemma get_this_page_run id pn s h s' :
  get_this_page id pn s = (Ok h, s') ->
  get_this_page_h id pn null_handle s = (Ok (SUCCESS, h), s').
Proof.
  unfold get_this_page, bind. destruct (get_this_page_h id pn null_handle s) as [[[rc h0]| | |] s1];
    simpl; try done. destruct (decide (rc = SUCCESS)) as [->|]; intros Hr; [|discriminate Hr].
  by apply ret_inv in Hr as [[= <-] ->].
Qed.

(** C4. A successful [get_this_page] pins the frame that holds the logical content of the
    page: the pin count of the frame grows by one, modulo 2^32, if the page was cached, in the frame
    where it was, and is one if it has been loaded; the frame cannot be evicted, and no other pinned
    frame changes.  The invariant of the pool is kept, and the content of no page changes: whatever
    is loaded, and whichever frame is evicted (writing a dirty one back first). *)
Theorem get_this_page_refines s s' id pn h :
  pool_inv s -> page_exists s id pn -> get_this_page id pn s = (Ok h, s') ->
  pool_inv s' /\ same_view s s' /\
  exists fh f, open_file_ s !! id = Some fh /\ h = {| ph_open := true; ph_frame := Some f |} /\
    cached s' (fh_file_desc fh) pn = Some f /\
    view s (fh_file_desc fh) pn = Some (f_page (frame_of f s')) /\ (f ∉ evictables s') /\
    0 <= pn < hdr_page_count fh s /\ page_bit fh pn s = true /\
    match cached s (fh_file_desc fh) pn with
    | Some g => g = f /\ f_pin_count (frame_of f s') = uint32 (f_pin_count (frame_of f s) + 1)
    | None => f_pin_count (frame_of f s') = 1
    end /\
    forall fd' pn' g, cached s fd' pn' = Some g -> g <> f -> f_pin_count (frame_of g s) <> 0 ->
      cached s' fd' pn' = Some g /\ frame_of g s' = frame_of g s.
Proof.
  intros Hinv Hex Hrun%get_this_page_run.
  destruct (get_this_page_success s s' id pn _ h Hinv Hex Hrun) as [Hi Hv (fh & f & Hfh & -> & Hc & He & Hpn & Hb) Hpins].
  destruct (Hpins fh f Hfh eq_refl) as [Hcount Hothers].
  split_and!; [done|done|]. exists fh, f. split_and!; try done || lia.
  2: { destruct (cached s (fh_file_desc fh) pn) as [g|]; [|done]. destruct Hcount as [-> ->]. done. }
  destruct (Hex fh Hfh) as (q & Hq & _). rewrite Hq, <- (view_cached _ _ _ _ Hc). symmetry.
  apply (sv_view _ _ Hv); [by exists id, fh|done].
Qed.

(** C8. [allocate_block] takes a frame nobody uses: every page in a pinned frame stays in
    that frame, byte for byte, and the content of all pages of the open files is kept,
    also when the frame taken held a dirty page. *)
Theorem allocate_block_safe s s' f :
  pool_inv s -> allocate_block s = (Ok f, s') ->
  pool_inv s' /\ same_view s s' /\ loose s' f /\
  forall fd pn g, cached s fd pn = Some g -> f_pin_count (frame_of g s) <> 0 ->
    cached s' fd pn = Some g /\ frame_of g s' = frame_of g s.
Proof.
  intros Hinv Hrun. destruct (allocate_block_ok s s' f Hinv Hrun) as (Hi & Hl & Hv & [_ Hkeep Hsrc]).
  split_and!; try done. intros fd pn g Hc Hpin. apply Hkeep; [done|]. intros ->.
  destruct Hsrc as [Hfree|Hev].
  - destruct (pi_free s Hinv f Hfree) as (_ & _ & Hn). by apply (Hn fd pn).
  - by destruct (pi_evictable s Hinv f Hev).
Qed.

(** The codes that the blocks report. *)
Lemma flush_block_codes f s s' rc :
  flush_block f s = (Err rc, s') -> rc = IOERR_SEEK \/ rc = IOERR_WRITE.
Proof.
  intros Hr. unfold flush_block in Hr. rewrite bind_gets, bind_sys, bind_fail_if in Hr.
  destruct (_ =? _); [injection Hr as <- _; by left|]. rewrite bind_sys, bind_fail_if in Hr.
  destruct (negb _); [injection Hr as <- _; by right|discriminate Hr].
Qed.

Lemma load_page_codes pn fh f s s' rc :
  load_page pn fh f s = (Err rc, s') -> rc = IOERR_SEEK \/ rc = IOERR_READ.
Proof.
  intros Hr. unfold load_page in Hr. rewrite bind_sys, bind_fail_if in Hr.
  destruct (_ =? _); [injection Hr as <- _; by left|]. rewrite bind_gets, bind_sys, bind_modify in Hr.
  unfold fail_if in Hr. destruct (negb _); [injection Hr as <- _; by right|discriminate Hr].
Qed.

Lemma allocate_block_codes s s' rc :
  allocate_block s = (Err rc, s') -> rc = NOMEM \/ rc = IOERR_SEEK \/ rc = IOERR_WRITE.
Proof.
  intros Hr. unfold allocate_block in Hr. rewrite bind_gets in Hr. destruct (bpm_alloc (bpm s)) as [[g|] b].
  - rewrite bind_modify, bind_gets in Hr. destruct (f_dirty _); [|discriminate Hr]. unfold bind in Hr.
    destruct (flush_block g _) as [[]] eqn:E; try discriminate Hr. injection Hr as -> ->.
    right. by eapply flush_block_codes.
  - injection Hr as <- _. by left.
Qed.

(** When [get_this_page] reports an illegal file id, an invalid page number or lack of
    memory, neither the pool nor the caller's handle has changed; it reports lack of memory
    only when no frame is free and no cached page is evictable. *)
Theorem get_this_page_errors s s' id pn h h' rc :
  pool_inv s -> get_this_page_h id pn h s = (Ok (rc, h'), s') ->
  rc = BUFFERPOOL_ILLEGAL_FILE_ID \/ rc = BUFFERPOOL_INVALID_PAGE_NUM \/ rc = NOMEM ->
  s' = s /\ h' = h /\ (rc = NOMEM -> free_list_ (bpm s) = [] /\ evictables s = []).
Proof.
  intros Hinv Hrun Hrc. unfold get_this_page_h in Hrun.
  destruct ((let! fh := check_file_id id in check_page_num pn fh;; ret fh) s) as [r s1] eqn:Ec.
  rewrite (bind_try _ _ _ _ _ Ec) in Hrun. apply checks_run in Ec as [-> Hr].
  destruct r as [fh|rc1| |]; try discriminate Hrun.
  2: { apply ret_inv in Hrun as [[= <- <-] ->]. split_and!; [done|done|]. by destruct Hr as [->| ->]. }
  rewrite bind_gets in Hrun. destruct (bpm_get _ pn (bpm s)) as [f|].
  { rewrite !bind_modify in Hrun. apply ret_inv in Hrun as [[= -> ->] ->]. naive_solver. }
  destruct (allocate_block s) as [ra sa] eqn:Ea. rewrite (bind_try _ _ _ _ _ Ea) in Hrun.
  destruct ra as [f|rc1| |]; try discriminate Hrun.
  2: { apply ret_inv in Hrun as [[= <- <-] ->].
       destruct (allocate_block_codes _ _ _ Ea) as [->|[->| ->]]; [|naive_solver..].
       destruct (allocate_block_nomem _ _ Hinv Ea) as (-> & ? & ?). done. }
  rewrite bind_modify in Hrun.
  destruct (load_page pn fh f (upd_frame f (take_frame (fh_file_desc fh)) sa)) as [rl sl] eqn:El.
  rewrite (bind_rc_of _ _ _ _ _ El) in Hrun. destruct rl as [[]|rc1| |]; try discriminate Hrun; simpl in Hrun.
  { rewrite bind_modify in Hrun. apply ret_inv in Hrun as [[= -> ->] ->]. naive_solver. }
  assert (rc1 <> rc) by (destruct (load_page_codes _ _ _ _ _ _ El) as [->| ->]; naive_solver).
  destruct (decide (rc1 = SUCCESS)).
  - rewrite bind_modify in Hrun. apply ret_inv in Hrun as [[= -> ->] ->]. naive_solver.
  - rewrite bind_modify in Hrun. unfold bind in Hrun.
    destruct (rc_of _ _) as [[]]; try discriminate Hrun. by apply ret_inv in Hrun as [[= -> _] _].
Qed.

(** ** Writes of a client *)

(** [upd_data] through a pinned frame, then [mark_dirty]. *)
Definition client_write f (g : list Z -> list Z) s : Pool R W :=
  upd_frame f (set_dirty true) (upd_data f g s).

Lemma client_write_frame f g s h :
  0 <= f < nframes s ->
  frame_of h (client_write f g s) =
    if f =? h then set_dirty true (set_page (with_data g (f_page (frame_of f s))) (frame_of f s))
    else frame_of h s.
Proof.
  intros Hf. unfold client_write, upd_data. rewrite frame_upd by (by rewrite nframes_upd).
  destruct (Z.eqb_spec f h) as [->|]; [by rewrite frame_upd, Z.eqb_refl|].
  rewrite frame_upd by done. by destruct (Z.eqb_spec f h).
Qed.

Lemma client_write_spec s fd pn f g :
  pool_inv s -> cached s fd pn = Some f ->
  let s' := client_write f g s in
  pool_inv s' /\ view s' fd pn = (with_data g <$> view s fd pn) /\
  (forall fd' pn', (fd', pn') <> (fd, pn) -> view s' fd' pn' = view s fd' pn').
Proof.
  intros Hinv Hc s'. destruct (pi_range s Hinv _ _ _ Hc) as (Hf & _ & _).
  pose proof (fun h => client_write_frame f g s h Hf) as Hfr. fold s' in Hfr.
  assert (Hcs : forall fd pn, cached s' fd pn = cached s fd pn) by done.
  assert (Hn : nframes s' = nframes s) by (unfold s', client_write, upd_data; by rewrite !nframes_upd).
  split_and!.
  - destruct Hinv as [I1 I2 I3 I4 I5 I6 I7 I8 I9 I10 I11]. constructor; try done.
    + intros fd' pn' h Hh. rewrite Hn. by apply I1.
    + intros fd' pn' h Hh. rewrite Hfr. destruct (Z.eqb_spec f h) as [<-|]; by apply I3.
    + intros fd' pn' h Hh. rewrite Hfr. destruct (Z.eqb_spec f h) as [<-|]; [done|by apply I4].
    + intros h Hh. rewrite Hn, Hfr. destruct (I6 h Hh) as (? & ? & Hnc).
      destruct (Z.eqb_spec f h) as [<-|]; [by destruct (Hnc fd pn)|by apply I6].
    + intros h Hh. rewrite Hfr. destruct (Z.eqb_spec f h) as [<-|]; by apply I8.
  - unfold view. rewrite Hcs, Hc, Hfr, Z.eqb_refl. done.
  - intros fd' pn' Hne. unfold view. rewrite Hcs. destruct (cached s fd' pn') as [h|] eqn:Eh; [|done].
    rewrite Hfr. destruct (Z.eqb_spec f h) as [<-|]; [|done].
    destruct (pi_inj s Hinv _ _ _ _ _ Eh Hc) as [-> ->]. done.
Qed.

(** A client that writes through the data of a cached page and calls [mark_dirty]
    changes the content of that page, as it meant to, and of no other page; the pool's
    invariant holds again afterwards. *)
Theorem client_write_ok s fd pn f g :
  pool_inv s -> cached s fd pn = Some f ->
  let s' := client_write f g s in
  pool_inv s' /\ view s' fd pn = (with_data g <$> view s fd pn) /\
  (forall fd' pn', (fd', pn') <> (fd, pn) -> view s' fd' pn' = view s fd' pn') /\
  mark_dirty {| ph_open := true; ph_frame := Some f |} (upd_data f g s) = (Ok tt, s').
Proof. intros Hinv Hc s'. by destruct (client_write_spec s fd pn f g Hinv Hc) as (? & ? & ?). Qed.

(** [unpin_page] gives back one pin and closes the handle.  The content of every page is
    kept, and the frame becomes a candidate for eviction exactly when the last pin
    is gone. *)
Theorem unpin_page_ok s fd pn f :
  pool_inv s -> cached s fd pn = Some f ->
  (forall id fh, open_file_ s !! id = Some fh -> fh_hdr_frame fh <> f) ->
  1 <= f_pin_count (frame_of f s) < 2 ^ 32 ->
  alen (evictables s) < capacity (replacer_ (bpm s)) ->
  exists s', unpin_page {| ph_open := true; ph_frame := Some f |} s =
      (Ok {| ph_open := false; ph_frame := Some f |}, s') /\
    pool_inv s' /\ same_view s s' /\
    f_pin_count (frame_of f s') = f_pin_count (frame_of f s) - 1 /\
    ((f ∈ evictables s') <-> f_pin_count (frame_of f s) = 1).
Proof.
  intros Hinv Hc Hhdr Hpin Hcap. destruct (pi_range s Hinv _ _ _ Hc) as (Hf & _ & _).
  assert (Hev : f ∉ evictables s).
  { intros Hin. destruct (pi_evictable s Hinv f Hin). lia. }
  set (s1 := upd_frame f (fun fr => set_pin_count (f_pin_count fr - 1) fr) s).
  destruct (inv_upd_pin s f (f_pin_count (frame_of f s) - 1) Hinv Hf Hev) as [Hi1 Hv1].
  change (upd_frame f (set_pin_count (f_pin_count (frame_of f s) - 1)) s) with s1 in *.
  assert (Hp1 : f_pin_count (frame_of f s1) = f_pin_count (frame_of f s) - 1).
  { unfold s1. rewrite frame_upd, Z.eqb_refl by done. simpl. unfold uint32. apply Z.mod_small. lia. }
  unfold unpin_page; simpl. rewrite bind_modify, bind_gets. fold s1. rewrite Hp1.
  destruct (Z.eqb_spec (f_pin_count (frame_of f s) - 1) 0) as [E|E]; simpl; rewrite ?bind_modify, ?bind_ret.
  - eexists. split; [done|]. set (s2 := set_bpm _ s1).
    pose proof (pi_replacer s Hinv) as Hrep.
    assert (He2 : evictables s2 = f :: evictables s).
    { unfold evictables, s2; simpl. rewrite Unpin_evictable, decide_False by done.
      apply take_ge. simpl. unfold evictables, alen in Hcap. lia. }
    split_and!; [|etrans; [exact Hv1|by constructor]|exact Hp1|].
    + destruct Hi1 as [I1 I2 I3 I4 I5 I6 I7 I8 I9 I10 I11]. constructor; try done.
      * simpl. by apply Unpin_ok.
      * intros g. rewrite He2. intros [->|Hg]%elem_of_cons; [|by apply I8].
        split; [|by exists fd, pn]. change (f_pin_count (frame_of f s1) = 0). lia.
      * intros id fh Hid. destruct (I9 id fh Hid) as [Hh Hne]. split; [done|]. rewrite He2.
        intros [Heq|?]%elem_of_cons; [|done]. by apply (Hhdr id fh).
    + rewrite He2. split; [intros _; lia|intros _; by left].
  - eexists. split; [done|]. split_and!; [done|done|exact Hp1|]. split; [done|lia].
Qed.

End contract.

(** ** Witnesses *)

Lemma get_this_page_refines_witness :
  pool_inv (get_this_page 0 1 Demo.one_page).2 /\
  (get_this_page 0 1 Demo.one_page).1 = Ok {| ph_open := true; ph_frame := Some 1 |}.
Proof.
  split; [|vm_compute; reflexivity].
  apply (get_this_page_refines Demo.one_page _ 0 1 {| ph_open := true; ph_frame := Some 1 |}
    Demo.one_page_inv one_page_exists). vm_compute; reflexivity.
Defined.

(** Frame 1 is evicted to make room. *)
Lemma allocate_block_safe_witness : loose (allocate_block Demo.one_page).2 1.
Proof.
  apply (allocate_block_safe Demo.one_page (allocate_block Demo.one_page).2 1 Demo.one_page_inv).
  vm_compute; reflexivity.
Defined.

(** Both frames are pinned and page 0 of file 0 is the header: page 5 does not exist. *)
Lemma get_this_page_errors_witness :
  (get_this_page_h 0 5 null_handle Demo.held).2 = Demo.held.
Proof.
  apply (get_this_page_errors Demo.held _ 0 5 null_handle null_handle BUFFERPOOL_INVALID_PAGE_NUM
    Demo.held_inv); [vm_compute; reflexivity|by right; left].
Defined.

Lemma client_write_ok_witness :
  pool_inv (client_write 1 (fun d => wr32 d 0 7) Demo.held) /\
  ((fun q => rd32 (p_data q) 0) <$> view (client_write 1 (fun d => wr32 d 0 7) Demo.held) 6 1) = Some 7.
Proof.
  split; [|vm_compute; reflexivity].
  apply (client_write_ok Demo.held 6 1 1 (fun d => wr32 d 0 7) Demo.held_inv). vm_compute; reflexivity.
Defined.

Lemma unpin_page_ok_witness :
  exists s', unpin_page {| ph_open := true; ph_frame := Some 1 |} Demo.held =
      (Ok {| ph_open := false; ph_frame := Some 1 |}, s') /\ pool_inv s' /\ (1 ∈ evictables s').
Proof.
  destruct (unpin_page_ok Demo.held 6 1 1 Demo.held_inv) as (s' & Hr & Hi & _ & _ & He).
  - vm_compute; reflexivity.
  - intros id fh Hfh. apply elem_of_map_to_list in Hfh.
    replace (map_to_list (open_file_ Demo.held)) with
      [(0, {| fh_file_name := "t"; fh_file_desc := 6; fh_hdr_frame := 0 |})] in Hfh
      by (vm_compute; reflexivity).
    apply list_elem_of_singleton in Hfh. by injection Hfh as -> ->.
  - vm_compute. done.
  - vm_compute. done.
  - exists s'. split_and!; [done|done|]. apply He. vm_compute; reflexivity.
Defined.
