(* ===== verification/PoolAlloc.v ===== *)
(** * Allocation of pages and writing back

    The file header (page count, number of allocated pages, bitmap) as a function of the
    bytes of the header page, and the theorems on [allocate_page], [force_page],
    [force_all_pages] and [dispose_page]. *)
From S2P Require Import Prelude ReturnCode Effects Bitmap Memory Replacer OsFile BufferPool.
From S2P Require Import PoolInvariant PoolTheorems.
From Stdlib Require Import String.

(** ** The header page *)

Definition hdr_bit (d : list Z) (pn : Z) : bool := bit d (8 * BP_FILE_SUB_HDR_SIZE + pn).

(** What [allocate_page] does to the header page when the file grows by page [pn]. *)
Definition grow_header (pn : Z) (d : list Z) : list Z :=
  set_bit (wr32 (wr32 d 4 (int32 (rd32 d 4 + 1))) 0 (int32 (pn + 1))) (8 * BP_FILE_SUB_HDR_SIZE + pn).

Section grow.
Variables (d : list Z) (pn : Z).
Hypothesis (Hd : alen d = BP_PAGE_DATA_SIZE) (Hpn : bit_in_header pn = true).

Lemma bit_in_header_spec : 0 <= pn /\ pn / 8 < 4084.
Proof. unfold bit_in_header in Hpn. apply andb_true_iff in Hpn as [?%Z.leb_le ?%Z.ltb_lt]. done. Qed.

Lemma in_hdr o : 0 <= o <= 4 -> in_block d o 4.
Proof. intros. split_and!; [lia|lia|]. rewrite Hd. change BP_PAGE_DATA_SIZE with 4092. lia. Qed.

Lemma alen_grow_wr : alen (wr32 (wr32 d 4 (int32 (rd32 d 4 + 1))) 0 (int32 (pn + 1))) = BP_PAGE_DATA_SIZE.
Proof.
  pose proof (in_hdr 0 ltac:(lia)). pose proof (in_hdr 4 ltac:(lia)).
  rewrite alen_wr32; rewrite ?alen_wr32; try done. unfold in_block. by rewrite alen_wr32.
Qed.

Lemma alen_grow_header : alen (grow_header pn d) = BP_PAGE_DATA_SIZE.
Proof. unfold grow_header. rewrite alen_set_bit. apply alen_grow_wr. Qed.

Lemma grow_header_set :
  grow_header pn d =
    aset (wr32 (wr32 d 4 (int32 (rd32 d 4 + 1))) 0 (int32 (pn + 1)))
      (BP_FILE_SUB_HDR_SIZE + Z.quot pn 8)
      (Z.land (Z.lor (aget (wr32 (wr32 d 4 (int32 (rd32 d 4 + 1))) 0 (int32 (pn + 1)))
         (BP_FILE_SUB_HDR_SIZE + Z.quot pn 8)) (Z.shiftl 1 (Z.rem pn 8))) 255).
Proof.
  pose proof bit_in_header_spec as [? ?]. unfold grow_header, set_bit.
  destruct (index_quot pn) as [-> ->]; [lia|].
  destruct (index_quot (8 * BP_FILE_SUB_HDR_SIZE + pn)) as [-> ->]; [unfold BP_FILE_SUB_HDR_SIZE; lia|].
  by rewrite div_add_mul8, mod_add_mul8.
Qed.

Lemma grow_header_fields :
  is_int32 (pn + 1) -> is_int32 (rd32 d 4 + 1) ->
  rd32 (grow_header pn d) 0 = pn + 1 /\ rd32 (grow_header pn d) 4 = rd32 d 4 + 1 /\
  forall k, 0 <= k -> hdr_bit (grow_header pn d) k = if k =? pn then true else hdr_bit d k.
Proof.
  intros Hp Ha. pose proof bit_in_header_spec as [Hp0 Hp8].
  pose proof (in_hdr 0 ltac:(lia)) as B0. pose proof (in_hdr 4 ltac:(lia)) as B4.
  set (d1 := wr32 d 4 (int32 (rd32 d 4 + 1))).
  assert (Hl1 : alen d1 = BP_PAGE_DATA_SIZE) by (unfold d1; by rewrite alen_wr32).
  assert (in_block d1 0 4 /\ in_block d1 4 4) as [C0 C4].
  { unfold in_block. rewrite Hl1. change BP_PAGE_DATA_SIZE with 4092. lia. }
  set (d2 := wr32 d1 0 (int32 (pn + 1))).
  assert (Hl2 : alen d2 = BP_PAGE_DATA_SIZE) by (unfold d2; by rewrite alen_wr32).
  assert (in_block d2 0 4 /\ in_block d2 4 4) as [D0 D4].
  { unfold in_block. rewrite Hl2. change BP_PAGE_DATA_SIZE with 4092. lia. }
  assert (Hidx : 4 + 4 <= Z.quot (8 * BP_FILE_SUB_HDR_SIZE + pn) 8).
  { destruct (index_quot (8 * BP_FILE_SUB_HDR_SIZE + pn)) as [-> _]; [unfold BP_FILE_SUB_HDR_SIZE; lia|].
    rewrite div_add_mul8. unfold BP_FILE_SUB_HDR_SIZE. pose proof (Z.div_pos pn 8). lia. }
  split_and!.
  - unfold grow_header, set_bit. fold d1. fold d2. rewrite rd32_aset_other by (try done; lia).
    unfold d2. rewrite rd32_wr32_same by (try done; apply int32_range). by apply int32_id.
  - unfold grow_header, set_bit. fold d1. fold d2. rewrite rd32_aset_other by (try done; lia).
    unfold d2. rewrite rd32_wr32_other by (try done; lia).
    unfold d1. rewrite rd32_wr32_same by (try done; apply int32_range). by apply int32_id.
  - intros k Hk. unfold hdr_bit, grow_header. fold d1. fold d2. unfold BP_FILE_SUB_HDR_SIZE.
    rewrite bit_set_bit; [|lia| |lia].
    2: { rewrite div_add_mul8, Hl2. change BP_PAGE_DATA_SIZE with 4092. lia. }
    destruct (Z.eqb_spec k pn), (Z.eqb_spec (8 * 8 + k) (8 * 8 + pn)); try lia.
    unfold d2, d1. rewrite !bit_wr32_other by (try done; lia). done.
Qed.
End grow.

Section allocate.
Context {R W : Type} `{ReplacerLaws R} `{OSLaws W} `{HashOrder}.
Implicit Types (s : Pool R W).

Lemma page_bit_hdr fh pn s :
  0 <= pn -> page_bit fh pn s = hdr_bit (data_of (fh_hdr_frame fh) s) pn.
Proof.
  intros Hp. unfold page_bit, hdr_bit, hdr_bitmap_byte, bit. destruct (index_quot pn Hp) as [-> ->].
  rewrite land_shiftl_testbit, div_add_mul8, mod_add_mul8 by (apply Z.mod_pos_bound; lia).
  apply negb_involutive.
Qed.

(** The page that [allocate_page] reuses is the first one whose bit is clear; when
    every page up to the page count is allocated the scan says so. *)
Theorem find_free_page_first fh s :
  0 <= hdr_page_count fh s ->
  let i := find_free_page fh s in
  0 <= i <= hdr_page_count fh s /\
  (forall j, 0 <= j < i -> page_bit fh j s = true) /\
  (i < hdr_page_count fh s -> page_bit fh i s = false).
Proof.
  intros Hc i. destruct (scan_spec 0 (hdr_page_count fh s)
    (fun i => Z.land (hdr_bitmap_byte fh (Z.quot i 8) s) (Z.shiftl 1 (Z.rem i 8)) =? 0) Hc)
    as (Hr & Hb & He).
  change (scan _ _ _) with i in *. split_and!; [lia|lia| |].
  - intros j Hj. unfold page_bit. by rewrite (Hb j Hj).
  - intros Hi. unfold page_bit. by rewrite (He Hi).
Qed.

(** Updates of one frame compose. *)
Lemma upd_frame_upd f g h s :
  0 <= f < nframes s -> upd_frame f g (upd_frame f h s) = upd_frame f (fun fr => g (h fr)) s.
Proof.
  intros Hf. unfold upd_frame, frame_of, set_bpm, set_frames; simpl.
  rewrite aget_aset_eq by done. f_equal. f_equal. unfold aset. destruct (Z.ltb_spec f 0); [done|].
  by rewrite list_insert_insert_eq.
Qed.

Lemma upd_data_upd f g h s :
  0 <= f < nframes s -> upd_data f g (upd_data f h s) = upd_data f (fun d => g (h d)) s.
Proof. intros Hf. unfold upd_data. by rewrite upd_frame_upd. Qed.

Lemma upd_data_ext f g h s : g (data_of f s) = h (data_of f s) -> upd_data f g s = upd_data f h s.
Proof. intros E. unfold upd_data, upd_frame, with_data. unfold data_of in E. by rewrite E. Qed.

Lemma data_of_upd f g s : 0 <= f < nframes s -> data_of f (upd_data f g s) = g (data_of f s).
Proof. intros Hf. unfold data_of, upd_data. by rewrite frame_upd, Z.eqb_refl. Qed.

(** The header updates of [allocate_new_page] are one write of a client. *)
Lemma grow_run {A} fh pn (k : M (Pool R W) A) s :
  0 <= fh_hdr_frame fh < nframes s -> bit_in_header pn = true ->
  (modify (set_allocated_pages fh (hdr_allocated_pages fh s + 1)) ;;
   modify (set_page_count fh (pn + 1)) ;;
   mark_allocated fh pn ;;
   modify (upd_frame (fh_hdr_frame fh) (set_dirty true)) ;; k) s =
  k (client_write (fh_hdr_frame fh) (grow_header pn) s).
Proof.
  intros Hf Hbit. rewrite !bind_modify. unfold mark_allocated.
  rewrite bind_assoc, bind_undefined_if, Hbit. simpl. rewrite bind_assoc, bind_gets, !bind_modify.
  f_equal. unfold client_write. f_equal. unfold set_page_count, set_allocated_pages.
  rewrite upd_data_upd by done. unfold hdr_bitmap_byte, set_bitmap_byte.
  rewrite data_of_upd, upd_data_upd by done. apply upd_data_ext. by rewrite grow_header_set.
Qed.

(** The disk image of a page that is not cached may change as well. *)
Lemma inv_set_world_except w s fd pn :
  pool_inv s -> (forall d, os_file w d = os_file (world s) d) -> cached s fd pn = None ->
  (forall fd' n q, live s fd' -> (fd', n) <> (fd, pn) ->
     on_disk (world s) fd' n = Some q -> on_disk w fd' n = Some q) ->
  pool_inv (set_world w s) /\
  (forall fd' n q, live s fd' -> (fd', n) <> (fd, pn) -> view s fd' n = Some q ->
     view (set_world w s) fd' n = Some q).
Proof.
  intros [I1 I2 I3 I4 I5 I6 I7 I8 I9 I10 I11] Hfile Hnone Hdisk. split.
  - constructor; try done.
    + intros fd' n f Hc Hd. apply Hdisk; [by apply (I1 fd' n f)| |by apply I4].
      intros [= -> ->]. change (cached s fd pn = Some f) in Hc. congruence.
    + intros fd' Hl. simpl. rewrite Hfile. by apply I10.
    + intros fd1 fd2 Hl Hl'. simpl. rewrite !Hfile. by apply I11.
  - intros fd' n q Hl Hne. unfold view, cached; simpl.
    destruct (bpm_get fd' n (bpm s)); [done|]. by apply Hdisk.
Qed.

(** The last steps of [allocate_new_page], from the state in which the header has grown:
    the loose frame [f] becomes page [pn] and is written to disk. *)
Lemma new_page_ok s s' fd pn f now :
  pool_inv s -> loose s f -> live s fd -> 0 <= pn -> cached s fd pn = None ->
  let p := {| p_page_num := pn; p_data := p_data zero_page |} in
  let s1 := upd_frame f (fun _ => {| f_dirty := false; f_pin_count := 1; f_acc_time := now;
                                     f_file_desc := fd; f_page := p |}) s in
  flush_block f (set_bpm (AddPageTable fd pn f (bpm s1)) s1) = (Ok tt, s') ->
  pool_inv s' /\ cached s' fd pn = Some f /\ view s' fd pn = Some p /\ (f ∉ evictables s') /\
  on_disk (world s') fd pn = Some p /\ f_pin_count (frame_of f s') = 1 /\
  (forall fd' n q, live s fd' -> (fd', n) <> (fd, pn) -> view s fd' n = Some q ->
     view s' fd' n = Some q) /\
  (forall g, g <> f -> frame_of g s' = frame_of g s).
Proof.
  intros Hinv Hlo Hl Hpn Hnone p s1 Hrun. assert (Hf : 0 <= f < nframes s) by apply Hlo.
  destruct (inv_upd_loose f (fun _ => {| f_dirty := false; f_pin_count := 1; f_acc_time := now;
    f_file_desc := fd; f_page := p |}) s Hinv Hlo) as (Hi1 & Hlo1 & Hv1). fold s1 in Hi1, Hlo1, Hv1.
  assert (Hfr : frame_of f s1 = {| f_dirty := false; f_pin_count := 1; f_acc_time := now;
    f_file_desc := fd; f_page := p |}) by (unfold s1; by rewrite frame_upd, Z.eqb_refl).
  set (sa := set_bpm (AddPageTable fd pn f (bpm s1)) s1) in *.
  assert (Hfra : frame_of f sa = frame_of f s1) by done.
  destruct (pi_open s1 Hi1 fd Hl) as [i Hi].
  destruct (flush_block_ok f sa s' i) as (w' & -> & Hwf & Hnew & Hold);
    [by rewrite Hfra, Hfr|by rewrite Hfra, Hfr|done|].
  rewrite Hfra, Hfr in *. simpl in Hnew, Hold.
  assert (Hkeep : forall fd' n q, live s fd' -> (fd', n) <> (fd, pn) ->
    on_disk (world s) fd' n = Some q -> on_disk w' fd' n = Some q).
  { intros fd' n q Hl' Hne Hd. destruct (pi_open s1 Hi1 fd' Hl') as [i' Hi'].
    rewrite (on_disk_Some (world s) _ _ i') in Hd by done.
    rewrite (on_disk_Some w' _ _ i') by (by rewrite Hwf). apply Hold; [done|].
    destruct (decide (i' = i)) as [->|]; [right|by left]. intros ->. apply Hne. f_equal.
    apply (pi_files s1 Hi1); [done|done|congruence]. }
  destruct (inv_set_world_except w' s1 fd pn Hi1 Hwf Hnone Hkeep) as [Hi2 Hv2].
  destruct (inv_add (set_world w' s1) fd pn f Hi2) as (Hi3 & Hv3 & Hc3 & He3);
    try done; try (change (frame_of f (set_world w' s1)) with (frame_of f s1); by rewrite Hfr).
  { change (frame_of f (set_world w' s1)) with (frame_of f s1). rewrite Hfr. simpl.
    rewrite (on_disk_Some _ _ _ i) by (by rewrite Hwf). exact Hnew. }
  set (s3 := set_bpm _ (set_world w' s1)) in *.
  assert (E3 : upd_frame f (set_dirty false) (set_world w' sa) = s3).
  { unfold upd_frame. change (frame_of f (set_world w' sa)) with (frame_of f s1). rewrite Hfr.
    unfold s3, sa, s1, upd_frame, set_bpm, set_frames, set_world, AddPageTable, set_page_table; simpl.
    f_equal. f_equal. unfold aset. destruct (Z.ltb_spec f 0); [done|]. by rewrite list_insert_insert_eq. }
  rewrite E3. assert (Hf3 : frame_of f s3 = frame_of f s1) by done.
  split_and!; try done.
  - rewrite (view_cached _ _ _ _ Hc3), Hf3, Hfr. done.
  - change (on_disk w' fd pn = Some p). rewrite (on_disk_Some _ _ _ i) by (by rewrite Hwf). exact Hnew.
  - by rewrite Hf3, Hfr.
  - intros fd' n q Hl' Hne Hq. apply (sv_view _ _ Hv3); [done|]. apply Hv2; [done|done|].
    by apply (sv_view _ _ Hv1).
  - intros g Hg. change (frame_of g s1 = frame_of g s). unfold s1. rewrite frame_upd by done.
    by destruct (Z.eqb_spec f g).
Qed.

(** When the file grows, [allocate_page] returns the page behind the last one, pinned,
    zeroed and already on disk; the header counts it and its bit is set, the bits of the
    other pages are as before, and no other page of any open file changes. *)
Theorem allocate_new_page_ok s s' id fh h q0 :
  pool_inv s -> open_file_ s !! id = Some fh ->
  let count := hdr_page_count fh s in
  alen (data_of (fh_hdr_frame fh) s) = BP_PAGE_DATA_SIZE ->
  0 < count -> bit_in_header count = true -> is_int32 (hdr_allocated_pages fh s + 1) ->
  cached s (fh_file_desc fh) count = None -> view s (fh_file_desc fh) 0 = Some q0 ->
  allocate_new_page fh s = (Ok h, s') ->
  exists f, h = {| ph_open := true; ph_frame := Some f |} /\ pool_inv s' /\
    cached s' (fh_file_desc fh) count = Some f /\ (f ∉ evictables s') /\
    view s' (fh_file_desc fh) count = Some {| p_page_num := count; p_data := p_data zero_page |} /\
    on_disk (world s') (fh_file_desc fh) count = view s' (fh_file_desc fh) count /\
    view s' (fh_file_desc fh) 0 = Some (with_data (grow_header count) q0) /\
    hdr_page_count fh s' = count + 1 /\
    hdr_allocated_pages fh s' = hdr_allocated_pages fh s + 1 /\
    (forall pn, 0 <= pn -> page_bit fh pn s' = if pn =? count then true else page_bit fh pn s) /\
    (forall fd pn q, live s fd -> (fd, pn) <> (fh_file_desc fh, 0) ->
       (fd, pn) <> (fh_file_desc fh, count) -> view s fd pn = Some q -> view s' fd pn = Some q).
Proof.
  intros Hinv Hfh count Hlen Hc0 Hbit Halloc Hnone Hq0 Hrun. unfold allocate_new_page in Hrun.
  apply bind_Ok in Hrun as (f & s1 & Ha & Hrun).
  destruct (allocate_block_ok s s1 f Hinv Ha) as (Hi1 & Hlo1 & Hv1 & Ht1).
  destruct (pi_header s Hinv id fh Hfh) as [Hh Hhe].
  assert (Hl : live s (fh_file_desc fh)) by (by exists id, fh).
  assert (Hfh1 : open_file_ s1 !! id = Some fh) by (by rewrite (sv_files _ _ Hv1)).
  destruct (pi_header s1 Hi1 id fh Hfh1) as [Hh1 _].
  assert (Hne : fh_hdr_frame fh <> f) by (intros <-; by apply Hlo1 in Hh1).
  destruct (tk_keep _ _ _ Ht1 _ _ _ Hh Hne) as [_ Hfr1].
  assert (Hd1 : data_of (fh_hdr_frame fh) s1 = data_of (fh_hdr_frame fh) s) by (unfold data_of; by rewrite Hfr1).
  assert (Hcount1 : hdr_page_count fh s1 = count) by (unfold count, hdr_page_count; by rewrite Hd1).
  destruct (pi_range s1 Hi1 _ _ _ Hh1) as (Hr1 & _ & _).
  rewrite !bind_gets, Hcount1, grow_run in Hrun by done. set (s2 := client_write _ _ s1) in *.
  destruct (client_write_spec s1 _ _ _ (grow_header count) Hi1 Hh1) as (Hi2 & Hv2 & Ho2). fold s2 in Hi2, Hv2, Ho2.
  rewrite !bind_gets, !bind_modify in Hrun.
  destruct (grow_header_fields (data_of (fh_hdr_frame fh) s1) count) as (Hg0 & Hg4 & Hgb).
  { by rewrite Hd1. }
  { done. }
  { destruct (bit_in_header_spec count Hbit). pose proof (Z.div_mod count 8 ltac:(lia)).
    pose proof (Z.mod_pos_bound count 8 ltac:(lia)). unfold is_int32. lia. }
  { by rewrite Hd1. }
  assert (Hd2 : data_of (fh_hdr_frame fh) s2 = grow_header count (data_of (fh_hdr_frame fh) s1)).
  { unfold data_of at 1, s2. rewrite client_write_frame, Z.eqb_refl by done. done. }
  assert (Hcount2 : hdr_page_count fh s2 = count + 1) by (unfold hdr_page_count; by rewrite Hd2).
  rewrite Hcount2, Z.add_simpl_r in Hrun.
  apply bind_Ok in Hrun as ([] & s3 & Hflush & Hrun). apply ret_inv in Hrun as [[= ->] ->].
  assert (Hlo2 : loose s2 f) by (destruct Hlo1 as (? & ? & ? & ?); unfold loose, s2, client_write, upd_data; by rewrite !nframes_upd).
  assert (Hl2 : live s2 (fh_file_desc fh)) by (by exists id, fh).
  assert (Hnone2 : cached s2 (fh_file_desc fh) count = None).
  { change (cached s1 (fh_file_desc fh) count = None).
    destruct (cached s1 (fh_file_desc fh) count) as [g|] eqn:Eg; [|done].
    apply (tk_sub _ _ _ Ht1) in Eg. congruence. }
  destruct (new_page_ok s2 s3 (fh_file_desc fh) count f _ Hi2 Hlo2 Hl2 ltac:(lia) Hnone2 Hflush)
    as (Hi3 & Hc3 & Hv3 & He3 & Hd3 & _ & Hk3 & Hf3).
  assert (Hdata3 : data_of (fh_hdr_frame fh) s3 = grow_header count (data_of (fh_hdr_frame fh) s)).
  { unfold data_of at 1. rewrite Hf3 by done. change (data_of (fh_hdr_frame fh) s2 = grow_header count (data_of (fh_hdr_frame fh) s)).
    by rewrite Hd2, Hd1. }
  assert (Hl12 : forall fd, live s fd -> live s2 fd).
  { intros fd (i & x & Hx & ?). exists i, x. split; [|done]. change (open_file_ s1 !! i = Some x). by rewrite (sv_files _ _ Hv1). }
  exists f. split_and!; try done.
  - by rewrite Hd3, Hv3.
  - apply Hk3; [done|intros [=]; lia|]. rewrite Hv2, (sv_view _ _ Hv1 _ _ q0); done.
  - unfold hdr_page_count. rewrite Hdata3. by rewrite <- Hd1.
  - unfold hdr_allocated_pages. rewrite Hdata3, <- Hd1. by rewrite <- Hg4.
  - intros pn Hpn. rewrite !page_bit_hdr by done. rewrite Hdata3, <- Hd1. by apply Hgb.
  - intros fd pn q Hlf Hn0 Hnc Hq. apply Hk3; [by apply Hl12|done|]. rewrite Ho2 by done. by apply (sv_view _ _ Hv1).
Qed.

(** ** Writing back *)

Lemma flush_cached s s' fd pn f :
  pool_inv s -> cached s fd pn = Some f -> flush_block f s = (Ok tt, s') ->
  pool_inv s' /\ same_view s s' /\ on_disk (world s') fd pn = Some (f_page (frame_of f s)) /\
  frame_of f s' = set_dirty false (frame_of f s) /\ nframes s' = nframes s /\
  (forall fd pn, cached s' fd pn = cached s fd pn) /\ evictables s' = evictables s /\
  free_list_ (bpm s') = free_list_ (bpm s).
Proof.
  intros Hinv Hc Hrun. destruct (pi_range s Hinv _ _ _ Hc) as (Hf & Hpn & Hl).
  destruct (pi_tag s Hinv _ _ _ Hc) as [Hfd Hnum].
  destruct (flush_block_disk f s s' fd pn Hinv Hfd Hnum Hl Hpn Hrun) as (w' & -> & Hwf & Hnew & Hold).
  assert (Hfr : forall g, frame_of g (upd_frame f (set_dirty false) (set_world w' s)) =
    if f =? g then set_dirty false (frame_of f s) else frame_of g s) by (intros; by rewrite frame_upd).
  assert (Hdisk : forall fd' n q, live s fd' -> on_disk (world s) fd' n = Some q ->
    ((fd', n) = (fd, pn) -> q = f_page (frame_of f s)) -> on_disk w' fd' n = Some q).
  { intros fd' n q Hl' Hd Hq. destruct (decide ((fd', n) = (fd, pn))) as [E|Hne].
    - rewrite (Hq E). by injection E as -> ->.
    - by apply Hold. }
  split_and!; try done; [| |by rewrite Hfr, Z.eqb_refl|by rewrite nframes_upd].
  - pose proof Hinv as [I1 I2 I3 I4 I5 I6 I7 I8 I9 I10 I11]. constructor; try done.
    + intros fd' n g Hg. rewrite nframes_upd. by apply I1.
    + intros fd' n g Hg. rewrite Hfr. destruct (Z.eqb_spec f g) as [<-|]; by apply I3.
    + intros fd' n g Hg. rewrite Hfr. destruct (Z.eqb_spec f g) as [<-|Hne]; simpl.
      * intros _. destruct (I2 _ _ _ _ _ Hc Hg) as [-> ->]. done.
      * intros Hd. apply Hdisk; [by apply (I1 fd' n g)|by apply I4|]. intros [= -> ->].
        change (cached s fd pn = Some g) in Hg. congruence.
    + intros g Hg. rewrite nframes_upd, Hfr. destruct (I6 g Hg) as (? & ? & Hnc).
      destruct (Z.eqb_spec f g) as [<-|]; [by destruct (Hnc fd pn)|done].
    + intros g Hg. rewrite Hfr. destruct (Z.eqb_spec f g) as [<-|]; by apply I8.
    + intros d Hd. simpl. rewrite Hwf. by apply I10.
    + intros d d' Hd Hd'. simpl. rewrite !Hwf. by apply I11.
  - constructor; try done. intros fd' n q Hl' Hq. unfold view in *. rewrite cached_upd.
    change (cached (set_world w' s) fd' n) with (cached s fd' n). destruct (cached s fd' n) as [g|] eqn:Eg.
    + rewrite Hfr. destruct (Z.eqb_spec f g) as [<-|]; done.
    + apply Hdisk; [done|done|]. intros [= -> ->]. congruence.
Qed.

(** [deleteFrame] of a clean page that is not a file header. *)
Lemma inv_deleteFrame s fd pn f :
  pool_inv s -> cached s fd pn = Some f -> f_dirty (frame_of f s) = false ->
  (forall id fh, open_file_ s !! id = Some fh -> fh_hdr_frame fh <> f) ->
  let s' := set_bpm (deleteFrame fd pn f (bpm s)) s in
  pool_inv s' /\ same_view s s' /\ cached s' fd pn = None /\ f ∈ free_list_ (bpm s').
Proof.
  intros Hinv Hc Hd Hhdr s'. set (b := set_replacer (Pin f (replacer_ (bpm s))) (bpm s)).
  pose proof (pi_replacer s Hinv) as Hrep.
  assert (Hu : uncached s (set_bpm (DeletePageTable fd pn b) s) fd pn).
  { intros fd' pn'. apply (get_DeletePageTable fd pn fd' pn' b). }
  destruct (inv_drop s (DeletePageTable fd pn b) fd pn f Hinv Hc Hhdr) as [Hi (Hf & Hnc & Hfree & Hev)]; try done.
  { simpl. by apply Pin_ok. }
  { intros g. simpl. rewrite Pin_evictable by done. rewrite list_elem_of_filter. unfold evictables. tauto. }
  assert (Hfl : free_list_ (bpm s') = free_list_ (bpm s) ++ [f]) by done.
  split_and!.
  - destruct Hi as [I1 I2 I3 I4 I5 I6 I7 I8 I9 I10 I11]. constructor; try done.
    + rewrite Hfl. apply NoDup_app. split_and!; [exact I5| |apply NoDup_singleton].
      intros g Hg ->%list_elem_of_singleton. by apply Hfree.
    + intros g. rewrite Hfl. intros [Hg| ->%list_elem_of_singleton]%elem_of_app; [by apply I6|]. done.
  - constructor; try done. intros fd' n q Hl Hq. unfold view in *.
    change (cached s' fd' n) with (cached (set_bpm (DeletePageTable fd pn b) s) fd' n). rewrite Hu.
    destruct (decide _) as [[-> ->]|]; [|done]. rewrite Hc in Hq. simpl.
    rewrite (pi_clean s Hinv _ _ _ Hc Hd). congruence.
  - change (cached (set_bpm (DeletePageTable fd pn b) s) fd pn = None). by rewrite Hu, decide_True.
  - rewrite Hfl. apply elem_of_app. right. by apply list_elem_of_singleton.
Qed.

(** After [force_page] of a cached, unpinned page its content is on disk and the page
    has left the cache; no page changes. *)
Theorem force_page_persists s s' fh pn f :
  pool_inv s -> cached s (fh_file_desc fh) pn = Some f ->
  (forall id fh, open_file_ s !! id = Some fh -> fh_hdr_frame fh <> f) ->
  force_page_of fh pn s = (Ok tt, s') ->
  pool_inv s' /\ same_view s s' /\ cached s' (fh_file_desc fh) pn = None /\
  on_disk (world s') (fh_file_desc fh) pn = view s (fh_file_desc fh) pn /\
  f_pin_count (frame_of f s) = 0.
Proof.
  intros Hinv Hc Hhdr Hrun. destruct (pi_range s Hinv _ _ _ Hc) as (Hf & Hpn & Hl).
  unfold force_page_of in Hrun. destruct (Z.eqb_spec pn (-1)); [lia|].
  rewrite bind_gets in Hrun. change (bpm_get _ pn (bpm s)) with (cached s (fh_file_desc fh) pn) in Hrun.
  rewrite Hc, bind_gets, bind_fail_if in Hrun.
  destruct (Z.eqb_spec (f_pin_count (frame_of f s)) 0) as [Hp|]; [simpl in Hrun|discriminate Hrun].
  apply bind_Ok in Hrun as ([] & s1 & Hflush & Hrun). unfold modify in Hrun. injection Hrun as <-.
  assert (Hs1 : pool_inv s1 /\ same_view s s1 /\
    on_disk (world s1) (fh_file_desc fh) pn = Some (f_page (frame_of f s)) /\
    f_dirty (frame_of f s1) = false /\ cached s1 (fh_file_desc fh) pn = Some f).
  { destruct (f_dirty (frame_of f s)) eqn:Ed.
    - destruct (flush_cached s s1 _ _ f Hinv Hc Hflush) as (? & ? & ? & Hfr & _ & Hcs & _).
      rewrite Hfr, Hcs. by split_and!.
    - apply ret_inv in Hflush as [_ ->]. split_and!; try done. by apply (pi_clean s Hinv). }
  destruct Hs1 as (Hi1 & Hv1 & Hd1 & Hdirty & Hc1).
  destruct (inv_deleteFrame s1 _ _ f Hi1 Hc1 Hdirty) as (Hi2 & Hv2 & Hc2 & _).
  { intros id x. rewrite (sv_files _ _ Hv1). apply Hhdr. }
  split_and!; [done|by etrans|done| |done]. rewrite (view_cached _ _ _ _ Hc). exact Hd1.
Qed.

(** [force_all_pages] (and with it [close_file]) frees only the frames it has to write:
    when every cached page of the file is clean it does nothing at all, so the page table
    still maps the pages of a file that is then closed. *)
Theorem force_all_pages_clean fh s :
  (forall pn f, cached s (fh_file_desc fh) pn = Some f -> f_dirty (frame_of f s) = false) ->
  exists s', force_all_pages fh s = (Ok tt, s') /\ world s' = world s /\
    free_list_ (bpm s') = free_list_ (bpm s) /\
    forall fd pn, cached s' fd pn = cached s fd pn.
Proof.
  intros Hclean. unfold force_all_pages, touch_page_table.
  rewrite bind_assoc, bind_gets, bind_assoc, bind_modify, bind_ret.
  set (inner := default ∅ (page_table_ (bpm s) !! fh_file_desc fh)). set (s1 := set_bpm _ s).
  assert (Hfl : forall l, (forall it, it ∈ l -> f_dirty (frame_of it.2 s) = false) ->
    flush_dirty l [] s1 = (Ok [], s1)).
  { induction l as [|it l IH]; intros Hl; simpl; [done|]. rewrite bind_gets.
    change (frame_of it.2 s1) with (frame_of it.2 s). rewrite Hl by (by left).
    apply IH. intros. apply Hl. by right. }
  rewrite (bind_run _ _ _ [] s1).
  - exists s1. split_and!; try done. intros fd pn. unfold cached, bpm_get, s1; simpl.
    destruct (decide (fd = fh_file_desc fh)) as [->|].
    + rewrite lookup_insert_eq; simpl. unfold inner.
      destruct (page_table_ (bpm s) !! fh_file_desc fh) as [m|]; done.
    + by rewrite lookup_insert_ne.
  - apply Hfl. intros [pn f] Hin. apply (Hclean pn). rewrite hash_order_perm in Hin.
    apply elem_of_map_to_list in Hin. unfold cached, bpm_get. unfold inner in Hin. simpl.
    destruct (page_table_ (bpm s) !! fh_file_desc fh); [done|]. simpl in Hin. by rewrite lookup_empty in Hin.
Qed.

End allocate.

(** ** Witnesses *)

Definition demo_fh : BPFileHandle :=
  {| fh_file_name := "t"; fh_file_desc := 6; fh_hdr_frame := 0 |}.

Lemma find_free_page_first_witness :
  find_free_page demo_fh Demo.one_page = 2 /\ page_bit demo_fh 1 Demo.one_page = true.
Proof.
  split; [vm_compute; reflexivity|].
  apply (find_free_page_first demo_fh Demo.one_page); vm_compute; [discriminate|split; [discriminate|done]].
Defined.

Lemma allocate_new_page_ok_witness :
  pool_inv (allocate_new_page demo_fh Demo.opened).2 /\
  hdr_page_count demo_fh (allocate_new_page demo_fh Demo.opened).2 = hdr_page_count demo_fh Demo.opened + 1.
Proof.
  destruct (allocate_new_page_ok Demo.opened (allocate_new_page demo_fh Demo.opened).2 0 demo_fh
    {| ph_open := true; ph_frame := Some 1 |} (f_page (frame_of 0 Demo.opened)))
    as (f & _ & Hi & _ & _ & _ & _ & _ & Hc & _).
  - apply Demo.opened_inv.
  - vm_compute; reflexivity.
  - vm_compute; reflexivity.
  - vm_compute; reflexivity.
  - vm_compute; reflexivity.
  - vm_compute; split; [discriminate|reflexivity].
  - vm_compute; reflexivity.
  - vm_compute; reflexivity.
  - vm_compute; reflexivity.
  - split; [exact Hi|exact Hc].
Defined.

Lemma force_page_persists_witness :
  cached (force_page_of demo_fh 1 Demo.one_page).2 6 1 = None.
Proof.
  apply (force_page_persists Demo.one_page (force_page_of demo_fh 1 Demo.one_page).2 demo_fh 1 1
    Demo.one_page_inv); [vm_compute; reflexivity|apply demo_files; vm_compute; reflexivity|vm_compute; reflexivity].
Defined.

(** Page 1 is clean after its allocation, but the header page is not: with the header written
    back first, every page is clean. *)
Definition demo_clean : Demo.pool := (flush_block 0 Demo.one_page).2.

Lemma force_all_pages_clean_witness :
  exists s', force_all_pages demo_fh demo_clean = (Ok tt, s') /\ cached s' 6 1 = Some 1.
Proof.
  destruct (force_all_pages_clean demo_fh demo_clean) as (s' & Hr & _ & _ & Hc).
  - intros pn f Hf%elem_of_entries.
    replace (entries demo_clean) with [(6, 1, 1); (6, 0, 0)] in Hf by (vm_compute; reflexivity).
    apply elem_of_cons in Hf as [[= _ ->]|[= _ ->]%list_elem_of_singleton]; vm_compute; reflexivity.
  - exists s'. split; [exact Hr|]. rewrite Hc. vm_compute; reflexivity.
Defined.
