(* ===== verification/RecordPage.v ===== *)
(** * Record pages (storage/common/record_manager.cpp, RecordPageHandler)

    The content of a record page, as the bytes of the page: a header of five [int]s, a
    bitmap of the used slots, and the records.  The operations of RecordPageHandler on
    the page content are computations on these bytes; RecordFile.v puts them on the
    frame that the handler has pinned. *)
From S2P Require Import Prelude ReturnCode Effects Bitmap Memory OsFile.
From Stdlib Require Import Floats.SpecFloat.

#[global] Open Scope c_scope.

Record RID := { page_num : Z; slot_num : Z }.

#[export] Instance RID_eq_dec : EqDecision RID.
Proof. solve_decision. Defined.
#[export] Instance RID_inhabited : Inhabited RID := populate {| page_num := 0; slot_num := 0 |}.

(** ** Layout *)

Definition align8 (size : Z) : Z := Z.quot size 8 * 8 + (if Z.rem size 8 =? 0 then 0 else 8).

Definition page_fix_size : Z := 4 + 4 + 4 + 4 + 4.

(** A [double] and the conversions from and to [int]. *)
Definition double := spec_float.
Definition double_of_int (z : Z) : double := binary_normalize 53 1024 z 0 false.
Definition int_of_double (x : double) : Z :=
  match x with
  | S754_finite s m e => let a := Z.shiftl (Zpos m) e in if s then - a else a
  | _ => 0
  end.
Definition one_eighth : double := binary_normalize 53 1024 1 (-3) false.

Definition page_record_capacity (page_size record_size : Z) : Z :=
  int_of_double (SFdiv 53 1024 (double_of_int (page_size - page_fix_size - 1))
                   (SFadd 53 1024 (double_of_int record_size) one_eighth)).

Definition page_bitmap_size (record_capacity : Z) : Z :=
  Z.quot record_capacity 8 + (if Z.rem record_capacity 8 =? 0 then 0 else 1).

Definition page_header_size (record_capacity : Z) : Z :=
  align8 (page_fix_size + page_bitmap_size record_capacity).

(** ** The page header and the bitmap *)

Definition record_num (d : list Z) : Z := rd32 d 0.
Definition record_capacity (d : list Z) : Z := rd32 d 4.
Definition record_real_size (d : list Z) : Z := rd32 d 8.
Definition record_size (d : list Z) : Z := rd32 d 12.
Definition first_record_offset (d : list Z) : Z := rd32 d 16.

(** [Bitmap bitmap(bitmap_, page_header_->record_capacity)]: the memory from [bitmap_] on. *)
Definition bitmap_mem (d : list Z) : list Z := drop (Z.to_nat page_fix_size) d.
Definition upd_bitmap (g : list Z -> list Z) (d : list Z) : list Z :=
  take (Z.to_nat page_fix_size) d ++ g (bitmap_mem d).

(** The bit of a slot can be reached in the page. *)
Definition slot_in_page (d : list Z) (slot : Z) : bool :=
  (0 <=? slot) && (slot / 8 <? alen (bitmap_mem d)).

Definition record_offset (d : list Z) (slot : Z) : Z := first_record_offset d + slot * record_size d.

(** A record that does not leave the page. *)
Definition record_in_page (d : list Z) (slot : Z) : bool :=
  (0 <=? record_offset d slot) && (0 <=? record_real_size d) &&
  (record_offset d slot + record_real_size d <=? alen d).

(** ** Operations on the page content *)

Definition init_empty_page (rec_size : Z) (d : list Z) : list Z :=
  let record_phy_size := align8 rec_size in
  let d := wr32 d 0 0 in
  let d := wr32 d 4 (page_record_capacity BP_PAGE_DATA_SIZE record_phy_size) in
  let d := wr32 d 8 rec_size in
  let d := wr32 d 12 record_phy_size in
  let d := wr32 d 16 (page_header_size (record_capacity d)) in
  zero d page_fix_size (page_bitmap_size (record_capacity d)).

(** [memcpy(record_data, data, record_real_size)]. *)
Definition write_record (slot : Z) (data : list Z) : M (list Z) unit := fun d =>
  (undefined_if (negb (record_in_page d slot) || (alen data <? record_real_size d)) ;;
   modify (fun d => put d (record_offset d slot) (take (Z.to_nat (record_real_size d)) data))) d.

Definition insert_slot (data : list Z) : M (list Z) Z :=
  let! d := get in
  fail_if (record_num d =? record_capacity d) RECORD_NOMEM ;;
  match next_unsetted_bit (bitmap_mem d) (record_capacity d) 0 with
  | None => undefined
  | Some index =>
      undefined_if (negb (slot_in_page d index)) ;;
      modify (upd_bitmap (fun m => set_bit m index)) ;;
      modify (fun d => wr32 d 0 (int32 (record_num d + 1))) ;;
      write_record index data ;;
      ret index
  end.

(** The two checks on a slot: it is below the capacity, and in use. *)
Definition check_slot (slot : Z) (rc : RC) : M (list Z) unit :=
  let! d := get in
  fail_if (record_capacity d <=? slot) rc ;;
  undefined_if (negb (slot_in_page d slot)) ;;
  fail_if (negb (get_bit (bitmap_mem d) slot)) RECORD_RECORD_NOT_EXIST.

Definition update_slot (slot : Z) (data : list Z) : M (list Z) unit :=
  check_slot slot INVALID_ARGUMENT ;; write_record slot data.

Definition delete_slot (slot : Z) : M (list Z) unit :=
  check_slot slot INVALID_ARGUMENT ;;
  modify (upd_bitmap (fun m => clear_bit m slot)) ;;
  modify (fun d => wr32 d 0 (int32 (record_num d - 1))).

(** The result is the offset of the record in the page: [rec->data] points there. *)
Definition get_slot (slot : Z) : M (list Z) Z :=
  check_slot slot RECORD_INVALIDRID ;; gets (fun d => record_offset d slot).

Definition next_slot (slot : Z) : M (list Z) (Z * Z) :=
  let! d := get in
  fail_if (record_capacity d - 1 <=? slot) RECORD_EOF ;;
  undefined_if (slot + 1 <? 0) ;;
  match next_setted_bit (bitmap_mem d) (record_capacity d) (slot + 1) with
  | None => undefined
  | Some index =>
      fail_if (index <? 0) RECORD_EOF ;;
      ret (index, record_offset d index)
  end.

Definition page_full (d : list Z) : bool := record_capacity d <=? record_num d.

(** ** Layout theorems *)

(** The page layout for records of [size] bytes stays inside the page. *)
Definition layout_fits (size : Z) : bool :=
  let cap := page_record_capacity BP_PAGE_DATA_SIZE (align8 size) in
  (0 <? cap) && (page_header_size cap + cap * align8 size <=? BP_PAGE_DATA_SIZE).

(** The capacity in exact arithmetic. *)
Definition exact_capacity (record_size : Z) : Z :=
  (8 * (BP_PAGE_DATA_SIZE - page_fix_size - 1)) / (8 * record_size + 1).

Lemma forallb_seqZ (p : Z -> bool) (n : Z) :
  forallb p (seqZ 1 n) = true -> forall i, 1 <= i <= n -> p i = true.
Proof.
  intros Hf i Hi. eapply forallb_forall in Hf; [exact Hf|]. apply list_elem_of_In, elem_of_seqZ. lia.
Qed.

Lemma align8_spec size : 0 <= size -> align8 size = 8 * ((size + 7) / 8).
Proof.
  intros Hs. unfold align8. destruct (index_quot size Hs) as [-> ->].
  pose proof (Z.div_mod size 8 ltac:(lia)). pose proof (Z.mod_pos_bound size 8 ltac:(lia)).
  pose proof (Z.div_mod (size + 7) 8 ltac:(lia)). pose proof (Z.mod_pos_bound (size + 7) 8 ltac:(lia)).
  destruct (Z.eqb_spec (size mod 8) 0); lia.
Qed.

Lemma align8_idem size : 0 <= size -> align8 (align8 size) = align8 size.
Proof.
  intros Hs. pose proof (Z.div_pos (size + 7) 8 ltac:(lia) ltac:(lia)).
  rewrite (align8_spec size) by done. rewrite align8_spec by lia. f_equal. symmetry.
  apply Z.div_unique with 7; lia.
Qed.

Lemma exact_capacity_checked :
  forallb (fun k => page_record_capacity BP_PAGE_DATA_SIZE (8 * k) =? exact_capacity (8 * k)) (seqZ 1 511) = true.
Proof. vm_compute. reflexivity. Qed.

(** The capacity is computed in floating point; for every aligned record size that a
    page can hold it is the exact quotient, and the bitmap and the records without the
    alignment of the header fit into the page. *)
Theorem page_record_capacity_exact size :
  1 <= size <= 4088 ->
  let cap := page_record_capacity BP_PAGE_DATA_SIZE (align8 size) in
  cap = exact_capacity (align8 size) /\
  page_fix_size + page_bitmap_size cap + cap * align8 size <= BP_PAGE_DATA_SIZE.
Proof.
  intros Hs. rewrite align8_spec by lia.
  pose proof (Z.div_mod (size + 7) 8 ltac:(lia)). pose proof (Z.mod_pos_bound (size + 7) 8 ltac:(lia)).
  set (k := (size + 7) / 8) in *. assert (Hk : 1 <= k <= 511) by lia.
  pose proof (forallb_seqZ _ _ exact_capacity_checked k Hk) as Hc%Z.eqb_eq. cbv zeta.
  split; [exact Hc|]. rewrite Hc. unfold page_bitmap_size, exact_capacity.
  change BP_PAGE_DATA_SIZE with 4092. change page_fix_size with 20.
  set (cap := 8 * (4092 - 20 - 1) / (8 * (8 * k) + 1)).
  assert (Hm : (8 * (8 * k) + 1) * cap <= 8 * (4092 - 20 - 1)) by (apply Z.mul_div_le; lia).
  assert (0 <= cap) by (apply Z.div_pos; lia). destruct (index_quot cap) as [-> ->]; [done|].
  pose proof (Z.div_mod cap 8 ltac:(lia)). pose proof (Z.mod_pos_bound cap 8 ltac:(lia)).
  clearbody cap. clearbody k. destruct (Z.eqb_spec (cap mod 8) 0); lia.
Qed.

Lemma page_record_capacity_exact_witness :
  page_record_capacity BP_PAGE_DATA_SIZE 24 = exact_capacity 24.
Proof. apply (page_record_capacity_exact 20). lia. Defined.

Lemma layout_fits_checked : forallb (fun k => Bool.eqb (layout_fits (8 * k)) (1 <? k)) (seqZ 1 508) = true.
Proof. vm_compute. reflexivity. Qed.

Lemma layout_fits_iff size : 1 <= size <= 4064 -> layout_fits size = (8 <? size).
Proof.
  intros Hs. assert (Ha : layout_fits size = layout_fits (align8 size)).
  { unfold layout_fits. by rewrite align8_idem by lia. }
  rewrite Ha, align8_spec by lia.
  pose proof (Z.div_mod (size + 7) 8 ltac:(lia)). pose proof (Z.mod_pos_bound (size + 7) 8 ltac:(lia)).
  set (k := (size + 7) / 8) in *. assert (Hk : 1 <= k <= 508) by lia.
  pose proof (forallb_seqZ _ _ layout_fits_checked k Hk) as Hc%eqb_prop. rewrite Hc.
  destruct (Z.ltb_spec 1 k), (Z.ltb_spec 8 size); lia.
Qed.

(** With the header rounded up to a multiple of 8 the layout stays inside the page for
    every record size from 9 to 4064 bytes, and for the sizes 1 to 8 it does not: the
    last slot reaches past the page (a table with one [int] column has records of 8
    bytes: the transaction id and the column). *)
Theorem layout_fits_sizes size :
  1 <= size <= 4064 ->
  (layout_fits size = true <-> 8 < size) /\
  (size <= 8 -> let cap := page_record_capacity BP_PAGE_DATA_SIZE (align8 size) in
     cap = 501 /\ page_header_size cap + cap * align8 size = BP_PAGE_DATA_SIZE + 4).
Proof.
  intros Hs. rewrite layout_fits_iff by done. split; [apply Z.ltb_lt|].
  intros H8. replace (align8 size) with 8; [vm_compute; done|].
  assert (size = 1 \/ size = 2 \/ size = 3 \/ size = 4 \/ size = 5 \/ size = 6 \/ size = 7 \/ size = 8)
    by lia. naive_solver.
Qed.

Lemma layout_fits_sizes_witness : layout_fits 8 = false /\ layout_fits 12 = true.
Proof.
  split; [vm_compute; reflexivity|]. apply (layout_fits_sizes 12); lia.
Defined.
