(* ===== verification/RecordPageTheorems.v ===== *)
(** * Correctness of record pages

    A well-formed record page ([page_ok]) is a partial map from slots to records
    ([records]); the operations of RecordPageHandler are the operations on that map, and
    [record_num] counts its domain. *)
From S2P Require Import Prelude ReturnCode Effects Bitmap Memory OsFile RecordPage.

(** The bit of a slot, and the content of a used slot. *)
Definition slot_bit (d : list Z) (slot : Z) : bool := bit d (8 * page_fix_size + slot).

Definition record_bytes (d : list Z) (slot : Z) : list Z :=
  load d (record_offset d slot) (record_real_size d).

Definition records (d : list Z) (slot : Z) : option (list Z) :=
  if (0 <=? slot) && (slot <? record_capacity d) && slot_bit d slot
  then Some (record_bytes d slot) else None.

Definition used_slots (d : list Z) : list Z :=
  filter (fun i => slot_bit d i = true) (seqZ 0 (record_capacity d)).

Record layout_ok (d : list Z) : Prop := {
  po_len : alen d = BP_PAGE_DATA_SIZE;
  po_bytes : bytes_ok d;
  po_cap : 0 < record_capacity d;
  po_real : 1 <= record_real_size d <= record_size d;
  po_bitmap : page_fix_size + page_bitmap_size (record_capacity d) <= first_record_offset d;
  po_fit : first_record_offset d + record_capacity d * record_size d <= BP_PAGE_DATA_SIZE }.

Record page_ok (d : list Z) : Prop := {
  po_layout : layout_ok d;
  po_num : record_num d = alen (used_slots d) }.

(** The layout fields of two pages agree. *)
Record same_layout (d d' : list Z) : Prop := {
  sl_len : alen d' = alen d;
  sl_cap : record_capacity d' = record_capacity d;
  sl_real : record_real_size d' = record_real_size d;
  sl_size : record_size d' = record_size d;
  sl_off : first_record_offset d' = first_record_offset d }.

#[export] Instance same_layout_preorder : PreOrder same_layout.
Proof.
  split; [by constructor|]. intros ??? [] []; constructor; congruence.
Qed.

Lemma same_layout_ok d d' : layout_ok d -> same_layout d d' -> bytes_ok d' -> layout_ok d'.
Proof.
  intros [H1 H2 H3 H4 H5 H6] [L1 L2 L3 L4 L5] Hb. constructor; rewrite ?L1, ?L2, ?L3, ?L4, ?L5; done.
Qed.

Lemma same_layout_offset d d' slot : same_layout d d' -> record_offset d' slot = record_offset d slot.
Proof. intros []. unfold record_offset. congruence. Qed.

Ltac page_arith := unfold page_fix_size in *; change BP_PAGE_DATA_SIZE with 4092 in *; lia.

Ltac unfold_fields :=
  unfold record_num, record_capacity, record_real_size, record_size, first_record_offset.

Section page.
Variables (d : list Z).
Hypothesis (Hok : layout_ok d).

Lemma in_header o : 0 <= o <= 16 -> in_block d o 4.
Proof. intros. unfold in_block. rewrite (po_len d Hok). page_arith. Qed.

Lemma cap_bound : 0 < record_capacity d <= 4092 /\ 0 <= first_record_offset d - page_fix_size /\
  page_bitmap_size (record_capacity d) < 4072.
Proof.
  destruct Hok as [H1 H2 H3 H4 H5 H6]. pose proof H3 as Hc.
  assert (0 <= page_bitmap_size (record_capacity d)).
  { unfold page_bitmap_size. destruct (index_quot (record_capacity d)) as [-> _]; [lia|].
    pose proof (Z.div_pos (record_capacity d) 8). case_match; lia. }
  change BP_PAGE_DATA_SIZE with 4092 in *. split_and!; unfold page_fix_size in *; nia.
Qed.

(** The bits of the slots lie before the records. *)
Lemma slot_byte slot :
  0 <= slot < record_capacity d ->
  20 <= (8 * page_fix_size + slot) / 8 < first_record_offset d /\
  (8 * page_fix_size + slot) / 8 < alen d /\ slot_in_page d slot = true.
Proof.
  intros Hs. destruct Hok as [H1 H2 H3 H4 H5 H6]. rewrite div_add_mul8.
  assert (slot / 8 < page_bitmap_size (record_capacity d)).
  { unfold page_bitmap_size. destruct (index_quot (record_capacity d)) as [-> ->]; [lia|].
    pose proof (Z.div_mod (record_capacity d) 8 ltac:(lia)).
    pose proof (Z.mod_pos_bound (record_capacity d) 8 ltac:(lia)).
    pose proof (Z.div_mod slot 8 ltac:(lia)). pose proof (Z.mod_pos_bound slot 8 ltac:(lia)).
    case_match; lia. }
  assert (0 <= slot / 8) by (apply Z.div_pos; lia).
  assert (first_record_offset d <= 4092) by (change BP_PAGE_DATA_SIZE with 4092 in *; nia).
  split_and!; [page_arith|page_arith|page_arith|].
  unfold slot_in_page, bitmap_mem. rewrite alen_drop by (rewrite H1; page_arith).
  destruct (Z.leb_spec 0 slot), (Z.ltb_spec (slot / 8) (alen d - page_fix_size)); try done; page_arith.
Qed.

Lemma slot_range slot :
  0 <= slot < record_capacity d ->
  first_record_offset d <= record_offset d slot /\
  record_offset d slot + record_size d <= BP_PAGE_DATA_SIZE /\ record_in_page d slot = true.
Proof.
  intros Hs. destruct Hok as [H1 H2 H3 H4 H5 H6]. unfold record_offset.
  pose proof cap_bound as (_ & Hf & _).
  assert (0 <= slot * record_size d /\ slot * record_size d + record_size d <= record_capacity d * record_size d)
    by nia.
  split_and!; [lia|lia|]. unfold record_in_page, record_offset. rewrite H1.
  rewrite !andb_true_iff, !Z.leb_le. page_arith.
Qed.

Lemma record_block slot :
  0 <= slot < record_capacity d -> in_block d (record_offset d slot) (record_real_size d).
Proof.
  intros Hs. destruct (slot_range slot Hs) as (? & ? & _). pose proof cap_bound as (_ & ? & _).
  destruct (po_real d Hok). unfold in_block. rewrite (po_len d Hok). page_arith.
Qed.

Lemma bitmap_bit slot : 0 <= slot -> bit (bitmap_mem d) slot = slot_bit d slot.
Proof.
  intros Hs. unfold slot_bit, bit, bitmap_mem. rewrite div_add_mul8, mod_add_mul8.
  by rewrite aget_drop by (try apply Z.div_pos; unfold page_fix_size; lia).
Qed.

Lemma bitmap_long : bitmap_end (record_capacity d) < alen (bitmap_mem d).
Proof.
  unfold bitmap_mem. rewrite alen_drop by (rewrite (po_len d Hok); page_arith). rewrite (po_len d Hok).
  pose proof cap_bound as (_ & _ & Hb). unfold bitmap_end, page_bitmap_size in *. case_match; page_arith.
Qed.

Lemma bitmap_bytes : bytes_ok (bitmap_mem d).
Proof. apply Forall_drop, Hok. Qed.

Lemma upd_bitmap_aset k b : 0 <= k -> upd_bitmap (fun m => aset m k b) d = aset d (page_fix_size + k) b.
Proof.
  intros Hk. unfold upd_bitmap, bitmap_mem, aset.
  destruct (Z.ltb_spec k 0), (Z.ltb_spec (page_fix_size + k) 0); try page_arith.
  replace (Z.to_nat (page_fix_size + k)) with (Z.to_nat page_fix_size + Z.to_nat k)%nat by page_arith.
  assert (Hl : length (take (Z.to_nat page_fix_size) d) = Z.to_nat page_fix_size).
  { pose proof (po_len d Hok) as Hlen. unfold alen in Hlen. rewrite length_take. page_arith. }
  rewrite <- (insert_app_r (take (Z.to_nat page_fix_size) d)).
  by rewrite Hl, take_drop.
Qed.

(** The bitmap operations in terms of the page. *)
Lemma upd_bitmap_set slot :
  0 <= slot -> upd_bitmap (fun m => set_bit m slot) d = set_bit d (8 * page_fix_size + slot).
Proof.
  intros Hs. unfold set_bit. destruct (index_quot slot Hs) as [-> ->].
  destruct (index_quot (8 * page_fix_size + slot)) as [-> ->]; [page_arith|].
  pose proof (Z.div_pos slot 8 ltac:(lia) ltac:(lia)).
  rewrite div_add_mul8, mod_add_mul8. rewrite <- upd_bitmap_aset by done.
  unfold upd_bitmap, bitmap_mem. by rewrite aget_drop by (unfold page_fix_size; lia).
Qed.

Lemma upd_bitmap_clear slot :
  0 <= slot -> upd_bitmap (fun m => clear_bit m slot) d = clear_bit d (8 * page_fix_size + slot).
Proof.
  intros Hs. unfold clear_bit. destruct (index_quot slot Hs) as [-> ->].
  destruct (index_quot (8 * page_fix_size + slot)) as [-> ->]; [page_arith|].
  pose proof (Z.div_pos slot 8 ltac:(lia) ltac:(lia)).
  rewrite div_add_mul8, mod_add_mul8. rewrite <- upd_bitmap_aset by done.
  unfold upd_bitmap, bitmap_mem. by rewrite aget_drop by (unfold page_fix_size; lia).
Qed.
End page.

(** ** How the primitive writes act on the records *)

Section frame.
Variables (d : list Z).
Hypothesis (Hok : layout_ok d).

Lemma same_layout_aset i b : 20 <= i -> same_layout d (aset d i b).
Proof.
  intros Hi. constructor; [apply alen_aset|..];
    apply rd32_aset_other; try (apply in_header; [done|lia]); lia.
Qed.

(** A write behind the header and before the records. *)
Lemma record_bytes_aset i b slot :
  20 <= i < first_record_offset d -> 0 <= slot < record_capacity d ->
  record_bytes (aset d i b) slot = record_bytes d slot.
Proof.
  intros Hi Hs. pose proof (same_layout_aset i b ltac:(lia)) as Hl. unfold record_bytes.
  rewrite (same_layout_offset _ _ _ Hl), (sl_real _ _ Hl).
  destruct (slot_range d Hok slot Hs) as (? & ? & _).
  apply load_aset_other; [by apply record_block|lia].
Qed.

Lemma wr_num_layout v : same_layout d (wr32 d 0 v).
Proof.
  constructor; [apply alen_wr32, in_header; [exact Hok|lia]|..];
    unfold_fields; (rewrite rd32_wr32_other; [done|apply in_header; [exact Hok|lia]|apply in_header; [exact Hok|lia]|lia]).
Qed.

Lemma wr_num_bits v slot : 0 <= slot -> slot_bit (wr32 d 0 v) slot = slot_bit d slot.
Proof.
  intros Hs. apply bit_wr32_other; [apply in_header; [done|lia]|page_arith].
Qed.

Lemma wr_num_bytes v slot :
  0 <= slot < record_capacity d -> record_bytes (wr32 d 0 v) slot = record_bytes d slot.
Proof.
  intros Hs. pose proof (wr_num_layout v) as Hl. unfold record_bytes.
  rewrite (same_layout_offset _ _ _ Hl), (sl_real _ _ Hl).
  destruct (slot_range d Hok slot Hs) as (? & ? & _). pose proof (cap_bound d Hok) as (_ & ? & _).
  apply load_put_other; [rewrite alen_le32; apply in_header; [done|lia]|by apply record_block|].
  rewrite alen_le32. page_arith.
Qed.

Lemma used_slots_elem slot :
  slot ∈ used_slots d <-> 0 <= slot < record_capacity d /\ slot_bit d slot = true.
Proof. unfold used_slots. rewrite list_elem_of_filter, elem_of_seqZ. split; intros; split; tauto || lia. Qed.

Lemma used_slots_le : alen (used_slots d) <= record_capacity d.
Proof.
  unfold used_slots, alen. pose proof (length_filter (fun i => slot_bit d i = true) (seqZ 0 (record_capacity d))).
  rewrite length_seqZ in *. pose proof (po_cap d Hok). lia.
Qed.

Lemma records_None slot : 0 <= slot < record_capacity d -> records d slot = None <-> slot_bit d slot = false.
Proof.
  intros Hs. unfold records. destruct (Z.leb_spec 0 slot), (Z.ltb_spec slot (record_capacity d)); try lia.
  simpl. by destruct (slot_bit d slot).
Qed.

Lemma records_Some slot r :
  records d slot = Some r <-> 0 <= slot < record_capacity d /\ slot_bit d slot = true /\ r = record_bytes d slot.
Proof.
  unfold records. destruct (Z.leb_spec 0 slot), (Z.ltb_spec slot (record_capacity d)); simpl;
    try (split; [done|lia]). destruct (slot_bit d slot); [|naive_solver]. naive_solver lia.
Qed.

(** With a slot free, the count is below the capacity, and conversely. *)
Lemma full_iff :
  record_num d = alen (used_slots d) -> record_num d = record_capacity d <-> (forall j, 0 <= j < record_capacity d -> slot_bit d j = true).
Proof.
  intros ->. split.
  - intros Heq j Hj. destruct (slot_bit d j) eqn:Eb; [done|]. exfalso.
    assert (Hc : alen (filter (fun i => slot_bit d i = true \/ i = j) (seqZ 0 (record_capacity d))) =
      alen (used_slots d) + 1).
    { apply (filter_count_add _ _ _ j); [apply NoDup_seqZ|apply elem_of_seqZ; lia|by rewrite Eb|by right|].
      naive_solver. }
    pose proof (length_filter (fun i => slot_bit d i = true \/ i = j) (seqZ 0 (record_capacity d))).
    rewrite length_seqZ in *. unfold used_slots, alen in *. lia.
  - intros Hall. unfold used_slots. rewrite filter_id; [unfold alen; rewrite length_seqZ; pose proof (po_cap d Hok); lia|].
    apply Forall_forall. intros j Hj%elem_of_seqZ. apply Hall. lia.
Qed.
End frame.

(** The page after the bit of [slot] became [v], the count [n] and the record, if [v], [data]. *)
Record changed (d d' : list Z) (slot : Z) (r : option (list Z)) : Prop := {
  ch_ok : page_ok d';
  ch_layout : same_layout d d';
  ch_records : forall j, records d' j = if j =? slot then r else records d j }.

Section change.
Variables (d : list Z).
Hypothesis (Hok : layout_ok d).

(** How the change of one bit changes the count. *)
Lemma used_slots_set d' slot :
  same_layout d d' -> 0 <= slot < record_capacity d -> slot_bit d slot = false ->
  (forall j, 0 <= j < record_capacity d -> slot_bit d' j = if j =? slot then true else slot_bit d j) ->
  alen (used_slots d') = alen (used_slots d) + 1.
Proof.
  intros Hl Hs Hb Hbits. unfold used_slots. rewrite (sl_cap _ _ Hl).
  apply (filter_count_add _ _ _ slot); [apply NoDup_seqZ|apply elem_of_seqZ; lia|by rewrite Hb| |].
  - rewrite Hbits, Z.eqb_refl by lia. done.
  - intros j Hj%elem_of_seqZ Hne. rewrite Hbits by lia. by destruct (Z.eqb_spec j slot).
Qed.

Lemma used_slots_clear d' slot :
  same_layout d d' -> 0 <= slot < record_capacity d -> slot_bit d slot = true ->
  (forall j, 0 <= j < record_capacity d -> slot_bit d' j = if j =? slot then false else slot_bit d j) ->
  alen (used_slots d) = alen (used_slots d') + 1.
Proof.
  intros Hl Hs Hb Hbits. unfold used_slots. rewrite (sl_cap _ _ Hl).
  apply (filter_count_add _ _ _ slot); [apply NoDup_seqZ|apply elem_of_seqZ; lia| |by rewrite Hb|].
  - rewrite Hbits, Z.eqb_refl by lia. done.
  - intros j Hj%elem_of_seqZ Hne. rewrite Hbits by lia. by destruct (Z.eqb_spec j slot).
Qed.

(** A page with the same layout, the right count and the records of [d] but at [slot]. *)
Lemma changed_intro d' slot r :
  same_layout d d' -> bytes_ok d' -> record_num d' = alen (used_slots d') ->
  0 <= slot < record_capacity d -> (is_Some r <-> slot_bit d' slot = true) ->
  (forall x, r = Some x -> record_bytes d' slot = x) ->
  (forall j, 0 <= j < record_capacity d -> j <> slot ->
     slot_bit d' j = slot_bit d j /\ record_bytes d' j = record_bytes d j) ->
  changed d d' slot r.
Proof.
  intros Hl Hbytes Hnum Hs Hr Hx Hother. constructor; [|done|].
  - constructor; [by eapply same_layout_ok|done].
  - intros j. unfold records. rewrite (sl_cap _ _ Hl). destruct (Z.eqb_spec j slot) as [->|Hne].
    + destruct (Z.leb_spec 0 slot), (Z.ltb_spec slot (record_capacity d)); try lia. simpl.
      destruct r as [x|].
      * assert (slot_bit d' slot = true) as -> by (apply Hr; by eexists). by rewrite (Hx x).
      * destruct (slot_bit d' slot) eqn:E; [|done]. exfalso.
        by destruct (proj2 Hr eq_refl).
    + destruct (Z.leb_spec 0 j), (Z.ltb_spec j (record_capacity d)); try done. simpl.
      by destruct (Hother j ltac:(lia) Hne) as [-> ->].
Qed.
End change.

(** ** The operations *)

Section operations.
Variables (d : list Z).
Hypothesis (Hok : page_ok d).
Let Hlay : layout_ok d := po_layout d Hok.

(** The state in which [write_record] runs inside [insert_slot]. *)
Definition marked slot : list Z := wr32 (set_bit d (8 * page_fix_size + slot)) 0 (int32 (record_num d + 1)).

Lemma set_bit_layout slot : 0 <= slot < record_capacity d ->
  layout_ok (set_bit d (8 * page_fix_size + slot)) /\ same_layout d (set_bit d (8 * page_fix_size + slot)) /\
  record_num (set_bit d (8 * page_fix_size + slot)) = record_num d.
Proof.
  intros Hs. destruct (slot_byte d Hlay slot Hs) as (Hb & Hlen & _).
  assert (Hl : same_layout d (set_bit d (8 * page_fix_size + slot))).
  { unfold set_bit. destruct (index_quot (8 * page_fix_size + slot)) as [-> _]; [page_arith|].
    apply same_layout_aset; [done|lia]. }
  split_and!; [|done|].
  - eapply same_layout_ok; [done|done|]. apply bytes_ok_set_bit, Hlay.
  - unfold set_bit. destruct (index_quot (8 * page_fix_size + slot)) as [-> _]; [page_arith|].
    unfold record_num. rewrite rd32_aset_other; [done|apply in_header; [done|lia]|lia].
Qed.

Lemma marked_spec slot :
  0 <= slot < record_capacity d -> slot_bit d slot = false ->
  layout_ok (marked slot) /\ same_layout d (marked slot) /\
  record_num (marked slot) = record_num d + 1 /\
  (forall j, 0 <= j < record_capacity d -> slot_bit (marked slot) j = if j =? slot then true else slot_bit d j) /\
  (forall j, 0 <= j < record_capacity d -> record_bytes (marked slot) j = record_bytes d j).
Proof.
  intros Hs Hb. destruct (set_bit_layout slot Hs) as (Hl1 & Hs1 & Hn1).
  set (d1 := set_bit d (8 * page_fix_size + slot)) in *.
  destruct (slot_byte d Hlay slot Hs) as (Hbyte & Hlen & _).
  pose proof (wr_num_layout d1 Hl1 (int32 (record_num d + 1))) as Hs2.
  pose proof (used_slots_le d Hlay) as Hle. rewrite <- (po_num d Hok) in Hle.
  pose proof (cap_bound d Hlay) as ([_ Hcap] & _ & _).
  assert (0 <= record_num d) by (rewrite (po_num d Hok); apply alen_nonneg).
  split_and!.
  - eapply same_layout_ok; [exact Hl1|exact Hs2|]. apply bytes_ok_put; [apply Hl1|apply le32_bytes].
  - by etrans.
  - unfold marked, record_num at 1. rewrite rd32_wr32_same by (apply int32_range || (apply in_header; [done|lia])).
    apply int32_id. unfold is_int32. lia.
  - intros j Hj. unfold marked. fold d1. rewrite wr_num_bits by (done || lia). unfold slot_bit, d1.
    rewrite bit_set_bit by page_arith. destruct (Z.eqb_spec j slot), (Z.eqb_spec (8 * page_fix_size + j) (8 * page_fix_size + slot)); try done; lia.
  - intros j Hj. unfold marked. fold d1. rewrite wr_num_bytes by (try done; rewrite (sl_cap _ _ Hs1); lia).
    unfold d1, set_bit. destruct (index_quot (8 * page_fix_size + slot)) as [-> _]; [page_arith|].
    apply record_bytes_aset; [done|lia|done].
Qed.
End operations.

(** [write_record] on any page with a sound layout. *)
Lemma write_record_ok d slot data :
  layout_ok d -> 0 <= slot < record_capacity d -> record_real_size d <= alen data -> bytes_ok data ->
  exists d', write_record slot data d = (Ok tt, d') /\ layout_ok d' /\ same_layout d d' /\
    record_num d' = record_num d /\
    record_bytes d' slot = take (Z.to_nat (record_real_size d)) data /\
    forall j, 0 <= j < record_capacity d ->
      slot_bit d' j = slot_bit d j /\ (j <> slot -> record_bytes d' j = record_bytes d j).
Proof.
  intros Hok Hs Hlen Hbytes. destruct (slot_range d Hok slot Hs) as (Ho1 & Ho2 & Hin).
  destruct (po_real d Hok) as [Hr1 Hr2]. pose proof (cap_bound d Hok) as (_ & Hoff & _).
  set (bs := take (Z.to_nat (record_real_size d)) data).
  assert (Hbs : alen bs = record_real_size d) by (apply alen_take; lia).
  pose proof (record_block d Hok slot Hs) as Hblk. rewrite <- Hbs in Hblk.
  set (d' := put d (record_offset d slot) bs).
  assert (Hl : same_layout d d').
  { unfold d'. constructor; [by apply alen_put|..];
      unfold_fields; (rewrite rd32_put_other; [done|exact Hblk|apply in_header; [exact Hok|lia]|page_arith]). }
  exists d'. split_and!.
  - unfold write_record. rewrite Hin. simpl. destruct (Z.ltb_spec (alen data) (record_real_size d)); [lia|].
    simpl. rewrite bind_ret. done.
  - eapply same_layout_ok; [done|done|]. apply bytes_ok_put; [apply Hok|by apply Forall_take].
  - done.
  - unfold record_num, d'. rewrite rd32_put_other; [done|done|apply in_header; [done|lia]|page_arith].
  - unfold record_bytes. rewrite (same_layout_offset _ _ _ Hl), (sl_real _ _ Hl), <- Hbs. by apply load_put_same.
  - intros j Hj. split.
    + destruct (slot_byte d Hok j Hj) as (? & ? & _).
      assert (8 * page_fix_size + j < 8 * first_record_offset d).
      { pose proof (Z.div_mod (8 * page_fix_size + j) 8 ltac:(lia)).
        pose proof (Z.mod_pos_bound (8 * page_fix_size + j) 8 ltac:(lia)). lia. }
      apply bit_put_other; [done|page_arith|lia].
    + intros Hne. unfold record_bytes. rewrite (same_layout_offset _ _ _ Hl), (sl_real _ _ Hl).
      apply load_put_other; [done|by apply record_block|]. rewrite Hbs. unfold record_offset. nia.
Qed.
