(* ===== verification/RecordPageContract.v ===== *)
(** * Contracts of the record-page operations

    Insert, update, delete, get and the scan of one page, as operations on the map from
    slots to records; and the empty page. *)
From S2P Require Import Prelude ReturnCode Effects Bitmap Memory OsFile RecordPage.
From S2P Require Import RecordPageTheorems.

Lemma check_slot_ok d slot rc :
  page_ok d -> 0 <= slot ->
  check_slot slot rc d =
    (if record_capacity d <=? slot then Err rc
     else if slot_bit d slot then Ok tt else Err RECORD_RECORD_NOT_EXIST, d).
Proof.
  intros Hok Hs. pose proof (po_layout d Hok) as Hl. unfold check_slot. rewrite bind_get, bind_fail_if.
  destruct (Z.leb_spec (record_capacity d) slot); [done|].
  destruct (slot_byte d Hl slot ltac:(lia)) as (_ & _ & ->). simpl.
  unfold fail_if. rewrite get_bit_bit, bitmap_bit by done. by destruct (slot_bit d slot).
Qed.

(** The slot that [next_unsetted_bit] finds in a page with a free slot. *)
Lemma free_slot d :
  page_ok d -> record_num d <> record_capacity d ->
  exists slot, next_unsetted_bit (bitmap_mem d) (record_capacity d) 0 = Some slot /\
    0 <= slot < record_capacity d /\ slot_bit d slot = false /\
    forall j, 0 <= j < slot -> slot_bit d j = true.
Proof.
  intros Hok Hne. pose proof (po_layout d Hok) as Hl. pose proof (po_cap d Hl).
  destruct (next_unsetted_bit_first (bitmap_mem d) (record_capacity d) 0) as (r & Hr & Hf);
    [by apply bitmap_bytes|lia|lia|by apply bitmap_long|by left|].
  exists r. split; [done|]. destruct Hf as [[-> Hall]|(Hrange & Hb & Hbefore)].
  - exfalso. apply Hne, full_iff; [done|apply Hok|]. intros j Hj.
    rewrite <- bitmap_bit by lia. by apply Hall.
  - rewrite bitmap_bit in Hb by lia. split_and!; [lia|lia|done|]. intros j Hj.
    rewrite <- bitmap_bit by lia. by apply Hbefore.
Qed.

Lemma insert_slot_spec d data :
  page_ok d -> record_real_size d <= alen data -> bytes_ok data ->
  (record_num d = record_capacity d -> insert_slot data d = (Err RECORD_NOMEM, d)) /\
  (record_num d <> record_capacity d ->
   exists slot d', insert_slot data d = (Ok slot, d') /\
     0 <= slot < record_capacity d /\ records d slot = None /\
     (forall j, 0 <= j < slot -> records d j <> None) /\ record_num d' = record_num d + 1 /\
     changed d d' slot (Some (take (Z.to_nat (record_real_size d)) data))).
Proof.
  intros Hok Hlen Hbytes. pose proof (po_layout d Hok) as Hl. unfold insert_slot. rewrite bind_get. split.
  - intros Heq. by rewrite bind_fail_if, Heq, Z.eqb_refl.
  - intros Hne. rewrite bind_fail_if. destruct (Z.eqb_spec (record_num d) (record_capacity d)); [done|].
    destruct (free_slot d Hok Hne) as (slot & -> & Hs & Hb & Hbefore).
    destruct (slot_byte d Hl slot Hs) as (_ & _ & Hin). rewrite bind_undefined_if, Hin. simpl.
    rewrite !bind_modify, upd_bitmap_set by (done || lia).
    destruct (set_bit_layout d Hok slot Hs) as (_ & _ & ->). fold (marked d slot).
    destruct (marked_spec d Hok slot Hs Hb) as (Hl2 & Hs2 & Hn2 & Hb2 & Hr2).
    destruct (write_record_ok (marked d slot) slot data Hl2) as (d' & Hrun & Hl3 & Hs3 & Hn3 & Hd3 & Ho3);
      [by rewrite (sl_cap _ _ Hs2)|by rewrite (sl_real _ _ Hs2)|done|].
    rewrite (bind_run _ _ _ _ _ Hrun). exists slot, d'. rewrite (sl_cap _ _ Hs2), (sl_real _ _ Hs2) in *.
    assert (Hbits : forall j, 0 <= j < record_capacity d -> slot_bit d' j = if j =? slot then true else slot_bit d j).
    { intros j Hj. destruct (Ho3 j Hj) as [-> _]. by apply Hb2. }
    assert (Hs' : same_layout d d') by (by etrans).
    split_and!; try done; try lia; [by apply records_None| |].
    + intros j Hj Hnone. apply records_None in Hnone; [|lia]. by rewrite Hbefore in Hnone.
    + apply changed_intro; [done|done|apply Hl3| |done| | |].
      * rewrite Hn3, Hn2, (used_slots_set d d' slot) by done. by rewrite (po_num d Hok).
      * rewrite Hbits, Z.eqb_refl by done. split; [done|by eexists].
      * by intros x [= <-].
      * intros j Hj Hne'. rewrite Hbits by done. destruct (Z.eqb_spec j slot); [done|]. split; [done|].
        destruct (Ho3 j Hj) as [_ Hr3]. rewrite Hr3, Hr2 by done. done.
Qed.

(** Inserting into a page that is not full takes the first free slot, stores the record
    there and changes no other slot; a full page is refused and stays as it is. *)
Theorem insert_slot_ok d data :
  page_ok d -> record_real_size d <= alen data -> bytes_ok data ->
  (record_num d = record_capacity d -> insert_slot data d = (Err RECORD_NOMEM, d)) /\
  (record_num d <> record_capacity d ->
   exists slot d', insert_slot data d = (Ok slot, d') /\
     0 <= slot < record_capacity d /\ records d slot = None /\
     (forall j, 0 <= j < slot -> records d j <> None) /\ record_num d' = record_num d + 1 /\
     changed d d' slot (Some (take (Z.to_nat (record_real_size d)) data))).
Proof. apply insert_slot_spec. Qed.

(** Updating a slot: an out-of-range slot and an empty slot are refused without a change;
    a used slot gets the new record and the other slots keep theirs. *)
Theorem update_slot_ok d slot data :
  page_ok d -> 0 <= slot -> record_real_size d <= alen data -> bytes_ok data ->
  (record_capacity d <= slot -> update_slot slot data d = (Err INVALID_ARGUMENT, d)) /\
  (slot < record_capacity d -> records d slot = None ->
     update_slot slot data d = (Err RECORD_RECORD_NOT_EXIST, d)) /\
  (records d slot <> None ->
   exists d', update_slot slot data d = (Ok tt, d') /\ record_num d' = record_num d /\
     changed d d' slot (Some (take (Z.to_nat (record_real_size d)) data))).
Proof.
  intros Hok Hs Hlen Hbytes. pose proof (po_layout d Hok) as Hl. unfold update_slot, bind.
  rewrite check_slot_ok by done. split_and!.
  - intros. destruct (Z.leb_spec (record_capacity d) slot); [done|lia].
  - intros Hlt Hn%records_None; [|lia]. destruct (Z.leb_spec (record_capacity d) slot); [lia|]. by rewrite Hn.
  - intros Hn. destruct (records d slot) as [x|] eqn:E; [|done]. apply records_Some in E as (Hr & Hb & _).
    destruct (Z.leb_spec (record_capacity d) slot); [lia|]. rewrite Hb.
    destruct (write_record_ok d slot data Hl Hr Hlen Hbytes) as (d' & Hrun & Hl3 & Hs3 & Hn3 & Hd3 & Ho3).
    exists d'. split_and!; [done|done|]. apply changed_intro; [done|done|apply Hl3| |done| | |].
    + rewrite Hn3, (po_num d Hok). unfold used_slots. rewrite (sl_cap _ _ Hs3). f_equal.
      apply filter_ext. intros j Hj%elem_of_seqZ. destruct (Ho3 j ltac:(lia)) as [-> _]. done.
    + destruct (Ho3 slot Hr) as [-> _]. rewrite Hb. split; [done|by eexists].
    + by intros y [= <-].
    + intros j Hj Hne. destruct (Ho3 j Hj) as [-> H2]. by rewrite H2.
Qed.

(** Deleting a used slot empties it, decrements the count and leaves the other slots;
    the refusals are those of update. *)
Theorem delete_slot_ok d slot :
  page_ok d -> 0 <= slot ->
  (record_capacity d <= slot -> delete_slot slot d = (Err INVALID_ARGUMENT, d)) /\
  (slot < record_capacity d -> records d slot = None ->
     delete_slot slot d = (Err RECORD_RECORD_NOT_EXIST, d)) /\
  (records d slot <> None ->
   exists d', delete_slot slot d = (Ok tt, d') /\ record_num d' = record_num d - 1 /\
     changed d d' slot None).
Proof.
  intros Hok Hs. pose proof (po_layout d Hok) as Hl. unfold delete_slot. unfold bind at 1 3 5.
  rewrite check_slot_ok by done. split_and!.
  - intros. destruct (Z.leb_spec (record_capacity d) slot); [done|lia].
  - intros Hlt Hn%records_None; [|lia]. destruct (Z.leb_spec (record_capacity d) slot); [lia|]. by rewrite Hn.
  - intros Hn. destruct (records d slot) as [x|] eqn:E; [|done]. apply records_Some in E as (Hr & Hb & _).
    destruct (Z.leb_spec (record_capacity d) slot); [lia|]. rewrite Hb.
    rewrite bind_modify, upd_bitmap_clear by (done || lia). set (d1 := clear_bit d (8 * page_fix_size + slot)).
    destruct (slot_byte d Hl slot Hr) as (Hbyte & Hlen & _).
    assert (Hd1 : exists b, d1 = aset d ((8 * page_fix_size + slot) / 8) b).
    { unfold d1, clear_bit. destruct (index_quot (8 * page_fix_size + slot)) as [-> _]; [page_arith|by eexists]. }
    assert (Hs1 : same_layout d d1).
    { destruct Hd1 as [b ->]. apply same_layout_aset; [done|lia]. }
    assert (Hn1 : record_num d1 = record_num d).
    { destruct Hd1 as [b ->]. unfold record_num. rewrite rd32_aset_other; [done|apply in_header; [done|lia]|lia]. }
    assert (Hl1 : layout_ok d1) by (eapply same_layout_ok; [done|done|apply bytes_ok_clear_bit, Hl]).
    unfold modify. eexists. split; [done|]. set (d2 := wr32 d1 0 _).
    pose proof (wr_num_layout d1 Hl1 (int32 (record_num d1 - 1))) as Hs2. fold d2 in Hs2.
    assert (Hs02 : same_layout d d2) by (by etrans).
    assert (Hbits : forall j, 0 <= j < record_capacity d -> slot_bit d2 j = if j =? slot then false else slot_bit d j).
    { intros j Hj. unfold d2. rewrite wr_num_bits by (done || lia). unfold slot_bit, d1.
      rewrite bit_clear_bit by page_arith.
      destruct (Z.eqb_spec j slot), (Z.eqb_spec (8 * page_fix_size + j) (8 * page_fix_size + slot)); try done; lia. }
    assert (Hcount : record_num d2 = record_num d - 1).
    { unfold d2, record_num at 1. rewrite rd32_wr32_same by (apply int32_range || (apply in_header; [done|lia])).
      rewrite Hn1. apply int32_id. pose proof (used_slots_le d Hl) as Hle. rewrite <- (po_num d Hok) in Hle.
      pose proof (cap_bound d Hl) as ([_ Hcap] & _ & _). pose proof (alen_nonneg (used_slots d)).
      rewrite (po_num d Hok). rewrite (po_num d Hok) in Hle. unfold is_int32. lia. }
    split; [done|]. apply changed_intro; try done.
    + apply bytes_ok_put; [apply Hl1|apply le32_bytes].
    + rewrite Hcount, (po_num d Hok). pose proof (used_slots_clear d d2 slot Hs02 Hr Hb Hbits). lia.
    + rewrite Hbits, Z.eqb_refl by done. split; [by intros [? ?]|done].
    + intros j Hj Hne. rewrite Hbits by done. destruct (Z.eqb_spec j slot); [done|]. split; [done|].
      unfold d2. rewrite wr_num_bytes by (try done; rewrite (sl_cap _ _ Hs1); lia).
      destruct Hd1 as [b ->]. by apply record_bytes_aset.
Qed.

(** Getting a slot: the offset returned is that of the record, when there is one. *)
Theorem get_slot_ok d slot :
  page_ok d -> 0 <= slot ->
  get_slot slot d =
    (if record_capacity d <=? slot then Err RECORD_INVALIDRID
     else match records d slot with
          | Some _ => Ok (record_offset d slot)
          | None => Err RECORD_RECORD_NOT_EXIST
          end, d) /\
  (forall r, records d slot = Some r -> r = load d (record_offset d slot) (record_real_size d)).
Proof.
  intros Hok Hs. split.
  - unfold get_slot, bind. rewrite check_slot_ok by done. unfold records.
    destruct (Z.leb_spec (record_capacity d) slot), (Z.ltb_spec slot (record_capacity d)), (Z.leb_spec 0 slot);
      try lia; [done|]. simpl. by destruct (slot_bit d slot).
  - intros r. rewrite records_Some. naive_solver.
Qed.

(** The scan of a page: from -1 or from a used slot, [get_next_record] moves to the next
    used slot, and reports [RECORD_EOF] exactly when no slot after it is used. *)
Theorem next_slot_ok d slot :
  page_ok d -> slot = -1 \/ records d slot <> None ->
  match next_slot slot d with
  | (Ok (index, offset), d') =>
      d' = d /\ slot < index < record_capacity d /\ records d index <> None /\
      offset = record_offset d index /\ forall j, slot < j < index -> records d j = None
  | (Err rc, d') => d' = d /\ rc = RECORD_EOF /\ forall j, slot < j -> records d j = None
  | _ => False
  end.
Proof.
  intros Hok Hslot. pose proof (po_layout d Hok) as Hl. pose proof (po_cap d Hl) as Hcap.
  assert (Hs : slot = -1 \/ 0 <= slot < record_capacity d /\ slot_bit d slot = true).
  { destruct Hslot as [->|Hn]; [by left|right]. destruct (records d slot) as [x|] eqn:E; [|done].
    by apply records_Some in E as (? & ? & _). }
  unfold next_slot. rewrite bind_get, bind_fail_if.
  assert (Hout : forall j, record_capacity d <= j -> records d j = None).
  { intros j Hj. unfold records. destruct (Z.ltb_spec j (record_capacity d)); [lia|]. by rewrite andb_false_r. }
  destruct (Z.leb_spec (record_capacity d - 1) slot).
  { split_and!; [done|done|]. intros j Hj. apply Hout. lia. }
  rewrite bind_undefined_if. destruct (Z.ltb_spec (slot + 1) 0); [lia|].
  assert (exists r, next_setted_bit (bitmap_mem d) (record_capacity d) (slot + 1) = Some r /\
    first_bit true (bitmap_mem d) (record_capacity d) (slot + 1) r) as (r & -> & Hr).
  { destruct Hs as [->|[Hs Hb]].
    - apply next_setted_bit_first; [by apply bitmap_bytes|lia|lia|by apply bitmap_long|by left].
    - apply next_setted_after; [by apply bitmap_bytes|lia|lia|by apply bitmap_long|].
      by rewrite bitmap_bit by lia. }
  rewrite bind_fail_if. destruct Hr as [[-> Hall]|(Hrange & Hb & Hbefore)]; simpl.
  - split_and!; [done|done|]. intros j Hj. destruct (decide (record_capacity d <= j)); [by apply Hout|].
    apply records_None; [lia|]. rewrite <- bitmap_bit by lia. apply Hall. lia.
  - destruct (Z.ltb_spec r 0); [lia|]. simpl. rewrite bitmap_bit in Hb by lia.
    split_and!; try done; try lia.
    + intros Hn. apply records_None in Hn; [|lia]. congruence.
    + intros j Hj. apply records_None; [lia|]. rewrite <- bitmap_bit by lia. apply Hbefore. lia.
Qed.

(** ** The empty page *)

Lemma page_bitmap_size_nonneg cap : 0 <= cap -> 0 <= page_bitmap_size cap /\ cap <= 8 * page_bitmap_size cap.
Proof.
  intros Hc. unfold page_bitmap_size. destruct (index_quot cap Hc) as [-> ->].
  pose proof (Z.div_pos cap 8). pose proof (Z.div_mod cap 8 ltac:(lia)).
  pose proof (Z.mod_pos_bound cap 8 ltac:(lia)). case_match eqn:E; [apply Z.eqb_eq in E|]; lia.
Qed.

Lemma align8_ge size : 0 <= size -> size <= align8 size.
Proof.
  intros Hs. rewrite align8_spec by done. pose proof (Z.div_mod (size + 7) 8 ltac:(lia)).
  pose proof (Z.mod_pos_bound (size + 7) 8 ltac:(lia)). lia.
Qed.

(** The five header words of [init_empty_page]. *)
Lemma header_words d v0 v4 v8 v12 v16 :
  alen d = BP_PAGE_DATA_SIZE -> Forall is_int32 [v0; v4; v8; v12; v16] ->
  let d' := wr32 (wr32 (wr32 (wr32 (wr32 d 0 v0) 4 v4) 8 v8) 12 v12) 16 v16 in
  alen d' = BP_PAGE_DATA_SIZE /\ record_num d' = v0 /\ record_capacity d' = v4 /\
  record_real_size d' = v8 /\ record_size d' = v12 /\ first_record_offset d' = v16 /\
  record_capacity (wr32 (wr32 (wr32 (wr32 d 0 v0) 4 v4) 8 v8) 12 v12) = v4.
Proof.
  intros Hlen Hv. rewrite !Forall_cons in Hv. destruct Hv as (? & ? & ? & ? & ? & _).
  assert (Hin : forall m o, alen m = BP_PAGE_DATA_SIZE -> 0 <= o <= 16 -> in_block m o 4).
  { intros m o Hm Ho. unfold in_block. rewrite Hm. page_arith. }
  assert (Hlw : forall m o v, alen m = BP_PAGE_DATA_SIZE -> 0 <= o <= 16 -> alen (wr32 m o v) = BP_PAGE_DATA_SIZE).
  { intros. rewrite alen_wr32; [done|]. by apply Hin. }
  pose proof (Hlw d 0 v0 Hlen ltac:(lia)) as L1. set (d1 := wr32 d 0 v0) in *.
  pose proof (Hlw d1 4 v4 L1 ltac:(lia)) as L2. set (d2 := wr32 d1 4 v4) in *.
  pose proof (Hlw d2 8 v8 L2 ltac:(lia)) as L3. set (d3 := wr32 d2 8 v8) in *.
  pose proof (Hlw d3 12 v12 L3 ltac:(lia)) as L4. set (d4 := wr32 d3 12 v12) in *.
  pose proof (Hlw d4 16 v16 L4 ltac:(lia)) as L5.
  assert (Hsame : forall m o v, alen m = BP_PAGE_DATA_SIZE -> 0 <= o <= 16 -> is_int32 v -> rd32 (wr32 m o v) o = v).
  { intros. apply rd32_wr32_same; [by apply Hin|done]. }
  assert (Hother : forall m o v o', alen m = BP_PAGE_DATA_SIZE -> 0 <= o <= 16 -> 0 <= o' <= 16 ->
    o' + 4 <= o \/ o + 4 <= o' -> rd32 (wr32 m o v) o' = rd32 m o').
  { intros. apply rd32_wr32_other; [by apply Hin|by apply Hin|done]. }
  unfold record_num, record_capacity, record_real_size, record_size, first_record_offset.
  assert (E4 : rd32 d4 4 = v4).
  { unfold d4. rewrite Hother by (done || lia). unfold d3. rewrite Hother by (done || lia). by apply Hsame; [|lia|]. }
  assert (E8 : rd32 d4 8 = v8) by (unfold d4; rewrite Hother by (done || lia); by apply Hsame; [|lia|]).
  assert (E12 : rd32 d4 12 = v12) by (by apply Hsame; [|lia|]).
  assert (E0 : rd32 d4 0 = v0).
  { unfold d4. rewrite Hother by (done || lia). unfold d3. rewrite Hother by (done || lia).
    unfold d2. rewrite Hother by (done || lia). by apply Hsame; [|lia|]. }
  cbv zeta. rewrite !(Hother d4 16 v16) by (done || lia). split_and!; try done. by apply Hsame; [|lia|].
Qed.

Lemma init_empty_page_spec size d :
  9 <= size <= 4064 -> alen d = BP_PAGE_DATA_SIZE -> bytes_ok d ->
  let d' := init_empty_page size d in
  page_ok d' /\ record_num d' = 0 /\ record_real_size d' = size /\
  record_capacity d' = page_record_capacity BP_PAGE_DATA_SIZE (align8 size) /\
  forall j, records d' j = None.
Proof.
  intros Hsize Hlen Hbytes d'. pose proof (layout_fits_iff size ltac:(lia)) as Hfit.
  destruct (Z.ltb_spec 8 size); [|lia]. unfold layout_fits in Hfit.
  set (cap := page_record_capacity BP_PAGE_DATA_SIZE (align8 size)) in *.
  apply andb_true_iff in Hfit as [Hcap%Z.ltb_lt Hfit%Z.leb_le].
  pose proof (align8_ge size ltac:(lia)) as Hal. destruct (page_bitmap_size_nonneg cap ltac:(lia)) as [Hb0 Hb8].
  assert (Hhs : page_fix_size + page_bitmap_size cap <= page_header_size cap) by (apply align8_ge; page_arith).
  change BP_PAGE_DATA_SIZE with 4092 in Hfit.
  assert (Hcap2 : cap <= 4092 /\ page_header_size cap < 4092 /\ align8 size <= 4092) by (unfold page_fix_size in *; nia).
  destruct (header_words d 0 cap size (align8 size) (page_header_size cap) Hlen) as (L & W0 & W4 & W8 & W12 & W16 & W4').
  { unfold is_int32, page_fix_size in *. repeat constructor; lia. }
  set (d5 := wr32 _ 16 _) in *.
  assert (Hd' : d' = zero d5 page_fix_size (page_bitmap_size cap)).
  { unfold d', init_empty_page. fold cap. rewrite W4'. fold d5. by rewrite W4. }
  clearbody d'.
  assert (Hrep : alen (replicate (Z.to_nat (page_bitmap_size cap)) 0) = page_bitmap_size cap) by (by apply alen_replicate).
  assert (Hblk : in_block d5 page_fix_size (alen (replicate (Z.to_nat (page_bitmap_size cap)) 0))).
  { unfold in_block. rewrite Hrep, L. page_arith. }
  assert (Hlay : same_layout d5 d').
  { rewrite Hd'. unfold zero. constructor; [by apply alen_put|..]; unfold_fields;
      (rewrite rd32_put_other; [done|exact Hblk|unfold in_block; rewrite L; page_arith|page_arith]). }
  assert (Hnum : record_num d' = 0).
  { rewrite <- W0, Hd'. unfold zero, record_num. rewrite rd32_put_other; [done|exact Hblk|unfold in_block; rewrite L; page_arith|page_arith]. }
  destruct Hlay as [L1 L2 L3 L4 L5].
  assert (Hbits : forall j, 0 <= j < cap -> slot_bit d' j = false).
  { intros j Hj. unfold slot_bit, bit. rewrite Hd', div_add_mul8. unfold zero.
    pose proof (Z.div_pos j 8 ltac:(lia) ltac:(lia)). pose proof (Z.div_mod j 8 ltac:(lia)).
    pose proof (Z.mod_pos_bound j 8 ltac:(lia)).
    rewrite aget_put by (done || page_arith). rewrite Hrep.
    destruct (Z.leb_spec page_fix_size (page_fix_size + j / 8)),
      (Z.ltb_spec (page_fix_size + j / 8) (page_fix_size + page_bitmap_size cap)); try lia. simpl.
    rewrite aget_replicate by lia. apply Z.bits_0. }
  assert (Hused : used_slots d' = []).
  { unfold used_slots. rewrite L2, W4. rewrite (filter_ext _ (fun _ => False)).
    - induction (seqZ 0 cap) as [|x l IH]; [done|]. rewrite filter_cons_False; [exact IH|tauto].
    - intros j Hj%elem_of_seqZ. rewrite Hbits by lia. done. }
  split_and!; [|done|congruence|congruence|].
  - constructor; [|by rewrite Hused].
    constructor; rewrite ?L1, ?L2, ?L3, ?L4, ?L5, ?W4, ?W8, ?W12, ?W16; try done || lia.
    rewrite Hd'. unfold zero, d5. repeat (apply bytes_ok_put; [|first [apply le32_bytes|apply Forall_replicate; unfold is_byte; lia]]).
    done.
  - intros j. unfold records. rewrite L2, W4.
    destruct (Z.leb_spec 0 j), (Z.ltb_spec j cap); try done. simpl. by rewrite Hbits.
Qed.

(** A page initialised for records of [size] bytes, 9 to 4064, is well formed, whatever
    it held before; it has no records and the capacity of the layout. *)
Theorem init_empty_page_ok size d :
  9 <= size <= 4064 -> alen d = BP_PAGE_DATA_SIZE -> bytes_ok d ->
  let d' := init_empty_page size d in
  page_ok d' /\ record_num d' = 0 /\ record_real_size d' = size /\
  record_capacity d' = page_record_capacity BP_PAGE_DATA_SIZE (align8 size) /\
  forall j, records d' j = None.
Proof. apply init_empty_page_spec. Qed.

(** ** Witnesses: a page for records of 12 bytes, empty and with one record *)

Definition demo_page : list Z := init_empty_page 12 (p_data zero_page).
Definition demo_record : list Z := replicate 12 7.
Definition demo_used : list Z := (insert_slot demo_record demo_page).2.

Lemma zero_data_ok : alen (p_data zero_page) = BP_PAGE_DATA_SIZE /\ bytes_ok (p_data zero_page).
Proof.
  split; [vm_compute; reflexivity|]. apply Forall_replicate. unfold is_byte. lia.
Qed.

Lemma demo_page_ok : page_ok demo_page.
Proof. destruct zero_data_ok. by apply init_empty_page_spec. Qed.

Lemma demo_record_ok : bytes_ok demo_record.
Proof. apply Forall_replicate. unfold is_byte. lia. Qed.

Lemma demo_used_ok : page_ok demo_used.
Proof.
  destruct (insert_slot_spec demo_page demo_record demo_page_ok) as [_ Hins];
    [vm_compute; discriminate|apply demo_record_ok|].
  destruct Hins as (slot & d' & Hrun & _ & _ & _ & _ & [Hok _ _]); [vm_compute; discriminate|].
  unfold demo_used. by rewrite Hrun.
Qed.

Lemma init_empty_page_ok_witness : page_ok demo_page.
Proof. destruct zero_data_ok. apply init_empty_page_ok; [lia|done|done]. Defined.

Lemma insert_slot_ok_witness :
  exists slot d', insert_slot demo_record demo_page = (Ok slot, d') /\ records d' slot = Some demo_record.
Proof.
  destruct (insert_slot_ok demo_page demo_record demo_page_ok) as [_ Hins];
    [vm_compute; discriminate|apply demo_record_ok|].
  destruct Hins as (slot & d' & Hrun & _ & _ & _ & _ & [_ _ Hrec]); [vm_compute; discriminate|].
  exists slot, d'. split; [done|]. rewrite Hrec, Z.eqb_refl. vm_compute; reflexivity.
Defined.

Lemma update_slot_ok_witness :
  exists d', update_slot 0 (replicate 12 9) demo_used = (Ok tt, d') /\ records d' 0 = Some (replicate 12 9).
Proof.
  destruct (update_slot_ok demo_used 0 (replicate 12 9) demo_used_ok) as (_ & _ & Hupd).
  - lia.
  - vm_compute; discriminate.
  - apply Forall_replicate. unfold is_byte. lia.
  - destruct Hupd as (d' & Hrun & _ & [_ _ Hrec]); [vm_compute; discriminate|].
    exists d'. split; [done|]. rewrite Hrec, Z.eqb_refl. vm_compute; reflexivity.
Defined.

Lemma delete_slot_ok_witness :
  exists d', delete_slot 0 demo_used = (Ok tt, d') /\ records d' 0 = None.
Proof.
  destruct (delete_slot_ok demo_used 0 demo_used_ok) as (_ & _ & Hdel); [lia|].
  destruct Hdel as (d' & Hrun & _ & [_ _ Hrec]); [vm_compute; discriminate|].
  exists d'. split; [done|]. by rewrite Hrec.
Defined.

Lemma get_slot_ok_witness : records demo_used 0 = Some demo_record /\ (get_slot 0 demo_used).1 = Ok 56.
Proof.
  destruct (get_slot_ok demo_used 0 demo_used_ok) as [-> _]; [lia|]. split; vm_compute; reflexivity.
Defined.

Lemma next_slot_ok_witness :
  exists index offset, next_slot (-1) demo_used = (Ok (index, offset), demo_used) /\ records demo_used index <> None.
Proof.
  pose proof (next_slot_ok demo_used (-1) demo_used_ok (or_introl eq_refl)) as H.
  assert (E : (next_slot (-1) demo_used).1 = Ok (0, 56)) by (vm_compute; reflexivity).
  destruct (next_slot (-1) demo_used) as [[[index offset]|rc| |] d']; try discriminate E.
  exists index, offset. destruct H as (-> & _ & Hr & _). split; [reflexivity|exact Hr].
Defined.
