(* ===== verification/RecordFile.v ===== *)
(** * Record files (storage/common/record_manager.h, .cpp)

    RecordPageHandler, RecordFileHandler and RecordFileScanner over the buffer pool.  The
    state [RS] is the pool and the RecordPageHandler object that a function works on
    ([record_page_handler_] of the file handler and of the scanner, or the local object
    of a function, made and destroyed by [with_local]).

    [page_header_] and [bitmap_] point into the frame of the last successful [init];
    [page_handle_.frame] is that frame too, except after an I/O error while a later page
    was loaded: a use of the handler in that state is [Ub] here. *)
From S2P Require Import Prelude ReturnCode Effects Bitmap Memory Replacer OsFile BufferPool.
From S2P Require Import RecordPage.

Record RecordPageHandler := {
  rph_open : bool;                (* disk_buffer_pool_ != nullptr *)
  rph_file_id : Z;
  rph_handle : BPPageHandle;      (* page_handle_ *)
  rph_header : option Z           (* the frame page_header_ and bitmap_ point into *)
}.

(** The constructor. *)
Definition RecordPageHandler_create : RecordPageHandler :=
  {| rph_open := false; rph_file_id := -1; rph_handle := null_handle; rph_header := None |}.

(** [rec->data] points into a frame, at an offset of the page data. *)
Record RecordRef := { rec_rid : RID; rec_data : option (Z * Z) }.

Record RecordFileHandler := { rfh_open : bool; rfh_file_id : Z }.

Section RecordManager.
Context {R W : Type} `{Replacer R} `{OS W} `{HashOrder}.

Record RS := { rs_pool : Pool R W; rs_ph : RecordPageHandler }.

Definition set_pool p (s : RS) : RS := {| rs_pool := p; rs_ph := rs_ph s |}.
Definition set_ph h (s : RS) : RS := {| rs_pool := rs_pool s; rs_ph := h |}.

(** A call on the buffer pool. *)
Definition lift {A} (m : M (Pool R W) A) : M RS A := fun s =>
  let '(r, p) := m (rs_pool s) in (r, set_pool p s).

Definition set_handle h : M RS unit :=
  modify (fun s => set_ph {| rph_open := rph_open (rs_ph s); rph_file_id := rph_file_id (rs_ph s);
                             rph_handle := h; rph_header := rph_header (rs_ph s) |} s).

(** A computation on the bytes of the page the handler works on. *)
Definition on_page {A} (m : M (list Z) A) : M RS A := fun s =>
  match rph_header (rs_ph s), ph_frame (rph_handle (rs_ph s)) with
  | Some f, Some f' =>
      if f =? f' then
        let '(r, d) := m (data_of f (rs_pool s)) in
        (r, set_pool (upd_data f (fun _ => d) (rs_pool s)) s)
      else (Ub, s)
  | _, _ => (Ub, s)
  end.

(** ** RecordPageHandler *)

Definition init (file_id page_num : Z) : M RS unit :=
  let! h := gets rs_ph in
  fail_if (rph_open h) RECORD_OPENNED ;;
  let! x := lift (get_this_page_h file_id page_num (rph_handle h)) in
  set_handle x.2 ;;
  fail_if (negb (bool_decide (x.1 = SUCCESS))) x.1 ;;
  let! data := lift (get_data x.2) in
  modify (set_ph {| rph_open := true; rph_file_id := file_id; rph_handle := x.2;
                    rph_header := Some data |}).

Definition ph_mark_dirty : M RS unit :=
  let! h := gets rs_ph in lift (mark_dirty (rph_handle h)).

Definition ph_init_empty_page (file_id page_num record_size : Z) : M RS unit :=
  init file_id page_num ;;
  on_page (modify (init_empty_page record_size)) ;;
  ph_mark_dirty.

Definition deinit : M RS unit :=
  let! h := gets rs_ph in
  if rph_open h then
    let! h' := lift (unpin_page (rph_handle h)) in
    modify (set_ph {| rph_open := false; rph_file_id := rph_file_id h; rph_handle := h';
                      rph_header := rph_header h |})
  else ret tt.

Definition ph_get_page_num : M RS Z :=
  let! h := gets rs_ph in
  match rph_header h with
  | None => ret (-1)
  | Some _ =>
      match ph_frame (rph_handle h) with
      | None => undefined
      | Some f => gets (fun s => p_page_num (f_page (frame_of f (rs_pool s))))
      end
  end.

Definition is_full : M RS bool := on_page (gets page_full).

Definition ph_insert_record (data : list Z) : M RS RID :=
  let! index := on_page (insert_slot data) in
  ph_mark_dirty ;;
  let! pn := ph_get_page_num in
  ret {| page_num := pn; slot_num := index |}.

Definition ph_update_record (rid : RID) (data : list Z) : M RS unit :=
  on_page (update_slot (slot_num rid) data) ;; ph_mark_dirty.

Definition ph_delete_record (rid : RID) : M RS unit :=
  on_page (delete_slot (slot_num rid)) ;;
  ph_mark_dirty ;;
  let! num := on_page (gets record_num) in
  if num =? 0 then
    let! h := gets rs_ph in
    let! pn := ph_get_page_num in
    deinit ;;
    let! _ := rc_of (lift (dispose_page (rph_file_id h) pn)) in
    ret tt
  else ret tt.

(** The pointer into the page, for an offset. *)
Definition data_ptr (offset : Z) : M RS (option (Z * Z)) :=
  gets (fun s => (fun f => (f, offset)) <$> ph_frame (rph_handle (rs_ph s))).

Definition ph_get_record (rid : RID) : M RS RecordRef :=
  let! offset := on_page (get_slot (slot_num rid)) in
  let! p := data_ptr offset in
  ret {| rec_rid := rid; rec_data := p |}.

Definition ph_get_next_record (rid : RID) : M RS RecordRef :=
  let! x := on_page (next_slot (slot_num rid)) in
  let! pn := ph_get_page_num in
  let! p := data_ptr x.2 in
  ret {| rec_rid := {| page_num := pn; slot_num := x.1 |}; rec_data := p |}.

Definition ph_get_first_record (rid : RID) : M RS RecordRef :=
  ph_get_next_record {| page_num := page_num rid; slot_num := -1 |}.

(** [updater] changes the record through its pointer; the page is marked dirty whatever it
    returns. *)
Definition ph_update_record_in_place (rid : RID) (updater : RecordRef -> M (Pool R W) RC) : M RS RC :=
  let! rec := ph_get_record rid in
  let! rc := lift (updater rec) in
  ph_mark_dirty ;;
  ret rc.

(** ** A function with a local RecordPageHandler: its destructor runs on every return *)

Definition with_local {A} (m : M RS A) : M (Pool R W) A := fun p =>
  let '(r, s) := m {| rs_pool := p; rs_ph := RecordPageHandler_create |} in
  match r with
  | Ub => (Ub, rs_pool s)
  | OutOfFuel => (OutOfFuel, rs_pool s)
  | _ => let '(r', s') := deinit s in
         (match r' with Ok _ => r | _ => Ub end, rs_pool s')
  end.

(** ** RecordFileHandler *)

Definition RecordFileHandler_create : RecordFileHandler := {| rfh_open := false; rfh_file_id := -1 |}.

Definition rfh_init (file_id : Z) (h : RecordFileHandler) : RC * RecordFileHandler :=
  if rfh_open h then (RECORD_OPENNED, h)
  else (SUCCESS, {| rfh_open := true; rfh_file_id := file_id |}).

Definition rfh_close (h : RecordFileHandler) : RecordFileHandler :=
  {| rfh_open := false; rfh_file_id := rfh_file_id h |}.

(** [disk_buffer_pool_->...] with a null pointer. *)
Definition bound {S} (h : RecordFileHandler) : M S unit := undefined_if (negb (rfh_open h)).

(** The search for a page that is not full: [i] is the loop counter.  The page number is
    carried from one round to the next. *)
Fixpoint find_page (file_id page_count : Z) (n : nat) (i current_page_num : Z) : M RS bool :=
  match n with
  | O => ret false
  | S n' =>
      let current_page_num := Z.rem (current_page_num + i) page_count in
      if current_page_num =? 0 then find_page file_id page_count n' (i + 1) current_page_num
      else
        let! pn := ph_get_page_num in
        (if negb (current_page_num =? pn) then
           deinit ;;
           let! rc := rc_of (init file_id current_page_num) in
           fail_if (negb (bool_decide (rc = SUCCESS)) &&
                    negb (bool_decide (rc = BUFFERPOOL_INVALID_PAGE_NUM))) rc
         else ret tt) ;;
        let! full := is_full in
        if full then find_page file_id page_count n' (i + 1) current_page_num else ret true
  end.

(** The page where the search starts. *)
Definition first_page (file_id page_count : Z) : M RS Z :=
  let! current_page_num := ph_get_page_num in
  if current_page_num <? 0 then
    if 2 <=? page_count then init file_id 1 ;; ph_get_page_num else ret 0
  else ret current_page_num.

(** A new page for the file; the handler works on it afterwards. *)
Definition add_page (file_id record_size : Z) : M RS unit :=
  let! h := lift (allocate_page file_id) in
  match ph_frame h with
  | None => undefined
  | Some f =>
      let! pn := gets (fun s => p_page_num (f_page (frame_of f (rs_pool s)))) in
      deinit ;;
      let! rc := rc_of (ph_init_empty_page file_id pn record_size) in
      let! _ := lift (unpin_page h) in
      return_rc rc
  end.

Definition insert_record (h : RecordFileHandler) (data : list Z) (record_size : Z) : M RS RID :=
  bound h ;;
  let! page_count := lift (get_page_count (rfh_file_id h)) in
  let! current_page_num := first_page (rfh_file_id h) page_count in
  let! page_found := find_page (rfh_file_id h) page_count (Z.to_nat page_count) 0 current_page_num in
  (if page_found then ret tt else add_page (rfh_file_id h) record_size) ;;
  ph_insert_record data.

(** [(ret != page_handler.init(...)) != RC::SUCCESS]: the comparison is stored nowhere, so
    the functions below return [ret], which is SUCCESS, when [init] fails. *)
Definition init_or (file_id page_num : Z) {A} (on_failure : A) (k : M RS A) : M RS A :=
  let! rc := rc_of (init file_id page_num) in
  if bool_decide (rc = SUCCESS) then k else ret on_failure.

Definition update_record (h : RecordFileHandler) (rid : RID) (data : list Z) : M (Pool R W) unit :=
  bound h ;; with_local (init_or (rfh_file_id h) (page_num rid) tt (ph_update_record rid data)).

Definition delete_record (h : RecordFileHandler) (rid : RID) : M (Pool R W) unit :=
  bound h ;; with_local (init_or (rfh_file_id h) (page_num rid) tt (ph_delete_record rid)).

(** [None]: the caller's record is left as it was. *)
Definition get_record (h : RecordFileHandler) (rid : RID) : M (Pool R W) (option RecordRef) :=
  bound h ;;
  with_local (init_or (rfh_file_id h) (page_num rid) None
                (let! rec := ph_get_record rid in ret (Some rec))).

Definition update_record_in_place (h : RecordFileHandler) (rid : RID)
    (updater : RecordRef -> M (Pool R W) RC) : M (Pool R W) RC :=
  bound h ;;
  with_local (init_or (rfh_file_id h) (page_num rid) SUCCESS (ph_update_record_in_place rid updater)).

(** *** Text pages *)

Definition TEXTPATCHSIZE : Z := 28.
Definition PAGENUMSIZE : Z := 4.

Fixpoint strlen_from (data : list Z) (n : Z) : option Z :=
  match data with
  | [] => None
  | b :: rest => if b =? 0 then Some n else strlen_from rest (n + 1)
  end.

(** [None]: no terminating zero in the memory given. *)
Definition strlen (data : list Z) : option Z := strlen_from data 0.

Definition remain_size (data_len : Z) : Z :=
  Z.min (Z.max 0 (data_len - TEXTPATCHSIZE)) (BP_PAGE_SIZE - TEXTPATCHSIZE).

(** [memcpy(page_data + TEXTPATCHSIZE - PAGENUMSIZE, data + TEXTPATCHSIZE, remain_size)]. *)
Definition write_text (data : list Z) (len : Z) (d : list Z) : list Z :=
  put d (TEXTPATCHSIZE - PAGENUMSIZE) (load data TEXTPATCHSIZE (remain_size len)).

Definition read_text (d : list Z) : list Z :=
  load d (TEXTPATCHSIZE - PAGENUMSIZE) (BP_PAGE_SIZE - TEXTPATCHSIZE).

(** A computation on the page of a handle. *)
Definition with_frame {A} (h : BPPageHandle) (k : Z -> M (Pool R W) A) : M (Pool R W) A :=
  match ph_frame h with None => undefined | Some f => k f end.

Definition insert_text_data (h : RecordFileHandler) (data : list Z) : M (Pool R W) Z :=
  bound h ;;
  let! page_handle := allocate_page (rfh_file_id h) in
  with_frame page_handle (fun f =>
    let! page_num := gets (fun s => p_page_num (f_page (frame_of f s))) in
    match strlen data with
    | None => undefined
    | Some len =>
        modify (upd_data f (write_text data len)) ;;
        mark_dirty page_handle ;;
        let! _ := unpin_page page_handle in
        ret page_num
    end).

Definition read_text_data (h : RecordFileHandler) (page_num : Z) : M (Pool R W) (list Z) :=
  bound h ;;
  let! page_handle := get_this_page (rfh_file_id h) page_num in
  let! f := get_data page_handle in
  let! data := gets (fun s => read_text (data_of f s)) in
  let! _ := unpin_page page_handle in
  ret data.

Definition delete_text_data (h : RecordFileHandler) (page_num record_size : Z) : M (Pool R W) unit :=
  bound h ;; with_local (ph_init_empty_page (rfh_file_id h) page_num record_size).

Definition update_text_data (h : RecordFileHandler) (data : list Z) (page_num : Z) : M (Pool R W) unit :=
  bound h ;;
  let! page_handle := get_this_page (rfh_file_id h) page_num in
  let! f := get_data page_handle in
  match strlen data with
  | None => undefined
  | Some len =>
      modify (upd_data f (fun d => write_text data len (zero d 0 (BP_PAGE_SIZE - PAGENUMSIZE)))) ;;
      mark_dirty page_handle ;;
      let! _ := unpin_page page_handle in
      ret tt
  end.

(** ** RecordFileScanner *)

(** [condition_filter_->filter(record)]: the record identifier and the bytes from
    [rec.data] to the end of the page. *)
Definition Filter : Type := RID -> list Z -> bool.

Record RecordFileScanner := { sc_open : bool; sc_file_id : Z; sc_filter : option Filter }.

Definition open_scan (file_id : Z) (condition_filter : option Filter) : RecordFileScanner :=
  {| sc_open := true; sc_file_id := file_id; sc_filter := condition_filter |}.

Definition close_scan (sc : RecordFileScanner) : RecordFileScanner :=
  {| sc_open := false; sc_file_id := sc_file_id sc; sc_filter := None |}.

Definition passes (sc : RecordFileScanner) (rec : RecordRef) (s : RS) : bool :=
  match sc_filter sc, rec_data rec with
  | Some filter, Some (f, off) => filter (rec_rid rec) (drop (Z.to_nat off) (data_of f (rs_pool s)))
  | Some filter, None => filter (rec_rid rec) []
  | None, _ => true
  end.

(** [current_record.rid.page_num++; current_record.rid.slot_num = -1;]. *)
Definition next_page (rec : RecordRef) : RecordRef :=
  {| rec_rid := {| page_num := page_num (rec_rid rec) + 1; slot_num := -1 |};
     rec_data := rec_data rec |}.

(** The loop; the result is the final [ret] and [current_record]. *)
Fixpoint scan_loop (fuel : nat) (sc : RecordFileScanner) (page_count : Z) (rc : RC)
    (cur : RecordRef) : M RS (RC * RecordRef) :=
  if page_count <=? page_num (rec_rid cur) then ret (rc, cur)
  else
    match fuel with
    | O => no_fuel
    | S fuel' =>
        let! pn := ph_get_page_num in
        let! rc := (if page_num (rec_rid cur) =? pn then ret SUCCESS
                    else deinit ;; rc_of (init (sc_file_id sc) (page_num (rec_rid cur)))) in
        match rc with
        | BUFFERPOOL_INVALID_PAGE_NUM => scan_loop fuel' sc page_count rc (next_page cur)
        | SUCCESS =>
            let! x := try (ph_get_next_record (rec_rid cur)) in
            match x with
            | inr rec =>
                let! pass := gets (passes sc rec) in
                if pass then ret (SUCCESS, rec) else scan_loop fuel' sc page_count SUCCESS rec
            | inl RECORD_EOF => scan_loop fuel' sc page_count RECORD_EOF (next_page cur)
            | inl rc => ret (rc, cur)
            end
        | _ => ret (rc, cur)
        end
    end.

Definition sc_get_next_record (fuel : nat) (sc : RecordFileScanner) (rec : RecordRef) : M RS RecordRef :=
  fail_if (negb (sc_open sc)) RECORD_CLOSED ;;
  let! y := try (lift (get_page_count (sc_file_id sc))) in
  match y with
  | inl _ => fail RECORD_EOF
  | inr page_count =>
      fail_if (1 =? page_count) RECORD_EOF ;;
      let! x := scan_loop fuel sc page_count SUCCESS rec in
      if bool_decide (x.1 = SUCCESS) then ret x.2 else fail x.1
  end.

Definition sc_get_first_record (fuel : nat) (sc : RecordFileScanner) (rec : RecordRef) : M RS RecordRef :=
  sc_get_next_record fuel sc
    {| rec_rid := {| page_num := 1; slot_num := -1 |}; rec_data := rec_data rec |}.

End RecordManager.
Arguments RS R W : clear implicits.
