(* ===== verification/RecordFileTheorems.v ===== *)
(** * Record files: theorems

    A RecordPageHandler that is initialised on a page works on the logical content of that
    page in the buffer pool; text pages give back what was stored; and what the callers of
    a failed [init] and of a scan over disposed pages see. *)
From S2P Require Import Prelude ReturnCode Effects Bitmap Memory Replacer OsFile BufferPool.
From S2P Require Import PoolInvariant PoolTheorems RecordPage RecordPageTheorems.
From S2P Require Import RecordPageContract RecordFile.

Section files.
Context {R W : Type} `{ReplacerLaws R} `{OSLaws W} `{HashOrder}.
Implicit Types (p : Pool R W) (s : RS R W).

(** The handler of [s] is initialised on page [pn] of the file behind [fd], in frame [f]. *)
Record handler_on s fd pn f : Prop := {
  ho_open : rph_open (rs_ph s) = true;
  ho_handle : rph_handle (rs_ph s) = {| ph_open := true; ph_frame := Some f |};
  ho_header : rph_header (rs_ph s) = Some f;
  ho_inv : pool_inv (rs_pool s);
  ho_cached : cached (rs_pool s) fd pn = Some f }.

Lemma data_view p fd pn f : cached p fd pn = Some f -> (p_data <$> view p fd pn) = Some (data_of f p).
Proof. intros Hc. by rewrite (view_cached _ _ _ _ Hc). Qed.

(** A computation on the page followed by [mark_dirty] is a write of a client. *)
Lemma on_page_dirty {A B} (m : M (list Z) A) (k : A -> M (RS R W) B) s fd pn f a d :
  handler_on s fd pn f -> m (data_of f (rs_pool s)) = (Ok a, d) ->
  (let! x := on_page m in ph_mark_dirty ;; k x) s =
  k a (set_pool (client_write f (fun _ => d) (rs_pool s)) s).
Proof.
  intros [Ho Hh Hd Hi Hc] Hm. unfold bind at 1, on_page. rewrite Hd, Hh. simpl.
  rewrite Z.eqb_refl, Hm. unfold ph_mark_dirty, bind, gets, lift. simpl. by rewrite Hh.
Qed.

Lemma on_page_err {A B} (m : M (list Z) A) (k : A -> M (RS R W) B) s fd pn f rc :
  handler_on s fd pn f -> m (data_of f (rs_pool s)) = (Err rc, data_of f (rs_pool s)) ->
  exists s', bind (on_page m) k s = (Err rc, s') /\ rs_ph s' = rs_ph s /\
    forall fd pn, view (rs_pool s') fd pn = view (rs_pool s) fd pn.
Proof.
  intros [Ho Hh Hd Hi Hc] Hm. destruct (pi_range _ Hi _ _ _ Hc) as (Hf & _ & _).
  eexists. unfold bind, on_page. rewrite Hd, Hh. simpl. rewrite Z.eqb_refl, Hm. split; [done|]. split; [done|].
  intros fd' pn'. unfold view. simpl.
  change (cached (upd_data f (fun _ => data_of f (rs_pool s)) (rs_pool s)) fd' pn') with (cached (rs_pool s) fd' pn').
  destruct (cached (rs_pool s) fd' pn') as [g|]; [|done]. unfold upd_data. rewrite frame_upd by done.
  destruct (Z.eqb_spec f g) as [<-|]; [|done]. simpl. unfold with_data, data_of. by destruct (f_page _).
Qed.

Lemma handler_write s fd pn f d :
  handler_on s fd pn f ->
  let s' := set_pool (client_write f (fun _ => d) (rs_pool s)) s in
  handler_on s' fd pn f /\ (p_data <$> view (rs_pool s') fd pn) = Some d /\
  p_page_num (f_page (frame_of f (rs_pool s'))) = pn /\
  (forall fd' pn', (fd', pn') <> (fd, pn) -> view (rs_pool s') fd' pn' = view (rs_pool s) fd' pn').
Proof.
  intros [Ho Hh Hd Hi Hc] s'. destruct (client_write_spec _ fd pn f (fun _ => d) Hi Hc) as (Hi' & Hv & Hother).
  assert (Hc' : cached (rs_pool s') fd pn = Some f) by done.
  split_and!; [by constructor| |by apply (pi_tag _ Hi' _ _ _ Hc')|exact Hother].
  change (rs_pool s') with (client_write f (fun _ => d) (rs_pool s)).
  by rewrite Hv, (view_cached _ _ _ _ Hc).
Qed.

(** C33. RecordPageHandler::insert_record through the buffer pool: on a page that is not full
    the record is stored in a free slot of the logical page, the identifier returned
    names that page and slot, and no other page changes; on a full page the pool's content
    does not change. *)
Theorem handler_insert_record s fd pn f data :
  handler_on s fd pn f -> let d := data_of f (rs_pool s) in
  page_ok d -> record_real_size d <= alen data -> bytes_ok data ->
  (record_num d = record_capacity d ->
   exists s', ph_insert_record data s = (Err RECORD_NOMEM, s') /\ rs_ph s' = rs_ph s /\
     forall fd pn, view (rs_pool s') fd pn = view (rs_pool s) fd pn) /\
  (record_num d <> record_capacity d ->
   exists slot d' s', ph_insert_record data s = (Ok {| page_num := pn; slot_num := slot |}, s') /\
     handler_on s' fd pn f /\ (p_data <$> view (rs_pool s') fd pn) = Some d' /\
     records d slot = None /\ changed d d' slot (Some (take (Z.to_nat (record_real_size d)) data)) /\
     forall fd' pn', (fd', pn') <> (fd, pn) -> view (rs_pool s') fd' pn' = view (rs_pool s) fd' pn').
Proof.
  intros Hh d Hok Hlen Hbytes. destruct (insert_slot_spec d data Hok Hlen Hbytes) as [Hfull Hins]. split.
  - intros Hf. unfold ph_insert_record. by eapply on_page_err; [|apply Hfull].
  - intros Hn. destruct (Hins Hn) as (slot & d' & Hrun & Hs & Hnone & _ & _ & Hch).
    destruct (handler_write s fd pn f d' Hh) as (Hh' & Hv & Hnum & Hother).
    set (s' := set_pool _ s) in *. exists slot, d', s'. split_and!; try done.
    unfold ph_insert_record. rewrite (on_page_dirty _ _ s fd pn f slot d' Hh Hrun). fold s'.
    unfold ph_get_page_num. rewrite bind_assoc, bind_gets. rewrite (ho_header _ _ _ _ Hh'), (ho_handle _ _ _ _ Hh').
    simpl. by rewrite bind_gets, Hnum.
Qed.

(** RecordFileHandler::update_record, delete_record and get_record do not report that
    their page could not be fetched: the return code of [init] is compared with [!=]
    instead of being assigned, so for a file that is not open they return SUCCESS and
    have done nothing. *)
Theorem failed_init_reports_success p h rid data :
  rfh_open h = true -> open_file_ p !! rfh_file_id h = None ->
  update_record h rid data p = (Ok tt, p) /\ delete_record h rid p = (Ok tt, p) /\
  get_record h rid p = (Ok None, p).
Proof.
  intros Ho Hf. unfold update_record, delete_record, get_record, bound. rewrite Ho. simpl.
  assert (Hinit : forall A (x : A) k, with_local (init_or (rfh_file_id h) (page_num rid) x k) p = (Ok x, p)).
  { intros A x k. unfold with_local, init_or, rc_of, init, bind, gets, lift; simpl.
    unfold get_this_page_h, bind, try. rewrite check_file_id_run, Hf.
    assert (Hs : forall (b : bool) (e : res BPFileHandle), b = true \/ b = false ->
      (if b then Err BUFFERPOOL_ILLEGAL_FILE_ID else Err BUFFERPOOL_ILLEGAL_FILE_ID) = @Err BPFileHandle BUFFERPOOL_ILLEGAL_FILE_ID).
    { intros [] ? ?; done. }
    rewrite (Hs _ Ub) by (destruct (_ || _); tauto). by destruct p. }
  by rewrite !bind_ret, !Hinit.
Qed.

(** ** Text pages *)

Lemma strlen_from_app bs rest n : Forall (fun b => b <> 0) bs -> strlen_from (bs ++ 0 :: rest) n = Some (n + alen bs).
Proof.
  intros Hb. revert n. induction Hb as [|b bs Hb _ IH]; intros n; simpl.
  - f_equal. rewrite alen_nil. lia.
  - destruct (Z.eqb_spec b 0); [done|]. rewrite IH, alen_cons. f_equal. lia.
Qed.

(** C34. What [read_text_data] finds in a zeroed page after [write_text] of a C string: the
    string behind its first 28 bytes, cut to the 4068 bytes a page can hold, and zeros. *)
Theorem text_roundtrip bs rest d :
  Forall (fun b => b <> 0) bs -> alen d = BP_PAGE_DATA_SIZE ->
  (forall i, 0 <= i < BP_PAGE_DATA_SIZE -> aget d i = 0) ->
  let data := bs ++ 0 :: rest in
  let n := Z.min (Z.max 0 (alen bs - 28)) 4068 in
  strlen data = Some (alen bs) /\
  read_text (write_text data (alen bs) d) =
    take (Z.to_nat n) (drop 28 bs) ++ replicate (Z.to_nat (4068 - n)) 0.
Proof.
  intros Hb Hlen Hz data n. split; [unfold strlen, data; by rewrite strlen_from_app|].
  assert (Hn : remain_size (alen bs) = n) by done.
  pose proof (alen_nonneg bs). pose proof (alen_nonneg rest).
  assert (Hdata : alen data = alen bs + (alen rest + 1)) by (unfold data; by rewrite alen_app, alen_cons).
  assert (Hsrc : load data TEXTPATCHSIZE (remain_size (alen bs)) = take (Z.to_nat n) (drop 28 bs)).
  { rewrite Hn. unfold load, data. change (Z.to_nat TEXTPATCHSIZE) with 28%nat.
    destruct (decide (28 <= alen bs)).
    - rewrite drop_app_le by (unfold alen in *; lia). apply take_app_le. rewrite length_drop. unfold alen in *. lia.
    - replace (Z.to_nat n) with 0%nat by lia. by rewrite !take_0. }
  unfold read_text, write_text. rewrite Hsrc. set (src := take (Z.to_nat n) (drop 28 bs)).
  assert (Hl : alen src = n) by (unfold src, alen in *; rewrite length_take, length_drop; lia).
  change (BP_PAGE_SIZE - TEXTPATCHSIZE) with 4068. change (TEXTPATCHSIZE - PAGENUMSIZE) with 24.
  change BP_PAGE_DATA_SIZE with 4092 in *.
  assert (Hblk : in_block d 24 (alen src)) by (unfold in_block; lia).
  assert (Hput : alen (put d 24 src) = 4092) by (by rewrite alen_put).
  assert (Hrd : in_block (put d 24 src) 24 4068) by (unfold in_block; lia).
  apply array_eq.
  - rewrite alen_load, alen_app, alen_replicate by (done || lia). lia.
  - rewrite alen_load by done. intros i Hi. rewrite aget_load, aget_put by (done || lia).
    rewrite aget_app by lia. rewrite Hl.
    destruct (Z.leb_spec 24 (24 + i)), (Z.ltb_spec (24 + i) (24 + n)), (Z.ltb_spec i n); try lia; simpl.
    + f_equal. lia.
    + rewrite Hz, aget_replicate by lia. done.
Qed.

(** ** The scan *)

Lemma init_unallocated id pn s fh :
  rph_open (rs_ph s) = false -> 0 <= id < MAX_OPEN_FILE -> open_file_ (rs_pool s) !! id = Some fh ->
  bit_in_header pn = true -> page_bit fh pn (rs_pool s) = false ->
  init id pn s = (Err BUFFERPOOL_INVALID_PAGE_NUM, s).
Proof.
  intros Ho Hid Hfh Hin Hbit. destruct s as [p ph]; simpl in *. unfold init. rewrite bind_gets; simpl.
  rewrite bind_fail_if, Ho. unfold bind at 1, lift; simpl. unfold get_this_page_h, bind at 1, try, bind at 1.
  rewrite check_file_id_run, Hfh. destruct (Z.ltb_spec id 0), (Z.leb_spec MAX_OPEN_FILE id); try lia; simpl.
  unfold bind at 1. rewrite check_page_num_run, Hin, Hbit. simpl.
  assert (Hx : forall (b : bool), (if b then Err BUFFERPOOL_INVALID_PAGE_NUM else Err BUFFERPOOL_INVALID_PAGE_NUM)
    = @Err unit BUFFERPOOL_INVALID_PAGE_NUM) by (by intros []).
  rewrite Hx. unfold ret, set_handle, modify, bind; simpl. by destruct ph, p.
Qed.

Lemma scan_loop_unallocated sc fh s (n : nat) cur rc :
  rs_ph s = RecordPageHandler_create -> 0 <= sc_file_id sc < MAX_OPEN_FILE ->
  open_file_ (rs_pool s) !! sc_file_id sc = Some fh ->
  let page_count := hdr_page_count fh (rs_pool s) in
  0 <= page_num (rec_rid cur) -> page_num (rec_rid cur) + Z.of_nat n = page_count ->
  (forall pn, page_num (rec_rid cur) <= pn < page_count ->
     bit_in_header pn = true /\ page_bit fh pn (rs_pool s) = false) ->
  exists cur', scan_loop n sc page_count rc cur s =
    (Ok (if bool_decide (n = O) then rc else BUFFERPOOL_INVALID_PAGE_NUM, cur'), s).
Proof.
  intros Hph Hid Hfh page_count. revert cur rc. induction n as [|n IH]; intros cur rc Hcur Hn Hall; simpl.
  - destruct (Z.leb_spec page_count (page_num (rec_rid cur))); [by eexists|lia].
  - destruct (Z.leb_spec page_count (page_num (rec_rid cur))); [lia|].
    unfold ph_get_page_num. rewrite bind_assoc, bind_gets, Hph. simpl. rewrite bind_ret.
    destruct (Z.eqb_spec (page_num (rec_rid cur)) (-1)); [lia|].
    rewrite bind_assoc. unfold deinit. rewrite bind_assoc, bind_gets, Hph. simpl. rewrite bind_ret.
    destruct (Hall (page_num (rec_rid cur)) ltac:(lia)) as [Hin Hbit].
    rewrite (bind_rc_of _ _ _ _ _ (init_unallocated _ _ s fh ltac:(by rewrite Hph) Hid Hfh Hin Hbit)).
    destruct (IH (next_page cur) BUFFERPOOL_INVALID_PAGE_NUM) as [cur' Hc]; simpl; [lia|lia|intros; apply Hall; lia|].
    exists cur'. rewrite Hc. by destruct n.
Qed.

(** The scanner promises [RECORD_EOF] when no record is left; when the pages that remain
    are not allocated (the last page of the table was emptied and disposed) it returns
    [BUFFERPOOL_INVALID_PAGE_NUM] instead, the code of its last failed [init]. *)
Theorem scan_disposed_tail sc fh s rec data_ :
  rs_ph s = RecordPageHandler_create -> sc_open sc = true -> 0 <= sc_file_id sc < MAX_OPEN_FILE ->
  open_file_ (rs_pool s) !! sc_file_id sc = Some fh ->
  let page_count := hdr_page_count fh (rs_pool s) in
  1 < page_count ->
  (forall pn, 1 <= pn < page_count -> bit_in_header pn = true /\ page_bit fh pn (rs_pool s) = false) ->
  rec = {| rec_rid := {| page_num := 1; slot_num := -1 |}; rec_data := data_ |} ->
  sc_get_next_record (Z.to_nat (page_count - 1)) sc rec s = (Err BUFFERPOOL_INVALID_PAGE_NUM, s).
Proof.
  intros Hph Ho Hid Hfh page_count Hc Hall ->. unfold sc_get_next_record. rewrite bind_fail_if, Ho. cbn [negb].
  assert (Hcount : lift (get_page_count (sc_file_id sc)) s = (Ok page_count, s)).
  { unfold lift, get_page_count, bind. rewrite check_file_id_run, Hfh.
    destruct (Z.ltb_spec (sc_file_id sc) 0), (Z.leb_spec MAX_OPEN_FILE (sc_file_id sc)); try lia. simpl.
    by destruct s. }
  rewrite (bind_try _ _ _ _ _ Hcount). cbv beta iota. rewrite bind_fail_if.
  replace (1 =? page_count) with false by (symmetry; apply Z.eqb_neq; lia).
  destruct (scan_loop_unallocated sc fh s (Z.to_nat (page_count - 1))
    {| rec_rid := {| page_num := 1; slot_num := -1 |}; rec_data := data_ |} SUCCESS Hph Hid Hfh) as [cur' Hl];
    simpl; [lia|lia|intros; apply Hall; lia|].
  rewrite (bool_decide_eq_false_2 (Z.to_nat (page_count - 1) = 0%nat)) in Hl by lia.
  rewrite (bind_run _ _ _ _ _ Hl). reflexivity.
Qed.

End files.

(** ** Witnesses *)

(** Page 1 of the demo file as an empty page for records of 12 bytes. *)
Definition demo_rs : RS LRU.LRUReplacer MemFS.fs :=
  (ph_init_empty_page 0 1 12 {| rs_pool := Demo.one_page; rs_ph := RecordPageHandler_create |}).2.

Definition demo_rfh : RecordFileHandler := {| rfh_open := true; rfh_file_id := 0 |}.

Lemma demo_handler_on : handler_on demo_rs 6 1 1.
Proof.
  constructor; [vm_compute; reflexivity|vm_compute; reflexivity|vm_compute; reflexivity| |vm_compute; reflexivity].
  apply pool_check_sound; [|vm_compute; reflexivity].
  replace (replacer_ (bpm (rs_pool demo_rs))) with (Pin 1 (Unpin 1 (Pin 1 (Pin 0 (LRU.create 2)))))
    by (vm_compute; reflexivity).
  apply Pin_ok, Unpin_ok. do 2 apply Pin_ok. by apply LRU.create_ok.
Qed.

Lemma handler_insert_record_witness :
  exists slot s', ph_insert_record demo_record demo_rs = (Ok {| page_num := 1; slot_num := slot |}, s').
Proof.
  destruct (handler_insert_record demo_rs 6 1 1 demo_record demo_handler_on) as [_ Hins].
  - replace (data_of 1 (rs_pool demo_rs)) with demo_page by (vm_compute; reflexivity). apply demo_page_ok.
  - vm_compute. discriminate.
  - apply demo_record_ok.
  - destruct Hins as (slot & d' & s' & Hrun & _); [vm_compute; discriminate|]. by exists slot, s'.
Defined.

Lemma failed_init_reports_success_witness :
  delete_record {| rfh_open := true; rfh_file_id := 7 |} {| page_num := 1; slot_num := 0 |} Demo.opened =
    (Ok tt, Demo.opened).
Proof.
  apply (failed_init_reports_success Demo.opened {| rfh_open := true; rfh_file_id := 7 |}
    {| page_num := 1; slot_num := 0 |} []); vm_compute; reflexivity.
Defined.

Lemma text_roundtrip_witness :
  strlen (replicate 40 65 ++ [0]) = Some 40 /\
  aget (read_text (write_text (replicate 40 65 ++ [0]) 40 (p_data zero_page))) 11 = 65.
Proof.
  destruct (text_roundtrip (replicate 40 65) [] (p_data zero_page)) as [Hl Hr].
  - by apply Forall_replicate.
  - vm_compute; reflexivity.
  - intros i Hi. apply aget_replicate. rewrite Z2Nat.id by (vm_compute; discriminate). exact Hi.
  - split; [exact Hl|]. change (alen (replicate 40 65)) with 40 in Hr. rewrite Hr. vm_compute; reflexivity.
Defined.

(** The only page of the table is disposed. *)
Definition demo_disposed : RS LRU.LRUReplacer MemFS.fs :=
  {| rs_pool := (dispose_page 0 1 Demo.one_page).2; rs_ph := RecordPageHandler_create |}.

Lemma scan_disposed_tail_witness :
  (sc_get_next_record 1 (open_scan 0 None) {| rec_rid := {| page_num := 1; slot_num := -1 |}; rec_data := None |}
     demo_disposed).1 = Err BUFFERPOOL_INVALID_PAGE_NUM.
Proof.
  pose proof (scan_disposed_tail (open_scan 0 None)
    {| fh_file_name := "t"; fh_file_desc := 6; fh_hdr_frame := 0 |} demo_disposed
    {| rec_rid := {| page_num := 1; slot_num := -1 |}; rec_data := None |} None) as Hs.
  assert (Hc : hdr_page_count {| fh_file_name := "t"; fh_file_desc := 6; fh_hdr_frame := 0 |}
    (rs_pool demo_disposed) = 2) by (vm_compute; reflexivity).
  cbv zeta in Hs. rewrite Hc in Hs. change (Z.to_nat (2 - 1)) with 1%nat in Hs. rewrite Hs; [reflexivity|..].
  - vm_compute; reflexivity.
  - vm_compute; reflexivity.
  - vm_compute; split; [discriminate|reflexivity].
  - vm_compute; reflexivity.
  - lia.
  - intros pn Hpn. replace pn with 1 by lia. vm_compute; split; reflexivity.
  - reflexivity.
Defined.
