(* ===== verification/KeyCompare.v ===== *)
(** * Comparison of index keys (storage/common/bplus_tree.cpp)

    A key is the bytes of an attribute followed by the bytes of a RID.  Integers are
    compared as [int], dates and strings with [strncmp], floats with a tolerance. *)
From S2P Require Import Prelude Bitmap Memory RecordPage.
From Stdlib Require Import Floats.SpecFloat.

Inductive AttrType := UNDEFINED | CHARS | INTS | DATES | TEXTS | FLOATS.

Inductive CompOp :=
| EQUAL_TO | LESS_EQUAL | NOT_EQUAL | LESS_THAN | GREAT_EQUAL | GREAT_THAN
| IS | IS_NOT | IN_OP | NOT_IN_OP | NO_OP.

#[export] Instance AttrType_eq_dec : EqDecision AttrType.
Proof. solve_decision. Defined.
#[export] Instance CompOp_eq_dec : EqDecision CompOp.
Proof. solve_decision. Defined.

Definition attr_code (t : AttrType) : Z :=
  match t with UNDEFINED => 0 | CHARS => 1 | INTS => 2 | DATES => 3 | TEXTS => 4 | FLOATS => 5 end.

(** An [AttrType] read from memory; a value that is none is treated by every [switch] as
    [UNDEFINED] is: by its default branch. *)
Definition attr_of_code (c : Z) : AttrType :=
  if c =? 1 then CHARS else if c =? 2 then INTS else if c =? 3 then DATES
  else if c =? 4 then TEXTS else if c =? 5 then FLOATS else UNDEFINED.

(** ** Floats: IEEE binary32 from its four bytes *)

Definition float := spec_float.

Definition float_of_bits (u : Z) : float :=
  let s := negb (u / 2 ^ 31 =? 0) in
  let e := u / 2 ^ 23 mod 2 ^ 8 in
  let m := u mod 2 ^ 23 in
  if e =? 0 then
    match m with Zpos p => S754_finite s p (-149) | _ => S754_zero s end
  else if e =? 255 then (if m =? 0 then S754_infinity s else S754_nan)
  else match m + 2 ^ 23 with Zpos p => S754_finite s p (e - 150) | _ => S754_nan end.

Definition float_at (m : list Z) : float := float_of_bits (uint32 (rd32 m 0)).

(** The conversion of a [float] to [double] is exact. *)
Definition double_of_float (x : float) : double :=
  match x with
  | S754_finite s m e => binary_normalize 53 1024 (if s then Zneg m else Zpos m) e s
  | _ => x
  end.

(** The [double] nearest to 1e-6. *)
Definition eps : double := S754_finite false 4722366482869645 (-72).

Definition float_compare (f1 f2 : float) : Z :=
  let result := SFsub 24 128 f1 f2 in
  if SFltb (double_of_float result) eps && SFltb (SFopp eps) (double_of_float result) then 0
  else if SFltb (S754_zero false) result then 1 else -1.

(** ** Strings *)

(** [strncmp(a, b, n)]; a byte outside the blocks is outside the program's objects. *)
Fixpoint strncmp (a b : list Z) (n : nat) : Z :=
  match n, a, b with
  | S n', x :: a', y :: b' => if negb (x =? y) then x - y else if x =? 0 then 0 else strncmp a' b' n'
  | _, _, _ => 0
  end.

(** ** Keys *)

Definition rid_bytes (r : RID) : list Z := le32 (page_num r) ++ le32 (slot_num r).

(** The RID at offset [off] of a block. *)
Definition rid_at (m : list Z) (off : Z) : RID :=
  {| page_num := rd32 m off; slot_num := rd32 m (off + 4) |}.

Definition CmpRid (rid1 rid2 : RID) : Z :=
  if page_num rid2 <? page_num rid1 then 1
  else if page_num rid1 <? page_num rid2 then -1
  else if slot_num rid2 <? slot_num rid1 then 1
  else if slot_num rid1 <? slot_num rid2 then -1
  else 0.

Definition CompareKey (pdata pkey : list Z) (attr_type : AttrType) (attr_length : Z) : Z :=
  match attr_type with
  | INTS =>
      let i1 := rd32 pdata 0 in
      let i2 := rd32 pkey 0 in
      if i2 <? i1 then 1 else if i1 <? i2 then -1 else 0
  | FLOATS => float_compare (float_at pdata) (float_at pkey)
  | CHARS | DATES => strncmp pdata pkey (Z.to_nat attr_length)
  | TEXTS | UNDEFINED => -2
  end.

Definition CmpKey (attr_type : AttrType) (attr_length : Z) (pdata pkey : list Z) : Z :=
  let result := CompareKey pdata pkey attr_type attr_length in
  if negb (0 =? result) then result
  else CmpRid (rid_at pdata attr_length) (rid_at pkey attr_length).

(** BplusTreeScanner::satisfy_condition: the two [switch]es, on the operator and on the
    type.  Types and operators without a case leave [flag] false. *)
Definition satisfy_condition (comp_op : CompOp) (attr_type : AttrType) (attr_length : Z)
    (pkey value : list Z) : bool :=
  let i1 := rd32 pkey 0 in let i2 := rd32 value 0 in
  let f1 := float_at pkey in let f2 := float_at value in
  let sc := strncmp pkey value (Z.to_nat attr_length) in
  match comp_op with
  | NO_OP => true
  | EQUAL_TO =>
      match attr_type with
      | INTS => i1 =? i2 | FLOATS => 0 =? float_compare f1 f2 | CHARS | DATES => sc =? 0
      | _ => false
      end
  | LESS_THAN =>
      match attr_type with
      | INTS => i1 <? i2 | FLOATS => SFltb f1 f2 | CHARS | DATES => sc <? 0 | _ => false
      end
  | GREAT_THAN =>
      match attr_type with
      | INTS => i2 <? i1 | FLOATS => SFltb f2 f1 | CHARS | DATES => 0 <? sc | _ => false
      end
  | LESS_EQUAL =>
      match attr_type with
      | INTS => i1 <=? i2 | FLOATS => SFleb f1 f2 | CHARS | DATES => sc <=? 0 | _ => false
      end
  | GREAT_EQUAL =>
      match attr_type with
      | INTS => i2 <=? i1 | FLOATS => SFleb f2 f1 | CHARS | DATES => 0 <=? sc | _ => false
      end
  | NOT_EQUAL =>
      match attr_type with
      | INTS => negb (i1 =? i2) | FLOATS => negb (0 =? float_compare f1 f2)
      | CHARS | DATES => negb (sc =? 0) | _ => false
      end
  | IS | IS_NOT | IN_OP | NOT_IN_OP => false
  end.

(** ** The order of keys *)

Lemma CmpRid_spec r1 r2 :
  CmpRid r1 r2 = 0 /\ r1 = r2 \/
  CmpRid r1 r2 = -1 /\ (page_num r1 < page_num r2 \/ page_num r1 = page_num r2 /\ slot_num r1 < slot_num r2) \/
  CmpRid r1 r2 = 1 /\ (page_num r2 < page_num r1 \/ page_num r1 = page_num r2 /\ slot_num r2 < slot_num r1).
Proof.
  unfold CmpRid. destruct r1 as [p1 s1], r2 as [p2 s2]; simpl.
  destruct (Z.ltb_spec p2 p1); [lia|]. destruct (Z.ltb_spec p1 p2); [lia|].
  destruct (Z.ltb_spec s2 s1); [lia|]. destruct (Z.ltb_spec s1 s2); [lia|].
  left. split; [done|]. f_equal; lia.
Qed.

(** [strncmp] is a total preorder on blocks that are long enough. *)
Lemma strncmp_antisym a b n : strncmp b a n = - strncmp a b n.
Proof.
  revert a b. induction n as [|n IH]; intros [|x a] [|y b]; simpl; try done.
  destruct (Z.eqb_spec x y) as [->|]; simpl.
  - rewrite Z.eqb_refl; simpl. destruct (y =? 0); [done|apply IH].
  - destruct (Z.eqb_spec y x); simpl; lia.
Qed.

Lemma strncmp_trans a b c n :
  (n <= length a)%nat -> (n <= length b)%nat -> (n <= length c)%nat ->
  strncmp a b n <= 0 -> strncmp b c n <= 0 ->
  strncmp a c n <= 0 /\ (strncmp a c n = 0 -> strncmp a b n = 0 /\ strncmp b c n = 0).
Proof.
  revert a b c. induction n as [|n IH]; intros [|x a] [|y b] [|z c]; simpl; try lia.
  intros Ha Hb Hc. destruct (Z.eqb_spec x y) as [->|]; simpl.
  - destruct (Z.eqb_spec y z) as [->|]; simpl; [|lia].
    destruct (z =? 0); simpl; [lia|]. apply IH; lia.
  - destruct (Z.eqb_spec y z) as [->|]; simpl.
    + destruct (Z.eqb_spec x z); simpl; [lia|]. lia.
    + destruct (Z.eqb_spec x z); simpl; lia.
Qed.

(** Types whose comparison is an order. *)
Definition ordered_type (t : AttrType) : bool :=
  match t with INTS | CHARS | DATES => true | _ => false end.

Definition key_block (attr_length : Z) (k : list Z) : Prop := 4 <= attr_length /\ attr_length + 8 <= alen k.

Lemma CompareKey_antisym t l a b : ordered_type t = true -> CompareKey b a t l = - CompareKey a b t l.
Proof.
  destruct t; try done; intros _; simpl; try apply strncmp_antisym.
  destruct (Z.ltb_spec (rd32 a 0) (rd32 b 0)), (Z.ltb_spec (rd32 b 0) (rd32 a 0)); lia.
Qed.

Lemma CompareKey_trans t l a b c :
  ordered_type t = true -> key_block l a -> key_block l b -> key_block l c ->
  CompareKey a b t l <= 0 -> CompareKey b c t l <= 0 ->
  CompareKey a c t l <= 0 /\ (CompareKey a c t l = 0 -> CompareKey a b t l = 0 /\ CompareKey b c t l = 0).
Proof.
  intros Ht [Hl Ha] [_ Hb] [_ Hc]. unfold alen in *.
  destruct t; try done; simpl; try (apply strncmp_trans; lia).
  destruct (Z.ltb_spec (rd32 b 0) (rd32 a 0)); [lia|]. destruct (Z.ltb_spec (rd32 c 0) (rd32 b 0)); [lia|].
  destruct (Z.ltb_spec (rd32 a 0) (rd32 b 0)), (Z.ltb_spec (rd32 b 0) (rd32 c 0)),
    (Z.ltb_spec (rd32 a 0) (rd32 c 0)), (Z.ltb_spec (rd32 c 0) (rd32 a 0)); lia.
Qed.

Lemma CmpKey_sign t l a b :
  CmpKey t l a b <= 0 <->
  CompareKey a b t l < 0 \/ CompareKey a b t l = 0 /\ CmpRid (rid_at a l) (rid_at b l) <= 0.
Proof. unfold CmpKey. destruct (Z.eqb_spec 0 (CompareKey a b t l)); simpl; lia. Qed.

Lemma CmpKey_zero t l a b :
  CmpKey t l a b = 0 <-> CompareKey a b t l = 0 /\ rid_at a l = rid_at b l.
Proof.
  unfold CmpKey. destruct (Z.eqb_spec 0 (CompareKey a b t l)) as [<-|]; simpl; [|split; [lia|naive_solver]].
  destruct (CmpRid_spec (rid_at a l) (rid_at b l)) as [[-> ?]|[[-> ?]|[-> ?]]]; [done|..];
    (split; [done|intros [_ E]; rewrite E in *; lia]).
Qed.

(** The laws of the order of keys. *)
Lemma CmpKey_order t l a b c :
  ordered_type t = true -> key_block l a -> key_block l b -> key_block l c ->
  CmpKey t l b a = - CmpKey t l a b /\
  (CmpKey t l a b <= 0 -> CmpKey t l b c <= 0 -> CmpKey t l a c <= 0) /\
  (CmpKey t l a b < 0 -> CmpKey t l b c <= 0 -> CmpKey t l a c < 0) /\
  (CmpKey t l a b = 0 <-> CompareKey a b t l = 0 /\ rid_at a l = rid_at b l).
Proof.
  intros Ht Ha Hb Hc.
  assert (Hanti : CmpKey t l b a = - CmpKey t l a b).
  { unfold CmpKey. rewrite (CompareKey_antisym t l a b Ht).
    destruct (Z.eqb_spec 0 (- CompareKey a b t l)), (Z.eqb_spec 0 (CompareKey a b t l)); simpl; try lia.
    destruct (CmpRid_spec (rid_at a l) (rid_at b l)) as [[-> E]|[[-> ?]|[-> ?]]],
      (CmpRid_spec (rid_at b l) (rid_at a l)) as [[-> E']|[[-> ?]|[-> ?]]];
      rewrite ?E, ?E' in *; lia. }
  assert (Htrans : CmpKey t l a b <= 0 -> CmpKey t l b c <= 0 -> CmpKey t l a c <= 0 /\
    (CmpKey t l a c = 0 -> CmpKey t l a b = 0)).
  { rewrite !CmpKey_sign, !CmpKey_zero. intros H1 H2.
    destruct (CompareKey_trans t l a b c Ht Ha Hb Hc) as [Hle Hz]; [lia|lia|].
    pose proof (CmpRid_spec (rid_at a l) (rid_at b l)) as R1.
    pose proof (CmpRid_spec (rid_at b l) (rid_at c l)) as R2.
    pose proof (CmpRid_spec (rid_at a l) (rid_at c l)) as R3.
    generalize dependent (rid_at a l). generalize dependent (rid_at b l). generalize dependent (rid_at c l).
    intros rc rb H2 R2 ra H1 R1 R3. split.
    - destruct (decide (CompareKey a c t l = 0)) as [E|]; [destruct (Hz E)|lia].
      right. split; [done|]. destruct R1 as [[? E1]|R1], R2 as [[? E2]|R2]; subst; lia.
    - intros [Hc0 ->]. destruct (Hz Hc0). split; [done|].
      destruct R1 as [[? E1]|R1], R2 as [[? E2]|R2]; subst; done || lia. }
  split_and!; [done|tauto| |apply CmpKey_zero].
  intros H1 H2. destruct Htrans as [H3 H4]; [lia|lia|]. lia.
Qed.

(** C31. For integers, strings and dates, in attributes of at least four bytes ([key_block]), [CmpKey] is a total
    order on keys: antisymmetric, transitive, and 0 exactly for equal attributes with equal RIDs. *)
Theorem CmpKey_total_order t l a b c :
  ordered_type t = true -> key_block l a -> key_block l b -> key_block l c ->
  CmpKey t l b a = - CmpKey t l a b /\
  (CmpKey t l a b <= 0 -> CmpKey t l b c <= 0 -> CmpKey t l a c <= 0) /\
  (CmpKey t l a b < 0 -> CmpKey t l b c <= 0 -> CmpKey t l a c < 0) /\
  (CmpKey t l a b = 0 <-> CompareKey a b t l = 0 /\ rid_at a l = rid_at b l).
Proof. apply CmpKey_order. Qed.

Definition demo_key (v slot : Z) : list Z := le32 v ++ rid_bytes {| page_num := 1; slot_num := slot |}.

Lemma CmpKey_total_order_witness : CmpKey INTS 4 (demo_key 3 0) (demo_key 5 1) <= 0.
Proof.
  assert (Hb : forall v s, key_block 4 (demo_key v s)) by (intros; split; vm_compute; discriminate).
  apply (CmpKey_total_order INTS 4 (demo_key 3 0) (demo_key 3 7) (demo_key 5 1) eq_refl (Hb 3 0) (Hb 3 7) (Hb 5 1));
    vm_compute; discriminate.
Defined.

(** For floats it is not: the tolerance makes 0 and 8e-7 equal, 8e-7 and 1.6e-6 equal,
    and 0 smaller than 1.6e-6; so a leaf sorted by insertion need not be sorted. *)
Theorem float_compare_not_transitive :
  let a := float_of_bits 0 in
  let b := float_of_bits 894877589 in          (* 8e-7f *)
  let c := float_of_bits 903266197 in          (* 1.6e-6f *)
  float_compare a b = 0 /\ float_compare b c = 0 /\ float_compare a c = -1.
Proof. vm_compute. done. Qed.

(** The scanner's condition agrees with the comparison of keys by which the index is
    ordered, for every type that can be indexed except floats, whose [<] and [>] have no
    tolerance. *)
Theorem satisfy_condition_compare op t l pkey value :
  ordered_type t = true ->
  let c := CompareKey pkey value t l in
  satisfy_condition op t l pkey value =
    match op with
    | EQUAL_TO => c =? 0 | NOT_EQUAL => negb (c =? 0)
    | LESS_THAN => c <? 0 | LESS_EQUAL => c <=? 0
    | GREAT_THAN => 0 <? c | GREAT_EQUAL => 0 <=? c
    | NO_OP => true
    | _ => false
    end.
Proof.
  intros Ht c. unfold c. destruct t; try done; destruct op; try done; simpl.
  all: destruct (Z.ltb_spec (rd32 value 0) (rd32 pkey 0)); simpl;
    try (destruct (Z.ltb_spec (rd32 pkey 0) (rd32 value 0)); simpl);
    try (destruct (Z.eqb_spec (rd32 pkey 0) (rd32 value 0)); simpl);
    try (destruct (Z.leb_spec (rd32 pkey 0) (rd32 value 0)); simpl);
    try (destruct (Z.leb_spec (rd32 value 0) (rd32 pkey 0)); simpl); try done; try lia.
Qed.

Lemma satisfy_condition_compare_witness :
  satisfy_condition LESS_THAN INTS 4 (demo_key 3 0) (le32 5) = true.
Proof.
  rewrite (satisfy_condition_compare LESS_THAN INTS 4 (demo_key 3 0) (le32 5) eq_refl).
  vm_compute; reflexivity.
Defined.
