(* ===== verification/BTreeNode.v ===== *)
(** * Nodes of the B+ tree (storage/common/bplus_tree.h, .cpp)

    An index page holds an IndexFileHeader (used on page 1 only), an IndexNode, [order]
    keys and [order] RIDs.  The functions of BplusTreeHandler change one to three nodes
    at a time; these changes are functions on the bytes of the pages here, with the loops
    of the source.  [keys] and [rids] of IndexNode are pointers that [get_index_node]
    recomputes before each use: the model computes the positions and does not store them. *)
From S2P Require Import Prelude Bitmap Memory OsFile RecordPage KeyCompare.

Record IndexFileHeader := {
  attr_length : Z;
  key_length : Z;
  attr_type : Z;            (* the code of an AttrType *)
  root_page : Z;
  node_num : Z;
  order : Z
}.

Definition sizeof_IndexFileHeader : Z := 24.
Definition sizeof_IndexNode : Z := 32.
Definition sizeof_RID : Z := 8.

(** [memcpy(&file_header_, pdata, sizeof(IndexFileHeader))] and the stores of [create]. *)
Definition read_header (d : list Z) : IndexFileHeader :=
  {| attr_length := rd32 d 0; key_length := rd32 d 4; attr_type := rd32 d 8;
     root_page := rd32 d 12; node_num := rd32 d 16; order := rd32 d 20 |}.

Definition write_header (h : IndexFileHeader) (d : list Z) : list Z :=
  let d := wr32 d 0 (attr_length h) in
  let d := wr32 d 4 (key_length h) in
  let d := wr32 d 8 (attr_type h) in
  let d := wr32 d 16 (node_num h) in
  let d := wr32 d 20 (order h) in
  wr32 d 12 (root_page h).

(** The order for attributes of [len] bytes: the division is one of [size_t]. *)
Definition order_of (len : Z) : Z :=
  int32 ((BP_PAGE_DATA_SIZE - sizeof_IndexFileHeader - sizeof_IndexNode)
         / ((len + 2 * sizeof_RID) mod 2 ^ 64)).

Definition new_header (type len page_num : Z) : IndexFileHeader :=
  {| attr_length := len; key_length := int32 (len + sizeof_RID); attr_type := type;
     root_page := page_num; node_num := 1; order := order_of len |}.

(** ** Access to a node *)

Definition is_leaf (d : list Z) : Z := rd32 d 24.
Definition key_num (d : list Z) : Z := rd32 d 28.
Definition parent (d : list Z) : Z := rd32 d 32.
Definition set_is_leaf (v : Z) (d : list Z) : list Z := wr32 d 24 v.
Definition set_key_num (v : Z) (d : list Z) : list Z := wr32 d 28 (int32 v).
Definition set_parent (v : Z) (d : list Z) : list Z := wr32 d 32 v.

Section node.
Context (h : IndexFileHeader).

Definition keys_off : Z := sizeof_IndexFileHeader + sizeof_IndexNode.
Definition rids_off : Z := keys_off + order h * key_length h.

Definition key_at (d : list Z) (i : Z) : list Z := load d (keys_off + i * key_length h) (key_length h).
Definition set_key (i : Z) (k : list Z) (d : list Z) : list Z := put d (keys_off + i * key_length h) k.
Definition rid_of (d : list Z) (i : Z) : RID := rid_at d (rids_off + i * sizeof_RID).
Definition set_rid (i : Z) (r : RID) (d : list Z) : list Z := put d (rids_off + i * sizeof_RID) (rid_bytes r).

(** [rids[i].page_num]: a child of an inner node, the next leaf in slot [order - 1]. *)
Definition child (d : list Z) (i : Z) : Z := page_num (rid_of d i).
Definition next_leaf (d : list Z) : Z := child d (order h - 1).

Definition child_rid (pn : Z) : RID := {| page_num := pn; slot_num := -1 |}.

Definition cmp (a b : list Z) : Z := CmpKey (attr_of_code (attr_type h)) (attr_length h) a b.

(** The search key: the attribute, then the RID. *)
Definition make_key (pkey : list Z) (rid : RID) : list Z :=
  take (Z.to_nat (attr_length h)) pkey ++ rid_bytes rid.

(** ** Searches inside a node *)

(** The first slot whose key is greater than [pkey]: [find_leaf] and the splits. *)
Definition upper_slot (pkey : list Z) (d : list Z) : Z :=
  scan 0 (key_num d) (fun i => cmp pkey (key_at d i) <? 0).

(** The first slot whose key is not smaller than [pkey]: [insert_into_leaf]. *)
Definition lower_slot (pkey : list Z) (d : list Z) : Z :=
  scan 0 (key_num d) (fun i => cmp pkey (key_at d i) <=? 0).

(** The slot of an equal key, [key_num] if there is none. *)
Definition equal_slot (pkey : list Z) (d : list Z) : Z :=
  scan 0 (key_num d) (fun i => cmp pkey (key_at d i) =? 0).

(** [while (pos <= key_num && rids[pos].page_num != page) pos++]. *)
Definition child_slot (page : Z) (d : list Z) : Z :=
  scan 0 (key_num d + 1) (fun i => child d i =? page).

(** [for (k = 0; k < parent->key_num; k++) if (rids[k].page_num == page) break;]. *)
Definition separator_slot (page : Z) (d : list Z) : Z :=
  scan 0 (key_num d) (fun i => child d i =? page).

(** ** Insertion into a leaf *)

Definition shift_right (pos : Z) (d : list Z) : list Z :=
  for_down (Z.to_nat (key_num d - pos)) (key_num d)
    (fun i d => set_rid i (rid_of d (i - 1)) (set_key i (key_at d (i - 1)) d)) d.

Definition leaf_insert (pos : Z) (pkey : list Z) (rid : RID) (d : list Z) : list Z :=
  let d := shift_right pos d in
  let d := set_rid pos rid (set_key pos pkey d) in
  set_key_num (key_num d + 1) d.

(** [temp_keys] and [temp_pointers] of a leaf split: the entries with the new one between.
    [j] runs ahead of [i] by one behind the insert position. *)
Definition leaf_temp (pos : Z) (pkey : list Z) (rid : RID) (leaf : list Z) : list (list Z) * list RID :=
  let '(_, tk, tp) :=
    for_range 0 (key_num leaf)
      (fun i '(j, tk, tp) =>
         let j := if j =? pos then j + 1 else j in
         (j + 1, aset tk j (key_at leaf i), aset tp j (rid_of leaf i)))
      (0, replicate (Z.to_nat (order h)) [], replicate (Z.to_nat (order h + 1)) inhabitant) in
  (aset tk pos pkey, aset tp pos rid).

(** Copies [n] keys and RIDs from position [from] of the temporary arrays to the front of
    a node. *)
Definition copy_entries (from n : Z) (t : list (list Z) * list RID) (d : list Z) : list Z :=
  for_range 0 n
    (fun j d => set_rid j (aget t.2 (from + j)) (set_key j (aget t.1 (from + j)) d)) d.

(** [insert_into_leaf_after_split] on the bytes of the leaf and of the new page. *)
Definition leaf_split (pkey : list Z) (rid : RID) (new_page : Z) (leaf new_node : list Z)
    : list Z * list Z :=
  let new_node := set_parent (parent leaf) (set_is_leaf 1 (set_key_num 0 new_node)) in
  let t := leaf_temp (upper_slot pkey leaf) pkey rid leaf in
  let split := Z.quot (order h) 2 in
  let leaf := set_key_num split (copy_entries 0 split t leaf) in
  let new_node := set_key_num (order h - split) (copy_entries split (order h - split) t new_node) in
  let new_node := set_rid (order h - 1) (rid_of leaf (order h - 1)) new_node in
  (set_rid (order h - 1) (child_rid new_page) leaf, new_node).

(** ** Insertion into an inner node *)

(** [insert_intern_node]. *)
Definition inner_insert (left_page right_page : Z) (pkey : list Z) (d : list Z) : list Z :=
  let pos := child_slot left_page d in
  let d := for_down (Z.to_nat (key_num d - pos)) (key_num d)
    (fun i d => set_key i (key_at d (i - 1)) (set_rid (i + 1) (rid_of d i) d)) d in
  let d := set_key pos pkey (set_rid (pos + 1) (child_rid right_page) d) in
  set_key_num (key_num d + 1) d.

Definition inner_temp (left_page right_page : Z) (pkey : list Z) (d : list Z) : list (list Z) * list RID :=
  let pos := child_slot left_page d in
  let '(_, tp) :=
    for_range 0 (key_num d + 1)
      (fun i '(j, tp) => let j := if j =? pos + 1 then j + 1 else j in (j + 1, aset tp j (rid_of d i)))
      (0, replicate (Z.to_nat (order h + 1)) inhabitant) in
  let '(_, tk) :=
    for_range 0 (key_num d)
      (fun i '(j, tk) => let j := if j =? pos then j + 1 else j in (j + 1, aset tk j (key_at d i)))
      (0, replicate (Z.to_nat (order h)) []) in
  (aset tk pos pkey, aset tp (pos + 1) (child_rid right_page)).

(** [insert_intern_node_after_split] on the bytes of the node and of the new page; the
    third component is the key that moves up. *)
Definition inner_split (left_page right_page : Z) (pkey : list Z) (inter new_node : list Z)
    : list Z * list Z * list Z :=
  let new_node := set_parent (parent inter) (set_is_leaf 0 (set_key_num 0 new_node)) in
  let t := inner_temp left_page right_page pkey inter in
  let split := Z.quot (order h + 1) 2 in
  let inter := set_key_num (split - 1) (copy_entries 0 (split - 1) t inter) in
  let inter := set_rid (split - 1) (aget t.2 (split - 1)) inter in
  let new_node := copy_entries split (order h - split) t new_node in
  let new_node := set_key_num (order h - split) new_node in
  let new_node := set_rid (order h - split) (aget t.2 (order h)) new_node in
  (inter, new_node, aget t.1 (split - 1)).

(** The page of [insert_into_new_root]. *)
Definition new_root (left_page right_page : Z) (pkey : list Z) (d : list Z) : list Z :=
  let d := set_parent (-1) (set_key_num 1 (set_is_leaf 0 d)) in
  set_rid 1 (child_rid right_page) (set_rid 0 (child_rid left_page) (set_key 0 pkey d)).

(** ** Deletion *)

(** [delete_entry_from_node] at slot [pos]. *)
Definition remove_entry (pos : Z) (d : list Z) : list Z :=
  let n := key_num d in
  let d := for_range pos (n - 1) (fun i d => set_key i (key_at d (i + 1)) d) d in
  let d :=
    if negb (is_leaf d =? 0) then for_range pos (n - 1) (fun i d => set_rid i (rid_of d (i + 1)) d) d
    else for_range (pos + 1) n (fun i d => set_rid i (rid_of d (i + 1)) d) d in
  set_key_num (n - 1) d.

(** Appends the entries of [right] to [left] from slot [start] on. *)
Definition append_entries (start : Z) (right left : list Z) : list Z :=
  for_range 0 (key_num right)
    (fun j d => set_key_num (key_num d + 1)
                  (set_rid (start + j) (rid_of right j) (set_key (start + j) (key_at right j) d))) left.

(** [coalesce_node] on the bytes of the left node: [sep] is the separator in the parent. *)
Definition coalesce (sep : list Z) (right left : list Z) : list Z :=
  let start := key_num left in
  if is_leaf left =? 0 then
    let left := set_key_num (key_num left + 1) (set_key start sep left) in
    let left := append_entries (start + 1) right left in
    set_rid (start + 1 + key_num right) (rid_of right (key_num right)) left
  else
    let left := append_entries start right left in
    set_rid (order h - 1) (rid_of right (order h - 1)) left.

(** Removes the first entry of a node: the loop that moves the others to the left. *)
Definition shift_left (d : list Z) : list Z :=
  let n := key_num d in
  set_key_num (n - 1)
    (for_range 0 (n - 1) (fun i d => set_rid i (rid_of d (i + 1)) (set_key i (key_at d (i + 1)) d)) d).

(** The four cases of [redistribute_nodes] on the bytes of left, right and parent;
    [k] is the slot of the separator. *)
Definition redistribute_leaf_from_right (k : Z) (left right par : list Z) : list Z * list Z * list Z :=
  let n := key_num left in
  let left := set_rid n (rid_of right 0) (set_key n (key_at right 0) left) in
  let left := set_key_num (n + 1) left in
  let right := shift_left right in
  (left, right, set_key k (key_at right 0) par).

Definition redistribute_leaf_from_left (k : Z) (left right par : list Z) : list Z * list Z * list Z :=
  let right := shift_right 0 right in
  let right := set_key 0 (key_at left (key_num left - 1)) right in
  let left := set_key_num (key_num left - 1) left in
  let right := set_key_num (key_num right + 1) right in
  (left, right, set_key k (key_at right 0) par).

Definition redistribute_inner_from_right (k : Z) (left right par : list Z) : list Z * list Z * list Z :=
  let n := key_num left in
  let left := set_key n (key_at par k) left in
  let left := set_rid (n + 1) (rid_of right 0) left in
  let left := set_key_num (n + 1) left in
  let par := set_key k (key_at right 0) par in
  (left, shift_left right, par).

Definition redistribute_inner_from_left (k : Z) (left right par : list Z) : list Z * list Z * list Z :=
  let right := shift_right 0 right in
  let right := set_key 0 (key_at par k) right in
  let right := set_rid 0 (rid_of left (key_num left)) right in
  let right := set_key_num (key_num right + 1) right in
  let par := set_key k (key_at left (key_num left - 1)) par in
  (set_key_num (key_num left - 1) left, right, par).

Definition min_key_leaf : Z := Z.quot (order h) 2.
Definition min_key_inner : Z := Z.quot (order h + 1) 2 - 1.
Definition min_key (d : list Z) : Z := if negb (is_leaf d =? 0) then min_key_leaf else min_key_inner.

Definition redistribute (k : Z) (left right par : list Z) : list Z * list Z * list Z :=
  if negb (is_leaf left =? 0) then
    if key_num left <? min_key_leaf then redistribute_leaf_from_right k left right par
    else redistribute_leaf_from_left k left right par
  else
    if key_num left <? min_key_inner then redistribute_inner_from_right k left right par
    else redistribute_inner_from_left k left right par.

End node.
