(* ===== verification/BTree.v ===== *)
(** * B+ tree index (storage/common/bplus_tree.h, .cpp): BplusTreeHandler

    The functions of BplusTreeHandler over the buffer pool.  [BT] is the pool with the
    fields of the handler.  An early return leaves the pages pinned that were pinned, as in
    the source.  The loops along the tree and the mutual recursion between a function
    and its caller one level up take a fuel argument, which bounds the number of pages
    visited.  [malloc] does not fail here. *)
From S2P Require Import Prelude ReturnCode Effects Bitmap Memory Replacer OsFile BufferPool.
From S2P Require Import RecordPage KeyCompare BTreeNode.
From Stdlib Require Import String.

Section BplusTree.
Context {R W : Type} `{Replacer R} `{OS W} `{HashOrder}.

Record BT := {
  bt_pool : Pool R W;
  bt_open : bool;               (* disk_buffer_pool_ != nullptr *)
  bt_file_id : Z;
  header_dirty_ : bool;
  file_header_ : IndexFileHeader
}.

Definition set_bt_pool p (s : BT) : BT :=
  {| bt_pool := p; bt_open := bt_open s; bt_file_id := bt_file_id s;
     header_dirty_ := header_dirty_ s; file_header_ := file_header_ s |}.

Definition lift {A} (m : M (Pool R W) A) : M BT A := fun s =>
  let '(r, p) := m (bt_pool s) in (r, set_bt_pool p s).

Definition header : M BT IndexFileHeader := gets file_header_.

(** [file_header_.root_page = page; header_dirty_ = true;]. *)
Definition set_root (page : Z) : M BT unit :=
  modify (fun s =>
    let h := file_header_ s in
    {| bt_pool := bt_pool s; bt_open := bt_open s; bt_file_id := bt_file_id s; header_dirty_ := true;
       file_header_ := {| attr_length := attr_length h; key_length := key_length h;
                          attr_type := attr_type h; root_page := page; node_num := node_num h;
                          order := order h |} |}).

(** ** Pages: a pinned page is its handle and its frame *)

(** [file_id_], for a call through [disk_buffer_pool_]: a null pointer when the index is not open. *)
Definition pool_file : M BT Z :=
  let! opened := gets bt_open in
  undefined_if (negb opened) ;;
  gets bt_file_id.

(** [get_this_page] followed by [get_data]. *)
Definition get_node (page : Z) : M BT (BPPageHandle * Z) :=
  let! id := pool_file in
  let! hd := lift (get_this_page id page) in
  let! f := lift (get_data hd) in
  ret (hd, f).

(** [allocate_page], [get_data] and [get_page_num]. *)
Definition new_node : M BT (BPPageHandle * Z * Z) :=
  let! id := pool_file in
  let! hd := lift (allocate_page id) in
  let! f := lift (get_data hd) in
  let! pn := lift (get_page_num hd) in
  ret (hd, f, pn).

Definition node (f : Z) : M BT (list Z) := gets (fun s => data_of f (bt_pool s)).
Definition write (f : Z) (d : list Z) : M BT unit :=
  modify (fun s => set_bt_pool (upd_data f (fun _ => d) (bt_pool s)) s).

Definition bt_mark_dirty (hd : BPPageHandle) : M BT unit := lift (mark_dirty hd).
Definition bt_unpin (hd : BPPageHandle) : M BT unit := let! _ := lift (unpin_page hd) in ret tt.
Definition bt_dispose (page : Z) : M BT unit :=
  let! id := pool_file in lift (dispose_page id page).

(** [mark_dirty] and [unpin_page]. *)
Definition release_dirty (hd : BPPageHandle) : M BT unit := bt_mark_dirty hd ;; bt_unpin hd.

(** Fetches a page, changes it and releases it: the updates of a [parent] field. *)
Definition update_page (page : Z) (g : list Z -> list Z) : M BT unit :=
  let! (hd, f) := get_node page in
  let! d := node f in
  write f (g d) ;;
  release_dirty hd.

(** ** Opening and closing *)

Definition sync : M BT unit := let! id := pool_file in lift (flush_all_pages id).

Definition create (file_name : string) (type len : Z) : M BT unit :=
  lift (create_file file_name) ;;
  let! file_id := lift (open_file file_name) in
  let! hd := lift (allocate_page file_id) in
  let! f := lift (get_data hd) in
  let! pn := lift (get_page_num hd) in
  undefined_if ((len + 2 * sizeof_RID) mod 2 ^ 64 =? 0) ;;
  let h := new_header type len pn in
  let! d := node f in
  write f (set_parent (-1) (set_key_num 0 (set_is_leaf 1 (write_header h d)))) ;;
  lift (mark_dirty hd) ;;
  let! _ := lift (unpin_page hd) in
  modify (fun s => {| bt_pool := bt_pool s; bt_open := true; bt_file_id := file_id;
                      header_dirty_ := false;
                      file_header_ := read_header (data_of f (bt_pool s)) |}).

Definition open (file_name : string) : M BT unit :=
  let! opened := gets bt_open in
  fail_if opened RECORD_OPENNED ;;
  let! file_id := lift (open_file file_name) in
  let! hd := lift (get_this_page file_id 1) in
  let! f := lift (get_data hd) in
  modify (fun s => {| bt_pool := bt_pool s; bt_open := true; bt_file_id := file_id;
                      header_dirty_ := false;
                      file_header_ := read_header (data_of f (bt_pool s)) |}) ;;
  bt_unpin hd.

(** The return codes of [sync] and [close_file] are not looked at. *)
Definition close : M BT unit :=
  let! _ := rc_of sync in
  let! id := pool_file in
  let! _ := rc_of (lift (close_file id)) in
  modify (fun s => {| bt_pool := bt_pool s; bt_open := false; bt_file_id := -1;
                      header_dirty_ := header_dirty_ s; file_header_ := file_header_ s |}).

(** ** Search *)

(** The loop of [find_leaf] from a pinned node on. *)
Fixpoint descend (fuel : nat) (pkey : list Z) (x : BPPageHandle * Z) : M BT Z :=
  let '(hd, f) := x in
  let! h := header in
  let! d := node f in
  if is_leaf d =? 0 then
    match fuel with
    | O => no_fuel
    | S fuel' =>
        let i := upper_slot h pkey d in
        bt_unpin hd ;;
        let! y := get_node (child h d i) in
        descend fuel' pkey y
    end
  else
    let! leaf_page := lift (get_page_num hd) in
    bt_unpin hd ;;
    ret leaf_page.

Definition find_leaf (fuel : nat) (pkey : list Z) : M BT Z :=
  let! h := header in
  let! x := get_node (root_page h) in
  descend fuel pkey x.

(** ** Insertion *)

(** A key that is already there: the page stays pinned. *)
Definition insert_into_leaf (leaf_page : Z) (pkey : list Z) (rid : RID) : M BT unit :=
  let! h := header in
  let! (hd, f) := get_node leaf_page in
  let! d := node f in
  let pos := lower_slot h pkey d in
  fail_if ((pos <? key_num d) && (cmp h pkey (key_at h d pos) =? 0)) RECORD_DUPLICATE_KEY ;;
  write f (leaf_insert h pos pkey rid d) ;;
  release_dirty hd.

Definition insert_intern_node (parent_page left_page right_page : Z) (pkey : list Z) : M BT unit :=
  let! h := header in
  update_page parent_page (inner_insert h left_page right_page pkey).

Definition insert_into_new_root (left_page : Z) (pkey : list Z) (right_page : Z) : M BT unit :=
  let! h := header in
  let! (hd, f, root) := new_node in
  let! d := node f in
  write f (new_root h left_page right_page pkey d) ;;
  release_dirty hd ;;
  update_page left_page (set_parent root) ;;
  update_page right_page (set_parent root) ;;
  set_root root.

(** The loop over the children that moved: [i] to [last], read from the node in frame [f]. *)
Fixpoint adopt (n : nat) (i : Z) (f page : Z) : M BT unit :=
  match n with
  | O => ret tt
  | S n' =>
      let! h := header in
      let! d := node f in
      update_page (child h d i) (set_parent page) ;;
      adopt n' (i + 1) f page
  end.

(** [insert_intern_node_after_split]; [up] is [insert_into_parent]. *)
Definition insert_intern_node_after_split (up : Z -> Z -> list Z -> Z -> M BT unit)
    (inter_page left_page right_page : Z) (pkey : list Z) : M BT unit :=
  let! h := header in
  let! (hd1, f1) := get_node inter_page in
  let! (hd2, f2, new_page) := new_node in
  let! inter := node f1 in
  let! new := node f2 in
  let parent_page := parent inter in
  let '(inter', new', new_key) := inner_split h left_page right_page pkey inter new in
  write f1 inter' ;;
  write f2 new' ;;
  adopt (Z.to_nat (key_num new' + 1)) 0 f2 new_page ;;
  release_dirty hd1 ;;
  release_dirty hd2 ;;
  up parent_page inter_page new_key new_page.

Fixpoint insert_into_parent (fuel : nat) (parent_page left_page : Z) (pkey : list Z) (right_page : Z)
    : M BT unit :=
  if parent_page =? -1 then insert_into_new_root left_page pkey right_page
  else
    match fuel with
    | O => no_fuel
    | S fuel' =>
        let! h := header in
        let! (hd, f) := get_node parent_page in
        let! d := node f in
        let full := negb (key_num d <? order h - 1) in
        bt_unpin hd ;;
        if full then
          insert_intern_node_after_split (insert_into_parent fuel') parent_page left_page right_page pkey
        else insert_intern_node parent_page left_page right_page pkey
    end.

Definition insert_into_leaf_after_split (fuel : nat) (leaf_page : Z) (pkey : list Z) (rid : RID)
    : M BT unit :=
  let! h := header in
  let! (hd1, f1) := get_node leaf_page in
  let! (hd2, f2, new_page) := new_node in
  let! leaf := node f1 in
  let! new := node f2 in
  let parent_page := parent leaf in
  let '(leaf', new') := leaf_split h pkey rid new_page leaf new in
  write f1 leaf' ;;
  write f2 new' ;;
  let new_key := key_at h new' 0 in
  release_dirty hd1 ;;
  release_dirty hd2 ;;
  insert_into_parent fuel parent_page leaf_page new_key new_page.

(** The return code of the split is dropped. *)
Definition insert_entry (fuel : nat) (pkey : list Z) (rid : RID) : M BT unit :=
  let! opened := gets bt_open in
  fail_if (negb opened) RECORD_CLOSED ;;
  let! h := header in
  let key := make_key h pkey rid in
  let! leaf_page := find_leaf fuel key in
  let! (hd, f) := get_node leaf_page in
  let! d := node f in
  let full := negb (key_num d <? order h - 1) in
  bt_unpin hd ;;
  if full then
    let! _ := rc_of (insert_into_leaf_after_split fuel leaf_page key rid) in ret tt
  else insert_into_leaf leaf_page key rid.

(** The page stays pinned on every return. *)
Definition get_entry (fuel : nat) (pkey : list Z) (rid : RID) : M BT RID :=
  let! h := header in
  let key := make_key h pkey rid in
  let! leaf_page := find_leaf fuel key in
  let! (hd, f) := get_node leaf_page in
  let! d := node f in
  let i := equal_slot h key d in
  if i <? key_num d then ret (rid_of h d i) else fail RECORD_INVALID_KEY.

(** ** Deletion *)

Definition delete_entry_from_node (node_page : Z) (pkey : list Z) : M BT unit :=
  let! h := header in
  let! (hd, f) := get_node node_page in
  let! d := node f in
  let i := equal_slot h pkey d in
  fail_if (key_num d <=? i) RECORD_INVALID_KEY ;;
  write f (remove_entry h i d) ;;
  release_dirty hd.

(** [coalesce_node]; [up] is [delete_entry_internal]. *)
Definition coalesce_node (up : Z -> list Z -> M BT unit) (left_page right_page : Z) : M BT unit :=
  let! h := header in
  let! (hl, fl) := get_node left_page in
  let! (hr, fr) := get_node right_page in
  let! ln := node fl in
  let parent_page := parent ln in
  let! (hp, fp) := get_node parent_page in
  let! rn := node fr in
  let! par := node fp in
  let k := separator_slot h left_page par in
  let sep := key_at h par k in
  let ln' := coalesce h sep rn ln in
  write fl ln' ;;
  (if is_leaf ln =? 0 then
     adopt (Z.to_nat (key_num ln' - key_num ln)) (key_num ln + 1) fl left_page
   else ret tt) ;;
  let! par := node fp in
  let tmp_key := key_at h par k in
  release_dirty hl ;;
  bt_unpin hr ;;
  bt_dispose right_page ;;
  bt_unpin hp ;;
  up parent_page tmp_key.

Definition redistribute_nodes (left_page right_page : Z) : M BT unit :=
  let! h := header in
  let! (hl, fl) := get_node left_page in
  let! (hr, fr) := get_node right_page in
  let! ln := node fl in
  let! (hp, fp) := get_node (parent ln) in
  let! rn := node fr in
  let! par := node fp in
  let k := separator_slot h left_page par in
  let '(ln', rn', par') := redistribute h k ln rn par in
  write fl ln' ;;
  write fr rn' ;;
  write fp par' ;;
  (if is_leaf ln =? 0 then
     if key_num ln <? min_key_inner h then update_page (child h ln' (key_num ln')) (set_parent left_page)
     else update_page (child h rn' 0) (set_parent right_page)
   else ret tt) ;;
  release_dirty hl ;;
  release_dirty hr ;;
  release_dirty hp.

(** The root has lost an entry: a root without keys gives way to its only child. *)
Definition shrink_root (hd : BPPageHandle) (f page : Z) : M BT unit :=
  let! h := header in
  let! d := node f in
  if (key_num d =? 0) && (is_leaf d =? 0) then
    update_page (child h d 0) (set_parent (-1)) ;;
    let! d := node f in
    set_root (child h d 0) ;;
    bt_unpin hd ;;
    bt_dispose page
  else bt_unpin hd.

(** The end of [delete_entry_internal] for a node with too few keys: [page] is the node, [hd] its
    handle, [d] its bytes. *)
Definition rebalance (up : Z -> list Z -> M BT unit) (hd : BPPageHandle) (d : list Z) (page : Z) : M BT unit :=
  let! h := header in
  let min := min_key h d in
  let! (hp, fp) := get_node (parent d) in
  let! par := node fp in
  let i := child_slot h page par in
  let sibling := if i =? 0 then child h par (i + 1) else child h par (i - 1) in
  let! (hs, fs) := get_node sibling in
  let! sib := node fs in
  let enough := min <? key_num sib in
  bt_unpin hd ;;
  bt_unpin hp ;;
  bt_unpin hs ;;
  let '(left_page, right_page) := if i =? 0 then (page, sibling) else (sibling, page) in
  if enough then redistribute_nodes left_page right_page
  else coalesce_node up left_page right_page.

Fixpoint delete_entry_internal (fuel : nat) (page : Z) (pkey : list Z) : M BT unit :=
  match fuel with
  | O => no_fuel
  | S fuel' =>
      delete_entry_from_node page pkey ;;
      let! h := header in
      let! (hd, f) := get_node page in
      let! d := node f in
      if parent d =? -1 then shrink_root hd f page
      else if min_key h d <=? key_num d then bt_unpin hd
      else rebalance (delete_entry_internal fuel') hd d page
  end.

Definition delete_entry (fuel : nat) (data : list Z) (rid : RID) : M BT unit :=
  let! h := header in
  let pkey := make_key h data rid in
  let! leaf_page := find_leaf fuel pkey in
  delete_entry_internal fuel leaf_page pkey.

End BplusTree.
Arguments BT R W : clear implicits.
