(* ===== verification/BTreeScan.v ===== *)
(** * Scans of the B+ tree (storage/common/bplus_tree.h, .cpp): BplusTreeScanner

    The search for the first entry of a scan (a part of BplusTreeHandler) and
    BplusTreeScanner, whose fields are the record [BplusTreeScanner] here; [ST] is the
    tree with the scanner.  [close] does not unpin the page the scanner holds. *)
From S2P Require Import Prelude ReturnCode Effects Bitmap Memory Replacer OsFile BufferPool.
From S2P Require Import RecordPage KeyCompare BTreeNode BTree.

Section first.
Context {R W : Type} `{Replacer R} `{OS W} `{HashOrder}.

(** The loop of [get_first_leaf_page] from a pinned node on. *)
Fixpoint leftmost (fuel : nat) (x : BPPageHandle * Z) : M (BT R W) Z :=
  let '(hd, f) := x in
  let! h := header in
  let! d := node f in
  if is_leaf d =? 0 then
    match fuel with
    | O => no_fuel
    | S fuel' =>
        bt_unpin hd ;;
        let! y := get_node (child h d 0) in
        leftmost fuel' y
    end
  else
    let! leaf_page := lift (get_page_num hd) in
    bt_unpin hd ;;
    ret leaf_page.

Definition get_first_leaf_page (fuel : nat) : M (BT R W) Z :=
  let! h := header in
  let! x := get_node (root_page h) in
  leftmost fuel x.

(** The first slot of a leaf that [find_first_index_satisfied] accepts. *)
Definition accepts (op : CompOp) (tmp : Z) : bool :=
  match op with
  | EQUAL_TO | GREAT_EQUAL => 0 <=? tmp
  | GREAT_THAN => 0 <? tmp
  | _ => false
  end.

Definition first_slot (h : IndexFileHeader) (op : CompOp) (key : list Z) (d : list Z) : Z :=
  scan 0 (key_num d)
    (fun i => accepts op (CompareKey (key_at h d i) key (attr_of_code (attr_type h)) (attr_length h))).

(** [while (next > 0)]: every page but the last one visited stays pinned.  [last] is
    [page_handle], uninitialised before the first round. *)
Fixpoint search_leaves (fuel : nat) (op : CompOp) (key : list Z) (next : Z) (last : option BPPageHandle)
    : M (BT R W) (Z * Z) :=
  if next <=? 0 then
    match last with
    | None => undefined
    | Some hd => bt_unpin hd ;; fail RECORD_EOF
    end
  else
    match fuel with
    | O => no_fuel
    | S fuel' =>
        let! h := header in
        let! (hd, f) := get_node next in
        let! d := node f in
        let i := first_slot h op key d in
        if i <? key_num d then
          let! pn := lift (get_page_num hd) in
          bt_unpin hd ;;
          ret (pn, i)
        else search_leaves fuel' op key (next_leaf h d) (Some hd)
    end.

Definition find_first_index_satisfied (fuel : nat) (op : CompOp) (key : list Z) : M (BT R W) (Z * Z) :=
  match op with
  | LESS_THAN | LESS_EQUAL | NOT_EQUAL =>
      let! pn := get_first_leaf_page fuel in ret (pn, 0)
  | _ =>
      let! h := header in
      let pkey := make_key h key {| page_num := -1; slot_num := -1 |} in
      let! leaf_page := find_leaf fuel pkey in
      search_leaves fuel op key leaf_page None
  end.

End first.

Record BplusTreeScanner := {
  opened_ : bool;
  comp_op_ : CompOp;
  value_ : list Z;
  num_fixed_pages_ : Z;
  pinned_page_count_ : Z;
  page_handles_ : list BPPageHandle;
  next_index_of_page_handle_ : Z;
  index_in_node_ : Z;
  next_page_num_ : Z
}.

#[export] Instance BPPageHandle_inhabited : Inhabited BPPageHandle := populate null_handle.

Definition BplusTreeScanner_create : BplusTreeScanner :=
  {| opened_ := false; comp_op_ := NO_OP; value_ := []; num_fixed_pages_ := -1;
     pinned_page_count_ := 0; page_handles_ := replicate (Z.to_nat BP_BUFFER_SIZE) null_handle;
     next_index_of_page_handle_ := -1; index_in_node_ := -1; next_page_num_ := -1 |}.

Definition set_position (index page : Z) (c : BplusTreeScanner) : BplusTreeScanner :=
  {| opened_ := opened_ c; comp_op_ := comp_op_ c; value_ := value_ c;
     num_fixed_pages_ := num_fixed_pages_ c; pinned_page_count_ := pinned_page_count_ c;
     page_handles_ := page_handles_ c; next_index_of_page_handle_ := next_index_of_page_handle_ c;
     index_in_node_ := index; next_page_num_ := page |}.

Definition set_pages (handles : list BPPageHandle) (count index : Z) (c : BplusTreeScanner) : BplusTreeScanner :=
  {| opened_ := opened_ c; comp_op_ := comp_op_ c; value_ := value_ c;
     num_fixed_pages_ := num_fixed_pages_ c; pinned_page_count_ := count; page_handles_ := handles;
     next_index_of_page_handle_ := index; index_in_node_ := index_in_node_ c;
     next_page_num_ := next_page_num_ c |}.

Section scanner.
Context {R W : Type} `{Replacer R} `{OS W} `{HashOrder}.

Record ST := { st_bt : BT R W; st_sc : BplusTreeScanner }.

Definition set_sc c (s : ST) : ST := {| st_bt := st_bt s; st_sc := c |}.
Definition upd_sc (g : BplusTreeScanner -> BplusTreeScanner) : M ST unit :=
  modify (fun s => set_sc (g (st_sc s)) s).

Definition on_tree {A} (m : M (BT R W) A) : M ST A := fun s =>
  let '(r, t) := m (st_bt s) in (r, {| st_bt := t; st_sc := st_sc s |}).

Definition scan_open (fuel : nat) (op : CompOp) (value : list Z) : M ST unit :=
  let! c := gets st_sc in
  fail_if (opened_ c) RECORD_OPENNED ;;
  let! h := on_tree header in
  let v := take (Z.to_nat (attr_length h)) value in
  upd_sc (fun c =>
    {| opened_ := opened_ c; comp_op_ := op; value_ := v; num_fixed_pages_ := num_fixed_pages_ c;
       pinned_page_count_ := pinned_page_count_ c; page_handles_ := page_handles_ c;
       next_index_of_page_handle_ := next_index_of_page_handle_ c;
       index_in_node_ := index_in_node_ c; next_page_num_ := next_page_num_ c |}) ;;
  let! x := try (on_tree (find_first_index_satisfied fuel op value)) in
  match x with
  | inr (page, index) => upd_sc (set_position index page)
  | inl RECORD_EOF => upd_sc (set_position (-1) (-1))
  | inl rc => fail rc
  end ;;
  upd_sc (fun c =>
    {| opened_ := true; comp_op_ := comp_op_ c; value_ := value_ c; num_fixed_pages_ := 1;
       pinned_page_count_ := 0; page_handles_ := page_handles_ c; next_index_of_page_handle_ := 0;
       index_in_node_ := index_in_node_ c; next_page_num_ := next_page_num_ c |}).

Definition scan_close : M ST unit :=
  let! c := gets st_sc in
  fail_if (negb (opened_ c)) RECORD_SCANCLOSED ;;
  upd_sc (fun c =>
    {| opened_ := false; comp_op_ := comp_op_ c; value_ := []; num_fixed_pages_ := num_fixed_pages_ c;
       pinned_page_count_ := pinned_page_count_ c; page_handles_ := page_handles_ c;
       next_index_of_page_handle_ := next_index_of_page_handle_ c;
       index_in_node_ := index_in_node_ c; next_page_num_ := next_page_num_ c |}).

(** The loop that pins the next pages: [n] rounds are left, [i] is the counter. *)
Fixpoint pin_pages (n : nat) (i : Z) : M ST unit :=
  match n with
  | O => ret tt
  | S n' =>
      let! c := gets st_sc in
      if next_page_num_ c <=? 0 then ret tt
      else
        let! h := on_tree header in
        let! (hd, f) := on_tree (get_node (next_page_num_ c)) in
        let! d := on_tree (node f) in
        upd_sc (fun c => set_position (index_in_node_ c) (next_leaf h d)
                 (set_pages (aset (page_handles_ c) i hd) (pinned_page_count_ c + 1)
                    (next_index_of_page_handle_ c) c)) ;;
        pin_pages n' (i + 1)
  end.

(** The loop that unpins the pages of the last round. *)
Fixpoint unpin_pages (n : nat) (i : Z) : M ST unit :=
  match n with
  | O => ret tt
  | S n' =>
      let! c := gets st_sc in
      let! hd := on_tree (lift (unpin_page (aget (page_handles_ c) i))) in
      upd_sc (fun c => set_pages (aset (page_handles_ c) i hd) (pinned_page_count_ c)
                         (next_index_of_page_handle_ c) c) ;;
      unpin_pages n' (i + 1)
  end.

Definition find_idx_pages : M ST unit :=
  let! c := gets st_sc in
  fail_if (negb (opened_ c)) RECORD_CLOSED ;;
  unpin_pages (Z.to_nat (pinned_page_count_ c)) 0 ;;
  upd_sc (fun c => set_pages (page_handles_ c) 0 0 c) ;;
  pin_pages (Z.to_nat (num_fixed_pages_ c)) 0 ;;
  let! c := gets st_sc in
  fail_if (negb (0 <? pinned_page_count_ c)) RECORD_EOF.

(** The first slot from [index_in_node_] on that satisfies the condition. *)
Definition next_match (h : IndexFileHeader) (c : BplusTreeScanner) (d : list Z) : Z :=
  scan (index_in_node_ c) (key_num d)
    (fun i => satisfy_condition (comp_op_ c) (attr_of_code (attr_type h)) (attr_length h)
                (key_at h d i) (value_ c)).

(** The loop over the pinned pages. *)
Fixpoint search_pinned (n : nat) : M ST RID :=
  match n with
  | O => fail RECORD_NO_MORE_IDX_IN_MEM
  | S n' =>
      let! c := gets st_sc in
      let! h := on_tree header in
      let! f := on_tree (lift (get_data (aget (page_handles_ c) (next_index_of_page_handle_ c)))) in
      let! d := on_tree (node f) in
      let i := next_match h c d in
      if i <? key_num d then
        upd_sc (set_position (i + 1) (next_page_num_ c)) ;;
        ret (rid_of h d i)
      else
        upd_sc (fun c => set_position 0 (next_page_num_ c)
                 (set_pages (page_handles_ c) (pinned_page_count_ c)
                    (next_index_of_page_handle_ c + 1) c)) ;;
        search_pinned n'
  end.

Definition get_next_idx_in_memory : M ST RID :=
  let! c := gets st_sc in
  fail_if (pinned_page_count_ c <=? next_index_of_page_handle_ c) RECORD_NO_MORE_IDX_IN_MEM ;;
  fail_if ((next_page_num_ c =? -1) && (index_in_node_ c =? -1)) RECORD_EOF ;;
  search_pinned (Z.to_nat (pinned_page_count_ c - next_index_of_page_handle_ c)).

(** One further page is tried, not more. *)
Definition next_entry : M ST RID :=
  let! c := gets st_sc in
  fail_if (negb (opened_ c)) RECORD_CLOSED ;;
  let! x := try get_next_idx_in_memory in
  match x with
  | inr rid => ret rid
  | inl RECORD_NO_MORE_IDX_IN_MEM => find_idx_pages ;; get_next_idx_in_memory
  | inl rc => fail rc
  end.

End scanner.
Arguments ST R W : clear implicits.
