(* ===== verification/BTreeNodeLaws.v ===== *)
(** * Nodes as arrays of keys and RIDs

    [rep h d n leaf par K R] says what the bytes [d] of an index page hold: the number of keys,
    the leaf flag, the parent, and the keys and RIDs by slot.  The stores of the program act
    on this description as updates of one component, so the loops of BTreeNode.v can be
    read as loops over two arrays. *)
From S2P Require Import Prelude Bitmap Memory OsFile RecordPage KeyCompare BTreeNode.

Record header_ok (h : IndexFileHeader) : Prop := {
  ho_attr : 0 <= attr_length h;
  ho_key : key_length h = attr_length h + sizeof_RID;
  ho_order : 2 <= order h;
  ho_fits : keys_off + order h * (key_length h + sizeof_RID) <= BP_PAGE_DATA_SIZE }.

Definition rid_ok (r : RID) : Prop := is_int32 (page_num r) /\ is_int32 (slot_num r).

Lemma alen_rid_bytes r : alen (rid_bytes r) = sizeof_RID.
Proof. done. Qed.

Lemma load_load m o n i k :
  in_block m o n -> 0 <= i -> 0 <= k -> i + k <= n -> load (load m o n) i k = load m (o + i) k.
Proof.
  intros Hb Hi Hk Hn. pose proof Hb as (H1 & H2 & H3).
  assert (B1 : in_block (load m o n) i k) by (unfold in_block; rewrite alen_load by done; lia).
  assert (B2 : in_block m (o + i) k) by (unfold in_block; lia).
  apply array_eq; rewrite !alen_load by done; [done|]. intros j Hj.
  rewrite !aget_load by (done || lia). f_equal. lia.
Qed.

Lemma rid_at_put d o r :
  in_block d o sizeof_RID -> rid_ok r -> rid_at (put d o (rid_bytes r)) o = r.
Proof.
  intros Hb [Hp Hs]. pose proof Hb as (H1 & H2 & H3). unfold sizeof_RID in *.
  assert (Hput : load (put d o (rid_bytes r)) o 8 = rid_bytes r).
  { change 8 with (alen (rid_bytes r)). by apply load_put_same. }
  assert (Hin : in_block (put d o (rid_bytes r)) o 8) by (unfold in_block; rewrite alen_put; done).
  unfold rid_at, rd32. destruct r as [p s]. f_equal.
  - replace o with (o + 0) at 2 by lia. rewrite <- (load_load _ o 8) by (done || lia). rewrite Hput.
    by apply of_le32_le32.
  - rewrite <- (load_load _ o 8) by (done || lia). rewrite Hput. by apply of_le32_le32.
Qed.

Lemma rid_at_put_other d o bs o' :
  in_block d o (alen bs) -> in_block d o' sizeof_RID -> o' + sizeof_RID <= o \/ o + alen bs <= o' ->
  rid_at (put d o bs) o' = rid_at d o'.
Proof.
  intros Hb (H1 & H2 & H3) Ho. unfold sizeof_RID in *. unfold rid_at.
  rewrite !rd32_put_other; unfold in_block; done || lia.
Qed.

Lemma rid_at_ok d o : rid_ok (rid_at d o).
Proof. split; apply rd32_range. Qed.

Lemma child_rid_ok pn : is_int32 pn -> rid_ok (child_rid pn).
Proof. intros. split; [done|]. unfold is_int32; simpl; lia. Qed.

Section rep.
Context (h : IndexFileHeader) (Hh : header_ok h).
Implicit Types (d : list Z) (n leaf par i : Z) (K : Z -> list Z) (R : Z -> RID).

Record rep d n leaf par K R : Prop := {
  rep_len : alen d = BP_PAGE_DATA_SIZE;
  rep_num : key_num d = n;
  rep_leaf : is_leaf d = leaf;
  rep_parent : parent d = par;
  rep_key i : 0 <= i < order h -> key_at h d i = K i;
  rep_rid i : 0 <= i < order h -> rid_of h d i = R i }.

Lemma rep_self d :
  alen d = BP_PAGE_DATA_SIZE -> rep d (key_num d) (is_leaf d) (parent d) (key_at h d) (rid_of h d).
Proof. by constructor. Qed.

Lemma rep_ext d n leaf par K R K' R' :
  rep d n leaf par K R ->
  (forall i, 0 <= i < order h -> K i = K' i) -> (forall i, 0 <= i < order h -> R i = R' i) ->
  rep d n leaf par K' R'.
Proof.
  intros [H1 H2 H3 H4 H5 H6] HK HR. constructor; try done; intros i Hi; [rewrite <- HK|rewrite <- HR]; auto.
Qed.

(** Positions of the slots. *)
Lemma slot_bounds i :
  0 <= i < order h ->
  keys_off <= keys_off + i * key_length h /\
  keys_off + i * key_length h + key_length h <= rids_off h /\
  rids_off h <= rids_off h + i * sizeof_RID /\
  rids_off h + i * sizeof_RID + sizeof_RID <= BP_PAGE_DATA_SIZE /\ sizeof_RID <= key_length h.
Proof. intros Hi. destruct Hh. unfold rids_off, sizeof_RID in *. nia. Qed.

Lemma key_slots i j : i < j -> keys_off + i * key_length h + key_length h <= keys_off + j * key_length h.
Proof. intros Hij. destruct Hh. unfold sizeof_RID in *. nia. Qed.

Ltac slots i := let H := fresh "Hslot" in
  match goal with Hi : 0 <= i < order h |- _ => pose proof (slot_bounds i Hi) as H end.

Lemma key_block_in d i :
  alen d = BP_PAGE_DATA_SIZE -> 0 <= i < order h -> in_block d (keys_off + i * key_length h) (key_length h).
Proof. intros Hd Hi. slots i. unfold in_block, keys_off, sizeof_RID, sizeof_IndexFileHeader, sizeof_IndexNode in *. lia. Qed.

Lemma rid_block_in d i :
  alen d = BP_PAGE_DATA_SIZE -> 0 <= i < order h -> in_block d (rids_off h + i * sizeof_RID) sizeof_RID.
Proof. intros Hd Hi. slots i. unfold in_block, keys_off, sizeof_RID, sizeof_IndexFileHeader, sizeof_IndexNode in *. lia. Qed.

Lemma rep_key_len d n leaf par K R i : rep d n leaf par K R -> 0 <= i < order h -> alen (K i) = key_length h.
Proof.
  intros Hr Hi. rewrite <- (rep_key _ _ _ _ _ _ Hr) by done. unfold key_at. apply alen_load.
  by apply key_block_in; [apply Hr|].
Qed.

Lemma rep_rid_ok d n leaf par K R i : rep d n leaf par K R -> 0 <= i < order h -> rid_ok (R i).
Proof. intros Hr Hi. rewrite <- (rep_rid _ _ _ _ _ _ Hr) by done. apply rid_at_ok. Qed.

Lemma field_in d o : alen d = BP_PAGE_DATA_SIZE -> 0 <= o <= 32 -> in_block d o 4.
Proof. intros Hd Ho. unfold in_block. rewrite Hd. change BP_PAGE_DATA_SIZE with 4092. lia. Qed.

Lemma rep_set_key d n leaf par K R i k :
  rep d n leaf par K R -> 0 <= i < order h -> alen k = key_length h ->
  rep (set_key h i k d) n leaf par (fupd i k K) R.
Proof.
  intros Hr Hi Hk. pose proof (rep_len _ _ _ _ _ _ Hr) as Hd. pose proof (key_block_in d i Hd Hi) as Hb.
  assert (Hb' : in_block d (keys_off + i * key_length h) (alen k)) by (by rewrite Hk).
  slots i. unfold keys_off, sizeof_RID, sizeof_IndexFileHeader, sizeof_IndexNode in Hslot.
  constructor; unfold set_key.
  - by rewrite alen_put.
  - unfold key_num. rewrite rd32_put_other; [apply Hr|done|by apply field_in|unfold keys_off, sizeof_IndexFileHeader, sizeof_IndexNode; lia].
  - unfold is_leaf. rewrite rd32_put_other; [apply Hr|done|by apply field_in|unfold keys_off, sizeof_IndexFileHeader, sizeof_IndexNode; lia].
  - unfold parent. rewrite rd32_put_other; [apply Hr|done|by apply field_in|unfold keys_off, sizeof_IndexFileHeader, sizeof_IndexNode; lia].
  - intros j Hj. unfold fupd, key_at. destruct (Z.eqb_spec j i) as [->|Hne].
    + pose proof (load_put_same d _ k Hb') as Hl. by rewrite Hk in Hl.
    + rewrite load_put_other; [by apply Hr|done|by apply key_block_in|].
      rewrite Hk. destruct (decide (j < i)); [left|right]; apply key_slots; lia.
  - intros j Hj. unfold rid_of. rewrite rid_at_put_other; [by apply Hr|done|by apply rid_block_in|].
    right. rewrite Hk. slots j. unfold keys_off, sizeof_RID, sizeof_IndexFileHeader, sizeof_IndexNode in *. lia.
Qed.

Lemma rep_set_rid d n leaf par K R i r :
  rep d n leaf par K R -> 0 <= i < order h -> rid_ok r -> rep (set_rid h i r d) n leaf par K (fupd i r R).
Proof.
  intros Hr Hi Hk. pose proof (rep_len _ _ _ _ _ _ Hr) as Hd. pose proof (rid_block_in d i Hd Hi) as Hb.
  assert (Hb' : in_block d (rids_off h + i * sizeof_RID) (alen (rid_bytes r))) by done.
  assert (Hoff : keys_off + 8 <= rids_off h) by (slots i; destruct Hh; unfold rids_off, sizeof_RID in *; nia).
  assert (Hfar : 36 <= rids_off h + i * sizeof_RID)
    by (unfold keys_off, sizeof_RID, sizeof_IndexFileHeader, sizeof_IndexNode in *; lia).
  constructor; unfold set_rid.
  - by rewrite alen_put.
  - unfold key_num. rewrite rd32_put_other; [apply Hr|done|by apply field_in|lia].
  - unfold is_leaf. rewrite rd32_put_other; [apply Hr|done|by apply field_in|lia].
  - unfold parent. rewrite rd32_put_other; [apply Hr|done|by apply field_in|lia].
  - intros j Hj. unfold key_at. rewrite load_put_other; [by apply Hr|done|by apply key_block_in|].
    left. slots j. unfold sizeof_RID in *. lia.
  - intros j Hj. unfold fupd, rid_of. destruct (Z.eqb_spec j i) as [->|Hne]; [by apply rid_at_put|].
    rewrite rid_at_put_other; [by apply Hr|done|by apply rid_block_in|].
    rewrite alen_rid_bytes. unfold sizeof_RID. lia.
Qed.

(** The three header words of a node. *)
Lemma rep_set_field d n leaf par K R o v :
  rep d n leaf par K R -> o = 24 \/ o = 28 \/ o = 32 -> is_int32 v ->
  rep (wr32 d o v) (if o =? 28 then v else n) (if o =? 24 then v else leaf) (if o =? 32 then v else par) K R.
Proof.
  intros Hr Ho Hv. pose proof (rep_len _ _ _ _ _ _ Hr) as Hd.
  assert (Hb : in_block d o 4) by (apply field_in; [done|lia]).
  assert (Hb' : in_block d o (alen (le32 v))) by done.
  assert (Hf : forall o', o' = 24 \/ o' = 28 \/ o' = 32 -> rd32 (wr32 d o v) o' = if o =? o' then v else rd32 d o').
  { intros o' Ho'. destruct (Z.eqb_spec o o') as [<-|]; [by apply rd32_wr32_same|].
    apply rd32_wr32_other; [done|apply field_in; [done|lia]|lia]. }
  constructor.
  - by rewrite alen_wr32.
  - unfold key_num. rewrite Hf by lia. case_match; [done|apply Hr].
  - unfold is_leaf. rewrite Hf by lia. case_match; [done|apply Hr].
  - unfold parent. rewrite Hf by lia. case_match; [done|apply Hr].
  - intros j Hj. unfold key_at, wr32. rewrite load_put_other; [by apply Hr|done|by apply key_block_in|].
    right. rewrite alen_le32. slots j. unfold keys_off, sizeof_IndexFileHeader, sizeof_IndexNode, sizeof_RID in *. lia.
  - intros j Hj. unfold rid_of, wr32. rewrite rid_at_put_other; [by apply Hr|done|by apply rid_block_in|].
    right. rewrite alen_le32. slots j. unfold keys_off, sizeof_IndexFileHeader, sizeof_IndexNode, sizeof_RID in *. lia.
Qed.

Lemma rep_set_key_num d n leaf par K R v :
  rep d n leaf par K R -> is_int32 v -> rep (set_key_num v d) v leaf par K R.
Proof. intros Hr Hv. unfold set_key_num. rewrite int32_id by done. by apply (rep_set_field d n leaf par K R 28 v); auto. Qed.

Lemma rep_set_is_leaf d n leaf par K R v :
  rep d n leaf par K R -> is_int32 v -> rep (set_is_leaf v d) n v par K R.
Proof. intros Hr Hv. by apply (rep_set_field d n leaf par K R 24 v); auto. Qed.

Lemma rep_set_parent d n leaf par K R v :
  rep d n leaf par K R -> is_int32 v -> rep (set_parent v d) n leaf v K R.
Proof. intros Hr Hv. by apply (rep_set_field d n leaf par K R 32 v); auto. Qed.

Lemma order_bound : order h <= 4092.
Proof. destruct Hh. unfold keys_off, sizeof_RID, sizeof_IndexFileHeader, sizeof_IndexNode in *. change BP_PAGE_DATA_SIZE with 4092 in *. nia. Qed.

Lemma small_int32 v : -1 <= v <= 4100 -> is_int32 v.
Proof. unfold is_int32. lia. Qed.

End rep.

Lemma new_header_spec type len page :
  0 <= len <= 1329 ->
  header_ok (new_header type len page) /\ 3 <= order (new_header type len page) /\
  BP_PAGE_DATA_SIZE < keys_off + (order (new_header type len page) + 1) * (key_length (new_header type len page) + sizeof_RID).
Proof.
  intros Hl. unfold new_header, order_of; simpl. change (2 * sizeof_RID) with 16. change sizeof_RID with 8.
  rewrite (Z.mod_small (len + 16)) by lia.
  change (BP_PAGE_DATA_SIZE - sizeof_IndexFileHeader - sizeof_IndexNode) with 4036.
  pose proof (Z.div_mod 4036 (len + 16) ltac:(lia)) as Hd. pose proof (Z.mod_pos_bound 4036 (len + 16) ltac:(lia)).
  assert (3 <= 4036 / (len + 16)) by (apply Z.div_le_lower_bound; lia).
  assert (4036 / (len + 16) <= 4036) by (apply Z.div_le_upper_bound; lia).
  rewrite !int32_id by (unfold is_int32; lia). change BP_PAGE_DATA_SIZE with 4092. change keys_off with 56.
  split_and!; [|lia|lia]. constructor; simpl; change BP_PAGE_DATA_SIZE with 4092; change keys_off with 56;
    rewrite ?int32_id by (unfold is_int32; lia); change sizeof_RID with 8; lia.
Qed.

(** The layout: for every attribute of 0 to 1329 bytes the header that [create] writes
    leaves room for [order] keys and RIDs behind the node header in a page, and nodes of
    at least 3 entries. *)
Theorem new_header_ok type len page :
  0 <= len <= 1329 ->
  header_ok (new_header type len page) /\ 3 <= order (new_header type len page) /\
  BP_PAGE_DATA_SIZE < keys_off + (order (new_header type len page) + 1) * (key_length (new_header type len page) + sizeof_RID).
Proof. apply new_header_spec. Qed.

Lemma new_header_ok_witness : header_ok (new_header 2 4 1) /\ order (new_header 2 4 1) = 201.
Proof. split; [apply (new_header_ok 2 4 1); lia|vm_compute; reflexivity]. Defined.
