(* ===== verification/BTreeInsertLemmas.v ===== *)
(** * The insertion loops on nodes

    What the loops of BTreeNode.v that insert and split do to the arrays of a node. *)
From S2P Require Import Prelude Bitmap Memory OsFile RecordPage KeyCompare BTreeNode.
From S2P Require Import BTreeNodeLaws.

(** Splits on the comparisons in the goal. *)
Ltac slot_cases :=
  unfold fupd; simpl;
  repeat match goal with
  | |- context [?a =? ?b] => destruct (Z.eqb_spec a b); simpl
  | |- context [?a <? ?b] => destruct (Z.ltb_spec a b); simpl
  | |- context [?a <=? ?b] => destruct (Z.leb_spec a b); simpl
  end; try lia; try done; try (f_equal; lia).

Section insert.
Context (h : IndexFileHeader) (Hh : header_ok h).
Implicit Types (d : list Z) (n leaf par i pos : Z) (K : Z -> list Z) (R : Z -> RID).

Definition keys_of d : list (list Z) := tabulate (key_num d) (key_at h d).
Definition rids_of d : list RID := tabulate (key_num d) (rid_of h d).
Definition children_of d : list RID := tabulate (key_num d + 1) (rid_of h d).

Record node_ok d : Prop := {
  no_len : alen d = BP_PAGE_DATA_SIZE;
  no_num : 0 <= key_num d <= order h - 1 }.

Lemma rep_keys d n leaf par K R : rep h d n leaf par K R -> n <= order h -> keys_of d = tabulate n K.
Proof.
  intros Hr Hn. unfold keys_of. rewrite (rep_num _ _ _ _ _ _ _ Hr). apply tabulate_ext. intros i Hi. apply Hr. lia.
Qed.

Lemma rep_rids d n leaf par K R : rep h d n leaf par K R -> n <= order h -> rids_of d = tabulate n R.
Proof.
  intros Hr Hn. unfold rids_of. rewrite (rep_num _ _ _ _ _ _ _ Hr). apply tabulate_ext. intros i Hi. apply Hr. lia.
Qed.

Lemma rep_children d n leaf par K R : rep h d n leaf par K R -> n < order h -> children_of d = tabulate (n + 1) R.
Proof.
  intros Hr Hn. unfold children_of. rewrite (rep_num _ _ _ _ _ _ _ Hr). apply tabulate_ext. intros i Hi. apply Hr. lia.
Qed.

Lemma rep_next d n leaf par K R : rep h d n leaf par K R -> next_leaf h d = page_num (R (order h - 1)).
Proof.
  intros Hr. unfold next_leaf, child. destruct Hh. by rewrite (rep_rid _ _ _ _ _ _ _ Hr) by lia.
Qed.

Lemma rep_node_ok d n leaf par K R : rep h d n leaf par K R -> 0 <= n <= order h - 1 -> node_ok d.
Proof. intros Hr Hn. constructor; [apply Hr|]. by rewrite (rep_num _ _ _ _ _ _ _ Hr). Qed.

(** ** A leaf with room *)

(** One step of the loops: key and RID of slot [i] are overwritten. *)
Lemma rep_set_entry d n leaf par K R i k r :
  rep h d n leaf par K R -> 0 <= i < order h -> alen k = key_length h -> rid_ok r ->
  rep h (set_rid h i r (set_key h i k d)) n leaf par (fupd i k K) (fupd i r R).
Proof. intros. apply rep_set_rid; try done. by apply rep_set_key. Qed.

Lemma shift_right_rep d n leaf par K R pos :
  rep h d n leaf par K R -> 0 <= pos <= n -> n < order h ->
  rep h (shift_right h pos d) n leaf par
    (fun j => if (pos <? j) && (j <=? n) then K (j - 1) else K j)
    (fun j => if (pos <? j) && (j <=? n) then R (j - 1) else R j).
Proof.
  intros Hr Hpos Hn. unfold shift_right. rewrite (rep_num _ _ _ _ _ _ _ Hr).
  set (f := fun i d => set_rid h i (rid_of h d (i - 1)) (set_key h i (key_at h d (i - 1)) d)).
  pose proof (for_down_inv (fun i d => rep h d n leaf par
    (fun j => if (i <? j) && (j <=? n) then K (j - 1) else K j)
    (fun j => if (i <? j) && (j <=? n) then R (j - 1) else R j)) (Z.to_nat (n - pos)) n f d) as Hinv.
  rewrite Z2Nat.id in Hinv by lia. replace (n - (n - pos)) with pos in Hinv by lia. apply Hinv.
  - eapply rep_ext; [exact Hr| |]; intros j Hj; slot_cases.
  - intros i a Hi Ha. unfold f.
    assert (Hk : key_at h a (i - 1) = K (i - 1)).
    { rewrite (rep_key _ _ _ _ _ _ _ Ha) by lia. slot_cases. }
    assert (Hrd : rid_of h a (i - 1) = R (i - 1)).
    { rewrite (rep_rid _ _ _ _ _ _ _ Ha) by lia. slot_cases. }
    eapply rep_ext.
    + apply rep_set_entry; [exact Ha|lia| |].
      * rewrite Hk. eapply rep_key_len; [done|exact Hr|lia].
      * rewrite Hrd. eapply rep_rid_ok; [exact Hr|lia].
    + intros j Hj. rewrite Hk. slot_cases.
    + intros j Hj. rewrite Hrd. slot_cases.
Qed.

Lemma leaf_insert_rep d n leaf par K R pos k r :
  rep h d n leaf par K R -> 0 <= pos <= n -> n < order h - 1 -> alen k = key_length h -> rid_ok r ->
  rep h (leaf_insert h pos k r d) (n + 1) leaf par
    (fun j => if j <? pos then K j else if j =? pos then k else if j <=? n then K (j - 1) else K j)
    (fun j => if j <? pos then R j else if j =? pos then r else if j <=? n then R (j - 1) else R j).
Proof.
  intros Hr Hpos Hn Hk Hrid. unfold leaf_insert.
  pose proof (shift_right_rep d n leaf par K R pos Hr Hpos ltac:(lia)) as Hs.
  pose proof (rep_set_entry _ _ _ _ _ _ pos k r Hs ltac:(lia) Hk Hrid) as He.
  pose proof (order_bound h Hh). rewrite (rep_num _ _ _ _ _ _ _ He).
  eapply rep_ext; [eapply rep_set_key_num; [exact Hh|exact He|apply small_int32; lia]| |]; intros j Hj; slot_cases.
Qed.

(** ** The temporary arrays *)

(** The arrays of a split, in terms of the arrays of the node. *)
Definition merged {A} pos (x : A) (f : Z -> A) : Z -> A :=
  fun j => if j <? pos then f j else if j =? pos then x else f (j - 1).

(** The loop that copies [n] elements and leaves out position [pos] of the target. *)
Lemma spread_loop {A} `{!Inhabited A} (f : Z -> A) (n pos size : Z) (init : list A) :
  0 <= pos <= n -> n < size -> alen init = size ->
  let '(j, t) := for_range 0 n
    (fun i '(j, t) => let j := if j =? pos then j + 1 else j in (j + 1, aset t j (f i))) (0, init) in
  alen t = size /\ forall q, 0 <= q <= n -> q <> pos -> aget t q = if q <? pos then f q else f (q - 1).
Proof.
  intros Hpos Hsize Hinit.
  pose proof (for_range_inv (fun i (x : Z * list A) =>
    x.1 = (if i <=? pos then i else i + 1) /\ alen x.2 = size /\
    forall q, 0 <= q < x.1 -> q <> pos -> aget x.2 q = if q <? pos then f q else f (q - 1))
    0 n (fun i '(j, t) => let j := if j =? pos then j + 1 else j in (j + 1, aset t j (f i))) (0, init)) as Hinv.
  destruct (for_range 0 n _ (0, init)) as [j t]. destruct Hinv as (Hj & Ht & Hq); simpl in *.
  - lia.
  - split_and!; [by destruct (Z.leb_spec 0 pos); lia|done|lia].
  - intros i [j' t'] Hi (Hj & Ht & Hq); simpl in *. subst j'.
    set (j2 := if (if i <=? pos then i else i + 1) =? pos then _ else _).
    assert (Hj2 : j2 = if i <? pos then i else i + 1) by (unfold j2; slot_cases).
    split_and!; [rewrite Hj2; slot_cases|by rewrite alen_aset|].
    intros q Hq1 Hq2. rewrite aget_aset by (rewrite Hj2, Ht; slot_cases).
    destruct (Z.eqb_spec j2 q) as [<-|].
    + rewrite Hj2. slot_cases.
    + apply Hq; [|done]. rewrite Hj2 in *. revert Hq1 n0. slot_cases.
  - split; [done|]. intros q Hq1 Hq2. apply Hq; [|done]. rewrite Hj. slot_cases.
Qed.

Lemma leaf_temp_spec d n leaf par K R pos k r :
  rep h d n leaf par K R -> n = order h - 1 -> 0 <= pos <= n ->
  let t := leaf_temp h pos k r d in
  forall q, 0 <= q < order h -> aget t.1 q = merged pos k K q /\ aget t.2 q = merged pos r R q.
Proof.
  intros Hr Hn Hpos. destruct Hh as [Ha Hk Ho Hf]. unfold leaf_temp. rewrite (rep_num _ _ _ _ _ _ _ Hr).
  set (tk0 := replicate (Z.to_nat (order h)) []). set (tp0 := replicate (Z.to_nat (order h + 1)) inhabitant).
  assert (Htk : alen tk0 = order h) by (unfold alen, tk0; rewrite length_replicate; lia).
  assert (Htp : alen tp0 = order h + 1) by (unfold alen, tp0; rewrite length_replicate; lia).
  assert (Hpair : forall (m : nat) i j (tk : list (list Z)) (tp : list RID),
    for_up m i (fun i '(j, tk, tp) => let j := if j =? pos then j + 1 else j in
        (j + 1, aset tk j (key_at h d i), aset tp j (rid_of h d i))) (j, tk, tp) =
    let x := for_up m i (fun i '(j, t) => let j := if j =? pos then j + 1 else j in (j + 1, aset t j (key_at h d i))) (j, tk) in
    let y := for_up m i (fun i '(j, t) => let j := if j =? pos then j + 1 else j in (j + 1, aset t j (rid_of h d i))) (j, tp) in
    (x.1, x.2, y.2)).
  { induction m as [|m IH]; intros i j tk tp; simpl; [done|]. by rewrite IH. }
  unfold for_range. rewrite Hpair. cbv zeta.
  pose proof (spread_loop (key_at h d) n pos (order h) tk0 Hpos ltac:(lia) Htk) as Hsk.
  pose proof (spread_loop (rid_of h d) n pos (order h + 1) tp0 Hpos ltac:(lia) Htp) as Hsp.
  unfold for_range in Hsk, Hsp.
  destruct (for_up _ _ _ (0, tk0)) as [j1 tk]. destruct (for_up _ _ _ (0, tp0)) as [j2 tp]. simpl.
  destruct Hsk as [Hlk Hsk], Hsp as [Hlp Hsp]. intros q Hq. unfold merged. split.
  - rewrite aget_aset by lia. destruct (Z.eqb_spec pos q) as [<-|].
    + slot_cases.
    + rewrite Hsk by lia. destruct (Z.ltb_spec q pos); [by apply Hr; lia|].
      destruct (Z.eqb_spec q pos); [lia|]. apply Hr. lia.
  - rewrite aget_aset by lia. destruct (Z.eqb_spec pos q) as [<-|].
    + slot_cases.
    + rewrite Hsp by lia. destruct (Z.ltb_spec q pos); [by apply Hr; lia|].
      destruct (Z.eqb_spec q pos); [lia|]. apply Hr. lia.
Qed.

Lemma copy_entries_rep d n leaf par K R from m t K' R' :
  rep h d n leaf par K R -> 0 <= m <= order h ->
  (forall j, 0 <= j < m -> aget t.1 (from + j) = K' j /\ aget t.2 (from + j) = R' j) ->
  (forall j, 0 <= j < m -> alen (K' j) = key_length h /\ rid_ok (R' j)) ->
  rep h (copy_entries h from m t d) n leaf par
    (fun j => if j <? m then K' j else K j) (fun j => if j <? m then R' j else R j).
Proof.
  intros Hr Hm Ht Hok. unfold copy_entries.
  set (f := fun j d => set_rid h j (aget t.2 (from + j)) (set_key h j (aget t.1 (from + j)) d)).
  apply (for_range_inv (fun i d => rep h d n leaf par
    (fun j => if j <? i then K' j else K j) (fun j => if j <? i then R' j else R j))); [lia| |].
  - eapply rep_ext; [exact Hr| |]; intros j Hj; slot_cases.
  - intros i a Hi Ha. unfold f. destruct (Ht i Hi) as [-> ->]. destruct (Hok i Hi) as [Hk Hrd].
    eapply rep_ext; [apply rep_set_entry; [exact Ha|lia|exact Hk|exact Hrd]| |];
      intros j Hj; slot_cases; subst; done || lia.
Qed.

End insert.

(** ** Concrete nodes: keys of 1329 characters, so that nodes have at most 3 entries *)

Definition demo_header : IndexFileHeader := new_header 1 1329 1.
Definition demo_node (leaf n : Z) : list Z :=
  set_is_leaf leaf (set_key_num n (replicate (Z.to_nat BP_PAGE_DATA_SIZE) 0)).
Definition demo_key (c : Z) : list Z := replicate (Z.to_nat (key_length demo_header)) c.
Definition demo_rid (page slot : Z) : RID := {| page_num := page; slot_num := slot |}.

Lemma demo_header_ok : header_ok demo_header.
Proof. apply new_header_spec. lia. Qed.

Lemma demo_node_ok leaf n :
  is_int32 leaf -> 0 <= n <= 2 ->
  node_ok demo_header (demo_node leaf n) /\ key_num (demo_node leaf n) = n /\ is_leaf (demo_node leaf n) = leaf.
Proof.
  intros Hl Hn. pose proof demo_header_ok as Hh.
  assert (H0 : alen (replicate (Z.to_nat BP_PAGE_DATA_SIZE) 0) = BP_PAGE_DATA_SIZE)
    by (unfold alen; rewrite length_replicate; done).
  pose proof (rep_set_key_num demo_header Hh _ _ _ _ _ _ n (rep_self demo_header _ H0) ltac:(unfold is_int32; lia)) as H1.
  pose proof (rep_set_is_leaf demo_header Hh _ _ _ _ _ _ leaf H1 Hl) as H2.
  split_and!; [|apply H2|apply H2]. eapply rep_node_ok; [exact H2|]. change (order demo_header) with 3. lia.
Qed.

Lemma alen_demo_key c : alen (demo_key c) = key_length demo_header.
Proof. unfold alen, demo_key. by rewrite length_replicate. Qed.

Lemma demo_page_len leaf n : is_int32 leaf -> 0 <= n <= 2 -> alen (demo_node leaf n) = BP_PAGE_DATA_SIZE.
Proof. intros Hl Hn. by destruct (demo_node_ok leaf n Hl Hn) as [[Hd _] _]. Qed.

Lemma demo_int32 n : 0 <= n <= 100 -> is_int32 n.
Proof. unfold is_int32. lia. Qed.
