(* ===== verification/BTreeInsert.v ===== *)
(** * Insertion into nodes: what the entries become

    Insertion into a leaf and into an inner node, and the two splits, as operations on the
    lists of keys, RIDs and children of the nodes. *)
From S2P Require Import Prelude Bitmap Memory OsFile RecordPage KeyCompare BTreeNode.
From S2P Require Import BTreeNodeLaws BTreeInsertLemmas.

Section theorems.
Context (h : IndexFileHeader) (Hh : header_ok h).
Implicit Types (d : list Z) (n leaf par i pos : Z) (K : Z -> list Z) (R : Z -> RID).

Lemma tabulate_insert {A} `{!Inhabited A} n pos (x : A) (f g : Z -> A) :
  0 <= pos <= n -> (forall j, 0 <= j <= n -> g j = merged pos x f j) ->
  tabulate (n + 1) g = insert_at pos x (tabulate n f).
Proof.
  intros Hpos Hg. apply tabulate_eq; [rewrite alen_insert_at; rewrite alen_tabulate by lia; lia|].
  intros i Hi. rewrite Hg by lia. unfold merged.
  rewrite aget_insert_at by (rewrite ?alen_tabulate by lia; lia).
  destruct (Z.ltb_spec i pos); [by rewrite aget_tabulate by lia|].
  destruct (Z.eqb_spec i pos); [done|]. by rewrite aget_tabulate by lia.
Qed.

(** Inserting into a leaf with room. *)
Lemma leaf_insert_spec d pos k r :
  node_ok h d -> key_num d < order h - 1 -> 0 <= pos <= key_num d ->
  alen k = key_length h -> rid_ok r ->
  let d' := leaf_insert h pos k r d in
  node_ok h d' /\ key_num d' = key_num d + 1 /\ is_leaf d' = is_leaf d /\ parent d' = parent d /\
  keys_of h d' = insert_at pos k (keys_of h d) /\ rids_of h d' = insert_at pos r (rids_of h d) /\
  next_leaf h d' = next_leaf h d.
Proof.
  intros [Hlen Hnum] Hroom Hpos Hk Hr d'. pose proof (rep_self h d Hlen) as Hrep.
  pose proof (leaf_insert_rep h Hh _ _ _ _ _ _ pos k r Hrep Hpos Hroom Hk Hr) as Hrep'. fold d' in Hrep'.
  split_and!; try apply Hrep'.
  - eapply rep_node_ok; [exact Hrep'|lia].
  - rewrite (rep_keys h _ _ _ _ _ _ Hrep') by lia. apply tabulate_insert; [lia|].
    intros j Hj. unfold merged. slot_cases.
  - rewrite (rep_rids h _ _ _ _ _ _ Hrep') by lia. apply tabulate_insert; [lia|].
    intros j Hj. unfold merged. slot_cases.
  - rewrite (rep_next h Hh _ _ _ _ _ _ Hrep'). unfold next_leaf, child.
    destruct (Z.ltb_spec (order h - 1) pos), (Z.eqb_spec (order h - 1) pos), (Z.leb_spec (order h - 1) (key_num d)); try lia; done.
Qed.

(** [insert_into_leaf] on the entries of a leaf that is not full: the key and its RID go to
    the slot found, the entries behind it move up, nothing else in the node changes (the
    link to the next leaf included). *)
Theorem leaf_insert_ok d pos k r :
  node_ok h d -> key_num d < order h - 1 -> 0 <= pos <= key_num d ->
  alen k = key_length h -> rid_ok r ->
  let d' := leaf_insert h pos k r d in
  node_ok h d' /\ key_num d' = key_num d + 1 /\ is_leaf d' = is_leaf d /\ parent d' = parent d /\
  keys_of h d' = insert_at pos k (keys_of h d) /\ rids_of h d' = insert_at pos r (rids_of h d) /\
  next_leaf h d' = next_leaf h d.
Proof. apply leaf_insert_spec. Qed.

Lemma quot_half m : 0 <= m -> Z.quot m 2 = m / 2 /\ 2 * (m / 2) <= m < 2 * (m / 2) + 2.
Proof.
  intros Hm. rewrite Z.quot_div_nonneg by lia. split; [done|].
  pose proof (Z.div_mod m 2 ltac:(lia)). pose proof (Z.mod_pos_bound m 2 ltac:(lia)). lia.
Qed.

Lemma upper_slot_range k d : 0 <= key_num d -> 0 <= upper_slot h k d <= key_num d.
Proof. intros. by apply scan_spec. Qed.

(** Entries of the merged arrays are well formed. *)
Lemma merged_ok d n leaf par K R pos k r :
  rep h d n leaf par K R -> n <= order h -> 0 <= pos <= n -> alen k = key_length h -> rid_ok r ->
  forall j, 0 <= j <= n -> alen (merged pos k K j) = key_length h /\ rid_ok (merged pos r R j).
Proof.
  intros Hr Hn Hpos Hk Hrid j Hj. unfold merged.
  destruct (Z.ltb_spec j pos); [split; [eapply rep_key_len|eapply rep_rid_ok]; try exact Hr; done || lia|].
  destruct (Z.eqb_spec j pos); [done|].
  split; [eapply rep_key_len|eapply rep_rid_ok]; try exact Hr; done || lia.
Qed.

(** The split of a full leaf. *)
Lemma leaf_split_spec d new pkey rid new_page :
  node_ok h d -> key_num d = order h - 1 -> alen new = BP_PAGE_DATA_SIZE ->
  alen pkey = key_length h -> rid_ok rid -> is_int32 new_page ->
  let '(l, r) := leaf_split h pkey rid new_page d new in
  let pos := upper_slot h pkey d in
  let split := Z.to_nat (order h / 2) in
  node_ok h l /\ node_ok h r /\
  keys_of h l = take split (insert_at pos pkey (keys_of h d)) /\
  keys_of h r = drop split (insert_at pos pkey (keys_of h d)) /\
  rids_of h l = take split (insert_at pos rid (rids_of h d)) /\
  rids_of h r = drop split (insert_at pos rid (rids_of h d)) /\
  next_leaf h l = new_page /\ next_leaf h r = next_leaf h d /\
  is_leaf l = is_leaf d /\ is_leaf r = 1 /\ parent l = parent d /\ parent r = parent d.
Proof.
  intros [Hlen Hnum] Hfull Hnew Hk Hrid Hpage. pose proof (rep_self h d Hlen) as Hrep.
  pose proof (upper_slot_range pkey d ltac:(lia)) as Hpos. set (pos := upper_slot h pkey d) in *.
  pose proof (order_bound h Hh) as Hob. pose proof (ho_order h Hh) as Hor.
  destruct (quot_half (order h) ltac:(lia)) as [Hq Hhalf].
  unfold leaf_split. fold pos. rewrite Hq. set (s := order h / 2) in *.
  pose proof (leaf_temp_spec h Hh d _ _ _ _ _ pos pkey rid Hrep Hfull Hpos) as Ht. cbv zeta in Ht.
  set (t := leaf_temp h pos pkey rid d) in *.
  pose proof (merged_ok d _ _ _ _ _ pos pkey rid Hrep ltac:(lia) Hpos Hk Hrid) as Hm.
  set (MK := merged pos pkey (key_at h d)) in *. set (MR := merged pos rid (rid_of h d)) in *.
  pose proof (copy_entries_rep h Hh d _ _ _ _ _ 0 s t MK MR Hrep ltac:(lia)
    ltac:(intros; apply Ht; lia) ltac:(intros; apply Hm; lia)) as Hl.
  pose proof (rep_set_key_num h Hh _ _ _ _ _ _ s Hl ltac:(apply small_int32; lia)) as Hl2.
  pose proof (rep_set_rid h Hh _ _ _ _ _ _ (order h - 1) (child_rid new_page) Hl2 ltac:(lia) (child_rid_ok _ Hpage)) as Hl3.
  pose proof (rep_set_key_num h Hh _ _ _ _ _ _ 0 (rep_self h new Hnew) ltac:(apply small_int32; lia)) as Hr1.
  pose proof (rep_set_is_leaf h Hh _ _ _ _ _ _ 1 Hr1 ltac:(apply small_int32; lia)) as Hr2.
  pose proof (rep_set_parent h Hh _ _ _ _ _ _ (parent d) Hr2 ltac:(apply rd32_range)) as Hr3.
  pose proof (copy_entries_rep h Hh _ _ _ _ _ _ s (order h - s) t (fun j => MK (s + j)) (fun j => MR (s + j)) Hr3 ltac:(lia)
    ltac:(intros; apply Ht; lia) ltac:(intros; apply Hm; lia)) as Hr4.
  pose proof (rep_set_key_num h Hh _ _ _ _ _ _ (order h - s) Hr4 ltac:(apply small_int32; lia)) as Hr5.
  set (l2 := set_key_num s _) in *. set (r5 := set_key_num (order h - s) _) in *.
  assert (Hlast : rid_of h l2 (order h - 1) = rid_of h d (order h - 1)).
  { rewrite (rep_rid _ _ _ _ _ _ _ Hl2) by lia. slot_cases. }
  pose proof (rep_set_rid h Hh _ _ _ _ _ _ (order h - 1) (rid_of h l2 (order h - 1)) Hr5 ltac:(lia) ltac:(apply rid_at_ok)) as Hr6.
  set (l3 := set_rid _ _ _ l2) in *. set (r6 := set_rid _ _ _ r5) in *.
  assert (Hkeys : insert_at pos pkey (keys_of h d) = tabulate (order h) MK).
  { replace (order h) with (key_num d + 1) by lia. symmetry. by apply tabulate_insert. }
  assert (Hrids : insert_at pos rid (rids_of h d) = tabulate (order h) MR).
  { replace (order h) with (key_num d + 1) by lia. symmetry. by apply tabulate_insert. }
  rewrite Hkeys, Hrids, !tabulate_take by lia. split_and!; try apply Hl3; try apply Hr6.
  - eapply rep_node_ok; [exact Hl3|lia].
  - eapply rep_node_ok; [exact Hr6|lia].
  - rewrite (rep_keys h _ _ _ _ _ _ Hl3) by lia. apply tabulate_ext. intros j Hj. slot_cases.
  - rewrite (rep_keys h _ _ _ _ _ _ Hr6) by lia. apply tabulate_drop; [lia|]. intros j Hj. slot_cases.
  - rewrite (rep_rids h _ _ _ _ _ _ Hl3) by lia. apply tabulate_ext. intros j Hj. slot_cases.
  - rewrite (rep_rids h _ _ _ _ _ _ Hr6) by lia. apply tabulate_drop; [lia|]. intros j Hj. slot_cases.
  - rewrite (rep_next h Hh _ _ _ _ _ _ Hl3). unfold fupd. by rewrite Z.eqb_refl.
  - rewrite (rep_next h Hh _ _ _ _ _ _ Hr6). unfold fupd. by rewrite Z.eqb_refl, Hlast.
Qed.

(** C27. The split of a full leaf: the entries of the old and the new leaf, in this order, are
    the old entries with the new one in its place; the first [order / 2] stay, the new
    leaf is linked behind the old one and has the same parent. *)
Theorem leaf_split_ok d new pkey rid new_page :
  node_ok h d -> key_num d = order h - 1 -> alen new = BP_PAGE_DATA_SIZE ->
  alen pkey = key_length h -> rid_ok rid -> is_int32 new_page ->
  let '(l, r) := leaf_split h pkey rid new_page d new in
  let pos := upper_slot h pkey d in
  let split := Z.to_nat (order h / 2) in
  node_ok h l /\ node_ok h r /\
  keys_of h l = take split (insert_at pos pkey (keys_of h d)) /\
  keys_of h r = drop split (insert_at pos pkey (keys_of h d)) /\
  rids_of h l = take split (insert_at pos rid (rids_of h d)) /\
  rids_of h r = drop split (insert_at pos rid (rids_of h d)) /\
  next_leaf h l = new_page /\ next_leaf h r = next_leaf h d /\
  is_leaf l = is_leaf d /\ is_leaf r = 1 /\ parent l = parent d /\ parent r = parent d.
Proof. apply leaf_split_spec. Qed.

(** ** Inner nodes *)

Lemma inner_insert_rep d n leaf par K R pos left_page right_page pkey :
  rep h d n leaf par K R -> n < order h - 1 -> child_slot h left_page d = pos -> 0 <= pos <= n ->
  alen pkey = key_length h -> is_int32 right_page ->
  rep h (inner_insert h left_page right_page pkey d) (n + 1) leaf par
    (fun j => if j <=? n then merged pos pkey K j else K j)
    (fun j => if j <=? n + 1 then merged (pos + 1) (child_rid right_page) R j else R j).
Proof.
  intros Hr Hn Hslot Hpos Hk Hp. unfold inner_insert. rewrite Hslot, (rep_num _ _ _ _ _ _ _ Hr).
  pose proof (order_bound h Hh) as Hob.
  set (f := fun i d => set_key h i (key_at h d (i - 1)) (set_rid h (i + 1) (rid_of h d i) d)).
  assert (Hs : rep h (for_down (Z.to_nat (n - pos)) n f d) n leaf par
    (fun j => if (pos <? j) && (j <=? n) then K (j - 1) else K j)
    (fun j => if (pos + 1 <? j) && (j <=? n + 1) then R (j - 1) else R j)).
  { pose proof (for_down_inv (fun i d => rep h d n leaf par
      (fun j => if (i <? j) && (j <=? n) then K (j - 1) else K j)
      (fun j => if (i + 1 <? j) && (j <=? n + 1) then R (j - 1) else R j)) (Z.to_nat (n - pos)) n f d) as Hinv.
    rewrite Z2Nat.id in Hinv by lia. replace (n - (n - pos)) with pos in Hinv by lia. apply Hinv.
    - eapply rep_ext; [exact Hr| |]; intros j Hj; slot_cases.
    - intros i a Hi Ha. unfold f.
      assert (Hka : key_at h a (i - 1) = K (i - 1)) by (rewrite (rep_key _ _ _ _ _ _ _ Ha) by lia; slot_cases).
      assert (Hra : rid_of h a i = R i) by (rewrite (rep_rid _ _ _ _ _ _ _ Ha) by lia; slot_cases).
      rewrite Hka, Hra. eapply rep_ext.
      + apply rep_set_key; [done|apply rep_set_rid; [done|exact Ha|lia|eapply rep_rid_ok; [exact Hr|lia]]|lia|].
        eapply rep_key_len; [done|exact Hr|lia].
      + intros j Hj. slot_cases.
      + intros j Hj. slot_cases. }
  pose proof (rep_set_rid h Hh _ _ _ _ _ _ (pos + 1) (child_rid right_page) Hs ltac:(lia) (child_rid_ok _ Hp)) as Hs2.
  pose proof (rep_set_key h Hh _ _ _ _ _ _ pos pkey Hs2 ltac:(lia) Hk) as Hs3.
  rewrite (rep_num _ _ _ _ _ _ _ Hs3).
  eapply rep_ext; [eapply rep_set_key_num; [exact Hh|exact Hs3|apply small_int32; lia]| |];
    intros j Hj; unfold merged; slot_cases.
Qed.

(** The slot of a child that is there. *)
Lemma child_slot_found page d i :
  0 <= i <= key_num d -> child h d i = page ->
  0 <= child_slot h page d <= key_num d /\ child h d (child_slot h page d) = page.
Proof.
  intros Hi Hc. unfold child_slot.
  destruct (scan_spec 0 (key_num d + 1) (fun i => child h d i =? page) ltac:(lia)) as (Hr & Hb & He).
  destruct (decide (scan 0 (key_num d + 1) (fun i => child h d i =? page) = key_num d + 1)) as [E|].
  - exfalso. specialize (Hb i ltac:(lia)). simpl in Hb. apply Z.eqb_neq in Hb. done.
  - split; [lia|]. apply Z.eqb_eq, He. lia.
Qed.

(** [insert_intern_node] on a node that is not full: the separator is put in the slot of the
    left child and the new child directly behind it. *)
Theorem inner_insert_ok d left_page right_page pkey i :
  node_ok h d -> key_num d < order h - 1 -> 0 <= i <= key_num d -> child h d i = left_page ->
  alen pkey = key_length h -> is_int32 right_page ->
  let pos := child_slot h left_page d in
  let d' := inner_insert h left_page right_page pkey d in
  0 <= pos <= key_num d /\ child h d pos = left_page /\
  node_ok h d' /\ key_num d' = key_num d + 1 /\ is_leaf d' = is_leaf d /\ parent d' = parent d /\
  keys_of h d' = insert_at pos pkey (keys_of h d) /\
  children_of h d' = insert_at (pos + 1) (child_rid right_page) (children_of h d).
Proof.
  intros [Hlen Hnum] Hroom Hi Hc Hk Hp pos d'. destruct (child_slot_found left_page d i Hi Hc) as [Hpos Hcp].
  fold pos in Hpos, Hcp. pose proof (rep_self h d Hlen) as Hrep.
  pose proof (inner_insert_rep d _ _ _ _ _ pos left_page right_page pkey Hrep Hroom eq_refl Hpos Hk Hp) as Hr.
  fold d' in Hr. split_and!; try done; try lia; try apply Hr.
  - eapply rep_node_ok; [exact Hr|lia].
  - rewrite (rep_keys h _ _ _ _ _ _ Hr) by lia. apply tabulate_insert; [lia|]. intros j Hj. slot_cases.
  - rewrite (rep_children h _ _ _ _ _ _ Hr) by lia. apply tabulate_insert; [lia|]. intros j Hj. slot_cases.
Qed.

Lemma inner_temp_spec d n leaf par K R pos left_page right_page pkey :
  rep h d n leaf par K R -> n = order h - 1 -> child_slot h left_page d = pos -> 0 <= pos <= n ->
  let t := inner_temp h left_page right_page pkey d in
  (forall q, 0 <= q < order h -> aget t.1 q = merged pos pkey K q) /\
  (forall q, 0 <= q <= order h -> aget t.2 q = merged (pos + 1) (child_rid right_page) R q).
Proof.
  intros Hr Hn Hslot Hpos. destruct Hh as [Ha Hk Ho Hf]. unfold inner_temp. rewrite Hslot, (rep_num _ _ _ _ _ _ _ Hr).
  set (tk0 := replicate (Z.to_nat (order h)) []). set (tp0 := replicate (Z.to_nat (order h + 1)) inhabitant).
  assert (Htk : alen tk0 = order h) by (unfold alen, tk0; rewrite length_replicate; lia).
  assert (Htp : alen tp0 = order h + 1) by (unfold alen, tp0; rewrite length_replicate; lia).
  pose proof (spread_loop (key_at h d) n pos (order h) tk0 Hpos ltac:(lia) Htk) as Hsk.
  pose proof (spread_loop (rid_of h d) (n + 1) (pos + 1) (order h + 1) tp0 ltac:(lia) ltac:(lia) Htp) as Hsp.
  destruct (for_range 0 n _ (0, tk0)) as [j1 tk]. destruct (for_range 0 (n + 1) _ (0, tp0)) as [j2 tp]. simpl.
  destruct Hsk as [Hlk Hsk], Hsp as [Hlp Hsp]. unfold merged. split; intros q Hq.
  - rewrite aget_aset by lia. destruct (Z.eqb_spec pos q) as [<-|]; [slot_cases|].
    rewrite Hsk by lia. destruct (Z.ltb_spec q pos); [by apply Hr; lia|].
    destruct (Z.eqb_spec q pos); [lia|]. apply Hr. lia.
  - rewrite aget_aset by lia. destruct (Z.eqb_spec (pos + 1) q) as [<-|]; [slot_cases|].
    rewrite Hsp by lia. destruct (Z.ltb_spec q (pos + 1)); [by apply Hr; lia|].
    destruct (Z.eqb_spec q (pos + 1)); [lia|]. apply Hr. lia.
Qed.

(** The children array, merged, is well formed as well. *)
Lemma merged_child_ok d n leaf par K R pos r :
  rep h d n leaf par K R -> n = order h - 1 -> 0 <= pos <= n + 1 -> rid_ok r ->
  forall j, 0 <= j <= order h -> rid_ok (merged pos r R j).
Proof.
  intros Hr Hn Hpos Hrid j Hj. unfold merged.
  destruct (Z.ltb_spec j pos); [eapply rep_rid_ok; [exact Hr|lia]|].
  destruct (Z.eqb_spec j pos); [done|]. eapply rep_rid_ok; [exact Hr|lia].
Qed.

(** The split of a full inner node: with the new separator and child in place, the keys are
    the keys of the left node, the key that moves up, and the keys of the new node; the
    children are divided in the same order, and the new node has the same parent. *)
Theorem inner_split_ok d new left_page right_page pkey i :
  node_ok h d -> key_num d = order h - 1 -> alen new = BP_PAGE_DATA_SIZE ->
  0 <= i <= key_num d -> child h d i = left_page -> alen pkey = key_length h -> is_int32 right_page ->
  let '(l, r, up) := inner_split h left_page right_page pkey d new in
  let pos := child_slot h left_page d in
  let split := (order h + 1) / 2 in
  let ks := insert_at pos pkey (keys_of h d) in
  let cs := insert_at (pos + 1) (child_rid right_page) (children_of h d) in
  node_ok h l /\ node_ok h r /\
  keys_of h l = take (Z.to_nat (split - 1)) ks /\ up = aget ks (split - 1) /\
  keys_of h r = drop (Z.to_nat split) ks /\
  children_of h l = take (Z.to_nat split) cs /\ children_of h r = drop (Z.to_nat split) cs /\
  is_leaf l = is_leaf d /\ is_leaf r = 0 /\ parent l = parent d /\ parent r = parent d.
Proof.
  intros [Hlen Hnum] Hfull Hnew Hi Hc Hk Hp. pose proof (rep_self h d Hlen) as Hrep.
  destruct (child_slot_found left_page d i Hi Hc) as [Hpos _]. set (pos := child_slot h left_page d) in *.
  pose proof (order_bound h Hh) as Hob. pose proof (ho_order h Hh) as Hor.
  destruct (quot_half (order h + 1) ltac:(lia)) as [Hq Hhalf].
  unfold inner_split. rewrite Hq. set (s := (order h + 1) / 2) in *.
  destruct (inner_temp_spec d _ _ _ _ _ pos left_page right_page pkey Hrep Hfull eq_refl Hpos) as [Htk Htp].
  set (t := inner_temp h left_page right_page pkey d) in *.
  pose proof (merged_ok d _ _ _ _ _ pos pkey (child_rid 0) Hrep ltac:(lia) Hpos Hk ltac:(apply child_rid_ok, small_int32; lia)) as Hmk.
  pose proof (merged_child_ok d _ _ _ _ _ (pos + 1) (child_rid right_page) Hrep Hfull ltac:(lia) (child_rid_ok _ Hp)) as Hmr.
  set (MK := merged pos pkey (key_at h d)) in *. set (MR := merged (pos + 1) (child_rid right_page) (rid_of h d)) in *.
  pose proof (copy_entries_rep h Hh d _ _ _ _ _ 0 (s - 1) t MK MR Hrep ltac:(lia)
    ltac:(intros; split; [apply Htk|apply Htp]; lia) ltac:(intros; split; [apply Hmk|apply Hmr]; lia)) as Hl1.
  pose proof (rep_set_key_num h Hh _ _ _ _ _ _ (s - 1) Hl1 ltac:(apply small_int32; lia)) as Hl2.
  pose proof (rep_set_rid h Hh _ _ _ _ _ _ (s - 1) (aget t.2 (s - 1)) Hl2 ltac:(lia)
    ltac:(rewrite Htp by lia; apply Hmr; lia)) as Hl3.
  pose proof (rep_set_key_num h Hh _ _ _ _ _ _ 0 (rep_self h new Hnew) ltac:(apply small_int32; lia)) as Hr1.
  pose proof (rep_set_is_leaf h Hh _ _ _ _ _ _ 0 Hr1 ltac:(apply small_int32; lia)) as Hr2.
  pose proof (rep_set_parent h Hh _ _ _ _ _ _ (parent d) Hr2 ltac:(apply rd32_range)) as Hr3.
  pose proof (copy_entries_rep h Hh _ _ _ _ _ _ s (order h - s) t (fun j => MK (s + j)) (fun j => MR (s + j)) Hr3 ltac:(lia)
    ltac:(intros; split; [apply Htk|apply Htp]; lia) ltac:(intros; split; [apply Hmk|apply Hmr]; lia)) as Hr4.
  pose proof (rep_set_key_num h Hh _ _ _ _ _ _ (order h - s) Hr4 ltac:(apply small_int32; lia)) as Hr5.
  pose proof (rep_set_rid h Hh _ _ _ _ _ _ (order h - s) (aget t.2 (order h)) Hr5 ltac:(lia)
    ltac:(rewrite Htp by lia; apply Hmr; lia)) as Hr6.
  assert (Hkeys : insert_at pos pkey (keys_of h d) = tabulate (order h) MK).
  { replace (order h) with (key_num d + 1) by lia. symmetry. by apply tabulate_insert. }
  assert (Hrids : insert_at (pos + 1) (child_rid right_page) (children_of h d) = tabulate (order h + 1) MR).
  { unfold children_of. replace (order h + 1) with (key_num d + 1 + 1) by lia. symmetry. apply tabulate_insert; [lia|done]. }
  rewrite Htp in Hl3, Hr6 by lia. rewrite Hkeys, Hrids, !tabulate_take by lia.
  rewrite !Htp by lia. split_and!; try apply Hl3; try apply Hr6.
  - eapply rep_node_ok; [exact Hl3|lia].
  - eapply rep_node_ok; [exact Hr6|lia].
  - rewrite (rep_keys h _ _ _ _ _ _ Hl3) by lia. apply tabulate_ext. intros j Hj. slot_cases.
  - rewrite aget_tabulate by lia. apply Htk. lia.
  - rewrite (rep_keys h _ _ _ _ _ _ Hr6) by lia. apply tabulate_drop; [lia|]. intros j Hj. slot_cases.
  - rewrite (rep_children h _ _ _ _ _ _ Hl3) by lia. replace (s - 1 + 1) with s by lia.
    apply tabulate_ext. intros j Hj. slot_cases.
  - rewrite (rep_children h _ _ _ _ _ _ Hr6) by lia. replace (order h - s + 1) with (order h + 1 - s) by lia.
    apply tabulate_drop; [lia|]. intros j Hj. slot_cases.
Qed.

End theorems.

(** ** Concrete cases *)

Lemma leaf_insert_ok_witness :
  key_num (leaf_insert demo_header 0 (demo_key 7) (demo_rid 4 2) (demo_node 1 1)) = 2.
Proof.
  destruct (demo_node_ok 1 1) as (Hok & Hn & _); [apply demo_int32; lia|lia|].
  destruct (leaf_insert_ok demo_header demo_header_ok (demo_node 1 1) 0 (demo_key 7) (demo_rid 4 2) Hok) as (_ & H & _).
  - rewrite Hn. reflexivity.
  - rewrite Hn. lia.
  - apply alen_demo_key.
  - split; apply demo_int32; simpl; lia.
  - rewrite H, Hn. reflexivity.
Defined.

Lemma leaf_split_ok_witness :
  alen (keys_of demo_header (leaf_split demo_header (demo_key 7) (demo_rid 4 2) 5 (demo_node 1 2) (demo_node 0 0)).1) <= 1.
Proof.
  destruct (demo_node_ok 1 2) as (Hok & Hn & _); [apply demo_int32; lia|lia|].
  pose proof (leaf_split_ok demo_header demo_header_ok (demo_node 1 2) (demo_node 0 0) (demo_key 7) (demo_rid 4 2) 5
    Hok Hn (demo_page_len 0 0 ltac:(apply demo_int32; lia) ltac:(lia)) (alen_demo_key 7)
    (conj (demo_int32 4 ltac:(lia)) (demo_int32 2 ltac:(lia))) (demo_int32 5 ltac:(lia))) as H.
  destruct (leaf_split _ _ _ _ _ _) as [l r]. destruct H as (_ & _ & Hk & _).
  simpl. rewrite Hk. unfold alen. rewrite length_take. change (Z.to_nat (order demo_header / 2)) with 1%nat. lia.
Defined.

Lemma inner_insert_ok_witness :
  key_num (inner_insert demo_header (child demo_header (demo_node 0 1) 1) 9 (demo_key 7) (demo_node 0 1)) = 2.
Proof.
  destruct (demo_node_ok 0 1) as (Hok & Hn & _); [apply demo_int32; lia|lia|].
  destruct (inner_insert_ok demo_header demo_header_ok (demo_node 0 1) (child demo_header (demo_node 0 1) 1) 9
    (demo_key 7) 1 Hok) as (_ & _ & _ & H & _).
  - rewrite Hn. reflexivity.
  - rewrite Hn. lia.
  - reflexivity.
  - apply alen_demo_key.
  - apply demo_int32; lia.
  - rewrite H, Hn. reflexivity.
Defined.

Lemma inner_split_ok_witness :
  alen (keys_of demo_header
    (inner_split demo_header (child demo_header (demo_node 0 2) 1) 9 (demo_key 7) (demo_node 0 2) (demo_node 0 0)).1.1) <= 1.
Proof.
  destruct (demo_node_ok 0 2) as (Hok & Hn & _); [apply demo_int32; lia|lia|].
  pose proof (inner_split_ok demo_header demo_header_ok (demo_node 0 2) (demo_node 0 0)
    (child demo_header (demo_node 0 2) 1) 9 (demo_key 7) 1
    Hok Hn (demo_page_len 0 0 ltac:(apply demo_int32; lia) ltac:(lia)) ltac:(rewrite Hn; lia) eq_refl (alen_demo_key 7)
    (demo_int32 9 ltac:(lia))) as H.
  destruct (inner_split _ _ _ _ _ _) as [[l r] up]. destruct H as (_ & _ & Hk & _).
  simpl. rewrite Hk. unfold alen. rewrite length_take. change (Z.to_nat ((order demo_header + 1) / 2 - 1)) with 1%nat. lia.
Defined.
