(* ===== verification/BTreeDelete.v ===== *)
(** * Deletion from nodes: what the entries become

    Removal of an entry, [coalesce_node] and the four cases of [redistribute_nodes] on the
    lists of keys, RIDs and children.  Three of the four cases lose an entry. *)
From S2P Require Import Prelude Bitmap Memory OsFile RecordPage KeyCompare BTreeNode.
From S2P Require Import BTreeNodeLaws BTreeInsertLemmas.

Section delete.
Context (h : IndexFileHeader) (Hh : header_ok h).
Implicit Types (d : list Z) (n leaf par i pos : Z) (K : Z -> list Z) (R : Z -> RID).

(** ** Loops *)

Lemma move_keys_rep d n leaf par K R lo hi :
  rep h d n leaf par K R -> 0 <= lo -> hi < order h ->
  rep h (for_range lo hi (fun i d => set_key h i (key_at h d (i + 1)) d) d) n leaf par
    (fun j => if (lo <=? j) && (j <? hi) then K (j + 1) else K j) R.
Proof.
  intros Hr Hlo Hhi. destruct (decide (lo <= hi)).
  - apply (for_range_inv (fun i d => rep h d n leaf par
      (fun j => if (lo <=? j) && (j <? i) then K (j + 1) else K j) R)); [done| |].
    + eapply rep_ext; [exact Hr| |]; intros j Hj; slot_cases.
    + intros i a Hi Ha.
      assert (Hk : key_at h a (i + 1) = K (i + 1)) by (rewrite (rep_key _ _ _ _ _ _ _ Ha) by lia; slot_cases).
      rewrite Hk. eapply rep_ext; [apply rep_set_key; [done|exact Ha|lia|]| |].
      * eapply rep_key_len; [done|exact Hr|lia].
      * intros j Hj. slot_cases.
      * done.
  - unfold for_range. replace (Z.to_nat (hi - lo)) with 0%nat by lia. simpl.
    eapply rep_ext; [exact Hr| |]; intros j Hj; slot_cases.
Qed.

Lemma move_rids_rep d n leaf par K R lo hi :
  rep h d n leaf par K R -> 0 <= lo -> hi < order h ->
  rep h (for_range lo hi (fun i d => set_rid h i (rid_of h d (i + 1)) d) d) n leaf par K
    (fun j => if (lo <=? j) && (j <? hi) then R (j + 1) else R j).
Proof.
  intros Hr Hlo Hhi. destruct (decide (lo <= hi)).
  - apply (for_range_inv (fun i d => rep h d n leaf par K
      (fun j => if (lo <=? j) && (j <? i) then R (j + 1) else R j))); [done| |].
    + eapply rep_ext; [exact Hr| |]; intros j Hj; slot_cases.
    + intros i a Hi Ha.
      assert (Hk : rid_of h a (i + 1) = R (i + 1)) by (rewrite (rep_rid _ _ _ _ _ _ _ Ha) by lia; slot_cases).
      rewrite Hk. eapply rep_ext; [apply rep_set_rid; [done|exact Ha|lia|]| |].
      * eapply rep_rid_ok; [exact Hr|lia].
      * done.
      * intros j Hj. slot_cases.
  - unfold for_range. replace (Z.to_nat (hi - lo)) with 0%nat by lia. simpl.
    eapply rep_ext; [exact Hr| |]; intros j Hj; slot_cases.
Qed.

Lemma remove_entry_rep d n leaf par K R pos :
  rep h d n leaf par K R -> 0 <= pos < n -> n < order h ->
  rep h (remove_entry h pos d) (n - 1) leaf par
    (fun j => if (pos <=? j) && (j <? n - 1) then K (j + 1) else K j)
    (if leaf =? 0 then fun j => if (pos + 1 <=? j) && (j <? n) then R (j + 1) else R j
     else fun j => if (pos <=? j) && (j <? n - 1) then R (j + 1) else R j).
Proof.
  intros Hr Hpos Hn. unfold remove_entry. rewrite (rep_num _ _ _ _ _ _ _ Hr).
  pose proof (order_bound h Hh). pose proof (move_keys_rep d n leaf par K R pos (n - 1) Hr ltac:(lia) ltac:(lia)) as Hk.
  rewrite (rep_leaf _ _ _ _ _ _ _ Hk). destruct (leaf =? 0); simpl.
  - eapply rep_set_key_num; [done|eapply move_rids_rep; [exact Hk|lia|lia]|apply small_int32; lia].
  - eapply rep_set_key_num; [done|eapply move_rids_rep; [exact Hk|lia|lia]|apply small_int32; lia].
Qed.

(** The entries after a removal. *)
Lemma remove_entry_spec d pos :
  node_ok h d -> 0 <= pos < key_num d ->
  let d' := remove_entry h pos d in
  node_ok h d' /\ key_num d' = key_num d - 1 /\ is_leaf d' = is_leaf d /\ parent d' = parent d /\
  keys_of h d' = delete_at pos (keys_of h d) /\
  (is_leaf d <> 0 -> rids_of h d' = delete_at pos (rids_of h d) /\ next_leaf h d' = next_leaf h d) /\
  (is_leaf d = 0 -> children_of h d' = delete_at (pos + 1) (children_of h d)).
Proof.
  intros [Hlen Hnum] Hpos d'. pose proof (rep_self h d Hlen) as Hrep.
  pose proof (remove_entry_rep d _ _ _ _ _ pos Hrep Hpos ltac:(lia)) as Hr. fold d' in Hr.
  split_and!; try apply Hr.
  - eapply rep_node_ok; [exact Hr|lia].
  - rewrite (rep_keys h _ _ _ _ _ _ Hr) by lia. apply tabulate_delete; [done|]. intros j Hj. slot_cases.
  - intros Hleaf. destruct (Z.eqb_spec (is_leaf d) 0); [done|]. split.
    + rewrite (rep_rids h _ _ _ _ _ _ Hr) by lia. apply tabulate_delete; [done|]. intros j Hj. slot_cases.
    + rewrite (rep_next h Hh _ _ _ _ _ _ Hr). unfold next_leaf, child. slot_cases.
  - intros Hleaf. rewrite Hleaf in Hr. simpl in Hr. rewrite (rep_children h _ _ _ _ _ _ Hr) by lia.
    unfold children_of. replace (key_num d - 1 + 1) with (key_num d + 1 - 1) by lia.
    apply tabulate_delete; [lia|]. intros j Hj. slot_cases.
Qed.

(** [delete_entry_from_node]: a leaf loses the key and the RID of the slot, an inner node the
    key of the slot and the child to its right; nothing else changes. *)
Theorem remove_entry_ok d pos :
  node_ok h d -> 0 <= pos < key_num d ->
  let d' := remove_entry h pos d in
  node_ok h d' /\ key_num d' = key_num d - 1 /\ is_leaf d' = is_leaf d /\ parent d' = parent d /\
  keys_of h d' = delete_at pos (keys_of h d) /\
  (is_leaf d <> 0 -> rids_of h d' = delete_at pos (rids_of h d) /\ next_leaf h d' = next_leaf h d) /\
  (is_leaf d = 0 -> children_of h d' = delete_at (pos + 1) (children_of h d)).
Proof. apply remove_entry_spec. Qed.

(** ** Merging *)

Lemma append_entries_rep d n leaf par K R right m KR RR start :
  rep h d n leaf par K R -> (forall j, 0 <= j < m -> key_at h right j = KR j /\ rid_of h right j = RR j) ->
  (forall j, 0 <= j < m -> alen (KR j) = key_length h /\ rid_ok (RR j)) ->
  key_num right = m -> 0 <= m -> 0 <= start -> start + m <= order h -> -1 <= n -> n + m <= 4100 ->
  rep h (append_entries h start right d) (n + m) leaf par
    (fun j => if (start <=? j) && (j <? start + m) then KR (j - start) else K j)
    (fun j => if (start <=? j) && (j <? start + m) then RR (j - start) else R j).
Proof.
  intros Hr Hright Hok Hm Hm0 Hs Hfit Hn1 Hn2. unfold append_entries. rewrite Hm.
  set (f := fun j d => set_key_num (key_num d + 1) (set_rid h (start + j) (rid_of h right j) (set_key h (start + j) (key_at h right j) d))).
  apply (for_range_inv (fun i d => rep h d (n + i) leaf par
    (fun j => if (start <=? j) && (j <? start + i) then KR (j - start) else K j)
    (fun j => if (start <=? j) && (j <? start + i) then RR (j - start) else R j))); [done| |].
  - rewrite Z.add_0_r. eapply rep_ext; [exact Hr| |]; intros j Hj; slot_cases.
  - intros i a Hi Ha. unfold f. destruct (Hright i Hi) as [-> ->]. destruct (Hok i Hi) as [Hk Hrd].
    rewrite (rep_num _ _ _ _ _ _ _ Ha). rewrite <- Z.add_assoc.
    eapply rep_ext; [eapply rep_set_key_num; [exact Hh|apply rep_set_entry; [done|exact Ha|lia|exact Hk|exact Hrd]|apply small_int32; lia]| |];
      intros j Hj; slot_cases.
Qed.

Lemma right_entries right :
  node_ok h right ->
  (forall j, 0 <= j < key_num right -> alen (key_at h right j) = key_length h /\ rid_ok (rid_of h right j)).
Proof.
  intros [Hlen Hnum] j Hj. split; [|apply rid_at_ok].
  eapply rep_key_len; [done|apply rep_self; done|lia].
Qed.

(** [coalesce_node]: when the entries fit, the left leaf becomes the two leaves in order and
    takes over the link to the next leaf; the left inner node becomes its keys, the
    separator and the keys of the right node, with the children of both. *)
Theorem coalesce_ok sep l r :
  node_ok h l -> node_ok h r -> alen sep = key_length h ->
  let d := coalesce h sep r l in
  (is_leaf l <> 0 -> key_num l + key_num r <= order h - 1 ->
   node_ok h d /\ is_leaf d = is_leaf l /\ parent d = parent l /\
   keys_of h d = keys_of h l ++ keys_of h r /\ rids_of h d = rids_of h l ++ rids_of h r /\
   next_leaf h d = next_leaf h r) /\
  (is_leaf l = 0 -> key_num l + 1 + key_num r <= order h - 1 ->
   node_ok h d /\ is_leaf d = is_leaf l /\ parent d = parent l /\
   keys_of h d = keys_of h l ++ sep :: keys_of h r /\
   children_of h d = children_of h l ++ children_of h r).
Proof.
  intros [Hll Hln] Hr Hsep d. pose proof Hr as [Hrl Hrn]. pose proof (order_bound h Hh) as Hob.
  pose proof (rep_self h l Hll) as Hrep. pose proof (right_entries r Hr) as Hre. split.
  - intros Hleaf Hfit. unfold d, coalesce. destruct (Z.eqb_spec (is_leaf l) 0); [done|].
    pose proof (append_entries_rep l _ _ _ _ _ r (key_num r) (key_at h r) (rid_of h r) (key_num l) Hrep
      ltac:(done) Hre eq_refl ltac:(lia) ltac:(lia) ltac:(lia) ltac:(lia) ltac:(lia)) as Ha.
    pose proof (rep_set_rid h Hh _ _ _ _ _ _ (order h - 1) (rid_of h r (order h - 1)) Ha ltac:(lia) ltac:(apply rid_at_ok)) as Hd.
    split_and!; try apply Hd.
    + eapply rep_node_ok; [exact Hd|lia].
    + rewrite (rep_keys h _ _ _ _ _ _ Hd) by lia. apply tabulate_app; [lia|lia| |]; intros j Hj; slot_cases.
    + rewrite (rep_rids h _ _ _ _ _ _ Hd) by lia. apply tabulate_app; [lia|lia| |]; intros j Hj; slot_cases.
    + rewrite (rep_next h Hh _ _ _ _ _ _ Hd). unfold fupd. by rewrite Z.eqb_refl.
  - intros Hleaf Hfit. unfold d, coalesce. rewrite Hleaf. simpl.
    pose proof (rep_set_key h Hh _ _ _ _ _ _ (key_num l) sep Hrep ltac:(lia) Hsep) as H1.
    pose proof (rep_set_key_num h Hh _ _ _ _ _ _ (key_num l + 1) H1 ltac:(apply small_int32; lia)) as H2.
    pose proof (append_entries_rep _ _ _ _ _ _ r (key_num r) (key_at h r) (rid_of h r) (key_num l + 1) H2
      ltac:(done) Hre eq_refl ltac:(lia) ltac:(lia) ltac:(lia) ltac:(lia) ltac:(lia)) as H3.
    pose proof (rep_set_rid h Hh _ _ _ _ _ _ (key_num l + 1 + key_num r) (rid_of h r (key_num r)) H3 ltac:(lia) ltac:(apply rid_at_ok)) as H4.
    split_and!; try apply H4; [|by rewrite (rep_leaf _ _ _ _ _ _ _ H4)| |].
    + eapply rep_node_ok; [exact H4|lia].
    + rewrite (rep_keys h _ _ _ _ _ _ H4) by lia. rewrite <- Z.add_assoc.
      assert (Hone : sep :: keys_of h r = tabulate (1 + key_num r) (fun j => if j =? 0 then sep else key_at h r (j - 1))).
      { symmetry. apply (tabulate_app 1 (key_num r) (fun _ => sep)); [lia|lia| |]; intros j Hj; slot_cases. }
      rewrite Hone. apply tabulate_app; [lia|lia| |]; intros j Hj; slot_cases.
    + rewrite (rep_children h _ _ _ _ _ _ H4) by lia. unfold children_of.
      replace (key_num l + 1 + key_num r + 1) with (key_num l + 1 + (key_num r + 1)) by lia.
      apply tabulate_app; [lia|lia| |]; intros j Hj; slot_cases.
Qed.

(** The merged entries fit: a node below its minimum and a sibling at or below it. *)
Lemma coalesce_fits n m :
  0 <= n -> 0 <= m -> 2 <= order h ->
  (n < min_key_leaf h -> m <= min_key_leaf h -> n + m <= order h - 1) /\
  (n < min_key_inner h -> m <= min_key_inner h -> n + 1 + m <= order h - 1).
Proof.
  intros Hn Hm Ho. unfold min_key_leaf, min_key_inner. rewrite !Z.quot_div_nonneg by lia.
  pose proof (Z.div_mod (order h) 2 ltac:(lia)). pose proof (Z.mod_pos_bound (order h) 2 ltac:(lia)).
  pose proof (Z.div_mod (order h + 1) 2 ltac:(lia)). pose proof (Z.mod_pos_bound (order h + 1) 2 ltac:(lia)). lia.
Qed.

(** ** Redistribution *)

Lemma shift_left_rep d n leaf par K R :
  rep h d n leaf par K R -> 1 <= n < order h ->
  rep h (shift_left h d) (n - 1) leaf par
    (fun j => if j <? n - 1 then K (j + 1) else K j) (fun j => if j <? n - 1 then R (j + 1) else R j).
Proof.
  intros Hr Hn. unfold shift_left. rewrite (rep_num _ _ _ _ _ _ _ Hr). pose proof (order_bound h Hh).
  eapply rep_set_key_num; [done| |apply small_int32; lia].
  apply (for_range_inv (fun i d => rep h d n leaf par
    (fun j => if j <? i then K (j + 1) else K j) (fun j => if j <? i then R (j + 1) else R j))); [lia| |].
  - eapply rep_ext; [exact Hr| |]; intros j Hj; slot_cases.
  - intros i a Hi Ha.
    assert (Hka : key_at h a (i + 1) = K (i + 1)) by (rewrite (rep_key _ _ _ _ _ _ _ Ha) by lia; slot_cases).
    assert (Hra : rid_of h a (i + 1) = R (i + 1)) by (rewrite (rep_rid _ _ _ _ _ _ _ Ha) by lia; slot_cases).
    rewrite Hka, Hra. eapply rep_ext; [apply rep_set_entry; [done|exact Ha|lia| |]| |].
    + eapply rep_key_len; [done|exact Hr|lia].
    + eapply rep_rid_ok; [exact Hr|lia].
    + intros j Hj. slot_cases.
    + intros j Hj. slot_cases.
Qed.

(** The separator of the parent is replaced, nothing else there changes. *)
Lemma set_separator pn k x :
  node_ok h pn -> 0 <= k < key_num pn -> alen x = key_length h ->
  node_ok h (set_key h k x pn) /\ keys_of h (set_key h k x pn) = aset (keys_of h pn) k x /\
  children_of h (set_key h k x pn) = children_of h pn /\
  is_leaf (set_key h k x pn) = is_leaf pn /\ parent (set_key h k x pn) = parent pn.
Proof.
  intros [Hlen Hnum] Hk Hx. pose proof (rep_self h pn Hlen) as Hrep.
  pose proof (rep_set_key h Hh _ _ _ _ _ _ k x Hrep ltac:(lia) Hx) as Hr.
  assert (Hl : alen (keys_of h pn) = key_num pn) by (apply alen_tabulate; lia).
  split_and!; try apply Hr; [by eapply rep_node_ok| |by rewrite (rep_children h _ _ _ _ _ _ Hr) by lia].
  rewrite (rep_keys h _ _ _ _ _ _ Hr) by lia. apply tabulate_eq; [by rewrite alen_aset|].
  intros i Hi. rewrite aget_aset by (rewrite Hl; lia). unfold keys_of. rewrite aget_tabulate by lia. slot_cases.
Qed.

Lemma key_len_at d i : node_ok h d -> 0 <= i < order h -> alen (key_at h d i) = key_length h.
Proof. intros [Hlen _] Hi. eapply rep_key_len; [done|by apply rep_self|done]. Qed.

(** [redistribute_nodes] when the left leaf is short: the first entry of the right leaf, key and
    RID, moves to the end of the left one, and the separator becomes the first key that
    remains on the right. *)
Theorem redistribute_leaf_from_right_ok k l r pn :
  node_ok h l -> node_ok h r -> node_ok h pn ->
  key_num l < order h - 1 -> 2 <= key_num r -> 0 <= k < key_num pn ->
  let '(l', r', pn') := redistribute_leaf_from_right h k l r pn in
  node_ok h l' /\ node_ok h r' /\ node_ok h pn' /\
  keys_of h l' = keys_of h l ++ [key_at h r 0] /\ rids_of h l' = rids_of h l ++ [rid_of h r 0] /\
  keys_of h r' = delete_at 0 (keys_of h r) /\ rids_of h r' = delete_at 0 (rids_of h r) /\
  keys_of h pn' = aset (keys_of h pn) k (key_at h r 1) /\ children_of h pn' = children_of h pn /\
  next_leaf h l' = next_leaf h l /\ next_leaf h r' = next_leaf h r.
Proof.
  intros Hl Hr Hp Hroom Hmin Hk. pose proof Hl as [Hll Hln]. pose proof Hr as [Hrl Hrn].
  pose proof (order_bound h Hh) as Hob. unfold redistribute_leaf_from_right.
  pose proof (rep_set_entry h Hh l _ _ _ _ _ (key_num l) (key_at h r 0) (rid_of h r 0) (rep_self h l Hll)
    ltac:(lia) ltac:(apply key_len_at; [done|lia]) ltac:(apply rid_at_ok)) as H1.
  pose proof (rep_set_key_num h Hh _ _ _ _ _ _ (key_num l + 1) H1 ltac:(apply small_int32; lia)) as H2.
  pose proof (shift_left_rep r _ _ _ _ _ (rep_self h r Hrl) ltac:(lia)) as H3.
  assert (Hsep : key_at h (shift_left h r) 0 = key_at h r 1)
    by (rewrite (rep_key _ _ _ _ _ _ _ H3) by lia; slot_cases).
  destruct (set_separator pn k (key_at h r 1) Hp Hk ltac:(apply key_len_at; [done|lia])) as (Q1 & Q2 & Q3 & _).
  rewrite Hsep. split_and!; try done.
  - eapply rep_node_ok; [exact H2|lia].
  - eapply rep_node_ok; [exact H3|lia].
  - rewrite (rep_keys h _ _ _ _ _ _ H2) by lia. rewrite (tabulate_snoc _ (key_at h l)); [|lia|intros j Hj; slot_cases].
    unfold fupd. by rewrite Z.eqb_refl.
  - rewrite (rep_rids h _ _ _ _ _ _ H2) by lia. rewrite (tabulate_snoc _ (rid_of h l)); [|lia|intros j Hj; slot_cases].
    unfold fupd. by rewrite Z.eqb_refl.
  - rewrite (rep_keys h _ _ _ _ _ _ H3) by lia. apply tabulate_delete; [lia|]. intros j Hj. slot_cases.
  - rewrite (rep_rids h _ _ _ _ _ _ H3) by lia. apply tabulate_delete; [lia|]. intros j Hj. slot_cases.
  - rewrite (rep_next h Hh _ _ _ _ _ _ H2). unfold next_leaf, child. slot_cases.
  - rewrite (rep_next h Hh _ _ _ _ _ _ H3). unfold next_leaf, child. slot_cases.
Qed.

Lemma shift_right_0 d :
  node_ok h d ->
  rep h (shift_right h 0 d) (key_num d) (is_leaf d) (parent d)
    (fun j => if (0 <? j) && (j <=? key_num d) then key_at h d (j - 1) else key_at h d j)
    (fun j => if (0 <? j) && (j <=? key_num d) then rid_of h d (j - 1) else rid_of h d j).
Proof. intros [Hlen Hnum]. apply shift_right_rep; [done|by apply rep_self|lia|lia]. Qed.

(** [redistribute_nodes] when the right leaf is short: the last key of the left leaf moves to
    the front of the right one, but its RID does not: the right leaf has the RID of its own
    first entry twice, so the moved key points to another record, and the RID is lost. *)
Theorem redistribute_leaf_from_left_loses_rid k l r pn :
  node_ok h l -> node_ok h r -> node_ok h pn ->
  1 <= key_num l -> key_num r < order h - 1 -> 0 <= k < key_num pn ->
  let last := key_num l - 1 in
  let '(l', r', pn') := redistribute_leaf_from_left h k l r pn in
  keys_of h l' = take (Z.to_nat last) (keys_of h l) /\ rids_of h l' = take (Z.to_nat last) (rids_of h l) /\
  keys_of h r' = key_at h l last :: keys_of h r /\
  rids_of h r' = rid_of h r 0 :: rids_of h r /\
  keys_of h pn' = aset (keys_of h pn) k (key_at h l last) /\ children_of h pn' = children_of h pn.
Proof.
  intros Hl Hr Hp Hmin Hroom Hk last. pose proof Hl as [Hll Hln]. pose proof Hr as [Hrl Hrn].
  pose proof (order_bound h Hh) as Hob. unfold redistribute_leaf_from_left. fold last.
  assert (Hx : alen (key_at h l last) = key_length h) by (apply key_len_at; [done|unfold last; lia]).
  pose proof (rep_set_key_num h Hh _ _ _ _ _ _ last (rep_self h l Hll) ltac:(apply small_int32; unfold last; lia)) as H1.
  pose proof (rep_set_key h Hh _ _ _ _ _ _ 0 (key_at h l last) (shift_right_0 r Hr) ltac:(lia) Hx) as H2.
  rewrite (rep_num _ _ _ _ _ _ _ H2).
  pose proof (rep_set_key_num h Hh _ _ _ _ _ _ (key_num r + 1) H2 ltac:(apply small_int32; lia)) as H3.
  assert (Hsep : key_at h (set_key_num (key_num r + 1) (set_key h 0 (key_at h l last) (shift_right h 0 r))) 0 = key_at h l last)
    by (rewrite (rep_key _ _ _ _ _ _ _ H3) by lia; done).
  destruct (set_separator pn k (key_at h l last) Hp Hk Hx) as (_ & Q2 & Q3 & _).
  rewrite Hsep. split_and!; try done.
  - rewrite (rep_keys h _ _ _ _ _ _ H1) by (unfold last; lia). symmetry. apply tabulate_take. unfold last; lia.
  - rewrite (rep_rids h _ _ _ _ _ _ H1) by (unfold last; lia). symmetry. apply tabulate_take. unfold last; lia.
  - rewrite (rep_keys h _ _ _ _ _ _ H3) by lia. apply tabulate_cons; [lia|]. intros j Hj. slot_cases.
  - rewrite (rep_rids h _ _ _ _ _ _ H3) by lia.
    rewrite (tabulate_cons _ (rid_of h r)); [done|lia|intros j Hj; slot_cases].
Qed.

(** [redistribute_nodes] on inner nodes, from the right sibling: separator, keys and the moved
    child are right, but the loop moves one child too few.  The right node lists its last
    but one child twice and its last child, with the whole subtree, is lost. *)
Theorem redistribute_inner_from_right_loses_child k l r pn :
  node_ok h l -> node_ok h r -> node_ok h pn ->
  key_num l < order h - 1 -> 1 <= key_num r -> 0 <= k < key_num pn ->
  let '(l', r', pn') := redistribute_inner_from_right h k l r pn in
  keys_of h l' = keys_of h l ++ [key_at h pn k] /\ children_of h l' = children_of h l ++ [rid_of h r 0] /\
  keys_of h r' = delete_at 0 (keys_of h r) /\
  children_of h r' = delete_at 0 (rids_of h r) ++ [rid_of h r (key_num r - 1)] /\
  keys_of h pn' = aset (keys_of h pn) k (key_at h r 0) /\ children_of h pn' = children_of h pn.
Proof.
  intros Hl Hr Hp Hroom Hmin Hk. pose proof Hl as [Hll Hln]. pose proof Hr as [Hrl Hrn]. pose proof Hp as [Hpl Hpn].
  pose proof (order_bound h Hh) as Hob. unfold redistribute_inner_from_right.
  pose proof (rep_set_key h Hh _ _ _ _ _ _ (key_num l) (key_at h pn k) (rep_self h l Hll) ltac:(lia)
    ltac:(apply key_len_at; [done|lia])) as H1.
  pose proof (rep_set_rid h Hh _ _ _ _ _ _ (key_num l + 1) (rid_of h r 0) H1 ltac:(lia) ltac:(apply rid_at_ok)) as H2.
  pose proof (rep_set_key_num h Hh _ _ _ _ _ _ (key_num l + 1) H2 ltac:(apply small_int32; lia)) as H3.
  pose proof (shift_left_rep r _ _ _ _ _ (rep_self h r Hrl) ltac:(lia)) as H4.
  destruct (set_separator pn k (key_at h r 0) Hp Hk ltac:(apply key_len_at; [done|lia])) as (_ & Q2 & Q3 & _).
  split_and!; try done.
  - rewrite (rep_keys h _ _ _ _ _ _ H3) by lia. rewrite (tabulate_snoc _ (key_at h l)); [|lia|intros j Hj; slot_cases].
    unfold fupd. by rewrite Z.eqb_refl.
  - rewrite (rep_children h _ _ _ _ _ _ H3) by lia. rewrite (tabulate_snoc _ (rid_of h l)); [|lia|intros j Hj; slot_cases].
    unfold fupd. by rewrite Z.eqb_refl.
  - rewrite (rep_keys h _ _ _ _ _ _ H4) by lia. apply tabulate_delete; [lia|]. intros j Hj. slot_cases.
  - rewrite (rep_children h _ _ _ _ _ _ H4) by lia.
    rewrite (tabulate_snoc _ (fun j => rid_of h r (j + 1))); [|lia|intros j Hj; slot_cases].
    f_equal; [|by destruct (Z.ltb_spec (key_num r - 1) (key_num r - 1)); [lia|]].
    apply tabulate_delete; [lia|]. intros j Hj. slot_cases.
Qed.

End delete.

(** ** Concrete cases *)

Lemma remove_entry_ok_witness : key_num (remove_entry demo_header 1 (demo_node 1 2)) = 1.
Proof.
  destruct (demo_node_ok 1 2) as (Hok & Hn & _); [apply demo_int32; lia|lia|].
  destruct (remove_entry_ok demo_header demo_header_ok (demo_node 1 2) 1 Hok) as (_ & H & _).
  - rewrite Hn. lia.
  - rewrite H, Hn. reflexivity.
Defined.

Lemma coalesce_ok_witness :
  next_leaf demo_header (coalesce demo_header (demo_key 7) (demo_node 1 1) (demo_node 1 1)) =
  next_leaf demo_header (demo_node 1 1).
Proof.
  destruct (demo_node_ok 1 1) as (Hok & Hn & Hl); [apply demo_int32; lia|lia|].
  destruct (coalesce_ok demo_header demo_header_ok (demo_key 7) (demo_node 1 1) (demo_node 1 1) Hok Hok (alen_demo_key 7)) as [H _].
  destruct H as (_ & _ & _ & _ & _ & H).
  - rewrite Hl. discriminate.
  - rewrite Hn. change (order demo_header) with 3. lia.
  - exact H.
Defined.

Lemma redistribute_leaf_from_right_ok_witness :
  alen (rids_of demo_header (redistribute_leaf_from_right demo_header 0 (demo_node 1 0) (demo_node 1 2) (demo_node 0 1)).1.1) = 1.
Proof.
  destruct (demo_node_ok 1 0) as (H1 & N1 & _); [apply demo_int32; lia|lia|].
  destruct (demo_node_ok 1 2) as (H2 & N2 & _); [apply demo_int32; lia|lia|].
  destruct (demo_node_ok 0 1) as (H3 & N3 & _); [apply demo_int32; lia|lia|].
  pose proof (redistribute_leaf_from_right_ok demo_header demo_header_ok 0 _ _ _ H1 H2 H3) as H.
  rewrite N1, N2, N3 in H. specialize (H eq_refl ltac:(lia) ltac:(lia)).
  destruct (redistribute_leaf_from_right _ _ _ _ _) as [[l r] p].
  destruct H as (_ & _ & _ & _ & H & _). simpl. rewrite H, alen_app. unfold rids_of.
  rewrite alen_tabulate by (rewrite N1; lia). rewrite N1. reflexivity.
Defined.

Lemma redistribute_leaf_from_left_loses_rid_witness :
  aget (rids_of demo_header (redistribute_leaf_from_left demo_header 0 (demo_node 1 2) (demo_node 1 1) (demo_node 0 1)).1.2) 0 =
  aget (rids_of demo_header (redistribute_leaf_from_left demo_header 0 (demo_node 1 2) (demo_node 1 1) (demo_node 0 1)).1.2) 1.
Proof.
  destruct (demo_node_ok 1 2) as (H1 & N1 & _); [apply demo_int32; lia|lia|].
  destruct (demo_node_ok 1 1) as (H2 & N2 & _); [apply demo_int32; lia|lia|].
  destruct (demo_node_ok 0 1) as (H3 & N3 & _); [apply demo_int32; lia|lia|].
  pose proof (redistribute_leaf_from_left_loses_rid demo_header demo_header_ok 0 _ _ _ H1 H2 H3) as H. cbv zeta in H.
  rewrite N1, N2, N3 in H. specialize (H ltac:(lia) eq_refl ltac:(lia)).
  destruct (redistribute_leaf_from_left _ _ _ _ _) as [[l r] p].
  destruct H as (_ & _ & _ & H & _). simpl. rewrite H, aget_cons_0, aget_cons by lia. unfold rids_of.
  rewrite aget_tabulate by (rewrite N2; lia). reflexivity.
Defined.

Lemma redistribute_inner_from_right_loses_child_witness :
  alen (children_of demo_header
    (redistribute_inner_from_right demo_header 0 (demo_node 0 0) (demo_node 0 2) (demo_node 0 1)).1.1) = 2.
Proof.
  destruct (demo_node_ok 0 0) as (H1 & N1 & _); [apply demo_int32; lia|lia|].
  destruct (demo_node_ok 0 2) as (H2 & N2 & _); [apply demo_int32; lia|lia|].
  destruct (demo_node_ok 0 1) as (H3 & N3 & _); [apply demo_int32; lia|lia|].
  pose proof (redistribute_inner_from_right_loses_child demo_header demo_header_ok 0 _ _ _ H1 H2 H3) as H.
  rewrite N1, N2, N3 in H. specialize (H eq_refl ltac:(lia) ltac:(lia)).
  destruct (redistribute_inner_from_right _ _ _ _ _) as [[l r] p].
  destruct H as (_ & H & _). simpl. rewrite H, alen_app. unfold children_of.
  rewrite alen_tabulate by (rewrite N1; lia). rewrite N1. reflexivity.
Defined.
