(* ===== verification/BTreeOrder.v ===== *)
(** * Order of the keys in a node

    [KeyOrder] is what the searches and the insertions need of the comparison; the keys of
    integer, string and date indexes have it.  With it the searches find the slot of a
    key, and insertion and split keep a leaf strictly sorted. *)
From S2P Require Import Prelude Bitmap Memory OsFile RecordPage KeyCompare BTreeNode.
From S2P Require Import BTreeNodeLaws BTreeInsertLemmas BTreeInsert.

Class KeyOrder (f : list Z -> list Z -> Z) (P : list Z -> Prop) : Prop := {
  ko_antisym a b : P a -> P b -> f b a = - f a b;
  ko_trans a b c : P a -> P b -> P c -> f a b <= 0 -> f b c <= 0 -> f a c <= 0;
  ko_lt_trans a b c : P a -> P b -> P c -> f a b < 0 -> f b c <= 0 -> f a c < 0 }.

(** Keys of a header: blocks of the length of a key. *)
Definition is_key (h : IndexFileHeader) (k : list Z) : Prop := alen k = key_length h.

Record ordered_header (h : IndexFileHeader) : Prop := {
  oh_ok : header_ok h;
  oh_type : ordered_type (attr_of_code (attr_type h)) = true;
  oh_len : 4 <= attr_length h }.

Lemma header_key_order h : ordered_header h -> KeyOrder (cmp h) (is_key h).
Proof.
  intros [[_ Hk _ _] Ht Hl].
  assert (Hb : forall k, is_key h k -> key_block (attr_length h) k)
    by (intros k E; unfold is_key, key_block, sizeof_RID in *; lia).
  split; unfold cmp; intros.
  - by apply (CmpKey_order _ _ a b b Ht); auto.
  - destruct (CmpKey_order _ _ a b c Ht (Hb _ H) (Hb _ H0) (Hb _ H1)) as (_ & Hle & _). auto.
  - destruct (CmpKey_order _ _ a b c Ht (Hb _ H) (Hb _ H0) (Hb _ H1)) as (_ & _ & Hlt & _). auto.
Qed.

Section order.
Context (f : list Z -> list Z -> Z) (P : list Z -> Prop) `{KO : !KeyOrder f P}.
Implicit Types (ks : list (list Z)) (k : list Z) (i j pos : Z).

Definition sorted_by ks : Prop := forall i j, 0 <= i -> i < j -> j < alen ks -> f (aget ks i) (aget ks j) < 0.

Definition all_keys ks : Prop := forall i, 0 <= i < alen ks -> P (aget ks i).

Lemma ko_le_lt a b c : P a -> P b -> P c -> f a b <= 0 -> f b c < 0 -> f a c < 0.
Proof.
  intros Ha Hb Hc H1 H2. destruct (decide (f a c < 0)); [done|]. exfalso.
  pose proof (ko_antisym a c Ha Hc). pose proof (ko_antisym a b Ha Hb).
  pose proof (ko_lt_trans b c a Hb Hc Ha H2 ltac:(lia)). lia.
Qed.

(** The slot of a search in sorted keys separates the smaller keys from the others. *)
Lemma search_split ks k (p : Z -> bool) s (strict : bool) :
  sorted_by ks -> all_keys ks -> P k -> 0 <= s <= alen ks ->
  (forall i, p i = if strict then f k (aget ks i) <? 0 else f k (aget ks i) <=? 0) ->
  (forall i, 0 <= i < s -> p i = false) -> (s < alen ks -> p s = true) ->
  (forall i, 0 <= i < s -> if strict then f (aget ks i) k <= 0 else f (aget ks i) k < 0) /\
  (forall i, s <= i < alen ks -> if strict then f k (aget ks i) < 0 else f k (aget ks i) <= 0).
Proof.
  intros Hs Ha Hk Hr Hp Hlow Hat. split; intros i Hi.
  - specialize (Hlow i Hi). rewrite Hp in Hlow. rewrite (ko_antisym k (aget ks i)) by (try apply Ha; lia || done).
    destruct strict; lia.
  - specialize (Hat ltac:(lia)). rewrite Hp in Hat.
    destruct (decide (i = s)) as [->|]; [destruct strict; lia|].
    pose proof (Hs s i ltac:(lia) ltac:(lia) ltac:(lia)).
    assert (f k (aget ks i) < 0); [|destruct strict; lia].
    apply (ko_le_lt _ (aget ks s)); try apply Ha; try lia; [done|destruct strict; lia].
Qed.

(** Insertion between the smaller and the greater keys keeps the order. *)
Lemma sorted_insert ks k pos :
  sorted_by ks -> 0 <= pos <= alen ks ->
  (forall i, 0 <= i < pos -> f (aget ks i) k < 0) -> (forall i, pos <= i < alen ks -> f k (aget ks i) < 0) ->
  sorted_by (insert_at pos k ks).
Proof.
  intros Hs Hpos Hlow Hup i j Hi Hij Hj. rewrite alen_insert_at in Hj by done.
  rewrite !aget_insert_at by lia.
  destruct (Z.ltb_spec i pos), (Z.ltb_spec j pos); try lia; [by apply Hs; lia| |].
  - destruct (Z.eqb_spec j pos); [by apply Hlow|apply Hs; lia].
  - destruct (Z.eqb_spec i pos), (Z.eqb_spec j pos); try lia; [apply Hup; lia|apply Hs; lia].
Qed.

Lemma sorted_delete ks pos : sorted_by ks -> 0 <= pos < alen ks -> sorted_by (delete_at pos ks).
Proof.
  intros Hs Hpos i j Hi Hij Hj. rewrite alen_delete_at in Hj by done. rewrite !aget_delete_at by lia.
  destruct (Z.ltb_spec i pos), (Z.ltb_spec j pos); try lia; apply Hs; lia.
Qed.

(** Both halves of a sorted list are sorted, and every key of the first is smaller than every key
    of the second. *)
Lemma sorted_halves ks m :
  sorted_by ks -> 0 <= m <= alen ks ->
  sorted_by (take (Z.to_nat m) ks) /\ sorted_by (drop (Z.to_nat m) ks) /\
  (forall i j, 0 <= i < m -> 0 <= j < alen ks - m ->
    f (aget (take (Z.to_nat m) ks) i) (aget (drop (Z.to_nat m) ks) j) < 0).
Proof.
  intros Hs Hm. split_and!.
  - intros i j Hi Hij Hj. rewrite alen_take in Hj by done. rewrite !aget_take by lia. apply Hs; lia.
  - intros i j Hi Hij Hj. rewrite alen_drop in Hj by done. rewrite !aget_drop by lia. apply Hs; lia.
  - intros i j Hi Hj. rewrite aget_take, aget_drop by lia. apply Hs; lia.
Qed.
End order.

Section node_order.
Context (h : IndexFileHeader) (Ho : ordered_header h).
#[local] Instance ko : KeyOrder (cmp h) (is_key h) := header_key_order h Ho.

Lemma alen_keys d : node_ok h d -> alen (keys_of h d) = key_num d.
Proof. intros [_ Hn]. apply alen_tabulate. lia. Qed.

Lemma aget_keys d i : 0 <= i < key_num d -> aget (keys_of h d) i = key_at h d i.
Proof. intros Hi. by apply aget_tabulate. Qed.

Lemma keys_are_keys d : node_ok h d -> all_keys (is_key h) (keys_of h d).
Proof.
  intros Hd i Hi. rewrite (alen_keys d Hd) in Hi. rewrite aget_keys by done. destruct Hd as [Hl Hn].
  unfold is_key. eapply rep_key_len; [apply Ho|by apply rep_self|lia].
Qed.

Definition sorted_node d : Prop := sorted_by (cmp h) (keys_of h d).

(** Membership, decided as the program does. *)
Definition has_key k d : Prop := exists i, 0 <= i < key_num d /\ cmp h k (key_at h d i) = 0.

Lemma upper_slot_spec k d :
  node_ok h d -> sorted_node d -> is_key h k ->
  0 <= upper_slot h k d <= key_num d /\
  (forall i, 0 <= i < upper_slot h k d -> cmp h (key_at h d i) k <= 0) /\
  (forall i, upper_slot h k d <= i < key_num d -> cmp h k (key_at h d i) < 0).
Proof.
  intros Hd Hs Hk. pose proof (alen_keys d Hd) as Hl. destruct (Hd) as [_ Hn]. unfold upper_slot.
  destruct (scan_spec 0 (key_num d) (fun i => cmp h k (key_at h d i) <? 0) ltac:(lia)) as (H1 & H2 & H3).
  set (s := scan _ _ _) in *.
  destruct (search_split (cmp h) (is_key h) (keys_of h d) k (fun i => cmp h k (aget (keys_of h d) i) <? 0) s true
    Hs (keys_are_keys d Hd) Hk ltac:(lia)) as [Q1 Q2]; [done| | |].
  - intros i Hi. rewrite aget_keys by lia. by apply H2.
  - intros Hi. rewrite aget_keys by lia. apply H3. lia.
  - split_and!; [lia|lia| |]; intros i Hi; [specialize (Q1 i Hi)|specialize (Q2 i ltac:(lia))];
      rewrite aget_keys in * by lia; done.
Qed.

Lemma lower_slot_spec k d :
  node_ok h d -> sorted_node d -> is_key h k ->
  0 <= lower_slot h k d <= key_num d /\
  (forall i, 0 <= i < lower_slot h k d -> cmp h (key_at h d i) k < 0) /\
  (forall i, lower_slot h k d <= i < key_num d -> cmp h k (key_at h d i) <= 0).
Proof.
  intros Hd Hs Hk. pose proof (alen_keys d Hd) as Hl. destruct (Hd) as [_ Hn]. unfold lower_slot.
  destruct (scan_spec 0 (key_num d) (fun i => cmp h k (key_at h d i) <=? 0) ltac:(lia)) as (H1 & H2 & H3).
  set (s := scan _ _ _) in *.
  destruct (search_split (cmp h) (is_key h) (keys_of h d) k (fun i => cmp h k (aget (keys_of h d) i) <=? 0) s false
    Hs (keys_are_keys d Hd) Hk ltac:(lia)) as [Q1 Q2]; [done| | |].
  - intros i Hi. rewrite aget_keys by lia. by apply H2.
  - intros Hi. rewrite aget_keys by lia. apply H3. lia.
  - split_and!; [lia|lia| |]; intros i Hi; [specialize (Q1 i Hi)|specialize (Q2 i ltac:(lia))];
      rewrite aget_keys in * by lia; done.
Qed.

(** In a sorted leaf the test of [insert_into_leaf] at the slot found decides membership. *)
Lemma lower_slot_member k d :
  node_ok h d -> sorted_node d -> is_key h k ->
  has_key k d <-> lower_slot h k d < key_num d /\ cmp h k (key_at h d (lower_slot h k d)) = 0.
Proof.
  intros Hd Hs Hk. destruct (lower_slot_spec k d Hd Hs Hk) as (H1 & H2 & H3). split.
  - intros (i & Hi & He). set (s := lower_slot h k d) in *.
    assert (Hki : is_key h (key_at h d i)) by (rewrite <- aget_keys by done; apply keys_are_keys; [done|by rewrite alen_keys]).
    pose proof (ko_antisym k (key_at h d i) Hk Hki).
    destruct (decide (i < s)); [specialize (H2 i ltac:(lia)); lia|]. split; [lia|].
    destruct (decide (i = s)) as [<-|]; [done|].
    pose proof (Hs s i ltac:(lia) ltac:(lia) ltac:(rewrite alen_keys by done; lia)) as Hlt.
    rewrite !aget_keys in Hlt by lia. specialize (H3 s ltac:(lia)).
    assert (Hks : is_key h (key_at h d s)) by (rewrite <- aget_keys by lia; apply keys_are_keys; [done|rewrite alen_keys by done; lia]).
    pose proof (ko_le_lt (cmp h) (is_key h) k (key_at h d s) (key_at h d i) Hk Hks Hki H3 Hlt). lia.
  - intros [Hlt He]. exists (lower_slot h k d). split; [lia|done].
Qed.

(** An insertion with room keeps the leaf sorted. *)
Lemma insert_room_sorted d k rid :
  node_ok h d -> sorted_node d -> is_key h k -> rid_ok rid -> ~ has_key k d -> key_num d < order h - 1 ->
  sorted_node (leaf_insert h (lower_slot h k d) k rid d).
Proof.
  intros Hd Hs Hk Hrid Hno Hroom. pose proof (alen_keys d Hd) as Hl.
  destruct (lower_slot_spec k d Hd Hs Hk) as (H1 & H2 & H3). set (pos := lower_slot h k d) in *.
  destruct (leaf_insert_spec h (oh_ok h Ho) d pos k rid Hd Hroom H1 Hk Hrid) as (_ & _ & _ & _ & Hkeys & _).
  unfold sorted_node. rewrite Hkeys. apply sorted_insert; [done|lia| |]; intros i Hi; rewrite aget_keys by lia.
  - by apply H2.
  - specialize (H3 i ltac:(lia)). assert (cmp h k (key_at h d i) <> 0) by (intros E; apply Hno; exists i; split; [lia|done]). lia.
Qed.

(** [insert_into_leaf] on a sorted leaf: the duplicate test at the slot found fires exactly
    when the key is in the leaf; otherwise the leaf is strictly sorted after the
    insertion, with and without a split, and after a split every key of the old leaf
    is smaller than every key of the new one. *)
Theorem leaf_insert_sorted d new k rid new_page :
  node_ok h d -> sorted_node d -> is_key h k -> rid_ok rid -> is_int32 new_page ->
  alen new = BP_PAGE_DATA_SIZE ->
  let pos := lower_slot h k d in
  (has_key k d <-> pos < key_num d /\ cmp h k (key_at h d pos) = 0) /\
  (~ has_key k d ->
    (key_num d < order h - 1 -> sorted_node (leaf_insert h pos k rid d)) /\
    (key_num d = order h - 1 ->
      let '(l, r) := leaf_split h k rid new_page d new in
      sorted_node l /\ sorted_node r /\
      forall i j, 0 <= i < key_num l -> 0 <= j < key_num r -> cmp h (key_at h l i) (key_at h r j) < 0)).
Proof.
  intros Hd Hs Hk Hrid Hpage Hnew pos. split; [by apply lower_slot_member|]. intros Hno.
  pose proof (alen_keys d Hd) as Hl. pose proof (oh_ok h Ho) as Hh.
  assert (Hne : forall i, 0 <= i < key_num d -> cmp h k (key_at h d i) <> 0) by (intros i Hi E; apply Hno; by exists i).
  assert (Hneg : forall i, 0 <= i < key_num d -> cmp h (key_at h d i) k = - cmp h k (key_at h d i)).
  { intros i Hi. apply ko_antisym; [done|]. rewrite <- aget_keys by done. apply keys_are_keys; [done|by rewrite Hl]. }
  split.
  - intros Hroom. by apply insert_room_sorted.
  - intros Hfull. pose proof (leaf_split_spec h Hh d new k rid new_page Hd Hfull Hnew Hk Hrid Hpage) as Hsp.
    destruct (leaf_split h k rid new_page d new) as [l r].
    destruct Hsp as (Hokl & Hokr & Hkl & Hkr & _). destruct (upper_slot_spec k d Hd Hs Hk) as (H1 & H2 & H3).
    pose proof (ho_order h Hh) as Hor. pose proof (quot_half (order h) ltac:(lia)) as [_ Hhalf].
    assert (Hsorted : sorted_by (cmp h) (insert_at (upper_slot h k d) k (keys_of h d))).
    { apply sorted_insert; [done|lia| |]; intros i Hi; rewrite aget_keys by lia.
      - specialize (H2 i Hi). specialize (Hne i ltac:(lia)). specialize (Hneg i ltac:(lia)). lia.
      - apply H3. lia. }
    assert (Hlen : alen (insert_at (upper_slot h k d) k (keys_of h d)) = order h) by (rewrite alen_insert_at; lia).
    destruct (sorted_halves _ _ (order h / 2) Hsorted ltac:(lia)) as (S1 & S2 & S3).
    unfold sorted_node. rewrite Hkl, Hkr. split_and!; [done|done|]. intros i j Hi Hj.
    rewrite <- (aget_keys l), <- (aget_keys r) by done. rewrite Hkl, Hkr. apply S3.
    + rewrite <- (alen_keys l Hokl), Hkl, alen_take in Hi by lia. done.
    + rewrite <- (alen_keys r Hokr), Hkr, alen_drop in Hj by lia. done.
Qed.

End node_order.

(** ** A concrete leaf *)

Lemma demo_ordered : ordered_header demo_header.
Proof. split; [apply demo_header_ok|reflexivity|vm_compute; discriminate]. Qed.

Lemma demo_key_at leaf n i :
  is_int32 leaf -> 0 <= n <= 2 -> 0 <= i < 3 -> key_at demo_header (demo_node leaf n) i = demo_key 0.
Proof.
  intros Hl Hn Hi. pose proof demo_header_ok as Hh.
  assert (H0 : alen (replicate (Z.to_nat BP_PAGE_DATA_SIZE) 0) = BP_PAGE_DATA_SIZE)
    by (unfold alen; rewrite length_replicate; done).
  pose proof (rep_set_key_num demo_header Hh _ _ _ _ _ _ n (rep_self demo_header _ H0) ltac:(unfold is_int32; lia)) as H1.
  pose proof (rep_set_is_leaf demo_header Hh _ _ _ _ _ _ leaf H1 Hl) as H2. fold (demo_node leaf n) in H2.
  rewrite (rep_key _ _ _ _ _ _ _ H2) by (change (order demo_header) with 3; lia).
  assert (Hb : in_block (replicate (Z.to_nat BP_PAGE_DATA_SIZE) 0) (keys_off + i * key_length demo_header) (key_length demo_header))
    by (apply key_block_in; [done|done|change (order demo_header) with 3; lia]).
  apply array_eq; unfold key_at; rewrite alen_load by done; [by rewrite alen_demo_key|].
  intros j Hj. rewrite aget_load by done. unfold demo_key, aget.
  destruct Hb as (Hb1 & Hb2 & Hb3). rewrite H0 in Hb3. change BP_PAGE_DATA_SIZE with 4092 in *.
  destruct (Z.ltb_spec j 0), (Z.ltb_spec (keys_off + i * key_length demo_header + j) 0); try lia.
  rewrite !lookup_total_replicate_2; [done| |]; apply Z2Nat.inj_lt; lia.
Qed.

Lemma leaf_insert_sorted_witness :
  sorted_node demo_header
    (leaf_insert demo_header (lower_slot demo_header (demo_key 7) (demo_node 1 1)) (demo_key 7) (demo_rid 4 2) (demo_node 1 1)).
Proof.
  destruct (demo_node_ok 1 1) as (Hok & Hn & _); [apply demo_int32; lia|lia|].
  destruct (leaf_insert_sorted demo_header demo_ordered (demo_node 1 1) (demo_node 0 0) (demo_key 7) (demo_rid 4 2) 5 Hok)
    as [_ H].
  - intros i j Hi Hij Hj. unfold keys_of in Hj. rewrite alen_tabulate in Hj by (rewrite Hn; lia). lia.
  - apply alen_demo_key.
  - split; apply demo_int32; simpl; lia.
  - apply demo_int32; lia.
  - apply demo_page_len; [apply demo_int32; lia|lia].
  - apply H; [|rewrite Hn; reflexivity].
    intros (i & Hi & He). rewrite Hn in Hi. rewrite demo_key_at in He by (try apply demo_int32; lia).
    revert He. vm_compute. discriminate.
Defined.
