(* ===== verification/BTreeSearch.v ===== *)
(** * Search from the root

    [stree] says that the pages of the index form a search tree, [entry] that a key and
    a RID are in one of its leaves.  The descent of [find_leaf] ends in the only leaf that can hold
    the key, leaves the pages as they are and keeps the pool's invariant. *)
From S2P Require Import Prelude ReturnCode Effects Bitmap Memory Replacer OsFile BufferPool.
From S2P Require Import PoolInvariant PoolTheorems RecordPage KeyCompare BTreeNode.
From S2P Require Import BTree BTreeNodeLaws BTreeInsertLemmas BTreeInsert BTreeOrder.
From Stdlib Require Import String.

(** ** Search trees *)

Section tree.
Context (h : IndexFileHeader) (Ho : ordered_header h) (nodes : Z -> option (list Z)).
Implicit Types (page leaf i : Z) (d k : list Z) (lo hi : option (list Z)).
#[local] Instance ko : KeyOrder (cmp h) (is_key h) := header_key_order h Ho.

(** Keys of a subtree: from [lo] on, below [hi]. *)
Definition within lo hi k : Prop :=
  match lo with Some a => is_key h a /\ cmp h a k <= 0 | None => True end /\
  match hi with Some b => is_key h b /\ cmp h k b < 0 | None => True end.

(** The bounds of child [i]. *)
Definition child_lo lo d i : option (list Z) := if i =? 0 then lo else Some (key_at h d (i - 1)).
Definition child_hi hi d i : option (list Z) := if i =? key_num d then hi else Some (key_at h d i).

Inductive stree : nat -> Z -> option (list Z) -> option (list Z) -> Prop :=
| stree_leaf page d lo hi :
    nodes page = Some d -> node_ok h d -> is_leaf d <> 0 -> sorted_node h d ->
    (forall i, 0 <= i < key_num d -> within lo hi (key_at h d i)) -> stree 0 page lo hi
| stree_inner n page d lo hi :
    nodes page = Some d -> node_ok h d -> is_leaf d = 0 -> sorted_node h d ->
    (forall i, 0 <= i < key_num d -> within lo hi (key_at h d i)) ->
    (forall i, 0 <= i <= key_num d -> stree n (child h d i) (child_lo lo d i) (child_hi hi d i)) ->
    stree (S n) page lo hi.

(** The entries of a leaf: RID [r] is stored with a key equal to [k]. *)
Definition has_entry k (r : RID) d : Prop :=
  exists i, 0 <= i < key_num d /\ cmp h k (key_at h d i) = 0 /\ rid_of h d i = r.

(** The entries of the leaves below [page]. *)
Inductive entry k (r : RID) : nat -> Z -> Prop :=
| entry_leaf page d : nodes page = Some d -> is_leaf d <> 0 -> has_entry k r d -> entry k r 0 page
| entry_inner n page d i :
    nodes page = Some d -> is_leaf d = 0 -> 0 <= i <= key_num d -> entry k r n (child h d i) ->
    entry k r (S n) page.

(** The descent of [find_leaf]. *)
Inductive path k : nat -> Z -> Z -> Prop :=
| path_leaf page d : nodes page = Some d -> is_leaf d <> 0 -> path k 0 page page
| path_step n page leaf d :
    nodes page = Some d -> is_leaf d = 0 -> path k n (child h d (upper_slot h k d)) leaf ->
    path k (S n) page leaf.

Lemma within_entry k r n page lo hi :
  stree n page lo hi -> entry k r n page -> is_key h k -> within lo hi k.
Proof.
  intros Ht Hocc Hk. revert page lo hi Ht Hocc. induction n as [|n IH]; intros page lo hi Ht Hocc.
  - inversion Ht as [? d ? ? Hd Hok _ Hs Hw|]; subst. inversion Hocc as [? d' Hd' _ (i & Hi & He & _)|]; subst.
    assert (d' = d) as -> by congruence. specialize (Hw i Hi).
    assert (Hki : is_key h (key_at h d i)) by (rewrite <- aget_keys by done; apply keys_are_keys; [done|done|by rewrite alen_keys]).
    pose proof (ko_antisym _ _ Hk Hki) as Ha. destruct Hw as [Hlo Hhi]. split.
    + destruct lo as [a|]; [|done]. destruct Hlo as [Hka ?]. split; [done|].
      apply (ko_trans a (key_at h d i) k); try done. lia.
    + destruct hi as [b|]; [|done]. destruct Hhi as [Hkb ?]. split; [done|].
      apply (ko_le_lt (cmp h) (is_key h) k (key_at h d i) b); try done. lia.
  - inversion Ht as [|? ? d ? ? Hd Hok Hleaf Hs Hw Hc]; subst.
    inversion Hocc as [|? ? d' i Hd' _ Hi Hoc]; subst. assert (d' = d) as -> by congruence.
    specialize (IH _ _ _ (Hc i Hi) Hoc). destruct IH as [Hl Hh]. unfold child_lo, child_hi in *. split.
    + destruct (Z.eqb_spec i 0); [done|]. destruct lo as [a|]; [|done].
      destruct Hl as [Hkl Hl]. destruct (Hw (i - 1) ltac:(lia)) as [[Hka Ha] _]. split; [done|].
      by apply (ko_trans a (key_at h d (i - 1)) k).
    + destruct (Z.eqb_spec i (key_num d)); [done|]. destruct hi as [b|]; [|done].
      destruct Hh as [Hkh Hh]. destruct (Hw i ltac:(lia)) as [_ [Hkb Hb]]. split; [done|].
      apply (ko_lt_trans k (key_at h d i) b); try done. lia.
Qed.

(** The descent finds the only leaf that can hold the key. *)
Lemma path_complete k n page lo hi :
  stree n page lo hi -> is_key h k -> within lo hi k ->
  exists leaf d, path k n page leaf /\ nodes leaf = Some d /\ is_leaf d <> 0 /\ node_ok h d /\ sorted_node h d /\
    (forall r, entry k r n page <-> has_entry k r d).
Proof.
  intros Ht Hk. revert page lo hi Ht. induction n as [|n IH]; intros page lo hi Ht Hin.
  - inversion Ht as [? d ? ? Hd Hok Hleaf Hs Hw|]; subst. exists page, d. split_and!; try done.
    + by econstructor.
    + intros r. split; [|by econstructor]. intros Hocc. inversion Hocc; subst. congruence.
  - inversion Ht as [|? ? d ? ? Hd Hok Hleaf Hs Hw Hc]; subst.
    destruct (upper_slot_spec h Ho k d Hok Hs Hk) as (Hr & Hlow & Hup). set (s := upper_slot h k d) in *.
    assert (Hki : forall i, 0 <= i < key_num d -> is_key h (key_at h d i))
      by (intros i Hi; rewrite <- aget_keys by done; apply keys_are_keys; [done|done|by rewrite alen_keys]).
    destruct (IH _ _ _ (Hc s Hr)) as (leaf & ld & Hp & Hld & Hll & Hlo & Hls & Hocc).
    { split; unfold child_lo, child_hi.
      - destruct (Z.eqb_spec s 0); [apply Hin|]. split; [apply Hki; lia|apply Hlow; lia].
      - destruct (Z.eqb_spec s (key_num d)); [apply Hin|]. split; [apply Hki; lia|apply Hup; lia]. }
    exists leaf, ld. split_and!; try done; [by eapply path_step|]. intros r. rewrite <- Hocc. split.
    + intros Ho1. inversion Ho1 as [|? ? d' i Hd' _ Hi Hoc]; subst. assert (d' = d) as -> by congruence.
      destruct (within_entry k r n _ _ _ (Hc i Hi) Hoc Hk) as [Hl Hh]. unfold child_lo, child_hi in Hl, Hh.
      replace i with s in Hoc; [done|].
      destruct (Z.lt_trichotomy s i) as [Hlt|[?|Hlt]]; [exfalso|done|exfalso].
      * destruct (Z.eqb_spec i 0); [lia|]. destruct Hl as [_ Hl]. specialize (Hup (i - 1) ltac:(lia)).
        pose proof (ko_antisym k (key_at h d (i - 1)) Hk (Hki (i - 1) ltac:(lia))). lia.
      * destruct (Z.eqb_spec i (key_num d)); [lia|]. destruct Hh as [_ Hh]. specialize (Hlow i ltac:(lia)).
        pose proof (ko_antisym k (key_at h d i) Hk (Hki i ltac:(lia))). lia.
    + intros Hoc. by eapply entry_inner.
Qed.

End tree.

(** ** The descent over the buffer pool *)

Section search.
Context {R W : Type} `{ReplacerLaws R} `{OSLaws W} `{HashOrder}.
Implicit Types (s : BT R W) (page leaf f : Z) (k d : list Z).

Definition open_handle f : BPPageHandle := {| ph_open := true; ph_frame := Some f |}.

(** The pages of the index file that can be fetched: they exist, carry their number, are not
    the header page of the file, and their bit is inside the header. *)
Definition bt_nodes s page : option (list Z) :=
  match open_file_ (bt_pool s) !! bt_file_id s with
  | None => None
  | Some fh =>
      match view (bt_pool s) (fh_file_desc fh) page with
      | None => None
      | Some q =>
          if bool_decide (p_page_num q = page /\ 0 < page) && bit_in_header page then Some (p_data q) else None
      end
  end.

(** What a read-only operation keeps. *)
Record reads s s' : Prop := {
  rd_inv : pool_inv (bt_pool s) -> pool_inv (bt_pool s');
  rd_view : same_view (bt_pool s) (bt_pool s');
  rd_open : bt_open s' = bt_open s;
  rd_id : bt_file_id s' = bt_file_id s;
  rd_header : file_header_ s' = file_header_ s }.

#[export] Instance reads_preorder : PreOrder reads.
Proof.
  split.
  - intros s. by constructor.
  - intros s1 s2 s3 [I1 V1 O1 D1 F1] [I2 V2 O2 D2 F2]. constructor; [auto|by etrans|congruence..].
Qed.

Lemma reads_nodes s s' page d : reads s s' -> bt_nodes s page = Some d -> bt_nodes s' page = Some d.
Proof.
  intros [_ Hv _ Hid _]. unfold bt_nodes. rewrite (sv_files _ _ Hv), Hid.
  destruct (open_file_ (bt_pool s) !! bt_file_id s) as [fh|] eqn:Efh; [|done].
  destruct (view (bt_pool s) (fh_file_desc fh) page) as [q|] eqn:Eq; [|done].
  rewrite (sv_view _ _ Hv _ _ q); [done|by exists (bt_file_id s), fh|done].
Qed.

(** The blocks of [get_this_page] have no undefined behaviour. *)
Lemma sys_defined {A} (c : W -> A * W) : defined (@sys R W A c).
Proof. intros t. unfold sys. by destruct (c (world t)). Qed.
Local Hint Resolve sys_defined : defined.

Lemma flush_block_defined f : defined (@flush_block R W _ f).
Proof. unfold flush_block. defined_tac. Qed.
Local Hint Resolve flush_block_defined : defined.

Lemma allocate_block_defined : defined (allocate_block (R := R) (W := W)).
Proof. unfold allocate_block. apply defined_bind; [done|]. intros b. destruct (bpm_alloc b). defined_tac. Qed.

Lemma dispose_block_defined f : defined (dispose_block (R := R) (W := W) f).
Proof. unfold dispose_block. defined_tac. Qed.

Lemma load_page_defined pn fh f : defined (@load_page R W _ pn fh f).
Proof. unfold load_page. defined_tac. Qed.
Local Hint Resolve allocate_block_defined dispose_block_defined load_page_defined : defined.

Lemma get_this_page_defined id page (p : Pool R W) :
  bit_in_header page = true -> (get_this_page id page p).1 <> Ub /\ (get_this_page id page p).1 <> OutOfFuel.
Proof.
  intros Hbit. unfold get_this_page, get_this_page_h.
  apply defined_bind_at; [apply defined_bind_at|]; [|intros; defined_tac..].
  unfold try. destruct ((let! fh := check_file_id id in check_page_num page fh ;; ret fh) p) as [r p2] eqn:Ec.
  apply checks_run in Ec as [-> Hr]. unfold bit_in_header in Hbit.
  destruct r; simpl; split; try done; exfalso; lia.
Qed.

(** The codes with which the pool refuses a page. *)
Definition pool_error (rc : RC) : Prop :=
  rc = BUFFERPOOL_ILLEGAL_FILE_ID \/ rc = BUFFERPOOL_INVALID_PAGE_NUM \/ rc = NOMEM \/
  rc = IOERR_SEEK \/ rc = IOERR_READ \/ rc = IOERR_WRITE.

Definition pool_failed {A} (x : res A * BT R W) : Prop :=
  exists rc s', x = (Err rc, s') /\ pool_error rc.

Lemma get_this_page_codes id page (p p' : Pool R W) rc :
  get_this_page id page p = (Err rc, p') -> pool_error rc.
Proof.
  intros Hrun. unfold get_this_page, get_this_page_h in Hrun. rewrite bind_assoc in Hrun.
  destruct ((let! fh := check_file_id id in check_page_num page fh;; ret fh) p) as [r p1] eqn:Ec.
  rewrite (bind_try _ _ _ _ _ Ec) in Hrun. apply checks_run in Ec as [-> Hr].
  destruct r as [fh|rc1| |]; try discriminate Hrun.
  2: { rewrite bind_ret in Hrun. simpl in Hrun. unfold pool_error.
       destruct Hr as [->| ->]; simpl in Hrun; injection Hrun as <- _; auto. }
  rewrite bind_assoc, bind_gets in Hrun. destruct (bpm_get _ page (bpm p)) as [f|].
  { rewrite bind_assoc, bind_modify, bind_assoc, bind_modify, bind_ret in Hrun. discriminate Hrun. }
  rewrite bind_assoc in Hrun.
  destruct (allocate_block p) as [ra pa] eqn:Ea. rewrite (bind_try _ _ _ _ _ Ea) in Hrun.
  destruct ra as [f|rc1| |]; try discriminate Hrun.
  2: { rewrite bind_ret in Hrun. simpl in Hrun. unfold pool_error.
       destruct (decide (rc1 = SUCCESS)); [discriminate Hrun|]. injection Hrun as <- _.
       destruct (allocate_block_codes _ _ _ Ea) as [->|[->| ->]]; auto 10. }
  rewrite bind_assoc, bind_modify, bind_assoc in Hrun.
  destruct (load_page page fh f (upd_frame f (take_frame (fh_file_desc fh)) pa)) as [rl pl] eqn:El.
  rewrite (bind_rc_of _ _ _ _ _ El) in Hrun. destruct rl as [[]|rc1| |]; try discriminate Hrun; simpl in Hrun.
  destruct (decide (rc1 = SUCCESS)) as [|Hne].
  { rewrite bind_assoc, bind_modify, bind_ret in Hrun. discriminate Hrun. }
  rewrite bind_assoc, bind_modify, bind_assoc in Hrun.
  destruct (dispose_block f (upd_frame f (set_pin_count 0) pl)) as [rd pd] eqn:Ed.
  rewrite (bind_rc_of _ _ _ _ _ Ed) in Hrun.
  assert (Hrc : rc1 = rc).
  { destruct rd; try discriminate Hrun; rewrite bind_ret in Hrun; simpl in Hrun;
      rewrite decide_False in Hrun by done; by injection Hrun. }
  subst rc1. unfold pool_error. destruct (load_page_codes _ _ _ _ _ _ El) as [->| ->]; auto 10.
Qed.

Lemma pool_file_run s : bt_open s = true -> pool_file s = (Ok (bt_file_id s), s).
Proof. intros Ho. unfold pool_file. rewrite bind_gets, bind_undefined_if, Ho. done. Qed.

(** A page held by a caller: what [get_node] returns. *)
Record holds s page f d : Prop := {
  hd_data : data_of f (bt_pool s) = d;
  hd_num : p_page_num (f_page (frame_of f (bt_pool s))) = page;
  hd_cached : exists fh, open_file_ (bt_pool s) !! bt_file_id s = Some fh /\
    cached (bt_pool s) (fh_file_desc fh) page = Some f;
  hd_pinned : f ∉ evictables (bt_pool s);
  hd_header : forall id fh, open_file_ (bt_pool s) !! id = Some fh -> fh_hdr_frame fh <> f }.

Lemma get_node_ok s page d :
  bt_open s = true -> pool_inv (bt_pool s) -> bt_nodes s page = Some d ->
  pool_failed (get_node page s) \/
  (exists f s', get_node page s = (Ok (open_handle f, f), s') /\ reads s s' /\ holds s' page f d).
Proof.
  intros Hop Hinv Hn. unfold get_node. rewrite (bind_run _ _ _ _ _ (pool_file_run s Hop)).
  unfold bt_nodes in Hn. destruct (open_file_ (bt_pool s) !! bt_file_id s) as [fh|] eqn:Efh; [|done].
  destruct (view (bt_pool s) (fh_file_desc fh) page) as [q|] eqn:Eq; [|done].
  destruct (bool_decide _) eqn:Eb; [|done]. apply bool_decide_eq_true in Eb as [Hnum Hpos].
  destruct (bit_in_header page) eqn:Ebit; [|done]. simpl in Hn. injection Hn as <-.
  pose proof (get_this_page_defined (bt_file_id s) page (bt_pool s) Ebit) as Hdef.
  destruct (get_this_page (bt_file_id s) page (bt_pool s)) as [x p1] eqn:Eg; simpl in Hdef.
  assert (El : lift (get_this_page (bt_file_id s) page) s = (x, set_bt_pool p1 s)) by (unfold lift; by rewrite Eg).
  destruct x as [hd|rc| |]; try naive_solver.
  2: { left. rewrite (bind_run_Err _ _ _ _ _ El). eexists _, _. split; [done|]. by eapply get_this_page_codes. }

  right.
  assert (Hg : got_page (bt_pool s) p1 (bt_file_id s) page hd).
  { assert (Hex : page_exists (bt_pool s) (bt_file_id s) page) by (intros fh' Hfh'; simplify_eq; by exists q).
    unfold get_this_page, bind in Eg.
    destruct (get_this_page_h (bt_file_id s) page null_handle (bt_pool s)) as [[[rc0 h0]|rc0| |] p2] eqn:E2;
      simpl in Eg; try done. destruct (decide (rc0 = SUCCESS)) as [->|]; [|done].
    apply ret_inv in Eg as [[= ->] ->]. by eapply get_this_page_success. }
  destruct Hg as [Hi Hv (fh' & f & Hfh' & -> & Hc & Hev & Hpn & _)]. rewrite Efh in Hfh'. injection Hfh' as <-.
  assert (Hview : view p1 (fh_file_desc fh) page = Some q) by (apply (sv_view _ _ Hv); [by exists (bt_file_id s), fh|done]).
  unfold view in Hview. rewrite Hc in Hview. injection Hview as Hq.
  exists f, (set_bt_pool p1 s). split_and!; [by rewrite (bind_run _ _ _ _ _ El)|by constructor|]. constructor; simpl.
  - unfold data_of. by rewrite Hq.
  - by rewrite Hq.
  - exists fh. split; [|done]. by rewrite (sv_files _ _ Hv).
  - done.
  - intros id fh1 Hid Heq. destruct (pi_header p1 Hi id fh1 Hid) as [Hh _]. rewrite Heq in Hh.
    destruct (pi_inj p1 Hi _ _ _ _ _ Hc Hh) as [_ E0]. lia.
Qed.

Lemma unpin_ok s page f d :
  pool_inv (bt_pool s) -> holds s page f d ->
  exists s', bt_unpin (open_handle f) s = (Ok tt, s') /\ reads s s'.
Proof.
  intros Hinv [_ _ (fh0 & _ & Hc) Hev Hhdr]. destruct (pi_range _ Hinv _ _ _ Hc) as (Hf & _ & _).
  set (p := bt_pool s) in *. set (p1 := upd_frame f (fun fr => set_pin_count (f_pin_count fr - 1) fr) p).
  destruct (inv_upd_pin p f (f_pin_count (frame_of f p) - 1) Hinv Hf Hev) as [Hi1 Hv1].
  change (upd_frame f (set_pin_count (f_pin_count (frame_of f p) - 1)) p) with p1 in *.
  assert (Hrun : exists p2, unpin_page (open_handle f) p = (Ok {| ph_open := false; ph_frame := Some f |}, p2) /\
    pool_inv p2 /\ same_view p p2).
  { unfold unpin_page; simpl. rewrite bind_modify, bind_gets. fold p1.
    destruct (Z.eqb_spec (f_pin_count (frame_of f p1)) 0) as [E|E]; rewrite ?bind_modify, ?bind_ret.
    2: { exists p1. split_and!; [done|exact Hi1|exact Hv1]. }
    eexists. split; [done|]. split; [|etrans; [exact Hv1|by constructor]].
    set (p2 := set_bpm _ p1). pose proof (pi_replacer p Hinv) as Hrep.
    assert (Hsub : forall g, g ∈ evictables p2 -> g = f \/ g ∈ evictables p).
    { intros g Hg. unfold evictables, p2 in Hg; simpl in Hg. rewrite Unpin_evictable in Hg by done.
      destruct (decide _); [by right|]. apply elem_of_take in Hg as (i & Hg & _).
      apply list_elem_of_lookup_2 in Hg. by apply elem_of_cons in Hg. }
    destruct Hi1 as [I1 I2 I3 I4 I5 I6 I7 I8 I9 I10 I11]. constructor; try done.
    - simpl. by apply Unpin_ok.
    - intros g [->|Hg]%Hsub; [|by apply I8]. split; [exact E|by exists (fh_file_desc fh0), page].
    - intros id fh Hid. destruct (I9 id fh Hid) as [Hh Hne]. split; [done|].
      intros [Heq|?]%Hsub; [by apply (Hhdr id fh)|done]. }
  destruct Hrun as (p2 & Hr & Hi2 & Hv2). exists (set_bt_pool p2 s).
  unfold bt_unpin, lift, bind. change (bt_pool s) with p. rewrite Hr. split; [done|]. by constructor.
Qed.

(** The result of a search: an error code of the pool, or the leaf. *)
Definition found leaf s (x : res Z * BT R W) : Prop :=
  pool_failed x \/ (exists s', x = (Ok leaf, s') /\ reads s s').

Lemma found_reads leaf s s1 x : reads s s1 -> found leaf s1 x -> found leaf s x.
Proof. intros Hr [He|(s' & -> & Hr')]; [by left|]. right. exists s'. split; [done|by etrans]. Qed.

Lemma path_reads s s' k n page leaf :
  reads s s' -> path (file_header_ s) (bt_nodes s) k n page leaf ->
  path (file_header_ s') (bt_nodes s') k n page leaf.
Proof.
  intros Hr Hp. rewrite (rd_header _ _ Hr). induction Hp as [page d Hd Hl|n page leaf d Hd Hl Hp IH].
  - eapply path_leaf; [by eapply reads_nodes|done].
  - eapply path_step; [by eapply reads_nodes|done|done].
Qed.

Lemma descend_ok n fuel k s page leaf f d :
  path (file_header_ s) (bt_nodes s) k n page leaf -> (n <= fuel)%nat ->
  bt_open s = true -> pool_inv (bt_pool s) -> bt_nodes s page = Some d -> holds s page f d ->
  found leaf s (descend fuel k (open_handle f, f) s).
Proof.
  revert fuel s page f d. induction n as [|n IH]; intros fuel s page f d Hp Hfuel Hop Hinv Hd Hh.
  - inversion Hp as [? d' Hd' Hl|]; subst. rewrite Hd in Hd'. injection Hd' as <-.
    assert (E : descend fuel k (open_handle f, f) s =
      (let! leaf_page := lift (get_page_num (open_handle f)) in bt_unpin (open_handle f) ;; ret leaf_page) s).
    { pose proof (hd_data _ _ _ _ Hh) as Hdata. unfold node in *.
      destruct fuel; simpl; unfold header, node; rewrite !bind_gets, Hdata; destruct (Z.eqb_spec (is_leaf d) 0); done. }
    rewrite E. destruct (unpin_ok s leaf f d Hinv Hh) as (s' & Hun & Hr).
    unfold bind at 1, lift, get_page_num, open_handle; simpl. unfold bind, gets.
    rewrite (hd_num _ _ _ _ Hh). simpl. destruct s; simpl in *. unfold set_bt_pool; simpl.
    unfold open_handle in Hun. rewrite Hun. right. by exists s'.
  - inversion Hp as [|? ? ? d' Hd' Hl Hp']; subst. rewrite Hd in Hd'. injection Hd' as <-.
    destruct fuel as [|fuel]; [lia|].
    pose proof (hd_data _ _ _ _ Hh) as Hdata. simpl. unfold header, node. rewrite !bind_gets, Hdata, Hl. simpl.
    destruct (unpin_ok s page f d Hinv Hh) as (s1 & Hun & Hr1). rewrite (bind_run _ _ _ _ _ Hun).
    apply (found_reads _ _ s1 _ Hr1). pose proof (path_reads _ _ _ _ _ _ Hr1 Hp') as Hp1.
    set (c := child _ _ _) in *.
    assert (exists d1, bt_nodes s1 c = Some d1) as [d1 Hd1] by (inversion Hp1; eauto).
    assert (Hop1 : bt_open s1 = true) by (by rewrite (rd_open _ _ Hr1)).
    destruct (get_node_ok s1 c d1 Hop1 (rd_inv _ _ Hr1 Hinv) Hd1) as [(rc & s2 & Hg & Hrc)|(f2 & s2 & Hg & Hr2 & Hh2)].
    { rewrite (bind_run_Err _ _ _ _ _ Hg). left. by exists rc, s2. }
    rewrite (bind_run _ _ _ _ _ Hg). apply (found_reads _ _ s2 _ Hr2). apply (IH fuel s2 c f2 d1).
    + by apply (path_reads s1).
    + lia.
    + by rewrite (rd_open _ _ Hr2).
    + apply (rd_inv _ _ Hr2), (rd_inv _ _ Hr1), Hinv.
    + by apply (reads_nodes s1).
    + done.
Qed.

Lemma find_leaf_path n fuel k s leaf :
  path (file_header_ s) (bt_nodes s) k n (root_page (file_header_ s)) leaf -> (n <= fuel)%nat ->
  bt_open s = true -> pool_inv (bt_pool s) -> found leaf s (find_leaf fuel k s).
Proof.
  intros Hp Hfuel Hop Hinv. unfold find_leaf, header. rewrite bind_gets. set (c := root_page _) in *.
  assert (exists d1, bt_nodes s c = Some d1) as [d1 Hd1] by (inversion Hp; eauto).
  destruct (get_node_ok s c d1 Hop Hinv Hd1) as [(rc & s2 & Hg & Hrc)|(f2 & s2 & Hg & Hr2 & Hh2)].
  { rewrite (bind_run_Err _ _ _ _ _ Hg). left. by exists rc, s2. }
  rewrite (bind_run _ _ _ _ _ Hg). apply (found_reads _ _ s2 _ Hr2). apply (descend_ok n fuel k s2 c leaf f2 d1).
  - by apply (path_reads s).
  - done.
  - by rewrite (rd_open _ _ Hr2).
  - by apply (rd_inv _ _ Hr2).
  - by apply (reads_nodes s).
  - done.
Qed.

(** C7. [find_leaf] on a search tree of height [n], with fuel for [n] pages: it ends, either with an
    error code of the buffer pool or with a page; that page is a leaf, and the entries of
    the tree for the key are those of this leaf.  The content of every page, the header and the
    invariant of the pool are kept. *)
Theorem find_leaf_search n fuel k s :
  let h := file_header_ s in
  ordered_header h -> is_key h k -> bt_open s = true -> pool_inv (bt_pool s) ->
  stree h (bt_nodes s) n (root_page h) None None -> (n <= fuel)%nat ->
  exists leaf d,
    bt_nodes s leaf = Some d /\ is_leaf d <> 0 /\ sorted_node h d /\
    (forall r, entry h (bt_nodes s) k r n (root_page h) <-> has_entry h k r d) /\
    found leaf s (find_leaf fuel k s).
Proof.
  intros h Ho Hk Hop Hinv Ht Hfuel.
  destruct (path_complete h Ho (bt_nodes s) k n _ None None Ht Hk) as (leaf & d & Hp & Hd & Hl & _ & Hs & Hocc); [done|].
  exists leaf, d. split_and!; try done. by apply (find_leaf_path n).
Qed.

End search.

(** ** A concrete index: an empty one on integers, as [create] leaves it *)

Definition demo_bt : BT LRU.LRUReplacer MemFS.fs :=
  (create "t" 2 4 {| bt_pool := Demo.boot; bt_open := false; bt_file_id := 0; header_dirty_ := false;
                     file_header_ := new_header 0 0 0 |}).2.

Lemma demo_bt_inv : pool_inv (bt_pool demo_bt).
Proof.
  apply pool_check_sound; [|vm_compute; reflexivity].
  replace (replacer_ (bpm (bt_pool demo_bt))) with (Unpin 1 (Pin 1 (Pin 0 (LRU.create 2))))
    by (vm_compute; reflexivity).
  apply Unpin_ok. do 2 apply Pin_ok. by apply LRU.create_ok.
Qed.

Lemma demo_bt_header : file_header_ demo_bt = new_header 2 4 1 /\ bt_open demo_bt = true.
Proof. split; vm_compute; reflexivity. Qed.

(** Its root is an empty leaf. *)
Lemma demo_bt_root :
  exists d, bt_nodes demo_bt 1 = Some d /\ alen d = BP_PAGE_DATA_SIZE /\ key_num d = 0 /\ is_leaf d = 1.
Proof.
  assert (E : match bt_nodes demo_bt 1 with
    | Some d => bool_decide (alen d = BP_PAGE_DATA_SIZE /\ key_num d = 0 /\ is_leaf d = 1)
    | None => false end = true) by (vm_compute; reflexivity).
  destruct (bt_nodes demo_bt 1) as [d|]; [|done]. exists d. by apply bool_decide_eq_true in E.
Qed.

Lemma find_leaf_search_witness :
  exists leaf, found leaf demo_bt (find_leaf 0 (KeyCompare.demo_key 7 0) demo_bt).
Proof.
  destruct demo_bt_header as [Hh Hop]. destruct demo_bt_root as (d & Hd & Hlen & Hn & Hl).
  destruct (find_leaf_search 0 0 (KeyCompare.demo_key 7 0) demo_bt) as (leaf & ? & _ & _ & _ & _ & Hf).
  - rewrite Hh. split; [apply new_header_spec; lia|reflexivity|vm_compute; discriminate].
  - rewrite Hh. reflexivity.
  - exact Hop.
  - exact demo_bt_inv.
  - rewrite Hh. apply (stree_leaf _ _ _ d).
    + exact Hd.
    + split; [exact Hlen|]. rewrite Hn. split; [lia|vm_compute; discriminate].
    + rewrite Hl. discriminate.
    + intros i j Hi Hij Hj. unfold keys_of in Hj. rewrite Hn in Hj. exfalso. revert Hj. change (alen (tabulate 0 (key_at (new_header 2 4 1) d))) with 0. lia.
    + intros i Hi. rewrite Hn in Hi. lia.
  - lia.
  - by exists leaf.
Defined.
