(* ===== verification/BTreeIndex.v ===== *)
(** * The index as a map from keys to RIDs

    [get_entry] and [insert_entry] over the buffer pool, on search trees: looking up a key
    returns its RID, and inserting an entry into a leaf with room adds exactly this entry to
    the tree, keeps it a search tree and changes one page. *)
From S2P Require Import Prelude ReturnCode Effects Bitmap Memory Replacer OsFile BufferPool.
From S2P Require Import PoolInvariant PoolTheorems RecordPage KeyCompare BTreeNode BTree.
From S2P Require Import BTreeNodeLaws BTreeInsertLemmas BTreeInsert BTreeDelete BTreeOrder BTreeSearch.

(** ** Replacing one leaf of a tree *)

Section replace.
Context (h : IndexFileHeader) (Ho : ordered_header h).
Implicit Types (nodes : Z -> option (list Z)) (page leaf p i : Z) (d k : list Z).

(** [p] is in the subtree of [page]. *)
Inductive below nodes : nat -> Z -> Z -> Prop :=
| below_here n page : below nodes n page page
| below_child n page d i p :
    nodes page = Some d -> is_leaf d = 0 -> 0 <= i <= key_num d -> below nodes n (child h d i) p ->
    below nodes (S n) page p.

(** No page is in the subtrees of two children. *)
Inductive unshared nodes : nat -> Z -> Prop :=
| unshared_leaf page : unshared nodes 0 page
| unshared_inner n page d :
    nodes page = Some d -> is_leaf d = 0 ->
    (forall i, 0 <= i <= key_num d -> unshared nodes n (child h d i)) ->
    (forall i j p, 0 <= i <= key_num d -> 0 <= j <= key_num d -> i <> j ->
       below nodes n (child h d i) p -> below nodes n (child h d j) p -> False) ->
    unshared nodes (S n) page.

(** Two page tables that agree but for one page. *)
Definition agree_off nodes nodes' leaf : Prop :=
  forall p d, p <> leaf -> nodes p = Some d -> nodes' p = Some d.

(** A subtree whose pages are kept is as before. *)
Definition agree_below nodes nodes' n page : Prop :=
  forall p d, below nodes n page p -> nodes p = Some d -> nodes' p = Some d.

Lemma agree_off_below nodes nodes' leaf n page :
  agree_off nodes nodes' leaf -> ~ below nodes n page leaf -> agree_below nodes nodes' n page.
Proof. intros Hag Hnb p d Hb. apply Hag. by intros ->. Qed.

Lemma stree_agree nodes nodes' n page lo hi :
  agree_below nodes nodes' n page -> stree h nodes n page lo hi ->
  stree h nodes' n page lo hi /\ (unshared nodes n page -> unshared nodes' n page) /\
  (forall k r, entry h nodes' k r n page <-> entry h nodes k r n page) /\
  (forall p, below nodes' n page p -> below nodes n page p).
Proof.
  intros Hag Ht. revert page lo hi Hag Ht. induction n as [|n IH]; intros page lo hi Hag Ht;
    pose proof (fun d => Hag page d (below_here _ _ _)) as Hhere.
  - inversion Ht as [? d ? ? Hd Hok Hl Hs Hw|]; subst. pose proof (Hhere _ Hd) as Hd'. split_and!.
    + by apply (stree_leaf _ _ _ d).
    + intros _. constructor.
    + intros k r. split; intros He; inversion He; subst; econstructor; eauto; congruence.
    + intros p Hb. inversion Hb; subst. constructor.
  - inversion Ht as [|? ? d ? ? Hd Hok Hl Hs Hw Hc]; subst. pose proof (Hhere _ Hd) as Hd'.
    assert (Hsub : forall i, 0 <= i <= key_num d -> agree_below nodes nodes' n (child h d i))
      by (intros i Hi p e Hb; apply Hag; by eapply below_child).
    assert (Hall := fun i Hi => IH _ _ _ (Hsub i Hi) (Hc i Hi)). split_and!.
    + apply (stree_inner _ _ _ _ d); try assumption. intros i Hi. by apply Hall.
    + intros Hu. inversion Hu as [|? ? d1 Hd1 _ Hu1 Hu2]; subst. assert (d1 = d) as -> by congruence.
      apply (unshared_inner _ _ _ d); try assumption.
      * intros i Hi. apply Hall; [done|by apply Hu1].
      * intros i j p Hi Hj Hij Hb1 Hb2. apply (Hu2 i j p Hi Hj Hij); by apply Hall.
    + intros k r. split; intros He; inversion He as [|? ? d1 i Hd1 Hl1 Hi He1]; subst;
        assert (d1 = d) as -> by congruence; (eapply entry_inner; [done|done|exact Hi|]); by apply (Hall i Hi).
    + intros p Hb. inversion Hb as [|? ? d1 i ? Hd1 Hl1 Hi Hb1]; subst; [constructor|].
      assert (d1 = d) as -> by congruence. eapply below_child; [done|done|exact Hi|]. by apply Hall.
Qed.

Lemma path_below nodes k n page leaf : path h nodes k n page leaf -> forall lo hi,
  stree h nodes n page lo hi -> is_key h k ->
  below nodes n page leaf /\ exists d, nodes leaf = Some d /\ is_leaf d <> 0.
Proof.
  induction 1 as [page d Hd Hl|n page leaf d Hd Hl Hp IH]; intros lo hi Ht Hk.
  - split; [constructor|]. by exists d.
  - inversion Ht as [|? ? d1 ? ? Hd1 Hok _ Hs _ Hc]; subst. assert (d1 = d) as -> by congruence.
    destruct (upper_slot_spec h Ho k d Hok Hs Hk) as (Hr & _ & _).
    destruct (IH _ _ (Hc _ Hr) Hk) as [Hb He]. split; [|done]. by eapply below_child.
Qed.

(** [d'] replaces the leaf [d] on the path of [k]: it is a sorted leaf that differs from [d] only
    in entries for [k]. *)
Record leaf_update k d d' : Prop := {
  lu_ok : node_ok h d';
  lu_leaf : is_leaf d' <> 0;
  lu_sorted : sorted_node h d';
  lu_keys : forall i, 0 <= i < key_num d' ->
    key_at h d' i = k \/ exists j, 0 <= j < key_num d /\ key_at h d' i = key_at h d j;
  lu_entries : forall k' r, is_key h k' -> cmp h k' k <> 0 -> has_entry h k' r d' <-> has_entry h k' r d }.

Lemma child_within n page lo hi nodes d k :
  stree h nodes (S n) page lo hi -> nodes page = Some d -> is_key h k -> within h lo hi k ->
  0 <= upper_slot h k d <= key_num d /\
  within h (child_lo h lo d (upper_slot h k d)) (child_hi h hi d (upper_slot h k d)) k.
Proof.
  intros Ht Hd Hk Hin. inversion Ht as [|? ? d1 ? ? Hd1 Hok _ Hs _ _]; subst. assert (d1 = d) as -> by congruence.
  destruct (upper_slot_spec h Ho k d Hok Hs Hk) as (Hr & Hlow & Hup). set (s := upper_slot h k d) in *.
  assert (Hki : forall i, 0 <= i < key_num d -> is_key h (key_at h d i))
    by (intros i Hi; rewrite <- aget_keys by done; apply keys_are_keys; [done|done|by rewrite alen_keys]).
  split; [done|]. split; unfold child_lo, child_hi.
  - destruct (Z.eqb_spec s 0); [apply Hin|]. split; [apply Hki; lia|apply Hlow; lia].
  - destruct (Z.eqb_spec s (key_num d)); [apply Hin|]. split; [apply Hki; lia|apply Hup; lia].
Qed.

Lemma path_unique nodes k n page l1 l2 : path h nodes k n page l1 -> path h nodes k n page l2 -> l1 = l2.
Proof.
  intros Hp. revert l2. induction Hp as [page d Hd Hl|n page leaf d Hd Hl Hp IH]; intros l2 Hp2; inversion Hp2; subst; [done|].
  apply IH. congruence.
Qed.

(** The tree after the replacement: a search tree, with the entries for other keys unchanged. *)
Lemma tree_update nodes nodes' k leaf d d' :
  nodes leaf = Some d -> is_leaf d <> 0 -> agree_off nodes nodes' leaf -> nodes' leaf = Some d' ->
  is_key h k -> leaf_update k d d' -> forall n page lo hi,
  stree h nodes n page lo hi -> unshared nodes n page -> within h lo hi k -> path h nodes k n page leaf ->
  stree h nodes' n page lo hi /\ unshared nodes' n page /\ path h nodes' k n page leaf /\
  (forall k' r, is_key h k' -> cmp h k' k <> 0 -> entry h nodes' k' r n page <-> entry h nodes k' r n page) /\
  (forall p, below nodes' n page p -> below nodes n page p).
Proof.
  intros Hd Hl Hag Hd' Hk [Uok Ul Us Uk Ue] n. induction n as [|n IH]; intros page lo hi Ht Hu Hin Hp.
  - inversion Hp as [? d0 Hd0 _|]; subst. assert (d0 = d) as -> by congruence. split_and!.
    + inversion Ht as [? d0 ? ? Hd1 _ _ _ Hw|]; subst. assert (d0 = d) as -> by congruence.
      apply (stree_leaf _ _ _ d'); try assumption. intros i Hi. destruct (Uk i Hi) as [->|(j & Hj & ->)]; [done|by apply Hw].
    + constructor.
    + by econstructor.
    + intros k' r Hk' Hne. split; intros He; inversion He as [? d0 Hd1 _ Hh|]; subst; econstructor; eauto;
        [assert (d0 = d') as -> by congruence|assert (d0 = d) as -> by congruence]; by apply (Ue k' r Hk' Hne).
    + intros p Hb. inversion Hb; subst. constructor.
  - inversion Hp as [|? ? ? d0 Hd0 Hl0 Hp']; subst. assert (Hne : page <> leaf) by (intros ->; congruence).
    destruct (child_within _ _ _ _ _ _ _ Ht Hd0 Hk Hin) as [Hr Hinc]. set (s := upper_slot h k d0) in *.
    inversion Ht as [|? ? d1 ? ? Hd1 Hok _ Hs Hw Hc]; subst. assert (d1 = d0) as -> by congruence.
    inversion Hu as [|? ? d1 Hd2 _ Hu1 Hu2]; subst. assert (d1 = d0) as -> by congruence.
    pose proof (Hag _ _ Hne Hd0) as Hd0'.
    destruct (IH _ _ _ (Hc s Hr) (Hu1 s Hr) Hinc Hp') as (IH1 & IH2 & IH3 & IH4 & IH5).
    assert (Hoff : forall i, 0 <= i <= key_num d0 -> i <> s -> ~ below nodes n (child h d0 i) leaf).
    { intros i Hi Hneq Hb. apply (Hu2 i s leaf Hi Hr Hneq Hb). apply (path_below _ _ _ _ _ Hp' _ _ (Hc s Hr) Hk). }
    assert (Hother := fun i Hi Hneq => stree_agree _ _ _ _ _ _ (agree_off_below _ _ _ _ _ Hag (Hoff i Hi Hneq)) (Hc i Hi)).
    assert (Hbel : forall i p, 0 <= i <= key_num d0 -> below nodes' n (child h d0 i) p -> below nodes n (child h d0 i) p)
      by (intros i p Hi; destruct (decide (i = s)) as [->|Hneq]; [apply IH5|by apply Hother]).
    split_and!.
    + apply (stree_inner _ _ _ _ d0); try assumption. intros i Hi.
      destruct (decide (i = s)) as [->|Hneq]; [done|by apply Hother].
    + apply (unshared_inner _ _ _ d0); try assumption.
      * intros i Hi. destruct (decide (i = s)) as [->|Hneq]; [done|]. apply Hother; [done|done|by apply Hu1].
      * intros i j p Hi Hj Hij Hb1 Hb2. apply (Hu2 i j p Hi Hj Hij); by apply Hbel.
    + eapply path_step; [exact Hd0'|done|exact IH3].
    + intros k' r Hk' Hne'. split; intros He; inversion He as [|? ? d1 i Hd1' Hl1 Hi He1]; subst;
        assert (d1 = d0) as -> by congruence; (eapply entry_inner; [done|done|exact Hi|]);
        destruct (decide (i = s)) as [->|Hneq]; try (by apply IH4); by apply (Hother i Hi Hneq).
    + intros p Hb. inversion Hb as [|? ? d1 i ? Hd1' _ Hi Hb1]; subst; [constructor|].
      assert (d1 = d0) as -> by congruence. eapply below_child; [done|done|exact Hi|by apply Hbel].
Qed.
End replace.

(** ** Inserting into a leaf and removing from it *)

Section leaves.
Context (h : IndexFileHeader) (Ho : ordered_header h).
Implicit Types (d k : list Z) (r rid : RID).
#[local] Instance ko_leaves : KeyOrder (cmp h) (is_key h) := header_key_order h Ho.

Lemma key_at_key d i : node_ok h d -> 0 <= i < key_num d -> is_key h (key_at h d i).
Proof. intros Hd Hi. rewrite <- aget_keys by done. apply keys_are_keys; [done|done|by rewrite alen_keys]. Qed.

Lemma alen_rids d : node_ok h d -> alen (rids_of h d) = key_num d.
Proof. intros [_ Hn]. apply alen_tabulate. lia. Qed.

Lemma aget_rids d i : 0 <= i < key_num d -> aget (rids_of h d) i = rid_of h d i.
Proof. intros Hi. by apply aget_tabulate. Qed.

Lemma cmp_refl k : is_key h k -> cmp h k k = 0.
Proof. intros Hk. pose proof (ko_antisym k k Hk Hk). lia. Qed.

Lemma has_entry_key k r d : has_entry h k r d -> has_key h k d.
Proof. intros (i & Hi & He & _). by exists i. Qed.

Lemma insert_entries d pos k rid k' r :
  node_ok h d -> key_num d < order h - 1 -> 0 <= pos <= key_num d -> is_key h k -> rid_ok rid ->
  has_entry h k' r (leaf_insert h pos k rid d) <-> has_entry h k' r d \/ (cmp h k' k = 0 /\ r = rid).
Proof.
  intros Hd Hroom Hpos Hk Hrid.
  destruct (leaf_insert_spec h (oh_ok h Ho) d pos k rid Hd Hroom Hpos Hk Hrid) as (Hd' & Hn & _ & _ & Hks & Hrs & _).
  set (d' := leaf_insert h pos k rid d) in *.
  assert (Hat : forall i, 0 <= i < key_num d' ->
    key_at h d' i = (if i <? pos then key_at h d i else if i =? pos then k else key_at h d (i - 1)) /\
    rid_of h d' i = (if i <? pos then rid_of h d i else if i =? pos then rid else rid_of h d (i - 1))).
  { intros i Hi. rewrite <- aget_keys, <- aget_rids, Hks, Hrs by done.
    rewrite !aget_insert_at by (rewrite ?alen_keys, ?alen_rids by done; lia).
    destruct (Z.ltb_spec i pos); [by rewrite aget_keys, aget_rids by lia|].
    destruct (Z.eqb_spec i pos); [done|by rewrite aget_keys, aget_rids by lia]. }
  split.
  - intros (i & Hi & He & Hr). destruct (Hat i Hi) as [Ek Er]. rewrite Ek in He. rewrite Er in Hr.
    destruct (Z.ltb_spec i pos); [left; exists i; split_and!; done || lia|].
    destruct (Z.eqb_spec i pos); [by right|left; exists (i - 1); split_and!; done || lia].
  - intros [(i & Hi & He & Hr)|[He ->]].
    + set (j := if i <? pos then i else i + 1). exists j.
      assert (Hj : 0 <= j < key_num d') by (unfold j; destruct (Z.ltb_spec i pos); lia).
      destruct (Hat j Hj) as [-> ->]. split; [done|]. unfold j.
      destruct (Z.ltb_spec i pos); [by destruct (Z.ltb_spec i pos); [|lia]|].
      destruct (Z.ltb_spec (i + 1) pos), (Z.eqb_spec (i + 1) pos); try lia. by rewrite Z.add_simpl_r.
    + exists pos. destruct (Hat pos ltac:(lia)) as [-> ->]. split; [lia|].
      destruct (Z.ltb_spec pos pos); [lia|]. by rewrite Z.eqb_refl.
Qed.

Lemma remove_entries d pos k' r :
  node_ok h d -> sorted_node h d -> is_leaf d <> 0 -> 0 <= pos < key_num d -> is_key h k' ->
  has_entry h k' r (remove_entry h pos d) <-> has_entry h k' r d /\ cmp h k' (key_at h d pos) <> 0.
Proof.
  intros Hd Hs Hl Hpos Hk'.
  destruct (remove_entry_spec h (oh_ok h Ho) d pos Hd Hpos) as (Hd' & Hn & _ & _ & Hks & Hrs & _).
  destruct (Hrs Hl) as [Hrs' _]. set (d' := remove_entry h pos d) in *.
  assert (Hat : forall i, 0 <= i < key_num d' -> let j := if i <? pos then i else i + 1 in
    key_at h d' i = key_at h d j /\ rid_of h d' i = rid_of h d j).
  { intros i Hi. cbv zeta. rewrite <- aget_keys, <- aget_rids, Hks, Hrs' by done.
    rewrite !aget_delete_at by (rewrite ?alen_keys, ?alen_rids by done; lia).
    destruct (Z.ltb_spec i pos); by rewrite aget_keys, aget_rids by lia. }
  assert (Hdist : forall i j, 0 <= i -> i < j -> j < key_num d -> cmp h k' (key_at h d i) = 0 ->
    cmp h k' (key_at h d j) = 0 -> False).
  { intros i j Hi Hij Hj E1 E2. pose proof (Hs i j Hi Hij ltac:(by rewrite alen_keys)) as Hlt.
    rewrite !aget_keys in Hlt by lia.
    pose proof (ko_le_lt (cmp h) (is_key h) k' (key_at h d i) (key_at h d j) Hk'
      (key_at_key d i Hd ltac:(lia)) (key_at_key d j Hd ltac:(lia)) ltac:(lia) Hlt). lia. }
  split.
  - intros (i & Hi & He & Hr). destruct (Hat i Hi) as [Ek Er]. rewrite Ek in He. rewrite Er in Hr. split.
    + eexists. split; [|by split]. destruct (Z.ltb_spec i pos); lia.
    + intros E. destruct (Z.ltb_spec i pos); [apply (Hdist i pos)|apply (Hdist pos (i + 1))]; done || lia.
  - intros [(i & Hi & He & Hr) Hne]. assert (i <> pos) by (by intros ->).
    set (j := if i <? pos then i else i - 1). exists j.
    assert (Hj : 0 <= j < key_num d') by (unfold j; destruct (Z.ltb_spec i pos); lia).
    destruct (Hat j Hj) as [-> ->]. replace (if j <? pos then j else j + 1) with i; [done|].
    unfold j. destruct (Z.ltb_spec i pos).
    + destruct (Z.ltb_spec i pos); lia.
    + destruct (Z.ltb_spec (i - 1) pos); lia.
Qed.

(** Equal keys have the same entries. *)
Lemma cmp_equal a b c : is_key h a -> is_key h b -> is_key h c -> cmp h a b = 0 -> cmp h b c = 0 -> cmp h a c = 0.
Proof.
  intros Ka Kb Kc E1 E2. pose proof (ko_antisym a b Ka Kb). pose proof (ko_antisym b c Kb Kc).
  pose proof (ko_antisym a c Ka Kc). pose proof (ko_trans (f := cmp h) a b c Ka Kb Kc ltac:(lia) ltac:(lia)).
  pose proof (ko_trans (f := cmp h) c b a Kc Kb Ka ltac:(lia) ltac:(lia)). lia.
Qed.

Lemma cmp_sym a b : is_key h a -> is_key h b -> cmp h a b = 0 -> cmp h b a = 0.
Proof. intros Ka Kb E. rewrite (ko_antisym a b Ka Kb). lia. Qed.

Lemma has_entry_equal d k1 k2 r :
  node_ok h d -> is_key h k1 -> is_key h k2 -> cmp h k1 k2 = 0 -> has_entry h k2 r d -> has_entry h k1 r d.
Proof.
  intros Hd H1 H2 E (i & Hi & He & Hr). exists i. split; [done|]. split; [|done].
  apply (cmp_equal k1 k2); try done. by apply key_at_key.
Qed.

Lemma entry_equal nodes n page lo hi k1 k2 r :
  stree h nodes n page lo hi -> is_key h k1 -> is_key h k2 -> cmp h k1 k2 = 0 ->
  entry h nodes k2 r n page -> entry h nodes k1 r n page.
Proof.
  intros Ht H1 H2 E. revert page lo hi Ht. induction n as [|n IH]; intros page lo hi Ht He.
  - inversion Ht as [? d ? ? Hd Hok Hl _ _|]; subst. inversion He as [? d1 Hd1 _ Hh|]; subst.
    assert (d1 = d) as -> by congruence. econstructor; [done|done|by eapply has_entry_equal].
  - inversion Ht as [|? ? d ? ? Hd _ Hl _ _ Hc]; subst. inversion He as [|? ? d1 i Hd1 _ Hi Hh]; subst.
    assert (d1 = d) as -> by congruence. eapply entry_inner; [done|done|exact Hi|by apply (IH _ _ _ (Hc i Hi))].
Qed.

Lemma insert_update d k rid :
  node_ok h d -> sorted_node h d -> is_leaf d <> 0 -> is_key h k -> rid_ok rid -> ~ has_key h k d ->
  key_num d < order h - 1 -> leaf_update h k d (leaf_insert h (lower_slot h k d) k rid d).
Proof.
  intros Hd Hs Hl Hk Hrid Hno Hroom.
  destruct (lower_slot_spec h Ho k d Hd Hs Hk) as (Hpos & _). set (pos := lower_slot h k d) in *.
  destruct (leaf_insert_spec h (oh_ok h Ho) d pos k rid Hd Hroom Hpos Hk Hrid) as (Hd' & Hn & Hl' & _ & Hks & _).
  constructor; [done|congruence|by apply insert_room_sorted| |].
  - intros i Hi. rewrite <- aget_keys, Hks by done.
    rewrite aget_insert_at by (rewrite ?alen_keys by done; lia).
    destruct (Z.ltb_spec i pos); [right; exists i; rewrite aget_keys by lia; split; [lia|done]|].
    destruct (Z.eqb_spec i pos); [by left|right; exists (i - 1); rewrite aget_keys by lia; split; [lia|done]].
  - intros k' r Hk' Hne. rewrite insert_entries by done. naive_solver.
Qed.

Lemma remove_update d k pos :
  node_ok h d -> sorted_node h d -> is_leaf d <> 0 -> is_key h k -> 0 <= pos < key_num d ->
  cmp h k (key_at h d pos) = 0 -> leaf_update h k d (remove_entry h pos d).
Proof.
  intros Hd Hs Hl Hk Hpos He.
  destruct (remove_entry_spec h (oh_ok h Ho) d pos Hd Hpos) as (Hd' & Hn & Hl' & _ & Hks & _).
  constructor; [done|congruence| | |].
  - unfold sorted_node. rewrite Hks. apply sorted_delete; [done|by rewrite alen_keys].
  - intros i Hi. right. rewrite <- aget_keys, Hks by done. rewrite aget_delete_at by (rewrite ?alen_keys by done; lia).
    destruct (Z.ltb_spec i pos); [exists i|exists (i + 1)]; rewrite aget_keys by lia; split; done || lia.
  - intros k' r Hk' Hne. rewrite remove_entries by done. split; [by intros [? _]|]. intros Hh. split; [done|].
    intros E. apply Hne. pose proof (key_at_key d pos Hd Hpos) as Hkp.
    pose proof (ko_antisym k (key_at h d pos) Hk Hkp). pose proof (ko_antisym k' (key_at h d pos) Hk' Hkp).
    pose proof (ko_antisym k k' Hk Hk').
    pose proof (ko_trans (f := cmp h) k' (key_at h d pos) k Hk' Hkp Hk ltac:(lia) ltac:(lia)).
    pose proof (ko_trans (f := cmp h) k (key_at h d pos) k' Hk Hkp Hk' ltac:(lia) ltac:(lia)). lia.
Qed.
End leaves.

(** ** Changing one page through the pool *)

Section pages.
Context {R W : Type} `{ReplacerLaws R} `{OSLaws W} `{HashOrder}.
Implicit Types (s : BT R W) (page leaf f : Z) (k d : list Z).

(** [s'] is [s] with the content of [page] replaced by [d]. *)
Record updates s s' page d : Prop := {
  up_inv : pool_inv (bt_pool s');
  up_page : bt_nodes s' page = Some d;
  up_other : agree_off (bt_nodes s) (bt_nodes s') page;
  up_open : bt_open s' = bt_open s;
  up_id : bt_file_id s' = bt_file_id s;
  up_header : file_header_ s' = file_header_ s }.

Lemma updates_reads s s1 s2 page d : updates s s1 page d -> reads s1 s2 -> updates s s2 page d.
Proof.
  intros [Ui Up Uo Uop Uid Uh] Hr. pose proof Hr as [Ri _ Rop Rid Rh]. constructor; try congruence.
  - by apply Ri.
  - by eapply reads_nodes.
  - intros p e Hp He. eapply reads_nodes; [exact Hr|]. by apply Uo.
Qed.

Lemma reads_updates s s1 s2 page d : reads s s1 -> updates s1 s2 page d -> updates s s2 page d.
Proof.
  intros Hr [Ui Up Uo Uop Uid Uh]. pose proof Hr as [Ri _ Rop Rid Rh]. constructor; try congruence.
  intros p e Hp He. apply Uo; [done|]. by eapply reads_nodes.
Qed.

(** A write to a page held by the caller, with [mark_dirty]. *)
Lemma write_updates s page f d d2 :
  pool_inv (bt_pool s) -> bt_nodes s page = Some d -> holds s page f d ->
  let s1 := set_bt_pool (client_write f (fun _ => d2) (bt_pool s)) s in
  updates s s1 page d2 /\ holds s1 page f d2.
Proof.
  intros Hinv Hn [Hd Hnum (fh & Hfh & Hc) Hev Hhdr] s1.
  destruct (pi_range _ Hinv _ _ _ Hc) as (Hf & _ & _).
  destruct (client_write_spec _ _ _ _ (fun _ => d2) Hinv Hc) as (Hi & Hv & Ho).
  pose proof (client_write_frame f (fun _ => d2) (bt_pool s) f Hf) as Hfr. rewrite Z.eqb_refl in Hfr.
  split.
  - constructor; try done.
    + revert Hn. unfold bt_nodes, s1. simpl. rewrite Hfh, Hv.
      destruct (view (bt_pool s) (fh_file_desc fh) page) as [q|]; [|done]. simpl.
      by destruct (_ && _).
    + intros p e Hne. unfold bt_nodes, s1. simpl. rewrite Hfh, Ho; [done|congruence].
  - constructor; simpl; try done.
    + unfold data_of. by rewrite Hfr.
    + by rewrite Hfr.
    + by exists fh.
Qed.

Lemma write_release s page f d d2 :
  pool_inv (bt_pool s) -> bt_nodes s page = Some d -> holds s page f d ->
  exists s', (write f d2 ;; release_dirty (open_handle f)) s = (Ok tt, s') /\ updates s s' page d2.
Proof.
  intros Hinv Hn Hh. destruct (write_updates s page f d d2 Hinv Hn Hh) as [Hu Hh1].
  destruct (unpin_ok _ _ _ _ (up_inv _ _ _ _ Hu) Hh1) as (s' & Hun & Hr).
  exists s'. split; [|by eapply updates_reads]. unfold write, release_dirty.
  rewrite bind_modify. exact Hun.
Qed.
End pages.

(** ** The operations of the index *)

Section index.
Context {R W : Type} `{ReplacerLaws R} `{OSLaws W} `{HashOrder}.
Implicit Types (s : BT R W) (page leaf f : Z) (k d : list Z) (rid r : RID).

(** Finding the leaf of a key and fetching it. *)
Lemma at_leaf n fuel k s leaf d :
  path (file_header_ s) (bt_nodes s) k n (root_page (file_header_ s)) leaf -> bt_nodes s leaf = Some d ->
  (n <= fuel)%nat -> bt_open s = true -> pool_inv (bt_pool s) ->
  (forall A (K : Z -> BPPageHandle * Z -> M (BT R W) A),
     pool_failed ((let! l := find_leaf fuel k in bind (get_node l) (K l)) s)) \/
  (exists f s', reads s s' /\ holds s' leaf f d /\ forall A (K : Z -> BPPageHandle * Z -> M (BT R W) A),
     (let! l := find_leaf fuel k in bind (get_node l) (K l)) s = K leaf (open_handle f, f) s').
Proof.
  intros Hp Hd Hfuel Hop Hinv.
  destruct (find_leaf_path n fuel k s leaf Hp Hfuel Hop Hinv) as [(rc & s1 & E & Hrc)|(s1 & E & Hr1)].
  { left. intros A K. rewrite (bind_run_Err _ _ _ _ _ E). by exists rc, s1. }
  destruct (get_node_ok s1 leaf d ltac:(by rewrite (rd_open _ _ Hr1)) (rd_inv _ _ Hr1 Hinv) (reads_nodes _ _ _ _ Hr1 Hd))
    as [(rc & s2 & E2 & Hrc)|(f & s2 & E2 & Hr2 & Hh)].
  { left. intros A K. rewrite (bind_run _ _ _ _ _ E), (bind_run_Err _ _ _ _ _ E2). by exists rc, s2. }
  right. exists f, s2. split_and!; [by etrans|done|]. intros A K. by rewrite (bind_run _ _ _ _ _ E), (bind_run _ _ _ _ _ E2).
Qed.

Lemma make_key_is_key h pkey rid : header_ok h -> attr_length h <= alen pkey -> is_key h (make_key h pkey rid).
Proof.
  intros [Ha Hk _ _] Hl. unfold is_key, make_key, alen in *.
  rewrite length_app, length_take, Hk. change (length (rid_bytes rid)) with 8%nat. change sizeof_RID with 8. lia.
Qed.

Lemma equal_slot_spec h k d :
  node_ok h d ->
  0 <= equal_slot h k d <= key_num d /\
  (equal_slot h k d < key_num d -> cmp h k (key_at h d (equal_slot h k d)) = 0) /\
  (equal_slot h k d = key_num d -> ~ has_key h k d).
Proof.
  intros [_ Hn]. unfold equal_slot.
  destruct (scan_spec 0 (key_num d) (fun i => cmp h k (key_at h d i) =? 0) ltac:(lia)) as (Hs1 & Hs2 & Hs3).
  split_and!; try lia. intros E (i & Hi & He). specialize (Hs2 i ltac:(lia)). lia.
Qed.

(** A search tree in the pages of the index, with [n] levels above the leaves. *)
Record index_ok n s : Prop := {
  ix_header : ordered_header (file_header_ s);
  ix_open : bt_open s = true;
  ix_inv : pool_inv (bt_pool s);
  ix_tree : stree (file_header_ s) (bt_nodes s) n (root_page (file_header_ s)) None None;
  ix_unshared : unshared (file_header_ s) (bt_nodes s) n (root_page (file_header_ s)) }.

Definition index_entry n s k r : Prop := entry (file_header_ s) (bt_nodes s) k r n (root_page (file_header_ s)).

(** Reading keeps the index and its entries. *)
Definition same_index n s s' : Prop :=
  index_ok n s' /\ file_header_ s' = file_header_ s /\ forall k r, index_entry n s' k r <-> index_entry n s k r.

Lemma index_reads n s s' : index_ok n s -> reads s s' -> same_index n s s'.
Proof.
  intros [Ho Hop Hinv Ht Hu] Hr. pose proof Hr as [Ri _ Rop _ Rh].
  destruct (stree_agree (file_header_ s) (bt_nodes s) (bt_nodes s') n _ _ _ (fun p d _ => reads_nodes _ _ p d Hr) Ht)
    as (T1 & T2 & T3 & _).
  split; [|split; [done|]].
  - constructor; rewrite ?Rh; try done; [congruence|auto|auto].
  - intros k r. unfold index_entry. rewrite Rh. apply T3.
Qed.

(** The leaf of a key in an index. *)
Lemma index_leaf n s k :
  index_ok n s -> is_key (file_header_ s) k ->
  exists leaf d, path (file_header_ s) (bt_nodes s) k n (root_page (file_header_ s)) leaf /\
    bt_nodes s leaf = Some d /\ is_leaf d <> 0 /\ node_ok (file_header_ s) d /\ sorted_node (file_header_ s) d /\
    forall r, index_entry n s k r <-> has_entry (file_header_ s) k r d.
Proof. intros [Ho _ _ Ht _] Hk. by apply (path_complete _ Ho _ k n _ None None Ht Hk). Qed.

(** Replacing the leaf of a key: other keys keep their entries, those of the key are in the leaf. *)
Lemma index_update n s s' k leaf d d' :
  index_ok n s -> is_key (file_header_ s) k ->
  path (file_header_ s) (bt_nodes s) k n (root_page (file_header_ s)) leaf -> bt_nodes s leaf = Some d -> is_leaf d <> 0 ->
  updates s s' leaf d' -> leaf_update (file_header_ s) k d d' ->
  index_ok n s' /\ file_header_ s' = file_header_ s /\
  (forall k' r, is_key (file_header_ s) k' -> cmp (file_header_ s) k' k <> 0 -> index_entry n s' k' r <-> index_entry n s k' r) /\
  (forall r, index_entry n s' k r <-> has_entry (file_header_ s) k r d').
Proof.
  intros [Ho Hop Hinv Ht Hu] Hk Hp Hd Hl [Ui Up Uo Uop Uid Uh] Hlu.
  destruct (tree_update _ Ho _ (bt_nodes s') k leaf d d' Hd Hl Uo Up Hk Hlu n _ None None Ht Hu) as (T1 & T2 & T3 & T4 & _);
    [done|done|].
  assert (Hix : index_ok n s') by (constructor; rewrite ?Uh; try done; congruence).
  split_and!; [done|done| |].
  - intros k' r Hk' Hne. unfold index_entry. rewrite Uh. by apply T4.
  - intros r. destruct (index_leaf n s' k Hix) as (leaf2 & d2 & Hp2 & Hd2 & _ & _ & _ & He); [by rewrite Uh|].
    rewrite Uh in Hp2, He. rewrite He.
    replace leaf2 with leaf in * by (eapply path_unique; [exact T3|exact Hp2]).
    by replace d2 with d' in * by congruence.
Qed.

(** C2. [get_entry] on a search tree, with fuel for its height: it returns the RID of an entry
    equal to the key, or [RECORD_INVALID_KEY] when the tree has no such entry, unless the
    buffer pool fails; nothing changes. *)
Theorem get_entry_ok n fuel pkey rid s :
  let h := file_header_ s in let k := make_key h pkey rid in
  index_ok n s -> attr_length h <= alen pkey -> (n <= fuel)%nat ->
  pool_failed (get_entry fuel pkey rid s) \/
  exists s', same_index n s s' /\
    ((exists r, get_entry fuel pkey rid s = (Ok r, s') /\ index_entry n s k r) \/
     (get_entry fuel pkey rid s = (Err RECORD_INVALID_KEY, s') /\ forall r, ~ index_entry n s k r)).
Proof.
  intros h k Hix Hl Hfuel. pose proof (make_key_is_key h pkey rid (oh_ok h (ix_header _ _ Hix)) Hl) as Hk.
  destruct (index_leaf n s k Hix Hk) as (leaf & d & Hp & Hd & Hlf & Hok & _ & Hocc).
  unfold get_entry, header. rewrite bind_gets. cbv zeta. fold h. fold k.
  destruct (at_leaf n fuel k s leaf d Hp Hd Hfuel (ix_open _ _ Hix) (ix_inv _ _ Hix))
    as [Hf|(f & s' & Hr & Hh & Hrun)]; [left; apply Hf|].
  rewrite Hrun. right. exists s'. split; [by apply index_reads|].
  unfold node. rewrite bind_gets, (hd_data _ _ _ _ Hh).
  destruct (equal_slot_spec h k d Hok) as (Hs1 & Hs2 & Hs3). destruct (Z.ltb_spec (equal_slot h k d) (key_num d)).
  - left. eexists. split; [done|]. apply Hocc. eexists. split; [|split; [by apply Hs2|done]]. lia.
  - right. split; [done|]. intros r He%Hocc. apply (Hs3 ltac:(lia)). by eapply has_entry_key.
Qed.

Lemma insert_into_leaf_ok leaf k rid s d :
  let h := file_header_ s in
  ordered_header h -> is_key h k -> bt_open s = true -> pool_inv (bt_pool s) -> bt_nodes s leaf = Some d ->
  node_ok h d -> sorted_node h d ->
  pool_failed (insert_into_leaf leaf k rid s) \/
  (has_key h k d /\ exists s', insert_into_leaf leaf k rid s = (Err RECORD_DUPLICATE_KEY, s') /\ reads s s') \/
  (~ has_key h k d /\ exists s', insert_into_leaf leaf k rid s = (Ok tt, s') /\
    updates s s' leaf (leaf_insert h (lower_slot h k d) k rid d)).
Proof.
  intros h Ho Hk Hop Hinv Hd Hok Hs. unfold insert_into_leaf, header. rewrite bind_gets. fold h.
  destruct (get_node_ok s leaf d Hop Hinv Hd) as [(rc & s1 & E & Hrc)|(f & s1 & E & Hr & Hh)].
  { left. rewrite (bind_run_Err _ _ _ _ _ E). by exists rc, s1. }
  right. rewrite (bind_run _ _ _ _ _ E). unfold node. rewrite bind_gets, (hd_data _ _ _ _ Hh). cbv zeta.
  rewrite bind_fail_if. pose proof (lower_slot_member h Ho k d Hok Hs Hk) as Hm.
  destruct (_ && _) eqn:Eb.
  - left. split; [apply Hm; lia|]. by exists s1.
  - right. split; [rewrite Hm; lia|].
    destruct (write_release s1 leaf f d (leaf_insert h (lower_slot h k d) k rid d) (rd_inv _ _ Hr Hinv)
      (reads_nodes _ _ _ _ Hr Hd) Hh) as (s' & Hw & Hu).
    exists s'. split; [exact Hw|by eapply reads_updates].
Qed.


(** The entries of the index for keys equal to [k]. *)
Lemma index_entry_equal n s k1 k2 r :
  index_ok n s -> is_key (file_header_ s) k1 -> is_key (file_header_ s) k2 -> cmp (file_header_ s) k1 k2 = 0 ->
  index_entry n s k1 r <-> index_entry n s k2 r.
Proof.
  intros Hix H5 H6 E. pose proof (cmp_sym _ (ix_header _ _ Hix) k1 k2 H5 H6 E) as E'.
  split; eapply (entry_equal _ (ix_header _ _ Hix) _ n _ _ _ _ _ _ (ix_tree _ _ Hix)); done.
Qed.

(** C1. [insert_entry] when the leaf for the key has room: an entry with an equal key is reported
    as [RECORD_DUPLICATE_KEY] and nothing changes; otherwise the index stays a search tree,
    and its entries are the old ones and the new one. *)
Theorem insert_entry_ok n fuel pkey rid s leaf d :
  let h := file_header_ s in let k := make_key h pkey rid in
  index_ok n s -> attr_length h <= alen pkey -> rid_ok rid -> (n <= fuel)%nat ->
  path h (bt_nodes s) k n (root_page h) leaf -> bt_nodes s leaf = Some d -> key_num d < order h - 1 ->
  pool_failed (insert_entry fuel pkey rid s) \/
  exists s', (insert_entry fuel pkey rid s = (Err RECORD_DUPLICATE_KEY, s') /\
      same_index n s s' /\ exists r, index_entry n s k r) \/
    (insert_entry fuel pkey rid s = (Ok tt, s') /\ index_ok n s' /\ file_header_ s' = h /\
      forall k' r, is_key h k' -> index_entry n s' k' r <-> index_entry n s k' r \/ (cmp h k' k = 0 /\ r = rid)).
Proof.
  intros h k Hix Hlen Hrid Hfuel Hp Hd Hroom. pose proof (ix_header _ _ Hix) as Ho.
  pose proof (make_key_is_key h pkey rid (oh_ok h Ho) Hlen) as Hk. fold k in Hk.
  destruct (index_leaf n s k Hix Hk) as (leaf' & d' & Hp' & Hd' & Hlf & Hok & Hs & Hocc).
  assert (leaf' = leaf) as -> by (by eapply path_unique). assert (d' = d) as -> by congruence. clear Hp' Hd'.
  unfold insert_entry, header. rewrite bind_gets, (ix_open _ _ Hix), bind_fail_if, bind_gets. cbv zeta. simpl negb. cbv iota.
  fold h. fold k.
  destruct (at_leaf n fuel k s leaf d Hp Hd Hfuel (ix_open _ _ Hix) (ix_inv _ _ Hix))
    as [Hf|(f & s1 & Hr1 & Hh & Hrun)]; [left; apply Hf|].
  rewrite Hrun. unfold node. rewrite bind_gets, (hd_data _ _ _ _ Hh).
  destruct (unpin_ok s1 leaf f d (rd_inv _ _ Hr1 (ix_inv _ _ Hix)) Hh) as (s2 & Hun & Hr2).
  rewrite (bind_run _ _ _ _ _ Hun). destruct (Z.ltb_spec (key_num d) (order h - 1)) as [_|]; [|lia]. simpl negb. cbv iota.
  assert (Hr : reads s s2) by (by etrans). pose proof (index_reads n s s2 Hix Hr) as (Hix2 & Hh2 & He2).
  destruct (insert_into_leaf_ok leaf k rid s2 d) as [Hf|[[(i & Hi & Hc) (s3 & Hrun3 & Hr3)]|[Hno (s3 & Hrun3 & Hu)]]];
    rewrite ?Hh2; try done; [apply Hix2|apply Hix2|by eapply reads_nodes|by left| |].
  - right. exists s3. left. split_and!; [done|apply index_reads; [done|by etrans]|]. rewrite Hh2 in Hc.
    exists (rid_of h d i). apply Hocc. by exists i.
  - right. exists s3. right. rewrite Hh2 in Hu, Hno. split; [done|].
    destruct (index_update n s s3 k leaf d _ Hix Hk Hp Hd Hlf (reads_updates _ _ _ _ _ Hr Hu)
      (insert_update h Ho d k rid Hok Hs Hlf Hk Hrid Hno Hroom)) as (Hix3 & Hh3 & Hother & Hsame).
    split_and!; [done|done|]. intros k' r Hk'. destruct (decide (cmp h k' k = 0)) as [E|E].
    + rewrite (index_entry_equal n s3 k' k) by (rewrite ?Hh3; done).
      rewrite (index_entry_equal n s k' k) by done. rewrite Hsame, Hocc. fold h.
      rewrite (insert_entries h Ho) by (try done; by apply lower_slot_spec).
      pose proof (cmp_refl h Ho k Hk) as Hkk.
      split; (intros [He|[_ Her]]; [left; exact He|right; split; [assumption|exact Her]]).
    + rewrite Hother by done. split; [by left|by intros [?|[? _]]].
Qed.

Lemma delete_entry_from_node_ok leaf k s d :
  let h := file_header_ s in let i := equal_slot h k d in
  bt_open s = true -> pool_inv (bt_pool s) -> bt_nodes s leaf = Some d ->
  pool_failed (delete_entry_from_node leaf k s) \/
  exists s',
    (key_num d <= i /\ delete_entry_from_node leaf k s = (Err RECORD_INVALID_KEY, s') /\ reads s s') \/
    (i < key_num d /\ delete_entry_from_node leaf k s = (Ok tt, s') /\ updates s s' leaf (remove_entry h i d)).
Proof.
  intros h i Hop Hinv Hd. unfold delete_entry_from_node, header. rewrite bind_gets. fold h.
  destruct (get_node_ok s leaf d Hop Hinv Hd) as [(rc & s1 & E & Hrc)|(f & s1 & E & Hr & Hh)].
  { left. rewrite (bind_run_Err _ _ _ _ _ E). by exists rc, s1. }
  right. rewrite (bind_run _ _ _ _ _ E). unfold node. rewrite bind_gets, (hd_data _ _ _ _ Hh). cbv zeta.
  fold i. rewrite bind_fail_if. destruct (Z.leb_spec (key_num d) i).
  - exists s1. by left.
  - destruct (write_release s1 leaf f d (remove_entry h i d) (rd_inv _ _ Hr Hinv)
      (reads_nodes _ _ _ _ Hr Hd) Hh) as (s' & Hw & Hu).
    exists s'. right. split; [lia|]. split; [exact Hw|by eapply reads_updates].
Qed.

(** Deletion from a leaf that keeps enough keys, or is the root. *)
Lemma delete_entry_internal_ok fuel leaf k s d :
  let h := file_header_ s in let i := equal_slot h k d in
  header_ok h -> bt_open s = true -> pool_inv (bt_pool s) -> bt_nodes s leaf = Some d ->
  node_ok h d -> is_leaf d <> 0 -> parent d = -1 \/ min_key h d < key_num d ->
  pool_failed (delete_entry_internal (S fuel) leaf k s) \/
  exists s',
    (key_num d <= i /\ delete_entry_internal (S fuel) leaf k s = (Err RECORD_INVALID_KEY, s') /\ reads s s') \/
    (i < key_num d /\ delete_entry_internal (S fuel) leaf k s = (Ok tt, s') /\ updates s s' leaf (remove_entry h i d)).
Proof.
  intros h i Hhdr Hop Hinv Hd Hok Hl Hmin. cbn [delete_entry_internal].
  destruct (delete_entry_from_node_ok leaf k s d Hop Hinv Hd) as [(rc & s1 & E & Hrc)|(s1 & [(Hi & E & Hr)|(Hi & E & Hu)])].
  { left. rewrite (bind_run_Err _ _ _ _ _ E). by exists rc, s1. }
  { right. exists s1. left. by rewrite (bind_run_Err _ _ _ _ _ E). }
  rewrite (bind_run _ _ _ _ _ E). unfold header. rewrite bind_gets, (up_header _ _ _ _ Hu). fold h in Hu |- *. fold i in Hi, Hu |- *.
  destruct (remove_entry_spec h Hhdr d i Hok) as (Hok' & Hn & Hl' & Hpar & _); [destruct (equal_slot_spec h k d Hok) as [[Hi0 _] _]; split; [exact Hi0|exact Hi]|].
  set (d' := remove_entry h i d) in *.
  destruct (get_node_ok s1 leaf d') as [(rc & s2 & E2 & Hrc)|(f & s2 & E2 & Hr & Hh)];
    [by rewrite (up_open _ _ _ _ Hu)|apply Hu|apply Hu| |].
  { left. rewrite (bind_run_Err _ _ _ _ _ E2). by exists rc, s2. }
  right. rewrite (bind_run _ _ _ _ _ E2). unfold node. rewrite bind_gets, (hd_data _ _ _ _ Hh).
  destruct (unpin_ok s2 leaf f d' (rd_inv _ _ Hr (up_inv _ _ _ _ Hu)) Hh) as (s3 & Hun & Hr3).
  exists s3. right. split; [exact Hi|]. split; [|by eapply updates_reads; [exact Hu|etrans]].
  destruct (Z.eqb_spec (parent d') (-1)) as [Hp|Hp].
  - unfold shrink_root, header, node. rewrite !bind_gets, (hd_data _ _ _ _ Hh).
    destruct (Z.eqb_spec (is_leaf d') 0); [congruence|]. rewrite andb_false_r. exact Hun.
  - unfold min_key. rewrite Hl'. fold (min_key h d). destruct (Z.leb_spec (min_key h d) (key_num d')); [exact Hun|].
    destruct Hmin; [congruence|lia].
Qed.

(** C6. [delete_entry] when the leaf for the key is the root or has more than the minimal number
    of keys: a key without entry is reported as [RECORD_INVALID_KEY] and nothing changes;
    otherwise the index stays a search tree and loses exactly the entry of the key. *)
Theorem delete_entry_ok n fuel pkey rid s leaf d :
  let h := file_header_ s in let k := make_key h pkey rid in
  index_ok n s -> attr_length h <= alen pkey -> (n <= S fuel)%nat ->
  path h (bt_nodes s) k n (root_page h) leaf -> bt_nodes s leaf = Some d ->
  parent d = -1 \/ min_key h d < key_num d ->
  pool_failed (delete_entry (S fuel) pkey rid s) \/
  exists s', (delete_entry (S fuel) pkey rid s = (Err RECORD_INVALID_KEY, s') /\
      same_index n s s' /\ forall r, ~ index_entry n s k r) \/
    (delete_entry (S fuel) pkey rid s = (Ok tt, s') /\ index_ok n s' /\ file_header_ s' = h /\
      (exists r, index_entry n s k r) /\
      forall k' r, is_key h k' -> index_entry n s' k' r <-> index_entry n s k' r /\ cmp h k' k <> 0).
Proof.
  intros h k Hix Hlen Hfuel Hp Hd Hmin. pose proof (ix_header _ _ Hix) as Ho.
  pose proof (make_key_is_key h pkey rid (oh_ok h Ho) Hlen) as Hk. fold k in Hk.
  destruct (index_leaf n s k Hix Hk) as (leaf' & d' & Hp' & Hd' & Hlf & Hok & Hs & Hocc).
  assert (leaf' = leaf) as -> by (by eapply path_unique). assert (d' = d) as -> by congruence. clear Hp' Hd'.
  unfold delete_entry, header. rewrite bind_gets. cbv zeta. fold h. fold k.
  destruct (find_leaf_path n (S fuel) k s leaf Hp Hfuel (ix_open _ _ Hix) (ix_inv _ _ Hix)) as [(rc & s1 & E & Hrc)|(s1 & E & Hr1)].
  { left. rewrite (bind_run_Err _ _ _ _ _ E). by exists rc, s1. }
  rewrite (bind_run _ _ _ _ _ E). destruct (index_reads n s s1 Hix Hr1) as (Hix1 & Hh1 & He1).
  destruct (equal_slot_spec h k d Hok) as (Hr & Hat & Hend).
  destruct (delete_entry_internal_ok fuel leaf k s1 d) as [Hf|(s2 & [(Hi & Hrun & Hr2)|(Hi & Hrun & Hu)])];
    rewrite ?Hh1; try apply Hix1; try done; [apply Ho|by eapply reads_nodes|by left|..]; right; exists s2.
  - left. rewrite Hh1 in Hi. fold h in Hi. split_and!; [done|apply index_reads; [done|by etrans]|].
    intros r He%Hocc. apply (Hend ltac:(lia)). by eapply has_entry_key.
  - right. rewrite Hh1 in Hi, Hu. fold h in Hi, Hu. set (i := equal_slot h k d) in *.
    assert (Hpos : 0 <= i < key_num d) by lia. specialize (Hat ltac:(lia)). split; [done|].
    destruct (index_update n s s2 k leaf d _ Hix Hk Hp Hd Hlf (reads_updates _ _ _ _ _ Hr1 Hu)
      (remove_update h Ho d k i Hok Hs Hlf Hk Hpos Hat)) as (Hix2 & Hh2 & Hother & Hsame).
    split_and!; [done|done|exists (rid_of h d i); apply Hocc; by exists i|].
    intros k' r Hk'. destruct (decide (cmp h k' k = 0)) as [E'|E'].
    + rewrite (index_entry_equal n s2 k' k) by (rewrite ?Hh2; done). rewrite Hsame. fold h.
      rewrite (remove_entries h Ho) by done. split; [by intros [_ []]|by intros [_ []]].
    + rewrite Hother by done. split; [by split|by intros [? _]].
Qed.
End index.

(** ** The empty index on integers *)

Lemma demo_bt_leaf :
  exists d, bt_nodes demo_bt 1 = Some d /\ alen d = BP_PAGE_DATA_SIZE /\ key_num d = 0 /\ is_leaf d = 1 /\ parent d = -1.
Proof.
  assert (E : match bt_nodes demo_bt 1 with
    | Some d => bool_decide (alen d = BP_PAGE_DATA_SIZE /\ key_num d = 0 /\ is_leaf d = 1 /\ parent d = -1)
    | None => false end = true) by (vm_compute; reflexivity).
  destruct (bt_nodes demo_bt 1) as [d|]; [|done]. exists d. by apply bool_decide_eq_true in E.
Qed.

Lemma demo_index : index_ok 0 demo_bt.
Proof.
  destruct demo_bt_header as [Hh Hop]. destruct demo_bt_root as (d & Hd & Hlen & Hn & Hl).
  constructor; rewrite ?Hh.
  - split; [apply new_header_spec; lia|reflexivity|vm_compute; discriminate].
  - exact Hop.
  - exact demo_bt_inv.
  - apply (stree_leaf _ _ _ d); [exact Hd| |by rewrite Hl| |].
    + split; [exact Hlen|]. rewrite Hn. split; [lia|vm_compute; discriminate].
    + intros i j Hi Hij Hj. unfold keys_of in Hj. rewrite Hn in Hj. exfalso. revert Hj.
      change (alen (tabulate 0 (key_at (new_header 2 4 1) d))) with 0. lia.
    + intros i Hi. rewrite Hn in Hi. lia.
  - constructor.
Qed.

Lemma get_entry_ok_witness :
  pool_failed (get_entry 0 (KeyCompare.demo_key 7 0) (demo_rid 1 1) demo_bt) \/
  exists s', same_index 0 demo_bt s'.
Proof.
  destruct (get_entry_ok 0 0 (KeyCompare.demo_key 7 0) (demo_rid 1 1) demo_bt demo_index) as [Hf|(s' & Hs & _)].
  - destruct demo_bt_header as [-> _]. vm_compute. discriminate.
  - lia.
  - left. exact Hf.
  - right. exists s'. exact Hs.
Defined.

Lemma insert_entry_ok_witness :
  pool_failed (insert_entry 0 (KeyCompare.demo_key 7 0) (demo_rid 1 1) demo_bt) \/
  exists s', index_ok 0 s' /\ file_header_ s' = file_header_ demo_bt.
Proof.
  destruct demo_bt_leaf as (d & Hd & Hlen & Hn & Hl & Hp). pose proof demo_bt_header as [Hh _].
  destruct (insert_entry_ok 0 0 (KeyCompare.demo_key 7 0) (demo_rid 1 1) demo_bt 1 d demo_index)
    as [Hf|(s' & [(_ & (Hs & He & _) & _)|(_ & Hs & He & _)])].
  - rewrite Hh. vm_compute. discriminate.
  - split; apply demo_int32; simpl; lia.
  - lia.
  - rewrite Hh. apply (path_leaf _ _ _ 1 d); [exact Hd|by rewrite Hl].
  - exact Hd.
  - rewrite Hh, Hn. vm_compute. reflexivity.
  - left. exact Hf.
  - right. exists s'. split; [exact Hs|exact He].
  - right. exists s'. split; [exact Hs|exact He].
Defined.

Lemma delete_entry_ok_witness :
  pool_failed (delete_entry 1 (KeyCompare.demo_key 7 0) (demo_rid 1 1) demo_bt) \/
  exists s', index_ok 0 s' /\ file_header_ s' = file_header_ demo_bt.
Proof.
  destruct demo_bt_leaf as (d & Hd & Hlen & Hn & Hl & Hp). pose proof demo_bt_header as [Hh _].
  destruct (delete_entry_ok 0 0 (KeyCompare.demo_key 7 0) (demo_rid 1 1) demo_bt 1 d demo_index)
    as [Hf|(s' & [(_ & (Hs & He & _) & _)|(_ & Hs & He & _)])].
  - rewrite Hh. vm_compute. discriminate.
  - lia.
  - rewrite Hh. apply (path_leaf _ _ _ 1 d); [exact Hd|by rewrite Hl].
  - exact Hd.
  - left. exact Hp.
  - left. exact Hf.
  - right. exists s'. split; [exact Hs|exact He].
  - right. exists s'. split; [exact Hs|exact He].
Defined.
