(* ===== verification/Dates.v ===== *)
(** * Dates (storage/common/meta_util.h, .cpp): DateUtil

    [Check_and_format_date] works in place on the memory block of a C string: it checks the
    format with a regular expression, the date against the calendar and the bounds, and
    writes the canonical form of 12 bytes back.  [std::regex], [atoi], [strchr] and [sprintf]
    are of the C++ standard library; what the program uses of them is defined here. *)
From S2P Require Import Prelude ReturnCode Effects Bitmap Memory RecordPage KeyCompare.

(** ** C strings in a block *)

(** The bytes before the terminating zero; [None]: there is none in the block. *)
Fixpoint cstr (m : list Z) : option (list Z) :=
  match m with
  | [] => None
  | b :: m' => if b =? 0 then Some [] else cons b <$> cstr m'
  end.

Definition dash : Z := 45.
Definition is_digit (b : Z) : bool := (48 <=? b) && (b <=? 57).

(** The white space of the C locale. *)
Definition is_space (b : Z) : bool := (b =? 32) || ((9 <=? b) && (b <=? 13)).

(** [atoi] on a string whose number is in the range of [int]. *)
Fixpoint digits_value (acc : Z) (s : list Z) : Z :=
  match s with
  | b :: s' => if is_digit b then digits_value (10 * acc + (b - 48)) s' else acc
  | [] => acc
  end.

Fixpoint atoi (s : list Z) : Z :=
  match s with
  | [] => 0
  | b :: s' =>
      if is_space b then atoi s'
      else if b =? dash then - digits_value 0 s'
      else if b =? 43 then digits_value 0 s'
      else digits_value 0 s
  end.

(** [strchr(s, c) + 1]; [None]: the character is not there. *)
Fixpoint after_char (c : Z) (s : list Z) : option (list Z) :=
  match s with
  | [] => None
  | b :: s' => if b =? c then Some s' else after_char c s'
  end.

(** ** Regular expressions *)

Inductive regex :=
| Void | Eps | Class (p : Z -> bool) | Cat (r1 r2 : regex) | Alt (r1 r2 : regex).

(** [r{lo,hi}]. *)
Fixpoint repeat_opt (n : nat) (r : regex) : regex :=
  match n with O => Eps | S n' => Alt Eps (Cat r (repeat_opt n' r)) end.
Fixpoint repeat_exact (n : nat) (r : regex) (rest : regex) : regex :=
  match n with O => rest | S n' => Cat r (repeat_exact n' r rest) end.
Definition between (lo hi : nat) (r : regex) : regex := repeat_exact lo r (repeat_opt (hi - lo) r).

Fixpoint nullable_re (r : regex) : bool :=
  match r with
  | Void | Class _ => false
  | Eps => true
  | Cat r1 r2 => nullable_re r1 && nullable_re r2
  | Alt r1 r2 => nullable_re r1 || nullable_re r2
  end.

Fixpoint deriv (b : Z) (r : regex) : regex :=
  match r with
  | Void | Eps => Void
  | Class p => if p b then Eps else Void
  | Cat r1 r2 =>
      let l := Cat (deriv b r1) r2 in if nullable_re r1 then Alt l (deriv b r2) else l
  | Alt r1 r2 => Alt (deriv b r1) (deriv b r2)
  end.

(** [std::regex_match]: the whole string matches. *)
Fixpoint regex_match (r : regex) (s : list Z) : bool :=
  match s with
  | [] => nullable_re r
  | b :: s' => regex_match (deriv b r) s'
  end.

(** ["^[0-9]{0,4}-[0-9]{1,2}-[0-9]{1,2}$"]. *)
Definition date_regex : regex :=
  let number lo hi := between lo hi (Class is_digit) in
  let sep := Class (fun b => b =? dash) in
  Cat (number 0%nat 4%nat) (Cat sep (Cat (number 1%nat 2%nat) (Cat sep (number 1%nat 2%nat)))).

(** ** DateUtil *)

Record DateUtil := { uy_ : Z; um_ : Z; ud_ : Z }.

Definition theGlobalDateUtil : DateUtil := {| uy_ := 2038; um_ := 3; ud_ := 1 |}.

Definition check_dateRange (u : DateUtil) (y m d : Z) : bool :=
  let isvalid :=
    if negb (y =? uy_ u) then y <? uy_ u
    else if negb (m =? um_ u) then m <? um_ u
    else if negb (d =? ud_ u) then d <? ud_ u
    else true in
  if negb isvalid then false else 1970 <=? y.

(** The digits of a number that is not negative. *)
Fixpoint digits (fuel : nat) (v : Z) (rest : list Z) : list Z :=
  match fuel with
  | O => rest
  | S fuel' =>
      let rest := 48 + v mod 10 :: rest in
      if v <? 10 then rest else digits fuel' (v / 10) rest
  end.

(** [sprintf(m + off, "%0<w>d", v)] with the terminating zero; an [int] has at most ten digits. *)
Definition sprintf_0d (w : Z) (v off : Z) (m : list Z) : list Z :=
  let ds := digits 10 v [] in
  put m off (replicate (Z.to_nat (w - alen ds)) 48 ++ ds ++ [0]).

Definition Check_and_format_date (u : DateUtil) : M (list Z) unit :=
  let! data := get in
  match cstr data with
  | None => undefined
  | Some datas =>
      fail_if (negb (regex_match date_regex datas)) SCHEMA_FIELD_TYPE_MISMATCH ;;
      let y := atoi datas in
      match after_char dash datas with
      | None => undefined
      | Some datas =>
          let m := atoi datas in
          match after_char dash datas with
          | None => undefined
          | Some datas =>
              let d := atoi datas in
              fail_if ((y <? 0) || (m <? 0) || (d <? 0)) SCHEMA_FIELD_TYPE_MISMATCH ;;
              let leapyear := if (Z.rem y 400 =? 0) || ((Z.rem y 4 =? 0) && negb (Z.rem y 100 =? 0)) then 1 else 0 in
              fail_if ((12 <? m) || (m <? 1) || (31 <? d) || (d <? 1) ||
                       (((m =? 4) || (m =? 6) || (m =? 9) || (m =? 11)) && (30 <? d)) ||
                       ((m =? 2) && (28 + leapyear <? d))) SCHEMA_FIELD_TYPE_MISMATCH ;;
              fail_if (negb (check_dateRange u y m d)) SCHEMA_FIELD_TYPE_MISMATCH ;;
              undefined_if (alen data <? 12) ;;
              modify (sprintf_0d 4 y 0) ;;
              modify (sprintf_0d 2 m 5) ;;
              modify (sprintf_0d 2 d 8) ;;
              modify (fun t => aset (aset t 7 dash) 4 dash) ;;
              modify (fun t => aset (aset t 11 0) 10 0)
          end
      end
  end.

Example format_short : Check_and_format_date theGlobalDateUtil [50;48;50;48;45;49;45;50;0;9;9;9;7] =
  (Ok tt, [50;48;50;48;45;48;49;45;48;50;0;0;7]).
Proof. vm_compute. reflexivity. Qed.

(** ** The matcher *)

Inductive in_re : regex -> list Z -> Prop :=
| in_eps : in_re Eps []
| in_class p b : p b = true -> in_re (Class p) [b]
| in_cat r1 r2 s1 s2 : in_re r1 s1 -> in_re r2 s2 -> in_re (Cat r1 r2) (s1 ++ s2)
| in_alt_l r1 r2 s : in_re r1 s -> in_re (Alt r1 r2) s
| in_alt_r r1 r2 s : in_re r2 s -> in_re (Alt r1 r2) s.

#[local] Hint Constructors in_re : core.

Section matcher.
Implicit Types (r : regex) (s : list Z) (b : Z).

Lemma in_cat_inv r1 r2 s : in_re (Cat r1 r2) s <-> exists s1 s2, s = s1 ++ s2 /\ in_re r1 s1 /\ in_re r2 s2.
Proof. split; [inversion 1; subst; eauto 10|intros (s1 & s2 & -> & ? & ?); auto]. Qed.

Lemma in_alt_inv r1 r2 s : in_re (Alt r1 r2) s <-> in_re r1 s \/ in_re r2 s.
Proof. split; [inversion 1; auto|intros [?|?]; auto]. Qed.

Lemma in_class_inv p s : in_re (Class p) s <-> exists b, s = [b] /\ p b = true.
Proof. split; [inversion 1; eauto|intros (b & -> & ?); auto]. Qed.

Lemma nullable_spec r : nullable_re r = true <-> in_re r [].
Proof.
  induction r as [| |p|r1 IH1 r2 IH2|r1 IH1 r2 IH2]; simpl.
  - split; [done|inversion 1].
  - by split.
  - split; [done|inversion 1].
  - rewrite andb_true_iff, IH1, IH2, in_cat_inv. split.
    + intros [H1 H2]. by exists [], [].
    + intros (s1 & s2 & E & H1 & H2). symmetry in E. by apply app_eq_nil in E as [-> ->].
  - by rewrite orb_true_iff, IH1, IH2, in_alt_inv.
Qed.

Lemma deriv_spec r b s : in_re (deriv b r) s <-> in_re r (b :: s).
Proof.
  revert s. induction r as [| |p|r1 IH1 r2 IH2|r1 IH1 r2 IH2]; intros s; simpl.
  - split; inversion 1.
  - split; inversion 1.
  - rewrite in_class_inv. destruct (p b) eqn:E.
    + split; [inversion 1; by exists b|intros (c & [= -> ->] & _); constructor].
    + split; [inversion 1|intros (c & [= -> ->] & ?); congruence].
  - assert (Hl : in_re (Cat (deriv b r1) r2) s <-> exists s1 s2, s = s1 ++ s2 /\ in_re r1 (b :: s1) /\ in_re r2 s2)
      by (rewrite in_cat_inv; by setoid_rewrite IH1).
    assert (Hr : in_re (Cat r1 r2) (b :: s) <->
      (exists s1 s2, s = s1 ++ s2 /\ in_re r1 (b :: s1) /\ in_re r2 s2) \/ (in_re r1 [] /\ in_re r2 (b :: s))).
    { rewrite in_cat_inv. split.
      - intros ([|c s1] & s2 & E & H1 & H2); simpl in E; simplify_eq; [by right|]. left. by exists s1, s2.
      - intros [(s1 & s2 & -> & H1 & H2)|[H1 H2]]; [by exists (b :: s1), s2|by exists [], (b :: s)]. }
    rewrite Hr. destruct (nullable_re r1) eqn:En.
    + apply nullable_spec in En. rewrite in_alt_inv, Hl, IH2. naive_solver.
    + rewrite Hl. split; [by left|]. intros [?|[H1%nullable_spec _]]; [done|congruence].
  - by rewrite !in_alt_inv, IH1, IH2.
Qed.

(** The matcher decides the language of the expression. *)
Lemma regex_match_in r s : regex_match r s = true <-> in_re r s.
Proof.
  revert r. induction s as [|b s IH]; intros r; simpl; [apply nullable_spec|].
  rewrite IH. apply deriv_spec.
Qed.

Lemma in_class_repeat p n s :
  in_re (repeat_opt n (Class p)) s <-> Forall (fun b => p b = true) s /\ (length s <= n)%nat.
Proof.
  revert s. induction n as [|n IH]; intros s; simpl.
  - split; [inversion 1; by split; [constructor|simpl; lia]|].
    intros [_ Hl]. destruct s; [constructor|simpl in Hl; lia].
  - rewrite in_alt_inv, in_cat_inv. split.
    + intros [H1|(s1 & s2 & -> & (b & -> & Hb)%in_class_inv & [H4 H5]%IH)].
      * inversion H1. split; [constructor|simpl; lia].
      * split; [by constructor|simpl; lia].
    + intros [Hf Hl]. destruct s as [|b s]; [left; constructor|]. right. inversion Hf; subst.
      exists [b], s. split_and!; [done|by constructor|]. apply IH. split; [done|simpl in Hl; lia].
Qed.

Lemma in_between p lo hi s :
  (lo <= hi)%nat ->
  in_re (between lo hi (Class p)) s <-> Forall (fun b => p b = true) s /\ (lo <= length s <= hi)%nat.
Proof.
  unfold between. intros Hle. revert hi s Hle. induction lo as [|lo IH]; intros hi s Hle.
  { cbn [repeat_exact]. rewrite Nat.sub_0_r, in_class_repeat. split; (intros [? ?]; split; [done|lia]). }
  destruct hi as [|hi]; [lia|]. simpl. rewrite in_cat_inv. split.
  - intros (s1 & s2 & -> & (b & -> & Hb)%in_class_inv & H2). apply (IH hi s2) in H2 as [? ?]; [|lia].
    split; [by constructor|simpl; lia].
  - intros [Hf Hl]. destruct s as [|b s]; [simpl in Hl; lia|]. inversion Hf; subst.
    exists [b], s. split_and!; [done|by constructor|]. apply (IH hi s); [lia|]. split; [done|simpl in Hl; lia].
Qed.
End matcher.

(** A string of the date format and its three numerals. *)
Definition date_form (ys ms ds s : list Z) : Prop :=
  s = ys ++ dash :: ms ++ dash :: ds /\ Forall (fun b => is_digit b = true) (ys ++ ms ++ ds) /\
  (length ys <= 4)%nat /\ (1 <= length ms <= 2)%nat /\ (1 <= length ds <= 2)%nat.

Lemma date_regex_spec s : regex_match date_regex s = true <-> exists ys ms ds, date_form ys ms ds s.
Proof.
  rewrite regex_match_in. unfold date_regex. split.
  - rewrite in_cat_inv. intros (ys & t1 & -> & Hy & Ht). rewrite in_cat_inv in Ht.
    destruct Ht as (p & t2 & -> & (b & -> & Hb)%in_class_inv & Ht). rewrite in_cat_inv in Ht.
    destruct Ht as (ms & t3 & -> & Hm & Ht). rewrite in_cat_inv in Ht.
    destruct Ht as (q & ds & -> & (c & -> & Hc)%in_class_inv & Hd).
    apply in_between in Hy as [Hy Hyl]; [|lia]. apply in_between in Hm as [Hm Hml]; [|lia].
    apply in_between in Hd as [Hd Hdl]; [|lia]. apply Z.eqb_eq in Hb as ->. apply Z.eqb_eq in Hc as ->.
    exists ys, ms, ds. split; [done|]. split; [by rewrite !Forall_app|]. lia.
  - intros (ys & ms & ds & -> & Hf & Hy & Hm & Hd). rewrite !Forall_app in Hf. destruct Hf as (Hf1 & Hf2 & Hf3).
    constructor; [apply in_between; [lia|split; [done|lia]]|].
    apply (in_cat _ _ [dash]); [by constructor|]. constructor; [apply in_between; [lia|by split]|].
    apply (in_cat _ _ [dash]); [by constructor|]. apply in_between; [lia|by split].
Qed.

(** ** What is accepted, and what is written *)

Definition leap_year (y : Z) : bool := ((y mod 4 =? 0) && negb (y mod 100 =? 0)) || (y mod 400 =? 0).

Definition days_in_month (y m : Z) : Z :=
  if (m =? 4) || (m =? 6) || (m =? 9) || (m =? 11) then 30
  else if m =? 2 then (if leap_year y then 29 else 28) else 31.

(** The dates of the Gregorian calendar from 1970-01-01 to 2038-03-01. *)
Record date_ok (y m d : Z) : Prop := {
  dt_year : 1970 <= y <= 2038;
  dt_month : 1 <= m <= 12;
  dt_day : 1 <= d <= days_in_month y m;
  dt_last : y = 2038 -> m < 3 \/ (m = 3 /\ d <= 1) }.

#[export] Instance date_ok_dec y m d : Decision (date_ok y m d).
Proof.
  destruct (decide (1970 <= y <= 2038 /\ 1 <= m <= 12 /\ 1 <= d <= days_in_month y m /\
    (y = 2038 -> m < 3 \/ (m = 3 /\ d <= 1)))) as [Hd|Hd].
  - left. destruct Hd as (? & ? & ? & ?). by constructor.
  - right. intros [? ? ? ?]. by apply Hd.
Defined.

(** The canonical form, with its zeros. *)
Definition two (v : Z) : list Z := [48 + v / 10; 48 + v mod 10].
Definition date_bytes (y m d : Z) : list Z :=
  two (y / 100) ++ two (y mod 100) ++ dash :: two m ++ dash :: two d ++ [0; 0].

Section numerals.
Implicit Types (s t ys ms ds : list Z).

Definition numeral s : Z := digits_value 0 s.

Lemma digits_value_bound s acc :
  Forall (fun b => is_digit b = true) s -> 0 <= acc -> 0 <= digits_value acc s < (acc + 1) * 10 ^ alen s.
Proof.
  intros Hf. revert acc. induction Hf as [|b s Hb Hf IH]; intros acc Ha; cbn [digits_value].
  - change (alen (@nil Z)) with 0. lia.
  - rewrite Hb. unfold is_digit in Hb. destruct (IH (10 * acc + (b - 48)) ltac:(lia)) as [H1 H2].
    split; [done|]. rewrite alen_cons. pose proof (alen_nonneg s). rewrite Z.pow_add_r by lia. nia.
Qed.

Lemma digits_value_stop s t acc :
  Forall (fun b => is_digit b = true) s -> digits_value acc (s ++ dash :: t) = digits_value acc s.
Proof.
  intros Hf. revert acc. induction Hf as [|b s Hb Hf IH]; intros acc; simpl; [done|]. rewrite Hb. apply IH.
Qed.

Lemma atoi_digits s t :
  Forall (fun b => is_digit b = true) s -> s <> [] -> atoi (s ++ dash :: t) = numeral s /\ atoi s = numeral s.
Proof.
  intros Hf Hne. destruct s as [|b s]; [done|]. inversion Hf as [|? ? Hb Hf']; subst.
  pose proof (digits_value_stop (b :: s) t 0 Hf) as Hs. unfold numeral. cbn [atoi app].
  unfold is_digit in Hb. unfold is_space, dash.
  destruct (Z.eqb_spec b 32), (Z.leb_spec 9 b), (Z.leb_spec b 13), (Z.eqb_spec b 45), (Z.eqb_spec b 43); try lia; simpl.
  all: by split.
Qed.

Lemma after_dash s t : Forall (fun b => is_digit b = true) s -> after_char dash (s ++ dash :: t) = Some t.
Proof.
  induction 1 as [|b s Hb Hf IH]; simpl; [done|]. unfold is_digit in Hb. destruct (Z.eqb_spec b dash) as [->|]; [done|exact IH].
Qed.

(** [sprintf] of the numbers of a date. *)
Lemma digits_one v : 0 <= v < 10 -> digits 10 v [] = [48 + v].
Proof. intros Hv. simpl. destruct (Z.ltb_spec v 10); [|lia]. by rewrite Z.mod_small by lia. Qed.

Lemma digits_two v : 10 <= v < 100 -> digits 10 v [] = two v.
Proof.
  intros Hv. simpl. destruct (Z.ltb_spec v 10); [lia|].
  assert (v / 10 < 10) by (apply Z.div_lt_upper_bound; lia). destruct (Z.ltb_spec (v / 10) 10); [|lia].
  assert (0 < v / 10) by (apply Z.div_str_pos; lia). by rewrite (Z.mod_small (v / 10)) by lia.
Qed.

Lemma sprintf_two v off data : 0 <= v < 100 -> sprintf_0d 2 v off data = put data off (two v ++ [0]).
Proof.
  intros Hv. unfold sprintf_0d. destruct (decide (v < 10)).
  - rewrite digits_one by lia. unfold two. rewrite Z.div_small, Z.mod_small by lia. done.
  - rewrite digits_two by lia. done.
Qed.

Lemma sprintf_four v off data :
  1000 <= v < 10000 -> sprintf_0d 4 v off data = put data off (two (v / 100) ++ two (v mod 100) ++ [0]).
Proof.
  intros Hv. unfold sprintf_0d.
  assert (E : digits 10 v [] = two (v / 100) ++ two (v mod 100)).
  { unfold two. rewrite !Z.div_div by lia.
    assert (E1 : v mod 100 / 10 = v / 10 mod 10).
    { change 100 with (10 * 10). rewrite Z.rem_mul_r by lia. rewrite Z.mul_comm, Z.div_add by lia.
      rewrite (Z.div_small (v mod 10)) by (apply Z.mod_pos_bound; lia). done. }
    assert (E2 : v mod 100 mod 10 = v mod 10).
    { change 100 with (10 * 10). rewrite Z.rem_mul_r by lia. rewrite Z.mul_comm, Z.mod_add by lia.
      apply Z.mod_small, Z.mod_pos_bound. lia. }
    rewrite E1, E2. simpl. destruct (Z.ltb_spec v 10); [lia|].
    assert (100 <= v / 10) by (apply Z.div_le_lower_bound; lia). destruct (Z.ltb_spec (v / 10) 10); [lia|].
    rewrite !Z.div_div by lia. change (100 * 10) with (10 * 10 * 10).
    change (10 * 10 * 10) with 1000. change (10 * 10) with 100.
    assert (10 <= v / 100) by (apply Z.div_le_lower_bound; lia). destruct (Z.ltb_spec (v / 100) 10); [lia|].
    assert (0 <= v / 1000 < 10) by (split; [apply Z.div_pos; lia|apply Z.div_lt_upper_bound; lia]).
    destruct (Z.ltb_spec (v / 1000) 10); [|lia]. by rewrite (Z.mod_small (v / 1000)) by lia. }
  rewrite E. done.
Qed.
End numerals.

(** A block of twelve bytes and more, written by the three [sprintf]s and the four stores. *)
Lemma write_date y m d data :
  12 <= alen data -> 1000 <= y < 10000 -> 0 <= m < 100 -> 0 <= d < 100 ->
  (let t := sprintf_0d 2 d 8 (sprintf_0d 2 m 5 (sprintf_0d 4 y 0 data)) in
   let t := aset (aset t 7 dash) 4 dash in aset (aset t 11 0) 10 0) = date_bytes y m d ++ drop 12 data.
Proof.
  intros Hl Hy Hm Hd. rewrite sprintf_four, !sprintf_two by lia.
  do 12 (destruct data as [|? data]; [unfold alen in Hl; simpl in Hl; lia|]). reflexivity.
Qed.

Lemma date_checks y m d :
  0 <= y -> 0 <= m -> 0 <= d ->
  let leapyear := if (Z.rem y 400 =? 0) || ((Z.rem y 4 =? 0) && negb (Z.rem y 100 =? 0)) then 1 else 0 in
  date_ok y m d <->
  ((12 <? m) || (m <? 1) || (31 <? d) || (d <? 1) ||
    (((m =? 4) || (m =? 6) || (m =? 9) || (m =? 11)) && (30 <? d)) ||
    ((m =? 2) && (28 + leapyear <? d))) = false /\ check_dateRange theGlobalDateUtil y m d = true.
Proof.
  intros Hy Hm Hd. cbv zeta. rewrite !Z.rem_mod_nonneg by lia.
  assert (El : leap_year y = (y mod 400 =? 0) || ((y mod 4 =? 0) && negb (y mod 100 =? 0)))
    by (unfold leap_year; by rewrite orb_comm).
  rewrite <- El.
  clear El. unfold check_dateRange. simpl. destruct (leap_year y) eqn:El; split.
  all: first [intros [D1 D2 D3 D4]; unfold days_in_month in D3; rewrite ?El in D3|
    intros [H1 H2]; constructor; unfold days_in_month; rewrite ?El];
    repeat match goal with
    | |- context [if ?b then _ else _] => destruct b eqn:?
    | H : context [if ?b then _ else _] |- _ => destruct b eqn:?
    end; lia.
Qed.

(** A date that is in the format is decided by the calendar. *)
Lemma check_date_form data s ys ms ds :
  cstr data = Some s -> date_form ys ms ds s ->
  (date_ok (numeral ys) (numeral ms) (numeral ds) ->
     Check_and_format_date theGlobalDateUtil data =
       if 12 <=? alen data then (Ok tt, date_bytes (numeral ys) (numeral ms) (numeral ds) ++ drop 12 data) else (Ub, data)) /\
  (~ date_ok (numeral ys) (numeral ms) (numeral ds) ->
     Check_and_format_date theGlobalDateUtil data = (Err SCHEMA_FIELD_TYPE_MISMATCH, data)).
Proof.
  intros Hs Hform. pose proof Hform as (-> & Hf & Hy & Hm & Hd).
  rewrite !Forall_app in Hf. destruct Hf as (Hfy & Hfm & Hfd).
  assert (Hre : regex_match date_regex (ys ++ dash :: ms ++ dash :: ds) = true) by (apply date_regex_spec; eauto).
  pose proof (digits_value_bound ys 0 Hfy ltac:(lia)) as [Hy0 _].
  pose proof (digits_value_bound ms 0 Hfm ltac:(lia)) as [Hm0 _].
  pose proof (digits_value_bound ds 0 Hfd ltac:(lia)) as [Hd0 _].
  fold (numeral ys) in *. fold (numeral ms) in *. fold (numeral ds) in *.
  assert (Hms : ms <> []) by (intros ->; simpl in Hm; lia). assert (Hds : ds <> []) by (intros ->; simpl in Hd; lia).
  destruct (atoi_digits ms ds Hfm Hms) as [Em _]. destruct (atoi_digits ds [] Hfd Hds) as [_ Ed].
  unfold Check_and_format_date. rewrite bind_get, Hs, bind_fail_if, Hre. cbn [negb]. cbv zeta.
  rewrite (after_dash ys), (after_dash ms), Em, Ed by done. rewrite bind_fail_if.
  destruct (decide (ys = [])) as [->|Hys].
  - assert (Ey : atoi ([] ++ dash :: ms ++ dash :: ds) = - numeral ms) by (cbn [app atoi]; simpl; by rewrite digits_value_stop).
    rewrite Ey. change (numeral []) with 0. split; [intros [[? _]]; lia|intros _].
    destruct (Z.ltb_spec (- numeral ms) 0); [done|]. assert (numeral ms = 0) as -> by lia.
    rewrite bind_fail_if. destruct (_ || _) eqn:E; [done|]. rewrite bind_fail_if. done.
  - destruct (atoi_digits ys (ms ++ dash :: ds) Hfy Hys) as [-> _].
    destruct (Z.ltb_spec (numeral ys) 0), (Z.ltb_spec (numeral ms) 0), (Z.ltb_spec (numeral ds) 0); try lia. simpl orb.
    pose proof (date_checks (numeral ys) (numeral ms) (numeral ds) Hy0 Hm0 Hd0) as Hc. cbv zeta in Hc.
    rewrite bind_fail_if. destruct (_ || _) eqn:E; [split; [intros Hok%Hc; destruct Hok; congruence|done]|].
    rewrite bind_fail_if. destruct (check_dateRange _ _ _ _); [|split; [intros [_ ?]%Hc; congruence|done]].
    simpl negb. split; [|intros Hno; exfalso; apply Hno, Hc; by split]. intros Hok.
    rewrite bind_undefined_if. rewrite Z.leb_antisym. destruct (Z.ltb_spec (alen data) 12); [done|]. cbn [negb].
    rewrite !bind_modify. unfold modify. f_equal.
    destruct Hok as [D1 D2 D3 _]. unfold days_in_month in D3.
    apply write_date; [done|lia|lia|]. repeat case_match; lia.
Qed.

(** C26. [Check_and_format_date] on the block of a string: exactly the strings of the format [y-m-d] that are a
    date of the calendar from 1970-01-01 to 2038-03-01, both included, are accepted, and the first twelve
    bytes become the canonical form of this date; a block of less than twelve bytes, such as [strdup] makes of
    a short string, is written behind its end then, which is undefined; everything else is refused and the block is
    left as it was.  The comments of the program end the range the day before: [last_day_accepted]. *)
Theorem Check_and_format_date_ok data s :
  cstr data = Some s ->
  (forall ys ms ds, date_form ys ms ds s ->
    (date_ok (numeral ys) (numeral ms) (numeral ds) ->
       Check_and_format_date theGlobalDateUtil data =
         if 12 <=? alen data then (Ok tt, date_bytes (numeral ys) (numeral ms) (numeral ds) ++ drop 12 data) else (Ub, data)) /\
    (~ date_ok (numeral ys) (numeral ms) (numeral ds) ->
       Check_and_format_date theGlobalDateUtil data = (Err SCHEMA_FIELD_TYPE_MISMATCH, data))) /\
  ((forall ys ms ds, ~ date_form ys ms ds s) ->
     Check_and_format_date theGlobalDateUtil data = (Err SCHEMA_FIELD_TYPE_MISMATCH, data)).
Proof.
  intros Hs. split; [intros ys ms ds Hf; by apply (check_date_form data s)|].
  intros Hno. unfold Check_and_format_date. rewrite bind_get, Hs, bind_fail_if.
  destruct (regex_match date_regex s) eqn:E; [|done]. apply date_regex_spec in E as (ys & ms & ds & Hf).
  by destruct (Hno ys ms ds).
Qed.

(** ** Canonical dates *)

Lemma two_digits v : 0 <= v < 100 -> Forall (fun b => is_digit b = true) (two v).
Proof.
  intros Hv. assert (0 <= v / 10 < 10) by (split; [apply Z.div_pos; lia|apply Z.div_lt_upper_bound; lia]).
  pose proof (Z.mod_pos_bound v 10 ltac:(lia)). unfold two, is_digit. repeat constructor; lia.
Qed.

Lemma numeral_two v acc : 0 <= v < 100 -> forall t, digits_value acc (two v ++ t) = digits_value (100 * acc + v) t.
Proof.
  intros Hv t. pose proof (two_digits v Hv) as Hf. inversion Hf as [|? ? H1 Hf']; subst. inversion Hf' as [|? ? H2 _]; subst.
  simpl. rewrite H1, H2. f_equal. pose proof (Z.div_mod v 10 ltac:(lia)). lia.
Qed.

Lemma date_fields y m d :
  date_ok y m d -> 0 <= y / 100 < 100 /\ 0 <= y mod 100 < 100 /\ 0 <= m < 100 /\ 0 <= d < 100.
Proof.
  intros [D1 D2 D3 _]. split_and!; try lia.
  - apply Z.div_pos; lia.
  - apply Z.div_lt_upper_bound; lia.
  - apply Z.mod_pos_bound. lia.
  - apply Z.mod_pos_bound. lia.
  - unfold days_in_month in D3. repeat case_match; lia.
Qed.

(** A canonical date is accepted and stays as it is. *)
Theorem format_canonical y m d rest :
  date_ok y m d ->
  Check_and_format_date theGlobalDateUtil (date_bytes y m d ++ rest) = (Ok tt, date_bytes y m d ++ rest).
Proof.
  intros Hok. destruct (date_fields y m d Hok) as (Hy1 & Hy2 & Hm & Hd).
  set (ys := two (y / 100) ++ two (y mod 100)).
  assert (Ny : numeral ys = y).
  { unfold numeral, ys. rewrite numeral_two by done. rewrite <- (app_nil_r (two (y mod 100))), numeral_two by done.
    simpl. pose proof (Z.div_mod y 100 ltac:(lia)). lia. }
  assert (Nt : forall v, 0 <= v < 100 -> numeral (two v) = v)
    by (intros v Hv; unfold numeral; rewrite <- (app_nil_r (two v)), numeral_two by done; simpl; lia).
  assert (Hform : date_form ys (two m) (two d) (ys ++ dash :: two m ++ dash :: two d)).
  { split; [done|]. split; [|simpl; lia]. unfold ys. rewrite !Forall_app. split_and!; apply two_digits; lia. }
  assert (Hc : cstr (date_bytes y m d ++ rest) = Some (ys ++ dash :: two m ++ dash :: two d)).
  { assert (Hz : forall s t, Forall (fun b => is_digit b = true \/ b = dash) s -> cstr (s ++ 0 :: t) = Some s).
    { induction 1 as [|b s Hb Hf IH]; simpl; [done|]. rewrite IH. unfold is_digit, dash in Hb.
      destruct (Z.eqb_spec b 0); [lia|done]. }
    replace (date_bytes y m d ++ rest) with ((ys ++ dash :: two m ++ dash :: two d) ++ 0 :: 0 :: rest) by done.
    apply Hz. destruct Hform as (_ & Hf & _). rewrite !Forall_app in Hf. destruct Hf as (F1 & F2 & F3).
    pose proof (Forall_impl _ _ _ F1 (fun b H => or_introl (b = dash) H)).
    pose proof (Forall_impl _ _ _ F2 (fun b H => or_introl (b = dash) H)).
    pose proof (Forall_impl _ _ _ F3 (fun b H => or_introl (b = dash) H)).
    rewrite Forall_app, Forall_cons, Forall_app, Forall_cons. split_and!; auto. }
  destruct (check_date_form _ _ _ _ _ Hc Hform) as [Hr _].
  rewrite (proj2 (Z.leb_le _ _)) in Hr by (unfold alen; rewrite length_app; simpl; lia).
  rewrite Ny, !Nt in Hr by lia. by apply Hr.
Qed.

(** The sign of a comparison of two strings that begin with two digits. *)
Lemma strncmp_two a b s t n :
  0 <= a < 100 -> 0 <= b < 100 ->
  Z.sgn (strncmp (two a ++ s) (two b ++ t) (S (S n))) =
    if a <? b then -1 else if b <? a then 1 else Z.sgn (strncmp s t n).
Proof.
  intros Ha Hb. assert (0 <= a / 10 < 10) by (split; [apply Z.div_pos; lia|apply Z.div_lt_upper_bound; lia]).
  assert (0 <= b / 10 < 10) by (split; [apply Z.div_pos; lia|apply Z.div_lt_upper_bound; lia]).
  pose proof (Z.mod_pos_bound a 10 ltac:(lia)). pose proof (Z.mod_pos_bound b 10 ltac:(lia)).
  pose proof (Z.div_mod a 10 ltac:(lia)). pose proof (Z.div_mod b 10 ltac:(lia)). cbn [two app strncmp].
  destruct (Z.eqb_spec (48 + a / 10) (48 + b / 10)); simpl negb; cbv iota.
  - destruct (Z.eqb_spec (48 + a / 10) 0); [lia|].
    destruct (Z.eqb_spec (48 + a mod 10) (48 + b mod 10)); simpl negb; cbv iota.
    + destruct (Z.eqb_spec (48 + a mod 10) 0); [lia|]. destruct (Z.ltb_spec a b), (Z.ltb_spec b a); lia || done.
    + destruct (Z.ltb_spec a b), (Z.ltb_spec b a); lia.
  - destruct (Z.ltb_spec a b), (Z.ltb_spec b a); lia.
Qed.

(** C28. On stored dates the comparison of the index ([CompareKey]) is the chronological order. *)
Theorem dates_chronological y1 m1 d1 y2 m2 d2 len :
  date_ok y1 m1 d1 -> date_ok y2 m2 d2 -> 12 <= len ->
  let c := CompareKey (date_bytes y1 m1 d1) (date_bytes y2 m2 d2) DATES len in
  (c < 0 <-> y1 < y2 \/ (y1 = y2 /\ (m1 < m2 \/ (m1 = m2 /\ d1 < d2)))) /\
  (c = 0 <-> y1 = y2 /\ m1 = m2 /\ d1 = d2).
Proof.
  intros Ok1 Ok2 Hlen c.
  destruct (date_fields _ _ _ Ok1) as (? & ? & ? & ?), (date_fields _ _ _ Ok2) as (? & ? & ? & ?).
  pose proof (Z.div_mod y1 100 ltac:(lia)). pose proof (Z.div_mod y2 100 ltac:(lia)).
  assert (Hdash : forall s t k, strncmp (dash :: s) (dash :: t) (S k) = strncmp s t k) by done.
  assert (Hend : forall k, strncmp [0; 0] [0; 0] (S (S k)) = 0) by done.
  assert (Hc : Z.sgn c = if y1 <? y2 then -1 else if y2 <? y1 then 1 else if m1 <? m2 then -1 else if m2 <? m1 then 1
    else if d1 <? d2 then -1 else if d2 <? d1 then 1 else 0).
  { unfold c, CompareKey, date_bytes. replace (Z.to_nat len) with (12 + Z.to_nat (len - 12))%nat by lia.
    cbn [Nat.add]. rewrite !strncmp_two, !Hdash, !strncmp_two, !Hdash, !strncmp_two, Hend by lia.
    repeat case_match; lia. }
  revert Hc. clearbody c. repeat case_match; intros; lia.
Qed.

(** ** A concrete block *)

Definition demo_date : list Z := [50;48;50;48;45;49;45;50;0;9;9;9;7].

Lemma Check_and_format_date_ok_witness :
  Check_and_format_date theGlobalDateUtil demo_date = (Ok tt, date_bytes 2020 1 2 ++ [7]).
Proof.
  destruct (Check_and_format_date_ok demo_date [50;48;50;48;45;49;45;50]) as [H _]; [reflexivity|].
  apply (H [50;48;50;48] [49] [50]).
  - split; [reflexivity|]. split; [repeat constructor|simpl; lia].
  - apply (bool_decide_eq_true_1 _). vm_compute. reflexivity.
Defined.

Lemma format_canonical_witness :
  Check_and_format_date theGlobalDateUtil (date_bytes 2000 2 29) = (Ok tt, date_bytes 2000 2 29).
Proof.
  rewrite <- (app_nil_r (date_bytes 2000 2 29)). apply format_canonical.
  apply (bool_decide_eq_true_1 _). vm_compute. reflexivity.
Defined.

Lemma dates_chronological_witness :
  CompareKey (date_bytes 1999 12 31) (date_bytes 2000 2 29) DATES 12 < 0.
Proof.
  apply (dates_chronological 1999 12 31 2000 2 29 12).
  - apply (bool_decide_eq_true_1 _). vm_compute. reflexivity.
  - apply (bool_decide_eq_true_1 _). vm_compute. reflexivity.
  - lia.
  - lia.
Defined.

(** What a successful check has done. *)
Lemma check_date_read data d :
  Check_and_format_date theGlobalDateUtil data = (Ok tt, d) ->
  exists s ys ms ds, cstr data = Some s /\ date_form ys ms ds s /\ date_ok (numeral ys) (numeral ms) (numeral ds) /\
    12 <= alen data /\ d = date_bytes (numeral ys) (numeral ms) (numeral ds) ++ drop 12 data.
Proof.
  intros Hrun. pose proof Hrun as Hr. unfold Check_and_format_date in Hr. rewrite bind_get in Hr.
  destruct (cstr data) as [s|] eqn:Es; [|done]. rewrite bind_fail_if in Hr.
  destruct (regex_match date_regex s) eqn:Ere; [|done]. simpl negb in Hr. cbv iota zeta in Hr.
  destruct (decide (12 <= alen data)) as [Hl|Hl].
  - apply date_regex_spec in Ere as (ys & ms & ds & Hf).
    destruct (check_date_form _ _ _ _ _ Es Hf) as [Hyes Hno]. rewrite (proj2 (Z.leb_le _ _) Hl) in Hyes.
    destruct (decide (date_ok (numeral ys) (numeral ms) (numeral ds))) as [Hok|Hn].
    + rewrite (Hyes Hok) in Hrun. injection Hrun as <-. by exists s, ys, ms, ds.
    + rewrite (Hno Hn) in Hrun. done.
  - destruct (after_char dash s) as [s1|]; [|done]. destruct (after_char dash s1) as [s2|]; [|done].
    cbv zeta in Hr. do 3 (rewrite bind_fail_if in Hr; match type of Hr with (if ?b then _ else _) = _ => destruct b end; [done|]).
    rewrite bind_undefined_if in Hr. destruct (Z.ltb_spec (alen data) 12); [done|lia].
Qed.

Lemma check_date_inv data d :
  Check_and_format_date theGlobalDateUtil data = (Ok tt, d) ->
  exists y m dd, date_ok y m dd /\ d = date_bytes y m dd ++ drop 12 data.
Proof. intros (s & ys & ms & ds & _ & _ & Hok & _ & ->)%check_date_read. eauto. Qed.

(** The day that the comments exclude. *)
Lemma last_day_accepted : (Check_and_format_date theGlobalDateUtil (date_bytes 2038 3 1)).1 = Ok tt /\
  (Check_and_format_date theGlobalDateUtil (date_bytes 2038 3 2)).1 = Err SCHEMA_FIELD_TYPE_MISMATCH.
Proof. split; vm_compute; reflexivity. Qed.
