(* ===== verification/TableMeta.v ===== *)
(** * Metadata of tables (storage/common/field_meta.cpp, index_meta.cpp, table_meta.cpp)

    FieldMeta, IndexMeta and TableMeta, the layout of a record that TableMeta::init computes,
    and the conversion to JSON and back.  A [const char *] that may be null is an
    [option string].  The JSON library is not part of the program: [Json] is what
    the program uses of it, [JsonLaws] its documented behaviour. *)
From S2P Require Import Prelude ReturnCode Effects Bitmap Memory RecordPage KeyCompare.
From Stdlib Require Import String Ascii.
From stdpp Require Import sorting.

#[local] Open Scope string_scope.
#[local] Open Scope Z_scope.

(** [isspace] in the C locale, and common::is_blank. *)
Definition isspace (c : ascii) : bool :=
  let n := Z.of_N (N_of_ascii c) in (n =? 32) || ((9 <=? n) && (n <=? 13)).

Fixpoint is_blank (s : string) : bool :=
  match s with
  | EmptyString => true
  | String c s' => if negb (isspace c) then false else is_blank s'
  end.

(** ** File names (storage/common/meta_util.cpp) *)

Definition TABLE_META_SUFFIX : string := ".table".
Definition TABLE_DATA_SUFFIX : string := ".data".
Definition TABLE_INDEX_SUFFIX : string := ".index".

Definition table_meta_file (base_dir table_name : string) : string :=
  base_dir ++ "/" ++ table_name ++ TABLE_META_SUFFIX.
Definition index_data_file (base_dir table_name index_name : string) : string :=
  base_dir ++ "/" ++ table_name ++ "-" ++ index_name ++ TABLE_INDEX_SUFFIX.

(** ** FieldMeta *)

Definition ATTR_TYPE_NAME : list string := ["undefined"; "chars"; "ints"; "dates"; "texts"; "floats"].

Definition attr_type_to_string (t : AttrType) : string :=
  if (attr_code UNDEFINED <=? attr_code t) && (attr_code t <=? attr_code FLOATS)
  then aget ATTR_TYPE_NAME (attr_code t) else "unknown".

Definition attr_type_from_string (s : string) : AttrType :=
  let i := scan 0 (alen ATTR_TYPE_NAME) (fun i => bool_decide (aget ATTR_TYPE_NAME i = s)) in
  if i <? alen ATTR_TYPE_NAME then attr_of_code i else UNDEFINED.

Record FieldMeta := {
  fm_name : string; fm_type : AttrType; fm_offset : Z; fm_len : Z; fm_visible : bool; fm_nullable : bool }.

#[export] Instance FieldMeta_eq_dec : EqDecision FieldMeta.
Proof. solve_decision. Defined.
#[export] Instance FieldMeta_inhabited : Inhabited FieldMeta :=
  populate {| fm_name := ""; fm_type := UNDEFINED; fm_offset := -1; fm_len := 0; fm_visible := false; fm_nullable := false |}.

(** A null or an empty string. *)
Definition no_name (name : option string) : bool :=
  match name with None | Some EmptyString => true | _ => false end.

Definition field_init (name : option string) (attr_type : AttrType) (attr_offset attr_len : Z)
    (visible nullable : bool) : res FieldMeta :=
  if no_name name then Err INVALID_ARGUMENT
  else if bool_decide (UNDEFINED = attr_type) || (attr_offset <? 0) || (attr_len <=? 0) then Err INVALID_ARGUMENT
  else Ok {| fm_name := default "" name; fm_type := attr_type; fm_offset := attr_offset; fm_len := attr_len;
             fm_visible := visible; fm_nullable := nullable |}.

Definition set_offset (offset : Z) (f : FieldMeta) : FieldMeta :=
  {| fm_name := fm_name f; fm_type := fm_type f; fm_offset := offset; fm_len := fm_len f;
     fm_visible := fm_visible f; fm_nullable := fm_nullable f |}.

(** ** IndexMeta *)

Record IndexMeta := { im_name : string; im_fields : list string }.

#[export] Instance IndexMeta_eq_dec : EqDecision IndexMeta.
Proof. solve_decision. Defined.

(** The pointers to the fields; a null pointer is dereferenced. *)
Definition index_init (name : option string) (fields : list (option FieldMeta)) : res IndexMeta :=
  match name with
  | None => Err INVALID_ARGUMENT
  | Some n =>
      if is_blank n then Err INVALID_ARGUMENT
      else match mapM id fields with
           | None => Ub
           | Some fs => Ok {| im_name := n; im_fields := fm_name <$> fs |}
           end
  end.

(** [field_[0].c_str()]. *)
Definition im_field (i : IndexMeta) : option string := head (im_fields i).

(** ** TableMeta *)

Record AttrInfo := { ai_name : option string; ai_type : AttrType; ai_length : Z; ai_nullable : Z }.

Record TableMeta := {
  tm_name : string; tm_fields : list FieldMeta; tm_indexes : list IndexMeta; tm_record_size : Z }.

(** The field of the transaction number (Trx::trx_field_name and the like). *)
Definition trx_field_name : string := "__trx".
Definition trx_field_type : AttrType := INTS.
Definition trx_field_len : Z := 4.

Definition init_sys_fields : res (list FieldMeta) :=
  match field_init (Some trx_field_name) trx_field_type 0 trx_field_len false false with
  | Ok f => Ok [f]
  | Err rc => Err rc
  | Ub => Ub
  | OutOfFuel => OutOfFuel
  end.

(** The static [sys_fields_], filled before the first use. *)
Definition sys_fields_ : list FieldMeta := match init_sys_fields with Ok l => l | _ => [] end.

(** The loop over the attributes: the fields and the offset behind the last one. *)
Fixpoint init_fields (field_offset : Z) (attributes : list AttrInfo) : res (list FieldMeta * Z) :=
  match attributes with
  | [] => Ok ([], field_offset)
  | a :: rest =>
      match field_init (ai_name a) (ai_type a) field_offset (int32 (ai_length a)) true (ai_nullable a =? 1) with
      | Ok f =>
          match init_fields (int32 (field_offset + ai_length a)) rest with
          | Ok (fs, off) => Ok (f :: fs, off)
          | Err rc => Err rc | Ub => Ub | OutOfFuel => OutOfFuel
          end
      | Err rc => Err rc | Ub => Ub | OutOfFuel => OutOfFuel
      end
  end.

Definition null_bitmap_len (field_num : Z) : Z := Z.quot (align8 field_num) 8.

Definition table_meta_init (name : option string) (field_num : Z) (attributes : option (list AttrInfo)) : res TableMeta :=
  if no_name name then Err INVALID_ARGUMENT
  else match attributes with
  | None => Err INVALID_ARGUMENT
  | Some attributes =>
      if field_num <=? 0 then Err INVALID_ARGUMENT
      else if alen attributes <? field_num then Ub
      else
        let first := match last sys_fields_ with Some f => int32 (fm_offset f + fm_len f) | None => 0 end in
        match init_fields first (take (Z.to_nat field_num) attributes) with
        | Ok (fs, field_offset) =>
            let fields := (sys_fields_ ++ fs)%list in
            let n := null_bitmap_len (alen fields) in
            Ok {| tm_name := default "" name;
                  tm_fields := (fun f => set_offset (int32 (fm_offset f + n)) f) <$> fields;
                  tm_indexes := []; tm_record_size := int32 (field_offset + n) |}
        | Err rc => Err rc | Ub => Ub | OutOfFuel => OutOfFuel
        end
  end.

Definition add_index (i : IndexMeta) (t : TableMeta) : TableMeta :=
  {| tm_name := tm_name t; tm_fields := tm_fields t; tm_indexes := (tm_indexes t ++ [i])%list;
     tm_record_size := tm_record_size t |}.

Section lookups.
Implicit Types (t : TableMeta) (name : option string).

(** [&fields_[0]]. *)
Definition trx_field t : option FieldMeta := head (tm_fields t).
Definition field_at t (index : Z) : option FieldMeta :=
  if (0 <=? index) && (index <? alen (tm_fields t)) then Some (aget (tm_fields t) index) else None.

Definition field_named t name : option FieldMeta :=
  match name with
  | None => None
  | Some n => snd <$> list_find (fun f => fm_name f = n) (tm_fields t)
  end.

Definition field_index t name : Z :=
  match name with
  | None => -1
  | Some n => match list_find (fun f => fm_name f = n) (tm_fields t) with Some (i, _) => Z.of_nat i | None => -1 end
  end.

Definition find_field_by_offset t (offset : Z) : option FieldMeta :=
  snd <$> list_find (fun f => fm_offset f = offset) (tm_fields t).

Definition field_num t : Z := alen (tm_fields t).
Definition sys_field_num : Z := alen sys_fields_.

Definition index_named t (n : string) : option IndexMeta :=
  snd <$> list_find (fun i => im_name i = n) (tm_indexes t).

Definition find_index_by_field t (f : string) : option IndexMeta :=
  snd <$> list_find (fun i => im_field i = Some f) (tm_indexes t).

Definition find_index_by_fields t (names : list string) : option IndexMeta :=
  snd <$> list_find (fun i => im_fields i = names) (tm_indexes t).
End lookups.

(** ** JSON *)

(** The value of a key in a list of pairs. *)
Fixpoint find_member {A} (k : string) (l : list (string * A)) : option A :=
  match l with
  | [] => None
  | (k', v) :: l' => if decide (k' = k) then Some v else find_member k l'
  end.

(** [J] are the JSON values, [T] the texts that are written to a file. *)
Class Json (J T : Type) := {
  j_string : string -> J;
  j_int : Z -> J;
  j_bool : bool -> J;
  j_object : list (string * J) -> J;   (* a fresh value after [v[key] = x] for distinct keys *)
  j_array : list J -> J;               (* a fresh value after [append]; null without one *)
  j_member : J -> string -> J;         (* [v[key]] of a const value *)
  j_as_string : J -> option string;    (* [isString] and [asString] *)
  j_as_int : J -> option Z;            (* [isInt] and [asInt] *)
  j_as_bool : J -> option bool;        (* [isBool] and [asBool] *)
  j_as_array : J -> option (list J);   (* [isArray] and the elements *)
  j_is_object : J -> bool;
  j_empty : J -> bool;                 (* [empty]: null, or an array or object without elements *)
  j_write : J -> T;                    (* StreamWriter::write *)
  j_parse : T -> option J }.      (* Json::parseFromStream *)

Class JsonLaws (J T : Type) `{Json J T} := {
  j_string_as s : j_as_string (j_string s) = Some s;
  j_int_as z : is_int32 z -> j_as_int (j_int z) = Some z;
  j_bool_as b : j_as_bool (j_bool b) = Some b;
  j_object_is l : l <> [] -> j_is_object (j_object l) = true;
  j_object_member l k v : NoDup (l.*1) -> find_member k l = Some v -> j_member (j_object l) k = v;
  j_array_as l : l <> [] -> j_as_array (j_array l) = Some l /\ j_empty (j_array l) = false;
  j_array_nil : j_empty (j_array []) = true;
  j_parse_write v : j_parse (j_write v) = Some v }.

Section json.
Context {J T : Type} `{Json J T}.

Definition field_to_json (f : FieldMeta) : J :=
  j_object [("name", j_string (fm_name f)); ("type", j_string (attr_type_to_string (fm_type f)));
            ("offset", j_int (fm_offset f)); ("len", j_int (fm_len f));
            ("visible", j_bool (fm_visible f)); ("nullable", j_bool (fm_nullable f))].

Definition field_from_json (v : J) : res FieldMeta :=
  if negb (j_is_object v) then Err GENERIC_ERROR
  else match j_as_string (j_member v "name") with
  | None => Err GENERIC_ERROR
  | Some name =>
  match j_as_string (j_member v "type") with
  | None => Err GENERIC_ERROR
  | Some type_value =>
  match j_as_int (j_member v "offset") with
  | None => Err GENERIC_ERROR
  | Some offset =>
  match j_as_int (j_member v "len") with
  | None => Err GENERIC_ERROR
  | Some len =>
  match j_as_bool (j_member v "visible") with
  | None => Err GENERIC_ERROR
  | Some visible =>
  match j_as_bool (j_member v "nullable") with
  | None => Err GENERIC_ERROR
  | Some nullable =>
      let type := attr_type_from_string type_value in
      if bool_decide (UNDEFINED = type) then Err GENERIC_ERROR
      else field_init (Some name) type offset len visible nullable
  end end end end end end.

Definition index_to_json (i : IndexMeta) : J :=
  j_object [("index_name", j_string (im_name i));
            ("index_field_names", j_array ((fun f => j_object [("field_name", j_string f)]) <$> im_fields i))].

(** The names of the fields; the test of [rc] in the loop never fires. *)
Definition index_from_json (t : TableMeta) (v : J) : res IndexMeta :=
  match j_as_string (j_member v "index_name") with
  | None => Err GENERIC_ERROR
  | Some name =>
  match j_as_array (j_member v "index_field_names") with
  | None => Err GENERIC_ERROR
  | Some vs =>
  match mapM (fun v => j_as_string (j_member v "field_name")) vs with
  | None => Err GENERIC_ERROR
  | Some names => index_init (Some name) ((fun n => field_named t (Some n)) <$> names)
  end end end.

Definition serialize (t : TableMeta) : T :=
  j_write (j_object [("table_name", j_string (tm_name t));
                     ("fields", j_array (field_to_json <$> tm_fields t));
                     ("indexes", j_array (index_to_json <$> tm_indexes t))]).

(** Converts every element, stopping at the first failure. *)
Fixpoint all_of {A B} (f : A -> res B) (l : list A) : res (list B) :=
  match l with
  | [] => Ok []
  | x :: l' =>
      match f x with
      | Ok y => match all_of f l' with Ok ys => Ok (y :: ys) | Err rc => Err rc | Ub => Ub | OutOfFuel => OutOfFuel end
      | Err rc => Err rc | Ub => Ub | OutOfFuel => OutOfFuel
      end
  end.

Definition offset_le (f1 f2 : FieldMeta) : Prop := fm_offset f1 <= fm_offset f2.
#[export] Instance offset_le_dec f1 f2 : Decision (offset_le f1 f2).
Proof. unfold offset_le. apply _. Defined.

(** [Err] is a negative result, which Table::open reports as [GENERIC_ERROR]. *)
Definition deserialize (text : T) : res TableMeta :=
  match j_parse text with
  | None => Err GENERIC_ERROR
  | Some v =>
  match j_as_string (j_member v "table_name") with
  | None => Err GENERIC_ERROR
  | Some name =>
  match j_as_array (j_member v "fields") with
  | None | Some [] => Err GENERIC_ERROR
  | Some fields_value =>
  match all_of field_from_json fields_value with
  | Err rc => Err GENERIC_ERROR | Ub => Ub | OutOfFuel => OutOfFuel
  | Ok fields =>
      let fields := merge_sort offset_le fields in
      let size := match last fields with Some f => int32 (fm_offset f + fm_len f) | None => 0 end in
      let t := {| tm_name := name; tm_fields := fields; tm_indexes := []; tm_record_size := size |} in
      let indexes_value := j_member v "indexes" in
      if j_empty indexes_value then Ok t
      else match j_as_array indexes_value with
      | None => Err GENERIC_ERROR
      | Some vs =>
      match all_of (index_from_json t) vs with
      | Err rc => Err GENERIC_ERROR | Ub => Ub | OutOfFuel => OutOfFuel
      | Ok indexes => Ok {| tm_name := name; tm_fields := fields; tm_indexes := indexes; tm_record_size := size |}
      end end
  end end end end.
End json.
