(* ===== verification/TableMetaTheorems.v ===== *)
(** * Record layout and persistence of the metadata

    TableMeta::init lays the fields out one behind the other behind the null bitmap; metadata
    that is well formed survives being written as JSON and read back. *)
From S2P Require Import Prelude ReturnCode Effects Bitmap Memory RecordPage KeyCompare TableMeta.
From Stdlib Require Import String.
From stdpp Require Import sorting.

#[local] Open Scope string_scope.
#[local] Open Scope Z_scope.

(** ** Layout *)

(** Fields one behind the other from [off] to [off']. *)
Fixpoint chain (off : Z) (fs : list FieldMeta) (off' : Z) : Prop :=
  match fs with
  | [] => off = off'
  | f :: fs' => fm_offset f = off /\ 0 < fm_len f /\ chain (off + fm_len f) fs' off'
  end.

(** A field that FieldMeta::init accepts. *)
Record field_ok (f : FieldMeta) : Prop := {
  fo_name : fm_name f <> EmptyString;
  fo_type : fm_type f <> UNDEFINED;
  fo_offset : 0 <= fm_offset f < 2 ^ 31;
  fo_len : 0 < fm_len f < 2 ^ 31 }.

(** An index over fields of the table. *)
Record index_meta_ok (t : TableMeta) (i : IndexMeta) : Prop := {
  io_name : is_blank (im_name i) = false;
  io_fields : im_fields i <> [];
  io_known : Forall (fun n => is_Some (field_named t (Some n))) (im_fields i) }.

Record meta_ok (t : TableMeta) : Prop := {
  mo_fields : Forall field_ok (tm_fields t);
  mo_some : tm_fields t <> [];
  mo_bitmap : field_num t <= 8 * null_bitmap_len (field_num t);
  mo_layout : chain (null_bitmap_len (field_num t)) (tm_fields t) (tm_record_size t);
  mo_size : tm_record_size t < 2 ^ 31;
  mo_indexes : Forall (index_meta_ok t) (tm_indexes t) }.

Section chains.
Implicit Types (fs : list FieldMeta) (off : Z).

Lemma chain_le off fs off' : chain off fs off' -> off <= off'.
Proof. revert off. induction fs as [|f fs IH]; intros off; simpl; [lia|]. intros (_ & ? & Hc%IH). lia. Qed.

Lemma chain_bounds off fs off' f :
  chain off fs off' -> f ∈ fs -> off <= fm_offset f /\ 0 < fm_len f /\ fm_offset f + fm_len f <= off'.
Proof.
  revert off. induction fs as [|g fs IH]; intros off; simpl; [by intros _ ?%not_elem_of_nil|].
  intros (Hg & Hl & Hc) [->|Hin]%elem_of_cons.
  - apply chain_le in Hc. lia.
  - destruct (IH _ Hc Hin) as (? & ? & ?). lia.
Qed.

(** Fields at different positions do not overlap. *)
Lemma chain_disjoint off fs off' (i j : nat) f g :
  chain off fs off' -> fs !! i = Some f -> fs !! j = Some g -> (i < j)%nat -> fm_offset f + fm_len f <= fm_offset g.
Proof.
  revert off i j. induction fs as [|x fs IH]; intros off i j; [done|]. intros (Hx & Hl & Hc) Hi Hj Hij.
  destruct j as [|j]; [lia|]. simpl in Hj. destruct i as [|i]; simpl in Hi.
  - injection Hi as ->. apply list_elem_of_lookup_2 in Hj.
    destruct (chain_bounds _ _ _ _ Hc Hj) as (? & _). lia.
  - apply (IH _ i j Hc); done || lia.
Qed.

Lemma chain_shift off fs off' n :
  chain off fs off' -> off' + n < 2 ^ 31 -> 0 <= off -> 0 <= n ->
  chain (off + n) ((fun f => set_offset (int32 (fm_offset f + n)) f) <$> fs) (off' + n).
Proof.
  revert off. induction fs as [|f fs IH]; intros off; simpl; [lia|]. intros (Hf & Hl & Hc) Hb Hoff Hn.
  pose proof (chain_le _ _ _ Hc). split_and!.
  - rewrite int32_id by (unfold is_int32; lia). lia.
  - done.
  - replace (off + n + fm_len f) with (off + fm_len f + n) by lia. apply IH; done || lia.
Qed.

Lemma chain_last off fs off' : chain off fs off' ->
  match last fs with Some f => fm_offset f + fm_len f = off' | None => off = off' end.
Proof.
  revert off. induction fs as [|f fs IH]; intros off; simpl; [done|]. intros (Hf & Hl & Hc).
  destruct fs as [|g fs]; [simpl in *; lia|]. apply IH in Hc.
  change (last (f :: g :: fs)) with (last (g :: fs)). destruct (last (g :: fs)) eqn:E; [done|]. by apply last_None in E.
Qed.
End chains.

(** The bits of the bitmap are enough. *)
Lemma bitmap_room n : 0 <= n -> n <= 8 * null_bitmap_len n /\ null_bitmap_len n = (n + 7) / 8.
Proof.
  intros Hn. assert (E : align8 n = n / 8 * 8 + (if n mod 8 =? 0 then 0 else 8))
    by (unfold align8; by rewrite Z.quot_div_nonneg, Z.rem_mod_nonneg by lia).
  assert (0 <= n / 8) by (apply Z.div_pos; lia). unfold null_bitmap_len.
  rewrite Z.quot_div_nonneg by (rewrite ?E; try destruct (_ =? 0); lia). rewrite E.
  pose proof (Z.div_mod n 8 ltac:(lia)) as Hd. pose proof (Z.mod_pos_bound n 8 ltac:(lia)).
  destruct (Z.eqb_spec (n mod 8) 0).
  - rewrite Z.add_0_r, Z.div_mul by lia. split; [lia|]. apply Z.div_unique with 7; lia.
  - replace (n / 8 * 8 + 8) with ((n / 8 + 1) * 8) by lia. rewrite Z.div_mul by lia. split; [lia|].
    apply Z.div_unique with (n mod 8 - 1); lia.
Qed.

Definition total_length (l : list AttrInfo) : Z := foldr (fun a s => ai_length a + s) 0 l.

Lemma field_init_inv name t off len v nl f :
  field_init name t off len v nl = Ok f ->
  fm_name f <> EmptyString /\ name = Some (fm_name f) /\ fm_type f = t /\ t <> UNDEFINED /\ fm_offset f = off /\ 0 <= off /\
  fm_len f = len /\ 0 < len /\ fm_visible f = v /\ fm_nullable f = nl.
Proof.
  unfold field_init. destruct name as [[|c n]|]; simpl; try done.
  destruct (bool_decide _) eqn:E1; simpl; [done|]. apply bool_decide_eq_false in E1.
  destruct (Z.ltb_spec off 0); simpl; [done|]. destruct (Z.leb_spec len 0); [done|].
  intros [= <-]. simpl. split_and!; done || lia || congruence.
Qed.

Lemma init_fields_chain off attrs fs off' :
  init_fields off attrs = Ok (fs, off') -> 0 <= off -> Forall (fun a => 0 <= ai_length a < 2 ^ 31) attrs ->
  off + total_length attrs < 2 ^ 31 ->
  chain off fs off' /\ off' = off + total_length attrs /\ Forall field_ok fs /\
  Forall2 (fun a f => ai_name a = Some (fm_name f) /\ ai_type a = fm_type f /\ ai_length a = fm_len f /\
                      fm_visible f = true /\ fm_nullable f = (ai_nullable a =? 1)) attrs fs.
Proof.
  revert off fs off'. induction attrs as [|a attrs IH]; intros off fs off'; cbn [init_fields total_length foldr].
  { intros [= <- <-] Hoff _ _. split_and!; [done|lia|constructor|constructor]. }
  destruct (field_init _ _ _ _ _ _) as [f| | |] eqn:Ef; try done.
  destruct (init_fields _ attrs) as [[fs' o']| | |] eqn:Ei; try done. intros [= <- <-] Hoff [Ha Hf]%Forall_cons Hb.
  fold (total_length attrs) in *.
  assert (Htot : 0 <= total_length attrs) by (clear -Hf; induction Hf; simpl; lia).
  apply field_init_inv in Ef as (N1 & N2 & N3 & N4 & N5 & N6 & N7 & N8 & N9 & N10).
  rewrite int32_id in N7, N8, Ei by (unfold is_int32; lia).
  destruct (IH _ _ _ Ei ltac:(lia) Hf ltac:(lia)) as (Hc & Ho & Hok & H2).
  split_and!; [simpl; rewrite N7; split_and!; done || lia|lia|constructor; [constructor; try lia; congruence|done]|].
  constructor; [|done]. split_and!; congruence.
Qed.

(** The field of the transaction number before the null bitmap is put in front. *)
Definition trx_field_meta : FieldMeta :=
  {| fm_name := "__trx"; fm_type := INTS; fm_offset := 0; fm_len := 4; fm_visible := false; fm_nullable := false |}.

Lemma sys_fields_eq : sys_fields_ = [trx_field_meta].
Proof. reflexivity. Qed.

Lemma table_meta_init_spec name n attrs t :
  table_meta_init (Some name) n (Some attrs) = Ok t -> alen attrs = n ->
  Forall (fun a => 0 <= ai_length a < 2 ^ 31) attrs -> (n + 8) / 8 + 4 + total_length attrs < 2 ^ 31 ->
  meta_ok t /\ tm_name t = name /\ field_num t = n + 1 /\
  tm_record_size t = (n + 8) / 8 + 4 + total_length attrs /\
  Forall2 (fun a f => ai_name a = Some (fm_name f) /\ ai_type a = fm_type f /\ ai_length a = fm_len f)
    attrs (tail (tm_fields t)).
Proof.
  intros Hinit Hn Hf Hb. unfold table_meta_init in Hinit.
  destruct (no_name (Some name)) eqn:Ename; [done|]. destruct (Z.leb_spec n 0); [done|].
  destruct (Z.ltb_spec (alen attrs) n); [lia|]. 
  assert (Efirst : match last sys_fields_ with Some f => int32 (fm_offset f + fm_len f) | None => 0 end = 4) by reflexivity.
  rewrite Efirst, sys_fields_eq in Hinit.
  rewrite take_ge in Hinit by (unfold alen in *; lia).
  destruct (init_fields 4 attrs) as [[fs off]| | |] eqn:Ei; try done.
  assert (0 <= (n + 8) / 8) by (apply Z.div_pos; lia).
  destruct (init_fields_chain _ _ _ _ Ei) as (Hc & Ho & Hok & H2); [lia|done|lia|].
  pose proof (Forall2_length _ _ _ H2) as Hlen.
  assert (Hnum : alen (trx_field_meta :: fs) = n + 1) by (rewrite alen_cons; unfold alen in *; lia).
  change ([trx_field_meta] ++ fs)%list with (trx_field_meta :: fs) in Hinit. rewrite Hnum in Hinit.
  apply (f_equal (fun r => match r with Ok t => t | _ => t end)) in Hinit. subst t.
  destruct (bitmap_room (n + 1) ltac:(lia)) as [Hr Hbl].
  set (b := null_bitmap_len (n + 1)) in *. replace ((n + 1 + 7)) with (n + 8) in Hbl by lia.
  rewrite <- Hbl in *. assert (0 <= b) by lia.
  set (g := fun f => set_offset (int32 (fm_offset f + b)) f).
  assert (Hfs : chain (0 + b) (g <$> trx_field_meta :: fs) (off + b)) by (apply chain_shift; [by simpl|lia..]).
  pose proof (chain_le _ _ _ Hc). assert (Hsz : int32 (off + b) = off + b) by (apply int32_id; unfold is_int32; lia). rewrite Hsz. clear Hsz.
  assert (Hgn : forall l, alen (g <$> l) = alen l) by (intros l; unfold alen; by rewrite length_fmap).
  split_and!; [|cbn; done|unfold field_num; cbn [tm_fields]; by rewrite Hgn|cbn [tm_record_size]; lia|].
  - constructor; unfold field_num; cbn [tm_fields tm_record_size tm_indexes]; rewrite ?Hgn, ?Hnum; fold b; try done; [|lia..].
    apply Forall_forall. intros f' (f & -> & Hin)%list_elem_of_fmap.
    assert (Hfok : field_ok f).
    { apply elem_of_cons in Hin as [->|Hin]; [by constructor|].
      rewrite Forall_forall in Hok. by apply Hok. }
    assert (Hin' : g f ∈ g <$> trx_field_meta :: fs) by (by apply list_elem_of_fmap_2).
    destruct (chain_bounds _ _ _ _ Hfs Hin') as (? & ? & ?). destruct Hfok. by constructor; try lia.
  - cbn [tail tm_fields]. clear -H2. induction H2 as [|a f l k (E1 & E2 & E3 & _) _ IH]; simpl; constructor; done.
Qed.

(** TableMeta::init: on success the metadata are well formed.  The fields are the transaction
    number and the attributes in their order, one behind the other without gaps or overlaps; they
    begin behind a null bitmap with a bit for each of them, and end at the record size. *)
Theorem table_meta_init_ok name n attrs t :
  table_meta_init (Some name) n (Some attrs) = Ok t -> alen attrs = n ->
  Forall (fun a => 0 <= ai_length a < 2 ^ 31) attrs -> (n + 8) / 8 + 4 + total_length attrs < 2 ^ 31 ->
  meta_ok t /\ tm_name t = name /\ field_num t = n + 1 /\
  tm_record_size t = (n + 8) / 8 + 4 + total_length attrs /\
  Forall2 (fun a f => ai_name a = Some (fm_name f) /\ ai_type a = fm_type f /\ ai_length a = fm_len f)
    attrs (tail (tm_fields t)).
Proof. apply table_meta_init_spec. Qed.

(** ** Writing and reading back *)

Lemma attr_type_string t : t <> UNDEFINED -> attr_type_from_string (attr_type_to_string t) = t.
Proof. by destruct t. Qed.

(** Sorting by offset leaves fields in increasing order as they are. *)
Lemma sorted_perm_eq (l k : list FieldMeta) :
  l ≡ₚ k -> StronglySorted (fun f g => fm_offset f < fm_offset g) l -> StronglySorted offset_le k -> k = l.
Proof.
  revert k. induction l as [|x l IH]; intros k Hp Hl Hk; [by apply Permutation_nil_l in Hp|].
  destruct k as [|y k]; [by apply symmetry, Permutation_nil_l in Hp|].
  inversion Hl as [|? ? Hl' Hx]; subst. inversion Hk as [|? ? Hk' Hy]; subst.
  rewrite Forall_forall in Hx, Hy. assert (x = y) as ->.
  { assert (Hxk : x ∈ y :: k) by (rewrite <- Hp; left). assert (Hyl : y ∈ x :: l) by (rewrite Hp; left).
    apply elem_of_cons in Hxk as [?|Hxk]; [done|]. apply elem_of_cons in Hyl as [?|Hyl]; [done|].
    specialize (Hx _ Hyl). specialize (Hy _ Hxk). unfold offset_le in Hy. lia. }
  f_equal. apply IH; [by apply Permutation_cons_inv in Hp|done|done].
Qed.

Lemma chain_sorted off fs off' : chain off fs off' -> StronglySorted (fun f g => fm_offset f < fm_offset g) fs.
Proof.
  revert off. induction fs as [|f fs IH]; intros off; [constructor|]. intros (Hf & Hl & Hc).
  constructor; [by eapply IH|]. apply Forall_forall. intros g Hg.
  destruct (chain_bounds _ _ _ _ Hc Hg) as (? & _). lia.
Qed.

Lemma merge_sort_chain off fs off' : chain off fs off' -> merge_sort offset_le fs = fs.
Proof.
  intros Hc. apply sorted_perm_eq.
  - symmetry. apply merge_sort_Permutation.
  - by eapply chain_sorted.
  - apply StronglySorted_merge_sort; intros f g; unfold offset_le; [intros h|]; lia.
Qed.

(** The fields of an index are found again by their names. *)
Lemma known_fields t names :
  Forall (fun n => is_Some (field_named t (Some n))) names ->
  exists fs, mapM id ((fun n => field_named t (Some n)) <$> names) = Some fs /\ fm_name <$> fs = names.
Proof.
  intros Hk. cut (exists fs, Forall2 (fun o f => id o = Some f) ((fun n => field_named t (Some n)) <$> names) fs /\
    fm_name <$> fs = names); [intros (fs & Hm & Hn); exists fs; split; [apply mapM_Some; exact Hm|done]|].
  induction Hk as [|n names [f Hf] _ (fs & Hm & Hn)]; [by exists []|].
  exists (f :: fs). split; [by apply Forall2_cons|]. rewrite fmap_cons, Hn. f_equal. unfold field_named in Hf.
  destruct (list_find _ _) as [[i g]|] eqn:E; [|done]. injection Hf as <-. apply list_find_Some in E. apply E.
Qed.

Section roundtrip.
Context {J T : Type} `{JsonLaws J T}.

(** The members of an object the program has built. *)
Ltac members :=
  repeat (erewrite j_object_member; [|by apply (bool_decide_unpack _); vm_compute|reflexivity]).

Lemma field_json f : field_ok f -> field_from_json (field_to_json f) = Ok f.
Proof.
  intros [Hn Ht Ho Hl]. unfold field_from_json, field_to_json. rewrite j_object_is by done. simpl negb. cbv iota.
  members. rewrite !j_string_as, !j_int_as, !j_bool_as by (unfold is_int32; lia). cbv zeta.
  rewrite attr_type_string by done. rewrite bool_decide_eq_false_2 by congruence.
  unfold field_init. destruct f as [[|c n] t off len v nl]; simpl in *; [done|].
  rewrite bool_decide_eq_false_2 by congruence. destruct (Z.ltb_spec off 0); [lia|].
  by destruct (Z.leb_spec len 0); [lia|].
Qed.

Lemma all_of_map {A B} (g : A -> J) (f : J -> res B) (l : list A) (k : list B) :
  Forall2 (fun x y => f (g x) = Ok y) l k -> all_of f (g <$> l) = Ok k.
Proof. induction 1 as [|x y l k Hxy _ IH]; [done|]. rewrite fmap_cons. cbn [all_of]. by rewrite Hxy, IH. Qed.

Lemma index_json t i : index_meta_ok t i -> index_from_json t (index_to_json i) = Ok i.
Proof.
  intros [Hn Hf Hk]. unfold index_from_json, index_to_json. members. rewrite j_string_as.
  destruct (j_array_as ((fun f => j_object [("field_name", j_string f)]) <$> im_fields i)) as [-> _];
    [by intros ?%fmap_nil_inv|].
  assert (Em : mapM (fun v => j_as_string (j_member v "field_name"))
    ((fun f => j_object [("field_name", j_string f)]) <$> im_fields i) = Some (im_fields i)).
  { apply mapM_Some, Forall2_fmap_l, Forall_Forall2_diag, Forall_forall. intros n _. simpl. members. by rewrite j_string_as. }
  rewrite Em. unfold index_init. rewrite Hn. destruct (known_fields t (im_fields i) Hk) as (fs & -> & Hfs).
  rewrite Hfs. by destruct i.
Qed.

(** C13. Metadata that are well formed are read back from their JSON text exactly as they were. *)
Theorem serialize_roundtrip t : meta_ok t -> deserialize (serialize t) = Ok t.
Proof.
  intros [Hf Hne Hb Hc Hs Hi]. unfold deserialize, serialize. rewrite j_parse_write. members. rewrite j_string_as.
  destruct (j_array_as (field_to_json <$> tm_fields t)) as [Ea _]; [by intros ?%fmap_nil_inv|]. rewrite Ea.
  assert (Efs : all_of field_from_json (field_to_json <$> tm_fields t) = Ok (tm_fields t))
    by (apply all_of_map, Forall_Forall2_diag; eapply Forall_impl; [exact Hf|apply field_json]).
  destruct (tm_fields t) as [|f0 fs] eqn:Et; [done|]. rewrite fmap_cons in *. rewrite Efs, <- Et in *. clear Ea Efs.
  rewrite (merge_sort_chain _ _ _ Hc). pose proof (chain_last _ _ _ Hc) as Hlast. pose proof (chain_le _ _ _ Hc).
  destruct (last (tm_fields t)) as [f|] eqn:Ef; [|by apply last_None in Ef].
  rewrite Hlast, int32_id by (pose proof (alen_nonneg (tm_fields t)); unfold is_int32, field_num in *; lia).
  cbv zeta. destruct (decide (tm_indexes t = [])) as [Ei|Ei].
  { rewrite Ei. cbn [fmap list_fmap]. rewrite j_array_nil. by rewrite <- Ei; destruct t. }
  destruct (j_array_as (index_to_json <$> tm_indexes t)) as [-> ->]; [by intros ?%fmap_nil_inv|].
  rewrite (all_of_map index_to_json _ (tm_indexes t) (tm_indexes t)); [by destruct t|].
  apply Forall_Forall2_diag. eapply Forall_impl; [exact Hi|]. intros i Hio. apply index_json.
  destruct Hio. by constructor.
Qed.
End roundtrip.

Lemma add_index_ok t i : meta_ok t -> index_meta_ok t i -> meta_ok (add_index i t).
Proof.
  intros [H1 H2 H3 H4 H5 H6] Hi. constructor; try done. cbn. apply Forall_app. split.
  - eapply Forall_impl; [exact H6|]. intros j []. by constructor.
  - constructor; [|done]. destruct Hi. by constructor.
Qed.

(** ** A concrete JSON library: values as trees, a text is the value it denotes *)

Module JsonTree.
#[local] Unset Elimination Schemes.
Inductive value :=
| JNull | JString (s : string) | JInt (z : Z) | JBool (b : bool) | JArray (l : list value)
| JObject (l : list (string * value)).

#[export] Instance json : Json value value := {
  j_string := JString; j_int := JInt; j_bool := JBool;
  j_object l := match l with [] => JNull | _ => JObject l end;
  j_array l := match l with [] => JNull | _ => JArray l end;
  j_member v k := match v with JObject l => default JNull (find_member k l) | _ => JNull end;
  j_as_string v := match v with JString s => Some s | _ => None end;
  j_as_int v := match v with JInt z => if bool_decide (- 2 ^ 31 <= z < 2 ^ 31) then Some z else None | _ => None end;
  j_as_bool v := match v with JBool b => Some b | _ => None end;
  j_as_array v := match v with JNull => Some [] | JArray l => Some l | _ => None end;
  j_is_object v := match v with JNull | JObject _ => true | _ => false end;
  j_empty v := match v with JNull | JArray [] | JObject [] => true | _ => false end;
  j_write v := v; j_parse v := Some v }.

#[export] Instance json_laws : JsonLaws value value.
Proof.
  split; simpl; try done.
  - intros z Hz. by rewrite bool_decide_eq_true_2.
  - by intros [].
  - intros [|x l] k v _ Ha; [done|]. by rewrite Ha.
  - by intros [].
Qed.
End JsonTree.
Import JsonTree.

Definition demo_attrs : list AttrInfo :=
  [{| ai_name := Some "id"; ai_type := INTS; ai_length := 4; ai_nullable := 0 |};
   {| ai_name := Some "born"; ai_type := DATES; ai_length := 12; ai_nullable := 1 |}].

Definition demo_meta : TableMeta :=
  match table_meta_init (Some "t") 2 (Some demo_attrs) with Ok t => t | _ => {| tm_name := ""; tm_fields := []; tm_indexes := []; tm_record_size := 0 |} end.

Lemma table_meta_init_ok_witness :
  table_meta_init (Some "t") 2 (Some demo_attrs) = Ok demo_meta /\ meta_ok demo_meta /\ tm_record_size demo_meta = 21.
Proof.
  assert (E : table_meta_init (Some "t") 2 (Some demo_attrs) = Ok demo_meta) by reflexivity.
  split; [exact E|].
  destruct (table_meta_init_ok "t" 2 demo_attrs demo_meta E) as (Hok & _ & _ & Hs & _).
  - reflexivity.
  - repeat constructor; simpl; lia.
  - reflexivity.
  - split; [exact Hok|]. rewrite Hs. reflexivity.
Defined.

Lemma demo_meta_ok : meta_ok (add_index {| im_name := "i"; im_fields := ["id"] |} demo_meta).
Proof.
  apply add_index_ok.
  - apply (table_meta_init_spec "t" 2 demo_attrs demo_meta); [reflexivity|reflexivity| |reflexivity].
    repeat constructor; simpl; lia.
  - constructor; [done|done|]. constructor; [by eexists|constructor].
Qed.

Lemma serialize_roundtrip_witness :
  let t := add_index {| im_name := "i"; im_fields := ["id"] |} demo_meta in
  deserialize (J := JsonTree.value) (serialize (J := JsonTree.value) (T := JsonTree.value) t) = Ok t.
Proof. intros t. apply (serialize_roundtrip (J := JsonTree.value) (T := JsonTree.value) t). exact demo_meta_ok. Defined.
