(* ===== verification/ConditionFilter.v ===== *)
(** * Condition filters (storage/common/condition_filter.h, .cpp)

    DefaultConditionFilter and CompositeConditionFilter: the check of a condition of a [WHERE]
    clause against the metadata of a table, and the test of a record.  A [ConDesc] is not
    initialised by the program before it is filled in, so its first content is an argument
    here.  Checking a date formats it in the memory of the condition: the state of [init] is
    the condition. *)
From Stdlib Require Import String.
From S2P Require Import Prelude ReturnCode Effects Bitmap Memory RecordPage KeyCompare Dates TableMeta TableMetaTheorems.

(** ** Conditions *)

(** [Value]: [data] is the memory it points to. *)
Record Value := { v_type : AttrType; v_isnull : bool; v_data : list Z }.

Record RelAttr := { relation_name : option string; attribute_name : option string }.

(** [Condition], without the parts for expressions and sub-queries, which the filters do not use. *)
Record Condition := {
  left_is_attr : Z; left_value : Value; left_attr : RelAttr; comp : CompOp;
  right_is_attr : Z; right_value : Value; right_attr : RelAttr }.

Definition set_left_data (d : list Z) (c : Condition) : Condition :=
  {| left_is_attr := left_is_attr c;
     left_value := {| v_type := v_type (left_value c); v_isnull := v_isnull (left_value c); v_data := d |};
     left_attr := left_attr c; comp := comp c; right_is_attr := right_is_attr c;
     right_value := right_value c; right_attr := right_attr c |}.

Definition set_right_data (d : list Z) (c : Condition) : Condition :=
  {| left_is_attr := left_is_attr c; left_value := left_value c; left_attr := left_attr c; comp := comp c;
     right_is_attr := right_is_attr c;
     right_value := {| v_type := v_type (right_value c); v_isnull := v_isnull (right_value c); v_data := d |};
     right_attr := right_attr c |}.

(** ** Descriptions of the two sides *)

Record ConDesc := {
  cd_is_attr : bool; cd_attr_index : Z; cd_attr_length : Z; cd_attr_offset : Z; cd_is_null : bool;
  cd_value : option (list Z) }.

Record DefaultConditionFilter := {
  cf_left : ConDesc; cf_right : ConDesc; cf_type : AttrType; cf_op : CompOp }.

Definition cf_init (left right : ConDesc) (attr_type : AttrType) (comp_op : CompOp) : res DefaultConditionFilter :=
  if bool_decide (attr_type = UNDEFINED) && negb (cd_is_null left) then Err INVALID_ARGUMENT
  else if bool_decide (comp_op = NO_OP) then Err INVALID_ARGUMENT
  else Ok {| cf_left := left; cf_right := right; cf_type := attr_type; cf_op := comp_op |}.

(** One side: [is_attr], the attribute and the value of this side, and whether the other side is a
    date column.  The result is the description and the type of the side. *)
Definition make_desc (t : TableMeta) (desc : ConDesc) (is_attr : Z) (attr : RelAttr) (value : Value)
    (other_is_date : bool) : res (ConDesc * AttrType) :=
  if is_attr =? 1 then
    match field_named t (attribute_name attr) with
    | None => Err SCHEMA_FIELD_MISSING
    | Some f =>
        Ok ({| cd_is_attr := true; cd_attr_index := field_index t (attribute_name attr);
               cd_attr_length := fm_len f; cd_attr_offset := fm_offset f;
               cd_is_null := cd_is_null desc; cd_value := None |}, fm_type f)
    end
  else if v_isnull value then
    Ok ({| cd_is_attr := false; cd_attr_index := cd_attr_index desc; cd_attr_length := 0; cd_attr_offset := 0;
           cd_is_null := true; cd_value := cd_value desc |}, UNDEFINED)
  else
    Ok ({| cd_is_attr := false; cd_attr_index := cd_attr_index desc; cd_attr_length := 0; cd_attr_offset := 0;
           cd_is_null := false; cd_value := Some (v_data value) |},
        if other_is_date && bool_decide (v_type value = CHARS) then DATES else v_type value).

(** The other side of a condition is a column of type date. *)
Definition date_column (t : TableMeta) (is_attr : Z) (attr : RelAttr) : bool :=
  negb (is_attr =? 0) &&
  match field_named t (attribute_name attr) with Some f => bool_decide (fm_type f = DATES) | None => false end.

(** The name of the other side is not a column: [table_meta.field(...)->type()] would follow a null
    pointer.  It takes a side that is neither 0 nor 1. *)
Definition no_column (t : TableMeta) (is_attr : Z) (attr : RelAttr) : bool :=
  negb (is_attr =? 0) && match field_named t (attribute_name attr) with Some _ => false | None => true end.

(** The format check of a value compared with a date column, in place. *)
Definition format_in_condition (needed : bool) (get_data : Condition -> list Z)
    (set_data : list Z -> Condition -> Condition) : M Condition unit := fun c =>
  if needed then
    let '(r, d) := Check_and_format_date theGlobalDateUtil (get_data c) in
    (match r with Ok _ => Ok tt | Err _ => Err SCHEMA_FIELD_TYPE_MISMATCH | Ub => Ub | OutOfFuel => OutOfFuel end,
     set_data d c)
  else (Ok tt, c).

(** The value of a side after the formatting. *)
Definition refresh (value : Value) (d : ConDesc) : ConDesc :=
  {| cd_is_attr := cd_is_attr d; cd_attr_index := cd_attr_index d; cd_attr_length := cd_attr_length d;
     cd_attr_offset := cd_attr_offset d; cd_is_null := cd_is_null d;
     cd_value := match cd_value d with
                 | Some _ => if cd_is_attr d || cd_is_null d then cd_value d else Some (v_data value)
                 | None => None end |}.

Definition of_res {S A} (r : res A) : M S A := fun s => (r, s).

(** [left0] and [right0] are the contents of the uninitialised descriptions. *)
Definition condition_init (t : TableMeta) (left0 right0 : ConDesc) : M Condition DefaultConditionFilter :=
  let! c := get in
  let! (ldesc, type_left) := of_res (make_desc t left0 (left_is_attr c) (left_attr c) (left_value c)
                                      (date_column t (right_is_attr c) (right_attr c))) in
  let! (rdesc, type_right) := of_res (make_desc t right0 (right_is_attr c) (right_attr c) (right_value c)
                                        (date_column t (left_is_attr c) (left_attr c))) in
  undefined_if ((left_is_attr c =? 0) && negb (v_isnull (left_value c)) &&
                no_column t (right_is_attr c) (right_attr c)) ;;
  format_in_condition ((left_is_attr c =? 0) && negb (v_isnull (left_value c)) &&
                       date_column t (right_is_attr c) (right_attr c))
    (fun c => v_data (left_value c)) set_left_data ;;
  undefined_if ((right_is_attr c =? 0) && negb (v_isnull (right_value c)) &&
                no_column t (left_is_attr c) (left_attr c)) ;;
  format_in_condition ((right_is_attr c =? 0) && negb (v_isnull (right_value c)) &&
                       date_column t (left_is_attr c) (left_attr c))
    (fun c => v_data (right_value c)) set_right_data ;;
  let! c' := get in
  fail_if (negb (cd_is_null ldesc) && negb (cd_is_null rdesc) && bool_decide (type_left <> type_right))
    SCHEMA_FIELD_TYPE_MISMATCH ;;
  fail_if ((bool_decide (comp c = IS) || bool_decide (comp c = IS_NOT)) && negb (cd_is_null rdesc))
    SCHEMA_FIELD_TYPE_MISMATCH ;;
  of_res (cf_init (refresh (left_value c') ldesc) (refresh (right_value c') rdesc) type_left (comp c)).

(** ** The test of a record *)

Definition compare_result (cmp_result : Z) (comp_op : CompOp) : bool :=
  match comp_op with
  | EQUAL_TO => 0 =? cmp_result
  | LESS_EQUAL => cmp_result <=? 0
  | NOT_EQUAL => negb (cmp_result =? 0)
  | LESS_THAN => cmp_result <? 0
  | GREAT_EQUAL => 0 <=? cmp_result
  | GREAT_THAN => 0 <? cmp_result
  | _ => false
  end.

(** [strcmp]: as [strncmp] in KeyCompare.v, to the end of the block. *)
Definition strcmp (a b : list Z) : Z := strncmp a b (length a).

(** The memory a side points to; [None] is a null pointer. *)
Definition side_value (d : ConDesc) (rec : list Z) : option (list Z) :=
  if cd_is_attr d then
    if get_bit rec (cd_attr_index d) then None else Some (drop (Z.to_nat (cd_attr_offset d)) rec)
  else if cd_is_null d then None else cd_value d.

(** The difference of two [int]s wraps around. *)
Definition compare_values (t : AttrType) (left right : list Z) : Z :=
  match t with
  | CHARS | DATES => strcmp left right
  | INTS => int32 (rd32 left 0 - rd32 right 0)
  | FLOATS => float_compare (float_at left) (float_at right)
  | _ => 0
  end.

Definition cf_filter (c : DefaultConditionFilter) (rec : list Z) : bool :=
  match side_value (cf_left c) rec, side_value (cf_right c) rec with
  | None, None => bool_decide (cf_op c = IS)
  | Some _, None => bool_decide (cf_op c = IS_NOT)
  | None, Some _ => false
  | Some l, Some r => compare_result (compare_values (cf_type c) l r) (cf_op c)
  end.

(** ** CompositeConditionFilter *)

Definition CompositeConditionFilter : Type := list DefaultConditionFilter.

(** The conditions are checked in order; [junk i] is the memory of the descriptions of condition [i]. *)
Fixpoint composite_init (t : TableMeta) (junk : nat -> ConDesc * ConDesc) (i : nat) (conditions : list Condition)
    : res CompositeConditionFilter * list Condition :=
  match conditions with
  | [] => (Ok [], [])
  | c :: rest =>
      match condition_init t (junk i).1 (junk i).2 c with
      | (Ok f, c') =>
          let '(r, rest') := composite_init t junk (S i) rest in
          (match r with Ok fs => Ok (f :: fs) | Err rc => Err rc | Ub => Ub | OutOfFuel => OutOfFuel end, c' :: rest')
      | (Err rc, c') => (Err rc, c' :: rest)
      | (Ub, c') => (Ub, c' :: rest)
      | (OutOfFuel, c') => (OutOfFuel, c' :: rest)
      end
  end.

(** The loop over the filters: the first that fails decides. *)
Fixpoint composite_filter (fs : CompositeConditionFilter) (rec : list Z) : bool :=
  match fs with
  | [] => true
  | f :: fs' => if negb (cf_filter f rec) then false else composite_filter fs' rec
  end.

(** ** Theorems *)

Definition int_op (op : CompOp) (x y : Z) : bool :=
  match op with
  | EQUAL_TO => x =? y | LESS_EQUAL => x <=? y | NOT_EQUAL => negb (x =? y)
  | LESS_THAN => x <? y | GREAT_EQUAL => y <=? x | GREAT_THAN => y <? x | _ => false
  end.

Lemma int_filter_spec c rec l r :
  cf_type c = INTS -> side_value (cf_left c) rec = Some l -> side_value (cf_right c) rec = Some r ->
  is_int32 (rd32 l 0 - rd32 r 0) -> cf_filter c rec = int_op (cf_op c) (rd32 l 0) (rd32 r 0).
Proof.
  intros Ht Hl Hr Hd. unfold cf_filter. rewrite Hl, Hr, Ht. simpl. rewrite int32_id by done.
  destruct (cf_op c); unfold compare_result, int_op; lia.
Qed.

(** A condition on integers that are not null is the comparison it stands for, as long as the
    difference of the two integers is an [int]. *)
Theorem int_filter_correct c rec l r :
  cf_type c = INTS -> side_value (cf_left c) rec = Some l -> side_value (cf_right c) rec = Some r ->
  is_int32 (rd32 l 0 - rd32 r 0) -> cf_filter c rec = int_op (cf_op c) (rd32 l 0) (rd32 r 0).
Proof. apply int_filter_spec. Qed.

(** When the difference is not an [int], the order comes out wrong: a condition [a > b] with
    [a - b >= 2^31] is false, though [a] is the greater one. *)
Theorem int_filter_overflow c rec l r :
  cf_type c = INTS -> cf_op c = GREAT_THAN ->
  side_value (cf_left c) rec = Some l -> side_value (cf_right c) rec = Some r ->
  2 ^ 31 <= rd32 l 0 - rd32 r 0 -> cf_filter c rec = false /\ int_op (cf_op c) (rd32 l 0) (rd32 r 0) = true.
Proof.
  intros Ht Ho Hl Hr Hd. pose proof (rd32_range l 0) as Rl. pose proof (rd32_range r 0) as Rr. unfold is_int32 in *.
  unfold cf_filter. rewrite Hl, Hr, Ht, Ho. simpl. split; [|lia].
  replace (int32 (rd32 l 0 - rd32 r 0)) with (rd32 l 0 - rd32 r 0 - 2 ^ 32); [lia|].
  unfold int32. rewrite <- (Z_mod_plus_full (rd32 l 0 - rd32 r 0 + 2 ^ 31) (-1)).
  rewrite Z.mod_small by lia. lia.
Qed.

(** A string column that is filled to its last byte has no terminating zero in the record: if
    the record goes on with a byte other than zero, the column is not equal to the very
    string that it holds. *)
Theorem full_width_never_equal s b rest :
  Forall (fun x => x <> 0) s -> b <> 0 -> compare_values CHARS (s ++ b :: rest) (s ++ [0]) <> 0.
Proof.
  intros Hs Hb. simpl. unfold strcmp. rewrite length_app. simpl. rewrite Nat.add_succ_r.
  set (n := (length s + length rest)%nat). assert (Hn : (length s <= n)%nat) by lia. clearbody n.
  revert n Hn. induction Hs as [|x s Hx Hs IH]; intros n Hn; simpl.
  - destruct (Z.eqb_spec b 0); [done|]. simpl. lia.
  - rewrite Z.eqb_refl. simpl. destruct (Z.eqb_spec x 0); [done|]. destruct n as [|n]; [simpl in Hn; lia|].
    apply IH. simpl in Hn. lia.
Qed.

Lemma format_in_condition_ok needed g s c c' :
  format_in_condition needed g s c = (Ok tt, c') ->
  (needed = false /\ c' = c) \/
  (needed = true /\ exists y m d, date_ok y m d /\ c' = s (date_bytes y m d ++ drop 12 (g c)) c).
Proof.
  unfold format_in_condition. destruct needed; [|intros [= <-]; by left].
  destruct (Check_and_format_date _ _) as [r d0] eqn:E. destruct r as [[]| | |]; try done. intros [= <-]. right.
  apply check_date_inv in E as (y & m & d & Hok & ->). split; [done|]. by exists y, m, d.
Qed.

(** The filter that is made at the end. *)
Lemma cf_init_inv l r ty op f :
  cf_init l r ty op = Ok f -> f = {| cf_left := l; cf_right := r; cf_type := ty; cf_op := op |} /\ op <> NO_OP.
Proof.
  unfold cf_init. destruct (_ && _); [done|]. destruct (bool_decide (op = NO_OP)) eqn:E; [done|]. intros [= <-].
  split; [done|]. by apply bool_decide_eq_false in E.
Qed.

(** A condition between a column and a value that the check accepts: the column exists, the
    filter compares by its type, and the value is null, or of the same type and not under
    [IS], or, for a date column, a string or date that has been replaced by a canonical date
    of the calendar. *)
Theorem condition_init_ok t d1 d2 c c' f :
  condition_init t d1 d2 c = (Ok f, c') ->
  left_is_attr c = 1 -> right_is_attr c = 0 -> cd_is_null d1 = false ->
  exists fm, field_named t (attribute_name (left_attr c)) = Some fm /\
    cf_type f = fm_type fm /\ cf_op f = comp c /\ comp c <> NO_OP /\ cd_attr_offset (cf_left f) = fm_offset fm /\
    ((v_isnull (right_value c) = true /\ cd_is_null (cf_right f) = true) \/
     (v_isnull (right_value c) = false /\ cd_is_null (cf_right f) = false /\ comp c <> IS /\ comp c <> IS_NOT /\
       ((fm_type fm <> DATES /\ v_type (right_value c) = fm_type fm /\ cd_value (cf_right f) = Some (v_data (right_value c))) \/
        (fm_type fm = DATES /\ (v_type (right_value c) = CHARS \/ v_type (right_value c) = DATES) /\
         exists y m d, date_ok y m d /\
           cd_value (cf_right f) = Some (date_bytes y m d ++ drop 12 (v_data (right_value c))))))).
Proof.
  intros Hrun Hl Hr Hn. unfold condition_init in Hrun. rewrite bind_get in Hrun. unfold make_desc in Hrun.
  unfold no_column, date_column in Hrun. rewrite Hl, Hr in Hrun.
  destruct (field_named t (attribute_name (left_attr c))) as [fm|] eqn:Ef; [|done]. exists fm. split; [done|].
  destruct (v_isnull (right_value c)) eqn:En.
  - cbn -[bool_decide cf_init] in Hrun. rewrite Hn in Hrun. cbn -[bool_decide cf_init] in Hrun.
    rewrite bind_fail_if, andb_false_r in Hrun. unfold of_res in Hrun. injection Hrun as Hrun _.
    apply cf_init_inv in Hrun as [-> Hop]. simpl. repeat (split; [done|]). by left.
  - cbn -[bool_decide cf_init format_in_condition refresh] in Hrun. rewrite Hn in Hrun.
    unfold bind at 1 in Hrun. simpl (format_in_condition false _ _ _) in Hrun. cbv iota beta in Hrun.
    rewrite bind_ret in Hrun.
    unfold bind at 1 in Hrun. destruct (format_in_condition _ _ _ _) as [[[]| | |] c1] eqn:Efm; try done.
    rewrite bind_get, !bind_fail_if in Hrun. cbn -[bool_decide cf_init refresh] in Hrun.
    case_bool_decide as Hty; [done|]. rewrite andb_true_r in Hrun.
    destruct (bool_decide (comp c = IS)) eqn:E1; [done|]. destruct (bool_decide (comp c = IS_NOT)) eqn:E2; [done|].
    apply bool_decide_eq_false in E1, E2. cbn -[cf_init] in Hrun. unfold of_res in Hrun. injection Hrun as Hrun <-.
    apply cf_init_inv in Hrun as [-> Hop]. simpl. repeat (split; [done|]). right. repeat (split; [done|]).
    apply format_in_condition_ok in Efm as [[Hd ->]|[Hd (y & m & d & Hok & ->)]].
    + left. apply bool_decide_eq_false in Hd. rewrite bool_decide_eq_false_2 in Hty by done. done.
    + right. apply bool_decide_eq_true in Hd. rewrite bool_decide_eq_true_2 in Hty by done. split; [done|]. split.
      * simpl in Hty. destruct (bool_decide (v_type (right_value c) = CHARS)) eqn:E3.
        -- left. by apply bool_decide_eq_true in E3.
        -- right. by rewrite <- Hty.
      * by exists y, m, d.
Qed.

(** Whether a condition of a column with a value of another type is rejected depends on memory
    that the program has not initialised: the flag [is_null] of the column's side. *)
Theorem condition_init_uninitialised t d1 d2 c fm :
  left_is_attr c = 1 -> right_is_attr c = 0 -> field_named t (attribute_name (left_attr c)) = Some fm ->
  v_isnull (right_value c) = false -> v_type (right_value c) <> fm_type fm -> fm_type fm <> DATES ->
  comp c <> IS -> comp c <> IS_NOT -> comp c <> NO_OP ->
  if cd_is_null d1 then exists f, condition_init t d1 d2 c = (Ok f, c)
  else condition_init t d1 d2 c = (Err SCHEMA_FIELD_TYPE_MISMATCH, c).
Proof.
  intros Hl Hr Hf Hn Hty Hdate H1 H2 H3. unfold condition_init. rewrite bind_get. unfold make_desc, no_column, date_column.
  rewrite Hl, Hr, Hf, Hn. cbn -[bool_decide cf_init format_in_condition refresh fail_if].
  rewrite (bool_decide_eq_false_2 (fm_type fm = DATES)) by done. cbn -[bool_decide cf_init refresh fail_if].
  rewrite !bind_fail_if. rewrite (bool_decide_eq_true_2 (_ <> _)) by done.
  rewrite (bool_decide_eq_false_2 (comp c = IS)), (bool_decide_eq_false_2 (comp c = IS_NOT)) by done.
  destruct (cd_is_null d1); simpl; [|done]. unfold of_res, cf_init. simpl. rewrite andb_false_r.
  rewrite bool_decide_eq_false_2 by done. by eexists.
Qed.

(** ** Concrete conditions *)

Definition junk_desc (isnull : bool) : ConDesc :=
  {| cd_is_attr := false; cd_attr_index := 77; cd_attr_length := 77; cd_attr_offset := 77; cd_is_null := isnull; cd_value := None |}.

Definition column_condition (name : string) (op : CompOp) (type : AttrType) (data : list Z) : Condition :=
  {| left_is_attr := 1; left_value := {| v_type := UNDEFINED; v_isnull := false; v_data := [] |};
     left_attr := {| relation_name := None; attribute_name := Some name |}; comp := op; right_is_attr := 0;
     right_value := {| v_type := type; v_isnull := false; v_data := data |};
     right_attr := {| relation_name := None; attribute_name := None |} |}.

Definition int_desc (v : Z) : ConDesc :=
  {| cd_is_attr := false; cd_attr_index := -1; cd_attr_length := 0; cd_attr_offset := 0; cd_is_null := false;
     cd_value := Some (le32 v) |}.

Definition int_filter (op : CompOp) (l r : Z) : DefaultConditionFilter :=
  {| cf_left := int_desc l; cf_right := int_desc r; cf_type := INTS; cf_op := op |}.

Lemma int_filter_correct_witness : cf_filter (int_filter LESS_THAN 3 5) [] = true.
Proof.
  rewrite (int_filter_correct (int_filter LESS_THAN 3 5) [] (le32 3) (le32 5)); try reflexivity.
  split; vm_compute; congruence.
Defined.

Lemma int_filter_overflow_witness : cf_filter (int_filter GREAT_THAN 2000000000 (-2000000000)) [] = false.
Proof.
  apply (int_filter_overflow (int_filter GREAT_THAN 2000000000 (-2000000000)) [] (le32 2000000000) (le32 (-2000000000)));
    try reflexivity. vm_compute. congruence.
Defined.

Lemma full_width_never_equal_witness : compare_values CHARS [97; 98; 1; 0; 0; 0] [97; 98; 0] <> 0.
Proof. apply (full_width_never_equal [97; 98] 1 [0; 0; 0]); [repeat constructor; lia|lia]. Defined.

(** [born = "2000-2-29"] on the date column of the demo table. *)
Definition demo_condition : Condition :=
  column_condition "born" EQUAL_TO CHARS [50; 48; 48; 48; 45; 50; 45; 50; 57; 0; 0; 0].

Lemma condition_init_ok_witness :
  exists f c', condition_init demo_meta (junk_desc false) (junk_desc true) demo_condition = (Ok f, c') /\
    cf_type f = DATES /\ cf_op f = EQUAL_TO.
Proof.
  destruct (condition_init demo_meta (junk_desc false) (junk_desc true) demo_condition) as [r c'] eqn:E.
  destruct r as [f| | |]; try (exfalso; vm_compute in E; discriminate). exists f, c'. split; [reflexivity|].
  destruct (condition_init_ok demo_meta (junk_desc false) (junk_desc true) demo_condition c' f E eq_refl eq_refl eq_refl)
    as (fm & Hf & Ht & Ho & _). split; [|exact Ho]. rewrite Ht. injection Hf as <-. reflexivity.
Defined.

Lemma condition_init_uninitialised_witness :
  (condition_init demo_meta (junk_desc false) (junk_desc true) (column_condition "id" EQUAL_TO CHARS [97; 0])).1 =
    Err SCHEMA_FIELD_TYPE_MISMATCH.
Proof.
  pose proof (condition_init_uninitialised demo_meta (junk_desc false) (junk_desc true)
    (column_condition "id" EQUAL_TO CHARS [97; 0])
    {| fm_name := "id"; fm_type := INTS; fm_offset := 5; fm_len := 4; fm_visible := true; fm_nullable := false |}) as Hc.
  simpl cd_is_null in Hc. cbv iota in Hc. rewrite Hc; try reflexivity; discriminate.
Defined.
