(* ===== verification/Trx.v ===== *)
(** * Transactions (storage/trx/trx.h, trx.cpp)

    The first column of every record, [__trx], holds the number of the transaction that
    changed the record last, with the highest bit for a deletion; 0 is a committed record.
    A [Trx] object keeps the operations of the transaction, by table and record, for the
    end of the transaction.

    [TS S] is the state of a call with a transaction object: the object, the counter of
    [next_trx_id] and the rest of the program's state [S], which the class [TrxStore] gives
    access to (the memory of records and the metadata of tables) and on which [TrxTables]
    gives the functions of Table that the end of a transaction calls.  A table is its
    address.  The order in which the operations are visited is that of an
    [unordered_map] of [unordered_set]s: [OperationOrder] is any order. *)
From S2P Require Import Prelude ReturnCode Effects Bitmap Memory RecordPage KeyCompare TableMeta.

(** ** Operations *)

Module Operation.
(** [Operation::Type]. *)
Inductive kind := INSERT | UPDATE | DELETE | UNDEFINED.
End Operation.

#[export] Instance kind_eq_dec : EqDecision Operation.kind.
Proof. solve_decision. Defined.

#[export] Instance RID_countable : Countable RID.
Proof.
  apply (inj_countable (fun r => (page_num r, slot_num r)) (fun x => Some {| page_num := x.1; slot_num := x.2 |})).
  by intros [].
Defined.

(** A set of operations in which the record identifies the operation (OperationEqualer). *)
Abbreviation OperationSet := (gmap RID Operation.kind).

Record Trx := { trx_id_ : Z; operations_ : gmap Z OperationSet }.

(** The constructor. *)
Definition Trx_create : Trx := {| trx_id_ := 0; operations_ := ∅ |}.

Definition default_trx_id : Z := 0.

Section operations.
Implicit Types (t : Z) (rid : RID) (x : Trx).

Definition find_operation t rid x : option Operation.kind :=
  match operations_ x !! t with None => None | Some ops => ops !! rid end.

(** [emplace] keeps an operation that is there already. *)
Definition insert_operation t (k : Operation.kind) rid x : Trx :=
  let ops := default ∅ (operations_ x !! t) in
  {| trx_id_ := trx_id_ x;
     operations_ := <[t := match ops !! rid with Some _ => ops | None => <[rid := k]> ops end]> (operations_ x) |}.

Definition delete_operation t rid x : Trx :=
  match operations_ x !! t with
  | None => x
  | Some ops => {| trx_id_ := trx_id_ x; operations_ := <[t := delete rid ops]> (operations_ x) |}
  end.
End operations.

Definition all_operations (x : gmap Z OperationSet) : list (Z * RID * Operation.kind) :=
  t ← map_to_list x; o ← map_to_list t.2; [(t.1, o.1, o.2)].

Class OperationOrder := {
  operation_order : gmap Z OperationSet -> list (Z * RID * Operation.kind);
  operation_order_perm x : operation_order x ≡ₚ all_operations x }.

#[export] Program Instance plain_order : OperationOrder | 100 := { operation_order := all_operations }.
Next Obligation. done. Qed.

(** ** The transaction number in a record *)

Definition DELETED_FLAG_BIT_MASK : Z := 0x80000000.
Definition TRX_ID_BIT_MASK : Z := 0x7FFFFFFF.

(** The word that [set_record_trx_id] writes. *)
Definition record_word (trx_id : Z) (deleted : bool) : Z :=
  if deleted then int32 (Z.lor (uint32 trx_id) DELETED_FLAG_BIT_MASK) else trx_id.

(** What [get_record_trx_id] makes of it. *)
Definition word_trx_id (w : Z) : Z := int32 (Z.land (uint32 w) TRX_ID_BIT_MASK).
Definition word_deleted (w : Z) : bool := negb (Z.land (uint32 w) DELETED_FLAG_BIT_MASK =? 0).

(** The access to the field [__trx] of a record of a table with metadata [t]: a null pointer
    and a field that leaves the memory are undefined. *)
Definition trx_offset (t : TableMeta) (data : list Z) : option Z :=
  match trx_field t with
  | None => None
  | Some f => if (0 <=? fm_offset f) && (fm_offset f + 4 <=? alen data) then Some (fm_offset f) else None
  end.

Definition write_trx (t : TableMeta) (trx_id : Z) (deleted : bool) (data : list Z) : option (list Z) :=
  (fun off => wr32 data off (record_word trx_id deleted)) <$> trx_offset t data.

Definition read_trx (t : TableMeta) (data : list Z) : option (Z * bool) :=
  (fun off => (word_trx_id (rd32 data off), word_deleted (rd32 data off))) <$> trx_offset t data.

(** ** The functions of Trx *)

Record TS (S : Type) := { ts_trx : Trx; ts_next : Z; ts_store : S }.
Arguments ts_trx {S}.
Arguments ts_next {S}.
Arguments ts_store {S}.
Arguments Build_TS {S}.

(** The memory of records: [P] is a pointer to the data of a record, [store_load] the bytes from there
    on. *)
Class TrxStore (S P : Type) := {
  store_meta : Z -> S -> option TableMeta;
  store_load : P -> S -> option (list Z);
  store_save : P -> list Z -> S -> S }.

Section Trx.
Context {S P : Type} `{TrxStore S P}.
Implicit Types (t : Z) (rid : RID) (p : P).

Definition set_trx (x : Trx) : M (TS S) unit :=
  modify (fun s => {| ts_trx := x; ts_next := ts_next s; ts_store := ts_store s |}).
Definition set_store (x : S) : M (TS S) unit :=
  modify (fun s => {| ts_trx := ts_trx s; ts_next := ts_next s; ts_store := x |}).

(** [++trx_id] on an atomic [int32_t]. *)
Definition next_trx_id : M (TS S) Z := fun s =>
  let n := int32 (ts_next s + 1) in
  (Ok n, {| ts_trx := ts_trx s; ts_next := n; ts_store := ts_store s |}).

Definition start_if_not_started : M (TS S) unit :=
  let! x := gets ts_trx in
  if trx_id_ x =? 0 then
    let! n := next_trx_id in set_trx {| trx_id_ := n; operations_ := operations_ x |}
  else ret tt.

(** The table's metadata and the bytes of a record. *)
Definition record_of t p : M (TS S) (TableMeta * list Z) :=
  let! s := gets ts_store in
  match store_meta t s, store_load p s with
  | Some m, Some data => ret (m, data)
  | _, _ => undefined
  end.

Definition set_record_trx_id t p (trx_id : Z) (deleted : bool) : M (TS S) unit :=
  let! (m, data) := record_of t p in
  match write_trx m trx_id deleted data with
  | None => undefined
  | Some data' => let! s := gets ts_store in set_store (store_save p data' s)
  end.

Definition get_record_trx_id t p : M (TS S) (Z * bool) :=
  let! (m, data) := record_of t p in
  match read_trx m data with None => undefined | Some x => ret x end.

(** [Trx::insert_record] uses the identifier of the record only. *)
Definition trx_insert_record t rid : M (TS S) unit :=
  let! x := gets ts_trx in
  fail_if (bool_decide (find_operation t rid x <> None)) GENERIC_ERROR ;;
  start_if_not_started ;;
  let! x := gets ts_trx in
  set_trx (insert_operation t Operation.INSERT rid x).

Definition trx_delete_record t rid p : M (TS S) unit :=
  start_if_not_started ;;
  let! x := gets ts_trx in
  match find_operation t rid x with
  | Some Operation.INSERT => set_trx (delete_operation t rid x)
  | Some _ => fail GENERIC_ERROR
  | None =>
      set_record_trx_id t p (trx_id_ x) true ;;
      let! x := gets ts_trx in
      set_trx (insert_operation t Operation.DELETE rid x)
  end.

Definition trx_commit_insert t p : M (TS S) unit := set_record_trx_id t p 0 false.
Definition trx_rollback_delete t p : M (TS S) unit := set_record_trx_id t p 0 false.

(** The test on the two parts of the word. *)
Definition visible_to (trx_id : Z) (x : Z * bool) : bool :=
  if (0 =? x.1) || (x.1 =? trx_id) then negb x.2 else x.2.

Definition is_visible t p : M (TS S) bool :=
  let! x := get_record_trx_id t p in
  let! trx := gets ts_trx in
  ret (visible_to (trx_id_ trx) x).

(** The record is the buffer that will be inserted. *)
Definition init_trx_info (m : TableMeta) (data : list Z) : M (TS S) (list Z) :=
  let! x := gets ts_trx in
  match write_trx m (trx_id_ x) false data with None => undefined | Some data' => ret data' end.

End Trx.

(** ** The end of a transaction *)

Class TrxTables (S : Type) := {
  table_commit_insert : Z -> RID -> M (TS S) unit;
  table_commit_delete : Z -> RID -> M (TS S) unit;
  table_rollback_insert : Z -> RID -> M (TS S) unit;
  table_rollback_delete : Z -> RID -> M (TS S) unit }.

Section end_of_transaction.
Context {S : Type} `{TrxTables S} `{OperationOrder}.

(** The loops: the return code is that of the last call.  [LOG_PANIC] only writes to the log. *)
Fixpoint end_operations (on_insert on_delete : Z -> RID -> M (TS S) unit)
    (l : list (Z * RID * Operation.kind)) (rc : RC) : M (TS S) RC :=
  match l with
  | [] => ret rc
  | (t, rid, k) :: l' =>
      let! rc := match k with
                 | Operation.INSERT => rc_of (on_insert t rid)
                 | Operation.DELETE => rc_of (on_delete t rid)
                 | _ => ret rc
                 end in
      end_operations on_insert on_delete l' rc
  end.

Definition end_trx (on_insert on_delete : Z -> RID -> M (TS S) unit) : M (TS S) unit :=
  let! x := gets ts_trx in
  let! rc := end_operations on_insert on_delete (operation_order (operations_ x)) SUCCESS in
  set_trx Trx_create ;;
  return_rc rc.

Definition commit : M (TS S) unit := end_trx table_commit_insert table_commit_delete.
Definition rollback : M (TS S) unit := end_trx table_rollback_insert table_rollback_delete.
End end_of_transaction.
