(* ===== verification/Index.v ===== *)
(** * Indexes of a table (storage/common/index.h, index.cpp, bplus_tree_index.h, .cpp)

    BplusTreeIndex puts a B+ tree on one field of the records of a table.  [BplusTreeIndex] is
    the object, with the fields of its BplusTreeHandler except the pool; [IX] is the object
    with the pool, on which the functions of the handler run. *)
From Stdlib Require Import String.
From S2P Require Import Prelude ReturnCode Effects Bitmap Memory Replacer OsFile BufferPool.
From S2P Require Import RecordPage KeyCompare BTreeNode BTree BTreeScan TableMeta.

Record BplusTreeIndex := {
  inited_ : bool;
  unique_ : Z;
  index_meta_ : IndexMeta;
  field_meta_ : FieldMeta;
  ih_open : bool;              (* index_handler_.disk_buffer_pool_ != nullptr *)
  ih_file_id : Z;
  ih_header_dirty : bool;
  ih_file_header : IndexFileHeader }.

(** The constructor; [h] is the content of [index_handler_.file_header_], which it leaves
    uninitialised. *)
Definition BplusTreeIndex_create (unique : Z) (h : IndexFileHeader) : BplusTreeIndex :=
  {| inited_ := false; unique_ := unique; index_meta_ := {| im_name := EmptyString; im_fields := [] |};
     field_meta_ := inhabitant; ih_open := false; ih_file_id := -1; ih_header_dirty := false; ih_file_header := h |}.

Definition set_inited (b : bool) (x : BplusTreeIndex) : BplusTreeIndex :=
  {| inited_ := b; unique_ := unique_ x; index_meta_ := index_meta_ x; field_meta_ := field_meta_ x;
     ih_open := ih_open x; ih_file_id := ih_file_id x; ih_header_dirty := ih_header_dirty x;
     ih_file_header := ih_file_header x |}.

(** [Index::init]. *)
Definition index_base_init (im : IndexMeta) (fm : FieldMeta) (x : BplusTreeIndex) : BplusTreeIndex :=
  {| inited_ := inited_ x; unique_ := unique_ x; index_meta_ := im; field_meta_ := fm;
     ih_open := ih_open x; ih_file_id := ih_file_id x; ih_header_dirty := ih_header_dirty x;
     ih_file_header := ih_file_header x |}.

Section BplusTreeIndex.
Context {R W : Type} `{Replacer R} `{OS W} `{HashOrder}.

Record IX := { ix_pool : Pool R W; ix_index : BplusTreeIndex }.

Definition set_ix (x : BplusTreeIndex) (s : IX) : IX := {| ix_pool := ix_pool s; ix_index := x |}.
Definition upd_ix (g : BplusTreeIndex -> BplusTreeIndex) : M IX unit := modify (fun s => set_ix (g (ix_index s)) s).

(** The handler with the pool, and back. *)
Definition bt_of (s : IX) : BT R W :=
  {| bt_pool := ix_pool s; bt_open := ih_open (ix_index s); bt_file_id := ih_file_id (ix_index s);
     header_dirty_ := ih_header_dirty (ix_index s); file_header_ := ih_file_header (ix_index s) |}.

Definition put_bt (b : BT R W) (s : IX) : IX :=
  let x := ix_index s in
  {| ix_pool := bt_pool b;
     ix_index := {| inited_ := inited_ x; unique_ := unique_ x; index_meta_ := index_meta_ x; field_meta_ := field_meta_ x;
                    ih_open := bt_open b; ih_file_id := bt_file_id b; ih_header_dirty := header_dirty_ b;
                    ih_file_header := file_header_ b |} |}.

(** A call on [index_handler_]. *)
Definition on_handler {A} (m : M (BT R W) A) : M IX A := fun s =>
  let '(r, b) := m (bt_of s) in (r, put_bt b s).

Definition index_create (file_name : string) (im : IndexMeta) (fm : FieldMeta) : M IX unit :=
  let! x := gets ix_index in
  fail_if (inited_ x) RECORD_OPENNED ;;
  upd_ix (index_base_init im fm) ;;
  on_handler (create file_name (attr_code (fm_type fm)) (fm_len fm)) ;;
  upd_ix (set_inited true).

Definition index_open (file_name : string) (im : IndexMeta) (fm : FieldMeta) : M IX unit :=
  let! x := gets ix_index in
  fail_if (inited_ x) RECORD_OPENNED ;;
  upd_ix (index_base_init im fm) ;;
  on_handler (open file_name) ;;
  upd_ix (set_inited true).

(** The return code of the handler is not looked at. *)
Definition index_close : M IX unit :=
  let! x := gets ix_index in
  if inited_ x then let! _ := rc_of (on_handler close) in upd_ix (set_inited false) else ret tt.

(** [None] is a null pointer: the scan could not be opened. *)
Definition create_scanner (fuel : nat) (op : CompOp) (value : list Z) : M IX (option BplusTreeScanner) := fun s =>
  let '(r, t) := scan_open fuel op value {| st_bt := bt_of s; st_sc := BplusTreeScanner_create |} in
  let s' := put_bt (st_bt t) s in
  match r with
  | Ok _ => (Ok (Some (st_sc t)), s')
  | Err _ => (Ok None, s')
  | Ub => (Ub, s')
  | OutOfFuel => (OutOfFuel, s')
  end.

(** [next_entry] of a scanner; its state after the call is part of the result. *)
Definition scanner_next (sc : BplusTreeScanner) : M IX ((RC + RID) * BplusTreeScanner) := fun s =>
  let '(r, t) := next_entry {| st_bt := bt_of s; st_sc := sc |} in
  let s' := put_bt (st_bt t) s in
  match r with
  | Ok rid => (Ok (inr rid, st_sc t), s')
  | Err rc => (Ok (inl rc, st_sc t), s')
  | Ub => (Ub, s')
  | OutOfFuel => (OutOfFuel, s')
  end.

(** [record + field_meta_.offset()]; [record] is the memory from the record on. *)
Definition field_data (x : BplusTreeIndex) (record : list Z) : list Z :=
  drop (Z.to_nat (fm_offset (field_meta_ x))) record.

(** [destroy] closes the scanner, which changes nothing outside it. *)
Definition index_insert_entry (fuel : nat) (record : list Z) (rid : RID) : M IX unit :=
  let! x := gets ix_index in
  (if unique_ x =? 1 then
     let! scanner := create_scanner fuel EQUAL_TO (field_data x record) in
     match scanner with
     | None => undefined
     | Some sc =>
         let! (r, sc) := scanner_next sc in
         match r with inr _ => fail RECORD_DUPLICATE_KEY | inl _ => ret tt end
     end
   else ret tt) ;;
  on_handler (insert_entry fuel (field_data x record) rid).

Definition index_delete_entry (fuel : nat) (record : list Z) (rid : RID) : M IX unit :=
  let! x := gets ix_index in
  on_handler (delete_entry fuel (field_data x record) rid).

Definition index_sync : M IX unit := on_handler sync.

End BplusTreeIndex.
Arguments IX R W : clear implicits.
