(* ===== verification/Table.v ===== *)
(** * Tables (storage/common/table.h, table.cpp): records and their index entries

    A [Table] object holds the metadata, the record file and the indexes of a table.  [DB] is
    the buffer pool with all tables by address; [TS DB] adds the transaction object of the
    caller (Trx.v).  A pointer to a record is a frame of the pool and an offset in its page, so
    that the record is read again at every use; within one call on an index the key is read once.
    [fuel] bounds the loops of the B+ trees. *)
From Stdlib Require Import String.
From Stdlib Require Import Floats.SpecFloat.
From S2P Require Import Prelude ReturnCode Effects Bitmap Memory Replacer OsFile BufferPool.
From S2P Require Import RecordPage RecordFile KeyCompare BTreeNode BTree BTreeScan Dates TableMeta.
From S2P Require Import ConditionFilter Trx Index.

Record Table := {
  base_dir_ : option string;
  table_meta_ : TableMeta;
  tb_pool_ : bool;                       (* data_buffer_pool_ != nullptr *)
  file_id_ : Z;
  record_handler_ : option (RecordFileHandler * RecordPageHandler);  (* with its record_page_handler_ *)
  indexes_ : list BplusTreeIndex }.

Definition no_meta : TableMeta := {| tm_name := EmptyString; tm_fields := []; tm_indexes := []; tm_record_size := 0 |}.

(** The constructor. *)
Definition Table_create : Table :=
  {| base_dir_ := None; table_meta_ := no_meta; tb_pool_ := false; file_id_ := -1; record_handler_ := None; indexes_ := [] |}.

Definition set_record_handler h (x : Table) : Table :=
  {| base_dir_ := base_dir_ x; table_meta_ := table_meta_ x; tb_pool_ := tb_pool_ x; file_id_ := file_id_ x;
     record_handler_ := h; indexes_ := indexes_ x |}.
Definition set_indexes l (x : Table) : Table :=
  {| base_dir_ := base_dir_ x; table_meta_ := table_meta_ x; tb_pool_ := tb_pool_ x; file_id_ := file_id_ x;
     record_handler_ := record_handler_ x; indexes_ := l |}.

(** ** make_record *)

(** The conversion of an [int] to [float] and the bits of a [float]. *)
Definition float_of_int (z : Z) : float := binary_normalize 24 128 z 0 false.
Definition bits_of_float (x : float) : Z :=
  let sign (s : bool) := if s then 2 ^ 31 else 0 in
  match x with
  | S754_zero s => sign s
  | S754_infinity s => sign s + 255 * 2 ^ 23
  | S754_nan => 0x7FC00000
  | S754_finite s m e => sign s + (if Zpos m <? 2 ^ 23 then 0 else e + 150) * 2 ^ 23 + Zpos m mod 2 ^ 23
  end.

(** The [int] in the memory of the value becomes a [float]. *)
Definition int_to_float (data : list Z) : list Z := wr32 data 0 (int32 (bits_of_float (float_of_int (rd32 data 0)))).

Definition value_with (type : AttrType) (data : list Z) (v : Value) : Value :=
  {| v_type := type; v_isnull := v_isnull v; v_data := data |}.

(** The check of one value, which may be changed in place. *)
Definition check_value (f : FieldMeta) (v : Value) : res unit * Value :=
  if v_isnull v then ((if negb (fm_nullable f) then Err CONSTRAINT_NOTNULL else Ok tt), v)
  else if bool_decide (fm_type f = v_type v) then (Ok tt, v)
  else if bool_decide (fm_type f = DATES) && bool_decide (v_type v = CHARS) then
    let '(r, d) := Check_and_format_date theGlobalDateUtil (v_data v) in
    (match r with Err _ => Err SCHEMA_FIELD_TYPE_MISMATCH | r => r end, value_with (v_type v) d v)
  else if bool_decide (fm_type f = FLOATS) && bool_decide (v_type v = INTS) then
    if alen (v_data v) <? 4 then (Ub, v) else (Ok tt, value_with FLOATS (int_to_float (v_data v)) v)
  else (Err SCHEMA_FIELD_TYPE_MISMATCH, v).

(** The first loop: [i] is the counter. *)
Fixpoint check_values (t : TableMeta) (i : Z) (values : list Value) : res unit * list Value :=
  match values with
  | [] => (Ok tt, [])
  | v :: rest =>
      match field_at t (i + sys_field_num) with
      | None => (Ub, values)
      | Some f =>
          match check_value f v with
          | (Ok _, v') => let '(r, rest') := check_values t (i + 1) rest in (r, v' :: rest')
          | (r, v') => (r, v' :: rest)
          end
      end
  end.

(** The second loop; a value shorter than its field is read beyond its end. *)
Fixpoint copy_values (t : TableMeta) (i : Z) (values : list Value) (rec : list Z) : res (list Z) :=
  match values with
  | [] => Ok rec
  | v :: rest =>
      let index := i + sys_field_num in
      match field_at t index with
      | None => Ub
      | Some f =>
          if negb ((0 <=? index) && (index / 8 <? alen rec)) then Ub
          else if v_isnull v then copy_values t (i + 1) rest (set_bit rec index)
          else
            let rec := clear_bit rec index in
            if negb ((0 <=? fm_offset f) && (0 <=? fm_len f) && (fm_offset f + fm_len f <=? alen rec) &&
                     (fm_len f <=? alen (v_data v))) then Ub
            else copy_values t (i + 1) rest (put rec (fm_offset f) (take (Z.to_nat (fm_len f)) (v_data v)))
      end
  end.

(** [mem] is the content of the memory that [new] returns. *)
Definition make_record (t : TableMeta) (value_num : Z) (mem : list Z) : M (list Value) (list Z) := fun values =>
  if negb (value_num + sys_field_num =? field_num t) then (Err SCHEMA_FIELD_MISSING, values)
  else
    let '(r, values') := check_values t 0 values in
    match r with
    | Ok _ => if negb (alen mem =? tm_record_size t) then (Ub, values') else (copy_values t 0 values' mem, values')
    | Err rc => (Err rc, values')
    | Ub => (Ub, values')
    | OutOfFuel => (OutOfFuel, values')
    end.

(** ** The state *)

Section Table.
Context {R W : Type} `{Replacer R} `{OS W} `{HashOrder}.
Variable fuel : nat.

Record DB := { db_pool : Pool R W; db_tables : gmap Z Table }.

Definition set_db_pool p (d : DB) : DB := {| db_pool := p; db_tables := db_tables d |}.
Definition set_db (d : DB) (s : TS DB) : TS DB := {| ts_trx := ts_trx s; ts_next := ts_next s; ts_store := d |}.

(** A pointer to the data of a record: a null pointer, or a frame and an offset. *)
#[export] Instance db_store : TrxStore DB (option (Z * Z)) := {
  store_meta t d := table_meta_ <$> db_tables d !! t;
  store_load p d := match p with
                    | None => None
                    | Some (f, off) => if off <? 0 then None else Some (drop (Z.to_nat off) (data_of f (db_pool d)))
                    end;
  store_save p data d := match p with
                         | None => d
                         | Some (f, off) => set_db_pool (upd_data f (fun page => take (Z.to_nat off) page ++ data) (db_pool d)) d
                         end }.

(** [this], which is an address. *)
Definition this (t : Z) : M (TS DB) Table :=
  let! d := gets ts_store in
  match db_tables d !! t with None => undefined | Some x => ret x end.

Definition upd_table (t : Z) (g : Table -> Table) : M (TS DB) unit :=
  modify (fun s => let d := ts_store s in
    set_db {| db_pool := db_pool d; db_tables := alter g t (db_tables d) |} s).

(** A call on the pool. *)
Definition on_pool {A} (m : M (Pool R W) A) : M (TS DB) A := fun s =>
  let '(r, p) := m (db_pool (ts_store s)) in (r, set_db (set_db_pool p (ts_store s)) s).

(** A call that works on a RecordPageHandler object; its state after the call is part of the result. *)
Definition on_page_handler {A} (ph : RecordPageHandler) (m : M (RS R W) A) : M (TS DB) ((RC + A) * RecordPageHandler) := fun s =>
  let '(r, x) := m {| rs_pool := db_pool (ts_store s); rs_ph := ph |} in
  let s' := set_db (set_db_pool (rs_pool x) (ts_store s)) s in
  match r with
  | Ok a => (Ok (inr a, rs_ph x), s')
  | Err rc => (Ok (inl rc, rs_ph x), s')
  | Ub => (Ub, s')
  | OutOfFuel => (OutOfFuel, s')
  end.

(** A call on an index object that is not in [indexes_]; likewise. *)
Definition on_index {A} (x : BplusTreeIndex) (m : M (IX R W) A) : M (TS DB) ((RC + A) * BplusTreeIndex) := fun s =>
  let '(r, y) := m {| ix_pool := db_pool (ts_store s); ix_index := x |} in
  let s' := set_db (set_db_pool (ix_pool y) (ts_store s)) s in
  match r with
  | Ok a => (Ok (inr a, ix_index y), s')
  | Err rc => (Ok (inl rc, ix_index y), s')
  | Ub => (Ub, s')
  | OutOfFuel => (OutOfFuel, s')
  end.

Definition of_sum {S A} (x : RC + A) : M S A := match x with inl rc => fail rc | inr a => ret a end.

(** A call on [indexes_[i]]. *)
Definition on_index_at {A} (t : Z) (i : nat) (m : M (IX R W) A) : M (TS DB) A :=
  let! tb := this t in
  match indexes_ tb !! i with
  | None => undefined
  | Some x =>
      let! (r, x') := on_index x m in
      upd_table t (fun tb => set_indexes (<[i := x']> (indexes_ tb)) tb) ;;
      of_sum r
  end.

(** [record_handler_]. *)
Definition record_handler (t : Z) : M (TS DB) RecordFileHandler :=
  let! tb := this t in
  match record_handler_ tb with None => undefined | Some (h, _) => ret h end.

(** RecordFileHandler::insert_record, the function that uses the handler's own page handler. *)
Definition handler_insert (t : Z) (data : list Z) (size : Z) : M (TS DB) RID :=
  let! tb := this t in
  match record_handler_ tb with
  | None => undefined
  | Some (h, ph) =>
      let! (r, ph') := on_page_handler ph (RecordFile.insert_record h data size) in
      upd_table t (set_record_handler (Some (h, ph'))) ;;
      of_sum r
  end.

Definition handler_delete (t : Z) (rid : RID) : M (TS DB) unit :=
  let! h := record_handler t in on_pool (RecordFile.delete_record h rid).

(** The function leaves the caller's record as it is when the page cannot be fetched ([cur]). *)
Definition handler_get (t : Z) (rid : RID) (cur : option RecordRef) : M (TS DB) (option RecordRef) :=
  let! h := record_handler t in
  let! x := on_pool (RecordFile.get_record h rid) in
  ret (match x with Some r => Some r | None => cur end).

(** The bytes from [rec.data] on. *)
Definition record_bytes (rec : RecordRef) : M (TS DB) (list Z) :=
  let! d := gets ts_store in
  match store_load (rec_data rec) d with None => undefined | Some b => ret b end.

(** ** Index entries *)

(** [null_bitmap.get_bit(index)]. *)
Definition null_bit (record : list Z) (index : Z) : M (TS DB) bool :=
  undefined_if (negb ((0 <=? index) && (index / 8 <? alen record))) ;; ret (get_bit record index).

(** The index of the first field of [indexes_[i]] in the table. *)
Definition indexed_field (tb : Table) (x : BplusTreeIndex) : Z :=
  field_index (table_meta_ tb) (im_field (index_meta_ x)).

(** The loops over [indexes_]; [record] reads the record. *)
Fixpoint insert_entries_from (t : Z) (record : M (TS DB) (list Z)) (rid : RID) (n : nat) (i : nat) : M (TS DB) unit :=
  match n with
  | O => ret tt
  | S n' =>
      let! tb := this t in
      match indexes_ tb !! i with
      | None => undefined
      | Some x =>
          let! bytes := record in
          let! null := null_bit bytes (indexed_field tb x) in
          (if null then ret tt else on_index_at t i (index_insert_entry fuel bytes rid)) ;;
          insert_entries_from t record rid n' (S i)
      end
  end.

Definition insert_entry_of_indexes (t : Z) (record : M (TS DB) (list Z)) (rid : RID) : M (TS DB) unit :=
  let! tb := this t in insert_entries_from t record rid (length (indexes_ tb)) 0.

(** [rc] is the return code so far. *)
Fixpoint delete_entries_from (t : Z) (record : M (TS DB) (list Z)) (rid : RID) (error_on_not_exists : bool)
    (n : nat) (i : nat) (rc : RC) : M (TS DB) RC :=
  match n with
  | O => ret rc
  | S n' =>
      let! tb := this t in
      match indexes_ tb !! i with
      | None => undefined
      | Some x =>
          let! bytes := record in
          let! null := null_bit bytes (indexed_field tb x) in
          if null then delete_entries_from t record rid error_on_not_exists n' (S i) rc
          else
            let! rc := rc_of (on_index_at t i (index_delete_entry fuel bytes rid)) in
            if bool_decide (rc = SUCCESS) then delete_entries_from t record rid error_on_not_exists n' (S i) rc
            else if negb (bool_decide (rc = RECORD_INVALID_KEY)) || negb error_on_not_exists then ret rc
            else delete_entries_from t record rid error_on_not_exists n' (S i) rc
      end
  end.

Definition delete_entry_of_indexes (t : Z) (record : M (TS DB) (list Z)) (rid : RID) (error_on_not_exists : bool) : M (TS DB) unit :=
  let! tb := this t in
  let! rc := delete_entries_from t record rid error_on_not_exists (length (indexes_ tb)) 0 SUCCESS in
  return_rc rc.

(** ** Insertion *)

(** The record is the buffer [data]; [trx] says whether the transaction object is not null. *)
Definition insert_record (t : Z) (trx : bool) (data : list Z) : M (TS DB) RID :=
  let! tb := this t in
  let! data := (if trx then init_trx_info (table_meta_ tb) data else ret data) in
  let! rid := handler_insert t data (tm_record_size (table_meta_ tb)) in
  (if trx then
     let! rc := rc_of (trx_insert_record t rid) in
     if bool_decide (rc = SUCCESS) then ret tt
     else let! _ := rc_of (handler_delete t rid) in fail rc
   else ret tt) ;;
  let! rc := rc_of (insert_entry_of_indexes t (ret data) rid) in
  if bool_decide (rc = SUCCESS) then ret rid
  else if bool_decide (rc = RECORD_DUPLICATE_KEY) then
    let! _ := rc_of (handler_delete t rid) in fail rc
  else
    let! _ := rc_of (delete_entry_of_indexes t (ret data) rid true) in
    let! _ := rc_of (handler_delete t rid) in
    fail rc.

(** The values are changed in place; [None] is a null pointer. *)
Definition insert_values (t : Z) (trx : bool) (value_num : Z) (values : option (list Value)) (mem : list Z)
    : M (TS DB) (list Value) :=
  match values with
  | None => fail INVALID_ARGUMENT
  | Some values =>
      fail_if (value_num <=? 0) INVALID_ARGUMENT ;;
      undefined_if (alen values <? value_num) ;;
      let! tb := this t in
      let '(r, values') := make_record (table_meta_ tb) value_num mem (take (Z.to_nat value_num) values) in
      let! data := of_res r in
      let! _ := insert_record t trx data in
      ret values'
  end.

(** ** Commit and rollback *)

Definition table_commit_insert (t : Z) (rid : RID) : M (TS DB) unit :=
  let! rec := handler_get t rid None in
  match rec with None => undefined | Some rec => trx_commit_insert t (rec_data rec) end.

Definition rollback_insert (t : Z) (rid : RID) : M (TS DB) unit :=
  let! rec := handler_get t rid None in
  match rec with
  | None => undefined
  | Some rec => delete_entry_of_indexes t (record_bytes rec) rid false ;; handler_delete t rid
  end.

Definition rollback_delete (t : Z) (rid : RID) : M (TS DB) unit :=
  let! rec := handler_get t rid None in
  match rec with None => undefined | Some rec => trx_rollback_delete t (rec_data rec) end.

Definition has_text_field (m : TableMeta) : bool := existsb (fun f => bool_decide (fm_type f = TEXTS)) (tm_fields m).

(** The loop that turns the text pages of a record into record pages; a failure is a failed [assert]. *)
Fixpoint delete_texts (t : Z) (rec : RecordRef) (size : Z) (fields : list FieldMeta) : M (TS DB) unit :=
  match fields with
  | [] => ret tt
  | f :: rest =>
      (if bool_decide (fm_type f = TEXTS) then
         let! bytes := record_bytes rec in
         undefined_if (negb ((0 <=? fm_offset f) && (fm_offset f + 4 <=? alen bytes))) ;;
         let! h := record_handler t in
         let! rc := rc_of (on_pool (delete_text_data h (rd32 bytes (fm_offset f)) size)) in
         undefined_if (negb (bool_decide (rc = SUCCESS)))
       else ret tt) ;;
      delete_texts t rec size rest
  end.

(** The return code for the indexes is not looked at. *)
Definition commit_delete (t : Z) (rid : RID) : M (TS DB) unit :=
  let! rec := handler_get t rid None in
  match rec with
  | None => undefined
  | Some rec =>
      let! _ := rc_of (delete_entry_of_indexes t (record_bytes rec) rid false) in
      let! tb := this t in
      (if has_text_field (table_meta_ tb) then
         delete_texts t rec (tm_record_size (table_meta_ tb)) (tm_fields (table_meta_ tb))
       else ret tt) ;;
      handler_delete t rid
  end.

#[export] Instance db_trx_tables : TrxTables DB := {
  table_commit_insert := table_commit_insert;
  table_commit_delete := commit_delete;
  table_rollback_insert := rollback_insert;
  table_rollback_delete := rollback_delete }.

(** ** Deletion of a record *)

Definition delete_record (t : Z) (trx : bool) (rec : RecordRef) : M (TS DB) unit :=
  if trx then trx_delete_record t (rec_rid rec) (rec_data rec)
  else
    delete_entry_of_indexes t (record_bytes rec) (rec_rid rec) false ;;
    handler_delete t (rec_rid rec).

Definition delete_text_record (t : Z) (trx : bool) (rec : RecordRef) : M (TS DB) unit :=
  if trx then trx_delete_record t (rec_rid rec) (rec_data rec)
  else
    delete_entry_of_indexes t (record_bytes rec) (rec_rid rec) false ;;
    let! tb := this t in
    delete_texts t rec (tm_record_size (table_meta_ tb)) (tm_fields (table_meta_ tb)) ;;
    handler_delete t (rec_rid rec).

(** ** Update of a record in place *)

(** A store through [record->data]. *)
Definition write_record_bytes (rec : RecordRef) (off : Z) (bs : list Z) : M (TS DB) unit :=
  let! bytes := record_bytes rec in
  undefined_if (negb ((0 <=? off) && (off + alen bs <=? alen bytes))) ;;
  modify (fun s => set_db (store_save (rec_data rec) (put bytes off bs) (ts_store s)) s).

(** The [get_record] at the start of both functions, whose return code is not looked at. *)
Definition refetch (t : Z) (rec : RecordRef) : M (TS DB) RecordRef :=
  let! x := try (handler_get t (rec_rid rec) (Some rec)) in
  ret (match x with inr (Some r) => r | _ => rec end).

Definition handler_update (t : Z) (rec : RecordRef) : M (TS DB) unit :=
  let! bytes := record_bytes rec in
  let! h := record_handler t in
  on_pool (RecordFile.update_record h (rec_rid rec) bytes).

Definition update_record_one_attr (t : Z) (rec : RecordRef) (f : FieldMeta) (v : Value) : M (TS DB) unit :=
  let! rec := refetch t rec in
  delete_entry_of_indexes t (record_bytes rec) (rec_rid rec) false ;;
  undefined_if ((fm_len f <? 0) || (alen (v_data v) <? fm_len f)) ;;
  write_record_bytes rec (fm_offset f) (take (Z.to_nat (fm_len f)) (v_data v)) ;;
  let! _ := rc_of (handler_update t rec) in
  insert_entry_of_indexes t (record_bytes rec) (rec_rid rec).

(** [assert(rc == RC::SUCCESS)]. *)
Definition asserted {A} (m : M (TS DB) A) : M (TS DB) A :=
  let! x := try m in match x with inl _ => undefined | inr a => ret a end.

Definition update_record_text_attr (t : Z) (rec : RecordRef) (f : FieldMeta) (v : Value) : M (TS DB) unit :=
  let! rec := refetch t rec in
  delete_entry_of_indexes t (record_bytes rec) (rec_rid rec) false ;;
  match strlen (v_data v) with
  | None => undefined
  | Some len =>
      write_record_bytes rec (fm_offset f + PAGENUMSIZE) (replicate (Z.to_nat TEXTPATCHSIZE) 0) ;;
      write_record_bytes rec (fm_offset f + PAGENUMSIZE) (load (v_data v) 0 (Z.min len TEXTPATCHSIZE)) ;;
      asserted (handler_update t rec) ;;
      let! bytes := record_bytes rec in
      let! h := record_handler t in
      asserted (on_pool (update_text_data h (v_data v) (rd32 bytes (fm_offset f)))) ;;
      insert_entry_of_indexes t (record_bytes rec) (rec_rid rec)
  end.

(** ** Records with texts *)

(** The loop of [make_and_insert_text_record]; the number and the types of the values are not
    checked. *)
Fixpoint copy_texts (t : Z) (m : TableMeta) (i : Z) (values : list Value) (rec : list Z) : M (TS DB) (list Z) :=
  match values with
  | [] => ret rec
  | v :: rest =>
      let index := i + sys_field_num in
      match field_at m index with
      | None => undefined
      | Some f =>
          undefined_if (negb ((0 <=? index) && (index / 8 <? alen rec))) ;;
          if v_isnull v then copy_texts t m (i + 1) rest (set_bit rec index)
          else
            let rec := clear_bit rec index in
            if bool_decide (fm_type f = TEXTS) then
              let! h := record_handler t in
              let! pagenum := asserted (on_pool (insert_text_data h (v_data v))) in
              match strlen (v_data v) with
              | None => undefined
              | Some len =>
                  let bs := load (v_data v) 0 (Z.min len TEXTPATCHSIZE) in
                  undefined_if (negb ((0 <=? fm_offset f) && (fm_offset f + PAGENUMSIZE + alen bs <=? alen rec))) ;;
                  copy_texts t m (i + 1) rest (put (wr32 rec (fm_offset f) pagenum) (fm_offset f + PAGENUMSIZE) bs)
              end
            else
              undefined_if (negb ((0 <=? fm_offset f) && (0 <=? fm_len f) && (fm_offset f + fm_len f <=? alen rec) &&
                                  (fm_len f <=? alen (v_data v)))) ;;
              copy_texts t m (i + 1) rest (put rec (fm_offset f) (take (Z.to_nat (fm_len f)) (v_data v)))
      end
  end.

Definition make_and_insert_text_record (t : Z) (trx : bool) (values : list Value) (mem : list Z) : M (TS DB) RID :=
  let! tb := this t in
  undefined_if (negb (alen mem =? tm_record_size (table_meta_ tb))) ;;
  let! data := copy_texts t (table_meta_ tb) 0 values mem in
  asserted (insert_record t trx data).

Definition insert_text_record (t : Z) (trx : bool) (value_num : Z) (values : list Value) (mem : list Z) : M (TS DB) unit :=
  undefined_if (alen values <? value_num) ;;
  let! _ := make_and_insert_text_record t trx (take (Z.to_nat value_num) values) mem in ret tt.

Definition read_text_record (t : Z) (page_num : Z) : M (TS DB) (list Z) :=
  let! h := record_handler t in asserted (on_pool (read_text_data h page_num)).

End Table.
Arguments DB R W : clear implicits.
