(* ===== verification/Values.v ===== *)
(** * Values of tuples (sql/executor/value.h)

    [TupleValue] with its four subclasses.  A value is reached through a [shared_ptr]; the only
    call that changes one in place is [plus], on objects that the aggregation has made itself,
    so that values are passed by value here.  Output streams are lists of bytes. *)
From Stdlib Require Import String Ascii Floats.SpecFloat.
From S2P Require Import Prelude ReturnCode Effects Bitmap Memory RecordPage KeyCompare Dates ConditionFilter Table.

(** ** Functions that return or fail, without a state *)

Definition res_bind {A B} (m : res A) (k : A -> res B) : res B :=
  match m with Ok a => k a | Err rc => Err rc | Ub => Ub | OutOfFuel => OutOfFuel end.

Notation "'let?' x ':=' m 'in' k" := (res_bind m (fun x => k))
  (at level 10, x pattern, m at level 100, k at level 200,
   format "'let?'  x  ':='  m  'in' '//' k") : c_scope.

(** [assert(b)]. *)
Definition asserting (b : bool) : res unit := if b then Ok tt else Ub.

Fixpoint res_map {A B} (f : A -> res B) (l : list A) : res (list B) :=
  match l with
  | [] => Ok []
  | x :: l' => let? y := f x in let? ys := res_map f l' in Ok (y :: ys)
  end%C.

(** An element of a [std::vector]; outside of it the program has no defined behaviour. *)
Definition at_index {A} (l : list A) (i : Z) : res A :=
  match (if i <? 0 then None else l !! Z.to_nat i) with Some x => Ok x | None => Ub end.

(** [nullptr]. *)
Definition non_null {A} (p : option A) : res A := match p with Some x => Ok x | None => Ub end.

(** ** Text *)

Definition bytes_of_string (s : string) : list Z := (fun c => Z.of_N (N_of_ascii c)) <$> list_ascii_of_string s.

(** [os << v] for an integer. *)
Definition decimal (v : Z) : list Z := (if v <? 0 then [dash] else []) ++ digits 40 (Z.abs v) [].

(** The value of a finite number times 100, rounded to the nearest integer, ties to even; the sign is left out. *)
Definition hundredths (m : positive) (e : Z) : Z :=
  if 0 <=? e then Zpos m * 100 * 2 ^ e
  else
    let d := 2 ^ (- e) in
    let q := Zpos m * 100 / d in
    let r := Zpos m * 100 mod d in
    if 2 * r <? d then q else if d <? 2 * r then q + 1 else if Z.even q then q else q + 1.

Definition dot : Z := 46.

(** [sprintf] with [%.2f].  A NaN has no sign here. *)
Definition printf_2f (f : float) : list Z :=
  let minus (s : bool) := if s then [dash] else [] in
  let fixed (h : Z) := digits 40 (h / 100) [] ++ [dot; 48 + h / 10 mod 10; 48 + h mod 10] in
  match f with
  | S754_zero s => minus s ++ fixed 0
  | S754_infinity s => minus s ++ bytes_of_string "inf"
  | S754_nan => bytes_of_string "nan"
  | S754_finite s m e => minus s ++ fixed (hundredths m e)
  end.

(** The loop from the end of the buffer; the argument is the buffer from there backwards. *)
Fixpoint strip_zeros (r : list Z) : list Z :=
  match r with
  | [] => []
  | b :: r' => if (b =? 48) || (b =? 0) then strip_zeros r' else if b =? dot then r' else r
  end.

(** [char s[20]]. *)
Definition float_buffer : Z := 20.

Definition float_text (f : float) : res (list Z) :=
  let text := printf_2f f in
  if float_buffer <=? alen text then Ub
  else
    let s := text ++ replicate (Z.to_nat (float_buffer - alen text)) 0 in
    Ok (reverse (strip_zeros (reverse s))).

(** ** Values *)

(** [StringValue] has the member [type_] of its base class, which one of its constructors leaves
    uninitialised. *)
Inductive TupleValue :=
| IntValue (value : Z)
| FloatValue (value : float)
| StringValue (type : AttrType) (value : list Z)
| NullValue.

(** [StringValue(const char *value, int len)]. *)
Definition new_StringValue (s : list Z) : TupleValue := StringValue CHARS s.

Definition Type_of (v : TupleValue) : AttrType :=
  match v with IntValue _ => INTS | FloatValue _ => FLOATS | StringValue t _ => t | NullValue => UNDEFINED end.

(** What a [void *] from [value_pointer] points to. *)
Inductive Pointee := ToInt (v : Z) | ToFloat (v : float) | ToString (v : list Z).

Definition value_pointer (v : TupleValue) : option Pointee :=
  match v with
  | IntValue x => Some (ToInt x)
  | FloatValue x => Some (ToFloat x)
  | StringValue _ s => Some (ToString s)
  | NullValue => None
  end.

Definition read_int (p : option Pointee) : res Z := match p with Some (ToInt x) => Ok x | _ => Ub end.
Definition read_float (p : option Pointee) : res float := match p with Some (ToFloat x) => Ok x | _ => Ub end.
Definition read_string (p : option Pointee) : res (list Z) := match p with Some (ToString s) => Ok s | _ => Ub end.

Definition set_value (p : option Pointee) (v : TupleValue) : res TupleValue :=
  match v with
  | IntValue _ => let? x := read_int p in Ok (IntValue x)
  | FloatValue _ => let? x := read_float p in Ok (FloatValue x)
  | StringValue t _ => let? s := read_string p in Ok (StringValue t s)
  | NullValue => Ok NullValue
  end%C.

Definition to_string (v : TupleValue) : res (list Z) :=
  match v with
  | IntValue x => Ok (decimal x)
  | FloatValue x => float_text x
  | StringValue _ s => Ok s
  | NullValue => Ok (bytes_of_string "null")
  end.

(** The [double] nearest to 1e-5. *)
Definition eps5 : double := S754_finite false 5902958103587057 (-69).

(** The branches on [result]; a NaN reaches the end of the function without a [return]. *)
Definition sign_of (result : float) : res Z :=
  if SFltb (SFopp eps5) (double_of_float result) && SFltb (double_of_float result) eps5 then Ok 0
  else if SFltb (S754_zero false) result then Ok 1
  else if SFltb result (S754_zero false) then Ok (-1)
  else Ub.

(** [strcmp] of two [c_str()]. *)
Definition string_compare (s t : list Z) : Z := strcmp (s ++ [0]) (t ++ [0]).

Definition compare (v other : TupleValue) : res Z :=
  match v with
  | IntValue x =>
      if bool_decide (Type_of other = FLOATS) then
        let? y := read_float (value_pointer other) in sign_of (SFsub 24 128 (float_of_int x) y)
      else let? y := read_int (value_pointer other) in Ok (int32 (x - y))
  | FloatValue x =>
      let? y := (if bool_decide (Type_of other = FLOATS) then read_float (value_pointer other)
                 else let? y := read_int (value_pointer other) in Ok (float_of_int y)) in
      sign_of (SFsub 24 128 x y)
  | StringValue _ s => match other with StringValue _ t => Ok (string_compare s t) | _ => Ub end
  | NullValue => Ub
  end%C.

(** The conversion of a [float] to [int]: towards zero, defined for values in range. *)
Definition int_of_float (f : float) : res Z :=
  match f with
  | S754_zero _ => Ok 0
  | S754_finite s m e =>
      let a := if 0 <=? e then Zpos m * 2 ^ e else Zpos m / 2 ^ (- e) in
      let z := if s then - a else a in
      if (- 2 ^ 31 <=? z) && (z <? 2 ^ 31) then Ok z else Ub
  | _ => Ub
  end.

Definition plus (val : float) (v : TupleValue) : res TupleValue :=
  match v with
  | IntValue x => let? y := int_of_float (SFadd 24 128 (float_of_int x) val) in Ok (IntValue y)
  | FloatValue x => Ok (FloatValue (SFadd 24 128 x val))
  | StringValue _ _ | NullValue => Ub
  end%C.

Definition value (v : TupleValue) : res float :=
  match v with IntValue x => Ok (float_of_int x) | FloatValue x => Ok x | StringValue _ _ | NullValue => Ub end.

(** ** The text of a float *)

Lemma digits_app fuel v rest : digits fuel v rest = digits fuel v [] ++ rest.
Proof.
  revert v rest. induction fuel as [|fuel IH]; intros v rest; cbn [digits]; [done|].
  destruct (v <? 10); [done|]. rewrite IH, (IH _ [_]), <- app_assoc. done.
Qed.

Lemma digits_not_nil fuel v : digits (S fuel) v [] <> [].
Proof.
  cbn [digits]. destruct (v <? 10); [done|]. rewrite digits_app. intros E. by apply app_eq_nil in E as [_ ?].
Qed.

Definition all_digits (s : list Z) : Prop := Forall (fun b => is_digit b = true) s.

Lemma is_digit_mod v : is_digit (48 + v mod 10) = true.
Proof. unfold is_digit. pose proof (Z.mod_pos_bound v 10). lia. Qed.

Lemma digits_value_app s t acc : all_digits s -> digits_value acc (s ++ t) = digits_value (digits_value acc s) t.
Proof.
  intros Hs. revert acc. induction Hs as [|b s Hb Hs IH]; intros acc; cbn [digits_value app]; [done|].
  rewrite Hb. apply IH.
Qed.

(** The digits of a number that has at most [fuel] of them. *)
Lemma digits_spec fuel v :
  0 <= v < 10 ^ Z.of_nat fuel -> all_digits (digits fuel v []) /\ digits_value 0 (digits fuel v []) = v.
Proof.
  revert v. induction fuel as [|fuel IH]; intros v Hv; cbn [digits].
  - split; [constructor|]. simpl. lia.
  - pose proof (is_digit_mod v) as Hd. destruct (Z.ltb_spec v 10).
    + split; [by repeat constructor|]. cbn [digits_value]. rewrite Hd, Z.mod_small by lia. lia.
    + rewrite Nat2Z.inj_succ, Z.pow_succ_r in Hv by lia.
      assert (Hq : 0 <= v / 10 < 10 ^ Z.of_nat fuel).
      { split; [apply Z.div_pos; lia|apply Z.div_lt_upper_bound; lia]. }
      destruct (IH _ Hq) as [Hds Hval]. rewrite digits_app. split.
      * apply Forall_app. split; [done|by repeat constructor].
      * rewrite digits_value_app, Hval by done. cbn [digits_value]. rewrite Hd. pose proof (Z.div_mod v 10). lia.
Qed.

Lemma digits_length fuel v n :
  (0 < n)%nat -> 0 <= v < 10 ^ Z.of_nat fuel -> (length (digits fuel v []) <= n)%nat <-> v < 10 ^ Z.of_nat n.
Proof.
  revert v n. induction fuel as [|fuel IH]; intros v n Hn Hv.
  - simpl in *. split; [|lia]. intros _. pose proof (Z.pow_pos_nonneg 10 (Z.of_nat n)). lia.
  - cbn [digits]. rewrite Nat2Z.inj_succ, Z.pow_succ_r in Hv by lia. destruct (Z.ltb_spec v 10).
    { cbn [length]. split; [|lia]. intros _.
      apply (Z.lt_le_trans _ (10 ^ 1)); [lia|]. apply Z.pow_le_mono_r; lia. }
    assert (Hq : 0 <= v / 10 < 10 ^ Z.of_nat fuel).
    { split; [apply Z.div_pos; lia|apply Z.div_lt_upper_bound; lia]. }
    rewrite digits_app, length_app. cbn [length]. destruct n as [|[|n]]; [lia| |].
    + change (Z.of_nat 1) with 1. rewrite Z.pow_1_r. split; [|lia].
      destruct fuel as [|fuel]; cbn [digits]; [simpl in Hq; pose proof (Z.div_le_lower_bound v 10 1); lia|].
      destruct (v / 10 <? 10); [simpl; lia|]. rewrite digits_app, length_app. simpl; lia.
    + rewrite Nat2Z.inj_succ, Z.pow_succ_r by lia.
      specialize (IH (v / 10) (S n) ltac:(lia) Hq).
      assert (v / 10 < 10 ^ Z.of_nat (S n) <-> v < 10 * 10 ^ Z.of_nat (S n)) as <-.
      { split; intros; [|apply Z.div_lt_upper_bound; lia]. pose proof (Z.mul_succ_div_gt v 10). lia. }
      rewrite <- IH. lia.
Qed.

(** Reading the text back: the number of hundredths. *)
Definition read_fraction (s : list Z) : Z :=
  match s with [] => 0 | [t] => 10 * (t - 48) | t :: o :: _ => 10 * (t - 48) + (o - 48) end.

Fixpoint split_dot (s : list Z) : list Z * list Z :=
  match s with
  | [] => ([], [])
  | b :: s' => if b =? dot then ([], s') else let '(i, f) := split_dot s' in (b :: i, f)
  end.

Definition read_unsigned (s : list Z) : Z :=
  let '(i, f) := split_dot s in 100 * digits_value 0 i + read_fraction f.

Definition read_hundredths (s : list Z) : Z :=
  match s with b :: s' => if b =? dash then - read_unsigned s' else read_unsigned s | [] => 0 end.

Lemma split_dot_digits s t : all_digits s -> split_dot (s ++ t) = (s ++ (split_dot t).1, (split_dot t).2).
Proof.
  induction 1 as [|b s Hb Hs IH]; cbn [split_dot app]; [by destruct (split_dot t)|].
  destruct (Z.eqb_spec b dot) as [->|]; [done|]. by rewrite IH.
Qed.

Lemma read_unsigned_digits s t :
  all_digits s -> (split_dot t).1 = [] ->
  read_unsigned (s ++ t) = 100 * digits_value 0 s + read_fraction (split_dot t).2.
Proof. intros Hs Ht. unfold read_unsigned. by rewrite split_dot_digits, Ht, app_nil_r by done. Qed.

Lemma strip_zeros_padding n r : strip_zeros (replicate n 0 ++ r) = strip_zeros r.
Proof. induction n as [|n IH]; [done|]. simpl. done. Qed.

(** What is left of [int.to] followed by zeros. *)
Lemma strip_fixed i t o n :
  0 <= t < 10 -> 0 <= o < 10 ->
  reverse (strip_zeros (reverse ((i ++ [dot; 48 + t; 48 + o]) ++ replicate n 0))) =
  i ++ (if o =? 0 then if t =? 0 then [] else [dot; 48 + t] else [dot; 48 + t; 48 + o]).
Proof.
  intros Ht Ho. rewrite !reverse_app, reverse_replicate, strip_zeros_padding.
  change (reverse [dot; 48 + t; 48 + o]) with [48 + o; 48 + t; dot]. cbn [app strip_zeros].
  assert (forall d, 0 <= d < 10 -> ((48 + d =? 48) || (48 + d =? 0)) = (d =? 0) /\ (48 + d =? dot) = false) as Hd.
  { intros d Hd. unfold dot. split; [|lia]. destruct (Z.eqb_spec d 0); lia. }
  destruct (Hd o Ho) as [-> E1], (Hd t Ht) as [-> E2]. rewrite E1, E2.
  change ((dot =? 48) || (dot =? 0)) with false. rewrite Z.eqb_refl.
  destruct (o =? 0); [destruct (t =? 0)|];
    rewrite ?reverse_cons, reverse_involutive, ?app_nil_r, <- ?app_assoc; done.
Qed.

(** The hundredths of a number that is zero or finite, with its sign; [None]: infinities and NaN. *)
Definition float_hundredths (f : float) : option (bool * Z) :=
  match f with
  | S754_zero s => Some (s, 0)
  | S754_finite s m e => Some (s, hundredths m e)
  | _ => None
  end.

Lemma hundredths_nonneg m e : 0 <= hundredths m e.
Proof.
  unfold hundredths. destruct (0 <=? e); [apply Z.mul_nonneg_nonneg; lia|].
  assert (0 <= Zpos m * 100 / 2 ^ (- e)) by (apply Z_div_nonneg_nonneg; lia).
  repeat case_match; lia.
Qed.

(** Numbers with up to this many hundredths have a text that fits. *)
Definition text_fits (s : bool) (h : Z) : bool := if s then h <? 10 ^ 17 else h <? 10 ^ 18.

Definition fixed_text (s : bool) (h : Z) : list Z :=
  (if s then [dash] else []) ++ digits 40 (h / 100) [] ++ [dot; 48 + h / 10 mod 10; 48 + h mod 10].

Lemma printf_fixed f s h : float_hundredths f = Some (s, h) -> printf_2f f = fixed_text s h /\ 0 <= h.
Proof.
  destruct f as [b|b| |b m e]; intros E; try discriminate E; injection E as <- <-.
  - split; [reflexivity|lia].
  - split; [reflexivity|apply hundredths_nonneg].
Qed.

Lemma fixed_text_fits s h :
  0 <= h < 10 ^ 42 -> (float_buffer <=? alen (fixed_text s h)) = negb (text_fits s h).
Proof.
  intros Hh. assert (Hq : 0 <= h / 100 < 10 ^ Z.of_nat 40).
  { split; [apply Z.div_pos; lia|apply Z.div_lt_upper_bound; lia]. }
  assert (Hlt : forall n, 0 <= n -> h / 100 < 10 ^ n <-> h < 100 * 10 ^ n).
  { intros n Hn. split; intros; [pose proof (Z.mul_succ_div_gt h 100); lia|apply Z.div_lt_upper_bound; lia]. }
  unfold fixed_text, text_fits, float_buffer, alen. rewrite !length_app. destruct s; cbn [length].
  - pose proof (digits_length 40 (h / 100) 15 ltac:(lia) Hq) as Hl. rewrite (Hlt (Z.of_nat 15)) in Hl by lia.
    change (100 * 10 ^ Z.of_nat 15) with (10 ^ 17) in Hl. destruct (Z.ltb_spec h (10 ^ 17)) as [E|E]; cbn [negb].
    + apply Hl in E. apply Z.leb_gt. lia.
    + apply Z.leb_le. assert (~ h < 10 ^ 17) as En by lia. rewrite <- Hl in En. lia.
  - pose proof (digits_length 40 (h / 100) 16 ltac:(lia) Hq) as Hl. rewrite (Hlt (Z.of_nat 16)) in Hl by lia.
    change (100 * 10 ^ Z.of_nat 16) with (10 ^ 18) in Hl. destruct (Z.ltb_spec h (10 ^ 18)) as [E|E]; cbn [negb].
    + apply Hl in E. apply Z.leb_gt. lia.
    + apply Z.leb_le. assert (~ h < 10 ^ 18) as En by lia. rewrite <- Hl in En. lia.
Qed.

(** The text of a number that fits. *)
Definition short_text (s : bool) (h : Z) : list Z :=
  (if s then [dash] else []) ++ digits 40 (h / 100) [] ++
  (if h mod 10 =? 0 then if h / 10 mod 10 =? 0 then [] else [dot; 48 + h / 10 mod 10]
   else [dot; 48 + h / 10 mod 10; 48 + h mod 10]).

Lemma read_short_text s h : 0 <= h < 10 ^ 42 -> read_hundredths (short_text s h) = if s then - h else h.
Proof.
  intros Hh. assert (Hq : 0 <= h / 100 < 10 ^ Z.of_nat 40).
  { split; [apply Z.div_pos; lia|apply Z.div_lt_upper_bound; lia]. }
  destruct (digits_spec 40 _ Hq) as [Hds Hv].
  assert (Hu : forall u, read_unsigned (digits 40 (h / 100) [] ++ u) = h ->
    read_hundredths ((if s then [dash] else []) ++ digits 40 (h / 100) [] ++ u) = if s then - h else h).
  { intros u Hu. destruct s; cbn [app read_hundredths]; [by rewrite Z.eqb_refl, Hu|].
    destruct (digits 40 (h / 100) []) as [|b ds] eqn:E.
    - by apply digits_not_nil in E.
    - apply Forall_cons_1 in Hds as [Hb _]. cbn [app read_hundredths] in *. destruct (Z.eqb_spec b dash) as [->|]; [done|].
      by rewrite Hu. }
  pose proof (Z.div_mod h 10 ltac:(lia)). pose proof (Z.div_mod (h / 10) 10 ltac:(lia)).
  rewrite Z.div_div in * by lia. change (10 * 10) with 100 in *. unfold short_text. apply Hu.
  destruct (Z.eqb_spec (h mod 10) 0); [destruct (Z.eqb_spec (h / 10 mod 10) 0)|];
    (rewrite read_unsigned_digits by done); rewrite Hv; cbn [split_dot snd read_fraction];
    rewrite ?Z.eqb_refl; cbn [snd read_fraction]; lia.
Qed.

(** Printing a number: with room in the buffer the text reads back as the hundredths to which [%.2f] rounds
    the number, and without it the buffer overflows. *)
Lemma float_text_result f s h :
  float_hundredths f = Some (s, h) -> h < 10 ^ 42 ->
  float_text f = if text_fits s h then Ok (short_text s h) else Ub.
Proof.
  intros Hf Hh. destruct (printf_fixed _ _ _ Hf) as [Ht H0]. unfold float_text. rewrite Ht.
  rewrite fixed_text_fits by done. destruct (text_fits s h); [|done]. cbn [negb]. f_equal.
  unfold fixed_text. rewrite app_assoc, strip_fixed by (apply Z.mod_pos_bound; lia). unfold short_text.
  by rewrite <- app_assoc.
Qed.

Definition binary32 (f : float) : Prop :=
  match f with S754_finite _ m e => Zpos m < 2 ^ 24 /\ -149 <= e <= 104 | _ => True end.

Lemma hundredths_bound m e : Zpos m < 2 ^ 24 -> e <= 104 -> hundredths m e < 10 ^ 42.
Proof.
  intros Hm He. unfold hundredths. destruct (Z.leb_spec 0 e).
  - apply (Z.le_lt_trans _ (2 ^ 24 * 100 * 2 ^ 104)); [|done].
    apply Z.mul_le_mono_nonneg; [lia..|apply Z.pow_nonneg; lia|apply Z.pow_le_mono_r; lia].
  - assert (Hd : 0 < 2 ^ (- e)) by (apply Z.pow_pos_nonneg; lia).
    assert (Zpos m * 100 / 2 ^ (- e) <= Zpos m * 100).
    { apply Z.div_le_upper_bound; [done|]. nia. }
    assert (Zpos m * 100 < 2 ^ 24 * 100) by lia. change (2 ^ 24 * 100) with 1677721600 in *.
    change (10 ^ 42) with 1000000000000000000000000000000000000000000. repeat case_match; lia.
Qed.

(** C37. Printing a float that is a number: the text has at most two decimals, reads back as the value rounded to
    hundredths, and fits into the buffer of 20 characters exactly for values that round to less than 10^16, and for
    negative ones to more than -10^15; any other overruns the buffer on the stack. *)
Theorem float_to_string f s h :
  binary32 f -> float_hundredths f = Some (s, h) ->
  if text_fits s h then exists out, to_string (FloatValue f) = Ok out /\ read_hundredths out = (if s then - h else h)
  else to_string (FloatValue f) = Ub.
Proof.
  intros Hb Hf. assert (Hh : 0 <= h < 10 ^ 42).
  { split; [by eapply printf_fixed|]. destruct f; simpl in Hf; simplify_eq; [done|]. apply hundredths_bound; apply Hb. }
  unfold to_string. rewrite (float_text_result f s h) by (done || lia).
  destruct (text_fits s h); [|done]. eexists. split; [done|]. by apply read_short_text.
Qed.

Lemma float_to_string_witness :
  let f := S754_finite true 14680064 (-24) in
  float_hundredths f = Some (true, 88) /\
  exists out, to_string (FloatValue f) = Ok out /\ read_hundredths out = -88.
Proof.
  simpl. split; [done|].
  exact (float_to_string (S754_finite true 14680064 (-24)) true 88 ltac:(by split_and!) eq_refl).
Defined.

(** ** The order of values *)

(** Values of one column that is not a float column: integers that are not too far apart, or strings. *)
Inductive plain : bool -> TupleValue -> Prop :=
| plain_int x : - 2 ^ 30 <= x < 2 ^ 30 -> plain false (IntValue x)
| plain_string t s : Forall (fun b => 0 < b) s -> plain true (StringValue t s).

(** The same number or the same text. *)
Definition same_value (v w : TupleValue) : Prop :=
  match v, w with
  | IntValue x, IntValue y => x = y
  | StringValue _ s, StringValue _ t => s = t
  | _, _ => False
  end.

Lemma string_compare_cons x y s t :
  0 < x -> 0 < y -> string_compare (x :: s) (y :: t) = if x =? y then string_compare s t else x - y.
Proof.
  intros Hx Hy. unfold string_compare, strcmp. cbn [app length strncmp].
  destruct (Z.eqb_spec x y); cbn [negb]; [|done]. destruct (Z.eqb_spec x 0); [lia|done].
Qed.

Lemma string_compare_nil_l y t : 0 < y -> string_compare [] (y :: t) = - y.
Proof. intros Hy. unfold string_compare, strcmp. cbn [app length strncmp]. destruct (Z.eqb_spec 0 y); [lia|done]. Qed.

Lemma string_compare_nil_r x s : 0 < x -> string_compare (x :: s) [] = x.
Proof.
  intros Hy. unfold string_compare, strcmp. cbn [app length strncmp]. destruct (Z.eqb_spec x 0); cbn [negb]; lia.
Qed.

Lemma string_compare_antisym s t :
  Forall (fun b => 0 < b) s -> Forall (fun b => 0 < b) t -> string_compare t s = - string_compare s t.
Proof.
  intros Hs. revert t. induction Hs as [|x s Hx Hs IH]; intros t Ht; destruct Ht as [|y t Hy Ht]; [done| | |].
  - rewrite string_compare_nil_l, string_compare_nil_r by done. lia.
  - rewrite string_compare_nil_l, string_compare_nil_r by done. lia.
  - rewrite !string_compare_cons by done. rewrite (Z.eqb_sym y x). destruct (x =? y); [by apply IH|lia].
Qed.

Lemma string_compare_trans a b c :
  Forall (fun b => 0 < b) a -> Forall (fun b => 0 < b) b -> Forall (fun b => 0 < b) c ->
  string_compare a b <= 0 -> string_compare b c <= 0 -> string_compare a c <= 0.
Proof.
  intros Ha. revert b c. induction Ha as [|x a Hx Ha IH]; intros b c Hb Hc; destruct Hc as [|z c Hz Hc].
  - done.
  - rewrite (string_compare_nil_l z c) by done. lia.
  - destruct Hb as [|y b Hy Hb]; [tauto|]. rewrite (string_compare_nil_r y b) by done. lia.
  - destruct Hb as [|y b Hy Hb]; [rewrite string_compare_nil_r by done; lia|].
    rewrite !string_compare_cons by done.
    destruct (Z.eqb_spec x y) as [->|], (Z.eqb_spec y z) as [->|]; try lia; [by apply IH| |].
    + destruct (Z.eqb_spec x z); lia.
    + destruct (Z.eqb_spec x z); lia.
Qed.

Lemma string_compare_zero a b :
  Forall (fun b => 0 < b) a -> Forall (fun b => 0 < b) b -> string_compare a b = 0 <-> a = b.
Proof.
  intros Ha. revert b. induction Ha as [|x a Hx Ha IH]; intros b Hb; destruct Hb as [|y b Hy Hb].
  - done.
  - rewrite string_compare_nil_l by done. split; [lia|done].
  - rewrite string_compare_nil_r by done. split; [lia|done].
  - rewrite string_compare_cons by done. destruct (Z.eqb_spec x y) as [->|].
    + rewrite IH by done. split; congruence.
    + split; [lia|congruence].
Qed.

(** The laws of the order of values, for a column without nulls that is not a float column. *)
Lemma compare_plain k v w :
  plain k v -> plain k w ->
  exists c, compare v w = Ok c /\ compare w v = Ok (- c) /\ (c = 0 <-> same_value v w).
Proof.
  destruct 1 as [x Hx|t s Hs]; inversion 1; subst.
  - eexists. unfold compare. rewrite !bool_decide_eq_false_2 by done. cbn [value_pointer read_int res_bind].
    rewrite !int32_id by (unfold is_int32; lia). split_and!; [done|f_equal; lia|simpl; lia].
  - eexists. unfold compare. split_and!; [done|f_equal; by apply string_compare_antisym|by apply string_compare_zero].
Qed.

Lemma compare_plain_trans k u v w a b :
  plain k u -> plain k v -> plain k w ->
  compare u v = Ok a -> compare v w = Ok b -> a <= 0 -> b <= 0 ->
  exists c, compare u w = Ok c /\ c <= 0 /\ (c = 0 -> a = 0 /\ b = 0).
Proof.
  intros Hu Hv Hw. destruct (compare_plain k u w Hu Hw) as (c & Hc & _ & Ez).
  destruct (compare_plain k u v Hu Hv) as (a' & Ha & Ha' & Ea).
  destruct (compare_plain k v w Hv Hw) as (b' & Hb & _ & Eb). rewrite Ha, Hb. intros [= ->] [= ->] La Lb.
  exists c. split; [done|].
  assert (c <= 0) as Lc.
  { destruct Hu as [x Hx|t s Hs]; inversion Hv; inversion Hw; subst; simplify_eq.
    - unfold compare in *. rewrite bool_decide_eq_false_2 in * by done. cbn [value_pointer read_int res_bind] in *.
      rewrite int32_id in * by (unfold is_int32; lia). simplify_eq. lia.
    - unfold compare in *. simplify_eq. eapply string_compare_trans; [| | |exact La|exact Lb]; done. }
  split; [done|]. intros ->. assert (same_value u w) as E by tauto.
  assert (a = 0).
  { destruct (decide (a = 0)); [done|]. exfalso. clear - Hu Hv Hw E Ha Ha' Hb La Lb n Ea.
    assert (compare v u = Ok b).
    { rewrite <- Hb. destruct Hu; inversion Hw; subst; simpl in E; subst; inversion Hv; by subst. }
    rewrite Ha' in *. simplify_eq. lia. }
  split; [done|]. subst a. destruct Ea as [Ea _]. specialize (Ea eq_refl).
  assert (compare v w = compare u w) as Ew.
  { destruct Hu; inversion Hv; subst; simpl in Ea; subst; inversion Hw; by subst. }
  rewrite Hb, Hc in Ew. by simplify_eq.
Qed.

(** In a column of integers of moderate size or of strings, without nulls, [compare] is defined, antisymmetric
    and transitive, and 0 exactly for equal values: the order that sorting and grouping need. *)
Theorem compare_is_order k u v w :
  plain k u -> plain k v -> plain k w ->
  exists a b c, compare u v = Ok a /\ compare v u = Ok (- a) /\ compare v w = Ok b /\ compare u w = Ok c /\
    (a <= 0 -> b <= 0 -> c <= 0) /\ (a <= 0 -> b < 0 -> c < 0) /\ (a = 0 <-> same_value u v).
Proof.
  intros Hu Hv Hw. destruct (compare_plain k u v Hu Hv) as (a & Ha & Ha' & Ea).
  destruct (compare_plain k v w Hv Hw) as (b & Hb & _ & _). destruct (compare_plain k u w Hu Hw) as (c & Hc & _ & _).
  exists a, b, c.
  assert (Ht : a <= 0 -> b <= 0 -> c <= 0 /\ (c = 0 -> a = 0 /\ b = 0)).
  { intros La Lb. destruct (compare_plain_trans k u v w a b Hu Hv Hw Ha Hb La Lb) as (c' & Hc' & ? & ?).
    rewrite Hc in Hc'. by simplify_eq. }
  split_and!; try done; [intros; by apply Ht|]. intros La Lb. destruct (Ht La ltac:(lia)) as [? Hz].
  destruct (decide (c = 0)) as [E|]; [destruct (Hz E)|]; lia.
Qed.

Lemma compare_is_order_witness :
  plain true (new_StringValue [97; 98]) /\
  exists a b c, compare (new_StringValue [97]) (new_StringValue [97; 98]) = Ok a /\
    compare (new_StringValue [97; 98]) (new_StringValue [97]) = Ok (- a) /\
    compare (new_StringValue [97; 98]) (new_StringValue [98]) = Ok b /\
    compare (new_StringValue [97]) (new_StringValue [98]) = Ok c /\
    (a <= 0 -> b <= 0 -> c <= 0) /\ (a <= 0 -> b < 0 -> c < 0) /\
    (a = 0 <-> same_value (new_StringValue [97]) (new_StringValue [97; 98])).
Proof.
  split; [by repeat constructor|].
  apply (compare_is_order true (new_StringValue [97]) (new_StringValue [97; 98]) (new_StringValue [98]));
    by repeat constructor.
Defined.

(** The difference of two integers that are far apart wraps around: the largest [int] is before -1. *)
Lemma compare_wraps : compare (IntValue 2147483647) (IntValue (-1)) = Ok (-2147483648).
Proof. reflexivity. Qed.

(** With the tolerance, equality of floats is not transitive: 0, 0.000006 and 0.000012. *)
Definition six_millionths : float := SFdiv 24 128 (float_of_int 6) (float_of_int 1000000).

Lemma compare_not_transitive :
  let a := FloatValue (float_of_int 0) in
  let b := FloatValue six_millionths in
  let c := FloatValue (SFadd 24 128 six_millionths six_millionths) in
  compare a b = Ok 0 /\ compare b c = Ok 0 /\ compare a c = Ok (-1).
Proof. vm_compute. done. Qed.

(** A null has no place in the order. *)
Lemma compare_null_undefined v : compare NullValue v = Ub /\ compare (IntValue 1) NullValue = Ub.
Proof. done. Qed.
