(* ===== verification/SmallFloats.v ===== *)
(** * Integers in floating point

    Sums, differences and products of floats that stand for integers below 2^24 are exact, and
    their comparison is that of the integers.  The lemmas are on the IEEE operations that
    Values.v uses, for single and double precision at once. *)
From Stdlib Require Import Floats.SpecFloat.
From S2P Require Import Prelude Effects Memory RecordPage KeyCompare Table Values.

Lemma digits2_spec p : 2 ^ (Zpos (digits2_pos p) - 1) <= Zpos p < 2 ^ Zpos (digits2_pos p).
Proof.
  induction p as [p IH|p IH|]; cbn [digits2_pos]; [..|done];
    rewrite Pos2Z.inj_succ; (replace (Z.succ (Zpos (digits2_pos p)) - 1) with (Z.succ (Zpos (digits2_pos p) - 1)) by lia);
    rewrite !Z.pow_succ_r by lia; lia.
Qed.

Lemma digits2_unique p d : 0 < d -> 2 ^ (d - 1) <= Zpos p < 2 ^ d -> Zpos (digits2_pos p) = d.
Proof.
  intros Hd Hp. pose proof (digits2_spec p) as Hs. set (k := Zpos (digits2_pos p)) in *.
  assert (0 < k) by (unfold k; lia).
  destruct (Z.lt_trichotomy k d) as [Hlt|[->|Hlt]]; [|done|].
  - pose proof (Z.pow_le_mono_r 2 k (d - 1)). lia.
  - pose proof (Z.pow_le_mono_r 2 d (k - 1)). lia.
Qed.

(** ** Shifts *)

Definition exactly (m : Z) : shr_record := {| shr_m := m; shr_r := false; shr_s := false |}.

Lemma iter_pos_nat {A} (f : A -> A) p x : SpecFloat.iter_pos f p x = Nat.iter (Pos.to_nat p) f x.
Proof.
  revert x. induction p as [p IH|p IH|]; intros x; cbn [SpecFloat.iter_pos]; [..|done]; rewrite !IH, <- Nat.iter_add.
  - rewrite Pos2Nat.inj_xI. rewrite Nat.iter_succ_r. f_equal. lia.
  - rewrite Pos2Nat.inj_xO. f_equal. lia.
Qed.

Lemma shr_1_even b : 0 <= b -> shr_1 (exactly (2 * b)) = exactly b.
Proof. intros Hb. destruct b; [done|done|lia]. Qed.

Lemma shr_exact m e n : 0 <= m -> 0 <= n -> shr (exactly (m * 2 ^ n)) e n = (exactly m, e + n).
Proof.
  intros Hm Hn. destruct n as [|p|p]; [|clear Hn|lia].
  { cbn [shr]. change (2 ^ 0) with 1. by rewrite Z.mul_1_r, Z.add_0_r. }
  cbn [shr]. f_equal. rewrite iter_pos_nat, <- (positive_nat_Z p). generalize (Pos.to_nat p) as k. intros k.
  induction k as [|k IH]; [change (2 ^ Z.of_nat 0) with 1; by rewrite Z.mul_1_r|].
  rewrite Nat.iter_succ_r, Nat2Z.inj_succ, Z.pow_succ_r by lia.
  replace (m * (2 * 2 ^ Z.of_nat k)) with (2 * (m * 2 ^ Z.of_nat k)) by lia.
  rewrite shr_1_even by (apply Z.mul_nonneg_nonneg; [done|apply Z.pow_nonneg; lia]). exact IH.
Qed.

Lemma iter_xO p k : Zpos (Pos.iter xO p k) = Zpos p * 2 ^ Zpos k.
Proof.
  induction k as [|k IH] using Pos.peano_ind; [simpl; lia|].
  rewrite Pos.iter_succ, Pos2Z.inj_succ, Z.pow_succ_r by lia. lia.
Qed.

Lemma shl_align_spec m e e' :
  e' <= e -> Zpos (shl_align m e e').1 = Zpos m * 2 ^ (e - e') /\ (shl_align m e e').2 = e'.
Proof.
  intros He. unfold shl_align. destruct (e' - e) as [|k|k] eqn:E; [|lia|].
  - replace (e - e') with 0 by lia. simpl. lia.
  - cbn [fst snd]. rewrite iter_xO. replace (e - e') with (Zpos k) by lia. done.
Qed.

(** ** Floats that stand for integers *)

Section precision.
Variables prec emax : Z.
Hypothesis Hprec : 24 <= prec.
Hypothesis Hemax : 2 * prec <= emax.

(** The normal form of an integer with less than [prec] + 1 bits. *)
Definition int_value (f : spec_float) (z : Z) : Prop :=
  match f with
  | S754_zero _ => z = 0
  | S754_finite s m e =>
      - prec < e <= 0 /\ 2 ^ (prec - 1) <= Zpos m < 2 ^ prec /\ Zpos m = (if s then - z else z) * 2 ^ (- e)
  | _ => False
  end.

Lemma fexp_normal d : 1 - prec <= d - prec -> fexp prec emax d = d - prec.
Proof using Hprec Hemax. unfold fexp, emin. lia. Qed.

(** The number of digits of a multiple. *)
Lemma digits_multiple p a e :
  0 < a < 2 ^ prec -> e <= 0 -> Zpos p = a * 2 ^ (- e) ->
  1 <= Zpos (digits2_pos p) + e <= prec.
Proof using Hprec.
  intros Ha He Hp. pose proof (digits2_spec p) as [H1 H2]. set (d := Zpos (digits2_pos p)) in *.
  assert (0 < d) by (unfold d; lia). rewrite Hp in *. pose proof (Z.pow_pos_nonneg 2 (- e) ltac:(lia) ltac:(lia)).
  split.
  - destruct (decide (- e < d)); [lia|]. pose proof (Z.pow_le_mono_r 2 d (- e)). nia.
  - destruct (decide (d - 1 < prec + - e)); [lia|]. pose proof (Z.pow_le_mono_r 2 (prec + - e) (d - 1)).
    rewrite Z.pow_add_r in * by lia. nia.
Qed.

Lemma round_exact s p a e :
  0 < a < 2 ^ prec -> e <= 0 -> Zpos p = a * 2 ^ (- e) -> prec <= Zpos (digits2_pos p) ->
  int_value (binary_round_aux prec emax s (Zpos p) e loc_Exact) (if s then - a else a).
Proof using Hprec Hemax.
  intros Ha He Hp Hd. pose proof (digits_multiple p a e Ha He Hp) as Hn. pose proof (digits2_spec p) as Hs.
  set (d := Zpos (digits2_pos p)) in *. set (n := d - prec). set (m := a * 2 ^ (- e - n)).
  assert (Hm : Zpos p = m * 2 ^ n).
  { unfold m. rewrite <- Z.mul_assoc, <- Z.pow_add_r by lia. rewrite Hp. do 2 f_equal. lia. }
  assert (Hpos : 0 < 2 ^ n) by (apply Z.pow_pos_nonneg; lia).
  assert (Hrange : 2 ^ (prec - 1) <= m < 2 ^ prec).
  { replace (d - 1) with (prec - 1 + n) in Hs by lia. replace d with (prec + n) in Hs by lia.
    rewrite !Z.pow_add_r in Hs by lia. rewrite Hm in Hs. nia. }
  assert (Hshr : shr_fexp prec emax (Zpos p) e loc_Exact = (exactly m, e + n)).
  { unfold shr_fexp. cbn [Zdigits2]. fold d. rewrite fexp_normal by lia.
    replace (d + e - prec - e) with n by lia. rewrite Hm. apply shr_exact; lia. }
  unfold binary_round_aux. rewrite Hshr. cbn [shr_m exactly loc_of_shr_record round_nearest_even].
  destruct m as [|q|q] eqn:Em; [pose proof (Z.pow_pos_nonneg 2 (prec - 1)); lia| |pose proof (Z.pow_pos_nonneg 2 (prec - 1)); lia].
  assert (Hq : shr_fexp prec emax (Zpos q) (e + n) loc_Exact = (exactly (Zpos q), e + n)).
  { unfold shr_fexp. cbn [Zdigits2]. rewrite (digits2_unique q prec) by lia. rewrite fexp_normal by lia.
    replace (prec + (e + n) - prec - (e + n)) with 0 by lia. done. }
  rewrite Hq. cbn [shr_m exactly]. destruct (Z.leb_spec (e + n) (emax - prec)); [|lia].
  cbn [int_value]. split_and!; [lia|lia|lia|lia|]. rewrite <- Em. unfold m. replace (- e - n) with (- (e + n)) by lia.
  destruct s; lia.
Qed.

Lemma normalize_exact z m e sz :
  - 2 ^ prec < z < 2 ^ prec -> e <= 0 -> m = z * 2 ^ (- e) -> int_value (binary_normalize prec emax m e sz) z.
Proof using Hprec Hemax.
  intros Hz He Hm.
  assert (Hround : forall s p a, 0 < a < 2 ^ prec -> Zpos p = a * 2 ^ (- e) ->
    int_value (binary_round prec emax s p e) (if s then - a else a)).
  { intros s p a Ha Hp. pose proof (digits_multiple p a e Ha He Hp) as Hn. pose proof (digits2_spec p) as Hs.
    unfold binary_round. rewrite fexp_normal by lia. set (d := Zpos (digits2_pos p)) in *.
    destruct (decide (d < prec)) as [Hlt|Hge].
    - destruct (shl_align_spec p e (d + e - prec) ltac:(lia)) as [E1 E2].
      destruct (shl_align p e (d + e - prec)) as [mz ez]. cbn [fst snd] in *. subst ez.
      replace (e - (d + e - prec)) with (prec - d) in E1 by lia.
      apply round_exact; [done|lia| |].
      + rewrite E1, Hp, <- Z.mul_assoc, <- Z.pow_add_r by lia. do 2 f_equal. lia.
      + rewrite (digits2_unique mz prec); [lia|lia|]. rewrite E1.
        assert (0 < 2 ^ (prec - d)) by (apply Z.pow_pos_nonneg; lia).
        assert (2 ^ (prec - 1) = 2 ^ (d - 1) * 2 ^ (prec - d)) as -> by (rewrite <- Z.pow_add_r by lia; f_equal; lia).
        assert (2 ^ prec = 2 ^ d * 2 ^ (prec - d)) as -> by (rewrite <- Z.pow_add_r by lia; f_equal; lia). nia.
    - unfold shl_align. destruct (d + e - prec - e) eqn:E; [|apply round_exact; lia|lia].
      apply round_exact; lia. }
  pose proof (Z.pow_pos_nonneg 2 (- e) ltac:(lia) ltac:(lia)). destruct m as [|p|p]; cbn [binary_normalize].
  - cbn. nia.
  - apply (Hround false p z); nia.
  - assert (int_value (binary_round prec emax true p e) (- - z)) by (apply (Hround true p (- z)); nia).
    by replace (- - z) with z in * by lia.
Qed.
End precision.

(** ** Single precision *)

Abbreviation int_float := (int_value 24).
Definition small (z : Z) : Prop := - 2 ^ 24 < z < 2 ^ 24.

Lemma float_of_int_exact z : small z -> int_float (float_of_int z) z.
Proof. intros Hz. apply normalize_exact; [lia|lia|done|lia|]. change (2 ^ (- 0)) with 1. lia. Qed.

(** A mantissa brought to a smaller exponent. *)
Lemma shl_align_int s m e z ez :
  int_float (S754_finite s m e) z -> ez <= e ->
  cond_Zopp s (Zpos (shl_align m e ez).1) = z * 2 ^ (- ez).
Proof.
  intros (He & _ & Hm) Hle. destruct (shl_align_spec m e ez Hle) as [-> _]. rewrite Hm.
  assert (forall x, x * 2 ^ (- e) * 2 ^ (e - ez) = x * 2 ^ (- ez)) as E.
  { intros x. rewrite <- Z.mul_assoc, <- Z.pow_add_r by lia. do 2 f_equal. lia. }
  rewrite E. destruct s; simpl cond_Zopp; lia.
Qed.

Lemma SFadd_exact x y a b :
  int_float x a -> int_float y b -> small (a + b) -> int_float (SFadd 24 128 x y) (a + b).
Proof.
  intros Hx Hy Hs. destruct x as [sx|sx| |sx mx ex]; try done; destruct y as [sy|sy| |sy my ey]; try done.
  - simpl in Hx, Hy. subst. by destruct sx, sy.
  - simpl in Hx. subst a. exact Hy.
  - simpl in Hy. subst b. by rewrite Z.add_0_r.
  - cbn [SFadd]. apply normalize_exact; [lia|lia|done|destruct Hx, Hy; lia|].
    rewrite (shl_align_int sx mx ex a), (shl_align_int sy my ey b) by (done || lia). lia.
Qed.

Lemma int_value_opp s m e z : int_float (S754_finite s m e) z -> int_float (S754_finite (negb s) m e) (- z).
Proof. intros (H1 & H2 & H3). split_and!; try done; destruct s; simpl; lia. Qed.

Lemma SFsub_exact x y a b :
  int_float x a -> int_float y b -> small (a - b) -> int_float (SFsub 24 128 x y) (a - b).
Proof.
  intros Hx Hy Hs. destruct x as [sx|sx| |sx mx ex]; try done; destruct y as [sy|sy| |sy my ey]; try done.
  - simpl in Hx, Hy. subst. by destruct sx, sy.
  - simpl in Hx. subst a. by apply int_value_opp.
  - simpl in Hy. subst b. by rewrite Z.sub_0_r.
  - cbn [SFsub]. apply normalize_exact; [lia|lia|done|destruct Hx, Hy; lia|].
    rewrite (shl_align_int sx mx ex a), (shl_align_int sy my ey b) by (done || lia). lia.
Qed.

(** A finite float is not zero, and its sign is that of the integer. *)
Lemma int_float_sign s m e z : int_float (S754_finite s m e) z -> 0 < if s then - z else z.
Proof.
  intros (He & _ & Hm). pose proof (Z.pow_pos_nonneg 2 (- e) ltac:(lia) ltac:(lia)).
  destruct (decide (0 < if s then - z else z)); [done|]. nia.
Qed.

Lemma SFmul_exact x y a b :
  int_float x a -> int_float y b -> small (a * b) -> int_float (SFmul 24 128 x y) (a * b).
Proof.
  intros Hx Hy Hs. destruct x as [sx|sx| |sx mx ex]; try done; destruct y as [sy|sy| |sy my ey]; try done.
  - simpl in Hx. by subst.
  - simpl in Hx. by subst.
  - simpl in Hy. subst. simpl. lia.
  - pose proof (int_float_sign _ _ _ _ Hx) as Sx. pose proof (int_float_sign _ _ _ _ Hy) as Sy.
    destruct Hx as (Ex & Rx & Mx), Hy as (Ey & Ry & My). cbn [SFmul]. unfold small in Hs.
    set (c := (if sx then - a else a) * (if sy then - b else b)).
    assert (Hc : (if xorb sx sy then - c else c) = a * b) by (unfold c; destruct sx, sy; simpl; lia).
    rewrite <- Hc. apply round_exact; [lia|lia| |lia| |].
    + unfold c. destruct sx, sy; simpl in *; nia.
    + rewrite Pos2Z.inj_mul, Mx, My. unfold c. replace (- (ex + ey)) with (- ex + - ey) by lia.
      rewrite Z.pow_add_r by lia. lia.
    + destruct (digits2_spec (mx * my)) as [_ Hd]. set (d := Zpos (digits2_pos (mx * my))) in *.
      destruct (decide (24 <= d)); [done|]. pose proof (Z.pow_le_mono_r 2 d 23).
      rewrite Pos2Z.inj_mul in Hd. change (2 ^ (24 - 1)) with (2 ^ 23) in *. nia.
Qed.

(** ** Comparison *)

Lemma double_exact f z : int_float f z -> small z -> int_value 53 (double_of_float f) z.
Proof.
  intros Hf Hz. destruct f as [s|s| |s m e]; try done. destruct Hf as (He & _ & Hm).
  cbn [double_of_float]. apply normalize_exact; [lia|lia|unfold small in Hz; lia|lia|]. destruct s; lia.
Qed.

Lemma double_sign s m e z : int_value 53 (S754_finite s m e) z -> 0 < if s then - z else z.
Proof.
  intros (He & _ & Hm). pose proof (Z.pow_pos_nonneg 2 (- e) ltac:(lia) ltac:(lia)).
  destruct (decide (0 < if s then - z else z)); [done|]. nia.
Qed.

(** The tolerance is below the distance of integers. *)
Lemma sign_of_exact f z : int_float f z -> small z -> sign_of f = Ok (Z.sgn z).
Proof.
  intros Hf Hz. pose proof (double_exact f z Hf Hz) as Hd. unfold sign_of.
  destruct f as [s|s| |s m e]; try done; [simpl in Hf; subst; reflexivity|].
  pose proof (int_float_sign _ _ _ _ Hf) as Hs.
  destruct (double_of_float (S754_finite s m e)) as [s'|s'| |s' m' e']; try done.
  { simpl in Hd. subst. destruct s; lia. }
  pose proof (double_sign _ _ _ _ Hd) as Hs'. destruct Hd as (He & _).
  assert (s' = s) as -> by (destruct s, s'; lia || done).
  unfold SFltb, SFopp, eps5, SFcompare. destruct s; cbn [negb andb].
  - destruct (Z.compare_spec (-69) e'); [lia| |lia]. cbn. rewrite Z.sgn_neg by lia. done.
  - destruct (Z.compare_spec e' (-69)); [lia|lia|]. cbn. rewrite Z.sgn_pos by lia. done.
Qed.

Lemma compare_floats x y a b :
  int_float x a -> int_float y b -> small (a - b) ->
  compare (FloatValue x) (FloatValue y) = Ok (Z.sgn (a - b)).
Proof.
  intros Hx Hy Hs. unfold compare. cbn [Type_of]. rewrite bool_decide_eq_true_2 by done. cbn [value_pointer read_float res_bind].
  apply sign_of_exact; [|done]. by apply SFsub_exact.
Qed.

(** Counting by one in single precision: exact below 2^24, and from there on without effect. *)
Lemma count_up x n : int_float x n -> small (n + 1) -> int_float (SFadd 24 128 x (float_of_int 1)) (n + 1).
Proof. intros Hx Hn. apply SFadd_exact; [done| |done]. apply float_of_int_exact. unfold small; lia. Qed.

Lemma count_stops : SFadd 24 128 (float_of_int (2 ^ 24)) (float_of_int 1) = float_of_int (2 ^ 24).
Proof. vm_compute. done. Qed.

(** ** The bits of a float *)

Lemma bits_normal s m e :
  2 ^ 23 <= Zpos m < 2 ^ 24 -> -149 <= e <= 104 ->
  0 <= bits_of_float (S754_finite s m e) < 2 ^ 32 /\ float_of_bits (bits_of_float (S754_finite s m e)) = S754_finite s m e.
Proof.
  intros Hm He. set (sg := if s then 1 else 0). set (M := Zpos m - 2 ^ 23).
  assert (Hu : bits_of_float (S754_finite s m e) = sg * 2 ^ 31 + ((e + 150) * 2 ^ 23 + M)).
  { unfold bits_of_float. rewrite (proj2 (Z.ltb_ge _ _)) by lia.
    replace (Zpos m mod 2 ^ 23) with M by (apply (Z.mod_unique _ _ 1); unfold M; lia). unfold sg. destruct s; lia. }
  rewrite Hu. assert (HM : 0 <= M < 2 ^ 23) by (unfold M; lia). assert (Hsg : 0 <= sg <= 1) by (unfold sg; destruct s; lia).
  split; [nia|]. unfold float_of_bits.
  assert (E1 : (sg * 2 ^ 31 + ((e + 150) * 2 ^ 23 + M)) / 2 ^ 31 = sg).
  { rewrite Z.div_add_l by lia. rewrite Z.div_small by nia. lia. }
  assert (E2 : (sg * 2 ^ 31 + ((e + 150) * 2 ^ 23 + M)) / 2 ^ 23 = sg * 2 ^ 8 + (e + 150)).
  { replace (sg * 2 ^ 31 + ((e + 150) * 2 ^ 23 + M)) with ((sg * 2 ^ 8 + (e + 150)) * 2 ^ 23 + M) by lia.
    rewrite Z.div_add_l by lia. rewrite (Z.div_small M) by lia. lia. }
  assert (E3 : (sg * 2 ^ 31 + ((e + 150) * 2 ^ 23 + M)) mod 2 ^ 23 = M).
  { replace (sg * 2 ^ 31 + ((e + 150) * 2 ^ 23 + M)) with (M + (sg * 2 ^ 8 + (e + 150)) * 2 ^ 23) by lia.
    rewrite Z.mod_add by lia. apply Z.mod_small; lia. }
  assert (E4 : (sg * 2 ^ 8 + (e + 150)) mod 2 ^ 8 = e + 150).
  { rewrite Z.add_comm, Z.mod_add by lia. apply Z.mod_small; lia. }
  rewrite E1, E2, E3, E4. rewrite (proj2 (Z.eqb_neq _ _)), (proj2 (Z.eqb_neq _ _)) by lia.
  replace (M + 2 ^ 23) with (Zpos m) by (unfold M; lia). f_equal; [unfold sg; by destruct s|lia].
Qed.

(** A small integer in the memory of a float. *)
Lemma int_bits_read n rest : small n ->
  float_at (le32 (int32 (bits_of_float (float_of_int n))) ++ rest) = float_of_int n.
Proof.
  intros Hn. pose proof (float_of_int_exact n Hn) as Hx. unfold float_at, rd32.
  assert (El : load (le32 (int32 (bits_of_float (float_of_int n))) ++ rest) 0 4 = le32 (int32 (bits_of_float (float_of_int n)))) by done.
  rewrite El, of_le32_le32 by apply int32_range.
  assert (Hb : 0 <= bits_of_float (float_of_int n) < 2 ^ 32 /\ float_of_bits (bits_of_float (float_of_int n)) = float_of_int n).
  { destruct (float_of_int n) as [s| | |s m e]; try done; [by destruct s|]. destruct Hx as (He & Hm & _). apply bits_normal; lia. }
  destruct Hb as [Hr Hb]. rewrite <- Hb at 2. f_equal. unfold uint32, int32.
  rewrite Zminus_mod_idemp_l. rewrite <- (Z.mod_small (bits_of_float (float_of_int n)) (2 ^ 32)) at 2 by lia. f_equal. lia.
Qed.

(** ** Quotients *)

(** Where [N / D] lies between [m] and [m + 1]. *)
Definition located (m : Z) (l : location) (N D : Z) : Prop :=
  exists k, N = m * D + k /\ 0 <= k < D /\ l = if k =? 0 then loc_Exact else loc_Inexact (2 * k ?= D).

Lemma new_location_located q k D : 0 <= k < D -> located q (new_location D k) (q * D + k) D.
Proof.
  intros Hk. exists k. split_and!; [done|lia|lia|]. unfold new_location, new_location_even, new_location_odd.
  destruct (Z.even D) eqn:Ev; destruct (Z.eqb_spec k 0); try done. f_equal.
  assert (2 * k <> D).
  { intros <-. rewrite Z.even_mul in Ev. done. }
  destruct (Z.compare_spec (2 * k + 1) D), (Z.compare_spec (2 * k) D); try done; lia.
Qed.

Lemma record_location m l : shr_m (shr_record_of_loc m l) = m /\ loc_of_shr_record (shr_record_of_loc m l) = l.
Proof. destruct l as [|[]]; done. Qed.

Lemma shr_1_located m l N D : 0 < m -> 0 < D -> located m l N D ->
  let r := shr_1 (shr_record_of_loc m l) in shr_m r = m / 2 /\ located (shr_m r) (loc_of_shr_record r) N (2 * D).
Proof.
  intros Hm HD (k & HN & Hk & ->) r.
  assert (Hr : exists b, m = 2 * (m / 2) + b /\ (b = 0 \/ b = 1) /\ shr_m r = m / 2 /\
    loc_of_shr_record r = if b =? 0 then (if k =? 0 then loc_Exact else loc_Inexact Lt) else (if k =? 0 then loc_Inexact Eq else loc_Inexact Gt)).
  { unfold r. destruct m as [|p|p]; [lia| |lia]. destruct p as [p|p|].
    - exists 1. assert (E : Zpos p~1 / 2 = Zpos p) by (symmetry; apply (Z.div_unique _ _ _ 1); lia). rewrite E. split_and!; [lia|by right| |];
        destruct (k =? 0), (2 * k ?= D); done.
    - exists 0. assert (E : Zpos p~0 / 2 = Zpos p) by (symmetry; apply (Z.div_unique _ _ _ 0); lia). rewrite E. split_and!; [lia|by left| |];
        destruct (k =? 0), (2 * k ?= D); done.
    - exists 1. split_and!; [done|by right| |]; destruct (k =? 0), (2 * k ?= D); done. }
  destruct Hr as (b & Eb & Hb & Em & El). split; [done|]. rewrite Em, El. exists (b * D + k).
  split_and!; [nia|nia|nia|]. destruct Hb as [-> | ->]; cbn [Z.eqb].
  - rewrite Z.mul_0_l, Z.add_0_l. destruct (Z.eqb_spec k 0); [done|]. f_equal. symmetry. apply Z.compare_lt_iff. lia.
  - rewrite Z.mul_1_l. rewrite (proj2 (Z.eqb_neq (D + k) 0)) by lia. destruct (Z.eqb_spec k 0); f_equal; symmetry.
    + apply Z.compare_eq_iff. lia.
    + apply Z.compare_gt_iff. lia.
Qed.

Lemma round_located m l N D : located m l N D ->
  m <= round_nearest_even m l <= m + 1 /\ 2 * Z.abs (round_nearest_even m l * D - N) <= D.
Proof.
  intros (k & -> & Hk & ->). unfold round_nearest_even. destruct (Z.eqb_spec k 0); [lia|].
  destruct (Z.compare_spec (2 * k) D); [destruct (Z.even m)| |]; lia.
Qed.

(** Rounding to 24 digits: an error of half a unit in the last place. *)
Lemma round_nearest s q l e N D :
  2 ^ 23 <= q < 2 ^ 25 -> -148 <= e <= 100 -> 0 < D -> located q l N D ->
  exists m e' j, binary_round_aux 24 128 s q e l = S754_finite s m e' /\ 2 ^ 23 <= Zpos m < 2 ^ 24 /\
    e' = e + j /\ 0 <= j <= 2 /\ 2 * Z.abs (Zpos m * (D * 2 ^ j) - N) <= D * 2 ^ j.
Proof.
  intros Hq He HD Hl.
  assert (Hdig : forall z d, 0 < d -> 2 ^ (d - 1) <= z < 2 ^ d -> Zdigits2 z = d).
  { intros z d Hd Hz. destruct z as [|p|p]; [pose proof (Z.pow_pos_nonneg 2 (d - 1)); lia| |pose proof (Z.pow_pos_nonneg 2 (d - 1)); lia].
    by apply digits2_unique. }
  assert (Hfexp : forall d x, -148 <= x <= 102 -> 24 <= d <= 25 -> fexp 24 128 (d + x) - x = d - 24) by (intros; unfold fexp, SpecFloat.emin; lia).
  assert (Hend : forall m l0 x, 2 ^ 23 <= m < 2 ^ 24 -> -148 <= x <= 101 -> forall N0 D0, 0 < D0 -> located m l0 N0 D0 ->
    exists p e' j, (let '(mrs'', e'') := shr_fexp 24 128 (round_nearest_even m l0) x loc_Exact in
       match shr_m mrs'' with
       | Z0 => S754_zero s
       | Zpos m => if Z.leb e'' (Z.sub 128 24) then S754_finite s m e'' else S754_infinity s
       | _ => S754_nan
       end) = S754_finite s p e' /\ 2 ^ 23 <= Zpos p < 2 ^ 24 /\ e' = x + j /\ 0 <= j <= 1 /\ 2 * Z.abs (Zpos p * (D0 * 2 ^ j) - N0) <= D0 * 2 ^ j).
  { intros m l0 x Hm Hx N0 D0 HD0 Hl0. destruct (round_located _ _ _ _ Hl0) as [Hr Herr]. set (r := round_nearest_even m l0) in *.
    unfold shr_fexp. destruct (decide (r = 2 ^ 24)) as [E|E].
    - rewrite E, (Hdig (2 ^ 24) 25), Hfexp by lia.
      match goal with |- context [shr ?r x ?n] => change (shr r x n) with (Build_shr_record 8388608 false false, x + 1) end.
      cbn [shr_m]. rewrite (proj2 (Z.leb_le (x + 1) (128 - 24))) by lia.
      exists 8388608%positive, (x + 1), 1. split_and!; [done|done|done|lia|lia|lia|]. rewrite E in Herr. lia.
    - rewrite (Hdig r 24), Hfexp by lia. change (shr _ x (24 - 24)) with (shr_record_of_loc r loc_Exact, x).
      cbn [shr_record_of_loc shr_m]. destruct r as [|p|p]; [lia| |lia]. rewrite (proj2 (Z.leb_le x (128 - 24))) by lia.
      exists p, x, 0. split_and!; [done|lia|lia|lia|lia|lia|lia]. }
  unfold binary_round_aux. destruct (decide (q < 2 ^ 24)) as [Hs|Hs].
  - assert (E : shr_fexp 24 128 q e l = (shr_record_of_loc q l, e)).
    { unfold shr_fexp. by rewrite (Hdig q 24), Hfexp by lia. }
    rewrite E. destruct (record_location q l) as [-> ->].
    destruct (Hend q l e ltac:(lia) ltac:(lia) N D HD Hl) as (p & e' & j & -> & ? & ? & ? & ?). exists p, e', j. split_and!; (done || lia).
  - assert (E : shr_fexp 24 128 q e l = (shr_1 (shr_record_of_loc q l), e + 1)).
    { unfold shr_fexp. by rewrite (Hdig q 25), Hfexp by lia. }
    rewrite E. destruct (shr_1_located q l N D ltac:(lia) HD Hl) as [Em Hl']. rewrite Em in *.
    assert (2 ^ 23 <= q / 2 < 2 ^ 24) by (split; [apply Z.div_le_lower_bound; lia|apply Z.div_lt_upper_bound; lia]).
    destruct (Hend (q / 2) (loc_of_shr_record (shr_1 (shr_record_of_loc q l))) (e + 1) ltac:(lia) ltac:(lia) N (2 * D) ltac:(lia) Hl')
      as (p & e' & j & -> & ? & ? & ? & Herr). exists p, e', (j + 1).
    rewrite Z.pow_add_r by lia. split_and!; try (done || lia).
Qed.

(** [q] differs from [s / c] by at most half a unit in its last place. *)
Definition nearest (q : float) (s c : Z) : Prop :=
  match q with
  | S754_zero _ => s = 0
  | S754_finite b m e =>
      2 ^ 23 <= Zpos m < 2 ^ 24 /\
      2 * Z.abs ((if b then Zneg m else Zpos m) * c * 2 ^ Z.max e 0 - s * 2 ^ Z.max (- e) 0) <= c * 2 ^ Z.max e 0
  | _ => False
  end.

Lemma digits_24 p : 2 ^ 23 <= Zpos p < 2 ^ 24 -> Zdigits2 (Zpos p) = 24.
Proof. intros Hp. by apply digits2_unique. Qed.

(** The bound on the error, without the common power of two. *)
Lemma error_scaled p b a k l : 0 < b -> 0 <= k -> 0 <= l ->
  2 * Z.abs (p * (b * 2 ^ l) - a * 2 ^ k) <= b * 2 ^ l ->
  2 * Z.abs (p * b * 2 ^ Z.max (l - k) 0 - a * 2 ^ Z.max (- (l - k)) 0) <= b * 2 ^ Z.max (l - k) 0.
Proof.
  intros Hb Hk Hl Herr. set (u := Z.max (l - k) 0). set (v := Z.max (- (l - k)) 0). set (w := Z.min l k).
  assert (El : 2 ^ l = 2 ^ u * 2 ^ w) by (rewrite <- Z.pow_add_r by lia; f_equal; lia).
  assert (Ek : 2 ^ k = 2 ^ v * 2 ^ w) by (rewrite <- Z.pow_add_r by lia; f_equal; lia).
  pose proof (Z.pow_pos_nonneg 2 w ltac:(lia) ltac:(lia)) as Hw. rewrite El, Ek in Herr.
  replace (p * (b * (2 ^ u * 2 ^ w)) - a * (2 ^ v * 2 ^ w)) with ((p * b * 2 ^ u - a * 2 ^ v) * 2 ^ w) in Herr by ring.
  rewrite Z.abs_mul, (Z.abs_eq (2 ^ w)) in Herr by lia. nia.
Qed.

(** The quotient of two small integers is the nearest float. *)
Lemma SFdiv_nearest x y a b :
  int_float x a -> int_float y b -> 0 < b -> nearest (SFdiv 24 128 x y) a b.
Proof.
  intros Hx Hy Hb. destruct x as [sx|sx| |sx mx ex]; try done; destruct y as [sy|sy| |sy my ey]; try done.
  - simpl in Hy. lia.
  - simpl in Hy. lia.
  - pose proof (int_float_sign _ _ _ _ Hx) as Sx. destruct Hx as (Ex & Rx & Mx), Hy as (Ey & Ry & My).
    assert (sy = false) as -> by (destruct sy; [nia|done]). change (24 - 1) with 23 in *.
    cbn [SFdiv]. unfold SFdiv_core_binary. rewrite !digits_24 by done.
    assert (E : Z.min (fexp 24 128 (24 + ex - (24 + ey))) (ex - ey) = ex - ey - 24) by (unfold fexp, emin; lia).
    rewrite E. replace (ex - ey - (ex - ey - 24)) with 24 by lia. rewrite Z.shiftl_mul_pow2 by lia.
    pose proof (Z_div_mod (Zpos mx * 2 ^ 24) (Zpos my) ltac:(lia)) as Hdm.
    destruct (Z.div_eucl (Zpos mx * 2 ^ 24) (Zpos my)) as [q r]. destruct Hdm as [Hq Hr].
    pose proof (new_location_located q r (Zpos my) Hr) as Hl. rewrite (Z.mul_comm q), <- Hq in Hl.
    assert (Hqb : 2 ^ 23 <= q < 2 ^ 25).
    { split; [apply Z.le_ngt; intros ?; assert ((q + 1) * Zpos my <= 2 ^ 23 * Zpos my) by nia; lia|].
      apply Z.lt_nge. intros ?. assert (2 ^ 25 * Zpos my <= q * Zpos my) by nia. lia. }
    destruct (round_nearest (xorb sx false) q _ (ex - ey - 24) _ (Zpos my) Hqb ltac:(lia) ltac:(lia) Hl)
      as (p & e' & j & -> & Hp & -> & Hj & Herr). rewrite xorb_false_r. split; [done|].
    replace (ex - ey - 24 + j) with (j - ey - (24 - ex)) by lia.
    rewrite Mx, My, <- !Z.mul_assoc, <- !Z.pow_add_r in Herr by lia.
    replace (- ey + j) with (j - ey) in Herr by lia. replace (- ex + 24) with (24 - ex) in Herr by lia.
    apply error_scaled in Herr; [|lia..]. destruct sx; [|done].
    rewrite <- Z.abs_opp. rewrite <- Z.abs_opp in Herr.
    replace (- (Zneg p * b * 2 ^ Z.max (j - ey - (24 - ex)) 0 - a * 2 ^ Z.max (- (j - ey - (24 - ex))) 0))
      with (Zpos p * b * 2 ^ Z.max (j - ey - (24 - ex)) 0 - - a * 2 ^ Z.max (- (j - ey - (24 - ex))) 0) by lia.
    rewrite <- Z.abs_opp. done.
Qed.
