(* ===== verification/TableScan.v ===== *)
(** * Tables (storage/common/table.cpp): scans, the statements on a table, files

    The two kinds of scan with the functions that are called back for every record, the update and
    the deletion with a condition, the creation of an index, and the functions that create,
    open, drop and flush a table.  The context of a call-back is a value of its own type. *)
From Stdlib Require Import String.
From S2P Require Import Prelude ReturnCode Effects Bitmap Memory Replacer OsFile BufferPool.
From S2P Require Import RecordPage RecordFile KeyCompare BTreeNode BTree BTreeScan Dates TableMeta.
From S2P Require Import ConditionFilter Trx Index Table.

(** A pointer to a [ConditionFilter]; [OtherFilters] is a CompositeConditionFilter of filters of another class, for which
    no index is looked for. *)
Inductive TableFilter :=
| AnyRecord
| DefaultFilter (f : DefaultConditionFilter)
| CompositeFilter (fs : CompositeConditionFilter)
| OtherFilters (fs : list (list Z -> bool)).

(** [filter->filter(record)]. *)
Definition filter_record (flt : TableFilter) (rec : list Z) : bool :=
  match flt with
  | AnyRecord => true
  | DefaultFilter f => cf_filter f rec
  | CompositeFilter fs => composite_filter fs rec
  | OtherFilters fs => forallb (fun f => f rec) fs
  end.

(** The filter that RecordFileScanner gets. *)
Definition page_filter (flt : TableFilter) : option Filter :=
  match flt with AnyRecord => None | _ => Some (fun _ rec => filter_record flt rec) end.

Definition INT_MAX : Z := 2147483647.

(** [find_index_for_scan]: the side that is a column and the side that is a value. *)
Definition column_and_value (f : DefaultConditionFilter) : option (ConDesc * ConDesc) :=
  if cd_is_attr (cf_left f) && negb (cd_is_attr (cf_right f)) then Some (cf_left f, cf_right f)
  else if cd_is_attr (cf_right f) && negb (cd_is_attr (cf_left f)) then Some (cf_right f, cf_left f)
  else None.

(** [find_index]. *)
Definition find_index (x : Table) (name : string) : option nat :=
  fst <$> list_find (fun i => im_name (index_meta_ i) = name) (indexes_ x).

(** The index for a condition with the operator and the value of its scan; the value is [None] for
    a null pointer. *)
Definition index_for (x : Table) (f : DefaultConditionFilter) : option (nat * CompOp * option (list Z)) :=
  match column_and_value f with
  | None => None
  | Some (column, value) =>
      if bool_decide (cf_op f = IS) || bool_decide (cf_op f = IS_NOT) ||
         cd_is_null (cf_left f) || cd_is_null (cf_right f) then None
      else match find_field_by_offset (table_meta_ x) (cd_attr_offset column) with
      | None => None
      | Some fm =>
      match find_index_by_field (table_meta_ x) (fm_name fm) with
      | None => None
      | Some im => (fun i => (i, cf_op f, cd_value value)) <$> find_index x (im_name im)
      end end
  end.

(** The files of metadata; the classes of JSON values are those of TableMeta.v. *)
Inductive CreateResult := Created | AlreadyExists | CreateFailed.

Class MetaFiles (W T : Type) := {
  meta_create : string -> W -> CreateResult * W;      (* open(path, O_WRONLY | O_CREAT | O_EXCL) and close *)
  meta_write : string -> T -> W -> option bool * W;   (* fstream: None if it does not open, then whether the
                                                         text was written *)
  meta_read : string -> W -> option T * W;            (* fstream: None if it does not open *)
  meta_rename : string -> string -> W -> bool * W     (* rename(...) == 0 *)
}.

Section TableScan.
Context {R W : Type} `{Replacer R} `{OS W} `{HashOrder}.
Variable fuel : nat.

Abbreviation DBM := (M (TS (DB R W))).

(** ** Scans *)

(** [None]: a null pointer. *)
Definition open_index_scan (t : Z) (f : DefaultConditionFilter) : DBM (option (nat * BplusTreeScanner)) :=
  let! x := this t in
  match index_for x f with
  | None => ret None
  | Some (i, op, value) =>
      match value with
      | None => undefined
      | Some v => let! sc := on_index_at t i (create_scanner fuel op v) in ret ((fun sc => (i, sc)) <$> sc)
      end
  end.

(** The loop over the filters of a conjunction. *)
Fixpoint first_index_scan (t : Z) (fs : CompositeConditionFilter) : DBM (option (nat * BplusTreeScanner)) :=
  match fs with
  | [] => ret None
  | f :: rest =>
      let! sc := open_index_scan t f in
      match sc with Some sc => ret (Some sc) | None => first_index_scan t rest end
  end.

Definition find_index_for_scan (t : Z) (flt : TableFilter) : DBM (option (nat * BplusTreeScanner)) :=
  match flt with
  | AnyRecord => ret None
  | DefaultFilter f => open_index_scan t f
  | CompositeFilter fs => first_index_scan t fs
  | OtherFilters _ => ret None
  end.

Section reader.
Context {C : Type}.
Variables (t : Z) (trx : bool) (flt : TableFilter) (limit : Z).
Variable reader : C -> RecordRef -> DBM (RC * C).

Definition visible (rec : RecordRef) : DBM bool := if trx then is_visible t (rec_data rec) else ret true.

(** The loop over the record file, from a call of get_first_record or get_next_record that has
    returned [x]. *)
Fixpoint scan_rows (rounds : nat) (sc : RecordFileScanner) (ctx : C) (count : Z) (ph : RecordPageHandler)
    (x : RC + RecordRef) : DBM (RC * C * RecordPageHandler) :=
  match x with
  | inl rc => ret (rc, ctx, ph)
  | inr rec =>
      if limit <=? count then ret (SUCCESS, ctx, ph)
      else match rounds with
      | O => no_fuel
      | S rounds' =>
          let! vis := visible rec in
          let! (rc, ctx) := (if vis then reader ctx rec else ret (SUCCESS, ctx)) in
          if bool_decide (rc = SUCCESS) then
            let! (x, ph) := on_page_handler ph (sc_get_next_record fuel sc rec) in
            scan_rows rounds' sc ctx (if vis then count + 1 else count) ph x
          else ret (rc, ctx, ph)
      end
  end.

(** The loop over the entries of an index: every entry counts, whether its record is read or not.  [cur]
    is the local [record], which is kept from round to round. *)
Fixpoint scan_entries (rounds : nat) (i : nat) (sc : BplusTreeScanner) (ctx : C) (count : Z) (cur : option RecordRef)
    : DBM (RC * C) :=
  if limit <=? count then ret (SUCCESS, ctx)
  else match rounds with
  | O => no_fuel
  | S rounds' =>
      let! (r, sc) := on_index_at t i (scanner_next sc) in
      match r with
      | inl RECORD_NO_MORE_IDX_IN_MEM => scan_entries rounds' i sc ctx count cur
      | inl RECORD_EOF => ret (SUCCESS, ctx)
      | inl rc => ret (rc, ctx)
      | inr rid =>
          let! y := try (handler_get t rid cur) in
          match y with
          | inl rc => ret (rc, ctx)
          | inr None => undefined
          | inr (Some rec) =>
              let! vis := visible rec in
              let! pass := (if vis then let! b := record_bytes rec in ret (filter_record flt b) else ret false) in
              let! (rc, ctx) := (if pass then reader ctx rec else ret (SUCCESS, ctx)) in
              if bool_decide (rc = SUCCESS) then scan_entries rounds' i sc ctx (count + 1) (Some rec)
              else ret (rc, ctx)
          end
      end
  end.

(** The scanner object of a full scan is destroyed on return: its page is unpinned. *)
Definition scan_file (ctx : C) : DBM (RC * C) :=
  let! x := this t in
  undefined_if (negb (tb_pool_ x)) ;;
  let sc := open_scan (file_id_ x) (page_filter flt) in
  let start := {| rec_rid := inhabitant; rec_data := None |} in
  let! (y, ph) := on_page_handler RecordPageHandler_create (sc_get_first_record fuel sc start) in
  let! (rc, ctx, ph) := scan_rows fuel sc ctx 0 ph y in
  let! _ := on_page_handler ph deinit in
  ret (if bool_decide (rc = RECORD_EOF) then SUCCESS else rc, ctx).

End reader.

(** A negative limit is none. *)
Definition scan_record {C} (t : Z) (trx : bool) (flt : TableFilter) (limit : Z) (ctx : C)
    (reader : C -> RecordRef -> DBM (RC * C)) : DBM (RC * C) :=
  if limit =? 0 then ret (SUCCESS, ctx)
  else
    let limit := if limit <? 0 then INT_MAX else limit in
    let! scanner := find_index_for_scan t flt in
    match scanner with
    | Some (i, sc) => scan_entries t trx flt limit reader fuel i sc ctx 0 None
    | None => scan_file t trx flt limit reader ctx
    end.

(** [scan_record] for a reader of the memory of the record. *)
Definition scan_record_reader_adapter {C} (record_reader : C -> option (Z * Z) -> DBM C) (ctx : C) (rec : RecordRef)
    : DBM (RC * C) :=
  let! ctx := record_reader ctx (rec_data rec) in ret (SUCCESS, ctx).

Definition scan_bytes {C} (t : Z) (trx : bool) (flt : TableFilter) (limit : Z) (ctx : C)
    (record_reader : C -> option (Z * Z) -> DBM C) : DBM (RC * C) :=
  scan_record t trx flt limit ctx (scan_record_reader_adapter record_reader).

(** ** Deleting and updating with a condition *)

(** [RecordDeleter]: the context is [deleted_count_]. *)
Definition record_deleter (t : Z) (trx : bool) (count : Z) (rec : RecordRef) : DBM (RC * Z) :=
  let! x := this t in
  let! rc := rc_of (if has_text_field (table_meta_ x) then delete_text_record fuel t trx rec
                    else delete_record fuel t trx rec) in
  ret (rc, if bool_decide (rc = SUCCESS) then count + 1 else count).

Definition delete_records (t : Z) (trx : bool) (flt : TableFilter) : DBM (RC * Z) :=
  scan_record t trx flt (-1) 0 (record_deleter t trx).

(** [RecordUpdater]: the context is [updated_count_]. *)
Definition record_updater (t : Z) (f : FieldMeta) (v : Value) (count : Z) (rec : RecordRef) : DBM (RC * Z) :=
  let! rc := rc_of (if bool_decide (fm_type f = TEXTS) then update_record_text_attr fuel t rec f v
                    else update_record_one_attr fuel t rec f v) in
  ret (rc, if bool_decide (rc = SUCCESS) then count + 1 else count).

(** The check of the new value, which is changed in place. *)
Definition check_update (f : FieldMeta) (v : Value) : res Value :=
  if bool_decide (fm_type f = v_type v) then Ok v
  else if bool_decide (fm_type f = TEXTS) && bool_decide (v_type v = CHARS) then Ok (value_with TEXTS (v_data v) v)
  else if bool_decide (fm_type f = DATES) && bool_decide (v_type v = CHARS) then
    match Check_and_format_date theGlobalDateUtil (v_data v) with
    | (Ok _, d) => Ok (value_with DATES d v)
    | (Err _, _) => Err SCHEMA_FIELD_TYPE_MISMATCH
    | (Ub, _) => Ub
    | (OutOfFuel, _) => OutOfFuel
    end
  else Err SCHEMA_FIELD_TYPE_MISMATCH.

(** The return code of the scan is dropped: the result is the number of updated records.  [junk] is
    the uninitialised memory of the condition filters. *)
Definition update_records (t : Z) (trx : bool) (attribute_name : option string) (v : Value)
    (junk : nat -> ConDesc * ConDesc) (conditions : list Condition) : DBM Z :=
  let! x := this t in
  let! fs := of_res (composite_init (table_meta_ x) junk 0 conditions).1 in
  match field_named (table_meta_ x) attribute_name with
  | None => fail SCHEMA_FIELD_NOT_EXIST
  | Some f =>
      let! v := of_res (check_update f v) in
      let! (rc, count) := scan_record t trx (CompositeFilter fs) (-1) 0 (record_updater t f v) in
      ret count
  end.

(** ** Files *)

Section files.
Context {J T : Type} `{Json J T} `{MetaFiles W T}.

Definition set_meta (m : TableMeta) (x : Table) : Table :=
  {| base_dir_ := base_dir_ x; table_meta_ := m; tb_pool_ := tb_pool_ x; file_id_ := file_id_ x;
     record_handler_ := record_handler_ x; indexes_ := indexes_ x |}.
Definition set_pool_ptr (x : Table) : Table :=
  {| base_dir_ := base_dir_ x; table_meta_ := table_meta_ x; tb_pool_ := true; file_id_ := file_id_ x;
     record_handler_ := record_handler_ x; indexes_ := indexes_ x |}.
Definition set_base_dir (d : string) (x : Table) : Table :=
  {| base_dir_ := Some d; table_meta_ := table_meta_ x; tb_pool_ := tb_pool_ x; file_id_ := file_id_ x;
     record_handler_ := record_handler_ x; indexes_ := indexes_ x |}.
Definition set_data_file (id : Z) (h : RecordFileHandler) (x : Table) : Table :=
  {| base_dir_ := base_dir_ x; table_meta_ := table_meta_ x; tb_pool_ := tb_pool_ x; file_id_ := id;
     record_handler_ := Some (h, RecordPageHandler_create); indexes_ := indexes_ x |}.

Definition on_world {A} (c : W -> A * W) : DBM A := on_pool (sys c).

Definition data_file (base_dir name : string) : string := (base_dir ++ "/" ++ name ++ TABLE_DATA_SUFFIX)%string.

(** The initialisation of a new RecordFileHandler does not fail. *)
Definition init_record_handler (t : Z) (base_dir : string) : DBM unit :=
  let! x := this t in
  upd_table t set_pool_ptr ;;
  let! id := on_pool (open_file (data_file base_dir (tm_name (table_meta_ x)))) in
  upd_table t (set_data_file id (rfh_init id RecordFileHandler_create).2).

Definition create (t : Z) (path : string) (name : option string) (base_dir : string) (attribute_count : Z)
    (attributes : option (list AttrInfo)) : DBM unit :=
  let name_ := default EmptyString name in
  fail_if (bool_decide (name = None) || is_blank name_) INVALID_ARGUMENT ;;
  fail_if ((attribute_count <=? 0) || bool_decide (attributes = None)) INVALID_ARGUMENT ;;
  let! r := on_world (meta_create path) in
  match r with
  | AlreadyExists => fail SCHEMA_TABLE_EXIST
  | CreateFailed => fail IOERR
  | Created =>
      let! m := of_res (table_meta_init name attribute_count attributes) in
      upd_table t (set_meta m) ;;
      let! w := on_world (meta_write path (serialize (J := J) m)) in
      fail_if (bool_decide (w = None)) IOERR ;;
      upd_table t set_pool_ptr ;;
      on_pool (create_file (data_file base_dir name_)) ;;
      let! rc := rc_of (init_record_handler t base_dir) in
      upd_table t (set_base_dir base_dir) ;;
      return_rc rc
  end.

(** The loop over the indexes. *)
Fixpoint drop_indexes (t : Z) (name : string) (n : nat) (i : nat) : DBM unit :=
  match n with
  | O => ret tt
  | S n' =>
      let! x := this t in
      match indexes_ x !! i, base_dir_ x with
      | Some idx, Some dir =>
          on_index_at t i index_close ;;
          on_pool (drop_file (index_data_file dir name (im_name (index_meta_ idx)))) ;;
          drop_indexes t name n' (S i)
      | _, _ => undefined
      end
  end.

Definition drop_table_files (t : Z) (path : string) (name : option string) (base_dir : string) : DBM unit :=
  let name_ := default EmptyString name in
  fail_if (bool_decide (name = None) || is_blank name_) INVALID_ARGUMENT ;;
  let! x := this t in
  upd_table t set_pool_ptr ;;
  on_pool (close_file (file_id_ x)) ;;
  on_pool (drop_file (data_file base_dir name_)) ;;
  drop_indexes t name_ (length (indexes_ x)) 0 ;;
  let! ok := on_world (os_unlink path) in
  fail_if (negb ok) IOERR.

(** The indexes that the metadata lists are opened; all of them as not unique. *)
Fixpoint open_indexes (t : Z) (base_dir : string) (junk : IndexFileHeader) (l : list IndexMeta) : DBM unit :=
  match l with
  | [] => ret tt
  | im :: rest =>
      let! x := this t in
      match field_named (table_meta_ x) (im_field im) with
      | None => fail GENERIC_ERROR
      | Some fm =>
          let! (r, idx) := on_index (BplusTreeIndex_create 0 junk)
                             (index_open (index_data_file base_dir (tm_name (table_meta_ x)) (im_name im)) im fm) in
          match r with
          | inl rc => let! _ := on_index idx index_close in fail rc
          | inr _ => upd_table t (fun x => set_indexes (indexes_ x ++ [idx])%list x) ;; open_indexes t base_dir junk rest
          end
      end
  end.

(** The return code of [init_record_handler] is overwritten when there are indexes. *)
Definition open (t : Z) (meta_file base_dir : string) (junk : IndexFileHeader) : DBM unit :=
  let! text := on_world (meta_read (base_dir ++ "/" ++ meta_file)%string) in
  match text with
  | None => fail IOERR
  | Some text =>
      let! m := of_res (deserialize (J := J) text) in
      upd_table t (set_meta m) ;;
      let! rc := rc_of (init_record_handler t base_dir) in
      upd_table t (set_base_dir base_dir) ;;
      match tm_indexes m with
      | [] => return_rc rc
      | l => open_indexes t base_dir junk l
      end
  end.

(** The destructor: the page of the record handler is unpinned, the data file closed; the indexes are
    not deleted. *)
Definition destroy (t : Z) : DBM unit :=
  let! x := this t in
  match record_handler_ x with
  | None => ret tt
  | Some (_, ph) => let! _ := on_page_handler ph deinit in ret tt
  end ;;
  upd_table t (set_record_handler None) ;;
  if tb_pool_ x && (0 <=? file_id_ x) then let! _ := rc_of (on_pool (close_file (file_id_ x))) in ret tt
  else ret tt.

Fixpoint sync_indexes (t : Z) (n : nat) (i : nat) : DBM unit :=
  match n with O => ret tt | S n' => on_index_at t i index_sync ;; sync_indexes t n' (S i) end.

Definition sync (t : Z) : DBM unit :=
  let! x := this t in
  undefined_if (negb (tb_pool_ x)) ;;
  on_pool (flush_all_pages (file_id_ x)) ;;
  sync_indexes t (length (indexes_ x)) 0.

(** ** Creating an index *)

(** [IndexInserter]: the context is the new index. *)
Definition index_inserter (t : Z) (idx : BplusTreeIndex) (rec : RecordRef) : DBM (RC * BplusTreeIndex) :=
  let! x := this t in
  let! bytes := record_bytes rec in
  let! null := null_bit bytes (indexed_field x idx) in
  if null then ret (SUCCESS, idx)
  else
    let! (r, idx) := on_index idx (index_insert_entry fuel bytes (rec_rid rec)) in
    ret (match r with inl rc => rc | inr _ => SUCCESS end, idx).

(** The fields of the names, or the missing one. *)
Definition index_fields (m : TableMeta) (names : list string) : res (list FieldMeta) :=
  match mapM (fun n => field_named m (Some n)) names with None => Err SCHEMA_FIELD_MISSING | Some l => Ok l end.

(** The new metadata replaces the file of the old one. *)
Definition save_meta (t : Z) (m : TableMeta) (dir : string) : DBM unit :=
  let! x := this t in
  let file := table_meta_file dir (tm_name (table_meta_ x)) in
  let tmp := (file ++ ".tmp")%string in
  let! w := on_world (meta_write tmp (serialize (J := J) m)) in
  fail_if (negb (bool_decide (w = Some true))) IOERR ;;
  let! ok := on_world (meta_rename tmp file) in
  fail_if (negb ok) IOERR ;;
  upd_table t (set_meta m).

(** A null name is [None]. *)
Definition create_index (t : Z) (trx : bool) (index_name : option string) (attribute_names : list (option string))
    (unique : Z) (junk : IndexFileHeader) : DBM unit :=
  let blank (n : option string) := match n with None => true | Some s => is_blank s end in
  fail_if (blank index_name || existsb blank attribute_names) INVALID_ARGUMENT ;;
  let! x := this t in
  let m := table_meta_ x in
  let name := default EmptyString index_name in
  let names := omap id attribute_names in
  fail_if (bool_decide (index_named m name <> None) || bool_decide (find_index_by_fields m names <> None))
    SCHEMA_INDEX_EXIST ;;
  let! fields := of_res (index_fields m names) in
  let! im := of_res (index_init index_name (Some <$> fields)) in
  match fields, base_dir_ x with
  | f :: _, Some dir =>
      let file := index_data_file dir (tm_name m) name in
      let! (r, idx) := on_index (BplusTreeIndex_create unique junk) (index_create file im f) in
      match r with
      | inl rc => let! _ := on_index idx index_close in fail rc
      | inr _ =>
          let! (rc, idx) := scan_record t trx AnyRecord (-1) idx (index_inserter t) in
          if bool_decide (rc = SUCCESS) then
            upd_table t (fun x => set_indexes (indexes_ x ++ [idx])%list x) ;;
            save_meta t (add_index im m) dir
          else
            let! _ := on_index idx index_close in
            let! _ := rc_of (on_pool (drop_file file)) in
            fail rc
      end
  | _, _ => undefined
  end.
End files.
End TableScan.
