(* ===== verification/Db.v ===== *)
(** * Databases and the catalog (storage/common/db.h, db.cpp, storage/default/default_handler.h, .cpp)

    A database is a directory with one [Table] object per table; DefaultHandler has the opened
    databases and gives every call to a table.  [CS] is the state of the handler with the
    tables, the pool and the caller's transaction; addresses of new tables are taken from a
    counter.  The directory functions of deps/common/os/path.cpp that the catalog uses are here
    too, over the system calls of the class [Dirs]. *)
From Stdlib Require Import String Ascii.
From S2P Require Import Prelude ReturnCode Effects Bitmap Memory Replacer OsFile BufferPool.
From S2P Require Import RecordPage RecordFile KeyCompare BTreeNode BTree BTreeScan Dates TableMeta.
From S2P Require Import ConditionFilter Trx Index Table TableScan.

(** ** Directories *)

Class Dirs (W : Type) := {
  dir_is : string -> W -> bool;                                  (* stat(path) is 0 and a directory *)
  dir_make : string -> W -> bool * W;                            (* mkdir(path, 0777) == 0 *)
  dir_entries : string -> W -> option (list string)              (* opendir and readdir_r *)
}.

Section path.
Context {W : Type} `{Dirs W}.

(** [0 == mkdir(...) || is_directory(...)]. *)
Definition make_or_is (path : string) (w : W) : bool * W :=
  let '(ok, w) := dir_make path w in ((if ok then true else dir_is path w), w).

(** The [path] without the slashes at its end. *)
Fixpoint strip_slashes (path : string) : string :=
  match path with
  | EmptyString => EmptyString
  | String c rest =>
      match strip_slashes rest with
      | EmptyString => if Ascii.eqb c "/" then EmptyString else String c EmptyString
      | r => String c r
      end
  end.

(** The loop over the characters: [done] is the part before position [i] as a prefix of the path. *)
Fixpoint make_parents (prefix rest : string) (sep_state : bool) (w : W) : bool * W :=
  match rest with
  | EmptyString => (true, w)
  | String c rest' =>
      let prefix' := (prefix ++ String c EmptyString)%string in
      if negb (Ascii.eqb c "/") then make_parents prefix' rest' false w
      else if sep_state then make_parents prefix' rest' sep_state w
      else
        let '(ok, w) := make_or_is prefix w in
        if ok then make_parents prefix' rest' true w else (false, w)
  end.

Definition check_directory (path : string) (w : W) : bool * string * W :=
  let path := strip_slashes path in
  let '(ok, w) := make_or_is path w in
  if ok then (true, path, w)
  else
    let '(ok, w) := make_parents EmptyString path false w in
    if ok then let '(ok, w) := make_or_is path w in (ok, path, w) else (false, path, w).

(** The names that the pattern [.*\.table$] accepts. *)
Definition is_table_file (name : string) : bool :=
  let n := String.length name in
  let k := String.length TABLE_META_SUFFIX in
  (k <=? n)%nat && String.eqb (substring (n - k) k name) TABLE_META_SUFFIX.

Definition hidden (name : string) : bool :=
  match name with String c _ => Ascii.eqb c "." | EmptyString => false end.

Definition list_table_files (path : string) (w : W) : option (list string) :=
  filter (fun name => negb (hidden name) && negb (dir_is (path ++ "/" ++ name)%string w) && is_table_file name) <$>
    dir_entries path w.
End path.

(** ** Db *)

Record Db := { db_name_ : string; db_path_ : string; opened_tables_ : gmap string Z }.

Definition Db_create : Db := {| db_name_ := EmptyString; db_path_ := EmptyString; opened_tables_ := ∅ |}.
Definition set_opened_tables (m : gmap string Z) (x : Db) : Db :=
  {| db_name_ := db_name_ x; db_path_ := db_path_ x; opened_tables_ := m |}.

(** The order in which an [unordered_map] of tables is visited. *)
Class TableOrder := {
  table_order : gmap string Z -> list (string * Z);
  table_order_perm m : table_order m ≡ₚ map_to_list m }.
#[export] Program Instance plain_table_order : TableOrder | 100 := { table_order := map_to_list }.
Next Obligation. done. Qed.

(** [opened_dbs_] is a [std::map]: it is visited in the order of the names. *)
Definition name_le {A} (x y : string * A) : Prop := String.leb x.1 y.1 = true.
#[export] Instance name_le_dec {A} (x y : string * A) : Decision (name_le x y).
Proof. unfold name_le. apply _. Defined.

Record DefaultHandler := { h_base_dir : string; h_db_dir : string; opened_dbs_ : gmap string Db }.

Definition DefaultHandler_create : DefaultHandler :=
  {| h_base_dir := EmptyString; h_db_dir := EmptyString; opened_dbs_ := ∅ |}.
Definition set_opened_dbs (m : gmap string Db) (x : DefaultHandler) : DefaultHandler :=
  {| h_base_dir := h_base_dir x; h_db_dir := h_db_dir x; opened_dbs_ := m |}.

Section catalog.
Context {R W J T : Type} `{Replacer R} `{OS W} `{HashOrder} `{Json J T} `{MetaFiles W T} `{Dirs W} `{TableOrder}.
Variable fuel : nat.

Record CS := { cs_handler : DefaultHandler; cs_next_table : Z; cs_ts : TS (DB R W) }.

Definition set_handler h (s : CS) : CS := {| cs_handler := h; cs_next_table := cs_next_table s; cs_ts := cs_ts s |}.
Definition upd_handler (g : DefaultHandler -> DefaultHandler) : M CS unit := modify (fun s => set_handler (g (cs_handler s)) s).

(** A call on the tables. *)
Definition on_tables {A} (m : M (TS (DB R W)) A) : M CS A := fun s =>
  let '(r, x) := m (cs_ts s) in (r, {| cs_handler := cs_handler s; cs_next_table := cs_next_table s; cs_ts := x |}).

Definition on_files {A} (c : W -> A * W) : M CS A := on_tables (on_world c).
Definition ask_files {A} (c : W -> A) : M CS A := on_files (fun w => (c w, w)).

(** [new Table()] and [delete table]. *)
Definition new_table : M CS Z := fun s =>
  let t := cs_next_table s in
  let x := cs_ts s in
  let d := ts_store x in
  (Ok t, {| cs_handler := cs_handler s; cs_next_table := t + 1;
            cs_ts := set_db {| db_pool := db_pool d; db_tables := <[t := Table_create]> (db_tables d) |} x |}).

Definition delete_table (t : Z) : M CS unit :=
  on_tables (destroy t ;;
             modify (fun x => let d := ts_store x in
               set_db {| db_pool := db_pool d; db_tables := delete t (db_tables d) |} x)).

Definition table_name (t : Z) : M CS string := on_tables (let! x := this t in ret (tm_name (table_meta_ x))).

(** The loop of [open_all_tables]; the database with the tables opened so far is part of the result. *)
Fixpoint open_tables (junk : IndexFileHeader) (db : Db) (files : list string) : M CS (RC * Db) :=
  match files with
  | [] => ret (SUCCESS, db)
  | f :: rest =>
      let! t := new_table in
      let! rc := rc_of (on_tables (TableScan.open (J := J) (T := T) t f (db_path_ db) junk)) in
      if negb (bool_decide (rc = SUCCESS)) then delete_table t ;; ret (rc, db)
      else
        let! name := table_name t in
        match opened_tables_ db !! name with
        | Some _ => delete_table t ;; ret (GENERIC_ERROR, db)
        | None => open_tables junk (set_opened_tables (<[name := t]> (opened_tables_ db)) db) rest
        end
  end.

Definition open_all_tables (junk : IndexFileHeader) (db : Db) : M CS (RC * Db) :=
  let! files := ask_files (list_table_files (db_path_ db)) in
  match files with None => ret (IOERR, db) | Some files => open_tables junk db files end.

Definition db_init (junk : IndexFileHeader) (name : option string) (dbpath : string) (db : Db) : M CS (RC * Db) :=
  let name_ := default EmptyString name in
  if bool_decide (name = None) || is_blank name_ then ret (INVALID_ARGUMENT, db)
  else
    let! dir := ask_files (dir_is dbpath) in
    if negb dir then ret (GENERIC_ERROR, db)
    else open_all_tables junk {| db_name_ := name_; db_path_ := dbpath; opened_tables_ := opened_tables_ db |}.

(** A database is identified by its name in [opened_dbs_]. *)
Definition find_db (dbname : string) : M CS (option Db) := gets (fun s => opened_dbs_ (cs_handler s) !! dbname).
Definition upd_db (dbname : string) (g : Db -> Db) : M CS unit :=
  upd_handler (fun h => set_opened_dbs (alter g dbname (opened_dbs_ h)) h).

Definition db_create_table (dbname : string) (db : Db) (name : string) (attribute_count : Z)
    (attributes : option (list AttrInfo)) : M CS unit :=
  fail_if (bool_decide (is_Some (opened_tables_ db !! name))) SCHEMA_TABLE_EXIST ;;
  let! t := new_table in
  let! rc := rc_of (on_tables (TableScan.create (J := J) (T := T) t (table_meta_file (db_path_ db) name) (Some name)
                                 (db_path_ db) attribute_count attributes)) in
  if bool_decide (rc = SUCCESS) then
    upd_db dbname (fun x => set_opened_tables (<[name := t]> (opened_tables_ x)) x)
  else delete_table t ;; fail rc.

(** When the files cannot be dropped the table is deleted, but keeps its place in the map. *)
Definition db_drop_table (dbname : string) (db : Db) (name : string) : M CS unit :=
  match opened_tables_ db !! name with
  | None => fail SCHEMA_TABLE_NOT_EXIST
  | Some t =>
      let! rc := rc_of (on_tables (drop_table_files t (table_meta_file (db_path_ db) name) (Some name) (db_path_ db))) in
      if bool_decide (rc = SUCCESS) then
        upd_db dbname (fun x => set_opened_tables (delete name (opened_tables_ x)) x)
      else delete_table t ;; fail rc
  end.

Definition db_sync (db : Db) : M CS unit :=
  iter_m (table_order (opened_tables_ db)) (fun x => on_tables (TableScan.sync x.2)).

Definition db_destroy (db : Db) : M CS unit := iter_m (table_order (opened_tables_ db)) (fun x => delete_table x.2).

(** ** DefaultHandler *)

Definition handler_init (base_dir : string) : M CS unit :=
  let! (ok, tmp) := on_files (fun w => let '(ok, p, w) := check_directory (base_dir ++ "/db")%string w in ((ok, p), w)) in
  fail_if (negb ok) GENERIC_ERROR ;;
  upd_handler (fun h => {| h_base_dir := base_dir; h_db_dir := (tmp ++ "/")%string; opened_dbs_ := opened_dbs_ h |}).

Definition dbs_in_order (h : DefaultHandler) : list (string * Db) := merge_sort name_le (map_to_list (opened_dbs_ h)).

Definition handler_sync : M CS unit :=
  let! h := gets cs_handler in iter_m (dbs_in_order h) (fun x => db_sync x.2).

Definition handler_destroy : M CS unit :=
  let! _ := rc_of handler_sync in
  let! h := gets cs_handler in
  iter_m (dbs_in_order h) (fun x => db_destroy x.2) ;;
  upd_handler (set_opened_dbs ∅).

Definition blank_name (name : option string) : bool := match name with None => true | Some s => is_blank s end.

Definition create_db (dbname : option string) : M CS unit :=
  fail_if (blank_name dbname) INVALID_ARGUMENT ;;
  let! h := gets cs_handler in
  let dbpath := (h_db_dir h ++ default EmptyString dbname)%string in
  let! dir := ask_files (dir_is dbpath) in
  fail_if dir SCHEMA_DB_EXIST ;;
  let! ok := on_files (fun w => let '(ok, _, w) := check_directory dbpath w in (ok, w)) in
  fail_if (negb ok) GENERIC_ERROR.

(** A database that cannot be initialised is entered all the same, and the result is a success. *)
Definition open_db (junk : IndexFileHeader) (dbname : option string) : M CS unit :=
  fail_if (blank_name dbname) INVALID_ARGUMENT ;;
  let name := default EmptyString dbname in
  let! h := gets cs_handler in
  match opened_dbs_ h !! name with
  | Some _ => ret tt
  | None =>
      let dbpath := (h_db_dir h ++ name)%string in
      let! dir := ask_files (dir_is dbpath) in
      fail_if (negb dir) SCHEMA_DB_NOT_EXIST ;;
      let! (_, db) := db_init junk dbname dbpath Db_create in
      upd_handler (fun h => set_opened_dbs (<[name := db]> (opened_dbs_ h)) h)
  end.

(** Not implemented in the program. *)
Definition drop_db (dbname : option string) : M CS unit := fail GENERIC_ERROR.
Definition close_db (dbname : option string) : M CS unit := fail GENERIC_ERROR.
Definition execute (sql : string) : M CS unit := fail GENERIC_ERROR.
Definition drop_index (dbname relation_name index_name : string) : M CS unit := fail GENERIC_ERROR.

Definition create_table (dbname relation_name : string) (attribute_count : Z) (attributes : option (list AttrInfo)) : M CS unit :=
  let! db := find_db dbname in
  match db with
  | None => fail SCHEMA_DB_NOT_OPENED
  | Some db => db_create_table dbname db relation_name attribute_count attributes
  end.

Definition drop_table (dbname relation_name : string) : M CS unit :=
  let! db := find_db dbname in
  match db with
  | None => fail SCHEMA_DB_NOT_OPENED
  | Some db => db_drop_table dbname db relation_name
  end.

Definition find_table (dbname table_name : option string) : M CS (option Z) :=
  match dbname, table_name with
  | Some d, Some n =>
      let! db := find_db d in
      ret (match db with None => None | Some db => opened_tables_ db !! n end)
  | _, _ => ret None
  end.

(** A call on a table of the catalog. *)
Definition with_table {A} (dbname relation_name : option string) (k : Z -> M CS A) : M CS A :=
  let! t := find_table dbname relation_name in
  match t with None => fail SCHEMA_TABLE_NOT_EXIST | Some t => k t end.

(** The number of attributes is looked at before the table. *)
Definition create_index (dbname relation_name : option string) (index_name : option string)
    (attribute_names : list (option string)) (unique : Z) (junk : IndexFileHeader) : M CS unit :=
  let! t := find_table dbname relation_name in
  fail_if (bool_decide (attribute_names = [])) GENERIC_ERROR ;;
  match t with
  | None => fail SCHEMA_TABLE_NOT_EXIST
  | Some t => on_tables (TableScan.create_index fuel (J := J) (T := T) t true index_name attribute_names unique junk)
  end.

(** [mem] is the memory for the new record. *)
Definition insert_record (dbname relation_name : option string) (value_num : Z) (values : list Value) (mem : list Z) : M CS unit :=
  with_table dbname relation_name (fun t => on_tables (
    let! x := this t in
    if has_text_field (table_meta_ x) then insert_text_record fuel t true value_num values mem
    else let! _ := insert_values fuel t true value_num (Some values) mem in ret tt)).

(** The number of deleted records with the return code. *)
Definition delete_record (dbname relation_name : option string) (junk : nat -> ConDesc * ConDesc)
    (conditions : list Condition) : M CS (RC * Z) :=
  with_table dbname relation_name (fun t => on_tables (
    let! x := this t in
    let! fs := of_res (composite_init (table_meta_ x) junk 0 conditions).1 in
    delete_records fuel t true (CompositeFilter fs))).

Definition update_record (dbname relation_name attribute_name : option string) (v : Value)
    (junk : nat -> ConDesc * ConDesc) (conditions : list Condition) : M CS Z :=
  with_table dbname relation_name (fun t => on_tables (update_records fuel t true attribute_name v junk conditions)).

End catalog.
Arguments CS R W : clear implicits.
