(* ===== verification/TableTheorems.v ===== *)
(** * Tables: theorems

    The record that make_record builds, the index chosen for a scan, and the entries of
    records in the indexes. *)
From Stdlib Require Import String.
From S2P Require Import Prelude ReturnCode Effects Bitmap Memory Replacer OsFile BufferPool.
From S2P Require Import RecordPage RecordFile KeyCompare BTreeNode BTree BTreeScan Dates TableMeta TableMetaTheorems.
From S2P Require Import ConditionFilter Trx Index Table TableScan Values SmallFloats.

#[local] Open Scope c_scope.
#[local] Open Scope Z_scope.

(** ** make_record *)

(** What a record holds for the field [f] at index [k]. *)
Definition stored (rec : list Z) (k : Z) (f : FieldMeta) (v : Value) : Prop :=
  if v_isnull v then bit rec k = true
  else bit rec k = false /\ load rec (fm_offset f) (fm_len f) = take (Z.to_nat (fm_len f)) (v_data v).

(** A value that the check accepts for a field, after the conversions. *)
Definition accepted (f : FieldMeta) (v : Value) : Prop :=
  if v_isnull v then fm_nullable f = true
  else v_type v = fm_type f \/
       (fm_type f = DATES /\ v_type v = CHARS /\ exists y m d rest, date_ok y m d /\ v_data v = date_bytes y m d ++ rest).

(** The bytes that a value of a statement becomes for a field: a value of the field's type as it is; for a date the
    canonical form of the date that the text writes; for a float the float nearest to an integer, which is this
    integer below 2^24. *)
Inductive converted (f : FieldMeta) (v : Value) : list Z -> Prop :=
| converted_same : v_type v = fm_type f -> converted f v (v_data v)
| converted_date s ys ms ds :
    fm_type f = DATES -> v_type v = CHARS -> cstr (v_data v) = Some s -> date_form ys ms ds s ->
    date_ok (numeral ys) (numeral ms) (numeral ds) -> 12 <= alen (v_data v) ->
    converted f v (date_bytes (numeral ys) (numeral ms) (numeral ds) ++ drop 12 (v_data v))
| converted_int n w :
    fm_type f = FLOATS -> v_type v = INTS -> n = rd32 (v_data v) 0 -> 4 <= alen (v_data v) ->
    w = le32 (int32 (bits_of_float (float_of_int n))) ->
    (small n -> float_at (w ++ drop 4 (v_data v)) = float_of_int n /\ int_float (float_of_int n) n) ->
    converted f v (w ++ drop 4 (v_data v)).

Section make_record.
Implicit Types (t : TableMeta) (rec mem : list Z) (v : Value) (f : FieldMeta) (i k : Z).

(** Fields behind the bitmap, one after the other. *)
Record layout_ok t (nb : Z) : Prop := {
  lo_field k f : field_at t k = Some f ->
    0 <= k < 8 * nb /\ nb <= fm_offset f /\ 0 < fm_len f /\ fm_offset f + fm_len f <= tm_record_size t;
  lo_order k k' f f' : field_at t k = Some f -> field_at t k' = Some f' -> k < k' ->
    fm_offset f + fm_len f <= fm_offset f' }.

Lemma field_at_lookup t k f :
  field_at t k = Some f <-> 0 <= k /\ tm_fields t !! Z.to_nat k = Some f.
Proof.
  unfold field_at, alen, aget. destruct (Z.leb_spec 0 k), (Z.ltb_spec k (Z.of_nat (length (tm_fields t)))); simpl.
  - destruct (Z.ltb_spec k 0); [lia|]. rewrite list_lookup_lookup_total_lt by lia. naive_solver.
  - split; [done|]. intros [_ Hl]. apply lookup_lt_Some in Hl. lia.
  - split; [done|]. lia.
  - split; [done|]. lia.
Qed.

Lemma meta_layout t : meta_ok t -> layout_ok t (null_bitmap_len (field_num t)).
Proof.
  intros [_ _ Hb Hl _ _]. split.
  - intros k f [Hk Hf]%field_at_lookup. pose proof (lookup_lt_Some _ _ _ Hf). unfold field_num, alen in *.
    destruct (chain_bounds _ _ _ f Hl) as (? & ? & ?); [by eapply list_elem_of_lookup_2|]. lia.
  - intros k k' f f' [Hk Hf]%field_at_lookup [Hk' Hf']%field_at_lookup Hlt.
    eapply (chain_disjoint _ _ _ (Z.to_nat k) (Z.to_nat k')); [done..|lia].
Qed.

(** Changing a bit of the bitmap or the bytes of a field. *)
Lemma load_set_bit_other rec k o n : 0 <= k -> in_block rec o n -> k < 8 * o -> load (set_bit rec k) o n = load rec o n.
Proof.
  intros Hk Hb Ho. unfold set_bit. destruct (index_quot k Hk) as [-> ->]. apply load_aset_other; [done|].
  left. apply Z.div_lt_upper_bound; lia.
Qed.

Lemma load_clear_bit_other rec k o n : 0 <= k -> in_block rec o n -> k < 8 * o -> load (clear_bit rec k) o n = load rec o n.
Proof.
  intros Hk Hb Ho. unfold clear_bit. destruct (index_quot k Hk) as [-> ->]. apply load_aset_other; [done|].
  left. apply Z.div_lt_upper_bound; lia.
Qed.

(** The part of a record that belongs to field [k]: its bit and its bytes. *)
Definition same_field rec rec' k f : Prop :=
  bit rec' k = bit rec k /\ load rec' (fm_offset f) (fm_len f) = load rec (fm_offset f) (fm_len f).

Lemma stored_same rec rec' k f v : same_field rec rec' k f -> stored rec k f v -> stored rec' k f v.
Proof. unfold stored. intros [-> ->]. done. Qed.

Lemma set_bit_field t nb rec k f k' f' :
  layout_ok t nb -> alen rec = tm_record_size t -> field_at t k = Some f -> field_at t k' = Some f' -> k' <> k ->
  same_field rec (set_bit rec k) k' f' /\ same_field rec (clear_bit rec k) k' f'.
Proof.
  intros [Hf _] Hl Hk Hk' Hne. destruct (Hf k f Hk) as (? & ? & ? & ?), (Hf k' f' Hk') as (? & ? & ? & ?).
  assert (in_block rec (fm_offset f') (fm_len f')) by (unfold in_block; lia).
  assert (k / 8 < alen rec) by (apply Z.div_lt_upper_bound; lia).
  split; split; try (apply load_set_bit_other; lia || done); try (apply load_clear_bit_other; lia || done).
  - rewrite bit_set_bit by lia. by destruct (Z.eqb_spec k' k).
  - rewrite bit_clear_bit by lia. by destruct (Z.eqb_spec k' k).
Qed.

Lemma put_field t nb rec k f k' f' bs :
  layout_ok t nb -> alen rec = tm_record_size t -> field_at t k = Some f -> alen bs = fm_len f ->
  field_at t k' = Some f' -> k' <> k -> same_field rec (put rec (fm_offset f) bs) k' f'.
Proof.
  intros [Hf Ho] Hl Hk Hbs Hk' Hne. destruct (Hf k f Hk) as (? & ? & ? & ?), (Hf k' f' Hk') as (? & ? & ? & ?).
  assert (in_block rec (fm_offset f) (alen bs)) by (unfold in_block; lia). split.
  - apply bit_put_other; [done|lia|]. left. lia.
  - apply load_put_other; [done|unfold in_block; lia|]. destruct (Z.lt_gt_cases k k') as [Hc _].
    destruct (Hc (not_eq_sym Hne)) as [Hlt|Hlt].
    + right. rewrite Hbs. by apply (Ho k k').
    + left. by apply (Ho k' k).
Qed.

Lemma copy_values_spec t nb i values rec rec' :
  layout_ok t nb -> alen rec = tm_record_size t -> copy_values t i values rec = Ok rec' ->
  alen rec' = tm_record_size t /\
  (forall k f, field_at t k = Some f -> k < i + sys_field_num -> same_field rec rec' k f) /\
  (forall (j : nat) v, values !! j = Some v ->
     exists f, field_at t (i + Z.of_nat j + sys_field_num) = Some f /\ stored rec' (i + Z.of_nat j + sys_field_num) f v).
Proof.
  intros Hlo. revert i rec. induction values as [|v values IH]; intros i rec Hl; cbn [copy_values].
  { intros [= <-]. split_and!; [done|by split|]. intros j v Hj. by rewrite lookup_nil in Hj. }
  destruct (field_at t (i + sys_field_num)) as [f|] eqn:Ef; [|done]. pose proof (lo_field t nb Hlo _ _ Ef) as (Hi & Ho & Hn & He).
  set (k := i + sys_field_num) in *. destruct (negb _) eqn:Eb; [done|]. clear Eb.
  assert (Hk8 : k / 8 < alen rec) by (apply Z.div_lt_upper_bound; lia).
  assert (Hmain : forall rec1, alen rec1 = tm_record_size t -> stored rec1 k f v ->
    (forall k' f', field_at t k' = Some f' -> k' <> k -> same_field rec rec1 k' f') ->
    copy_values t (i + 1) values rec1 = Ok rec' ->
    alen rec' = tm_record_size t /\
    (forall k' f', field_at t k' = Some f' -> k' < k -> same_field rec rec' k' f') /\
    (forall (j : nat) v', (v :: values) !! j = Some v' ->
       exists f', field_at t (i + Z.of_nat j + sys_field_num) = Some f' /\ stored rec' (i + Z.of_nat j + sys_field_num) f' v')).
  { intros rec1 Hl1 Hst Hsame Hc. destruct (IH _ _ Hl1 Hc) as (Hl' & Hbefore & Hafter).
    assert (Hk' : k < i + 1 + sys_field_num) by (unfold k; lia). split_and!; [done| |].
    - intros k' f' Hf' Hlt. destruct (Hsame k' f' Hf' ltac:(lia)) as [E1 E2].
      destruct (Hbefore k' f' Hf' ltac:(lia)) as [E3 E4]. split; congruence.
    - intros [|j] v' Hj; simpl in Hj.
      + injection Hj as <-. exists f. replace (i + Z.of_nat 0 + sys_field_num) with k by (unfold k; lia). split; [done|].
        eapply stored_same; [by apply (Hbefore k f Ef Hk')|done].
      + destruct (Hafter j v' Hj) as (f' & Hf' & Hs'). exists f'.
        by replace (i + Z.of_nat (S j) + sys_field_num) with (i + 1 + Z.of_nat j + sys_field_num) by lia. }
  destruct (v_isnull v) eqn:En.
  - apply Hmain; [by rewrite alen_set_bit| |].
    + unfold stored. rewrite En, bit_set_bit by lia. by rewrite Z.eqb_refl.
    + intros k' f' Hf' Hne. by apply (set_bit_field t nb rec k f).
  - destruct (negb _) eqn:Eg; [done|]. apply negb_false_iff in Eg. rewrite !andb_true_iff in Eg.
    destruct Eg as [[_ _] Elen%Z.leb_le]. set (bs := take (Z.to_nat (fm_len f)) (v_data v)).
    assert (Hbs : alen bs = fm_len f) by (apply alen_take; lia).
    assert (Hin : in_block (clear_bit rec k) (fm_offset f) (alen bs)) by (unfold in_block; rewrite alen_clear_bit; lia).
    assert (Hl1 : alen (clear_bit rec k) = tm_record_size t) by (by rewrite alen_clear_bit).
    apply Hmain.
    + by rewrite alen_put.
    + unfold stored. rewrite En. split.
      * rewrite bit_put_other by (try done; lia). rewrite bit_clear_bit by lia. by rewrite Z.eqb_refl.
      * pose proof (load_put_same (clear_bit rec k) (fm_offset f) bs Hin) as Hput. by rewrite Hbs in Hput.
    + intros k' f' Hf' Hne. destruct (set_bit_field t nb rec k f k' f') as [_ [E1 E2]]; [done..|].
      destruct (put_field t nb (clear_bit rec k) k f k' f' bs) as [E3 E4]; [done..|]. split; congruence.
Qed.

Lemma check_value_spec f v v' :
  check_value f v = (Ok tt, v') ->
  v_isnull v' = v_isnull v /\ accepted f v' /\ (v_isnull v = false -> converted f v (v_data v')).
Proof.
  unfold check_value, accepted. destruct (v_isnull v) eqn:En.
  { destruct (fm_nullable f) eqn:E; simpl; [|done]. intros [= <-]. by rewrite En. }
  destruct (bool_decide (fm_type f = v_type v)) eqn:Et.
  { intros [= <-]. apply bool_decide_eq_true in Et. rewrite En. split_and!; [done|by left|]. intros _. by apply converted_same. }
  destruct (bool_decide (fm_type f = DATES) && bool_decide (v_type v = CHARS)) eqn:Ed.
  { apply andb_true_iff in Ed as [Ed1%bool_decide_eq_true Ed2%bool_decide_eq_true].
    destruct (Check_and_format_date _ _) as [r d] eqn:Ec. destruct r as [[]| | |]; try done. intros [= <-]. simpl. rewrite En.
    apply check_date_read in Ec as (str & ys & ms & ds & Hs & Hform & Hok & Hl & ->). split_and!; [done| |].
    - right. split; [done|]. split; [done|]. by eexists _, _, _, _.
    - intros _. by apply (converted_date f v str). }
  destruct (bool_decide (fm_type f = FLOATS) && bool_decide (v_type v = INTS)) eqn:Ef; [|done].
  apply andb_true_iff in Ef as [Ef1%bool_decide_eq_true Ef2%bool_decide_eq_true].
  destruct (Z.ltb_spec (alen (v_data v)) 4); [done|]. intros [= <-]. simpl. rewrite En. split_and!; [done|by left|]. intros _.
  change (int_to_float (v_data v)) with (le32 (int32 (bits_of_float (float_of_int (rd32 (v_data v) 0)))) ++ drop 4 (v_data v)).
  eapply converted_int; [done..|]. intros Hn. split; [by apply int_bits_read|by apply float_of_int_exact].
Qed.

Lemma check_values_spec t i values values' :
  check_values t i values = (Ok tt, values') ->
  length values' = length values /\
  (forall (j : nat) v', values' !! j = Some v' -> exists f v,
     field_at t (i + Z.of_nat j + sys_field_num) = Some f /\ values !! j = Some v /\ v_isnull v' = v_isnull v /\ accepted f v' /\
     (v_isnull v = false -> converted f v (v_data v'))).
Proof.
  revert i values'. induction values as [|v values IH]; intros i values'; cbn [check_values].
  { intros [= <-]. split; [done|]. intros j v' Hj. by rewrite lookup_nil in Hj. }
  destruct (field_at t (i + sys_field_num)) as [f|] eqn:Ef; [|done].
  destruct (check_value f v) as [r v0] eqn:Ec. destruct r as [[]| | |]; try done.
  destruct (check_values t (i + 1) values) as [r rest] eqn:Er. intros [= -> <-].
  destruct (IH _ _ Er) as [Hl Hall]. apply check_value_spec in Ec as (Hn & Ha & Hc). split; [simpl; lia|].
  intros [|j] v' Hj; simpl in Hj.
  - injection Hj as <-. exists f, v. by replace (i + Z.of_nat 0 + sys_field_num) with (i + sys_field_num) by lia.
  - destruct (Hall j v' Hj) as (f' & v1 & ? & ? & ? & ? & ?). exists f', v1.
    by replace (i + Z.of_nat (S j) + sys_field_num) with (i + 1 + Z.of_nat j + sys_field_num) by lia.
Qed.

Lemma make_record_inv t n mem values rec values' :
  make_record t n mem values = (Ok rec, values') ->
  n + 1 = field_num t /\ check_values t 0 values = (Ok tt, values') /\ alen mem = tm_record_size t /\
  copy_values t 0 values' mem = Ok rec.
Proof.
  intros Hrun. unfold make_record in Hrun. change sys_field_num with 1 in *.
  destruct (Z.eqb_spec (n + 1) (field_num t)) as [Hnum|]; [|done]. simpl in Hrun.
  destruct (check_values t 0 values) as [rc vs] eqn:Ec. destruct rc as [[]| | |]; try done.
  destruct (Z.eqb_spec (alen mem) (tm_record_size t)) as [Hm|]; [|done]. simpl in Hrun. by injection Hrun as Hcopy ->.
Qed.

(** The field of a record is what the statement says: the null bit, if the column is nullable; or the cleared null
    bit and in the bytes of the field the beginning of what the value becomes. *)
Definition holds_value rec k f v : Prop :=
  if v_isnull v then fm_nullable f = true /\ bit rec k = true
  else bit rec k = false /\ exists bs, converted f v bs /\ fm_len f <= alen bs /\
    load rec (fm_offset f) (fm_len f) = take (Z.to_nat (fm_len f)) bs.

Lemma copy_long t i values rec rec' (j : nat) v f :
  copy_values t i values rec = Ok rec' -> values !! j = Some v -> v_isnull v = false ->
  field_at t (i + Z.of_nat j + sys_field_num) = Some f -> fm_len f <= alen (v_data v).
Proof.
  revert i rec j. induction values as [|v0 values IH]; intros i rec j; [done|]. cbn [copy_values].
  destruct (field_at t (i + sys_field_num)) as [f0|] eqn:Ef; [|done]. destruct (negb _); [done|].
  intros Hc Hj Hn Hf. destruct j as [|j].
  - injection Hj as ->. rewrite Hn in Hc. replace (i + Z.of_nat 0 + sys_field_num) with (i + sys_field_num) in Hf by lia.
    simplify_eq. destruct (negb _) eqn:E; [done|]. apply negb_false_iff in E. rewrite !andb_true_iff in E. lia.
  - replace (i + Z.of_nat (S j) + sys_field_num) with (i + 1 + Z.of_nat j + sys_field_num) in Hf by lia.
    destruct (v_isnull v0); [by eapply IH|]. destruct (negb _); [done|]. by eapply IH.
Qed.

(** C11. make_record on well-formed metadata: the number of values is that of the columns, the record has the record
    size, and for every value of the statement it holds either the null bit, if the column is nullable, or the
    cleared null bit and in the bytes of the column the value: as it is if it has the column's type, the
    canonical form of the date for a text in a column of dates, the float for an integer in a column of floats. *)
Theorem make_record_ok t n mem values rec values' :
  meta_ok t -> alen values = n -> make_record t n mem values = (Ok rec, values') ->
  alen rec = tm_record_size t /\ n + 1 = field_num t /\
  forall (j : nat) v, values !! j = Some v ->
    exists f, field_at t (Z.of_nat j + 1) = Some f /\ holds_value rec (Z.of_nat j + 1) f v.
Proof.
  intros Hok Hn Hrun. pose proof (meta_layout t Hok) as Hlo.
  destruct (make_record_inv _ _ _ _ _ _ Hrun) as (Hnum & Ec & Hm & Hcopy).
  destruct (check_values_spec _ _ _ _ Ec) as [Hl Hall].
  destruct (copy_values_spec t _ 0 values' mem rec Hlo Hm Hcopy) as (Hl' & _ & Hst). split_and!; [done|done|].
  intros j v Hj. destruct (lookup_lt_is_Some_2 values' j) as [v' Hj']; [rewrite Hl; by eapply lookup_lt_Some|].
  destruct (Hall j v' Hj') as (f & v0 & Hf & Hv & Hnull & Hacc & Hconv). simplify_eq.
  destruct (Hst j v' Hj') as (f' & Hf' & Hs). change sys_field_num with 1 in *. rewrite Z.add_0_l in *. simplify_eq.
  eexists. split; [done|]. unfold stored, holds_value, accepted in *. rewrite Hnull in Hs, Hacc.
  destruct (v_isnull v) eqn:En; [done|]. destruct Hs as [Hbit Hload]. split; [done|].
  exists (v_data v'). split_and!; [by apply Hconv| |done]. by eapply (copy_long t 0).
Qed.
End make_record.

(** ** A value that was inserted, and a condition on its column *)

Lemma drop_load rec off n : in_block rec off n -> load (drop (Z.to_nat off) rec) 0 n = load rec off n.
Proof. done. Qed.

(** An integer that make_record has stored in a column satisfies a condition on this column
    exactly when the comparison with the other integer holds (as long as their difference is an
    [int]). *)
Theorem stored_int_filter t n mem values rec values' (j : nat) v v' f flt r :
  meta_ok t -> alen values = n -> make_record t n mem values = (Ok rec, values') ->
  values !! j = Some v -> values' !! j = Some v' -> v_isnull v = false ->
  field_at t (Z.of_nat j + 1) = Some f -> fm_type f = INTS -> fm_len f = 4 ->
  cf_type flt = INTS -> cd_is_attr (cf_left flt) = true -> cd_attr_index (cf_left flt) = Z.of_nat j + 1 ->
  cd_attr_offset (cf_left flt) = fm_offset f -> side_value (cf_right flt) rec = Some r ->
  is_int32 (rd32 (v_data v') 0 - rd32 r 0) ->
  cf_filter flt rec = int_op (cf_op flt) (rd32 (v_data v') 0) (rd32 r 0).
Proof.
  intros Hok Hn Hrun Hj Hj' Hnull Hf Hty Hlen Hft Ha Hi Ho Hr Hd.
  destruct (make_record_inv _ _ _ _ _ _ Hrun) as (Hnum & Ec & Hm & Hcopy).
  destruct (check_values_spec _ _ _ _ Ec) as [_ Hall]. destruct (Hall j v' Hj') as (f1 & v1 & Hf1 & Hv1 & Hn1 & _).
  destruct (copy_values_spec t _ 0 values' mem rec (meta_layout t Hok) Hm Hcopy) as (Hl' & _ & Hst).
  destruct (Hst j v' Hj') as (f' & Hf' & Hs). change sys_field_num with 1 in *. rewrite Z.add_0_l in *. simplify_eq.
  destruct (lo_field t _ (meta_layout t Hok) _ _ Hf) as (Hk & Hoff & _ & Hend).
  unfold stored in Hs. rewrite Hn1, Hnull, Hlen in Hs. destruct Hs as [Hbit Hload].
  assert (Hrd : rd32 (drop (Z.to_nat (fm_offset f)) rec) 0 = rd32 (v_data v') 0).
  { unfold rd32. f_equal. unfold load at 1. rewrite drop_0. exact Hload. }
  rewrite <- Hrd. apply int_filter_spec; [done| |done|by rewrite Hrd].
  unfold side_value. rewrite Ha, Hi, get_bit_bit by lia. by rewrite Hbit, Ho.
Qed.

(** ** The index for a condition *)

Section index_choice.
Implicit Types (x : Table) (f : DefaultConditionFilter).

(** The index that is chosen for a condition is one on the column that the condition compares
    with a value, by the metadata of the table and by its own name; conditions with [IS], [IS NOT]
    or a null on one side, and conditions between two columns, are never given to an index. *)
Theorem index_for_sound x f i op value :
  index_for x f = Some (i, op, value) ->
  exists column other fm im idx,
    column_and_value f = Some (column, other) /\ cd_is_attr column = true /\ cd_is_attr other = false /\
    op = cf_op f /\ op <> IS /\ op <> IS_NOT /\ cd_is_null column = false /\ cd_is_null other = false /\
    value = cd_value other /\
    fm ∈ tm_fields (table_meta_ x) /\ fm_offset fm = cd_attr_offset column /\
    im ∈ tm_indexes (table_meta_ x) /\ im_field im = Some (fm_name fm) /\
    indexes_ x !! i = Some idx /\ im_name (index_meta_ idx) = im_name im.
Proof.
  unfold index_for. destruct (column_and_value f) as [[column other]|] eqn:Ec; [|done].
  destruct (_ || _) eqn:Eg; [done|]. rewrite !orb_false_iff in Eg. destruct Eg as [[[E1 E2] E3] E4].
  apply bool_decide_eq_false in E1, E2. destruct (find_field_by_offset _ _) as [fm|] eqn:Ef; [|done].
  destruct (find_index_by_field _ _) as [im|] eqn:Ei; [|done].
  destruct (find_index x (im_name im)) as [k|] eqn:Ek; [|done]. intros [= <- <- <-].
  assert (Hside : cd_is_attr column = true /\ cd_is_attr other = false /\
            (column = cf_left f /\ other = cf_right f \/ column = cf_right f /\ other = cf_left f)).
  { unfold column_and_value in Ec. destruct (cd_is_attr (cf_left f)) eqn:El, (cd_is_attr (cf_right f)) eqn:Er; simpl in Ec;
      try done; injection Ec as <- <-; auto. }
  unfold find_field_by_offset in Ef. apply fmap_Some in Ef as ([j fm'] & Hf & ->).
  apply list_find_Some in Hf as (Hf1 & Hf2 & _).
  unfold find_index_by_field in Ei. apply fmap_Some in Ei as ([j' im'] & Hi & ->). apply list_find_Some in Hi as (Hi1 & Hi2 & _).
  unfold find_index in Ek. apply fmap_Some in Ek as ([k' idx] & Hk & ->). apply list_find_Some in Hk as (Hk1 & Hk2 & _).
  destruct Hside as (Ha & Hb & Hc).
  exists column, other, fm', im', idx. split_and!; try done; try (by destruct Hc as [[-> ->]|[-> ->]]);
    by eapply list_elem_of_lookup_2.
Qed.

(** A condition [value op column] whose column has an index: the scan of the index keeps the
    operator, as if the column were on the left.  For a strict order of integers no entry of the
    scan passes the condition itself, so the statement finds nothing. *)
Theorem reversed_condition_finds_nothing x f i op v rec :
  index_for x f = Some (i, op, Some v) -> cd_is_attr (cf_left f) = false -> cf_type f = INTS ->
  op = LESS_THAN \/ op = GREAT_THAN ->
  get_bit rec (cd_attr_index (cf_right f)) = false ->
  let key := drop (Z.to_nat (cd_attr_offset (cf_right f))) rec in
  is_int32 (rd32 v 0 - rd32 key 0) ->
  satisfy_condition op INTS 4 key v = true -> cf_filter f rec = false.
Proof.
  intros Hfor Hl Ht Hop Hbit key Hd Hsat. unfold index_for, column_and_value in Hfor. rewrite Hl in Hfor. simpl in Hfor.
  destruct (cd_is_attr (cf_right f)) eqn:Hr; [|done]. simpl in Hfor.
  destruct (_ || _) eqn:Eg; [done|]. rewrite !orb_false_iff in Eg. destruct Eg as [[_ En] _].
  destruct (find_field_by_offset _ _) as [fm|]; [|done]. destruct (find_index_by_field _ _) as [im|]; [|done].
  destruct (find_index _ _) as [k|]; [|done]. injection Hfor as _ Eop Ev.
  rewrite (int_filter_spec f rec v key); [|done| | |done].
  - rewrite Eop. destruct Hop as [-> | ->]; unfold satisfy_condition in Hsat; unfold int_op; lia.
  - unfold side_value. by rewrite Hl, En.
  - unfold side_value. by rewrite Hr, Hbit.
Qed.
End index_choice.
