(* ===== verification/TableFrame.v ===== *)
(** * Tables: what calls leave alone, and the lists of indexes

    Scans, changes of records and of index entries change neither the metadata of a table nor
    which indexes it has ([same_shapes]).  With that: opening a table and creating an index keep
    the index objects in step with the metadata. *)
From Stdlib Require Import String.
From S2P Require Import Prelude ReturnCode Effects Bitmap Memory Replacer OsFile BufferPool.
From S2P Require Import RecordPage RecordFile KeyCompare BTreeNode BTree BTreeScan Dates TableMeta.
From S2P Require Import ConditionFilter Trx Index Table TableScan.

#[local] Open Scope c_scope.
#[local] Open Scope Z_scope.

(** ** Steps of [keeps] *)

Section keeps.
Context {S : Type} (R : S -> S -> Prop) `{!PreOrder R}.

Lemma keeps_gets {A} (f : S -> A) : keeps R (gets f).
Proof. intros s. simpl. reflexivity. Qed.
Lemma keeps_get : keeps R get.
Proof. intros s. simpl. reflexivity. Qed.
Lemma keeps_undefined {A} : keeps R (@undefined S A).
Proof. intros s. simpl. reflexivity. Qed.
Lemma keeps_no_fuel {A} : keeps R (@no_fuel S A).
Proof. intros s. simpl. reflexivity. Qed.
Lemma keeps_fail_if b rc : keeps R (fail_if b rc).
Proof. intros s. destruct b; simpl; reflexivity. Qed.
Lemma keeps_undefined_if b : keeps R (undefined_if b).
Proof. intros s. destruct b; simpl; reflexivity. Qed.
Lemma keeps_return_rc rc : keeps R (return_rc rc).
Proof. intros s. destruct rc; simpl; reflexivity. Qed.
Lemma keeps_of_res {A} (r : res A) : keeps R (of_res r).
Proof. intros s. simpl. reflexivity. Qed.
Lemma keeps_of_sum {A} (x : RC + A) : keeps R (of_sum x).
Proof. intros s. destruct x; simpl; reflexivity. Qed.
Lemma keeps_try {A} (m : M S A) : keeps R m -> keeps R (try m).
Proof. intros Hm s. specialize (Hm s). unfold try. by destruct (m s) as [[]]. Qed.
End keeps.

Create HintDb frames.
#[export] Hint Resolve keeps_gets keeps_get keeps_undefined keeps_no_fuel keeps_fail_if keeps_undefined_if keeps_return_rc
  keeps_of_res keeps_of_sum keeps_ret keeps_fail : frames.

(** Proves [keeps] by following the structure of a computation. *)
Ltac keeps_step :=
  first
    [ assumption
    | solve [auto with frames nocore typeclass_instances]
    | apply keeps_bind; [apply _| |intros]
    | apply keeps_rc_of
    | apply keeps_try
    | match goal with
      | |- keeps _ (if ?b then _ else _) => destruct b
      | |- keeps _ (match ?x with _ => _ end) => destruct x
      | |- keeps _ (let _ := _ in _) => cbv zeta
      end ].
Ltac keeps_tac := repeat (cbv beta; keeps_step).

Section frames.
Context {R W : Type} `{Replacer R} `{OS W} `{HashOrder}.
Implicit Types (t : Z) (rid : RID) (fuel : nat).

(** ** Index objects *)

(** What identifies an index: its metadata, its field and whether it is unique. *)
Definition ix_shape (x : BplusTreeIndex) : IndexMeta * FieldMeta * Z := (index_meta_ x, field_meta_ x, unique_ x).

Definition same_ix (s s' : IX R W) : Prop := ix_shape (ix_index s') = ix_shape (ix_index s).
#[export] Instance same_ix_preorder : PreOrder same_ix.
Proof. split; [by intros ?|]. intros ??? E1 E2. unfold same_ix in *. congruence. Qed.

Lemma keeps_on_handler {A} (m : M (BT R W) A) : keeps same_ix (on_handler m).
Proof. intros s. unfold on_handler. by destruct (m (bt_of s)). Qed.
#[local] Hint Resolve keeps_on_handler : frames.

Lemma keeps_create_scanner fuel op v : keeps same_ix (create_scanner fuel op v).
Proof. intros s. unfold create_scanner. destruct (scan_open _ _ _ _) as [[] ?]; done. Qed.
Lemma keeps_scanner_next sc : keeps same_ix (scanner_next sc).
Proof. intros s. unfold scanner_next. destruct (next_entry _) as [[] ?]; done. Qed.
#[local] Hint Resolve keeps_create_scanner keeps_scanner_next : frames.

Lemma keeps_set_inited b : keeps same_ix (upd_ix (set_inited b)).
Proof. by intros s. Qed.
#[local] Hint Resolve keeps_set_inited : frames.

Lemma keeps_index_insert_entry fuel bytes rid : keeps same_ix (index_insert_entry fuel bytes rid).
Proof. unfold index_insert_entry. keeps_tac. Qed.
Lemma keeps_index_delete_entry fuel bytes rid : keeps same_ix (index_delete_entry fuel bytes rid).
Proof. unfold index_delete_entry. keeps_tac. Qed.
Lemma keeps_index_close : keeps same_ix index_close.
Proof. unfold index_close. keeps_tac. Qed.
Lemma keeps_index_sync : keeps same_ix index_sync.
Proof. unfold index_sync. keeps_tac. Qed.
#[local] Hint Resolve keeps_index_insert_entry keeps_index_delete_entry keeps_index_close keeps_index_sync : frames.

(** ** Tables *)

Definition table_shape (x : Table) : option string * TableMeta * list (IndexMeta * FieldMeta * Z) :=
  (base_dir_ x, table_meta_ x, ix_shape <$> indexes_ x).

Definition same_shapes (s s' : TS (DB R W)) : Prop :=
  table_shape <$> db_tables (ts_store s') = table_shape <$> db_tables (ts_store s).
#[export] Instance same_shapes_preorder : PreOrder same_shapes.
Proof. split; [by intros ?|]. intros ??? E1 E2. unfold same_shapes in *. congruence. Qed.

Lemma shape_lookup s s' t (x : Table) :
  same_shapes s s' -> db_tables (ts_store s) !! t = Some x ->
  exists x' : Table, db_tables (ts_store s') !! t = Some x' /\ table_shape x' = table_shape x.
Proof.
  intros Hs Ht. assert (E : (table_shape <$> db_tables (ts_store s')) !! t = (table_shape <$> db_tables (ts_store s)) !! t)
    by (by rewrite Hs). rewrite !lookup_fmap, Ht in E. simpl in E. destruct (db_tables (ts_store s') !! t) as [x'|]; [|done]. exists x'. split; [done|]. apply (inj Some). exact E.
Qed.

Lemma keeps_on_pool {A} (m : M (Pool R W) A) : keeps same_shapes (on_pool m).
Proof. intros s. unfold on_pool. by destruct (m _). Qed.
Lemma keeps_on_page_handler {A} ph (m : M (RS R W) A) : keeps same_shapes (on_page_handler ph m).
Proof. intros s. unfold on_page_handler. destruct (m _) as [[] ?]; done. Qed.
Lemma keeps_on_index {A} x (m : M (IX R W) A) : keeps same_shapes (on_index x m).
Proof. intros s. unfold on_index. destruct (m _) as [[] ?]; done. Qed.
Lemma keeps_this t : keeps same_shapes (this t).
Proof. unfold this. keeps_tac. Qed.
#[local] Hint Resolve keeps_on_pool keeps_on_page_handler keeps_on_index keeps_this : frames.

Lemma keeps_upd_table t (g : Table -> Table) :
  (forall x : Table, table_shape (g x) = table_shape x) -> keeps same_shapes (upd_table t g).
Proof.
  intros Hg s. unfold same_shapes, upd_table. simpl. apply map_eq. intros t'. rewrite !lookup_fmap.
  destruct (decide (t' = t)) as [->|Ht]; [|by rewrite lookup_alter_ne]. rewrite lookup_alter_eq.
  destruct (db_tables (ts_store s) !! t); simpl; [|done]. by rewrite Hg.
Qed.

(** A call on an index object keeps its shape in the list. *)
Lemma on_index_shape {A} x (m : M (IX R W) A) s r x' s' :
  keeps same_ix m -> on_index x m s = (Ok (r, x'), s') -> ix_shape x' = ix_shape x.
Proof.
  intros Hm. unfold on_index. specialize (Hm {| ix_pool := db_pool (ts_store s); ix_index := x |}).
  destruct (m _) as [[] y]; simpl in *; intros; simplify_eq; done.
Qed.

Lemma keeps_on_index_at {A} t i (m : M (IX R W) A) : keeps same_ix m -> keeps same_shapes (on_index_at t i m).
Proof.
  intros Hm s. unfold on_index_at. unfold bind at 1, this at 1, bind at 1, gets at 1.
  destruct (db_tables (ts_store s) !! t) as [tb|] eqn:Et; simpl; [|reflexivity].
  destruct (indexes_ tb !! i) as [x|] eqn:Ei; simpl; [|reflexivity].
  unfold bind at 1. destruct (on_index x m s) as [[[r x']| | |] s1] eqn:Eo; simpl;
    try (pose proof (keeps_on_index x m s) as Hk; rewrite Eo in Hk; exact Hk).
  pose proof (on_index_shape x m s r x' s1 Hm Eo) as Hx. pose proof (keeps_on_index x m s) as Hk. rewrite Eo in Hk. simpl in Hk.
  assert (Hs1 : db_tables (ts_store s1) = db_tables (ts_store s)).
  { unfold on_index in Eo. destruct (m _) as [[] y]; simplify_eq; done. }
  assert (Hu : same_shapes s1 (upd_table t (fun tb => set_indexes (<[i:=x']> (indexes_ tb)) tb) s1).2).
  { unfold same_shapes, upd_table. simpl. apply map_eq. intros t'. rewrite !lookup_fmap.
    destruct (decide (t' = t)) as [->|Ht]; [|by rewrite lookup_alter_ne]. rewrite lookup_alter_eq, Hs1, Et. simpl.
    f_equal. unfold table_shape. simpl. f_equal. rewrite list_fmap_insert, Hx. apply list_insert_id.
    by rewrite list_lookup_fmap, Ei. }
  unfold bind. destruct (upd_table _ _ s1) as [[[]| | |] s2] eqn:Eu; simpl in Hu;
    (etrans; [exact Hk|]; try exact Hu). etrans; [exact Hu|]. by destruct r.
Qed.
#[local] Hint Resolve keeps_on_index_at : frames.

Lemma keeps_set_trx y : keeps same_shapes (set_trx y).
Proof. by intros s. Qed.
Lemma keeps_next_trx_id : keeps same_shapes next_trx_id.
Proof. by intros s. Qed.
Lemma keeps_store_save p data :
  keeps same_shapes (modify (fun s : TS (DB R W) => set_db (store_save p data (ts_store s)) s)).
Proof. intros s. unfold same_shapes. simpl. by destruct p as [[]|]. Qed.
Lemma keeps_set_store_save p data :
  keeps same_shapes (let! s := gets ts_store in set_store (store_save p data s)).
Proof. intros s. unfold same_shapes. simpl. by destruct p as [[]|]. Qed.
#[local] Hint Resolve keeps_set_trx keeps_next_trx_id keeps_store_save keeps_set_store_save : frames.

Lemma keeps_record_of t (p : option (Z * Z)) : keeps same_shapes (record_of t p).
Proof. unfold record_of. keeps_tac. Qed.
#[local] Hint Resolve keeps_record_of : frames.
Lemma keeps_set_record_trx_id t (p : option (Z * Z)) id del : keeps same_shapes (set_record_trx_id t p id del).
Proof. unfold set_record_trx_id. keeps_tac. Qed.
Lemma keeps_is_visible t (p : option (Z * Z)) : keeps same_shapes (is_visible t p).
Proof. unfold is_visible, get_record_trx_id. keeps_tac. Qed.
Lemma keeps_start : keeps same_shapes start_if_not_started.
Proof. unfold start_if_not_started. keeps_tac. Qed.
#[local] Hint Resolve keeps_set_record_trx_id keeps_is_visible keeps_start : frames.
Lemma keeps_trx_insert_record t rid : keeps same_shapes (trx_insert_record t rid).
Proof. unfold trx_insert_record. keeps_tac. Qed.
Lemma keeps_trx_delete_record t rid (p : option (Z * Z)) : keeps same_shapes (trx_delete_record t rid p).
Proof. unfold trx_delete_record. keeps_tac. Qed.
Lemma keeps_init_trx_info m data : keeps same_shapes (init_trx_info m data).
Proof. unfold init_trx_info. keeps_tac. Qed.
#[local] Hint Resolve keeps_trx_insert_record keeps_trx_delete_record keeps_init_trx_info : frames.

(** *** Records *)

Lemma keeps_record_handler t : keeps same_shapes (record_handler t).
Proof. unfold record_handler. keeps_tac. Qed.
#[local] Hint Resolve keeps_record_handler : frames.
Lemma keeps_handler_insert t data size : keeps same_shapes (handler_insert t data size).
Proof. unfold handler_insert. keeps_tac. apply keeps_upd_table. by intros []. Qed.
Lemma keeps_handler_delete t rid : keeps same_shapes (handler_delete t rid).
Proof. unfold handler_delete. keeps_tac. Qed.
Lemma keeps_handler_get t rid cur : keeps same_shapes (handler_get t rid cur).
Proof. unfold handler_get. keeps_tac. Qed.
Lemma keeps_record_bytes rec : keeps same_shapes (record_bytes rec).
Proof. unfold record_bytes. keeps_tac. Qed.
Lemma keeps_null_bit bytes i : keeps same_shapes (null_bit bytes i).
Proof. unfold null_bit. keeps_tac. Qed.
#[local] Hint Resolve keeps_handler_insert keeps_handler_delete keeps_handler_get keeps_record_bytes keeps_null_bit : frames.

Lemma keeps_insert_entries fuel t record rid n i :
  keeps same_shapes record -> keeps same_shapes (insert_entries_from fuel t record rid n i).
Proof.
  intros Hr. revert i. induction n as [|n IH]; intros i; simpl; keeps_tac.
Qed.
Lemma keeps_insert_entry_of_indexes fuel t record rid :
  keeps same_shapes record -> keeps same_shapes (insert_entry_of_indexes fuel t record rid).
Proof. intros Hr. unfold insert_entry_of_indexes. keeps_tac. by apply keeps_insert_entries. Qed.
Lemma keeps_delete_entries fuel t record rid e n i rc :
  keeps same_shapes record -> keeps same_shapes (delete_entries_from fuel t record rid e n i rc).
Proof.
  intros Hr. revert i rc. induction n as [|n IH]; intros i rc; simpl; keeps_tac.
Qed.
Lemma keeps_delete_entry_of_indexes fuel t record rid e :
  keeps same_shapes record -> keeps same_shapes (delete_entry_of_indexes fuel t record rid e).
Proof. intros Hr. unfold delete_entry_of_indexes. keeps_tac. by apply keeps_delete_entries. Qed.
#[local] Hint Resolve keeps_insert_entry_of_indexes keeps_delete_entry_of_indexes : frames.

Lemma keeps_insert_record fuel t trx data : keeps same_shapes (Table.insert_record fuel t trx data).
Proof. unfold Table.insert_record. keeps_tac. Qed.
#[local] Hint Resolve keeps_insert_record : frames.

(** ** Scans *)

Lemma keeps_open_index_scan fuel t f : keeps same_shapes (open_index_scan fuel t f).
Proof. unfold open_index_scan. keeps_tac. Qed.
#[local] Hint Resolve keeps_open_index_scan : frames.
Lemma keeps_find_index_for_scan fuel t flt : keeps same_shapes (find_index_for_scan fuel t flt).
Proof.
  assert (Hf : forall fs, keeps same_shapes (first_index_scan fuel t fs)).
  { induction fs as [|f fs IH]; simpl; keeps_tac. }
  unfold find_index_for_scan. destruct flt; keeps_tac.
Qed.
#[local] Hint Resolve keeps_find_index_for_scan : frames.

Section scans.
Context {C : Type}.
Variables (fuel : nat) (t : Z) (trx : bool) (flt : TableFilter).
Variable reader : C -> RecordRef -> M (TS (DB R W)) (RC * C).
Hypothesis reader_keeps : forall ctx rec, keeps same_shapes (reader ctx rec).
#[local] Hint Resolve reader_keeps : frames.

Lemma keeps_visible rec : keeps same_shapes (visible t trx rec).
Proof. unfold visible. keeps_tac. Qed.
#[local] Hint Resolve keeps_visible : frames.

Lemma keeps_scan_rows limit rounds sc ctx count ph x :
  keeps same_shapes (scan_rows fuel t trx limit reader rounds sc ctx count ph x).
Proof.
  revert ctx count ph x. induction rounds as [|n IH]; intros ctx count ph x; simpl; keeps_tac.
Qed.
#[local] Hint Resolve keeps_scan_rows : frames.

Lemma keeps_scan_entries limit rounds i sc ctx count cur :
  keeps same_shapes (scan_entries t trx flt limit reader rounds i sc ctx count cur).
Proof.
  revert sc ctx count cur. induction rounds as [|n IH]; intros sc ctx count cur; simpl; keeps_tac.
Qed.
#[local] Hint Resolve keeps_scan_entries : frames.

Lemma keeps_scan_file limit ctx : keeps same_shapes (scan_file fuel t trx flt limit reader ctx).
Proof. unfold scan_file. keeps_tac. Qed.
#[local] Hint Resolve keeps_scan_file : frames.

Lemma keeps_scan_record limit ctx : keeps same_shapes (scan_record fuel t trx flt limit ctx reader).
Proof. unfold scan_record. keeps_tac. Qed.

(** A property of the context that the call-back keeps. *)
Variable P : C -> Prop.
Hypothesis reader_context : forall ctx rec s rc ctx' s',
  reader ctx rec s = (Ok (rc, ctx'), s') -> P ctx -> P ctx'.

Lemma scan_rows_context limit rounds sc ctx count ph x s rc ctx' ph' s' :
  scan_rows fuel t trx limit reader rounds sc ctx count ph x s = (Ok (rc, ctx', ph'), s') -> P ctx -> P ctx'.
Proof.
  revert ctx count ph x s. induction rounds as [|n IH]; intros ctx count ph x s; simpl.
  - destruct x; [intros [= <- <- <- <-]; done|]. destruct (limit <=? count); [intros [= <- <- <- <-]; done|done].
  - destruct x as [rc0|rec]; [intros [= <- <- <- <-]; done|]. destruct (limit <=? count); [intros [= <- <- <- <-]; done|].
    intros Hrun HP. inv_ok Hrun. apply bind_Ok in Hrun as ([rc1 ctx1] & s1 & Hr & Hrun).
    assert (HP1 : P ctx1) by (destruct x; [by eapply reader_context|by injection Hr as <- <- <-]).
    destruct (bool_decide (rc1 = SUCCESS)); [|by injection Hrun as <- <- <- <-].
    apply bind_Ok in Hrun as ([y ph1] & s2 & _ & Hrun). by eapply IH.
Qed.

Lemma scan_file_context limit ctx s rc ctx' s' :
  scan_file fuel t trx flt limit reader ctx s = (Ok (rc, ctx'), s') -> P ctx -> P ctx'.
Proof.
  unfold scan_file. intros Hrun HP. inv_ok Hrun. inv_ok Hrun. destruct x0 as [y ph].
  apply bind_Ok in Hrun as ([[rc1 ctx1] ph1] & s3 & Hrows & Hrun). apply bind_Ok in Hrun as (z & s4 & _ & Hrun).
  injection Hrun as <- <- <-. by eapply scan_rows_context.
Qed.
End scans.

(** ** Changes of records *)

Lemma keeps_delete_texts t rec size fields : keeps same_shapes (delete_texts t rec size fields).
Proof. induction fields as [|f l IH]; simpl; keeps_tac. Qed.
#[local] Hint Resolve keeps_delete_texts : frames.
Lemma keeps_delete_record fuel t trx rec : keeps same_shapes (Table.delete_record fuel t trx rec).
Proof. unfold Table.delete_record. keeps_tac; auto with frames. Qed.
Lemma keeps_delete_text_record fuel t trx rec : keeps same_shapes (delete_text_record fuel t trx rec).
Proof. unfold delete_text_record. keeps_tac; auto with frames. Qed.
#[local] Hint Resolve keeps_delete_record keeps_delete_text_record : frames.
Lemma keeps_record_deleter fuel t trx count rec : keeps same_shapes (record_deleter fuel t trx count rec).
Proof. unfold record_deleter. keeps_tac. Qed.
Lemma keeps_delete_records fuel t trx flt : keeps same_shapes (delete_records fuel t trx flt).
Proof. unfold delete_records. apply keeps_scan_record. intros. apply keeps_record_deleter. Qed.

Lemma keeps_write_record_bytes rec off bs : keeps same_shapes (write_record_bytes rec off bs).
Proof. unfold write_record_bytes. keeps_tac. Qed.
Lemma keeps_refetch t rec : keeps same_shapes (refetch t rec).
Proof. unfold refetch. keeps_tac. Qed.
Lemma keeps_handler_update t rec : keeps same_shapes (handler_update t rec).
Proof. unfold handler_update. keeps_tac. Qed.
Lemma keeps_asserted {A} (m : M (TS (DB R W)) A) : keeps same_shapes m -> keeps same_shapes (asserted m).
Proof. intros Hm. unfold asserted. keeps_tac. Qed.
#[local] Hint Resolve keeps_write_record_bytes keeps_refetch keeps_handler_update keeps_asserted : frames.
Lemma keeps_update_one fuel t rec f v : keeps same_shapes (update_record_one_attr fuel t rec f v).
Proof. unfold update_record_one_attr. keeps_tac; auto with frames. Qed.
Lemma keeps_update_text fuel t rec f v : keeps same_shapes (update_record_text_attr fuel t rec f v).
Proof. unfold update_record_text_attr. keeps_tac; auto with frames. Qed.
#[local] Hint Resolve keeps_update_one keeps_update_text : frames.
Lemma keeps_record_updater fuel t f v count rec : keeps same_shapes (record_updater fuel t f v count rec).
Proof. unfold record_updater. keeps_tac. Qed.
Lemma keeps_update_records fuel t trx name v junk conds : keeps same_shapes (update_records fuel t trx name v junk conds).
Proof.
  assert (Hs : forall f v fs, keeps same_shapes (scan_record fuel t trx (CompositeFilter fs) (-1) 0 (record_updater fuel t f v)))
    by (intros; apply keeps_scan_record; intros; apply keeps_record_updater).
  unfold update_records. keeps_tac.
Qed.

Lemma keeps_insert_values fuel t trx n values mem : keeps same_shapes (insert_values fuel t trx n values mem).
Proof. unfold insert_values. keeps_tac. Qed.
Lemma keeps_copy_texts t m i values rec : keeps same_shapes (copy_texts t m i values rec).
Proof. revert i rec. induction values as [|v l IH]; intros i rec; simpl; keeps_tac. Qed.
#[local] Hint Resolve keeps_copy_texts : frames.
Lemma keeps_insert_text_record fuel t trx n values mem : keeps same_shapes (insert_text_record fuel t trx n values mem).
Proof. unfold insert_text_record, make_and_insert_text_record. keeps_tac; auto with frames. Qed.

Lemma keeps_sync t : keeps same_shapes (TableScan.sync t).
Proof.
  assert (Hi : forall n i, keeps same_shapes (sync_indexes t n i)) by (induction n as [|n IH]; intros i; simpl; keeps_tac).
  unfold TableScan.sync. keeps_tac.
Qed.

(** ** The list of indexes *)

Definition tables (s : TS (DB R W)) : gmap Z Table := db_tables (ts_store s).

Lemma on_pool_tables {A} (m : M (Pool R W) A) s r s' : on_pool m s = (r, s') -> tables s' = tables s.
Proof. unfold on_pool. destruct (m _). intros [= <- <-]. done. Qed.

Lemma on_index_tables {A} x (m : M (IX R W) A) s r s' : on_index x m s = (r, s') -> tables s' = tables s.
Proof. unfold on_index. destruct (m _) as [[] y]; intros [= <- <-]; done. Qed.

Lemma this_inv t s x s' : this t s = (Ok x, s') -> tables s !! t = Some x /\ s' = s.
Proof.
  unfold this, tables. rewrite bind_gets. destruct (db_tables (ts_store s) !! t) eqn:E; [|done]. by intros [= <- <-].
Qed.

Lemma upd_table_lookup t g s x :
  tables s !! t = Some x -> exists s', upd_table t g s = (Ok tt, s') /\ tables s' !! t = Some (g x).
Proof.
  intros Hx. eexists. split; [done|]. unfold tables in *. simpl. by rewrite lookup_alter_eq, Hx.
Qed.

Lemma keeps_lookup {A} (m : M (TS (DB R W)) A) s r s' t x :
  keeps same_shapes m -> m s = (r, s') -> tables s !! t = Some x ->
  exists x' : Table, tables s' !! t = Some x' /\ table_shape x' = table_shape x.
Proof. intros Hk Hm Hx. apply (shape_lookup s); [|done]. specialize (Hk s). by rewrite Hm in Hk. Qed.

Lemma index_open_shape file im fm s s' :
  index_open file im fm s = (Ok tt, s') -> ix_shape (ix_index s') = (im, fm, unique_ (ix_index s)).
Proof.
  intros Hrun. unfold index_open in Hrun. steps_in Hrun. unfold upd_ix in Hrun. rewrite bind_modify in Hrun.
  apply bind_Ok in Hrun as (a & s1 & Hh & Hrun). injection Hrun as <-.
  pose proof (keeps_on_handler (BTree.open file) (set_ix (index_base_init im fm (ix_index s)) s)) as Hk.
  rewrite Hh in Hk. exact Hk.
Qed.

Lemma index_create_shape file im fm s s' :
  index_create file im fm s = (Ok tt, s') -> ix_shape (ix_index s') = (im, fm, unique_ (ix_index s)).
Proof.
  intros Hrun. unfold index_create in Hrun. steps_in Hrun. unfold upd_ix in Hrun. rewrite bind_modify in Hrun.
  apply bind_Ok in Hrun as (a & s1 & Hh & Hrun). injection Hrun as <-.
  pose proof (keeps_on_handler (BTree.create file (attr_code (fm_type fm)) (fm_len fm))
                (set_ix (index_base_init im fm (ix_index s)) s)) as Hk.
  rewrite Hh in Hk. exact Hk.
Qed.

Lemma on_index_inr {A} x (m : M (IX R W) A) s a x' s' :
  on_index x m s = (Ok (inr a, x'), s') ->
  exists y, m {| ix_pool := db_pool (ts_store s); ix_index := x |} = (Ok a, y) /\ ix_index y = x'.
Proof. unfold on_index. destruct (m _) as [[] y]; intros; simplify_eq. by exists y. Qed.

Section files.
Context {J T : Type} `{Json J T} `{MetaFiles W T}.

Lemma keeps_init_record_handler t dir : keeps same_shapes (init_record_handler t dir).
Proof. unfold init_record_handler. keeps_tac; apply keeps_upd_table; by intros []. Qed.

Lemma open_indexes_ok t dir junk l s s' x :
  open_indexes t dir junk l s = (Ok tt, s') -> tables s !! t = Some x ->
  exists x' new, tables s' !! t = Some x' /\ table_meta_ x' = table_meta_ x /\
    indexes_ x' = (indexes_ x ++ new)%list /\ index_meta_ <$> new = l /\ Forall (fun i => unique_ i = 0) new.
Proof.
  revert s x. induction l as [|im l IH]; intros s x Hrun Hx; simpl in Hrun.
  { injection Hrun as <-. exists x, []. by rewrite app_nil_r. }
  apply bind_Ok in Hrun as (y & s1 & Ht & Hrun). apply this_inv in Ht as [Ht ->]. simplify_eq.
  destruct (field_named (table_meta_ y) (im_field im)) as [fm|]; [|done].
  apply bind_Ok in Hrun as ([[rc|u] idx] & s2 & Ho & Hrun).
  { by apply bind_Ok in Hrun as (? & ? & _ & Hrun). }
  pose proof (on_index_tables _ _ _ _ _ Ho) as Htab. apply on_index_inr in Ho as (z & Hopen & <-). destruct u.
  apply index_open_shape in Hopen. simpl in Hopen.
  destruct (upd_table_lookup t (fun x => set_indexes (indexes_ x ++ [ix_index z])%list x) s2 y) as (s3 & Hu & Hx3);
    [by rewrite Htab|].
  rewrite (bind_run _ _ _ _ _ Hu) in Hrun. destruct (IH _ _ Hrun Hx3) as (x' & new & Hx' & Hm & Hi & Hl & Hun).
  exists x', (ix_index z :: new). unfold ix_shape in Hopen. injection Hopen as E1 E2 E3. split_and!; [done|done| | |].
  - rewrite Hi. simpl. by rewrite <- app_assoc.
  - by rewrite fmap_cons, E1, Hl.
  - by constructor.
Qed.

(** Opening a table: the index objects are those that the metadata list, in their order; but none
    of them is unique, whatever it was when it was created, because the file of the metadata does
    not record it. *)
Theorem open_indexes_match t meta_file dir junk s s' x :
  TableScan.open (J := J) t meta_file dir junk s = (Ok tt, s') -> tables s !! t = Some x -> indexes_ x = [] ->
  exists x', tables s' !! t = Some x' /\ index_meta_ <$> indexes_ x' = tm_indexes (table_meta_ x') /\
    Forall (fun i => unique_ i = 0) (indexes_ x').
Proof.
  intros Hrun Hx He. unfold TableScan.open in Hrun. apply bind_Ok in Hrun as (text & s1 & Hw & Hrun).
  apply on_pool_tables in Hw. destruct text as [text|]; [|done]. apply bind_Ok in Hrun as (m & s2 & Hm & Hrun).
  unfold of_res in Hm. injection Hm as Hm <-.
  destruct (upd_table_lookup t (set_meta m) s1 x) as (s3 & Hu & Hx3); [by rewrite Hw|].
  rewrite (bind_run _ _ _ _ _ Hu) in Hrun. apply bind_Ok in Hrun as (rc & s4 & Hi & Hrun).
  destruct (keeps_lookup _ _ _ _ _ _ (keeps_rc_of _ _ (keeps_init_record_handler t dir)) Hi Hx3) as (x4 & Hx4 & Hs4).
  destruct (upd_table_lookup t (set_base_dir dir) s4 x4 Hx4) as (s5 & Hu5 & Hx5).
  rewrite (bind_run _ _ _ _ _ Hu5) in Hrun. unfold table_shape in Hs4. simpl in Hs4. injection Hs4 as _ Hm4 Hi4.
  rewrite He in Hi4. simpl in Hi4. apply fmap_nil_inv in Hi4.
  destruct (tm_indexes m) as [|im l] eqn:El.
  - exists (set_base_dir dir x4). assert (s' = s5) as -> by (destruct rc; try discriminate Hrun; by injection Hrun).
    split; [done|]. simpl. rewrite Hi4, Hm4, El. by split.
  - rewrite <- El in Hrun. assert (Hrun' : open_indexes t dir junk (tm_indexes m) s5 = (Ok tt, s')) by (by rewrite El in Hrun |- *).
    destruct (open_indexes_ok _ _ _ _ _ _ _ Hrun' Hx5) as (x' & new & Hx' & Hm' & Hi' & Hl & Hun). exists x'.
    simpl in Hi', Hm'. rewrite Hi4 in Hi'. simpl in Hi'. rewrite Hi', Hm', Hm4. by split_and!.
Qed.

Lemma index_inserter_context fuel t im fm u idx rec s rc idx' s' :
  index_inserter fuel t idx rec s = (Ok (rc, idx'), s') -> ix_shape idx = (im, fm, u) -> ix_shape idx' = (im, fm, u).
Proof.
  intros Hrun Hs. unfold index_inserter in Hrun. inv_ok Hrun. inv_ok Hrun. inv_ok Hrun.
  destruct x1; [by injection Hrun as <- <- <-|]. apply bind_Ok in Hrun as ([r idx2] & s3 & Ho & Hrun).
  injection Hrun as _ <- _. rewrite <- Hs. eapply on_index_shape; [|exact Ho]. apply keeps_index_insert_entry.
Qed.

Lemma keeps_index_inserter fuel t idx rec : keeps same_shapes (index_inserter fuel t idx rec).
Proof. unfold index_inserter. keeps_tac. Qed.

Lemma named_field_name m n f : field_named m (Some n) = Some f -> fm_name f = n.
Proof.
  unfold field_named. intros Hf. apply fmap_Some in Hf as ([k g] & Hl & ->). by apply list_find_Some in Hl as (_ & ? & _).
Qed.

Lemma index_fields_names m names fields : index_fields m names = Ok fields -> fm_name <$> fields = names.
Proof.
  unfold index_fields. destruct (mapM _ _) as [l|] eqn:E; [|done]. intros [= <-]. apply mapM_Some in E.
  induction E as [|n f ns fs Hf _ IH]; [done|]. rewrite fmap_cons, IH. f_equal. by eapply named_field_name.
Qed.

Lemma index_fields_head m names f fields :
  index_fields m names = Ok (f :: fields) -> exists n rest, names = n :: rest /\ field_named m (Some n) = Some f.
Proof.
  unfold index_fields. destruct (mapM _ _) as [l|] eqn:E; [|done]. intros [= ->]. apply mapM_Some in E.
  inversion E; subst. by eexists _, _.
Qed.

Lemma index_init_names name fields im :
  index_init name (Some <$> fields) = Ok im -> name = Some (im_name im) /\ im_fields im = fm_name <$> fields.
Proof.
  unfold index_init. destruct name as [n|]; [|done]. destruct (is_blank n); [done|].
  assert (E : mapM id (Some <$> fields) = Some fields) by (apply mapM_Some; by induction fields; constructor).
  rewrite E. by intros [= <-].
Qed.

Lemma not_blank_names (names : list (option string)) :
  existsb (fun n => match n with None => true | Some s => is_blank s end) names = false -> Some <$> omap id names = names.
Proof.
  induction names as [|[n|] names IH]; simpl; [done| |done]. intros [_ Hb]%orb_false_iff. by rewrite <- (IH Hb) at 2.
Qed.

Lemma save_meta_ok t m dir s s' x :
  save_meta (J := J) t m dir s = (Ok tt, s') -> tables s !! t = Some x -> tables s' !! t = Some (set_meta m x).
Proof.
  intros Hrun Hx. unfold save_meta in Hrun. apply bind_Ok in Hrun as (y & s1 & Ht & Hrun).
  apply this_inv in Ht as [Ht ->]. simplify_eq. cbv zeta in Hrun. apply bind_Ok in Hrun as (w & s1 & Hw & Hrun).
  apply on_pool_tables in Hw. steps_in Hrun. apply bind_Ok in Hrun as (ok & s2 & Hr & Hrun).
  apply on_pool_tables in Hr. steps_in Hrun.
  destruct (upd_table_lookup t (set_meta m) s2 y) as (s3 & Hu & Hx3); [by rewrite Hr, Hw|]. congruence.
Qed.

Lemma scan_all_index fuel t trx limit idx s rc idx' s' x im fm u :
  scan_record fuel t trx AnyRecord limit idx (index_inserter fuel t) s = (Ok (rc, idx'), s') ->
  tables s !! t = Some x -> ix_shape idx = (im, fm, u) ->
  ix_shape idx' = (im, fm, u) /\ exists x', tables s' !! t = Some x' /\ table_shape x' = table_shape x.
Proof.
  intros Hrun Hx Hs. split.
  - unfold scan_record in Hrun. destruct (limit =? 0); [by injection Hrun as <- <- <-|].
    simpl find_index_for_scan in Hrun. rewrite bind_ret in Hrun.
    eapply (scan_file_context _ _ _ _ _ (fun i => ix_shape i = (im, fm, u))); [|exact Hrun|exact Hs].
    intros ctx rec s1 rc1 ctx' s2 Hr. by eapply index_inserter_context.
  - eapply keeps_lookup; [|exact Hrun|exact Hx]. apply keeps_scan_record. apply keeps_index_inserter.
Qed.

(** Creating an index: on success there is one more index object, for the given name and columns and
    as unique as asked for, and the metadata list it last; the other indexes and the columns are
    as before. *)
Theorem create_index_ok fuel t trx name names unique junk s s' x :
  TableScan.create_index (J := J) fuel t trx name names unique junk s = (Ok tt, s') -> tables s !! t = Some x ->
  exists x' im, tables s' !! t = Some x' /\ Some (im_name im) = name /\ Some <$> im_fields im = names /\
    table_meta_ x' = add_index im (table_meta_ x) /\
    exists fm, field_named (table_meta_ x) (im_field im) = Some fm /\
      ix_shape <$> indexes_ x' = (ix_shape <$> indexes_ x) ++ [(im, fm, unique)].
Proof.
  intros Hrun Hx. unfold create_index in Hrun. steps_in Hrun. apply orb_false_iff in Hg as [_ Hnames%not_blank_names].
  apply bind_Ok in Hrun as (y & s1 & Ht & Hrun). apply this_inv in Ht as [Ht ->]. simplify_eq. steps_in Hrun.
  apply bind_Ok in Hrun as (fields & s1 & Hf & Hrun). unfold of_res in Hf. injection Hf as Hf <-.
  apply bind_Ok in Hrun as (im & s1 & Hi & Hrun). unfold of_res in Hi. injection Hi as Hi <-.
  apply index_init_names in Hi as [Hname Him]. pose proof (index_fields_names _ _ _ Hf) as Hfn.
  destruct fields as [|f fields]; [done|]. destruct (base_dir_ y) as [dir|]; [|done].
  destruct (index_fields_head _ _ _ _ Hf) as (n & rest & Hn & Hfield).
  apply bind_Ok in Hrun as ([[rc|u] idx] & s2 & Hc & Hrun); [by apply bind_Ok in Hrun as (? & ? & _ & Hrun)|].
  pose proof (on_index_tables _ _ _ _ _ Hc) as Htab. apply on_index_inr in Hc as (z & Hc & <-). destruct u.
  apply index_create_shape in Hc. simpl in Hc.
  apply bind_Ok in Hrun as ([rc idx] & s3 & Hscan & Hrun).
  destruct (scan_all_index _ _ _ _ _ _ _ _ _ y _ _ _ Hscan ltac:(by rewrite Htab) Hc) as (Hidx & x3 & Hx3 & Hs3).
  destruct (bool_decide (rc = SUCCESS)).
  2: { apply bind_Ok in Hrun as (? & ? & _ & Hrun). by apply bind_Ok in Hrun as (? & ? & _ & Hrun). }
  destruct (upd_table_lookup t (fun x0 => set_indexes (indexes_ x0 ++ [idx])%list x0) s3 x3 Hx3) as (s4 & Hu & Hx4).
  rewrite (bind_run _ _ _ _ _ Hu) in Hrun. pose proof (save_meta_ok _ _ _ _ _ _ Hrun Hx4) as Hx'.
  unfold table_shape in Hs3. injection Hs3 as _ Hm3 Hi3.
  eexists _, im. split; [exact Hx'|]. split; [done|]. split; [by rewrite Him, Hfn|]. split; [done|].
  exists f. split.
  - unfold im_field. rewrite Him, Hfn, Hn. done.
  - simpl. by rewrite fmap_app, Hi3, fmap_cons, Hidx.
Qed.
End files.
End frames.
