(* ===== verification/TableDemo.v ===== *)
(** * A concrete table

    A table of the demo columns on the in-memory file system, with a toy store for the files of
    metadata, on which the witnesses for tables run. *)
From Stdlib Require Import String.
From S2P Require Import Prelude ReturnCode Effects Bitmap Memory Replacer OsFile BufferPool.
From S2P Require Import RecordPage RecordFile KeyCompare BTreeNode BTree BTreeScan Dates TableMeta TableMetaTheorems.
From S2P Require Import ConditionFilter Trx Index Table TableScan TableTheorems TableFrame.

Import JsonTree.

#[local] Open Scope c_scope.
#[local] Open Scope Z_scope.

(** The metadata of the demo table with an index on its first column. *)
Definition demo_index_meta : IndexMeta := {| im_name := "i"; im_fields := ["id"%string] |}.
Definition demo_text : JsonTree.value :=
  serialize (J := JsonTree.value) (T := JsonTree.value) (add_index demo_index_meta demo_meta).

(** Every file can be created and written; every file holds the demo metadata. *)
#[export] Instance demo_files : MetaFiles MemFS.fs JsonTree.value := {
  meta_create _ w := (Created, w);
  meta_write _ _ w := (Some true, w);
  meta_read _ w := (Some demo_text, w);
  meta_rename _ _ w := (true, w) }.

Definition demo_ts : Type := TS (DB LRU.LRUReplacer MemFS.fs).
Definition junk_header : IndexFileHeader := new_header 0 0 0.

(** A pool of four frames, and one table object that nothing has been done with. *)
Definition demo_start : demo_ts :=
  {| ts_trx := Trx_create; ts_next := 0;
     ts_store := {| db_pool := Pool_create (BPManager_create (replicate 4 inhabitant) (LRU.create 4)) MemFS.empty;
                    db_tables := {[7 := Table_create]} |} |}.

(** The table is created, with a unique index on [id], and then opened in a second object. *)
Definition demo_created : demo_ts :=
  (TableScan.create (J := JsonTree.value) (T := JsonTree.value) 7 "d/t.table" (Some "t"%string) "d" 2 (Some demo_attrs) demo_start).2.
Definition run_create_index : res unit * demo_ts :=
  TableScan.create_index 5 (J := JsonTree.value) (T := JsonTree.value) 7 true (Some "i"%string) [Some "id"%string] 1 junk_header demo_created.
Definition demo_indexed : demo_ts :=
  let s := run_create_index.2 in
  set_db {| db_pool := db_pool (ts_store s); db_tables := <[8 := Table_create]> (db_tables (ts_store s)) |} s.
Definition run_open : res unit * demo_ts :=
  TableScan.open (J := JsonTree.value) (T := JsonTree.value) 8 "t.table" "d" junk_header demo_indexed.

Example demo_runs : run_create_index.1 = Ok tt /\ run_open.1 = Ok tt.
Proof. split; vm_compute; reflexivity. Qed.

Lemma run_pair {A} (x : res unit * A) : x.1 = Ok tt -> x = (Ok tt, x.2).
Proof. destruct x. simpl. by intros ->. Qed.

Lemma create_index_ok_witness :
  exists x' im, tables run_create_index.2 !! 7 = Some x' /\ Some (im_name im) = Some "i"%string /\
    Some <$> im_fields im = [Some "id"%string] /\ exists fm, ix_shape <$> indexes_ x' = [(im, fm, 1)].
Proof.
  destruct (tables demo_created !! 7) as [x|] eqn:Ex; [|exfalso; vm_compute in Ex; discriminate].
  destruct (create_index_ok (J := JsonTree.value) 5 7 true (Some "i"%string) [Some "id"%string] 1 junk_header demo_created
              run_create_index.2 x (run_pair run_create_index ltac:(vm_compute; reflexivity)) Ex)
    as (x' & im & H1 & H2 & H3 & _ & fm & _ & H4).
  exists x', im. split; [exact H1|]. split; [exact H2|]. split; [exact H3|]. exists fm. rewrite H4.
  assert (Hi : indexes_ x = []).
  { assert (E : indexes_ <$> tables demo_created !! 7 = Some []) by (vm_compute; reflexivity).
    rewrite Ex in E. simpl in E. congruence. }
  rewrite Hi. reflexivity.
Defined.

Lemma open_indexes_match_witness :
  exists x', tables run_open.2 !! 8 = Some x' /\ index_meta_ <$> indexes_ x' = tm_indexes (table_meta_ x') /\
    Forall (fun i => unique_ i = 0) (indexes_ x').
Proof.
  destruct (tables demo_indexed !! 8) as [x|] eqn:Ex; [|exfalso; vm_compute in Ex; discriminate].
  apply (open_indexes_match (J := JsonTree.value) 8 "t.table" "d" junk_header demo_indexed run_open.2 x
           (run_pair run_open ltac:(vm_compute; reflexivity)) Ex).
  assert (E : indexes_ <$> tables demo_indexed !! 8 = Some []) by (vm_compute; reflexivity).
  rewrite Ex in E. simpl in E. congruence.
Defined.

(** The values 7 and '2000-2-29' for the demo table. *)
Definition demo_values : list Value :=
  [{| v_type := INTS; v_isnull := false; v_data := le32 7 |};
   {| v_type := CHARS; v_isnull := false; v_data := [50; 48; 48; 48; 45; 50; 45; 50; 57; 0; 0; 0] |}].
Definition demo_mem : list Z := replicate 21 170.

Lemma demo_meta_well_formed : meta_ok demo_meta.
Proof. apply (table_meta_init_spec "t" 2 demo_attrs demo_meta); [reflexivity|reflexivity| |reflexivity]. repeat constructor; simpl; lia. Qed.

Lemma make_record_ok_witness :
  exists rec vs, make_record demo_meta 2 demo_mem demo_values = (Ok rec, vs) /\ alen rec = 21 /\
    (exists f, field_at demo_meta 1 = Some f /\ holds_value rec 1 f {| v_type := INTS; v_isnull := false; v_data := le32 7 |}) /\
    load rec 5 4 = le32 7 /\ load rec 9 12 = date_bytes 2000 2 29.
Proof.
  destruct (make_record demo_meta 2 demo_mem demo_values) as [r vs] eqn:E.
  destruct r as [rec| | |]; try (exfalso; vm_compute in E; discriminate). exists rec, vs. split; [reflexivity|].
  destruct (make_record_ok demo_meta 2 demo_mem demo_values rec vs demo_meta_well_formed eq_refl E) as (Hl & _ & Hv).
  split; [rewrite Hl; reflexivity|]. split; [exact (Hv 0%nat _ eq_refl)|].
  vm_compute in E. injection E as <- _. split; reflexivity.
Defined.

(** [id > 5]. *)
Definition demo_filter : DefaultConditionFilter :=
  {| cf_left := {| cd_is_attr := true; cd_attr_index := 1; cd_attr_length := 4; cd_attr_offset := 5; cd_is_null := false; cd_value := None |};
     cf_right := int_desc 5; cf_type := INTS; cf_op := GREAT_THAN |}.

Lemma stored_int_filter_witness :
  exists rec vs, make_record demo_meta 2 demo_mem demo_values = (Ok rec, vs) /\ cf_filter demo_filter rec = true.
Proof.
  destruct (make_record demo_meta 2 demo_mem demo_values) as [r vs] eqn:E.
  destruct r as [rec| | |]; try (exfalso; vm_compute in E; discriminate). exists rec, vs. split; [reflexivity|].
  assert (Hvs : exists v', vs !! 0%nat = Some v' /\ v_data v' = le32 7).
  { assert (Ev : v_data <$> (make_record demo_meta 2 demo_mem demo_values).2 !! 0%nat = Some (le32 7)) by (vm_compute; reflexivity).
    rewrite E in Ev. simpl in Ev. destruct (vs !! 0%nat) as [v'|]; [|discriminate]. exists v'. split; [reflexivity|].
    injection Ev as Ev. exact Ev. }
  destruct Hvs as (v' & Hv' & Hd).
  rewrite (stored_int_filter demo_meta 2 demo_mem demo_values rec vs 0 {| v_type := INTS; v_isnull := false; v_data := le32 7 |} v'
    {| fm_name := "id"; fm_type := INTS; fm_offset := 5; fm_len := 4; fm_visible := true; fm_nullable := false |}
    demo_filter (le32 5) demo_meta_well_formed eq_refl E eq_refl Hv' eq_refl); try reflexivity.
  - rewrite Hd. reflexivity.
  - rewrite Hd. split; vm_compute; congruence.
Defined.

(** A table object with an index on [id], and the conditions [id > 5] and [5 < id] on it. *)
Definition demo_index_object : BplusTreeIndex := index_base_init demo_index_meta inhabitant (BplusTreeIndex_create 0 junk_header).
Definition demo_object : Table := set_indexes [demo_index_object] (set_meta (add_index demo_index_meta demo_meta) Table_create).
Definition demo_reversed : DefaultConditionFilter :=
  {| cf_left := int_desc 5; cf_right := cf_left demo_filter; cf_type := INTS; cf_op := LESS_THAN |}.

Lemma index_for_sound_witness :
  exists column other, column_and_value demo_filter = Some (column, other) /\ cd_is_attr column = true.
Proof.
  destruct (index_for_sound demo_object demo_filter 0 GREAT_THAN (Some (le32 5))) as (column & other & _ & _ & _ & H1 & H2 & _);
    [reflexivity|]. exists column, other. split; [exact H1|exact H2].
Defined.

Lemma reversed_condition_finds_nothing_witness :
  cf_filter demo_reversed ([0; 0; 0; 0; 0] ++ le32 3) = false.
Proof.
  apply (reversed_condition_finds_nothing demo_object demo_reversed 0 LESS_THAN (le32 5));
    try (vm_compute; reflexivity); [by left|].
  split; vm_compute; congruence.
Defined.
