(* ===== verification/TrxTheorems.v ===== *)
(** * Transactions: theorems

    What the functions of Trx do on the tables: the word of a record, the deletion of a record with
    what every session sees of it afterwards, the end of a transaction with the calls it makes, and
    the two of these calls that only write the word of a record, through the buffer pool. *)
From S2P Require Import Prelude ReturnCode Effects Bitmap Memory Replacer OsFile BufferPool.
From S2P Require Import PoolInvariant PoolTheorems RecordPage RecordPageTheorems RecordPageContract RecordFile RecordFileTheorems.
From S2P Require Import KeyCompare TableMeta Trx Index Table TableFrame TableDemo.

#[local] Open Scope c_scope.
#[local] Open Scope Z_scope.

(** ** The word of a record *)

Lemma wr32_wr32 m off v w : in_block m off 4 -> wr32 (wr32 m off v) off w = wr32 m off w.
Proof.
  intros Hb. pose proof (alen_wr32 m off v Hb) as Hl.
  assert (Hb' : in_block (wr32 m off v) off 4) by (destruct Hb as (? & ? & ?); split_and!; lia).
  apply array_eq; [by rewrite !alen_wr32|]. intros i Hi. rewrite !alen_wr32 in Hi by done.
  unfold wr32 in *. rewrite !aget_put by (try exact Hb; try exact Hb'; lia).
  change (alen (le32 w)) with 4. change (alen (le32 v)) with 4.
  destruct (off <=? i), (i <? off + 4); done.
Qed.

Lemma record_word_range id del : 0 <= id < 2 ^ 31 -> is_int32 (record_word id del).
Proof. unfold record_word. destruct del; [intros; apply int32_range|unfold is_int32; lia]. Qed.

Lemma uint32_record_word id del :
  0 <= id < 2 ^ 31 -> uint32 (record_word id del) = if del then id + 2 ^ 31 else id.
Proof.
  intros Hid. unfold record_word. destruct del; [|apply Z.mod_small; lia].
  assert (E : Z.lor (uint32 id) DELETED_FLAG_BIT_MASK = id + 2 ^ 31).
  { unfold uint32. rewrite Z.mod_small by lia. symmetry. change DELETED_FLAG_BIT_MASK with (2 ^ 31).
    apply Z.add_nocarry_lor.
    apply Z.bits_inj'. intros n Hn. rewrite Z.land_spec, Z.bits_0, Z.pow2_bits_eqb by lia.
    destruct (Z.eqb_spec 31 n) as [<-|]; [|by rewrite andb_false_r]. rewrite andb_true_r. apply Z.bits_above_log2; [lia|].
    destruct (Z.eq_dec id 0) as [->|]; [done|]. apply Z.log2_lt_pow2; lia. }
  rewrite E. unfold uint32, int32. change (2 ^ 32) with (2 ^ 31 + 2 ^ 31).
  rewrite <- (Z.mod_small (id + 2 ^ 31) (2 ^ 31 + 2 ^ 31)) at 2 by lia.
  rewrite Zminus_mod_idemp_l. f_equal. lia.
Qed.

(** The two parts of the word that [set_record_trx_id] writes are read back. *)
Lemma word_parts id del :
  0 <= id < 2 ^ 31 ->
  word_trx_id (record_word id del) = id /\ word_deleted (record_word id del) = del.
Proof.
  intros Hid. unfold word_trx_id, word_deleted. rewrite uint32_record_word by done.
  change TRX_ID_BIT_MASK with (Z.ones 31). change DELETED_FLAG_BIT_MASK with (2 ^ 31).
  rewrite Z.land_ones by lia.
  assert (Hb : forall z, 0 <= z < 2 ^ 32 -> Z.land z (2 ^ 31) = if z <? 2 ^ 31 then 0 else 2 ^ 31).
  { intros z Hz. apply Z.bits_inj'. intros n Hn. rewrite Z.land_spec, Z.pow2_bits_eqb by lia.
    destruct (Z.eqb_spec 31 n) as [<-|Hne].
    - rewrite andb_true_r, Z.testbit_eqb by lia. destruct (Z.ltb_spec z (2 ^ 31)).
      + rewrite Z.bits_0, Z.div_small by lia. done.
      + rewrite Z.pow2_bits_true by lia. by rewrite <- (Z.div_unique z (2 ^ 31) 1 (z - 2 ^ 31)) by lia.
    - rewrite andb_false_r. destruct (z <? 2 ^ 31); [by rewrite Z.bits_0|]. rewrite Z.pow2_bits_false by lia. done. }
  destruct del.
  - rewrite Hb by lia. destruct (Z.ltb_spec (id + 2 ^ 31) (2 ^ 31)); [lia|]. split; [|done].
    rewrite <- (Z.mod_unique (id + 2 ^ 31) (2 ^ 31) 1 id) by lia. apply int32_id. unfold is_int32. lia.
  - rewrite Hb by lia. destruct (Z.ltb_spec id (2 ^ 31)); [|lia]. split; [|done].
    rewrite Z.mod_small by lia. apply int32_id. unfold is_int32. lia.
Qed.

(** The bytes of a record without its transaction word. *)
Definition content (m : TableMeta) (data : list Z) : list Z :=
  match trx_offset m data with Some off => wr32 data off 0 | None => data end.

Section word.
Implicit Types (m : TableMeta) (data : list Z) (id : Z) (del : bool).

Lemma trx_offset_block m data off : trx_offset m data = Some off -> in_block data off 4.
Proof.
  unfold trx_offset. destruct (trx_field m) as [f|]; [|done]. destruct (Z.leb_spec 0 (fm_offset f)); [|done].
  destruct (Z.leb_spec (fm_offset f + 4) (alen data)); [|done]. intros [= <-]. split_and!; lia.
Qed.

Lemma trx_offset_len m data data' : alen data' = alen data -> trx_offset m data' = trx_offset m data.
Proof. unfold trx_offset. by intros ->. Qed.

(** What writing a transaction word does. *)
Lemma write_trx_spec m data off id del :
  trx_offset m data = Some off -> 0 <= id < 2 ^ 31 ->
  exists data', write_trx m id del data = Some data' /\ trx_offset m data' = Some off /\
    read_trx m data' = Some (id, del) /\ content m data' = content m data /\ alen data' = alen data.
Proof.
  intros Ho Hid. pose proof (trx_offset_block m data off Ho) as Hb. unfold write_trx. rewrite Ho. simpl.
  pose proof (alen_wr32 data off (record_word id del) Hb) as Hl.
  assert (Ho' : trx_offset m (wr32 data off (record_word id del)) = Some off) by (by rewrite (trx_offset_len m data)).
  eexists. split; [done|]. split; [done|]. split; [|split; [|done]].
  - unfold read_trx. rewrite Ho'. simpl. rewrite rd32_wr32_same by (try done; by apply record_word_range).
    by destruct (word_parts id del Hid) as [-> ->].
  - unfold content. rewrite Ho', Ho. by apply wr32_wr32.
Qed.
End word.



(** The number and the deletion mark are read back from a record exactly for the transaction numbers
    that are not negative: the counter wraps around after [2^31 - 1] transactions, and the
    records of later ones are taken for deleted. *)
Theorem record_word_roundtrip id del :
  is_int32 id ->
  ((word_trx_id (record_word id del), word_deleted (record_word id del)) = (id, del) <-> 0 <= id).
Proof.
  intros Hid. unfold is_int32 in Hid. split.
  - intros [= Hw _]. rewrite <- Hw. unfold word_trx_id. change TRX_ID_BIT_MASK with (Z.ones 31).
    rewrite Z.land_ones by lia. pose proof (Z.mod_pos_bound (uint32 (record_word id del)) (2 ^ 31) ltac:(lia)).
    rewrite int32_id; unfold is_int32; lia.
  - intros Hp. destruct (word_parts id del ltac:(lia)) as [-> ->]. done.
Qed.

Lemma record_word_roundtrip_witness :
  is_int32 5 /\ (word_trx_id (record_word 5 true), word_deleted (record_word 5 true)) = (5, true).
Proof.
  assert (H5 : is_int32 5) by (split; lia). split; [exact H5|]. apply (record_word_roundtrip 5 true H5). lia.
Defined.

(** ** The set of operations *)

Section operation_lemmas.
Implicit Types (x : Trx) (t : Z) (rid : RID).

Lemma find_insert_same t rid k x :
  find_operation t rid x = None -> find_operation t rid (insert_operation t k rid x) = Some k.
Proof.
  unfold find_operation, insert_operation. simpl. rewrite lookup_insert_eq.
  destruct (operations_ x !! t) as [ops|]; simpl.
  - intros ->. by rewrite lookup_insert_eq.
  - intros _. rewrite lookup_empty. by rewrite lookup_insert_eq.
Qed.

Lemma find_insert_other t rid k x t' rid' :
  (t', rid') <> (t, rid) -> find_operation t' rid' (insert_operation t k rid x) = find_operation t' rid' x.
Proof.
  intros Hne. unfold find_operation, insert_operation. simpl.
  destruct (decide (t' = t)) as [->|Ht]; [|by rewrite lookup_insert_ne].
  rewrite lookup_insert_eq. assert (rid' <> rid) by congruence.
  destruct (operations_ x !! t) as [ops|]; simpl.
  - destruct (ops !! rid); [done|]. by rewrite lookup_insert_ne.
  - rewrite lookup_empty. by rewrite lookup_insert_ne by done.
Qed.

Lemma find_delete t rid x t' rid' :
  find_operation t' rid' (delete_operation t rid x) =
    if decide ((t', rid') = (t, rid)) then None else find_operation t' rid' x.
Proof.
  unfold find_operation, delete_operation. destruct (operations_ x !! t) as [ops|] eqn:E; simpl.
  - destruct (decide (t' = t)) as [->|Ht].
    + rewrite lookup_insert_eq, E. case_decide as Hd; [injection Hd as ->; apply lookup_delete_eq|].
      apply lookup_delete_ne. congruence.
    + rewrite lookup_insert_ne by done. case_decide; [congruence|done].
  - case_decide as Hd; [injection Hd as -> ->; by rewrite E|done].
Qed.

Lemma elem_of_all_operations t rid k x :
  (t, rid, k) ∈ all_operations (operations_ x) <-> find_operation t rid x = Some k.
Proof.
  unfold all_operations, find_operation. rewrite list_elem_of_bind. split.
  - intros ([t' ops] & Hin & Ht). apply list_elem_of_bind in Hin as ([rid' k'] & Hin & Ho).
    apply list_elem_of_singleton in Hin. simplify_eq/=. apply elem_of_map_to_list in Ht as ->.
    by apply elem_of_map_to_list in Ho.
  - destruct (operations_ x !! t) as [ops|] eqn:E; [|done]. intros Ho. exists (t, ops). split.
    + apply list_elem_of_bind. exists (rid, k). split; [apply list_elem_of_singleton; done|]. by apply elem_of_map_to_list.
    + by apply elem_of_map_to_list.
Qed.

Lemma operation_keys_NoDup x : NoDup ((fun o => o.1) <$> all_operations (operations_ x)).
Proof.
  unfold all_operations. pose proof (NoDup_fst_map_to_list (operations_ x)) as Ht.
  set (l := map_to_list (operations_ x)) in *. clearbody l. induction l as [|[t ops] l IH]; simpl; [constructor|].
  apply NoDup_cons in Ht as [Hn Ht]. rewrite fmap_app. apply NoDup_app. split_and!.
  - pose proof (NoDup_fst_map_to_list ops) as Ho.
    set (l' := map_to_list ops) in *. clearbody l'. clear -Ho. induction l' as [|[rid k] l' IH]; simpl; [constructor|].
    apply NoDup_cons in Ho as [Hn Ho]. constructor; [|by apply IH]. intros Hin.
    apply list_elem_of_fmap in Hin as ([[t' rid'] k'] & Hk & Hin). simplify_eq/=.
    apply list_elem_of_bind in Hin as ([rid2 k2] & Hin & Hl). apply list_elem_of_singleton in Hin. simplify_eq/=.
    apply Hn. apply list_elem_of_fmap. by exists (rid2, k2).
  - intros [t' rid'] Hin Hin'. apply list_elem_of_fmap in Hin as ([[? ?] ?] & Hk & Hin). simplify_eq/=.
    apply list_elem_of_bind in Hin as ([? ?] & Hin & _). apply list_elem_of_singleton in Hin. simplify_eq/=.
    apply list_elem_of_fmap in Hin' as ([[? ?] ?] & Hk & Hin). simplify_eq/=.
    apply list_elem_of_bind in Hin as ([t2 ops2] & Hin & Hl). apply list_elem_of_bind in Hin as ([? ?] & Hin & _).
    apply list_elem_of_singleton in Hin. simplify_eq/=. apply Hn. apply list_elem_of_fmap. by exists (t2, ops2).
  - by apply IH.
Qed.
End operation_lemmas.

(** ** Deleting a record *)

Section delete.
Context {R W : Type} `{Replacer R} `{OS W} `{HashOrder}.
Implicit Types (s : TS (DB R W)) (t f : Z) (rid : RID) (x : Trx) (m : TableMeta).

(** The state with a started transaction. *)
Definition started s : TS (DB R W) :=
  if trx_id_ (ts_trx s) =? 0 then
    let n := int32 (ts_next s + 1) in
    {| ts_trx := {| trx_id_ := n; operations_ := operations_ (ts_trx s) |}; ts_next := n; ts_store := ts_store s |}
  else s.

Lemma start_run s : start_if_not_started s = (Ok tt, started s).
Proof. unfold start_if_not_started, started. rewrite bind_gets. by destruct (_ =? 0). Qed.

(** A transaction number that is, or will be, positive. *)
Definition numbered s : Prop := 0 < trx_id_ (ts_trx s) < 2 ^ 31 \/ trx_id_ (ts_trx s) = 0 /\ 0 <= ts_next s < 2 ^ 31 - 1.

Lemma started_number s : numbered s -> 0 < trx_id_ (ts_trx (started s)) < 2 ^ 31.
Proof.
  intros [Hn|[Hz Hn]]; unfold started; [rewrite (proj2 (Z.eqb_neq _ 0)) by lia; done|].
  rewrite Hz. simpl. rewrite int32_id; unfold is_int32; lia.
Qed.

Lemma started_parts s :
  ts_store (started s) = ts_store s /\ operations_ (ts_trx (started s)) = operations_ (ts_trx s) /\
  forall t rid, find_operation t rid (ts_trx (started s)) = find_operation t rid (ts_trx s).
Proof. unfold started. by destruct (_ =? 0). Qed.

(** What the session with the transaction object [x] gets for a record. *)
Definition seen_by x t (p : option (Z * Z)) s : res bool := (is_visible t p {| ts_trx := x; ts_next := ts_next s; ts_store := ts_store s |}).1.

Lemma seen_word x t p s m data w :
  store_meta t (ts_store s) = Some m -> store_load p (ts_store s) = Some data -> read_trx m data = Some w ->
  seen_by x t p s = Ok (visible_to (trx_id_ x) w).
Proof.
  intros Hm Hd Hw. unfold seen_by, is_visible, get_record_trx_id, record_of. rewrite !bind_assoc, bind_gets.
  cbn [ts_store]. rewrite Hm, Hd, bind_ret, Hw, bind_ret, bind_gets. done.
Qed.

Lemma store_load_run f o s : 0 <= o -> store_load (Some (f, o)) (ts_store s) = Some (drop (Z.to_nat o) (data_of f (db_pool (ts_store s)))).
Proof. intros Ho. simpl. by rewrite (proj2 (Z.ltb_ge o 0)). Qed.

(** The pool with the word at [off] of the record at [o] of the page in frame [f]. *)
Definition with_word f o off (w : Z) (p : Pool R W) : Pool R W := upd_data f (fun page => wr32 page (o + off) w) p.

(** Other bytes than those of the word stay. *)
Lemma put_in_tail (page bs : list Z) o off :
  0 <= o -> in_block (drop (Z.to_nat o) page) off (alen bs) ->
  take (Z.to_nat o) page ++ put (drop (Z.to_nat o) page) off bs = put page (o + off) bs.
Proof.
  intros Ho (B1 & B2 & B3). assert (Hl : alen (drop (Z.to_nat o) page) = Z.max 0 (alen page - o))
    by (unfold alen; rewrite length_drop; lia). rewrite Hl in B3.
  unfold put. rewrite app_assoc, take_take_drop, drop_drop. do 2 f_equal; [f_equal|f_equal; f_equal]; unfold alen; lia.
Qed.

(** Writing the word of the record at [o] in the page of frame [f]. *)
Lemma set_word_run t f o id del s m data off :
  store_meta t (ts_store s) = Some m -> store_load (Some (f, o)) (ts_store s) = Some data -> trx_offset m data = Some off ->
  0 <= f < nframes (db_pool (ts_store s)) ->
  let s' := set_db (set_db_pool (with_word f o off (record_word id del) (db_pool (ts_store s))) (ts_store s)) s in
  set_record_trx_id t (Some (f, o)) id del s = (Ok tt, s') /\
  store_load (Some (f, o)) (ts_store s') = Some (wr32 data off (record_word id del)).
Proof.
  intros Hm Hd Hoff Hf s'. pose proof (trx_offset_block m data off Hoff) as Hb.
  simpl in Hd. destruct (Z.ltb_spec o 0) as [|Ho]; [done|]. injection Hd as Hd.
  assert (Hlen : (Z.to_nat o <= length (data_of f (db_pool (ts_store s))))%nat).
  { rewrite <- Hd in Hb. destruct Hb as (Hb1 & _ & Hb2). unfold alen in Hb2. rewrite length_drop in Hb2. clear -Hb1 Hb2 Ho. set (n := length _) in *. clearbody n. lia. }
  assert (Hpage : take (Z.to_nat o) (data_of f (db_pool (ts_store s))) ++ wr32 data off (record_word id del) =
                  wr32 (data_of f (db_pool (ts_store s))) (o + off) (record_word id del)).
  { unfold wr32. rewrite <- Hd in Hb |- *. by apply put_in_tail. }
  split.
  - unfold set_record_trx_id, record_of. rewrite bind_assoc, bind_gets.
    rewrite Hm, store_load_run, Hd, bind_ret by done. unfold write_trx. rewrite Hoff. cbn [fmap option_fmap option_map].
    rewrite bind_gets. unfold set_store, modify, s', set_db, set_db_pool, with_word. cbn [store_save db_store].
    unfold set_db_pool. do 3 f_equal. unfold upd_data, upd_frame. do 3 f_equal. unfold with_data. do 2 f_equal. done.
  - rewrite store_load_run by done. f_equal. unfold s', data_of. cbn. unfold with_word, upd_data.
    rewrite frame_upd, Z.eqb_refl by done. cbn. change (p_data _) with (data_of f (db_pool (ts_store s))).
    rewrite <- Hpage. apply drop_app_length'. rewrite length_take. lia.
Qed.

Lemma seen_deleted x id : 0 < id -> visible_to (trx_id_ x) (id, true) = negb (trx_id_ x =? id).
Proof.
  intros Hid. unfold visible_to. cbn [fst snd]. rewrite (proj2 (Z.eqb_neq 0 id)) by lia.
  rewrite (Z.eqb_sym id). by destruct (_ =? id).
Qed.

Lemma delete_keeps_id t rid x : trx_id_ (delete_operation t rid x) = trx_id_ x.
Proof. unfold delete_operation. by destruct (operations_ x !! t). Qed.

(** What Trx::delete_record leaves of the record at [o] in frame [f], whose word is at [off]. *)
Definition delete_outcome t rid f o off s (r : res unit) s' : Prop :=
  let operation_after (k : option Operation.kind) := forall t' rid', find_operation t' rid' (ts_trx s') =
    if decide ((t', rid') = (t, rid)) then k else find_operation t' rid' (ts_trx s) in
  match find_operation t rid (ts_trx s) with
  | Some Operation.INSERT => r = Ok tt /\ ts_store s' = ts_store s /\ operation_after None
  | Some k => r = Err GENERIC_ERROR /\ ts_store s' = ts_store s /\ operation_after (Some k)
  | None =>
      r = Ok tt /\ operation_after (Some Operation.DELETE) /\ db_tables (ts_store s') = db_tables (ts_store s) /\
      db_pool (ts_store s') = with_word f o off (record_word (trx_id_ (ts_trx s')) true) (db_pool (ts_store s)) /\
      forall x, seen_by x t (Some (f, o)) s' = Ok (negb (trx_id_ x =? trx_id_ (ts_trx s')))
  end.

Lemma delete_record_run t rid f o s m data off :
  store_meta t (ts_store s) = Some m -> store_load (Some (f, o)) (ts_store s) = Some data -> trx_offset m data = Some off ->
  0 <= f < nframes (db_pool (ts_store s)) -> numbered s ->
  exists r s', trx_delete_record t rid (Some (f, o)) s = (r, s') /\
    trx_id_ (ts_trx s') = trx_id_ (ts_trx (started s)) /\ 0 < trx_id_ (ts_trx s') < 2 ^ 31 /\ delete_outcome t rid f o off s r s'.
Proof.
  unfold delete_outcome. intros Hm Hd Hoff Hf Hn. pose proof (started_number s Hn) as Hid. destruct (started_parts s) as (Es & Eo & Ef).
  unfold trx_delete_record. rewrite (bind_run _ _ _ _ _ (start_run s)), bind_gets, Ef.
  set (s1 := started s) in *. rewrite <- Es in Hm, Hd, Hf |- *. clearbody s1.
  destruct (find_operation t rid (ts_trx s)) as [k|] eqn:Ek.
  - assert (Hkeep : forall t' rid', find_operation t' rid' (ts_trx s1) =
      if decide ((t', rid') = (t, rid)) then Some k else find_operation t' rid' (ts_trx s)).
    { intros t' rid'. rewrite Ef. case_decide as E; [|done]. by injection E as -> ->. }
    destruct k; (eexists _, _; split; [reflexivity|]; cbv zeta; split_and!; cbn [ts_trx]; rewrite ?delete_keeps_id; try (done || lia)).
    intros t' rid'. rewrite find_delete. case_decide; [done|apply Ef].
  - destruct (set_word_run t f o (trx_id_ (ts_trx s1)) true s1 m data off Hm Hd Hoff Hf) as [Hrun Hload].
    rewrite (bind_run _ _ _ _ _ Hrun), bind_gets. set (s2 := set_db _ s1) in *.
    eexists _, _. split; [reflexivity|]. cbv zeta. split_and!; cbn [ts_trx trx_id_ insert_operation];
      change (ts_trx s2) with (ts_trx s1); try (done || lia).
    + intros t' rid'. case_decide as E.
      * injection E as -> ->. apply find_insert_same. by rewrite Ef.
      * rewrite find_insert_other by done. apply Ef.
    + intros x.
      rewrite (seen_word x t (Some (f, o)) _ m (wr32 data off (record_word (trx_id_ (ts_trx s1)) true)) (trx_id_ (ts_trx s1), true)); [by rewrite seen_deleted by lia|done|exact Hload|].
      destruct (write_trx_spec m data off (trx_id_ (ts_trx s1)) true Hoff ltac:(lia)) as (data' & Hw & _ & Hr & _).
      unfold write_trx in Hw. rewrite Hoff in Hw. injection Hw as <-. exact Hr.
Qed.

End delete.

(** ** The word of a stored record *)

(** The first record of a transaction is stored with the number 0, because init_trx_info runs before the
    transaction gets its number: every other session sees it before the commit. *)
Theorem first_insert_visible {S} m data off (s : TS S) :
  trx_offset m data = Some off -> 0 <= trx_id_ (ts_trx s) < 2 ^ 31 ->
  exists data', init_trx_info m data s = (Ok data', s) /\ read_trx m data' = Some (trx_id_ (ts_trx s), false) /\
    forall x : Trx, visible_to (trx_id_ x) (trx_id_ (ts_trx s), false) =
      (trx_id_ (ts_trx s) =? 0) || (trx_id_ (ts_trx s) =? trx_id_ x).
Proof.
  intros Ho Hid. destruct (write_trx_spec m data off _ false Ho Hid) as (data' & Hw & _ & Hr & _). exists data'.
  unfold init_trx_info. rewrite bind_gets, Hw. split_and!; [done|done|]. intros x. unfold visible_to. cbn [fst snd].
  rewrite (Z.eqb_sym 0). by destruct (_ || _).
Qed.

Section stored.
Context {R W : Type} `{ReplacerLaws R} `{OSLaws W} `{HashOrder}.
Implicit Types (p : Pool R W) (s : TS (DB R W)) (t f : Z) (rid : RID) (m : TableMeta).

(** The pools differ in pin counts and in the replacer only. *)
Record same_pages p p' : Prop := {
  sp_cached fd pn : cached p' fd pn = cached p fd pn;
  sp_world : world p' = world p;
  sp_frames : nframes p' = nframes p;
  sp_page f : f_page (frame_of f p') = f_page (frame_of f p);
  sp_dirty f : f_dirty (frame_of f p') = f_dirty (frame_of f p) }.

#[local] Instance same_pages_preorder : PreOrder same_pages.
Proof. split; [by constructor|]. intros p1 p2 p3 [] []. constructor; intros; etrans; eauto. Qed.

Lemma same_pages_view p p' fd pn : same_pages p p' -> view p' fd pn = view p fd pn.
Proof. intros [Hc Hw _ Hp _]. unfold view. rewrite Hc, Hw. destruct (cached p fd pn); [by rewrite Hp|done]. Qed.

Lemma frame_upd_same p f (h : Frame -> Frame) g :
  (forall fr, f_page (h fr) = f_page fr /\ f_dirty (h fr) = f_dirty fr) -> 0 <= f < nframes p ->
  f_page (frame_of g (upd_frame f h p)) = f_page (frame_of g p) /\ f_dirty (frame_of g (upd_frame f h p)) = f_dirty (frame_of g p).
Proof. intros Hh Hf. rewrite frame_upd by done. destruct (Z.eqb_spec f g) as [->|]; [apply Hh|done]. Qed.

Lemma unpin_pages p f :
  0 <= f < nframes p ->
  exists p', unpin_page {| ph_open := true; ph_frame := Some f |} p = (Ok {| ph_open := false; ph_frame := Some f |}, p') /\
    same_pages p p'.
Proof.
  intros Hf. unfold unpin_page. cbn [ph_frame]. rewrite bind_modify, bind_gets.
  assert (Hs : same_pages p (upd_frame f (fun fr => set_pin_count (f_pin_count fr - 1) fr) p)).
  { constructor; [done|done|by rewrite nframes_upd|intros g; by apply frame_upd_same|intros g; by apply frame_upd_same]. }
  destruct (f_pin_count _ =? 0); eexists; (split; [reflexivity|]); [|done].
  etrans; [exact Hs|]. by constructor.
Qed.

(** A computation that does not change the page it works on. *)
Lemma on_page_reads {A} (c : M (list Z) A) (s : RS R W) f r :
  rph_header (rs_ph s) = Some f -> ph_frame (rph_handle (rs_ph s)) = Some f -> 0 <= f < nframes (rs_pool s) ->
  c (data_of f (rs_pool s)) = (r, data_of f (rs_pool s)) ->
  exists p', on_page c s = (r, set_pool p' s) /\ same_pages (rs_pool s) p'.
Proof.
  intros Hh Hf Hr Hc. unfold on_page. rewrite Hh, Hf, Z.eqb_refl, Hc. eexists. split; [done|].
  constructor; [done|done|unfold upd_data; by rewrite nframes_upd| |]; intros g; unfold upd_data; rewrite frame_upd by done;
    (destruct (Z.eqb_spec f g) as [->|]; [|done]); simpl; [|done].
  unfold with_data, data_of. by destruct (f_page _).
Qed.

(** The slot of a page, as [get_slot] gives it. *)
Definition slot_result (d : list Z) (slot : Z) : res Z :=
  if record_capacity d <=? slot then Err RECORD_INVALIDRID
  else match records d slot with Some _ => Ok (record_offset d slot) | None => Err RECORD_RECORD_NOT_EXIST end.

(** A record is fetched: the page has been loaded into frame [f], and is not pinned any more. *)
Lemma get_record_run h rid p p1 f :
  rfh_open h = true -> get_this_page (rfh_file_id h) (page_num rid) p = (Ok {| ph_open := true; ph_frame := Some f |}, p1) ->
  0 <= f < nframes p1 -> page_ok (data_of f p1) -> 0 <= slot_num rid ->
  exists p2, same_pages p1 p2 /\
    RecordFile.get_record h rid p =
      (match slot_result (data_of f p1) (slot_num rid) with
       | Ok o => Ok (Some {| rec_rid := rid; rec_data := Some (f, o) |}) | Err rc => Err rc | Ub => Ub | OutOfFuel => OutOfFuel
       end, p2).
Proof.
  intros Ho Hget%get_this_page_run Hf Hok Hs. destruct (get_slot_ok _ (slot_num rid) Hok Hs) as [Hslot _].
  fold (slot_result (data_of f p1) (slot_num rid)) in Hslot.
  assert (Hres : (exists o, slot_result (data_of f p1) (slot_num rid) = Ok o) \/ exists rc, slot_result (data_of f p1) (slot_num rid) = Err rc).
  { unfold slot_result. destruct (_ <=? _); [right; by eexists|]. destruct (records _ _); [left|right]; by eexists. }
  set (s1 := {| rs_pool := p1; rs_ph := {| rph_open := true; rph_file_id := rfh_file_id h;
                 rph_handle := {| ph_open := true; ph_frame := Some f |}; rph_header := Some f |} |}).
  assert (Hinit : init (rfh_file_id h) (page_num rid) {| rs_pool := p; rs_ph := RecordPageHandler_create |} = (Ok tt, s1)).
  { unfold init. rewrite bind_gets. cbn [rs_ph rph_open RecordPageHandler_create]. rewrite bind_fail_if. unfold bind at 1, lift at 1.
    cbn [rs_pool rs_ph rph_handle RecordPageHandler_create]. rewrite Hget. reflexivity. }
  destruct (on_page_reads (get_slot (slot_num rid)) s1 f _ eq_refl eq_refl Hf Hslot) as (p' & Hrun & Hp').
  destruct (unpin_pages p' f) as (p2 & Hun & Hp2); [by rewrite (sp_frames _ _ Hp')|].
  exists p2. split; [by etrans|]. unfold RecordFile.get_record, bound. rewrite Ho. rewrite bind_undefined_if. cbn [negb].
  unfold with_local, init_or. rewrite (bind_rc_of _ _ _ _ _ Hinit). cbv beta. rewrite bool_decide_eq_true_2 by done.
  assert (Hd : deinit (set_pool p' s1) = (Ok tt, {| rs_pool := p2; rs_ph := {| rph_open := false; rph_file_id := rfh_file_id h;
             rph_handle := {| ph_open := false; ph_frame := Some f |}; rph_header := Some f |} |})).
  { unfold deinit. rewrite bind_gets. cbn [rs_ph set_pool s1 rph_open]. unfold bind, lift. cbn [rs_pool set_pool rph_handle].
    rewrite Hun. reflexivity. }
  unfold ph_get_record. rewrite !bind_assoc. destruct Hres as [[o E]|[rc E]]; rewrite E in Hrun |- *.
  - rewrite (bind_run _ _ _ _ _ Hrun). unfold data_ptr. rewrite bind_assoc, bind_gets, bind_ret. unfold ret at 1.
    rewrite Hd. reflexivity.
  - rewrite (bind_run_Err _ _ _ _ _ Hrun). rewrite Hd. reflexivity.
Qed.

(** Writing a part of a record is writing the record. *)
Lemma put_part (d : list Z) o n off (bs : list Z) :
  in_block d o n -> 0 <= off -> off + alen bs <= n -> put d o (put (load d o n) off bs) = put d (o + off) bs.
Proof.
  intros Hb Ho Hn. pose proof (alen_load d o n Hb) as Hl. pose proof (alen_nonneg bs). destruct Hb as (B1 & B2 & B3).
  assert (Hi : in_block (load d o n) off (alen bs)) by (unfold in_block; rewrite Hl; lia).
  pose proof (alen_put (load d o n) off bs Hi) as Hp. rewrite Hl in Hp.
  assert (Ho1 : in_block d o (alen (put (load d o n) off bs))) by (unfold in_block; lia).
  assert (Ho2 : in_block d (o + off) (alen bs)) by (unfold in_block; lia).
  apply array_eq; [by rewrite !alen_put|]. intros i Hi'. rewrite alen_put in Hi' by done.
  rewrite (aget_put d o), (aget_put d (o + off)), Hp by (done || lia).
  destruct (Z.leb_spec o i), (Z.ltb_spec i (o + n)), (Z.leb_spec (o + off) i), (Z.ltb_spec i (o + off + alen bs)); try lia; try done; cbn [andb];
    rewrite aget_put by (done || lia);
    destruct (Z.leb_spec off (i - o)), (Z.ltb_spec (i - o) (off + alen bs)); try lia; cbn [andb];
    rewrite ?aget_load by (done || lia); f_equal; lia.
Qed.

(** The word of a record in a page. *)
Lemma word_changed d slot rec off :
  page_ok d -> records d slot = Some rec -> 0 <= off -> off + 4 <= record_real_size d ->
  changed d (wr32 d (record_offset d slot + off) 0) slot (Some (wr32 rec off 0)).
Proof.
  intros Hok Hr Ho Hn. pose proof (po_layout d Hok) as Hl. pose proof (proj1 (records_Some d slot rec) Hr) as (Hs & Hb & ->).
  pose proof (record_block d Hl slot Hs) as Hblk. unfold RecordPageTheorems.record_bytes in *.
  assert (Hi : in_block (load d (record_offset d slot) (record_real_size d)) off 4) by (unfold in_block; rewrite alen_load by done; lia).
  set (rec := load _ _ _) in *.
  assert (Hlen : alen (wr32 rec off 0) = record_real_size d) by (rewrite alen_wr32 by done; unfold rec; by rewrite alen_load).
  assert (Hbytes : bytes_ok (wr32 rec off 0)) by (apply bytes_ok_put; [apply bytes_ok_load, Hl|apply le32_bytes]).
  destruct (update_slot_ok d slot (wr32 rec off 0) Hok ltac:(lia) ltac:(lia) Hbytes) as (_ & _ & Hu).
  destruct (Hu ltac:(by rewrite Hr)) as (d' & Hrun & _ & Hc).
  rewrite take_ge in Hc by (unfold alen in Hlen; lia).
  assert (d' = wr32 d (record_offset d slot + off) 0) as <-; [|done].
  unfold update_slot, bind in Hrun. rewrite check_slot_ok in Hrun by (done || lia).
  destruct (Z.leb_spec (record_capacity d) slot); [lia|]. rewrite Hb in Hrun. unfold write_record, bind in Hrun.
  destruct (_ || _); [done|]. unfold undefined_if, modify in Hrun. cbn in Hrun. injection Hrun as <-.
  rewrite take_ge by (unfold alen in Hlen; lia). unfold wr32, rec. apply put_part; done || lia.
Qed.

(** The pool after the word has been written. *)
Lemma with_word_pages p fd pn f o off w :
  0 <= f < nframes p -> cached p fd pn = Some f -> (forall fd' pn', cached p fd' pn' = Some f -> (fd', pn') = (fd, pn)) ->
  p_data <$> view (with_word f o off w p) fd pn = Some (wr32 (data_of f p) (o + off) w) /\
  (forall fd' pn', (fd', pn') <> (fd, pn) -> view (with_word f o off w p) fd' pn' = view p fd' pn') /\
  (forall g, f_dirty (frame_of g (with_word f o off w p)) = f_dirty (frame_of g p)).
Proof.
  intros Hf Hc Hinj. split_and!.
  - unfold view. change (cached (with_word f o off w p) fd pn) with (cached p fd pn). rewrite Hc.
    unfold with_word, upd_data. by rewrite frame_upd, Z.eqb_refl.
  - intros fd' pn' Hne. unfold view. change (cached (with_word f o off w p) fd' pn') with (cached p fd' pn').
    destruct (cached p fd' pn') as [g|] eqn:Eg; [|done]. unfold with_word, upd_data. rewrite frame_upd by done.
    destruct (Z.eqb_spec f g) as [<-|]; [|done]. by apply Hinj in Eg.
  - intros g. unfold with_word, upd_data. rewrite frame_upd by done. by destruct (Z.eqb_spec f g) as [<-|].
Qed.

(** The record of [rid] in table [t] is fetched: [p1] is the pool with its page. *)
Lemma handler_get_run t rid s x h ph p1 f :
  tables s !! t = Some x -> record_handler_ x = Some (h, ph) -> rfh_open h = true ->
  get_this_page (rfh_file_id h) (page_num rid) (db_pool (ts_store s)) = (Ok {| ph_open := true; ph_frame := Some f |}, p1) ->
  0 <= f < nframes p1 -> page_ok (data_of f p1) -> 0 <= slot_num rid ->
  exists p2, same_pages p1 p2 /\
    handler_get t rid None s =
      (match slot_result (data_of f p1) (slot_num rid) with
       | Ok o => Ok (Some {| rec_rid := rid; rec_data := Some (f, o) |}) | Err rc => Err rc | Ub => Ub | OutOfFuel => OutOfFuel
       end, set_db (set_db_pool p2 (ts_store s)) s).
Proof.
  intros Hx Hh Ho Hget Hf Hok Hs. destruct (get_record_run h rid _ p1 f Ho Hget Hf Hok Hs) as (p2 & Hp & Hrun).
  exists p2. split; [done|]. unfold handler_get, record_handler, this. rewrite !bind_assoc, bind_gets.
  change (db_tables (ts_store s)) with (tables s). rewrite Hx, bind_ret, Hh, bind_ret. unfold bind, on_pool. rewrite Hrun.
  by destruct (slot_result _ _).
Qed.

(** C30. Table::commit_insert and Table::rollback_delete, which do the same to a record: once the page of
    the record has been loaded, a record that is not there is an error and changes nothing; otherwise the
    word of the record becomes 0, so that every session sees it, and neither its other bytes nor another
    record or page change.  The page is not marked dirty: whether the change survives is left to other
    writes to the page. *)
Theorem word_reset_ok t rid s x h ph fh q p1 hd fm call :
  call = table_commit_insert t rid \/ call = rollback_delete t rid ->
  let p := db_pool (ts_store s) in let fd := fh_file_desc fh in let d := p_data q in
  tables s !! t = Some x -> record_handler_ x = Some (h, ph) -> rfh_open h = true -> trx_field (table_meta_ x) = Some fm ->
  pool_inv p -> open_file_ p !! rfh_file_id h = Some fh -> view p fd (page_num rid) = Some q -> p_page_num q = page_num rid ->
  page_ok d -> 0 <= slot_num rid -> 0 <= fm_offset fm -> fm_offset fm + 4 <= record_real_size d ->
  get_this_page (rfh_file_id h) (page_num rid) p = (Ok hd, p1) ->
  exists r s', call s = (r, s') /\ ts_trx s' = ts_trx s /\ ts_next s' = ts_next s /\ tables s' = tables s /\
    let p' := db_pool (ts_store s') in
    (forall fd' pn q', live p fd' -> (fd', pn) <> (fd, page_num rid) -> view p fd' pn = Some q' -> view p' fd' pn = Some q') /\
    (forall g, f_dirty (frame_of g p') = f_dirty (frame_of g p1)) /\
    match records d (slot_num rid) with
    | None =>
        r = Err (if record_capacity d <=? slot_num rid then RECORD_INVALIDRID else RECORD_RECORD_NOT_EXIST) /\
        view p' fd (page_num rid) = Some q
    | Some rec =>
        r = Ok tt /\ read_trx (table_meta_ x) (wr32 rec (fm_offset fm) 0) = Some (0, false) /\
        exists d', p_data <$> view p' fd (page_num rid) = Some d' /\
          changed d d' (slot_num rid) (Some (wr32 rec (fm_offset fm) 0))
    end.
Proof.
  intros Hcall p fd d Hx Hh Ho Hfm Hinv Hfh Hview Hnum Hok Hs Hoff Hoff2 Hget. pose proof (get_this_page_run _ _ _ _ _ Hget) as Hrun.
  assert (Hex : page_exists p (rfh_file_id h) (page_num rid)).
  { intros fh' Hfh'. rewrite Hfh in Hfh'. injection Hfh' as <-. by exists q. }
  destruct (get_this_page_success _ _ _ _ _ _ Hinv Hex Hrun) as [Hi1 Hv1 (fh' & f & Hfh' & -> & Hc1 & _) _].
  rewrite Hfh in Hfh'. injection Hfh' as <-. fold fd in Hc1. destruct (pi_range _ Hi1 _ _ _ Hc1) as (Hf & _ & _).
  assert (Hq : f_page (frame_of f p1) = q).
  { pose proof (sv_view _ _ Hv1 fd _ q ltac:(by exists (rfh_file_id h), fh) Hview) as Hq. rewrite (view_cached _ _ _ _ Hc1) in Hq. by injection Hq. }
  assert (Hd : data_of f p1 = d) by (unfold data_of; by rewrite Hq).
  destruct (handler_get_run t rid s x h ph p1 f Hx Hh Ho Hget Hf ltac:(by rewrite Hd) Hs) as (p2 & Hp & Hg).
  rewrite Hd in Hg. unfold slot_result in Hg. set (s2 := set_db (set_db_pool p2 (ts_store s)) s) in *.
  assert (Hviews : forall fd' pn q', live p fd' -> view p fd' pn = Some q' -> view p2 fd' pn = Some q').
  { intros fd' pn q' Hl Hv. rewrite (same_pages_view _ _ _ _ Hp). by apply (sv_view _ _ Hv1). }
  destruct (records d (slot_num rid)) as [rec|] eqn:Er.
  - pose proof (proj1 (records_Some d _ rec) Er) as (Hslot & _ & Erec).
    rewrite (proj2 (Z.leb_gt (record_capacity d) (slot_num rid))) in Hg by lia.
    pose proof (record_block d (po_layout d Hok) _ Hslot) as (B1 & B2 & B3). set (o := record_offset d (slot_num rid)) in *.
    assert (Hd2 : data_of f p2 = d) by (unfold data_of; by rewrite (sp_page _ _ Hp), Hq).
    assert (Htrx : trx_offset (table_meta_ x) (drop (Z.to_nat o) d) = Some (fm_offset fm)).
    { unfold trx_offset. rewrite Hfm, (proj2 (Z.leb_le 0 _)), (proj2 (Z.leb_le _ _)) by (unfold alen in *; rewrite ?length_drop; lia). done. }
    destruct (set_word_run t f o 0 false s2 (table_meta_ x) (drop (Z.to_nat o) d) (fm_offset fm)) as [Hset _];
      [change (table_meta_ <$> tables s !! t = Some (table_meta_ x)); by rewrite Hx|rewrite store_load_run by done; change (db_pool (ts_store s2)) with p2; by rewrite Hd2|done|change (0 <= f < nframes p2); by rewrite (sp_frames _ _ Hp)|].
    assert (Hi2 : cached p2 fd (page_num rid) = Some f) by (by rewrite (sp_cached _ _ Hp)).
    destruct (with_word_pages p2 fd (page_num rid) f o (fm_offset fm) 0 ltac:(by rewrite (sp_frames _ _ Hp)) Hi2) as (W1 & W2 & W3).
    { intros fd' pn'. rewrite (sp_cached _ _ Hp). intros Hc'. destruct (pi_inj _ Hi1 _ _ _ _ _ Hc' Hc1). congruence. }
    eexists (Ok tt), _. split; [destruct Hcall as [-> | ->]; [unfold table_commit_insert|unfold rollback_delete];
      rewrite (bind_run _ _ _ _ _ Hg); exact Hset|].
    split; [done|]. split; [done|]. split; [done|]. cbv zeta. split; [|split; [|split; [done|split]]].
    + intros fd' pn q' Hl Hne Hv. change (view (with_word f o (fm_offset fm) 0 p2) fd' pn = Some q'). rewrite W2 by done. by apply Hviews.
    + intros g. rewrite <- (sp_dirty _ _ Hp). apply W3.
    + assert (Hto : trx_offset (table_meta_ x) rec = Some (fm_offset fm)).
      { unfold trx_offset. rewrite Hfm, Erec. unfold RecordPageTheorems.record_bytes. rewrite alen_load by done.
        rewrite (proj2 (Z.leb_le 0 _)), (proj2 (Z.leb_le _ _)) by lia. done. }
      destruct (write_trx_spec (table_meta_ x) rec (fm_offset fm) 0 false Hto ltac:(lia)) as (data' & Hw & _ & Hr & _).
      unfold write_trx in Hw. rewrite Hto in Hw. injection Hw as <-. exact Hr.
    + exists (wr32 d (o + fm_offset fm) 0). split; [rewrite <- Hd2; exact W1|]. by apply word_changed.
  - assert (Hg' : handler_get t rid None s = (Err (if record_capacity d <=? slot_num rid then RECORD_INVALIDRID else RECORD_RECORD_NOT_EXIST), s2))
      by (rewrite Hg; by destruct (_ <=? _)).
    eexists _, s2. split; [destruct Hcall as [-> | ->]; [unfold table_commit_insert|unfold rollback_delete]; by apply bind_run_Err|].
    cbv zeta. split_and!; [done|done|done|intros; by apply Hviews|intros; apply (sp_dirty _ _ Hp)|done|apply Hviews; [by exists (rfh_file_id h), fh|done]].
Qed.
End stored.

(** ** A stored record *)

(** A table of records of 12 bytes with the column [__trx] at offset 1. *)
Definition trx_meta : TableMeta :=
  {| tm_name := "t"; tm_fields := [{| fm_name := "__trx"; fm_type := INTS; fm_offset := 1; fm_len := 4;
                                      fm_visible := false; fm_nullable := false |}];
     tm_indexes := []; tm_record_size := 12 |}.

(** Page 1 of the demo file, with one record; the word of its 12 bytes is that of another transaction. *)
Definition trx_page : RS LRU.LRUReplacer MemFS.fs := (ph_insert_record demo_record demo_rs).2.
Definition trx_table : Table :=
  {| base_dir_ := None; table_meta_ := trx_meta; tb_pool_ := true; file_id_ := 0;
     record_handler_ := Some (demo_rfh, RecordPageHandler_create); indexes_ := [] |}.
Definition trx_db : demo_ts :=
  {| ts_trx := Trx_create; ts_next := 4;
     ts_store := {| db_pool := rs_pool trx_page; db_tables := {[7 := trx_table]} |} |}.
Definition rid0 : RID := {| page_num := 1; slot_num := 0 |}.

Lemma trx_pool_inv : pool_inv (rs_pool trx_page).
Proof.
  apply pool_check_sound; [|vm_compute; reflexivity].
  replace (replacer_ (bpm (rs_pool trx_page))) with (Pin 1 (Unpin 1 (Pin 1 (Pin 0 (LRU.create 2)))))
    by (vm_compute; reflexivity).
  apply Pin_ok, Unpin_ok. do 2 apply Pin_ok. by apply LRU.create_ok.
Qed.


Lemma first_insert_visible_witness :
  exists data', init_trx_info trx_meta (replicate 12 9) trx_db = (Ok data', trx_db) /\ read_trx trx_meta data' = Some (0, false).
Proof.
  destruct (first_insert_visible trx_meta (replicate 12 9) 1 trx_db) as (data' & H1 & H2 & _); [reflexivity|split; [discriminate|reflexivity]|].
  exists data'. split; [exact H1|exact H2].
Defined.

Lemma word_reset_ok_witness :
  exists s', table_commit_insert 7 rid0 trx_db = (Ok tt, s') /\ read_trx trx_meta demo_record = Some (117901063, false) /\
    exists d', p_data <$> view (db_pool (ts_store s')) 6 1 = Some d' /\ records d' 0 = Some (wr32 demo_record 1 0).
Proof.
  destruct (get_this_page 0 1 (rs_pool trx_page)) as [rg p1] eqn:Eg.
  assert (Hr : (get_this_page 0 1 (rs_pool trx_page)).1 = Ok {| ph_open := true; ph_frame := Some 1 |}) by (vm_compute; reflexivity).
  rewrite Eg in Hr. cbn [fst] in Hr. rewrite Hr in Eg.
  destruct (open_file_ (rs_pool trx_page) !! 0) as [fh|] eqn:Efh; [|exfalso; vm_compute in Efh; discriminate].
  assert (Hfd : fh_file_desc fh = 6).
  { assert (E : fh_file_desc <$> open_file_ (rs_pool trx_page) !! 0 = Some 6) by (vm_compute; reflexivity). rewrite Efh in E. by injection E. }
  assert (Hd : data_of 1 (rs_pool trx_page) = demo_used) by (vm_compute; reflexivity).
  destruct (word_reset_ok 7 rid0 trx_db trx_table demo_rfh RecordPageHandler_create fh (f_page (frame_of 1 (rs_pool trx_page))) p1
    {| ph_open := true; ph_frame := Some 1 |}
    {| fm_name := "__trx"; fm_type := INTS; fm_offset := 1; fm_len := 4; fm_visible := false; fm_nullable := false |}
    (table_commit_insert 7 rid0) (or_introl eq_refl)) as (r & s' & Hrun & _ & _ & _ & _ & _ & Hres);
    [reflexivity|reflexivity|reflexivity|reflexivity|exact trx_pool_inv|exact Efh|rewrite Hfd; vm_compute; reflexivity|vm_compute; reflexivity| |
     simpl; lia|simpl; lia| |exact Eg|].
  - change (page_ok (data_of 1 (rs_pool trx_page))). rewrite Hd. exact demo_used_ok.
  - vm_compute. congruence.
  - change (p_data (f_page (frame_of 1 (rs_pool trx_page)))) with (data_of 1 (rs_pool trx_page)) in Hres. rewrite Hd in Hres.
    assert (Er : records demo_used (slot_num rid0) = Some demo_record) by (vm_compute; reflexivity). rewrite Er in Hres.
    destruct Hres as (-> & _ & d' & Hv & Hc). exists s'. split; [exact Hrun|]. split; [vm_compute; reflexivity|]. exists d'.
    rewrite Hfd in Hv. split; [exact Hv|]. rewrite (ch_records _ _ _ _ Hc). reflexivity.
Defined.
