(* ===== verification/TrxRuns.v ===== *)
(** * Transactions: sessions and the end of a transaction

    Which calls leave the transaction object and the counter of transaction numbers alone
    ([trx_rel]); what the calls of a session do to them, for several sessions on one database, in any
    order and with any outcome; and the calls that the end of a transaction makes. *)
From Stdlib Require Import String.
From S2P Require Import Prelude ReturnCode Effects Bitmap Memory Replacer OsFile BufferPool PoolInvariant.
From S2P Require Import RecordPage RecordFile KeyCompare BTreeNode BTree BTreeScan Dates TableMeta.
From S2P Require Import ConditionFilter Trx Index Table TableScan TableFrame TrxTheorems.

#[local] Open Scope c_scope.
#[local] Open Scope Z_scope.

(** ** Calls that leave the transaction alone *)

Section reading.
Context {R W : Type} `{Replacer R} `{OS W} `{HashOrder}.
Context (Q : Trx * Z -> Trx * Z -> Prop) `{!PreOrder Q}.
Implicit Types (t : Z) (rid : RID) (fuel : nat).

(** The transaction object and the counter before and after a call. *)
Definition trx_rel (s s' : TS (DB R W)) : Prop := Q (ts_trx s, ts_next s) (ts_trx s', ts_next s').
#[export] Instance trx_rel_order : PreOrder trx_rel.
Proof. split; [intros s; unfold trx_rel; reflexivity|]. intros s1 s2 s3. unfold trx_rel. apply transitivity. Qed.

Ltac same_objects := unfold trx_rel; simpl; reflexivity.

Lemma trx_on_pool {A} (m : M (Pool R W) A) : keeps trx_rel (on_pool m).
Proof. intros s. unfold on_pool. destruct (m _). same_objects. Qed.
Lemma trx_on_page_handler {A} ph (m : M (RS R W) A) : keeps trx_rel (on_page_handler ph m).
Proof. intros s. unfold on_page_handler. destruct (m _) as [[] ?]; same_objects. Qed.
Lemma trx_on_index {A} x (m : M (IX R W) A) : keeps trx_rel (on_index x m).
Proof. intros s. unfold on_index. destruct (m _) as [[] ?]; same_objects. Qed.
Lemma trx_upd_table t (g : Table -> Table) : keeps trx_rel (upd_table t g).
Proof. intros s. same_objects. Qed.
#[local] Hint Resolve trx_on_pool trx_on_page_handler trx_on_index trx_upd_table : frames.
Lemma trx_this t : keeps trx_rel (this t).
Proof. unfold this. keeps_tac. Qed.
#[local] Hint Resolve trx_this : frames.
Lemma trx_on_index_at {A} t i (m : M (IX R W) A) : keeps trx_rel (on_index_at t i m).
Proof. unfold on_index_at. keeps_tac. Qed.
Lemma trx_record_bytes rec : keeps trx_rel (record_bytes rec).
Proof. unfold record_bytes. keeps_tac. Qed.
Lemma trx_is_visible t (p : option (Z * Z)) : keeps trx_rel (is_visible t p).
Proof. unfold is_visible, get_record_trx_id, record_of. keeps_tac. Qed.
Lemma trx_null_bit bytes i : keeps trx_rel (null_bit bytes i).
Proof. unfold null_bit. keeps_tac. Qed.
Lemma trx_record_handler t : keeps trx_rel (record_handler t).
Proof. unfold record_handler. keeps_tac. Qed.
#[local] Hint Resolve trx_on_index_at trx_record_bytes trx_is_visible trx_null_bit trx_record_handler : frames.
Lemma trx_handler_get t rid cur : keeps trx_rel (handler_get t rid cur).
Proof. unfold handler_get. keeps_tac. Qed.
Lemma trx_read_text t page_num : keeps trx_rel (read_text_record t page_num).
Proof. unfold read_text_record, asserted. keeps_tac. Qed.
#[local] Hint Resolve trx_handler_get trx_read_text : frames.

(** *** Records *)

Lemma trx_handler_insert t data size : keeps trx_rel (handler_insert t data size).
Proof. unfold handler_insert. keeps_tac. Qed.
#[local] Hint Resolve trx_handler_insert : frames.

(** *** Scans *)

Section scans.
Context {C : Type} (t : Z) (trx : bool) (flt : TableFilter) (reader : C -> RecordRef -> M (TS (DB R W)) (RC * C)) (fuel : nat).
Hypothesis Hreader : forall ctx rec, keeps trx_rel (reader ctx rec).

Lemma trx_scan_rows limit rounds sc ctx count ph x : keeps trx_rel (scan_rows fuel t trx limit reader rounds sc ctx count ph x).
Proof.
  revert ctx count ph x. induction rounds as [|n IH]; intros ctx count ph x; simpl; destruct x; unfold visible; keeps_tac;
    auto with frames.
Qed.

Lemma trx_scan_entries limit rounds i sc ctx count cur : keeps trx_rel (scan_entries t trx flt limit reader rounds i sc ctx count cur).
Proof.
  revert sc ctx count cur. induction rounds as [|n IH]; intros sc ctx count cur; simpl; unfold visible; keeps_tac; auto with frames.
Qed.
End scans.

Lemma trx_open_index_scan fuel t f : keeps trx_rel (open_index_scan fuel t f).
Proof. unfold open_index_scan. keeps_tac. Qed.
#[local] Hint Resolve trx_open_index_scan : frames.
Lemma trx_first_index_scan fuel t fs : keeps trx_rel (first_index_scan fuel t fs).
Proof. induction fs as [|f fs IH]; simpl; keeps_tac. Qed.
#[local] Hint Resolve trx_first_index_scan : frames.

Lemma trx_scan_record {C} fuel t trx flt limit (ctx : C) reader :
  (forall ctx rec, keeps trx_rel (reader ctx rec)) -> keeps trx_rel (scan_record fuel t trx flt limit ctx reader).
Proof.
  intros Hr. unfold scan_record, find_index_for_scan, scan_file. keeps_tac; auto using trx_scan_rows, trx_scan_entries with frames.
Qed.

Lemma trx_scan_bytes {C} fuel t trx flt limit (ctx : C) reader :
  (forall ctx p, keeps trx_rel (reader ctx p)) -> keeps trx_rel (scan_bytes fuel t trx flt limit ctx reader).
Proof. intros Hr. apply trx_scan_record. intros c rec. unfold scan_record_reader_adapter. keeps_tac. Qed.

(** *** Index entries and texts *)

Lemma trx_handler_delete t rid : keeps trx_rel (handler_delete t rid).
Proof. unfold handler_delete. keeps_tac. Qed.
Lemma trx_set_record t (p : option (Z * Z)) id del : keeps trx_rel (set_record_trx_id t p id del).
Proof.
  unfold set_record_trx_id, record_of. keeps_tac; intros s; destruct p as [[]|]; same_objects.
Qed.
#[local] Hint Resolve trx_handler_delete trx_set_record : frames.
Lemma trx_delete_entries fuel t record rid b n i rc :
  keeps trx_rel record -> keeps trx_rel (delete_entries_from fuel t record rid b n i rc).
Proof. intros Hr. revert i rc. induction n as [|n IH]; intros i rc; simpl; keeps_tac. Qed.
Lemma trx_delete_entry fuel t record rid b : keeps trx_rel record -> keeps trx_rel (delete_entry_of_indexes fuel t record rid b).
Proof. intros Hr. unfold delete_entry_of_indexes. keeps_tac. by apply trx_delete_entries. Qed.
Lemma trx_insert_entries fuel t record rid n i : keeps trx_rel record -> keeps trx_rel (insert_entries_from fuel t record rid n i).
Proof. intros Hr. revert i. induction n as [|n IH]; intros i; simpl; keeps_tac. Qed.
Lemma trx_insert_entry fuel t record rid : keeps trx_rel record -> keeps trx_rel (insert_entry_of_indexes fuel t record rid).
Proof. intros Hr. unfold insert_entry_of_indexes. keeps_tac. by apply trx_insert_entries. Qed.
Lemma trx_delete_texts t rec size fields : keeps trx_rel (delete_texts t rec size fields).
Proof. induction fields as [|f l IH]; simpl; keeps_tac. Qed.
#[local] Hint Resolve trx_delete_texts : frames.

(** *** The end of a transaction *)

Lemma trx_commit_insert t rid : keeps trx_rel (table_commit_insert t rid).
Proof. unfold table_commit_insert, trx_commit_insert. keeps_tac. Qed.
Lemma trx_commit_delete fuel t rid : keeps trx_rel (commit_delete fuel t rid).
Proof.
  assert (Hd : forall rec, keeps trx_rel (delete_entry_of_indexes fuel t (record_bytes rec) rid false))
    by (intros; apply trx_delete_entry, trx_record_bytes).
  unfold commit_delete. keeps_tac.
Qed.
Lemma trx_rollback_insert fuel t rid : keeps trx_rel (rollback_insert fuel t rid).
Proof.
  assert (Hd : forall rec, keeps trx_rel (delete_entry_of_indexes fuel t (record_bytes rec) rid false))
    by (intros; apply trx_delete_entry, trx_record_bytes).
  unfold rollback_insert. keeps_tac.
Qed.
Lemma trx_rollback_delete t rid : keeps trx_rel (rollback_delete t rid).
Proof. unfold rollback_delete, trx_rollback_delete. keeps_tac. Qed.

End reading.

(** ** What a call does to the transaction *)

(** No operation is recorded. *)
Definition no_operations (x : Trx) : Prop := forall t rid, find_operation t rid x = None.
(** Insertions and deletions only. *)
Definition ended_kinds (x : Trx) : Prop :=
  forall t rid k, find_operation t rid x = Some k -> k = Operation.INSERT \/ k = Operation.DELETE.

(** A transaction object with the counter: an object without a number has no operations. *)
Definition trx_ok (y : Trx * Z) : Prop :=
  (trx_id_ y.1 <> 0 \/ 0 <= y.2 < 2 ^ 31) /\ (trx_id_ y.1 = 0 -> no_operations y.1) /\ ended_kinds y.1.

(** The call of a session: it keeps its number, or gets the next one. *)
Definition trx_moves (y y' : Trx * Z) : Prop :=
  trx_ok y -> trx_ok y' /\
  (trx_id_ y'.1 = trx_id_ y.1 /\ y'.2 = y.2 \/ trx_id_ y.1 = 0 /\ trx_id_ y'.1 <> 0 /\ trx_id_ y'.1 = y'.2 /\ y'.2 = int32 (y.2 + 1)).

#[export] Instance trx_moves_preorder : PreOrder trx_moves.
Proof.
  split; [intros y Hy; split; [done|by left]|]. intros y1 y2 y3 H12 H23 H1. destruct (H12 H1) as [H2 C12].
  destruct (H23 H2) as [H3 C23]. split; [done|].
  destruct C12 as [[E1 E2]|(Z1 & N2 & E1 & E2)], C23 as [[F1 F2]|(Z2 & N3 & F1 & F2)].
  - left. split; congruence.
  - right. split_and!; congruence.
  - right. split_and!; congruence.
  - congruence.
Qed.

Lemma started_moves {R W} (s : TS (DB R W)) :
  trx_ok (ts_trx s, ts_next s) -> trx_ok (ts_trx (started s), ts_next (started s)) /\ trx_id_ (ts_trx (started s)) <> 0 /\
  trx_moves (ts_trx s, ts_next s) (ts_trx (started s), ts_next (started s)).
Proof.
  intros Hok. unfold started. destruct (Z.eqb_spec (trx_id_ (ts_trx s)) 0) as [E|E]; [|by split_and!].
  pose proof Hok as (Hn & Ho & Hk). simpl in *. destruct Hn as [Hn|Hn]; [done|].
  assert (Hi : int32 (ts_next s + 1) <> 0) by (unfold int32; destruct (decide (ts_next s = 2 ^ 31 - 1)) as [->|]; [done|];
    rewrite Z.mod_small by lia; lia).
  assert (Hok' : trx_ok ({| trx_id_ := int32 (ts_next s + 1); operations_ := operations_ (ts_trx s) |}, int32 (ts_next s + 1))).
  { split; [by left|]. split; [done|]. exact Hk. }
  split; [exact Hok'|]. split; [exact Hi|]. intros _. split; [exact Hok'|]. right. by split_and!.
Qed.

(** An operation of a started transaction. *)
Lemma operation_moves (x x' : Trx) n :
  trx_id_ x <> 0 -> trx_id_ x' = trx_id_ x -> ended_kinds x' -> trx_moves (x, n) (x', n).
Proof. intros Hid E Hk Hok. split; [|by left]. simpl. split; [left; simpl; by rewrite E|]. split; [simpl; congruence|done]. Qed.

Lemma insert_kinds t k rid x :
  find_operation t rid x = None -> k = Operation.INSERT \/ k = Operation.DELETE -> ended_kinds x -> ended_kinds (insert_operation t k rid x).
Proof.
  intros Hno Hk Hx t' rid' k'. destruct (decide ((t', rid') = (t, rid))) as [E|E].
  - injection E as -> ->. rewrite find_insert_same by done. by intros [= <-].
  - rewrite find_insert_other by done. apply Hx.
Qed.

Lemma delete_kinds t rid x : ended_kinds x -> ended_kinds (delete_operation t rid x).
Proof. intros Hx t' rid' k'. rewrite find_delete. case_decide; [done|apply Hx]. Qed.

Section moves.
Context {R W : Type} `{Replacer R} `{OS W} `{HashOrder}.
Implicit Types (t : Z) (rid : RID) (fuel : nat) (s : TS (DB R W)).

Abbreviation moves := (trx_rel (R := R) (W := W) trx_moves).

Lemma trx_insert_moves t rid : keeps moves (trx_insert_record t rid).
Proof.
  intros s. unfold trx_insert_record. rewrite bind_gets, bind_fail_if. case_bool_decide as Hf; [reflexivity|].
  rewrite (bind_run _ _ _ _ _ (start_run s)), bind_gets. intros Hok.
  destruct (started_moves s Hok) as (Hok1 & Hid & Hm). destruct (started_parts s) as (_ & _ & Ef).
  assert (Hm' : trx_moves (ts_trx s, ts_next s) (insert_operation t Operation.INSERT rid (ts_trx (started s)), ts_next (started s))).
  { etrans; [exact Hm|]. apply operation_moves; [done|done|]. apply insert_kinds; [by rewrite Ef|by left|apply Hok1]. }
  by apply Hm'.
Qed.

Lemma trx_delete_moves t rid (p : option (Z * Z)) : keeps moves (trx_delete_record t rid p).
Proof.
  intros s. unfold trx_delete_record. rewrite (bind_run _ _ _ _ _ (start_run s)), bind_gets. intros Hok.
  destruct (started_moves s Hok) as (Hok1 & Hid & Hm). set (s1 := started s) in *.
  assert (Hgo : trx_rel trx_moves s1 (match find_operation t rid (ts_trx s1) with
      | None => set_record_trx_id t p (trx_id_ (ts_trx s1)) true ;; let! x := gets ts_trx in set_trx (insert_operation t Operation.DELETE rid x)
      | Some Operation.INSERT => set_trx (delete_operation t rid (ts_trx s1))
      | Some _ => fail GENERIC_ERROR end s1).2).
  { destruct (find_operation t rid (ts_trx s1)) as [[]|] eqn:Ef; try (unfold trx_rel; simpl; reflexivity).
    - apply operation_moves; [done|apply delete_keeps_id|apply delete_kinds, Hok1].
    - pose proof (trx_set_record eq t p (trx_id_ (ts_trx s1)) true s1) as Hk. unfold bind at 1.
      destruct (set_record_trx_id t p (trx_id_ (ts_trx s1)) true s1) as [[[]| | |] s2]; unfold trx_rel in Hk |- *; simpl in Hk |- *;
        injection Hk as E1 E2; rewrite <- E2; try (by rewrite <- E1).
      rewrite <- E1. apply operation_moves; [done|done|]. apply insert_kinds; [done|by right|apply Hok1]. }
  assert (Hm' : trx_moves (ts_trx s, ts_next s) (ts_trx (started s), ts_next (started s))) by done.
  by apply (transitivity Hm' Hgo).
Qed.

#[local] Hint Resolve trx_on_pool trx_on_page_handler trx_on_index trx_upd_table trx_this trx_on_index_at trx_record_bytes
  trx_is_visible trx_null_bit trx_record_handler trx_handler_get trx_read_text trx_handler_insert trx_open_index_scan
  trx_first_index_scan trx_handler_delete trx_set_record trx_delete_texts : frames.
#[local] Hint Resolve trx_insert_moves trx_delete_moves : frames.
#[local] Hint Extern 1 (keeps _ (insert_entry_of_indexes _ _ _ _)) => apply trx_insert_entry; solve [auto with frames nocore typeclass_instances] : frames.
#[local] Hint Extern 1 (keeps _ (delete_entry_of_indexes _ _ _ _ _)) => apply trx_delete_entry; solve [auto with frames nocore typeclass_instances] : frames.

Lemma init_moves m data : keeps moves (init_trx_info m data).
Proof. unfold init_trx_info. keeps_tac. Qed.
#[local] Hint Resolve init_moves : frames.

Lemma insert_record_moves fuel t trx data : keeps moves (insert_record fuel t trx data).
Proof. unfold insert_record. keeps_tac. Qed.
#[local] Hint Resolve insert_record_moves : frames.
Lemma insert_values_moves fuel t trx n values mem : keeps moves (insert_values fuel t trx n values mem).
Proof. unfold insert_values. keeps_tac. Qed.

Lemma asserted_moves {A} (m : M (TS (DB R W)) A) : keeps moves m -> keeps moves (asserted m).
Proof. intros Hm. unfold asserted. keeps_tac. Qed.
#[local] Hint Resolve asserted_moves : frames.
Lemma copy_texts_moves t m i values rec : keeps moves (copy_texts t m i values rec).
Proof. revert i rec. induction values as [|v l IH]; intros i rec; simpl; keeps_tac; auto with frames. Qed.
#[local] Hint Resolve copy_texts_moves : frames.
Lemma insert_text_moves fuel t trx n values mem : keeps moves (insert_text_record fuel t trx n values mem).
Proof. unfold insert_text_record, make_and_insert_text_record. keeps_tac; auto with frames. Qed.

Lemma deleter_moves fuel t trx count rec : keeps moves (record_deleter fuel t trx count rec).
Proof. unfold record_deleter, delete_text_record, delete_record. keeps_tac. Qed.
Lemma delete_records_moves fuel t trx flt : keeps moves (delete_records fuel t trx flt).
Proof. apply trx_scan_record; [apply _|]. intros. apply deleter_moves. Qed.

Lemma write_bytes_moves rec off bs : keeps moves (write_record_bytes rec off bs).
Proof. unfold write_record_bytes. keeps_tac. intros s. destruct (rec_data rec) as [[]|]; unfold trx_rel; simpl; reflexivity. Qed.
Lemma refetch_moves t rec : keeps moves (refetch t rec).
Proof. unfold refetch. keeps_tac. Qed.
Lemma handler_update_moves t rec : keeps moves (handler_update t rec).
Proof. unfold handler_update. keeps_tac. Qed.
#[local] Hint Resolve write_bytes_moves refetch_moves handler_update_moves : frames.
Lemma updater_moves fuel t f v count rec : keeps moves (record_updater fuel t f v count rec).
Proof. unfold record_updater, update_record_one_attr, update_record_text_attr. keeps_tac; auto with frames. Qed.
Lemma update_records_moves fuel t trx name v junk conds : keeps moves (update_records fuel t trx name v junk conds).
Proof.
  assert (Hs : forall f v fs, keeps moves (scan_record fuel t trx (CompositeFilter fs) (-1) 0 (record_updater fuel t f v)))
    by (intros; apply trx_scan_record; [apply _|]; intros; apply updater_moves).
  unfold update_records. keeps_tac.
Qed.
End moves.

(** ** The end of a transaction *)

Section ends.
Context {R W : Type} `{Replacer R} `{OS W} `{HashOrder} `{OperationOrder}.
Implicit Types (s : TS (DB R W)) (t : Z) (rid : RID) (k : Operation.kind) (on_insert on_delete : Z -> RID -> M (TS (DB R W)) unit).

(** The call for an operation. *)
Definition end_call on_insert on_delete k t rid : M (TS (DB R W)) unit :=
  match k with Operation.INSERT => on_insert t rid | Operation.DELETE => on_delete t rid | _ => ret tt end.

(** The calls for a list of operations one after the other, each with its return code. *)
Inductive calls on_insert on_delete : TS (DB R W) -> list (Z * RID * Operation.kind * RC) -> TS (DB R W) -> Prop :=
| calls_nil s : calls on_insert on_delete s [] s
| calls_cons s s1 s2 t rid k rc log :
    rc_of (end_call on_insert on_delete k t rid) s = (Ok rc, s1) -> calls on_insert on_delete s1 log s2 ->
    calls on_insert on_delete s ((t, rid, k, rc) :: log) s2.

(** A call that does not return: undefined behaviour or, in the model, exhausted fuel. *)
Definition stuck (r : res unit) : Prop := r = Ub \/ r = OutOfFuel.

Lemma end_operations_calls on_insert on_delete l rc s r s' :
  (forall o, o ∈ l -> o.2 = Operation.INSERT \/ o.2 = Operation.DELETE) ->
  end_operations on_insert on_delete l rc s = (r, s') ->
  match r with
  | Ok rc' => exists log, log.*1 = l /\ calls on_insert on_delete s log s' /\ rc' = default rc (last log.*2)
  | Err _ => False
  | _ => exists t rid k s1, (t, rid, k) ∈ l /\ stuck (end_call on_insert on_delete k t rid s1).1
  end.
Proof.
  revert rc s. induction l as [|[[t rid] k] l IH]; intros rc s Hk Hrun; simpl in Hrun.
  { injection Hrun as <- <-. exists []. split_and!; [done|constructor|done]. }
  assert (Ek : (match k with Operation.INSERT => rc_of (on_insert t rid) | Operation.DELETE => rc_of (on_delete t rid) | _ => ret rc end) =
    rc_of (end_call on_insert on_delete k t rid)).
  { destruct (Hk (t, rid, k) ltac:(set_solver)) as [E|E]; simpl in E; by subst. }
  rewrite Ek in Hrun. destruct (end_call on_insert on_delete k t rid s) as [rk s1] eqn:E.
  rewrite (bind_rc_of _ _ _ _ _ E) in Hrun.
  assert (Hgo : forall rc1, rc_of (end_call on_insert on_delete k t rid) s = (Ok rc1, s1) ->
    end_operations on_insert on_delete l rc1 s1 = (r, s') ->
    match r with
    | Ok rc' => exists log, log.*1 = (t, rid, k) :: l /\ calls on_insert on_delete s log s' /\ rc' = default rc (last log.*2)
    | Err _ => False
    | _ => exists t0 rid0 k0 s0, (t0, rid0, k0) ∈ (t, rid, k) :: l /\ stuck (end_call on_insert on_delete k0 t0 rid0 s0).1
    end).
  { intros rc1 E1 Hl. apply IH in Hl; [|intros o Ho; apply Hk; set_solver]. destruct r as [rc'| | |]; [|done|..].
    - destruct Hl as (log & El & Hc & ->). exists ((t, rid, k, rc1) :: log). split; [by rewrite fmap_cons, El|].
      split; [by eapply calls_cons|]. rewrite fmap_cons, last_cons. by destruct (last log.*2).
    - destruct Hl as (t0 & rid0 & k0 & s0 & Hin & Hs). exists t0, rid0, k0, s0. split; [set_solver|done].
    - destruct Hl as (t0 & rid0 & k0 & s0 & Hin & Hs). exists t0, rid0, k0, s0. split; [set_solver|done]. }
  unfold rc_of in Hgo. rewrite E in Hgo. destruct rk as [[]|rc1| |].
  - by apply (Hgo SUCCESS).
  - by apply (Hgo rc1).
  - injection Hrun as <- <-. exists t, rid, k, s. split; [set_solver|]. left. by rewrite E.
  - injection Hrun as <- <-. exists t, rid, k, s. split; [set_solver|]. right. by rewrite E.
Qed.

(** What the end of a transaction does with the operations that are recorded. *)
Definition ends_all on_insert on_delete (ending : M (TS (DB R W)) unit) : Prop :=
  forall s r s', ended_kinds (ts_trx s) -> ending s = (r, s') ->
  match r with
  | Ub | OutOfFuel => exists t rid k s1, find_operation t rid (ts_trx s) = Some k /\ stuck (end_call on_insert on_delete k t rid s1).1
  | _ =>
      exists log s1, calls on_insert on_delete s log s1 /\
        NoDup (log.*1).*1 /\ (forall t rid k, (t, rid, k) ∈ log.*1 <-> find_operation t rid (ts_trx s) = Some k) /\
        ts_trx s1 = ts_trx s /\ s' = {| ts_trx := Trx_create; ts_next := ts_next s; ts_store := ts_store s1 |} /\
        r = match last log.*2 with None | Some SUCCESS => Ok tt | Some rc => Err rc end
  end.

Lemma calls_keep on_insert on_delete s log s' :
  (forall t rid, keeps (trx_rel eq) (on_insert t rid)) -> (forall t rid, keeps (trx_rel eq) (on_delete t rid)) ->
  calls on_insert on_delete s log s' -> ts_trx s' = ts_trx s /\ ts_next s' = ts_next s.
Proof.
  intros Hi Hd Hc. induction Hc as [s|s s1 s2 t rid k rc log E _ [-> ->]]; [done|].
  assert (Hk : trx_rel eq s (rc_of (end_call on_insert on_delete k t rid) s).2).
  { apply keeps_rc_of. destruct k; simpl; [apply Hi|apply keeps_ret, _|apply Hd|apply keeps_ret, _]. }
  rewrite E in Hk. unfold trx_rel in Hk. simpl in Hk. by injection Hk as -> ->.
Qed.

Lemma end_trx_ends_all on_insert on_delete :
  (forall t rid, keeps (trx_rel eq) (on_insert t rid)) -> (forall t rid, keeps (trx_rel eq) (on_delete t rid)) ->
  ends_all on_insert on_delete (end_trx on_insert on_delete).
Proof.
  intros Hi Hd s r s' Hk Hrun. unfold end_trx in Hrun. rewrite bind_gets in Hrun.
  set (l := operation_order (operations_ (ts_trx s))) in *.
  assert (Hl : forall t rid k, (t, rid, k) ∈ l <-> find_operation t rid (ts_trx s) = Some k).
  { intros t rid k. unfold l. rewrite (operation_order_perm (operations_ (ts_trx s))). apply elem_of_all_operations. }
  assert (Hn : NoDup l.*1) by (unfold l; rewrite (operation_order_perm (operations_ (ts_trx s))); apply operation_keys_NoDup).
  destruct (end_operations on_insert on_delete l SUCCESS s) as [re s1] eqn:E. pose proof E as E'.
  apply end_operations_calls in E'; [|intros [[t rid] k] Ho; by apply (Hk t rid), Hl].
  destruct re as [rc|rc| |]; [|done|..].
  - rewrite (bind_run _ _ _ _ _ E) in Hrun. destruct E' as (log & El & Hc & ->).
    destruct (calls_keep _ _ _ _ _ Hi Hd Hc) as [Et En].
    unfold set_trx in Hrun. rewrite bind_modify in Hrun. rewrite En in Hrun.
    assert (Hr : r = match last log.*2 with None | Some SUCCESS => Ok tt | Some rc => Err rc end /\
                 s' = {| ts_trx := Trx_create; ts_next := ts_next s; ts_store := ts_store s1 |}).
    { destruct (last log.*2) as [rc|]; simpl in Hrun; [destruct rc|]; by injection Hrun as <- <-. }
    destruct Hr as [Hr ->]. assert (Hgo : exists log s2, calls on_insert on_delete s log s2 /\
        NoDup (log.*1).*1 /\ (forall t rid k, (t, rid, k) ∈ log.*1 <-> find_operation t rid (ts_trx s) = Some k) /\
        ts_trx s2 = ts_trx s /\ {| ts_trx := Trx_create; ts_next := ts_next s; ts_store := ts_store s1 |} =
          {| ts_trx := Trx_create; ts_next := ts_next s; ts_store := ts_store s2 |} /\
        r = match last log.*2 with None | Some SUCCESS => Ok tt | Some rc => Err rc end).
    { exists log, s1. rewrite El. by split_and!. }
    destruct r as [| | |]; [exact Hgo|exact Hgo|..]; destruct (last log.*2) as [[]|]; discriminate Hr.
  - unfold bind in Hrun. rewrite E in Hrun. injection Hrun as <- <-. destruct E' as (t & rid & k & s2 & Hin & Hs).
    exists t, rid, k, s2. split; [by apply Hl|done].
  - unfold bind in Hrun. rewrite E in Hrun. injection Hrun as <- <-. destruct E' as (t & rid & k & s2 & Hin & Hs).
    exists t, rid, k, s2. split; [by apply Hl|done].
Qed.

(** C12. The end of a transaction, commit and rollback, when its operations are insertions and deletions:
    every operation that is recorded is ended by one call of the function of Table for it, in an order that
    the container gives, and none twice; an error of one call does not stop the others, and the return
    code is that of the last call, so that earlier errors are lost; afterwards the transaction object is
    empty and has no number, whatever the calls returned, and the counter has not moved.  If the end of
    the transaction does not return, one of these calls does not. *)
Theorem transaction_end_ok fuel :
  ends_all table_commit_insert (commit_delete fuel) (commit (H := db_trx_tables fuel)) /\
  ends_all (rollback_insert fuel) rollback_delete (rollback (H := db_trx_tables fuel)).
Proof.
  split; apply end_trx_ends_all; intros; [apply trx_commit_insert|apply trx_commit_delete|apply trx_rollback_insert|apply trx_rollback_delete]; apply _.
Qed.
End ends.

(** ** Sessions *)

(** Several sessions with their transaction objects, on one database. *)
Record Sys (R W : Type) := { sy_trx : gmap Z Trx; sy_next : Z; sy_db : DB R W }.
Arguments sy_trx {R W}.
Arguments sy_next {R W}.
Arguments sy_db {R W}.
Arguments Build_Sys {R W}.

Section sessions.
Context {R W : Type} `{Replacer R} `{OS W} `{HashOrder} `{OperationOrder}.
Variable fuel : nat.
Implicit Types (sys : Sys R W) (i j : Z).

Definition trx_of i sys : Trx := default Trx_create (sy_trx sys !! i).

(** A call of session [i]. *)
Definition run_as {A} i (m : M (TS (DB R W)) A) sys : res A * Sys R W :=
  let '(r, s) := m {| ts_trx := trx_of i sys; ts_next := sy_next sys; ts_store := sy_db sys |} in
  (r, {| sy_trx := <[i := ts_trx s]> (sy_trx sys); sy_next := ts_next s; sy_db := ts_store s |}).

(** The functions of Table and Trx that a statement calls; the last constructor are all those that leave the transaction
    alone: scans, and the functions on whole tables and on files. *)
Inductive session_call : forall A, M (TS (DB R W)) A -> Prop :=
| call_insert t n values mem : session_call _ (insert_values fuel t true n values mem)
| call_insert_text t n values mem : session_call _ (insert_text_record fuel t true n values mem)
| call_delete t flt : session_call _ (delete_records fuel t true flt)
| call_update t name v junk conditions : session_call _ (update_records fuel t true name v junk conditions)
| call_trx_insert t rid : session_call _ (trx_insert_record t rid)
| call_trx_delete t rid (p : option (Z * Z)) : session_call _ (trx_delete_record t rid p)
| call_commit : session_call _ (commit (H := db_trx_tables fuel))
| call_rollback : session_call _ (rollback (H := db_trx_tables fuel))
| call_other A (m : M (TS (DB R W)) A) : keeps (trx_rel eq) m -> session_call A m.

(** A call of any session, with any outcome. *)
Definition step sys sys' : Prop :=
  exists i A (m : M (TS (DB R W)) A) r, session_call A m /\ run_as i m sys = (r, sys').

(** The transactions after [n] calls. *)
Record sessions_ok (n : Z) sys : Prop := {
  so_next : 0 <= sy_next sys <= n;
  so_id i : 0 <= trx_id_ (trx_of i sys) <= sy_next sys;
  so_idle i : trx_id_ (trx_of i sys) = 0 -> no_operations (trx_of i sys);
  so_kinds i : ended_kinds (trx_of i sys);
  so_distinct i j : i <> j -> trx_id_ (trx_of i sys) = trx_id_ (trx_of j sys) -> trx_id_ (trx_of i sys) = 0 }.

Lemma trx_of_set i x next (db : DB R W) sys j :
  trx_of j {| sy_trx := <[i := x]> (sy_trx sys); sy_next := next; sy_db := db |} = if decide (j = i) then x else trx_of j sys.
Proof.
  unfold trx_of. simpl. case_decide as E; [subst; by rewrite lookup_insert_eq|]. by rewrite lookup_insert_ne.
Qed.

(** What a call does to the transaction of its session: a move, or the end. *)
Lemma session_call_effect A (m : M (TS (DB R W)) A) :
  session_call A m -> keeps (trx_rel (fun y y' => trx_moves y y' \/ y' = (Trx_create, y.2))) m.
Proof.
  assert (Hmove : forall B (c : M (TS (DB R W)) B), keeps (trx_rel trx_moves) c ->
    keeps (trx_rel (fun y y' => trx_moves y y' \/ y' = (Trx_create, y.2))) c) by (intros B c Hc s; left; apply Hc).
  assert (Hend : forall f g, (forall t rid, keeps (trx_rel (R := R) (W := W) eq) (f t rid)) -> (forall t rid, keeps (trx_rel eq) (g t rid)) ->
    keeps (trx_rel (fun y y' => trx_moves y y' \/ y' = (Trx_create, y.2))) (end_trx f g)).
  { intros f g Hf Hg s. unfold trx_rel, end_trx. rewrite bind_gets.
    assert (He : forall l rc, keeps (trx_rel eq) (end_operations f g l rc)).
    { induction l as [|[[t rid] k] l IH]; intros rc; simpl; keeps_tac; auto. }
    specialize (He (operation_order (operations_ (ts_trx s))) SUCCESS s).
    destruct (end_operations f g _ SUCCESS s) as [r s1] eqn:E. unfold bind. rewrite !E. unfold trx_rel in He. simpl in He. injection He as E1 E2.
    destruct r as [rc| | |]; simpl; try (left; rewrite E1, E2; reflexivity). right. rewrite E2. by destruct rc. }
  destruct 1 as [| | | | | | | |A m Hm].
  - apply Hmove, insert_values_moves.
  - apply Hmove, insert_text_moves.
  - apply Hmove, delete_records_moves.
  - apply Hmove, update_records_moves.
  - apply Hmove, trx_insert_moves.
  - apply Hmove, trx_delete_moves.
  - apply Hend; intros; [apply trx_commit_insert|apply trx_commit_delete]; apply _.
  - apply Hend; intros; [apply trx_rollback_insert|apply trx_rollback_delete]; apply _.
  - apply Hmove. intros s. specialize (Hm s). unfold trx_rel in *. by rewrite <- Hm.
Qed.

Lemma step_ok n sys sys' : 0 <= n < 2 ^ 31 - 1 -> sessions_ok n sys -> step sys sys' -> sessions_ok (n + 1) sys'.
Proof.
  intros Hn [Hnext Hid Hidle Hk Hd] (i & A & m & r & Hc & Hrun). apply session_call_effect in Hc.
  specialize (Hc {| ts_trx := trx_of i sys; ts_next := sy_next sys; ts_store := sy_db sys |}). unfold run_as in Hrun.
  destruct (m _) as [r0 s] eqn:E. injection Hrun as <- <-. unfold trx_rel in Hc. simpl in Hc.
  set (x := ts_trx s) in *. set (next := ts_next s) in *.
  assert (Hx : (sy_next sys <= next <= sy_next sys + 1) /\ (0 <= trx_id_ x <= next) /\ (trx_id_ x = 0 -> no_operations x) /\ ended_kinds x /\
    (trx_id_ x = 0 \/ trx_id_ x = trx_id_ (trx_of i sys) \/ trx_id_ x = sy_next sys + 1)).
  { pose proof (Hid i). destruct Hc as [Hm|[= E1 E2]].
    - destruct Hm as ((_ & Ho & Hkx) & Hcase).
      { split; [right; simpl; lia|]. split; [apply Hidle|apply Hk]. }
      simpl in *. destruct Hcase as [[E1 E2]|(Z1 & N2 & E1 & E2)].
      + split_and!; done || lia.
      + rewrite int32_id in E2 by (unfold is_int32; lia). split_and!; done || lia.
    - rewrite E1, E2. simpl. split_and!; done || lia. }
  destruct Hx as (X1 & X2 & X3 & X4 & X5). constructor; simpl.
  - lia.
  - intros j. rewrite trx_of_set. case_decide; [done|]. pose proof (Hid j). lia.
  - intros j. rewrite trx_of_set. case_decide; [done|apply Hidle].
  - intros j. rewrite trx_of_set. case_decide; [done|apply Hk].
  - intros j j' Hne. rewrite !trx_of_set. destruct (decide (j = i)) as [->|Hj], (decide (j' = i)) as [->|Hj']; try done.
    + intros Heq. pose proof (Hid j'). pose proof (Hd i j' Hne). destruct X5 as [?|[?|?]]; lia.
    + intros Heq. pose proof (Hid j). pose proof (Hd j i Hne). destruct X5 as [?|[?|?]]; lia.
    + by apply Hd.
Qed.

Lemma reachable_sessions (n : nat) sys sys' :
  sy_trx sys = ∅ -> sy_next sys = 0 -> nsteps step n sys sys' -> Z.of_nat n < 2 ^ 31 -> sessions_ok (Z.of_nat n) sys'.
Proof.
  intros Ht Hn0 Hs Hn. assert (Hstart : sessions_ok 0 sys).
  { assert (Ht' : forall i, trx_of i sys = Trx_create) by (intros; unfold trx_of; by rewrite Ht).
    constructor; intros; rewrite ?Ht', ?Hn0; simpl; try done; lia. }
  revert sys' Hs Hn. induction n as [|n IH]; intros sys' Hs Hn.
  - inversion Hs; subst. exact Hstart.
  - apply nsteps_inv_r in Hs as (sys1 & Hs & Hstep). rewrite Nat2Z.inj_succ. apply (step_ok (Z.of_nat n) sys1); [lia|apply IH; [done|lia]|done].
Qed.

(** The transactions of several sessions on one database, after fewer than 2^31 calls from the start of the program: any of the
    functions of Table and Trx by any session, in any order and with any outcome, errors of the pool and of the
    files included.  Running transactions have different positive numbers, at most the number of calls; a session
    without a number has no operation recorded; and what is recorded are insertions and deletions. *)
Theorem sessions_reachable (n : nat) sys sys' :
  sy_trx sys = ∅ -> sy_next sys = 0 -> nsteps step n sys sys' -> Z.of_nat n < 2 ^ 31 -> sessions_ok (Z.of_nat n) sys'.
Proof. apply reachable_sessions. Qed.

(** C9. Isolation, in every state that fewer than 2^31 - 1 calls of Table and Trx by several sessions reach, in any order and
    with any outcome: when a session deletes a record on which it has no operation itself, the record is hidden from
    this session afterwards, and from no other.  This holds for any record: one on which another session has an operation too is not refused. *)
Theorem isolation (n : nat) sys0 sys i t rid f o m data off :
  sy_trx sys0 = ∅ -> sy_next sys0 = 0 -> nsteps step n sys0 sys -> Z.of_nat n < 2 ^ 31 - 1 ->
  store_meta t (sy_db sys) = Some m -> store_load (Some (f, o)) (sy_db sys) = Some data -> trx_offset m data = Some off ->
  0 <= f < nframes (db_pool (sy_db sys)) -> find_operation t rid (trx_of i sys) = None ->
  exists sys', run_as i (trx_delete_record t rid (Some (f, o))) sys = (Ok tt, sys') /\
    forall j, (run_as j (is_visible t (Some (f, o))) sys').1 = Ok (bool_decide (j <> i)).
Proof.
  intros Ht Hn0 Hs Hn Hm Hd Hoff Hf Hno. pose proof (reachable_sessions n sys0 sys Ht Hn0 Hs ltac:(lia)) as Hok.
  set (s := {| ts_trx := trx_of i sys; ts_next := sy_next sys; ts_store := sy_db sys |}).
  assert (Hnum : numbered s).
  { pose proof (so_id _ _ Hok i). pose proof (so_next _ _ Hok). unfold numbered. simpl.
    destruct (decide (trx_id_ (trx_of i sys) = 0)); [right|left]; lia. }
  destruct (delete_record_run t rid f o s m data off Hm Hd Hoff Hf Hnum) as (r & s' & Hrun & _ & Hid & Ho).
  unfold delete_outcome in Ho. change (ts_trx s) with (trx_of i sys) in Ho. rewrite Hno in Ho. destruct Ho as (-> & _ & _ & _ & Hv).
  assert (Hrun' : run_as i (trx_delete_record t rid (Some (f, o))) sys =
    (Ok tt, {| sy_trx := <[i := ts_trx s']> (sy_trx sys); sy_next := ts_next s'; sy_db := ts_store s' |})) by (unfold run_as; fold s; by rewrite Hrun).
  eexists. split; [exact Hrun'|]. set (sys' := Build_Sys _ _ _) in *.
  pose proof (step_ok (Z.of_nat n) sys sys' ltac:(lia) Hok ltac:(exists i, unit, (trx_delete_record t rid (Some (f, o))), (Ok tt); split; [constructor|done])) as Hok'.
  assert (Hi : trx_of i sys' = ts_trx s') by (unfold sys'; by rewrite trx_of_set, decide_True).
  intros j. specialize (Hv (trx_of j sys')). unfold seen_by in Hv. unfold run_as.
  change (sy_next sys') with (ts_next s'). change (sy_db sys') with (ts_store s').
  destruct (is_visible t (Some (f, o)) _) as [rv sv]. simpl in Hv |- *. rewrite Hv. f_equal.
  destruct (decide (j = i)) as [->|Hj].
  - rewrite Hi, Z.eqb_refl, bool_decide_eq_false_2; [done|]. intros E. by apply E.
  - rewrite bool_decide_eq_true_2 by done. apply negb_true_iff, Z.eqb_neq. intros E. rewrite <- Hi in E, Hid.
    pose proof (so_distinct _ _ Hok' i j (not_eq_sym Hj) (eq_sym E)). lia.
Qed.
End sessions.

(** ** A concrete system *)

Definition rid1 : RID := {| page_num := 1; slot_num := 1 |}.
Definition demo_sys : Sys LRU.LRUReplacer MemFS.fs := {| sy_trx := ∅; sy_next := 0; sy_db := ts_store trx_db |}.
(** Session 1 records an insertion; session 2 deletes the stored record. *)
Definition demo_sys1 : Sys LRU.LRUReplacer MemFS.fs := (run_as 1 (trx_insert_record 7 rid1) demo_sys).2.
Definition demo_sys2 : Sys LRU.LRUReplacer MemFS.fs := (run_as 2 (trx_delete_record 7 rid0 (Some (1, 56))) demo_sys1).2.

Lemma demo_steps : nsteps (step 5) 2 demo_sys demo_sys2.
Proof.
  apply (nsteps_l _ 1 demo_sys demo_sys1).
  - exists 1, unit, (trx_insert_record 7 rid1), (run_as 1 (trx_insert_record 7 rid1) demo_sys).1. split; [constructor|].
    unfold demo_sys1. by destruct (run_as 1 (trx_insert_record 7 rid1) demo_sys).
  - apply nsteps_once. exists 2, unit, (trx_delete_record 7 rid0 (Some (1, 56))), (run_as 2 (trx_delete_record 7 rid0 (Some (1, 56))) demo_sys1).1.
    split; [constructor|]. unfold demo_sys2. by destruct (run_as 2 (trx_delete_record 7 rid0 (Some (1, 56))) demo_sys1).
Qed.

Lemma sessions_reachable_witness :
  sessions_ok 2 demo_sys2 /\ trx_id_ (trx_of 1 demo_sys2) = 1 /\ trx_id_ (trx_of 2 demo_sys2) = 2 /\
  find_operation 7 rid0 (trx_of 2 demo_sys2) = Some Operation.DELETE.
Proof.
  split.
  - apply (sessions_reachable 5 2 demo_sys demo_sys2); [reflexivity|reflexivity|exact demo_steps|reflexivity].
  - split; [vm_compute; reflexivity|]. split; [vm_compute; reflexivity|vm_compute; reflexivity].
Defined.

(** The transaction of session 2 is committed. *)
Definition demo_deleted : TS (DB LRU.LRUReplacer MemFS.fs) :=
  {| ts_trx := trx_of 2 demo_sys2; ts_next := sy_next demo_sys2; ts_store := sy_db demo_sys2 |}.
Definition run_commit : res unit * TS (DB LRU.LRUReplacer MemFS.fs) := commit (H := db_trx_tables 5) demo_deleted.

Lemma demo_kinds : ended_kinds (ts_trx demo_deleted).
Proof. exact (so_kinds _ _ (reachable_sessions 5 2 demo_sys demo_sys2 eq_refl eq_refl demo_steps eq_refl) 2). Qed.

Lemma transaction_end_ok_witness :
  exists log s1, calls table_commit_insert (commit_delete 5) demo_deleted log s1 /\
    (7, rid0, Operation.DELETE) ∈ log.*1 /\ ts_trx run_commit.2 = Trx_create.
Proof.
  destruct run_commit as [r s'] eqn:E.
  assert (Er : r = Ok tt) by (assert (Ef : run_commit.1 = Ok tt) by (vm_compute; reflexivity); rewrite E in Ef; exact Ef).
  pose proof (proj1 (transaction_end_ok 5) demo_deleted r s' demo_kinds E) as Hl. rewrite Er in Hl.
  destruct Hl as (log & s1 & Hc & _ & Hin & _ & Hs & _). exists log, s1. split; [exact Hc|]. split.
  - apply Hin. vm_compute. reflexivity.
  - simpl. rewrite Hs. reflexivity.
Defined.

Lemma isolation_witness :
  exists sys', run_as 3 (trx_delete_record 7 rid0 (Some (1, 56))) demo_sys2 = (Ok tt, sys') /\
    (run_as 3 (is_visible 7 (Some (1, 56))) sys').1 = Ok false /\ (run_as 2 (is_visible 7 (Some (1, 56))) sys').1 = Ok true.
Proof.
  destruct (store_load (Some (1, 56)) (sy_db demo_sys2)) as [data|] eqn:Ed; [|exfalso; vm_compute in Ed; discriminate].
  destruct (isolation 5 2 demo_sys demo_sys2 3 7 rid0 1 56 trx_meta data 1) as (sys' & Hrun & Hv);
    [reflexivity|reflexivity|exact demo_steps|reflexivity|vm_compute; reflexivity|exact Ed|vm_compute in Ed; injection Ed as <-; reflexivity| |
     vm_compute; reflexivity|].
  - split; [lia|vm_compute; reflexivity].
  - exists sys'. split; [exact Hrun|]. split; [exact (Hv 3)|exact (Hv 2)].
Defined.
