(* ===== verification/Catalog.v ===== *)
(** * The catalog: theorems

    [catalog_ok]: every name in a database leads to a table object of its own, whose metadata
    have this name, except the names whose tables a failed drop_table has deleted.  All calls of
    DefaultHandler keep it; a failed drop_table adds to the exceptions. *)
From Stdlib Require Import String Ascii.
From S2P Require Import Prelude ReturnCode Effects Bitmap Memory Replacer OsFile BufferPool PoolInvariant.
From S2P Require Import RecordPage RecordFile KeyCompare BTreeNode BTree BTreeScan Dates TableMeta TableMetaTheorems.
From S2P Require Import ConditionFilter Trx Index Table TableScan TableTheorems TableFrame Db.

#[local] Open Scope c_scope.
#[local] Open Scope Z_scope.

Section frames.
Context {R W : Type} `{Replacer R} `{OS W} `{HashOrder}.
Implicit Types (t : Z) (s : TS (DB R W)).

(** ** Calls on one table *)

(** Only table [t] may change. *)
Definition only_table t s s' : Prop := forall t', t' <> t -> tables s' !! t' = tables s !! t'.
#[export] Instance only_table_preorder t : PreOrder (only_table t).
Proof. split; [by intros s t' ?|]. intros s1 s2 s3 H12 H23 t' Ht. by rewrite H23, H12. Qed.

(** No table changes. *)
Lemma keeps_tables {A} (m : M (TS (DB R W)) A) t :
  (forall s r s', m s = (r, s') -> tables s' = tables s) -> keeps (only_table t) m.
Proof. intros Hm s t' _. destruct (m s) as [r s'] eqn:E. simpl. by rewrite (Hm s r s' E). Qed.

Lemma only_on_pool {A} t (m : M (Pool R W) A) : keeps (only_table t) (on_pool m).
Proof. apply keeps_tables. intros. by eapply on_pool_tables. Qed.
Lemma only_on_index {A} t x (m : M (IX R W) A) : keeps (only_table t) (on_index x m).
Proof. apply keeps_tables. intros. by eapply on_index_tables. Qed.
Lemma only_on_page_handler {A} t ph (m : M (RS R W) A) : keeps (only_table t) (on_page_handler ph m).
Proof. apply keeps_tables. intros s r s'. unfold on_page_handler. destruct (m _) as [[] ?]; by intros [= <- <-]. Qed.
Lemma only_this t t' : keeps (only_table t) (this t').
Proof. unfold this. keeps_tac. Qed.
Lemma only_upd_table t g : keeps (only_table t) (upd_table t g).
Proof. intros s t' Ht. unfold tables. simpl. by rewrite lookup_alter_ne. Qed.
#[local] Hint Resolve only_on_pool only_on_index only_on_page_handler only_this only_upd_table : frames.

Lemma only_on_index_at {A} t i (m : M (IX R W) A) : keeps (only_table t) (on_index_at t i m).
Proof. unfold on_index_at. keeps_tac. Qed.
#[local] Hint Resolve only_on_index_at : frames.

Section files.
Context {J T : Type} `{Json J T} `{MetaFiles W T}.

Lemma only_on_world {A} t (c : W -> A * W) : keeps (only_table t) (on_world c).
Proof. apply only_on_pool. Qed.
#[local] Hint Resolve only_on_world : frames.

Lemma only_init_record_handler t dir : keeps (only_table t) (init_record_handler t dir).
Proof. unfold init_record_handler. keeps_tac. Qed.
#[local] Hint Resolve only_init_record_handler : frames.

Lemma only_create t path name dir n attrs : keeps (only_table t) (TableScan.create (J := J) (T := T) t path name dir n attrs).
Proof. unfold TableScan.create. keeps_tac. Qed.

Lemma only_open_indexes t dir junk l : keeps (only_table t) (open_indexes t dir junk l).
Proof. induction l as [|im l IH]; simpl; keeps_tac. Qed.
#[local] Hint Resolve only_open_indexes : frames.

Lemma only_open t file dir junk : keeps (only_table t) (TableScan.open (J := J) (T := T) t file dir junk).
Proof. unfold TableScan.open. keeps_tac. Qed.

Lemma only_drop_indexes t name n i : keeps (only_table t) (drop_indexes t name n i).
Proof. revert i. induction n as [|n IH]; intros i; simpl; keeps_tac. Qed.
#[local] Hint Resolve only_drop_indexes : frames.

Lemma only_drop t path name dir : keeps (only_table t) (drop_table_files t path name dir).
Proof. unfold drop_table_files. keeps_tac. Qed.

Lemma only_destroy t : keeps (only_table t) (destroy t).
Proof. unfold destroy. keeps_tac. Qed.

(** ** The name of a table *)

Definition name_of (x : Table) : string := tm_name (table_meta_ x).

Definition same_names s s' : Prop := name_of <$> tables s' = name_of <$> tables s.
#[export] Instance same_names_preorder : PreOrder same_names.
Proof. split; [by intros ?|]. intros ??? E1 E2. unfold same_names in *. congruence. Qed.

Lemma shapes_names s s' : same_shapes s s' -> same_names s s'.
Proof.
  intros Hs. unfold same_names. apply map_eq. intros t. rewrite !lookup_fmap.
  assert (E : (table_shape <$> tables s') !! t = (table_shape <$> tables s) !! t) by (unfold tables; by rewrite Hs).
  rewrite !lookup_fmap in E. destruct (tables s' !! t) as [x'|], (tables s !! t) as [x|]; simpl in *; try done.
  unfold table_shape in E. f_equal. unfold name_of. congruence.
Qed.

Lemma names_of_shapes {A} (m : M (TS (DB R W)) A) : keeps same_shapes m -> keeps same_names m.
Proof. intros Hm s. apply shapes_names, Hm. Qed.

Lemma names_upd_table t (g : Table -> Table) : (forall x, name_of (g x) = name_of x) -> keeps same_names (upd_table t g).
Proof.
  intros Hg s. unfold same_names, tables. simpl. apply map_eq. intros t'. rewrite !lookup_fmap.
  destruct (decide (t' = t)) as [->|Ht]; [|by rewrite lookup_alter_ne]. rewrite lookup_alter_eq.
  destruct (db_tables (ts_store s) !! t); simpl; [|done]. by rewrite Hg.
Qed.

Lemma names_lookup {A} (m : M (TS (DB R W)) A) s r s' t x :
  keeps same_names m -> m s = (r, s') -> tables s !! t = Some x ->
  exists x', tables s' !! t = Some x' /\ name_of x' = name_of x.
Proof.
  intros Hk Hm Hx. specialize (Hk s). rewrite Hm in Hk. simpl in Hk.
  assert (E : (name_of <$> tables s') !! t = (name_of <$> tables s) !! t) by (by rewrite Hk).
  rewrite !lookup_fmap, Hx in E. destruct (tables s' !! t) as [x'|]; [|done]. exists x'. split; [done|].
  apply (inj Some). exact E.
Qed.

Lemma names_on_pool {A} (m : M (Pool R W) A) : keeps same_names (on_pool m).
Proof. apply names_of_shapes, keeps_on_pool. Qed.
Lemma names_on_world {A} (c : W -> A * W) : keeps same_names (on_world c).
Proof. apply names_on_pool. Qed.
Lemma names_init_record_handler t dir : keeps same_names (init_record_handler t dir).
Proof. apply names_of_shapes, keeps_init_record_handler. Qed.
#[local] Hint Resolve names_on_pool names_on_world names_init_record_handler : frames.

Lemma table_meta_init_name name n attrs m : table_meta_init (Some name) n attrs = Ok m -> tm_name m = name.
Proof.
  unfold table_meta_init. destruct (no_name (Some name)); [done|]. destruct attrs as [attrs|]; [|done].
  destruct (n <=? 0); [done|]. destruct (alen attrs <? n); [done|]. destruct (init_fields _ _) as [[fs off]| | |]; try done.
  by intros [= <-].
Qed.

(** A table that has been created has the name it was created with. *)
Lemma create_name t path name dir n attrs s s' x :
  TableScan.create (J := J) t path (Some name) dir n attrs s = (Ok tt, s') -> tables s !! t = Some x ->
  exists x', tables s' !! t = Some x' /\ name_of x' = name.
Proof.
  intros Hrun Hx. unfold TableScan.create in Hrun. steps_in Hrun.
  apply bind_Ok in Hrun as (r & s1 & Hw & Hrun). apply on_pool_tables in Hw. destruct r; try done.
  apply bind_Ok in Hrun as (m & s2 & Hm & Hrun). unfold of_res in Hm. injection Hm as Hm <-.
  apply table_meta_init_name in Hm.
  destruct (upd_table_lookup t (set_meta m) s1 x) as (s3 & Hu & Hx3); [by rewrite Hw|].
  rewrite (bind_run _ _ _ _ _ Hu) in Hrun.
  eapply names_lookup in Hrun as (x' & Hx' & Hn); [|keeps_tac|exact Hx3].
  - exists x'. split; [done|]. by rewrite Hn.
  - by apply names_upd_table.
  - by apply names_upd_table.
Qed.

(** ** The return code of [Table::create] *)

Lemma on_pool_fails {A} (m : M (Pool R W) A) : err_fails m -> err_fails (on_pool m).
Proof. intros Hm s s'. unfold on_pool. destruct (m (db_pool (ts_store s))) as [r p] eqn:E. intros [= -> <-]. by apply Hm in E. Qed.

#[local] Hint Resolve sys_fails : err_fails.
Lemma create_file_fails file : err_fails (create_file (R := R) (W := W) file).
Proof. unfold create_file. err_fails_tac. Qed.

Lemma rc_of_fails {S} (m : M S unit) : err_fails (rc_of m).
Proof. intros s s'. unfold rc_of. by destruct (m s) as [[] ?]. Qed.
#[local] Hint Resolve rc_of_fails : err_fails.

Lemma table_meta_init_fails name n attrs : table_meta_init name n attrs <> Err SUCCESS.
Proof.
  unfold table_meta_init. destruct (no_name name); [done|]. destruct attrs as [attrs|]; [|done].
  destruct (n <=? 0); [done|]. destruct (alen attrs <? n); [done|].
  assert (Hf : forall l off, init_fields off l <> Err SUCCESS).
  { induction l as [|a l IH]; intros off; simpl; [done|]. unfold field_init.
    destruct (no_name _); [done|]. destruct (_ || _ || _); [done|]. specialize (IH (int32 (off + ai_length a))).
    by destruct (init_fields _ l) as [[]| | |]; intros [= ->]. }
  specialize (Hf (take (Z.to_nat n) attrs) (match last sys_fields_ with Some f => int32 (fm_offset f + fm_len f) | None => 0 end)).
  by destruct (init_fields _ _) as [[]| | |]; intros [= ->].
Qed.

Lemma create_fails t path name dir n attrs : err_fails (TableScan.create (J := J) (T := T) (R := R) (W := W) t path name dir n attrs).
Proof.
  assert (Hinit : err_fails (of_res (S := TS (DB R W)) (table_meta_init name n attrs)))
    by (intros s s' [= Hm _]; by apply table_meta_init_fails in Hm).
  unfold TableScan.create, on_world. err_fails_tac; try (apply on_pool_fails; auto with err_fails; apply sys_fails).
  - apply on_pool_fails, create_file_fails.
  - by destruct a7.
Qed.
End files.
End frames.

Section catalog.
Context {R W J T : Type} `{Replacer R} `{OS W} `{HashOrder} `{Json J T} `{MetaFiles W T} `{Dirs W} `{TableOrder}.
Implicit Types (s : CS R W) (t : Z) (db : Db) (name dbname : string).

Definition cs_tables s : gmap Z Table := tables (cs_ts s).
Definition dbs s : gmap string Db := opened_dbs_ (cs_handler s).

(** The tables of the catalog: a database, a name in it and an address. *)
Definition entry s dbname name t : Prop :=
  exists db, dbs s !! dbname = Some db /\ opened_tables_ db !! name = Some t.

(** [lost] are the addresses of the table objects that failed drops have deleted (see [drop_table_spec]). *)
Record catalog_ok (lost : gset Z) s : Prop := {
  co_entry dbname name t : entry s dbname name t -> t ∉ lost -> exists x, cs_tables s !! t = Some x /\ name_of x = name;
  co_lost t : t ∈ lost -> cs_tables s !! t = None /\ t < cs_next_table s;
  co_unique d n d' n' t : entry s d n t -> entry s d' n' t -> d = d' /\ n = n';
  co_fresh t : is_Some (cs_tables s !! t) -> t < cs_next_table s }.

Variable lost : gset Z.

Lemma on_tables_inv {A} (m : M (TS (DB R W)) A) s r s' :
  on_tables m s = (r, s') ->
  m (cs_ts s) = (r, cs_ts s') /\ cs_handler s' = cs_handler s /\ cs_next_table s' = cs_next_table s.
Proof. unfold on_tables. destruct (m (cs_ts s)) as [r0 x]. by intros [= <- <-]. Qed.

Lemma new_table_inv s t s' :
  new_table s = (Ok t, s') ->
  t = cs_next_table s /\ cs_handler s' = cs_handler s /\ cs_next_table s' = cs_next_table s + 1 /\
  cs_tables s' = <[t := Table_create]> (cs_tables s).
Proof. by intros [= <- <-]. Qed.

(** The destructor has no return code. *)
Lemma destroy_no_error t (y y' : TS (DB R W)) rc : destroy t y <> (Err rc, y').
Proof.
  unfold destroy. intros Hrun. unfold bind at 1, this at 1 in Hrun. rewrite bind_gets in Hrun.
  destruct (db_tables (ts_store y) !! t) as [x|]; [|done]. cbn [ret] in Hrun. unfold ret at 1 in Hrun.
  set (m := match record_handler_ x with None => ret tt | Some (_, ph) => _ end) in Hrun.
  assert (Ha : forall (y0 y1 : TS (DB R W)) rc0, m y0 <> (Err rc0, y1)).
  { intros y0 y1 rc0. unfold m. destruct (record_handler_ x) as [[h ph]|]; [|done]. unfold bind, on_page_handler.
    destruct (deinit _) as [[] ?]; done. }
  clearbody m. unfold bind at 1 in Hrun. destruct (m y) as [[[]|rc1| |] y1] eqn:E1 in Hrun; try done; [|by eapply Ha].
  unfold upd_table in Hrun. rewrite bind_modify in Hrun.
  destruct (_ && _) in Hrun; [|done]. unfold bind, rc_of in Hrun. by destruct (on_pool _ _) as [[] ?].
Qed.

Lemma delete_table_no_error t s rc s' : delete_table t s <> (Err rc, s').
Proof.
  intros Ed. apply on_tables_inv in Ed as (Ed & _). unfold bind at 1 in Ed.
  destruct (destroy t (cs_ts s)) as [[[]|rc2| |] y] eqn:Ey; try done. by eapply destroy_no_error.
Qed.

Lemma delete_table_inv t s s' :
  delete_table t s = (Ok tt, s') ->
  cs_handler s' = cs_handler s /\ cs_next_table s' = cs_next_table s /\ cs_tables s' !! t = None /\
  forall t', t' <> t -> cs_tables s' !! t' = cs_tables s !! t'.
Proof.
  intros Hrun. apply on_tables_inv in Hrun as (Hrun & Hh & Hn). split; [done|]. split; [done|].
  apply bind_Ok in Hrun as ([] & x & Hd & Hrun). injection Hrun as Hrun. pose proof (only_destroy t (cs_ts s)) as Ho.
  rewrite Hd in Ho. simpl in Ho. unfold cs_tables. rewrite <- Hrun. unfold tables. simpl. split; [apply lookup_delete_eq|].
  intros t' Ht. rewrite lookup_delete_ne by done. by apply Ho.
Qed.

(** The catalog is kept by changes that do not touch the tables in it. *)
Lemma catalog_kept s s' :
  catalog_ok lost s -> cs_handler s' = cs_handler s -> cs_next_table s <= cs_next_table s' ->
  (forall dbname name t, entry s dbname name t -> t ∉ lost ->
     exists x x', cs_tables s !! t = Some x /\ cs_tables s' !! t = Some x' /\ name_of x' = name_of x) ->
  (forall t, is_Some (cs_tables s' !! t) -> is_Some (cs_tables s !! t) \/ cs_next_table s <= t < cs_next_table s') ->
  catalog_ok lost s'.
Proof.
  intros [He Hl Hu Hf] Hh Hn Hkeep Hnew. assert (Hent : forall d n t, entry s' d n t <-> entry s d n t)
    by (intros; unfold entry, dbs; by rewrite Hh).
  split.
  - intros d n t Hd%Hent Nl. destruct (Hkeep d n t Hd Nl) as (x & x' & Hx & Hx' & Hnm). exists x'. split; [done|].
    destruct (He d n t Hd Nl) as (x0 & Hx0 & Hn0). congruence.
  - intros t Ht. destruct (Hl t Ht) as [Hno Hlt]. split; [|lia]. apply eq_None_not_Some. intros Hs.
    destruct (Hnew t Hs) as [Hs'|]; [|lia]. rewrite Hno in Hs'. by destruct Hs'.
  - intros d n d' n' t E1%Hent E2%Hent. by apply (Hu d n d' n' t).
  - intros t Ht. destruct (Hnew t Ht) as [Hold|]; [|lia]. apply Hf in Hold. lia.
Qed.

(** A new entry. *)
Lemma catalog_insert s s1 dbname db name t x :
  catalog_ok lost s -> dbs s !! dbname = Some db -> opened_tables_ db !! name = None ->
  (forall d n, ~ entry s d n t) -> cs_tables s !! t = Some x -> name_of x = name ->
  cs_tables s1 = cs_tables s -> cs_next_table s1 = cs_next_table s ->
  dbs s1 = <[dbname := set_opened_tables (<[name := t]> (opened_tables_ db)) db]> (dbs s) ->
  catalog_ok lost s1.
Proof.
  intros [He Hl Hu Hf] Hdb Hno Hfresh Hx Hn Ht Hnx Hd.
  assert (Hent : forall d n t', entry s1 d n t' <-> (d = dbname /\ n = name /\ t' = t) \/ entry s d n t').
  { intros d n t'. unfold entry. rewrite Hd. destruct (decide (d = dbname)) as [->|Hne].
    - rewrite lookup_insert_eq. rewrite Hdb. destruct (decide (n = name)) as [->|Hn'].
      + split; [intros (db' & [= <-] & Ht'); simpl in Ht'; rewrite lookup_insert_eq in Ht'; injection Ht' as <-; by left|].
        intros [(_ & _ & ->)|(db' & [= <-] & ?)]; [|congruence]. eexists. split; [done|]. apply lookup_insert_eq.
      + split; [intros (db' & [= <-] & Ht'); simpl in Ht'; rewrite lookup_insert_ne in Ht' by done; right; by eexists|].
        intros [(_ & ? & _)|(db' & [= <-] & Ht')]; [done|]. eexists. split; [done|]. simpl. by rewrite lookup_insert_ne.
    - rewrite lookup_insert_ne by done. split; [by right|]. intros [(? & _)|?]; done. }
  split; rewrite ?Ht, ?Hnx; [|done| |done].
  - intros d n t' E1%Hent Nl. destruct E1 as [(? & ? & ?)|E1]; [subst; by exists x|by apply (He d n)].
  - intros d n d' n' t' E1%Hent E2%Hent. destruct E1 as [(? & ? & ?)|E1], E2 as [(? & ? & ?)|E2]; subst;
      try done; try (by exfalso; eapply Hfresh). by apply (Hu d n d' n' t').
Qed.

Lemma fresh_entry s d n t : catalog_ok lost s -> entry s d n t -> t < cs_next_table s.
Proof.
  intros Hok He. destruct (decide (t ∈ lost)) as [Hl|Hl]; [by apply (co_lost lost s Hok)|].
  apply (co_fresh lost s Hok). destruct (co_entry lost s Hok d n t He Hl) as (x & -> & _). by eexists.
Qed.

(** The state after [new Table()] and calls on the new object, whose address is [cs_next_table s]. *)
Record new_object s s' : Prop := {
  no_handler : cs_handler s' = cs_handler s;
  no_next : cs_next_table s' = cs_next_table s + 1;
  no_tables t : t <> cs_next_table s -> cs_tables s' !! t = cs_tables s !! t }.

Lemma new_table_object s : exists s', new_table s = (Ok (cs_next_table s), s') /\ new_object s s' /\
  cs_tables s' !! cs_next_table s = Some Table_create.
Proof.
  eexists. split; [done|]. split; [split; [done|done|]|].
  - intros t Ht. unfold cs_tables, tables. simpl. by rewrite lookup_insert_ne.
  - unfold cs_tables, tables. simpl. apply lookup_insert_eq.
Qed.

Lemma new_object_call {A} s s1 (m : M (TS (DB R W)) A) r s2 :
  new_object s s1 -> keeps (only_table (cs_next_table s)) m -> on_tables m s1 = (r, s2) -> new_object s s2.
Proof.
  intros [Hh Hn Ht] Hk Hrun. apply on_tables_inv in Hrun as (Hrun & Hh2 & Hn2). specialize (Hk (cs_ts s1)).
  rewrite Hrun in Hk. split; [congruence|lia|]. intros t Hne. rewrite <- Ht by done. by apply Hk.
Qed.

Lemma no_entry s d n : catalog_ok lost s -> ~ entry s d n (cs_next_table s).
Proof. intros Hok He. pose proof (fresh_entry _ _ _ _ Hok He). lia. Qed.

Lemma new_object_ok s s' : catalog_ok lost s -> new_object s s' -> catalog_ok lost s'.
Proof.
  intros Hok [Hh Hn Ht]. apply (catalog_kept s s' Hok); [done|lia| |].
  - intros d n t He Nl. destruct (co_entry lost s Hok d n t He Nl) as (x & Hx & _). exists x, x. split_and!; [done| |done].
    rewrite Ht; [done|]. intros ->. by eapply no_entry.
  - intros t Hs. destruct (decide (t = cs_next_table s)) as [->|Hne]; [right; lia|left]. by rewrite <- Ht.
Qed.

(** [delete table; ...] after a failure. *)
Lemma delete_new_object {A} s s1 (m : M (CS R W) A) r s' :
  new_object s s1 -> bind (delete_table (cs_next_table s)) (fun _ => m) s1 = (r, s') ->
  (exists s2, new_object s s2 /\ m s2 = (r, s')) \/ r = Ub \/ r = OutOfFuel.
Proof.
  intros [Hh Hn Ht] Hd. unfold bind in Hd. destruct (delete_table (cs_next_table s) s1) as [[[]|rc1| |] s2] eqn:Ed.
  - left. exists s2. split; [|done]. apply delete_table_inv in Ed as (Hh2 & Hn2 & _ & Hsame). split; [congruence|lia|].
    intros t Hne. rewrite Hsame by done. by apply Ht.
  - by apply delete_table_no_error in Ed.
  - injection Hd as <- _. auto.
  - injection Hd as <- _. auto.
Qed.

(** What a call of create_table does to the catalog. *)
Definition create_outcome dbname name s (r : res unit) s' : Prop :=
  match r with
  | Ok _ => catalog_ok lost s' /\ exists db, dbs s !! dbname = Some db /\ opened_tables_ db !! name = None /\
              dbs s' = <[dbname := set_opened_tables (<[name := cs_next_table s]> (opened_tables_ db)) db]> (dbs s)
  | Err _ => catalog_ok lost s' /\ dbs s' = dbs s
  | _ => True
  end.

Lemma create_table_spec dbname name n attrs s r s' :
  catalog_ok lost s -> create_table (J := J) (T := T) dbname name n attrs s = (r, s') -> create_outcome dbname name s r s'.
Proof.
  intros Hok Hrun. unfold create_outcome. unfold create_table in Hrun. unfold find_db in Hrun. rewrite bind_gets in Hrun. fold (dbs s) in Hrun.
  destruct (dbs s !! dbname) as [db|] eqn:Edb; [|by injection Hrun as <- <-].
  unfold db_create_table in Hrun. rewrite bind_fail_if in Hrun.
  case_bool_decide as Hno; [by injection Hrun as <- <-|]. apply eq_None_not_Some in Hno.
  destruct (new_table_object s) as (s1 & En & Hnew1 & Ht1). rewrite (bind_run _ _ _ _ _ En) in Hrun.
  match type of Hrun with bind (rc_of ?m) _ _ = _ => destruct (m s1) as [rc s2] eqn:Ec end.
  rewrite (bind_rc_of _ _ _ _ _ Ec) in Hrun.
  pose proof (new_object_call s s1 _ rc s2 Hnew1 (only_create _ _ _ _ _ _) Ec) as Hnew2.
  pose proof (new_object_ok s s2 Hok Hnew2) as Hok2.
  assert (Hdb2 : dbs s2 = dbs s) by (unfold dbs; by rewrite (no_handler _ _ Hnew2)).
  assert (Hdel : forall rc', bind (delete_table (cs_next_table s)) (fun _ => fail rc') s2 = (r, s') ->
            match r with Ok _ => False | Err _ => catalog_ok lost s' /\ dbs s' = dbs s | _ => True end).
  { intros rc' Hd. apply (delete_new_object s) in Hd as [(s3 & Hnew3 & [= <- <-])|[-> | ->]]; [|done..].
    split; [by apply (new_object_ok s)|]. unfold dbs. by rewrite (no_handler _ _ Hnew3). }
  destruct rc as [[]|rc| |]; [|case_bool_decide as Hrc|by injection Hrun as <- <-..].
  - simpl in Hrun. injection Hrun as <- <-. apply on_tables_inv in Ec as (Ec & _ & _).
    eapply create_name in Ec as (x & Hx & Hxn); [|exact Ht1]. 
    assert (Hd : dbs (set_handler (set_opened_dbs (alter (fun x => set_opened_tables (<[name:=cs_next_table s]> (opened_tables_ x)) x) dbname
                   (opened_dbs_ (cs_handler s2))) (cs_handler s2)) s2) =
             <[dbname := set_opened_tables (<[name := cs_next_table s]> (opened_tables_ db)) db]> (dbs s)).
    { unfold dbs. simpl. rewrite (no_handler _ _ Hnew2). fold (dbs s). apply map_eq. intros d.
      destruct (decide (d = dbname)) as [->|Hne]; [by rewrite lookup_alter_eq, lookup_insert_eq, Edb|].
      by rewrite lookup_alter_ne, lookup_insert_ne. }
    split; [|by exists db].
    apply (catalog_insert s2 _ dbname db name (cs_next_table s) x Hok2); try done; rewrite ?Hdb2; try done.
    intros d k (db' & Hd' & Hk). rewrite Hdb2 in Hd'. eapply (no_entry s d k); [done|]. by exists db'.
  - subst rc. apply on_tables_inv in Ec as (Ec & _). by apply create_fails in Ec.
  - apply Hdel in Hrun. by destruct r.
Qed.

(** C29. Creating a table: on success the catalog has one more entry, a new table object that bears the
    name; on an error of any kind the catalog has the entries it had.  In both cases every name
    of the catalog still leads to a table object of its own with this name, except those that did
    not before, whose tables earlier failed drops have deleted. *)
Theorem create_table_ok dbname name n attrs s r s' :
  catalog_ok lost s -> create_table (J := J) (T := T) dbname name n attrs s = (r, s') -> create_outcome dbname name s r s'.
Proof. apply create_table_spec. Qed.

(** ** Dropping a table *)

#[local] Hint Resolve keeps_this keeps_on_pool keeps_on_index_at keeps_index_close : frames.
Lemma drop_table_files_keeps t path (name : option string) dir : keeps same_shapes (drop_table_files (R := R) (W := W) t path name dir).
Proof.
  assert (Hi : forall n i, keeps same_shapes (drop_indexes (R := R) (W := W) t (default EmptyString name) n i)).
  { induction n as [|n IH]; intros i; simpl; keeps_tac. }
  unfold drop_table_files, on_world. keeps_tac. apply keeps_upd_table. by intros [].
Qed.

(** Calls that change neither the names of the tables nor the set of objects. *)
Lemma catalog_names s s' :
  catalog_ok lost s -> cs_handler s' = cs_handler s -> cs_next_table s' = cs_next_table s ->
  same_names (cs_ts s) (cs_ts s') -> catalog_ok lost s'.
Proof.
  intros Hok Hh Hn Hs.
  assert (E : forall t, name_of <$> cs_tables s' !! t = name_of <$> cs_tables s !! t).
  { intros t. rewrite <- !lookup_fmap. unfold cs_tables. by rewrite Hs. }
  apply (catalog_kept s s' Hok); [done|lia| |].
  - intros d n t He Nl. destruct (co_entry lost s Hok d n t He Nl) as (x & Hx & _). specialize (E t). rewrite Hx in E.
    destruct (cs_tables s' !! t) as [x'|]; [|done]. injection E as E. by exists x, x'.
  - intros t Hs'. left. specialize (E t). destruct Hs' as [x' Hx']. rewrite Hx' in E.
    destruct (cs_tables s !! t); [by eexists|done].
Qed.

Lemma catalog_shapes s s' :
  catalog_ok lost s -> cs_handler s' = cs_handler s -> cs_next_table s' = cs_next_table s ->
  same_shapes (cs_ts s) (cs_ts s') -> catalog_ok lost s'.
Proof. intros Hok Hh Hn Hs%shapes_names. by apply (catalog_names s). Qed.

(** An entry is taken out. *)
Lemma catalog_delete s s' dbname db name :
  catalog_ok lost s -> dbs s !! dbname = Some db -> cs_tables s' = cs_tables s -> cs_next_table s' = cs_next_table s ->
  dbs s' = <[dbname := set_opened_tables (delete name (opened_tables_ db)) db]> (dbs s) -> catalog_ok lost s'.
Proof.
  intros [He Hl Hu Hf] Hdb Ht Hn Hd.
  assert (Hent : forall d n t, entry s' d n t -> entry s d n t).
  { intros d n t (db' & Hd' & Hlk). rewrite Hd in Hd'. destruct (decide (d = dbname)) as [->|Hne].
    - rewrite lookup_insert_eq in Hd'. injection Hd' as <-. simpl in Hlk. apply lookup_delete_Some in Hlk as [_ Hlk]. by exists db.
    - rewrite lookup_insert_ne in Hd' by done. by exists db'. }
  split; rewrite ?Ht, ?Hn; [|done|by eauto|done]. intros d n t E%Hent. by apply (He d n).
Qed.

(** A table object is deleted, the entries stay. *)
Lemma catalog_lose s s' t :
  catalog_ok lost s -> t < cs_next_table s -> cs_handler s' = cs_handler s -> cs_next_table s' = cs_next_table s ->
  cs_tables s' !! t = None -> (forall t', t' <> t -> cs_tables s' !! t' = cs_tables s !! t') ->
  catalog_ok ({[t]} ∪ lost) s'.
Proof.
  intros [He Hl Hu Hf] Hlt Hh Hn Hno Hsame.
  assert (Hent : forall d n t, entry s' d n t <-> entry s d n t) by (intros; unfold entry, dbs; by rewrite Hh).
  split; rewrite ?Hn.
  - intros d n t' E%Hent Nl. rewrite Hsame by set_solver. apply (He d n); [done|set_solver].
  - intros t' [->%elem_of_singleton|Ht]%elem_of_union; [done|]. destruct (decide (t' = t)) as [->|Ne]; [done|].
    rewrite Hsame by done. by apply Hl.
  - intros d n d' n' t' E1%Hent E2%Hent. by apply (Hu d n d' n' t').
  - intros t' Hs. destruct (decide (t' = t)) as [->|Ne]; [done|]. rewrite Hsame in Hs by done. by apply Hf.
Qed.

(** What a call of drop_table does to the catalog. *)
Definition drop_outcome dbname name s (r : res unit) s' : Prop :=
  match r with
  | Ok _ => catalog_ok lost s' /\ exists db, dbs s !! dbname = Some db /\ is_Some (opened_tables_ db !! name) /\
              dbs s' = <[dbname := set_opened_tables (delete name (opened_tables_ db)) db]> (dbs s)
  | Err rc => dbs s' = dbs s /\
              match dbs s !! dbname ≫= (fun db => opened_tables_ db !! name) with
              | None => s' = s /\ (rc = SCHEMA_DB_NOT_OPENED \/ rc = SCHEMA_TABLE_NOT_EXIST)
              | Some t => catalog_ok ({[t]} ∪ lost) s' /\ entry s' dbname name t /\ cs_tables s' !! t = None
              end
  | _ => True
  end.

Lemma drop_table_spec dbname name s r s' :
  catalog_ok lost s -> drop_table dbname name s = (r, s') -> drop_outcome dbname name s r s'.
Proof.
  intros Hok Hrun. unfold drop_outcome. unfold drop_table in Hrun. unfold find_db in Hrun. rewrite bind_gets in Hrun. fold (dbs s) in Hrun.
  destruct (dbs s !! dbname) as [db|] eqn:Edb; [|injection Hrun as <- <-; simpl; auto].
  unfold db_drop_table in Hrun. destruct (opened_tables_ db !! name) as [t|] eqn:Et.
  2: { injection Hrun as <- <-. simpl. rewrite Et. auto. }
  match type of Hrun with bind (rc_of ?m) _ _ = _ => destruct (m s) as [rc s2] eqn:Ec end.
  rewrite (bind_rc_of _ _ _ _ _ Ec) in Hrun. apply on_tables_inv in Ec as (Ec & Hh2 & Hn2).
  pose proof (drop_table_files_keeps t (table_meta_file (db_path_ db) name) (Some name) (db_path_ db) (cs_ts s)) as Hs2.
  rewrite Ec in Hs2. simpl in Hs2. pose proof (catalog_shapes s s2 Hok Hh2 Hn2 Hs2) as Hok2.
  assert (Hdb2 : dbs s2 = dbs s) by (unfold dbs; by rewrite Hh2).
  assert (Hok' : upd_db dbname (fun x => set_opened_tables (delete name (opened_tables_ x)) x) s2 = (r, s') ->
     catalog_ok lost s' /\ r = Ok tt /\ dbs s' = <[dbname := set_opened_tables (delete name (opened_tables_ db)) db]> (dbs s)).
  { intros [= <- <-]. set (s3 := set_handler _ _).
    assert (Hd : dbs s3 = <[dbname := set_opened_tables (delete name (opened_tables_ db)) db]> (dbs s)).
    { unfold dbs, s3. simpl. rewrite Hh2. fold (dbs s). apply map_eq. intros d.
      destruct (decide (d = dbname)) as [->|Hne]; [by rewrite lookup_alter_eq, lookup_insert_eq, Edb|].
      by rewrite lookup_alter_ne, lookup_insert_ne. }
    split; [|done]. apply (catalog_delete s2 s3 dbname db name Hok2); rewrite ?Hdb2; done. }
  assert (Hdel : forall rc', bind (delete_table t) (fun _ => fail rc') s2 = (r, s') ->
            match r with Ok _ => False | Err _ => dbs s' = dbs s /\ catalog_ok ({[t]} ∪ lost) s' /\ entry s' dbname name t /\ cs_tables s' !! t = None
            | _ => True end).
  { intros rc' Hd. unfold bind in Hd. destruct (delete_table t s2) as [[[]|rc1| |] s3] eqn:Ed; try by injection Hd as <- <-.
    - injection Hd as <- <-. apply delete_table_inv in Ed as (Hh3 & Hn3 & Hno & Hsame).
      assert (Hd : dbs s3 = dbs s) by (unfold dbs; by rewrite Hh3, Hh2).
      assert (He : entry s dbname name t) by (by exists db). split; [done|]. split_and!; [|exists db; by rewrite Hd|done].
      apply (catalog_lose s2); try done. rewrite Hn2. by eapply fresh_entry.
    - by apply delete_table_no_error in Ed. }
  destruct rc as [[]|rc| |].
  - simpl in Hrun. apply Hok' in Hrun as (Hc & -> & Hd). split; [done|]. exists db. split_and!; [done|by eexists|done].
  - case_bool_decide as Hrc.
    + apply Hok' in Hrun as (Hc & -> & Hd). split; [done|]. exists db. split_and!; [done|by eexists|done].
    + apply Hdel in Hrun. destruct r; try done. simpl. rewrite Et. tauto.
  - by injection Hrun as <- <-.
  - by injection Hrun as <- <-.
Qed.

(** Dropping a table: on success exactly its entry is gone from the catalog, which stays well
    formed.  When the name is not in the catalog the state is unchanged.  When the files cannot be
    dropped the catalog keeps the entry, but the table object that it leads to is deleted: a
    dangling pointer. *)
Theorem drop_table_ok dbname name s r s' :
  catalog_ok lost s -> drop_table dbname name s = (r, s') -> drop_outcome dbname name s r s'.
Proof. apply drop_table_spec. Qed.
End catalog.
