(* ===== verification/CatalogRuns.v ===== *)
(** * The catalog: runs of calls

    [catalog_call] is a call of DefaultHandler that returns, as a step relation with the table object
    that a failed drop_table deletes; [catalog_run] is a sequence of them.  Every state that they
    reach from the start of the program has a well-formed catalog, but for the names whose table
    objects have been deleted in this way.  At the end the handler runs on the in-memory file system: a start, a
    database, a table in it and its end, the witnesses for the catalog. *)
From Stdlib Require Import String Ascii.
From S2P Require Import Prelude ReturnCode Effects Bitmap Memory Replacer OsFile BufferPool PoolInvariant.
From S2P Require Import RecordPage RecordFile KeyCompare BTreeNode BTree BTreeScan Dates TableMeta TableMetaTheorems.
From S2P Require Import ConditionFilter Trx Index Table TableScan TableTheorems TableFrame TableDemo Db Catalog.

#[local] Open Scope c_scope.
#[local] Open Scope Z_scope.

Section runs.
Context {R W J T : Type} `{Replacer R} `{OS W} `{HashOrder} `{Json J T} `{MetaFiles W T} `{Dirs W} `{TableOrder}.
Variable fuel : nat.
Implicit Types (s : CS R W) (t : Z) (db : Db) (name dbname : string).

Section kept.
Variable lost : gset Z.

(** ** Opening a database *)

(** [db] is a database object that is not yet in the catalog. *)
Definition fresh_db_ok s db : Prop :=
  catalog_ok lost s /\
  forall n t, opened_tables_ db !! n = Some t ->
    (exists x, cs_tables s !! t = Some x /\ name_of x = n) /\ (t ∉ lost) /\ forall d n', ~ entry s d n' t.

Lemma fresh_db_new_object s s' db : fresh_db_ok s db -> new_object s s' -> fresh_db_ok s' db.
Proof.
  intros [Hok Hdb] Hnew. split; [by apply (new_object_ok lost s)|]. intros n t Hn.
  destruct (Hdb n t Hn) as [(x & Hx & Hnm) [Hnl Hno]]. destruct Hnew as [Hh Hnx Ht]. split; [|split; [done|]].
  - exists x. split; [|done]. rewrite Ht; [done|]. intros ->.
    assert (cs_next_table s < cs_next_table s) by (apply (co_fresh lost s Hok); by eexists). lia.
  - intros d n' (db' & Hd & He). apply (Hno d n'). exists db'. split; [|done]. unfold dbs in *. by rewrite <- Hh.
Qed.

Lemma rc_of_run {S} (m : M S unit) (x : S) rc (y : S) : rc_of m x = (Ok rc, y) -> exists r, m x = (r, y).
Proof. unfold rc_of. destruct (m x) as [[] z]; intros; simplify_eq; by eexists. Qed.

Lemma open_tables_fresh junk db files s rc db' s' :
  fresh_db_ok s db -> open_tables (J := J) (T := T) junk db files s = (Ok (rc, db'), s') -> fresh_db_ok s' db' /\ dbs s' = dbs s.
Proof.
  revert db s. induction files as [|f files IH]; intros db s Hok Hrun; simpl in Hrun.
  { by injection Hrun as <- <- <-. }
  destruct (new_table_object s) as (s1 & En & Hnew1 & Ht1). rewrite (bind_run _ _ _ _ _ En) in Hrun.
  apply bind_Ok in Hrun as (rc0 & s2 & Ec & Hrun). apply rc_of_run in Ec as [r Ec].
  pose proof (new_object_call s s1 _ r s2 Hnew1 (only_open _ _ _ _) Ec) as Hnew2.
  assert (Hfail : forall rc1, bind (delete_table (cs_next_table s)) (fun _ => ret (rc1, db)) s2 = (Ok (rc, db'), s') ->
            fresh_db_ok s' db' /\ dbs s' = dbs s).
  { intros rc1 Hd. apply (delete_new_object s) in Hd as [(s3 & Hnew3 & [= <- <- <-])|[?|?]]; [|done..|done].
    split; [by apply (fresh_db_new_object s)|]. unfold dbs. by rewrite (no_handler _ _ Hnew3). }
  destruct (negb _); [by apply Hfail in Hrun|].
  apply bind_Ok in Hrun as (name & s3 & Hname & Hrun). unfold table_name in Hname.
  apply on_tables_inv in Hname as (Hname & Hh3 & Hn3). apply bind_Ok in Hname as (x & y & Hthis & Hname).
  apply this_inv in Hthis as [Hx ->]. injection Hname as <- Hts.
  assert (s3 = s2) as -> by (destruct s2, s3; simpl in *; congruence). clear Hh3 Hn3 Hts.
  destruct (opened_tables_ db !! tm_name (table_meta_ x)) as [t'|] eqn:Et; [by apply Hfail in Hrun|].
  pose proof (fresh_db_new_object s s2 db Hok Hnew2) as [Hok2 Hdb2].
  assert (Hd2 : dbs s2 = dbs s) by (unfold dbs; by rewrite (no_handler _ _ Hnew2)).
  rewrite <- Hd2. apply (IH _ _) in Hrun; [done|]. split; [done|]. intros n t Hn. simpl in Hn.
  destruct (decide (n = tm_name (table_meta_ x))) as [->|Hne].
  - rewrite lookup_insert_eq in Hn. injection Hn as <-. split; [by exists x|]. split.
    { intros Hl. apply (co_lost lost s) in Hl; [lia|apply Hok]. }
    intros d n' (db1 & Hd & He). rewrite Hd2 in Hd. apply (no_entry lost s d n'); [apply Hok|by exists db1].
  - rewrite lookup_insert_ne in Hn by done. by apply Hdb2.
Qed.

Lemma fresh_db_empty s name path : catalog_ok lost s -> fresh_db_ok s {| db_name_ := name; db_path_ := path; opened_tables_ := ∅ |}.
Proof. intros Hok. split; [done|]. intros n t. simpl. by rewrite lookup_empty. Qed.

(** A call that asks the file system only. *)
Lemma on_files_catalog {A} (c : W -> A * W) s r s' :
  catalog_ok lost s -> on_files c s = (r, s') -> catalog_ok lost s' /\ dbs s' = dbs s.
Proof.
  intros Hok Hrun. apply on_tables_inv in Hrun as (Hrun & Hh & Hn). split; [|unfold dbs; by rewrite Hh].
  apply (catalog_shapes lost s s' Hok Hh Hn). pose proof (keeps_on_pool (sys c) (cs_ts s)) as Hk.
  unfold on_world in Hrun. rewrite Hrun in Hk. exact Hk.
Qed.

Lemma db_init_fresh junk (name : option string) path s rc db s' :
  catalog_ok lost s -> db_init (J := J) (T := T) junk name path Db_create s = (Ok (rc, db), s') -> fresh_db_ok s' db /\ dbs s' = dbs s.
Proof.
  intros Hok Hrun. unfold db_init in Hrun. destruct (_ || _).
  { injection Hrun as <- <- <-. split; [by apply fresh_db_empty|done]. }
  apply bind_Ok in Hrun as (dir & s1 & Hd & Hrun). apply (on_files_catalog _ _ _ _ Hok) in Hd as [Hok1 Hd1].
  destruct (negb dir).
  { injection Hrun as <- <- <-. split; [by apply fresh_db_empty|done]. }
  unfold open_all_tables in Hrun. apply bind_Ok in Hrun as (files & s2 & Hl & Hrun).
  apply (on_files_catalog _ _ _ _ Hok1) in Hl as [Hok2 Hd2]. rewrite <- Hd1, <- Hd2. destruct files as [files|].
  - by apply open_tables_fresh in Hrun; [|apply fresh_db_empty].
  - injection Hrun as <- <- <-. split; [by apply fresh_db_empty|done].
Qed.

(** A database object enters the catalog. *)
Lemma catalog_add_db s db name :
  fresh_db_ok s db -> dbs s !! name = None ->
  catalog_ok lost (set_handler (set_opened_dbs (<[name := db]> (opened_dbs_ (cs_handler s))) (cs_handler s)) s).
Proof.
  intros [[He Hl Hu Hf] Hdb] Hno. set (s' := set_handler _ s).
  assert (Hent : forall d n t, entry s' d n t <-> (d = name /\ opened_tables_ db !! n = Some t) \/ entry s d n t).
  { intros d n t. unfold entry, dbs, s'. simpl. destruct (decide (d = name)) as [->|Hne].
    - rewrite lookup_insert_eq. fold (dbs s). rewrite Hno. split; [intros (db' & [= <-] & Hn); auto|].
      intros [[_ Hn]|(db' & ? & _)]; [by exists db|done].
    - rewrite lookup_insert_ne by done. split; [by right|]. intros [[? _]|?]; done. }
  split; [|done| |done].
  - intros d n t [[-> Hn]|E]%Hent Nl; [by apply (Hdb n t)|by apply (He d n t)].
  - intros d n d' n' t E1%Hent E2%Hent. destruct E1 as [[-> Hn1]|E1], E2 as [[-> Hn2]|E2].
    + destruct (Hdb n t Hn1) as [(x1 & Hx1 & <-) _], (Hdb n' t Hn2) as [(x2 & Hx2 & <-) _]. by simplify_eq.
    + by destruct (proj2 (proj2 (Hdb n t Hn1)) d' n').
    + by destruct (proj2 (proj2 (Hdb n' t Hn2)) d n).
    + by apply (Hu d n d' n' t).
Qed.

(** A call that returns: no undefined behaviour, and the fuel suffices. *)
Definition returns {A} (r : res A) : Prop := match r with Ok _ | Err _ => True | _ => False end.

Lemma bind_no_error {S A B} (m : M S A) (k : A -> M S B) (x : S) rc y :
  (forall rc' z, m x <> (Err rc', z)) -> (forall a z, m x = (Ok a, z) -> forall rc' z', k a z <> (Err rc', z')) ->
  bind m k x <> (Err rc, y).
Proof. unfold bind. intros Hm Hk. destruct (m x) as [[a|rc'| |] z] eqn:E; try done; [by apply Hk|by destruct (Hm rc' z)]. Qed.

Lemma open_tables_no_error junk db files s rc s' : open_tables (J := J) (T := T) junk db files s <> (Err rc, s').
Proof.
  revert db s rc s'. induction files as [|f files IH]; intros db s rc s'; [done|]. simpl.
  assert (Hdel : forall t (y : RC * Db) s rc' s', bind (delete_table t) (fun _ => ret y) s <> (Err rc', s')).
  { intros t y s0 rc' s0'. apply bind_no_error; [|done]. intros. apply delete_table_no_error. }
  apply bind_no_error; [done|]. intros t s1 _ rc1 s1'. apply bind_no_error; [intros ??; unfold rc_of; by destruct (on_tables _ _) as [[] ?]|].
  intros rc2 s2 _ rc3 s3. destruct (negb _); [apply Hdel|]. apply bind_no_error.
  - intros rc4 s4 Hn. apply on_tables_inv in Hn as (Hn & _). revert Hn. apply bind_no_error; [|done].
    intros rc5 z. unfold this. rewrite bind_gets. by destruct (_ !! _).
  - intros name s4 _ rc5 s5. destruct (_ !! name); [apply Hdel|apply IH].
Qed.

Lemma db_init_no_error junk (name : option string) path db s rc s' : db_init (J := J) (T := T) junk name path db s <> (Err rc, s').
Proof.
  unfold db_init. destruct (_ || _); [done|]. apply bind_no_error; [done|]. intros dir s1 _ rc1 s2. destruct (negb dir); [done|].
  apply bind_no_error; [done|]. intros [files|] s3 _ rc3 s4; [|done]. apply open_tables_no_error.
Qed.

Lemma open_db_catalog junk (dbname : option string) s r s' :
  catalog_ok lost s -> returns r -> open_db (J := J) (T := T) junk dbname s = (r, s') -> catalog_ok lost s'.
Proof.
  intros Hok Hr Hrun. unfold open_db in Hrun. rewrite bind_fail_if in Hrun. destruct (blank_name dbname); [by injection Hrun as <- <-|].
  rewrite bind_gets in Hrun. fold (dbs s) in Hrun. destruct (dbs s !! _) as [db0|] eqn:Edb; [by injection Hrun as <- <-|].
  assert (exists s1, ask_files (dir_is (h_db_dir (cs_handler s) ++ default EmptyString dbname)%string) s =
            (Ok (dir_is (h_db_dir (cs_handler s) ++ default EmptyString dbname)%string (world (db_pool (ts_store (cs_ts s))))), s1))
    as [s1 Ed] by (eexists; reflexivity).
  rewrite (bind_run _ _ _ _ _ Ed) in Hrun. apply (on_files_catalog _ _ _ _ Hok) in Ed as [Hok1 Hd1].
  rewrite bind_fail_if in Hrun. destruct (negb _); [by injection Hrun as <- <-|].
  match type of Hrun with bind ?m _ _ = _ => destruct (m s1) as [[[rc db]|rc| |] s2] eqn:Hi end.
  - rewrite (bind_run _ _ _ _ _ Hi) in Hrun. apply (db_init_fresh _ _ _ _ _ _ _ Hok1) in Hi as [Hf Hd2].
    injection Hrun as <- <-. apply catalog_add_db; [done|]. by rewrite Hd2, Hd1.
  - by apply db_init_no_error in Hi.
  - unfold bind in Hrun. rewrite Hi in Hrun. by injection Hrun as <- <-.
  - unfold bind in Hrun. rewrite Hi in Hrun. by injection Hrun as <- <-.
Qed.

(** ** Calls on one table *)

Lemma with_table_catalog {A} d n (k : Z -> M (TS (DB R W)) A) s r s' :
  (forall t, keeps same_shapes (k t)) -> catalog_ok lost s -> with_table d n (fun t => on_tables (k t)) s = (r, s') -> catalog_ok lost s'.
Proof.
  intros Hk Hok Hrun. unfold with_table, find_table in Hrun.
  destruct d as [d|], n as [n|]; try by injection Hrun as <- <-.
  unfold bind at 1 in Hrun. unfold find_db in Hrun. rewrite bind_gets in Hrun.
  change (ret _ s) with (@Ok (option Z) (match dbs s !! d with Some db => opened_tables_ db !! n | None => None end), s) in Hrun.
  cbv beta iota in Hrun. destruct (dbs s !! d) as [db|]; [|by injection Hrun as <- <-].
  destruct (opened_tables_ db !! n) as [t|]; [|by injection Hrun as <- <-].
  apply on_tables_inv in Hrun as (Hrun & Hh & Hn). specialize (Hk t (cs_ts s)). rewrite Hrun in Hk.
  by apply (catalog_shapes lost s s').
Qed.

(** ** Creating an index *)

(** Names are kept as long as table [t] is called [n]. *)
Definition names_given n t (s s' : TS (DB R W)) : Prop := name_of <$> tables s !! t = Some n -> same_names s s'.
#[local] Instance names_given_preorder n t : PreOrder (names_given n t).
Proof.
  split; [by intros s ?|]. intros s1 s2 s3 H12 H23 Hn. specialize (H12 Hn). etrans; [exact H12|]. apply H23.
  rewrite <- lookup_fmap. rewrite H12. by rewrite lookup_fmap.
Qed.

Lemma given_names n t {A} (m : M (TS (DB R W)) A) : keeps same_names m -> keeps (names_given n t) m.
Proof. intros Hm s _. apply Hm. Qed.
Lemma given_shapes n t {A} (m : M (TS (DB R W)) A) : keeps same_shapes m -> keeps (names_given n t) m.
Proof. intros Hm. by apply given_names, names_of_shapes. Qed.

Lemma given_set_meta n t m : tm_name m = n -> keeps (names_given n t) (upd_table t (set_meta m)).
Proof.
  intros Hm s Hn. unfold same_names, tables in *. simpl. apply map_eq. intros t'. rewrite !lookup_fmap.
  destruct (decide (t' = t)) as [->|Ht]; [|by rewrite lookup_alter_ne]. rewrite lookup_alter_eq.
  destruct (db_tables (ts_store s) !! t); [|done]. simpl in *. unfold name_of at 1. simpl. by rewrite Hm.
Qed.

Lemma create_index_names t trx index_name attrs unique junk :
  keeps same_names (TableScan.create_index fuel (J := J) (T := T) t trx index_name attrs unique junk).
Proof.
  intros s. unfold TableScan.create_index. rewrite bind_fail_if. destruct (_ || _); [done|].
  unfold this at 1. rewrite bind_assoc, bind_gets. fold (tables s). destruct (tables s !! t) as [x|] eqn:Hx; [|done].
  rewrite bind_ret.
  match goal with |- same_names s (snd (?m s)) => assert (Hk : keeps (names_given (name_of x) t) m); [|apply Hk; by rewrite Hx] end.
  assert (Hpool : forall A (m : M (Pool R W) A), keeps (names_given (name_of x) t) (on_pool m))
    by (intros; apply given_shapes, keeps_on_pool).
  assert (Hix : forall A y (m : M (IX R W) A), keeps (names_given (name_of x) t) (on_index y m))
    by (intros; apply given_shapes, keeps_on_index).
  assert (Hscan : forall idx, keeps (names_given (name_of x) t) (scan_record fuel t trx AnyRecord (-1) idx (index_inserter fuel t)))
    by (intros; apply given_shapes, keeps_scan_record; intros; apply keeps_index_inserter).
  assert (Hthis : keeps (names_given (name_of x) t) (this t)) by (apply given_shapes, keeps_this).
  assert (Hidx : forall idx, keeps (names_given (name_of x) t) (upd_table t (fun x => set_indexes (indexes_ x ++ [idx])%list x)))
    by (intros; by apply given_names, names_upd_table).
  assert (Hmeta : forall im, keeps (names_given (name_of x) t) (upd_table t (set_meta (add_index im (table_meta_ x)))))
    by (intros; by apply given_set_meta).
  unfold save_meta, on_world. keeps_tac.
Qed.

(** ** All calls *)

Definition catalog_kept_by s s' : Prop := catalog_ok lost s -> catalog_ok lost s'.
#[local] Instance catalog_kept_by_preorder : PreOrder catalog_kept_by.
Proof. split; unfold catalog_kept_by; intros ?; eauto. Qed.

Lemma kept_on_tables {A} (m : M (TS (DB R W)) A) : keeps same_names m -> keeps catalog_kept_by (on_tables m).
Proof.
  intros Hm s Hok. destruct (on_tables m s) as [r s'] eqn:E. simpl. apply on_tables_inv in E as (E & Hh & Hn).
  specialize (Hm (cs_ts s)). rewrite E in Hm. simpl in Hm. by apply (catalog_names lost s).
Qed.
Lemma kept_shapes {A} (m : M (TS (DB R W)) A) : keeps same_shapes m -> keeps catalog_kept_by (on_tables m).
Proof. intros Hm. by apply kept_on_tables, names_of_shapes. Qed.
Lemma kept_on_files {A} (c : W -> A * W) : keeps catalog_kept_by (on_files c).
Proof. apply kept_shapes, keeps_on_pool. Qed.
#[local] Hint Resolve kept_on_files : frames.

Lemma kept_with_table {A} d n (k : Z -> M (TS (DB R W)) A) :
  (forall t, keeps same_shapes (k t)) -> keeps catalog_kept_by (with_table d n (fun t => on_tables (k t))).
Proof.
  intros Hk. unfold with_table, find_table, find_db. assert (Hk' : forall t, keeps catalog_kept_by (on_tables (k t))) by (intros; by apply kept_shapes).
  keeps_tac.
Qed.

(** The table object that a name of the catalog leads to. *)
Definition table_at s d name : gset Z :=
  match dbs s !! d ≫= (fun db => opened_tables_ db !! name) with Some t => {[t]} | None => ∅ end.

(** A call of the handler that returns, with the table object that it deletes although a name leads to it: a
    drop_table that fails deletes one, no other call does. *)
Inductive catalog_call s s' : gset Z -> Prop :=
| call_init dir r : handler_init dir s = (r, s') -> catalog_call s s' ∅
| call_create_db (name : option string) r : create_db name s = (r, s') -> catalog_call s s' ∅
| call_open_db junk (name : option string) r : open_db (J := J) (T := T) junk name s = (r, s') -> returns r -> catalog_call s s' ∅
| call_create_table d name n attrs r :
    Db.create_table (J := J) (T := T) d name n attrs s = (r, s') -> returns r -> catalog_call s s' ∅
| call_drop_table d name : drop_table d name s = (Ok tt, s') -> catalog_call s s' ∅
| call_failed_drop d name rc : drop_table d name s = (Err rc, s') -> catalog_call s s' (table_at s d name)
| call_create_index (d name : option string) index_name attrs unique junk r :
    Db.create_index (J := J) (T := T) fuel d name index_name attrs unique junk s = (r, s') -> catalog_call s s' ∅
| call_insert (d name : option string) n values mem r : Db.insert_record fuel d name n values mem s = (r, s') -> catalog_call s s' ∅
| call_delete (d name : option string) junk conds r : Db.delete_record fuel d name junk conds s = (r, s') -> catalog_call s s' ∅
| call_update (d name : option string) attr v junk conds r : Db.update_record fuel d name attr v junk conds s = (r, s') -> catalog_call s s' ∅
| call_sync r : handler_sync s = (r, s') -> catalog_call s s' ∅.

#[local] Hint Resolve keeps_this keeps_insert_text_record keeps_insert_values keeps_delete_records : frames.

Lemma kept_run {A} (m : M (CS R W) A) s r s' : keeps catalog_kept_by m -> m s = (r, s') -> catalog_ok lost s -> catalog_ok lost s'.
Proof. intros Hm E. specialize (Hm s). by rewrite E in Hm. Qed.

Lemma catalog_call_ok s s' L : catalog_call s s' L -> catalog_ok lost s -> catalog_ok (L ∪ lost) s'.
Proof.
  intros Hc. assert (He : ∅ ∪ lost = lost) by set_solver. destruct Hc as [dir r E|name r E|junk name r E Hr|d name n attrs r E Hr|d name E|d name rc E|d name index_name attrs unique junk r E|
    d name n values mem r E|d name junk conds r E|d name attr v junk conds r E|r E];
    try rewrite He.
  - eapply kept_run, E. unfold handler_init. keeps_tac. intros s1 [? ? ? ?]. by split.
  - eapply kept_run, E. unfold create_db, ask_files. keeps_tac.
  - intros Hok. by eapply open_db_catalog.
  - intros Hok. apply (create_table_spec lost _ _ _ _ _ _ _ Hok) in E. destruct r; try done; apply E.
  - intros Hok. apply (drop_table_spec lost _ _ _ _ _ Hok) in E. apply E.
  - intros Hok. apply (drop_table_spec lost _ _ _ _ _ Hok) in E as [_ E]. unfold table_at.
    destruct (_ ≫= _); [apply E|]. rewrite He. by destruct E as [-> _].
  - eapply kept_run, E. unfold Db.create_index, find_table, find_db.
    assert (Hi : forall t, keeps catalog_kept_by (on_tables (TableScan.create_index fuel (J := J) (T := T) t true index_name attrs unique junk)))
      by (intros; apply kept_on_tables, create_index_names).
    keeps_tac.
  - eapply kept_run, E. unfold Db.insert_record. apply kept_with_table. intros t. keeps_tac.
  - eapply kept_run, E. unfold Db.delete_record. apply kept_with_table. intros t. keeps_tac.
  - eapply kept_run, E. unfold Db.update_record. apply kept_with_table. intros t. apply keeps_update_records.
  - eapply kept_run, E. unfold handler_sync. apply keeps_bind; [apply _|apply keeps_gets, _|]. intros h. apply keeps_iter; [apply _|]. intros x. unfold db_sync.
    apply keeps_iter; [apply _|]. intros y. apply kept_shapes, keeps_sync.
Qed.

End kept.

(** A sequence of calls, with the table objects that failed drops delete. *)
Inductive catalog_run : CS R W -> CS R W -> gset Z -> Prop :=
| run_nil s : catalog_run s s ∅
| run_call s1 s2 s3 L L' : catalog_call s1 s2 L -> catalog_run s2 s3 L' -> catalog_run s1 s3 (L' ∪ L).

Lemma run_first s1 s2 s3 L : catalog_call s1 s2 ∅ -> catalog_run s2 s3 L -> catalog_run s1 s3 L.
Proof. intros Hc Hr. rewrite <- (right_id_L ∅ (∪) L). by eapply run_call. Qed.
Lemma run_one s1 s2 L : catalog_call s1 s2 L -> catalog_run s1 s2 L.
Proof. intros Hc. rewrite <- (left_id_L ∅ (∪) L). by eapply run_call, run_nil. Qed.

Lemma catalog_run_ok s s' L lost : catalog_run s s' L -> catalog_ok lost s -> catalog_ok (L ∪ lost) s'.
Proof.
  intros Hr. revert lost. induction Hr as [s|s1 s2 s3 L L' Hc _ IH]; intros lost Hok.
  - by rewrite (left_id_L ∅ (∪)).
  - rewrite <- (assoc_L (∪)). by apply IH, (catalog_call_ok lost s1).
Qed.

Lemma start_ok s : dbs s = ∅ -> cs_tables s = ∅ -> catalog_ok ∅ s.
Proof.
  intros Hd Ht. split.
  - intros d n t (db & Hdb & _). by rewrite Hd, lookup_empty in Hdb.
  - set_solver.
  - intros d n d1 n1 t (db & Hdb & _). by rewrite Hd, lookup_empty in Hdb.
  - intros t Hs. rewrite Ht, lookup_empty in Hs. by destruct Hs.
Qed.

(** C5. The invariant of the catalog: after any sequence of calls of DefaultHandler that return, with
    success or an error, from the start of the program, a name in an opened database leads to a table object that
    exists and whose metadata have this name, or to one that a failed drop_table of this sequence has deleted, a
    dangling pointer; and no two names lead to the same object. *)
Theorem catalog_reachable s s' lost d n t :
  dbs s = ∅ -> cs_tables s = ∅ -> catalog_run s s' lost -> entry s' d n t ->
  (t ∉ lost -> exists x, cs_tables s' !! t = Some x /\ name_of x = n) /\ (t ∈ lost -> cs_tables s' !! t = None) /\
  forall d' n', entry s' d' n' t -> d' = d /\ n' = n.
Proof.
  intros Hd Ht Hrun He. pose proof (catalog_run_ok _ _ _ _ Hrun (start_ok s Hd Ht)) as Hok.
  rewrite (right_id_L ∅ (∪)) in Hok. split_and!.
  - by apply (co_entry lost s' Hok d).
  - by apply (co_lost lost s' Hok).
  - intros d' n' He'. by apply (co_unique lost s' Hok d' n' d n t).
Qed.
End runs.

(** ** A concrete catalog *)

Import JsonTree.

(** Every path is an empty directory. *)
#[export] Instance demo_dirs : Dirs MemFS.fs := {
  dir_is _ _ := true; dir_make _ w := (true, w); dir_entries _ _ := Some [] }.

Definition demo_cs : Type := CS LRU.LRUReplacer MemFS.fs.

Definition cs_start : demo_cs :=
  {| cs_handler := DefaultHandler_create; cs_next_table := 0;
     cs_ts := {| ts_trx := Trx_create; ts_next := 0;
                 ts_store := {| db_pool := Pool_create (BPManager_create (replicate 4 inhabitant) (LRU.create 4)) MemFS.empty;
                                db_tables := ∅ |} |} |}.

Definition run_handler_init : res unit * demo_cs := handler_init "b" cs_start.
Definition run_open_db : res unit * demo_cs :=
  open_db (J := JsonTree.value) (T := JsonTree.value) junk_header (Some "d"%string) run_handler_init.2.
Definition run_create_table : res unit * demo_cs :=
  Db.create_table (J := JsonTree.value) (T := JsonTree.value) "d" "t" 2 (Some demo_attrs) run_open_db.2.
Definition run_drop_table : res unit * demo_cs := drop_table "d" "t" run_create_table.2.

Example demo_catalog_runs :
  run_open_db.1 = Ok tt /\ run_create_table.1 = Ok tt /\ run_drop_table.1 = Err IOERR.
Proof. split_and!; vm_compute; reflexivity. Qed.

Lemma cs_start_ok : catalog_ok ∅ cs_start.
Proof. by apply start_ok. Qed.

Lemma run_is (x : res unit * demo_cs) r : x.1 = r -> x = (r, x.2).
Proof. destruct x. simpl. by intros ->. Qed.
Lemma demo_pair (x : res unit * demo_cs) : x = (x.1, x.2).
Proof. by destruct x. Qed.

Lemma demo_table_at s t :
  (dbs (s : demo_cs) !! "d"%string ≫= (fun db => opened_tables_ db !! "t"%string)) = Some t -> table_at s "d" "t" = {[t]} /\ entry s "d" "t" t.
Proof.
  intros E. unfold table_at. rewrite E. split; [done|]. unfold entry. destruct (dbs s !! "d"%string) as [db|]; [|done]. by exists db.
Qed.

Lemma demo_entries : table_at run_create_table.2 "d" "t" = {[0]} /\ entry run_create_table.2 "d" "t" 0 /\ entry run_drop_table.2 "d" "t" 0.
Proof. split_and!; apply demo_table_at; vm_compute; reflexivity. Qed.

Lemma demo_created_run : catalog_run (J := JsonTree.value) (T := JsonTree.value) 5 cs_start run_create_table.2 ∅.
Proof.
  eapply run_first; [eapply call_init, (demo_pair run_handler_init)|].
  eapply run_first; [eapply (call_open_db _ _ _ junk_header (Some "d"%string)); [apply (demo_pair run_open_db)|vm_compute; exact I]|].
  apply run_one.
  eapply (call_create_table _ _ _ "d" "t" 2 (Some demo_attrs)); [apply (demo_pair run_create_table)|vm_compute; exact I].
Qed.

Lemma demo_dropped_run : catalog_run (J := JsonTree.value) (T := JsonTree.value) 5 cs_start run_drop_table.2 {[0]}.
Proof.
  eapply run_first; [eapply call_init, (demo_pair run_handler_init)|].
  eapply run_first; [eapply (call_open_db _ _ _ junk_header (Some "d"%string)); [apply (demo_pair run_open_db)|vm_compute; exact I]|].
  eapply run_first.
  { eapply (call_create_table _ _ _ "d" "t" 2 (Some demo_attrs)); [apply (demo_pair run_create_table)|vm_compute; exact I]. }
  apply run_one. rewrite <- (proj1 demo_entries).
  apply (call_failed_drop _ _ _ "d" "t" IOERR). apply (run_is run_drop_table), demo_catalog_runs.
Qed.

Lemma demo_created_ok : catalog_ok ∅ run_create_table.2.
Proof. exact (catalog_run_ok 5 _ _ _ ∅ demo_created_run cs_start_ok). Qed.

Lemma demo_opened_ok : catalog_ok ∅ run_open_db.2.
Proof.
  refine (catalog_run_ok (J := JsonTree.value) (T := JsonTree.value) 5 cs_start _ ∅ ∅ _ cs_start_ok).
  eapply run_first; [eapply call_init, (demo_pair run_handler_init)|].
  apply run_one.
  eapply (call_open_db _ _ _ junk_header (Some "d"%string)); [apply (demo_pair run_open_db)|vm_compute; exact I].
Qed.

Lemma create_table_ok_witness :
  catalog_ok ∅ run_create_table.2 /\ exists db, dbs run_open_db.2 !! "d"%string = Some db /\ opened_tables_ db !! "t"%string = None.
Proof.
  destruct (create_table_ok (J := JsonTree.value) (T := JsonTree.value) ∅ "d" "t" 2 (Some demo_attrs) run_open_db.2 (Ok tt)
    run_create_table.2 demo_opened_ok (run_is run_create_table (Ok tt) (proj1 (proj2 demo_catalog_runs))))
    as [Hok (db & Hdb & Hno & _)].
  split; [exact Hok|]. exists db. split; [exact Hdb|exact Hno].
Defined.

Lemma drop_table_ok_witness : exists t, entry run_drop_table.2 "d" "t" t /\ cs_tables run_drop_table.2 !! t = None.
Proof.
  destruct (drop_table_ok ∅ "d" "t" run_create_table.2 (Err IOERR) run_drop_table.2 demo_created_ok
    (run_is run_drop_table (Err IOERR) (proj2 (proj2 demo_catalog_runs)))) as [_ Hw].
  assert (E : (dbs run_create_table.2 !! "d"%string ≫= (fun db => opened_tables_ db !! "t"%string)) = Some 0) by (vm_compute; reflexivity).
  rewrite E in Hw. exists 0. exact (proj2 Hw).
Defined.

(** The name of a created table, and the same name after a drop_table that has failed. *)
Lemma catalog_reachable_witness :
  (exists x, cs_tables run_create_table.2 !! 0 = Some x /\ name_of x = "t"%string) /\ cs_tables run_drop_table.2 !! 0 = None.
Proof.
  split.
  - apply (catalog_reachable (J := JsonTree.value) (T := JsonTree.value) 5 cs_start run_create_table.2 ∅ "d" "t" 0);
      [reflexivity|reflexivity|apply demo_created_run|apply demo_entries|set_solver].
  - apply (catalog_reachable (J := JsonTree.value) (T := JsonTree.value) 5 cs_start run_drop_table.2 {[0]} "d" "t" 0);
      [reflexivity|reflexivity|apply demo_dropped_run|apply demo_entries|set_solver].
Defined.
