(* ===== verification/Expression.v ===== *)
(** * Expressions (sql/executor/util.h, util.cpp)

    The trees of arithmetic expressions in a query with AstUtil::Calculate, which evaluates one
    on a tuple, and AstUtil::Print, which writes the heading of its column.  [map::at] on a
    missing key throws an exception that nothing catches: [Ub], as a failed [assert]. *)
From Stdlib Require Import String Floats.SpecFloat.
From S2P Require Import Prelude ReturnCode Effects Bitmap Memory KeyCompare Dates ConditionFilter Table Values SmallFloats.

Abbreviation Tuple := (list TupleValue).

(** [tuple.get_pointer(index)]. *)
Definition get_pointer (t : Tuple) (index : Z) : res TupleValue := at_index t index.

(** [std::map<std::string, std::map<std::string, int>>]: the position of a column in a tuple. *)
Abbreviation FieldIndex := (gmap string (gmap string Z)).

Definition map_at {A} (m : gmap string A) (k : string) : res A :=
  match m !! k with Some x => Ok x | None => Ub end.

(** ** Trees *)

Inductive BinaryNode := ADDN | SUBN | MULN | DIVN.

(** [ast] with [valnode] and [attrnode]; [NullAst] is a null pointer. *)
Inductive ast :=
| NullAst
| OpNode (nodetype : BinaryNode) (l_brace r_brace : Z) (l r : ast)
| ValNode (l_brace r_brace : Z) (v : Value)
| AttrNode (l_brace r_brace : Z) (attr : RelAttr).

(** ** Evaluation *)

Definition arithmetic (op : BinaryNode) (x y : float) : res TupleValue :=
  match op with
  | ADDN => Ok (FloatValue (SFadd 24 128 x y))
  | SUBN => Ok (FloatValue (SFsub 24 128 x y))
  | MULN => Ok (FloatValue (SFmul 24 128 x y))
  | DIVN => if SFeqb y (S754_zero false) then Err GENERIC_ERROR else Ok (FloatValue (SFdiv 24 128 x y))
  end.

Definition numeric (t : AttrType) : bool := bool_decide (t = INTS) || bool_decide (t = FLOATS).

(** The number in the memory of a [Value], as a [float]. *)
Definition value_as_float (v : Value) : res float :=
  if negb (numeric (v_type v)) || (alen (v_data v) <? 4) then Ub
  else Ok (if bool_decide (v_type v = INTS) then float_of_int (rd32 (v_data v) 0) else float_at (v_data v)).

(** With one table its name is not looked at. *)
Definition attr_table (field_index : FieldIndex) (attr : RelAttr) : res string :=
  match map_to_list field_index with
  | [(table, _)] => Ok table
  | _ => non_null (relation_name attr)
  end.

Fixpoint Calculate (tuple : Tuple) (field_index : FieldIndex) (a : ast) : res TupleValue :=
  match a with
  | NullAst => Ok (FloatValue (float_of_int 0))
  | OpNode op _ _ l r =>
      let? lvalue := Calculate tuple field_index l in
      let? rvalue := Calculate tuple field_index r in
      let? x := value lvalue in
      let? y := value rvalue in
      arithmetic op x y
  | ValNode _ _ v => let? x := value_as_float v in Ok (FloatValue x)
  | AttrNode _ _ attr =>
      let? table_name := attr_table field_index attr in
      let? fields := map_at field_index table_name in
      let? name := non_null (attribute_name attr) in
      let? index := map_at fields name in
      let? v := get_pointer tuple index in
      let? _ := asserting (numeric (Type_of v)) in
      Ok v
  end%C.

(** ** Printing *)

Definition PrintNodeType (op : BinaryNode) : list Z :=
  bytes_of_string match op with ADDN => "+" | SUBN => "-" | MULN => "*" | DIVN => "/" end.

Definition PrintValue (v : Value) : res (list Z) :=
  match v_type v with
  | INTS => if alen (v_data v) <? 4 then Ub else to_string (IntValue (rd32 (v_data v) 0))
  | FLOATS => if alen (v_data v) <? 4 then Ub else to_string (FloatValue (float_at (v_data v)))
  | CHARS => non_null (cstr (v_data v))
  | _ => Ub
  end.

Definition braces (c : string) (n : Z) : list Z := concat (replicate (Z.to_nat n) (bytes_of_string c)).

Definition PrintAttr (attr : RelAttr) : res (list Z) :=
  (let? name := non_null (attribute_name attr) in
   Ok (match relation_name attr with Some t => bytes_of_string t ++ [dot] | None => [] end ++ bytes_of_string name))%C.

Fixpoint Print (a : ast) : res (list Z) :=
  match a with
  | NullAst => Ub
  | OpNode op lb rb l r =>
      let? ltext := match l with NullAst => Ok [] | _ => Print l end in
      let? rtext := Print r in
      Ok (braces "(" lb ++ ltext ++ PrintNodeType op ++ rtext ++ braces ")" rb)
  | ValNode lb rb v => let? s := PrintValue v in Ok (braces "(" lb ++ s ++ braces ")" rb)
  | AttrNode lb rb attr => let? s := PrintAttr attr in Ok (braces "(" lb ++ s ++ braces ")" rb)
  end%C.

(** ** Types *)

(** The column that an attribute names. *)
Definition column_of (field_index : FieldIndex) (attr : RelAttr) : res Z :=
  (let? table_name := attr_table field_index attr in
   let? fields := map_at field_index table_name in
   let? name := non_null (attribute_name attr) in
   map_at fields name)%C.

Definition is_number (v : TupleValue) : bool := match v with IntValue _ | FloatValue _ => true | _ => false end.

(** Constants are numbers and attributes are columns with numbers in this tuple. *)
Fixpoint well_typed (tuple : Tuple) (field_index : FieldIndex) (a : ast) : bool :=
  match a with
  | NullAst => true
  | OpNode _ _ _ l r => well_typed tuple field_index l && well_typed tuple field_index r
  | ValNode _ _ v => numeric (v_type v) && (4 <=? alen (v_data v))
  | AttrNode _ _ attr =>
      match column_of field_index attr with
      | Ok i => match get_pointer tuple i with Ok v => is_number v | _ => false end
      | _ => false
      end
  end.

(** The value of a tree in the arithmetic of floats; [None]: a divisor is zero. *)
Fixpoint float_meaning (tuple : Tuple) (field_index : FieldIndex) (a : ast) : option float :=
  match a with
  | NullAst => Some (float_of_int 0)
  | OpNode op _ _ l r =>
      match float_meaning tuple field_index l, float_meaning tuple field_index r with
      | Some x, Some y =>
          match op with
          | ADDN => Some (SFadd 24 128 x y)
          | SUBN => Some (SFsub 24 128 x y)
          | MULN => Some (SFmul 24 128 x y)
          | DIVN => if SFeqb y (S754_zero false) then None else Some (SFdiv 24 128 x y)
          end
      | _, _ => None
      end
  | ValNode _ _ v =>
      Some (if bool_decide (v_type v = INTS) then float_of_int (rd32 (v_data v) 0) else float_at (v_data v))
  | AttrNode _ _ attr =>
      match column_of field_index attr with
      | Ok i => match get_pointer tuple i with
                | Ok (IntValue x) => Some (float_of_int x)
                | Ok (FloatValue x) => Some x
                | _ => None
                end
      | _ => None
      end
  end.

(** Well-typed trees: the result is a number, or the error of a division by zero. *)
Lemma Calculate_result tuple field_index a :
  well_typed tuple field_index a = true ->
  match float_meaning tuple field_index a with
  | Some x => exists v, Calculate tuple field_index a = Ok v /\ is_number v = true /\ value v = Ok x
  | None => Calculate tuple field_index a = Err GENERIC_ERROR
  end.
Proof.
  induction a as [|op lb rb l IHl r IHr|lb rb v|lb rb attr]; cbn [well_typed float_meaning Calculate].
  - by eexists.
  - intros [Hl Hr]%andb_prop. specialize (IHl Hl). specialize (IHr Hr).
    destruct (float_meaning tuple field_index l) as [x|]; [|by rewrite IHl].
    destruct IHl as (v & -> & _ & Hv). cbn [res_bind].
    destruct (float_meaning tuple field_index r) as [y|]; [|by rewrite IHr].
    destruct IHr as (w & -> & _ & Hw). cbn [res_bind]. rewrite Hv, Hw. cbn [res_bind].
    destruct op; cbn [arithmetic]; [by eexists..|]. destruct (SFeqb y (S754_zero false)); [done|by eexists].
  - intros [Ht Hlen]%andb_prop. unfold value_as_float. rewrite Ht. cbn [negb orb].
    destruct (Z.ltb_spec (alen (v_data v)) 4); [lia|]. by eexists.
  - unfold column_of. destruct (attr_table field_index attr) as [t| | |]; cbn [res_bind]; try done.
    destruct (map_at field_index t) as [fields| | |]; cbn [res_bind]; try done.
    destruct (non_null (attribute_name attr)) as [n| | |]; cbn [res_bind]; try done.
    destruct (map_at fields n) as [i| | |]; cbn [res_bind]; try done.
    destruct (get_pointer tuple i) as [[x|x| |]| | |]; try done; intros _; cbn; by eexists.
Qed.

(** C25. Evaluation of a well-typed expression is defined: it yields the number that the tree stands for in the
    arithmetic of floats, integers being converted first, and GENERIC_ERROR exactly when a divisor is zero.  In this case
    there is no value, although the comment in util.h announces a NullValue. *)
Theorem Calculate_sound tuple field_index a :
  well_typed tuple field_index a = true ->
  match float_meaning tuple field_index a with
  | Some x => exists v, Calculate tuple field_index a = Ok v /\ is_number v = true /\ value v = Ok x
  | None => Calculate tuple field_index a = Err GENERIC_ERROR
  end.
Proof. apply Calculate_result. Qed.

(** [t.a / (t.a - 3)] on a row with 3. *)
Definition demo_index : FieldIndex := {["t" := {["a" := 0]}]}.
Definition demo_attr : ast := AttrNode 0 0 {| relation_name := None; attribute_name := Some "a" |}.
Definition demo_exp : ast :=
  OpNode DIVN 0 0 demo_attr
    (OpNode SUBN 1 1 demo_attr (ValNode 0 0 {| v_type := INTS; v_isnull := false; v_data := le32 3 |})).

Lemma Calculate_sound_witness :
  well_typed [IntValue 3] demo_index demo_exp = true /\
  Calculate [IntValue 3] demo_index demo_exp = Err GENERIC_ERROR.
Proof. split; [done|]. exact (Calculate_sound [IntValue 3] demo_index demo_exp eq_refl). Defined.

Example Print_demo : Print demo_exp = Ok (bytes_of_string "a/(a-3" ++ bytes_of_string ")").
Proof. reflexivity. Qed.

(** ** Integer expressions *)

Definition if_small (z : Z) : option Z := if (- 2 ^ 24 <? z) && (z <? 2 ^ 24) then Some z else None.

(** The value of a tree of integers without divisions; [None] if a constant, column or intermediate result is not
    below 2^24. *)
Fixpoint int_meaning (tuple : Tuple) (field_index : FieldIndex) (a : ast) : option Z :=
  match a with
  | NullAst => Some 0
  | OpNode op _ _ l r =>
      match int_meaning tuple field_index l, int_meaning tuple field_index r with
      | Some x, Some y =>
          match op with
          | ADDN => if_small (x + y)
          | SUBN => if_small (x - y)
          | MULN => if_small (x * y)
          | DIVN => None
          end
      | _, _ => None
      end
  | ValNode _ _ v =>
      if bool_decide (v_type v = INTS) && (4 <=? alen (v_data v)) then if_small (rd32 (v_data v) 0) else None
  | AttrNode _ _ attr =>
      match column_of field_index attr with
      | Ok i => match get_pointer tuple i with Ok (IntValue x) => if_small x | _ => None end
      | _ => None
      end
  end.

Lemma if_small_Some z w : if_small z = Some w -> w = z /\ small z.
Proof. unfold if_small, small. destruct ((- 2 ^ 24 <? z) && (z <? 2 ^ 24)) eqn:E; [intros [= <-]; lia|done]. Qed.

(** Expressions over integers are exact although they are computed in single precision: as long as no
    intermediate result reaches 2^24, sums, differences and products yield the integer that they denote. *)
Theorem Calculate_exact tuple field_index a z :
  int_meaning tuple field_index a = Some z ->
  exists v x, Calculate tuple field_index a = Ok v /\ value v = Ok x /\ int_float x z.
Proof.
  revert z. induction a as [|op lb rb l IHl r IHr|lb rb v|lb rb attr]; intros z; cbn [int_meaning Calculate].
  - intros [= <-]. eexists _, _. split_and!; [done|done|]. by apply float_of_int_exact.
  - destruct (int_meaning tuple field_index l) as [a|]; [|done].
    destruct (int_meaning tuple field_index r) as [b|]; [|done].
    destruct (IHl a eq_refl) as (lv & x & -> & Hx & Fx), (IHr b eq_refl) as (rv & y & -> & Hy & Fy).
    cbn [res_bind]. rewrite Hx, Hy. cbn [res_bind].
    destruct op; [..|done]; intros [-> Hs]%if_small_Some; eexists _, _; (split_and!; [reflexivity|reflexivity|]).
    + by apply SFadd_exact.
    + by apply SFsub_exact.
    + by apply SFmul_exact.
  - destruct (bool_decide (v_type v = INTS)) eqn:Et; [|done]. destruct (Z.leb_spec 4 (alen (v_data v))); [|done].
    intros [-> Hs]%if_small_Some. unfold value_as_float, numeric. rewrite Et.
    destruct (Z.ltb_spec (alen (v_data v)) 4); [lia|]. eexists _, _. split_and!; [done|done|].
    by apply float_of_int_exact.
  - unfold column_of. destruct (attr_table field_index attr) as [t| | |]; cbn [res_bind]; try done.
    destruct (map_at field_index t) as [fields| | |]; cbn [res_bind]; try done.
    destruct (non_null (attribute_name attr)) as [n| | |]; cbn [res_bind]; try done.
    destruct (map_at fields n) as [i| | |]; cbn [res_bind]; try done.
    destruct (get_pointer tuple i) as [[x|x| |]| | |]; try done. intros [-> Hs]%if_small_Some.
    eexists _, _. split_and!; [done|done|]. by apply float_of_int_exact.
Qed.

(** [a * (a - 3)] on a row with 4001. *)
Lemma Calculate_exact_witness :
  let a := OpNode MULN 0 0 demo_attr
             (OpNode SUBN 1 1 demo_attr (ValNode 0 0 {| v_type := INTS; v_isnull := false; v_data := le32 3 |})) in
  exists v x, Calculate [IntValue 4001] demo_index a = Ok v /\ value v = Ok x /\ int_float x 15995998.
Proof. intros a. apply (Calculate_exact [IntValue 4001] demo_index a 15995998). vm_compute. reflexivity. Defined.
