(* ===== verification/Tuples.v ===== *)
(** * Tuples and their schemas (sql/executor/tuple.h, tuple.cpp)

    A [TupleSchema] caches the map from column names to positions: [table_field_index] fills it
    once, and no later change of the columns empties it.  The functions that use it are
    computations on the schema. *)
From Stdlib Require Import String Floats.SpecFloat.
From S2P Require Import Prelude ReturnCode Effects Bitmap Memory KeyCompare Dates TableMeta ConditionFilter Table.
From S2P Require Import Values Expression.

(** ** Tuple *)

Definition add_value (v : TupleValue) (t : Tuple) : Tuple := t ++ [v].

(** [add(const Tuple &tuple, const std::vector<int> &field_index)]. *)
Fixpoint add_fields (tuple : Tuple) (index : list Z) (t : Tuple) : res Tuple :=
  match index with
  | [] => Ok t
  | i :: rest => let? v := get_pointer tuple i in add_fields tuple rest (add_value v t)
  end%C.

(** ** TupleField *)

Record TupleField := { tf_type : AttrType; tf_table_name : string; tf_field_name : string; tf_order : Z }.

#[export] Instance TupleField_eq_dec : EqDecision TupleField.
Proof. solve_decision. Defined.

Definition field_to_string (f : TupleField) : list Z :=
  bytes_of_string (tf_table_name f) ++ [dot] ++ bytes_of_string (tf_field_name f) ++ decimal (attr_code (tf_type f)).

(** ** Aggregates in a schema *)

Inductive AggreType := UNDEFINEDAGG | MAXS | MINS | AVGS | SUMS | COUNTS.

#[export] Instance AggreType_eq_dec : EqDecision AggreType.
Proof. solve_decision. Defined.

Record AggreDesc := {
  ad_type : AggreType; ad_is_attr : Z; ad_relation_name : option string; ad_attr_name : option string;
  ad_is_star : Z; ad_value : float }.

(** ** TupleSchema *)

Record TupleSchema := {
  fields_ : list TupleField;
  table_field_index_ : FieldIndex;
  agg_descs_ : list AggreDesc;
  exps_ : list ast }.

Definition TupleSchema_create : TupleSchema :=
  {| fields_ := []; table_field_index_ := ∅; agg_descs_ := []; exps_ := [] |}.

Definition set_fields (l : list TupleField) (s : TupleSchema) : TupleSchema :=
  {| fields_ := l; table_field_index_ := table_field_index_ s; agg_descs_ := agg_descs_ s; exps_ := exps_ s |}.
Definition set_index (m : FieldIndex) (s : TupleSchema) : TupleSchema :=
  {| fields_ := fields_ s; table_field_index_ := m; agg_descs_ := agg_descs_ s; exps_ := exps_ s |}.
Definition Set_agg_descs (l : list AggreDesc) (s : TupleSchema) : TupleSchema :=
  {| fields_ := fields_ s; table_field_index_ := table_field_index_ s; agg_descs_ := l; exps_ := exps_ s |}.
Definition add_exp (a : ast) (s : TupleSchema) : TupleSchema :=
  {| fields_ := fields_ s; table_field_index_ := table_field_index_ s; agg_descs_ := agg_descs_ s;
     exps_ := exps_ s ++ [a] |}.
Definition has_expression (s : TupleSchema) : bool := 0 <? alen (exps_ s).

Definition schema_add (type : AttrType) (table_name field_name : string) (order : Z) (s : TupleSchema) : TupleSchema :=
  set_fields (fields_ s ++
    [{| tf_type := type; tf_table_name := table_name; tf_field_name := field_name; tf_order := order |}]) s.

Definition named (table_name field_name : string) (f : TupleField) : bool :=
  bool_decide (tf_table_name f = table_name) && bool_decide (tf_field_name f = field_name).

Definition add_if_not_exists (type : AttrType) (table_name field_name : string) (order : Z) (s : TupleSchema)
    : TupleSchema :=
  if existsb (named table_name field_name) (fields_ s) then s else schema_add type table_name field_name order s.

Definition append (other : TupleSchema) (s : TupleSchema) : TupleSchema := set_fields (fields_ s ++ fields_ other) s.

Definition schema_clear (s : TupleSchema) : TupleSchema := set_fields [] s.

(** [i] is the loop counter. *)
Fixpoint index_of_field_from (i : Z) (l : list TupleField) (table_name field_name : string) : Z :=
  match l with
  | [] => -1
  | f :: rest => if named table_name field_name f then i else index_of_field_from (i + 1) rest table_name field_name
  end.

Definition index_of_field (s : TupleSchema) (table_name field_name : string) : Z :=
  index_of_field_from 0 (fields_ s) table_name field_name.

(** One round of the loops of [table_field_index]. *)
Definition put_index (table_name field_name : string) (index : Z) (m : FieldIndex) : FieldIndex :=
  match m !! table_name with
  | None => <[table_name := {[field_name := index]}]> m
  | Some fields => <[table_name := <[field_name := index]> fields]> m
  end.

Fixpoint index_fields (index : Z) (l : list TupleField) (m : FieldIndex) : FieldIndex :=
  match l with
  | [] => m
  | f :: rest => index_fields (index + 1) rest (put_index (tf_table_name f) (tf_field_name f) index m)
  end.

Fixpoint index_aggs (index : Z) (l : list AggreDesc) (m : FieldIndex) : res FieldIndex :=
  match l with
  | [] => Ok m
  | a :: rest =>
      let? table_name := non_null (ad_relation_name a) in
      let? field_name := non_null (ad_attr_name a) in
      index_aggs (index + 1) rest (put_index table_name field_name index m)
  end%C.

Definition is_nil {A} (l : list A) : bool := match l with [] => true | _ => false end.

Definition table_field_index : M TupleSchema FieldIndex := fun s =>
  if negb (bool_decide (table_field_index_ s = ∅)) then (Ok (table_field_index_ s), s)
  else if negb (is_nil (fields_ s) || is_nil (agg_descs_ s)) then (Ub, s)
  else match index_aggs 0 (agg_descs_ s) (index_fields 0 (fields_ s) ∅) with
  | Ok m => (Ok m, set_index m s)
  | Err rc => (Err rc, s)
  | Ub => (Ub, s)
  | OutOfFuel => (OutOfFuel, s)
  end.

(** The position of a column, if it is there. *)
Definition find_index_of (m : FieldIndex) (table_name field_name : string) : option Z :=
  match m !! table_name with None => None | Some fields => fields !! field_name end.

(** The positions in [schema] of the columns; one that is not there is left out. *)
Definition index_in (fields : list TupleField) : M TupleSchema (list Z) :=
  (let! m := table_field_index in
   ret (omap (fun f => find_index_of m (tf_table_name f) (tf_field_name f)) fields))%C.

(** ** Printing a schema *)

Definition separator : list Z := bytes_of_string " | ".
Definition newline : list Z := [10].

(** The elements with [" | "] between them; the last is printed after the loop. *)
Fixpoint print_row (l : list (list Z)) : list Z :=
  match l with
  | [] => []
  | [x] => x
  | x :: l' => x ++ separator ++ print_row l'
  end.

Definition field_heading (multi_table : bool) (f : TupleField) : list Z :=
  (if multi_table then bytes_of_string (tf_table_name f) ++ [dot] else []) ++ bytes_of_string (tf_field_name f).

Definition aggre_type_print (t : AggreType) : res (list Z) :=
  match t with
  | MAXS => Ok (bytes_of_string "max")
  | MINS => Ok (bytes_of_string "min")
  | AVGS => Ok (bytes_of_string "avg")
  | SUMS => Ok (bytes_of_string "sum")
  | COUNTS => Ok (bytes_of_string "count")
  | UNDEFINEDAGG => Ub
  end.

Definition aggre_attr_print (a : AggreDesc) : res (list Z) :=
  if (ad_is_attr a =? 1) || (ad_is_star a =? 1) then
    (let? name := non_null (ad_attr_name a) in
     Ok (match ad_relation_name a with Some t => bytes_of_string t ++ [dot] | None => [] end ++ bytes_of_string name))%C
  else to_string (FloatValue (ad_value a)).

Definition agg_heading (a : AggreDesc) : res (list Z) :=
  (let? type := aggre_type_print (ad_type a) in
   let? attr := aggre_attr_print a in
   Ok (type ++ bytes_of_string "(" ++ attr ++ bytes_of_string ")"))%C.

Definition schema_print (multi_table : bool) (s : TupleSchema) : res (list Z) :=
  (let? aggs := res_map agg_heading (agg_descs_ s) in
  let? exps := res_map Print (exps_ s) in
  Ok ((if is_nil (fields_ s) then []
       else print_row (field_heading multi_table <$> fields_ s) ++
            (if is_nil aggs && is_nil exps then newline else separator)) ++
      (if is_nil aggs then [] else print_row aggs ++ newline) ++
      (if is_nil exps then [] else print_row exps ++ newline)))%C.

(** ** Schemas of tables *)

Definition from_table (t : TableMeta) (s : TupleSchema) : TupleSchema :=
  foldl (fun s f => if fm_visible f then schema_add (fm_type f) (tm_name t) (fm_name f) 0 s else s) s (tm_fields t).

Definition from_tables (ts : list TableMeta) (s : TupleSchema) : TupleSchema :=
  foldl (fun s t => from_table t s) s ts.

Definition schema_add_field (t : TableMeta) (field_name : option string) (s : TupleSchema) : res TupleSchema :=
  match field_named t field_name with
  | None => Ub
  | Some f => Ok (add_if_not_exists (fm_type f) (tm_name t) (fm_name f) 0 s)
  end.

(** ** TupleSet *)

Record TupleSet := { tuples_ : list Tuple; schema_ : TupleSchema }.

Definition TupleSet_create : TupleSet := {| tuples_ := []; schema_ := TupleSchema_create |}.
Definition TupleSet_of (schema : TupleSchema) : TupleSet := {| tuples_ := []; schema_ := schema |}.

(** The moving constructor and assignment; the second result is what is left of [other]. *)
Definition move_construct (other : TupleSet) : TupleSet * TupleSet :=
  ({| tuples_ := tuples_ other; schema_ := schema_ other |}, {| tuples_ := []; schema_ := schema_clear (schema_ other) |}).

Definition move_assign (other s : TupleSet) : TupleSet * TupleSet :=
  ({| tuples_ := tuples_ other; schema_ := append (schema_ other) (schema_clear (schema_ s)) |},
   {| tuples_ := []; schema_ := schema_clear (schema_ other) |}).

Definition add_tuple (t : Tuple) (s : TupleSet) : TupleSet := {| tuples_ := tuples_ s ++ [t]; schema_ := schema_ s |}.
Definition set_clear (s : TupleSet) : TupleSet := {| tuples_ := []; schema_ := schema_clear (schema_ s) |}.
Definition set_schema (schema : TupleSchema) (s : TupleSet) : TupleSet := {| tuples_ := tuples_ s; schema_ := schema |}.
Definition is_empty (s : TupleSet) : bool := is_nil (tuples_ s).
Definition set_size (s : TupleSet) : Z := alen (tuples_ s).
Definition get_tuple (s : TupleSet) (index : Z) : res Tuple := at_index (tuples_ s) index.

(** A tuple without values: the loop begins behind the vector. *)
Definition print_tuple (t : Tuple) : res (list Z) :=
  if is_nil t then Ub else (let? row := res_map to_string t in Ok (print_row row ++ newline))%C.

Definition set_print (multi_table : bool) (s : TupleSet) : res (list Z) :=
  (let? heading := schema_print multi_table (schema_ s) in
  let? rows := res_map print_tuple (tuples_ s) in
  Ok (heading ++ concat rows))%C.

(** ** TupleSetDescartesIterator *)

Record DescartesIterator := { sizes_ : list Z; indexes_ : list Z; di_end : bool }.

Definition DescartesIterator_create (tuple_sets : list TupleSet) : DescartesIterator :=
  {| sizes_ := set_size <$> tuple_sets; indexes_ := (fun _ => 0) <$> tuple_sets;
     di_end := existsb (fun s => set_size s =? 0) tuple_sets |}.

(** [operator *]: the loop over the tables. *)
Fixpoint current_from (tuple_sets : list TupleSet) (sizes indexes : list Z) : res (list Tuple) :=
  match tuple_sets, sizes, indexes with
  | s :: tuple_sets', size :: sizes', index :: indexes' =>
      let? here := (if index <? size then let? t := get_tuple s index in Ok [t] else Ok []) in
      let? rest := current_from tuple_sets' sizes' indexes' in
      Ok (here ++ rest)
  | _, _, _ => Ok []
  end%C.

Definition current (tuple_sets : list TupleSet) (it : DescartesIterator) : res (list Tuple) :=
  current_from tuple_sets (sizes_ it) (indexes_ it).

(** The loop of [operator ++] from table [n - 1] down: whether an index was incremented, and the indexes. *)
Fixpoint next_indexes (n : nat) (sizes indexes : list Z) : bool * list Z :=
  match n with
  | O => (false, indexes)
  | S i' =>
      let i := Z.of_nat i' in
      if aget indexes i <? aget sizes i - 1 then (true, aset indexes i (aget indexes i + 1))
      else next_indexes i' sizes (aset indexes i 0)
  end.

Definition next (it : DescartesIterator) : DescartesIterator :=
  let '(more, indexes) := next_indexes (length (indexes_ it)) (sizes_ it) (indexes_ it) in
  {| sizes_ := sizes_ it; indexes_ := indexes; di_end := if more then di_end it else true |}.

(** [for (auto iter = TupleSetDescartesIterator(&tuple_sets); !iter.End(); ++iter)]; the body works on
    what [iter] points to. *)
Fixpoint descartes_for {A} (fuel : nat) (tuple_sets : list TupleSet) (it : DescartesIterator)
    (body : list Tuple -> A -> res A) (a : A) : res A :=
  if di_end it then Ok a
  else match fuel with
  | O => OutOfFuel
  | S fuel' =>
      let? tuples := current tuple_sets it in
      let? a := body tuples a in
      descartes_for fuel' tuple_sets (next it) body a
  end%C.

(** [for (x : l) a = body(x, a)]. *)
Fixpoint res_fold {A B} (body : B -> A -> res A) (l : list B) (a : A) : res A :=
  match l with
  | [] => Ok a
  | x :: l' => let? a := body x a in res_fold body l' a
  end%C.
