(* ===== verification/TuplesTheorems.v ===== *)
(** * Theorems on tuples, schemas and the Cartesian product

    The map of positions agrees with the columns; the iterator over several tuple sets enumerates
    their product once, in lexicographic order, and ends. *)
From Stdlib Require Import String Floats.SpecFloat.
From S2P Require Import Prelude ReturnCode Effects Bitmap Memory KeyCompare Dates TableMeta ConditionFilter Table.
From S2P Require Import Values Expression Tuples.

(** ** The product *)

(** All choices of one element per list, the last list varying fastest. *)
Fixpoint product {A} (ls : list (list A)) : list (list A) :=
  match ls with
  | [] => [[]]
  | l :: rest => l ≫= fun x => cons x <$> product rest
  end.

(** The index vectors from a given one on, in lexicographic order. *)
Fixpoint index_vectors (sizes : list Z) : list (list Z) :=
  match sizes with [] => [[]] | n :: rest => seqZ 0 n ≫= fun j => cons j <$> index_vectors rest end.

Fixpoint vectors_from (sizes indexes : list Z) : list (list Z) :=
  match sizes, indexes with
  | n :: sizes', i :: indexes' =>
      (cons i <$> vectors_from sizes' indexes') ++
      (seqZ (i + 1) (n - i - 1) ≫= fun j => cons j <$> index_vectors sizes')
  | _, _ => [[]]
  end.

Definition in_range (sizes indexes : list Z) : Prop := Forall2 (fun n i => 0 <= i < n) sizes indexes.

(** [next_indexes] by recursion on the list. *)
Fixpoint advance (sizes indexes : list Z) : bool * list Z :=
  match sizes, indexes with
  | n :: sizes', i :: indexes' =>
      let '(more, indexes'') := advance sizes' indexes' in
      if more then (true, i :: indexes'')
      else if i <? n - 1 then (true, i + 1 :: indexes'') else (false, 0 :: indexes'')
  | _, _ => (false, [])
  end.

Lemma next_indexes_cons k n sizes i indexes :
  next_indexes (S k) (n :: sizes) (i :: indexes) =
  let '(more, indexes') := next_indexes k sizes indexes in
  if more then (true, i :: indexes')
  else if i <? n - 1 then (true, i + 1 :: indexes') else (false, 0 :: indexes').
Proof.
  revert indexes. induction k as [|k IH]; intros indexes; [done|].
  cbn [next_indexes] in IH |- *. rewrite !aget_cons by lia.
  replace (Z.of_nat (S k) - 1) with (Z.of_nat k) by lia.
  assert (Hset : forall x, aset (i :: indexes) (Z.of_nat (S k)) x = i :: aset indexes (Z.of_nat k) x).
  { intros x. unfold aset. rewrite !(proj2 (Z.ltb_ge _ _)) by lia. rewrite !Nat2Z.id. done. }
  rewrite !Hset. destruct (aget indexes (Z.of_nat k) <? aget sizes (Z.of_nat k) - 1); [done|].
  apply IH.
Qed.

Lemma next_indexes_advance sizes indexes :
  in_range sizes indexes -> next_indexes (length indexes) sizes indexes = advance sizes indexes.
Proof.
  induction 1 as [|n i sizes indexes Hi H IH]; [done|]. cbn [length advance]. by rewrite next_indexes_cons, IH.
Qed.

Lemma vectors_from_zero sizes :
  Forall (fun n => 0 < n) sizes -> vectors_from sizes ((fun _ => 0) <$> sizes) = index_vectors sizes.
Proof.
  induction 1 as [|n sizes Hn H IH]; [done|]. cbn [vectors_from index_vectors fmap list_fmap]. rewrite IH.
  rewrite (seqZ_cons 0 n) by lia. cbn. f_equal. f_equal. f_equal. lia.
Qed.

(** One step: the vector leaves the enumeration, and what follows is the enumeration from the next one. *)
Lemma advance_spec sizes indexes :
  in_range sizes indexes ->
  let '(more, indexes') := advance sizes indexes in
  in_range sizes indexes' /\
  vectors_from sizes indexes = indexes :: (if more then vectors_from sizes indexes' else []) /\
  (more = false -> indexes' = (fun _ => 0) <$> sizes).
Proof.
  induction 1 as [|n i sizes indexes Hi H IH]; [by split_and!; [constructor|..]|]. cbn [advance vectors_from].
  assert (Hpos : Forall (fun m => 0 < m) sizes).
  { clear IH. induction H; constructor; [lia|done]. }
  destruct (advance sizes indexes) as [[] indexes']; destruct IH as (Hr & Hv & Hz); rewrite Hv.
  - split_and!; [by constructor|done|done].
  - specialize (Hz eq_refl). subst indexes'. destruct (Z.ltb_spec i (n - 1)).
    + split_and!; [constructor; [lia|done]| |done]. cbn [vectors_from fmap list_fmap app].
      rewrite vectors_from_zero by done. f_equal. rewrite (seqZ_cons (i + 1)) by lia. cbn. f_equal. f_equal. f_equal; lia.
    + split_and!; [constructor; [lia|done]| |done]. replace (n - i - 1) with 0 by lia. done.
Qed.

(** The elements at an index vector. *)
Definition choose {A} `{!Inhabited A} (ls : list (list A)) (indexes : list Z) : list A := zip_with aget ls indexes.

Lemma product_choose {A} `{!Inhabited A} (ls : list (list A)) :
  product ls = choose ls <$> index_vectors (alen <$> ls).
Proof.
  induction ls as [|l ls IH]; [done|]. cbn [product index_vectors fmap list_fmap]. rewrite IH.
  assert (E : l = aget l <$> seqZ 0 (alen l)).
  { symmetry. apply (tabulate_eq (alen l) (aget l) l); [done|done]. }
  rewrite E at 1. generalize (seqZ 0 (alen l)) as js. clear E IH. intros js.
  induction js as [|j js IH]; [done|]. cbn [fmap list_fmap mbind list_bind]. rewrite fmap_app. f_equal.
  - by rewrite <- !list_fmap_compose.
  - exact IH.
Qed.

Lemma at_index_aget {A} `{!Inhabited A} (l : list A) i : 0 <= i < alen l -> at_index l i = Ok (aget l i).
Proof.
  intros Hi. unfold at_index. destruct (Z.ltb_spec i 0); [lia|]. by rewrite (aget_lookup l i Hi).
Qed.

Lemma current_choose sets indexes :
  in_range (set_size <$> sets) indexes ->
  current_from sets (set_size <$> sets) indexes = Ok (choose (tuples_ <$> sets) indexes).
Proof.
  revert indexes. induction sets as [|s sets IH]; intros indexes H; [by inversion H|].
  inversion H as [|? i ? indexes' Hi H']; subst. cbn [fmap list_fmap current_from].
  destruct (Z.ltb_spec i (set_size s)); [|lia]. unfold get_tuple.
  rewrite at_index_aget by done. cbn [res_bind]. rewrite IH by done. done.
Qed.

Lemma length_vectors_from sizes indexes :
  in_range sizes indexes -> exists rest, vectors_from sizes indexes = indexes :: rest.
Proof. intros H. pose proof (advance_spec _ _ H) as Hs. destruct (advance sizes indexes) as [m ?]. naive_solver. Qed.

(** The loop from an index vector on. *)
Lemma descartes_for_from {A} (fuel : nat) sets indexes (body : list Tuple -> A -> res A) (a : A) :
  in_range (set_size <$> sets) indexes ->
  (length (vectors_from (set_size <$> sets) indexes) <= fuel)%nat ->
  descartes_for fuel sets {| sizes_ := set_size <$> sets; indexes_ := indexes; di_end := false |} body a =
  res_fold body (choose (tuples_ <$> sets) <$> vectors_from (set_size <$> sets) indexes) a.
Proof.
  revert indexes a. induction fuel as [|fuel IH]; intros indexes a Hr Hf.
  { destruct (length_vectors_from _ _ Hr) as [rest E]. rewrite E in Hf. simpl in Hf. lia. }
  pose proof (advance_spec _ _ Hr) as Hs. cbn [descartes_for di_end]. unfold current. cbn [sizes_ indexes_].
  rewrite current_choose by done. cbn [res_bind]. unfold next. cbn [sizes_ indexes_ di_end].
  rewrite next_indexes_advance by done. destruct (advance (set_size <$> sets) indexes) as [more indexes'].
  destruct Hs as (Hr' & Hv & _). rewrite Hv in Hf |- *. cbn [fmap list_fmap res_fold].
  destruct (body _ a) as [a'| | |]; [|done..]. cbn [res_bind]. destruct more.
  - apply IH; [done|]. simpl in Hf. lia.
  - by destruct fuel.
Qed.

Lemma descartes_for_product {A} (fuel : nat) sets (body : list Tuple -> A -> res A) (a : A) :
  (length (product (tuples_ <$> sets)) <= fuel)%nat ->
  descartes_for fuel sets (DescartesIterator_create sets) body a = res_fold body (product (tuples_ <$> sets)) a.
Proof.
  intros Hf. unfold DescartesIterator_create. destruct (existsb (fun s => set_size s =? 0) sets) eqn:E.
  - assert (product (tuples_ <$> sets) = []) as ->.
    { clear Hf. induction sets as [|s sets IH]; [done|]. cbn [existsb] in E. apply orb_prop in E as [E|E].
      - apply Z.eqb_eq in E. unfold set_size, alen in E. rewrite fmap_cons. cbn [product]. by destruct (tuples_ s).
      - rewrite fmap_cons. cbn [product]. rewrite IH by done. clear.
        induction (tuples_ s) as [|t l IHl]; [done|]. exact IHl. }
    by destruct fuel.
  - assert (Hpos : Forall (fun n => 0 < n) (set_size <$> sets)).
    { clear Hf. induction sets as [|s sets IH]; [constructor|]. cbn [existsb] in E. apply orb_false_elim in E as [E1 E2].
      constructor; [|by apply IH]. apply Z.eqb_neq in E1. unfold set_size, alen in *. lia. }
    assert (Hz : ((fun _ => 0) <$> sets) = (fun _ => 0) <$> (set_size <$> sets)) by (by rewrite <- list_fmap_compose).
    assert (Hr : in_range (set_size <$> sets) ((fun _ => 0) <$> (set_size <$> sets))).
    { clear - Hpos. induction Hpos; constructor; [lia|done]. }
    assert (Hs : (set_size <$> sets) = alen <$> (tuples_ <$> sets)) by (by rewrite <- list_fmap_compose).
    rewrite product_choose in *. rewrite Hz, descartes_for_from, vectors_from_zero by
      (done || (rewrite vectors_from_zero by done; rewrite length_fmap in Hf; by rewrite Hs)).
    by rewrite Hs.
Qed.

(** C24. The Cartesian product: with at least as many rounds as combinations, the loop over the iterator ends,
    and its body has run on every combination of one tuple per set exactly once, in lexicographic order, with
    no combination at all if a set is empty. *)
Theorem descartes_product {A} (fuel : nat) sets (body : list Tuple -> A -> res A) (a : A) :
  (length (product (tuples_ <$> sets)) <= fuel)%nat ->
  descartes_for fuel sets (DescartesIterator_create sets) body a = res_fold body (product (tuples_ <$> sets)) a.
Proof. apply descartes_for_product. Qed.

Lemma descartes_product_witness :
  let sets := (fun l => {| tuples_ := l; schema_ := TupleSchema_create |}) <$>
                [[[IntValue 1]; [IntValue 2]]; [[IntValue 3]; [IntValue 4]]] in
  descartes_for 4 sets (DescartesIterator_create sets) (fun ts a => Ok (a ++ [concat ts])) [] =
    Ok [[IntValue 1; IntValue 3]; [IntValue 1; IntValue 4]; [IntValue 2; IntValue 3]; [IntValue 2; IntValue 4]].
Proof.
  intros sets.
  rewrite (descartes_product 4 sets (fun ts a => Ok (a ++ [concat ts])) []) by (cbn; lia). reflexivity.
Defined.

(** ** Positions of columns *)

Definition key_of (f : TupleField) : string * string := (tf_table_name f, tf_field_name f).

Lemma named_true t n f : named t n f = true <-> key_of f = (t, n).
Proof. unfold named, key_of. rewrite andb_true_iff, !bool_decide_eq_true. split; [by intros [-> ->]|by intros [=]]. Qed.

Lemma find_put_index t n i m t' n' :
  find_index_of (put_index t n i m) t' n' = if decide ((t, n) = (t', n')) then Some i else find_index_of m t' n'.
Proof.
  unfold put_index, find_index_of. destruct (decide (t = t')) as [->|Ht].
  - destruct (m !! t') as [fields|] eqn:E; rewrite lookup_insert_eq; (destruct (decide (n = n')) as [->|Hn];
      [rewrite decide_True by done|rewrite decide_False by congruence]).
    + by rewrite lookup_insert_eq.
    + by rewrite lookup_insert_ne.
    + by rewrite lookup_singleton_eq.
    + by rewrite lookup_singleton_ne.
  - rewrite decide_False by congruence. destruct (m !! t) as [fields|]; by rewrite lookup_insert_ne.
Qed.

(** The map of a schema whose columns have different names. *)
Lemma find_index_fields l k m t n :
  NoDup (key_of <$> l) ->
  find_index_of (index_fields k l m) t n =
  match list_find (fun f => key_of f = (t, n)) l with
  | Some (j, _) => Some (k + Z.of_nat j)
  | None => find_index_of m t n
  end.
Proof.
  revert k m. induction l as [|f l IH]; intros k m Hd; [done|].
  rewrite fmap_cons in Hd. apply NoDup_cons in Hd as [Hf Hd]. cbn [index_fields list_find].
  rewrite IH by done. rewrite find_put_index. change (tf_table_name f, tf_field_name f) with (key_of f).
  destruct (decide (key_of f = (t, n))) as [E|E].
  - destruct (list_find _ l) as [[j g]|] eqn:El; [|f_equal; lia].
    exfalso. apply list_find_Some in El as (Hj & Hg & _). apply Hf. rewrite E, <- Hg. apply list_elem_of_fmap.
    exists g. split; [done|]. by eapply list_elem_of_lookup_2.
  - destruct (list_find _ l) as [[j g]|]; simpl; [f_equal; lia|done].
Qed.

(** A schema as the program builds one: different columns, no aggregates yet, the cache still empty. *)
Record fresh_schema (s : TupleSchema) : Prop := {
  fs_cache : table_field_index_ s = ∅;
  fs_aggs : agg_descs_ s = [];
  fs_names : NoDup (key_of <$> fields_ s) }.

Lemma table_field_index_fresh s :
  fresh_schema s ->
  table_field_index s = (Ok (index_fields 0 (fields_ s) ∅), set_index (index_fields 0 (fields_ s) ∅) s).
Proof.
  intros [Hc Ha _]. unfold table_field_index. rewrite Hc, Ha, orb_true_r. done.
Qed.

(** The position of a column is that of its first and only occurrence. *)
Lemma find_column s t n :
  fresh_schema s ->
  find_index_of (index_fields 0 (fields_ s) ∅) t n =
  (fun x => Z.of_nat x.1) <$> list_find (fun f => key_of f = (t, n)) (fields_ s).
Proof.
  intros [_ _ Hn]. rewrite find_index_fields by done. destruct (list_find _ _) as [[j g]|]; [done|].
  unfold find_index_of. by rewrite lookup_empty.
Qed.

Lemma find_column_Some s t n i :
  fresh_schema s -> find_index_of (index_fields 0 (fields_ s) ∅) t n = Some i ->
  0 <= i /\ exists f, fields_ s !! Z.to_nat i = Some f /\ key_of f = (t, n).
Proof.
  intros Hs. rewrite find_column by done. destruct (list_find _ _) as [[j f]|] eqn:E; [|done].
  intros [= <-]. apply list_find_Some in E as (Hj & Hf & _). simpl. rewrite Nat2Z.id. eauto with lia.
Qed.

Lemma find_column_exists s t n :
  fresh_schema s -> (t, n) ∈ (key_of <$> fields_ s) -> is_Some (find_index_of (index_fields 0 (fields_ s) ∅) t n).
Proof.
  intros Hs Hin. rewrite find_column by done. apply list_elem_of_fmap in Hin as (f & E & Hin).
  destruct (list_find_elem_of (fun f => key_of f = (t, n)) _ f Hin) as [x ->]; [done|]. by eexists.
Qed.

Lemma get_pointer_lookup (t : Tuple) i v : 0 <= i -> t !! Z.to_nat i = Some v -> get_pointer t i = Ok v.
Proof. intros Hi E. unfold get_pointer, at_index. destruct (Z.ltb_spec i 0); [lia|]. by rewrite E. Qed.

(** The values that a tuple of [s] has in given columns. *)
Definition has_columns (s : TupleSchema) (tuple : Tuple) (f : TupleField) (v : TupleValue) : Prop :=
  exists i g, fields_ s !! i = Some g /\ key_of g = key_of f /\ tuple !! i = Some v.

Lemma project_positions s tuple fields t :
  fresh_schema s -> length tuple = length (fields_ s) ->
  Forall (fun f => key_of f ∈ (key_of <$> fields_ s)) fields ->
  exists out, add_fields tuple (omap (fun f => find_index_of (index_fields 0 (fields_ s) ∅) (tf_table_name f) (tf_field_name f)) fields) t
    = Ok (t ++ out) /\ Forall2 (has_columns s tuple) fields out.
Proof.
  intros Hs Hlen. revert t. induction fields as [|f fields IH]; intros t Hin.
  { exists []. cbn. by rewrite app_nil_r. }
  apply Forall_cons_1 in Hin as [Hf Hin].
  destruct (find_column_exists s (tf_table_name f) (tf_field_name f) Hs Hf) as [i Hi].
  destruct (find_column_Some _ _ _ _ Hs Hi) as (H0 & g & Hg & Hk).
  destruct (lookup_lt_is_Some_2 tuple (Z.to_nat i)) as [v Hv].
  { rewrite Hlen. by eapply lookup_lt_Some. }
  cbn [omap list_omap]. rewrite Hi. cbn [add_fields]. rewrite (get_pointer_lookup _ _ _ H0 Hv). cbn [res_bind].
  destruct (IH (add_value v t) Hin) as (out & E & Hout). exists (v :: out).
  split; [etrans; [exact E|]; unfold add_value; by rewrite <- app_assoc|]. constructor; [|done]. by exists (Z.to_nat i), g.
Qed.

(** Projection: for a tuple of a schema with different columns, [index_in] followed by [Tuple::add] yields
    for each column asked for, in that order, the value that the tuple has in the column of that name. *)
Theorem projection_by_name s tuple fields :
  fresh_schema s -> length tuple = length (fields_ s) ->
  Forall (fun f => key_of f ∈ (key_of <$> fields_ s)) fields ->
  exists index s' out, index_in fields s = (Ok index, s') /\ add_fields tuple index [] = Ok out /\
    Forall2 (has_columns s tuple) fields out.
Proof.
  intros Hs Hlen Hin. destruct (project_positions s tuple fields [] Hs Hlen Hin) as (out & E & Hout).
  unfold index_in, bind. rewrite table_field_index_fresh by done. eexists _, _, out. split_and!; [reflexivity|exact E|done].
Qed.

Definition demo_field (table name : string) : TupleField :=
  {| tf_type := INTS; tf_table_name := table; tf_field_name := name; tf_order := 0 |}.

Definition demo_schema : TupleSchema := set_fields [demo_field "t" "a"; demo_field "u" "a"; demo_field "t" "b"] TupleSchema_create.

Lemma projection_by_name_witness :
  let s := demo_schema in
  fresh_schema s /\
  exists index s' out, index_in [demo_field "t" "b"; demo_field "t" "a"] s = (Ok index, s') /\
    add_fields [IntValue 1; IntValue 2; IntValue 3] index [] = Ok out /\
    Forall2 (has_columns s [IntValue 1; IntValue 2; IntValue 3]) [demo_field "t" "b"; demo_field "t" "a"] out.
Proof.
  intros s. assert (Hs : fresh_schema s).
  { split; [done..|]. apply (bool_decide_unpack _). by vm_compute. }
  split; [done|].
  apply (projection_by_name s [IntValue 1; IntValue 2; IntValue 3] [demo_field "t" "b"; demo_field "t" "a"]);
    [done|done|apply (bool_decide_unpack _); by vm_compute].
Defined.

(** ** The columns of a schema *)

Lemma add_if_not_exists_names type t n order s :
  NoDup (key_of <$> fields_ s) ->
  NoDup (key_of <$> fields_ (add_if_not_exists type t n order s)) /\
  (t, n) ∈ (key_of <$> fields_ (add_if_not_exists type t n order s)).
Proof.
  intros Hn. unfold add_if_not_exists. destruct (existsb (named t n) (fields_ s)) eqn:E.
  - split; [done|]. apply existsb_exists in E as (f & Hin & Hf). apply named_true in Hf. rewrite <- Hf.
    apply list_elem_of_fmap_2. by apply list_elem_of_In.
  - cbn [schema_add set_fields fields_]. rewrite fmap_app. split; [|set_solver].
    apply NoDup_app. split_and!; [done| |apply NoDup_singleton]. intros k Hk Hk'.
    apply list_elem_of_fmap in Hk as (f & -> & Hin). apply list_elem_of_singleton in Hk'.
    assert (existsb (named t n) (fields_ s) = true); [|congruence].
    apply existsb_exists. exists f. split; [by apply list_elem_of_In|]. by apply named_true.
Qed.

Lemma index_of_field_spec s t n :
  index_of_field s t n =
  match list_find (fun f => key_of f = (t, n)) (fields_ s) with Some (i, _) => Z.of_nat i | None => -1 end.
Proof.
  unfold index_of_field. assert (H : forall l k, 0 <= k -> index_of_field_from k l t n =
    match list_find (fun f => key_of f = (t, n)) l with Some (i, _) => k + Z.of_nat i | None => -1 end).
  { induction l as [|f l IH]; intros k Hk; [done|]. cbn [index_of_field_from list_find].
    destruct (decide (key_of f = (t, n))) as [E|E].
    - rewrite (proj2 (named_true t n f) E). lia.
    - destruct (named t n f) eqn:En; [by apply named_true in En|]. rewrite IH by lia.
      destruct (list_find _ l) as [[j g]|]; simpl; lia. }
  rewrite H by lia. by destruct (list_find _ _) as [[j g]|].
Qed.

(** The cache is not emptied: a column added after the first use of the map is not found, and [clear]
    does not help. *)
Lemma index_is_stale :
  let s := (table_field_index (schema_add INTS "t" "a" 0 TupleSchema_create)).2 in
  (index_in [demo_field "t" "b"] (schema_add INTS "t" "b" 0 s)).1 = Ok [] /\
  (index_in [demo_field "t" "a"] (schema_clear s)).1 = Ok [0].
Proof. vm_compute. done. Qed.

(** Assigning a set by move takes over the columns only: aggregates and expressions are lost. *)
Lemma move_assign_loses other s :
  agg_descs_ (schema_ (move_assign other s).1) = agg_descs_ (schema_ s) /\
  exps_ (schema_ (move_assign other s).1) = exps_ (schema_ s) /\
  fields_ (schema_ (move_assign other s).1) = fields_ (schema_ other).
Proof. done. Qed.
