(* ===== verification/TupleFilter.v ===== *)
(** * Filters on tuples (storage/common/condition_filter.cpp)

    DefaultCartesianFilter and DefaultExpressionFilter with their conjunctions.  They test a
    tuple that already has the columns of all tables.  A filter whose [init] was refused keeps its
    uninitialised sides; nothing looks at the return code: [None] is such a filter. *)
From Stdlib Require Import String Floats.SpecFloat.
From S2P Require Import Prelude ReturnCode Effects Bitmap Memory KeyCompare Dates ConditionFilter Table.
From S2P Require Import Values Expression.

(** [CartesianConDesc]; the members that an initialiser list leaves out are zero. *)
Record CartesianConDesc := { cc_value_index : Z; cc_exp_ast : ast; cc_is_attr : Z; cc_value : Value }.

Definition zero_value : Value := {| v_type := UNDEFINED; v_isnull := false; v_data := [] |}.

(** ** DefaultCartesianFilter *)

Record DefaultCartesianFilter := { dc_left : CartesianConDesc; dc_right : CartesianConDesc; dc_op : CompOp }.

Definition cartesian_init (l r : CartesianConDesc) (comp_op : CompOp) : option DefaultCartesianFilter :=
  if bool_decide (comp_op = NO_OP) then None else Some {| dc_left := l; dc_right := r; dc_op := comp_op |}.

Definition cartesian_filter (f : DefaultCartesianFilter) (tuple : Tuple) : res bool :=
  (let? l := get_pointer tuple (cc_value_index (dc_left f)) in
   let? r := get_pointer tuple (cc_value_index (dc_right f)) in
   if bool_decide (Type_of l = UNDEFINED) || bool_decide (Type_of r = UNDEFINED) then Ok false
   else let? cmp_result := compare l r in Ok (compare_result cmp_result (dc_op f)))%C.

(** The loop of the conjunctions: the first filter that fails decides. *)
Fixpoint all_filters {F} (filter : F -> Tuple -> res bool) (fs : list (option F)) (tuple : Tuple) : res bool :=
  match fs with
  | [] => Ok true
  | f :: fs' =>
      let? f := non_null f in
      let? b := filter f tuple in
      if negb b then Ok false else all_filters filter fs' tuple
  end%C.

Definition CompositeCartesianFilter : Type := list (option DefaultCartesianFilter).

Definition composite_cartesian_filter (fs : CompositeCartesianFilter) (tuple : Tuple) : res bool :=
  all_filters cartesian_filter fs tuple.

(** ** DefaultExpressionFilter *)

Record DefaultExpressionFilter := {
  de_left : CartesianConDesc; de_right : CartesianConDesc; de_op : CompOp; de_field_index : FieldIndex }.

Definition expression_init (l r : CartesianConDesc) (comp_op : CompOp) (field_index : FieldIndex)
    : option DefaultExpressionFilter :=
  if bool_decide (comp_op = NO_OP) then None
  else Some {| de_left := l; de_right := r; de_op := comp_op; de_field_index := field_index |}.

(** One side; [None]: [Calculate] has failed. *)
Definition expression_side (c : CartesianConDesc) (field_index : FieldIndex) (tuple : Tuple) : res (option TupleValue) :=
  match cc_exp_ast c with
  | NullAst =>
      if negb (cc_is_attr c =? 0) then let? v := get_pointer tuple (cc_value_index c) in Ok (Some v)
      else let? x := value_as_float (cc_value c) in Ok (Some (FloatValue x))
  | a =>
      match Calculate tuple field_index a with
      | Ok v => Ok (Some v)
      | Err _ => Ok None
      | Ub => Ub
      | OutOfFuel => OutOfFuel
      end
  end%C.

Definition expression_filter (f : DefaultExpressionFilter) (tuple : Tuple) : res bool :=
  (let? l := expression_side (de_left f) (de_field_index f) tuple in
   match l with
   | None => Ok false
   | Some l =>
       let? r := expression_side (de_right f) (de_field_index f) tuple in
       match r with
       | None => Ok false
       | Some r =>
           let? _ := asserting (bool_decide (Type_of l = FLOATS) && bool_decide (Type_of r = FLOATS)) in
           if bool_decide (Type_of l = UNDEFINED) || bool_decide (Type_of r = UNDEFINED) then Ok false
           else let? cmp_result := compare l r in Ok (compare_result cmp_result (de_op f))
       end
   end)%C.

Definition CompositeExpressionFilter : Type := list (option DefaultExpressionFilter).

Definition composite_expression_filter (fs : CompositeExpressionFilter) (tuple : Tuple) : res bool :=
  all_filters expression_filter fs tuple.

(** ** Theorems *)

(** A conjunction is true exactly if every filter is, and a filter behind one that is false does not matter. *)
Lemma all_filters_true {F} (filter : F -> Tuple -> res bool) fs tuple :
  all_filters filter fs tuple = Ok true <-> Forall (fun f => exists g, f = Some g /\ filter g tuple = Ok true) fs.
Proof.
  induction fs as [|f fs IH]; [by split|]. cbn [all_filters]. rewrite Forall_cons, <- IH. destruct f as [g|]; cbn.
  - destruct (filter g tuple) as [[]| | |] eqn:E; cbn; [split; [by eauto|by intros [_ ?]]|..];
      (split; [done|intros [(h & [= <-] & E') _]; congruence]).
  - split; [done|naive_solver].
Qed.

Lemma all_filters_false {F} (filter : F -> Tuple -> res bool) fs f gs tuple :
  all_filters filter fs tuple = Ok true -> filter f tuple = Ok false ->
  all_filters filter (fs ++ Some f :: gs) tuple = Ok false.
Proof.
  intros Hfs Hf. induction fs as [|x fs IH]; cbn [all_filters app].
  - cbn. by rewrite Hf.
  - cbn [all_filters] in Hfs. destruct x as [x|]; cbn [non_null res_bind] in *; [|done].
    destruct (filter x tuple) as [[]| | |]; cbn [res_bind negb] in *; try done. by apply IH.
Qed.

(** What a condition between two columns means. *)
Definition columns_meet (op : CompOp) (v w : TupleValue) : Prop :=
  exists c, compare v w = Ok c /\ compare_result c op = true.

(** The side of an expression: a tree that is well typed, or a constant. *)
Definition side_ok (c : CartesianConDesc) (field_index : FieldIndex) (tuple : Tuple) : bool :=
  match cc_exp_ast c with
  | NullAst => (cc_is_attr c =? 0) && numeric (v_type (cc_value c)) && (4 <=? alen (v_data (cc_value c)))
  | AttrNode _ _ _ => false
  | a => well_typed tuple field_index a
  end.

Definition side_meaning (c : CartesianConDesc) (field_index : FieldIndex) (tuple : Tuple) : option float :=
  match cc_exp_ast c with
  | NullAst => Some (if bool_decide (v_type (cc_value c) = INTS) then float_of_int (rd32 (v_data (cc_value c)) 0)
                     else float_at (v_data (cc_value c)))
  | a => float_meaning tuple field_index a
  end.

(** A tree that is not a single column has a [FloatValue]. *)
Lemma Calculate_float tuple field_index a v :
  match a with AttrNode _ _ _ => False | _ => True end -> Calculate tuple field_index a = Ok v -> exists x, v = FloatValue x.
Proof.
  destruct a as [|op lb rb l r|lb rb w|lb rb attr]; intros Ha; cbn [Calculate]; [intros [= <-]; by eexists|..|done].
  - destruct (Calculate tuple field_index l) as [lv| | |]; try done. cbn [res_bind].
    destruct (Calculate tuple field_index r) as [rv| | |]; try done. cbn [res_bind].
    destruct (value lv) as [x| | |]; try done. cbn [res_bind]. destruct (value rv) as [y| | |]; try done. cbn [res_bind].
    destruct op; cbn [arithmetic]; [intros [= <-]; by eexists..|]. destruct (SFeqb y (S754_zero false)); [done|].
    intros [= <-]; by eexists.
  - destruct (value_as_float w) as [x| | |]; try done. intros [= <-]; by eexists.
Qed.

Lemma expression_side_ok c field_index tuple :
  side_ok c field_index tuple = true ->
  expression_side c field_index tuple = Ok (FloatValue <$> side_meaning c field_index tuple).
Proof.
  unfold side_ok, expression_side, side_meaning. destruct (cc_exp_ast c) as [|op lb rb l r|lb rb w|lb rb attr] eqn:Ea.
  - intros [[Hi Ht]%andb_prop Hl]%andb_prop. rewrite Hi. cbn [negb]. unfold value_as_float. rewrite Ht. cbn [negb orb].
    destruct (Z.ltb_spec (alen (v_data (cc_value c))) 4); [lia|done].
  - intros Ht. pose proof (Calculate_result _ _ _ Ht) as Hr. destruct (float_meaning _ _ _) as [x|]; [|by rewrite Hr].
    destruct Hr as (v & Hv & _ & Hx). rewrite Hv. destruct (fun H => Calculate_float _ _ _ _ H Hv) as [y ->]; [done|].
    by injection Hx as ->.
  - intros Ht. pose proof (Calculate_result _ _ _ Ht) as Hr. destruct (float_meaning _ _ _) as [x|]; [|by rewrite Hr].
    destruct Hr as (v & Hv & _ & Hx). rewrite Hv. destruct (fun H => Calculate_float _ _ _ _ H Hv) as [y ->]; [done|].
    by injection Hx as ->.
  - done.
Qed.

(** A condition with expressions on sides that are well typed is the comparison of the two numbers, and false for a
    row on which a divisor is zero on either side. *)
Theorem expression_filter_meaning f tuple :
  side_ok (de_left f) (de_field_index f) tuple = true -> side_ok (de_right f) (de_field_index f) tuple = true ->
  expression_filter f tuple =
  match side_meaning (de_left f) (de_field_index f) tuple, side_meaning (de_right f) (de_field_index f) tuple with
  | Some x, Some y => let? c := compare (FloatValue x) (FloatValue y) in Ok (compare_result c (de_op f))
  | _, _ => Ok false
  end%C.
Proof.
  intros Hl Hr. unfold expression_filter. rewrite !expression_side_ok by done. cbn [res_bind].
  destruct (side_meaning (de_left f) _ _) as [x|]; [|done]. cbn [fmap option_fmap option_map].
  destruct (side_meaning (de_right f) _ _) as [y|]; done.
Qed.

(** [1 < a / (a - 3)], on rows with 3 and 4. *)
Definition demo_filter : DefaultExpressionFilter :=
  {| de_left := {| cc_value_index := -1; cc_exp_ast := NullAst; cc_is_attr := 0;
                   cc_value := {| v_type := INTS; v_isnull := false; v_data := le32 1 |} |};
     de_right := {| cc_value_index := -1; cc_exp_ast := demo_exp; cc_is_attr := 0; cc_value := zero_value |};
     de_op := LESS_THAN; de_field_index := demo_index |}.

Lemma expression_filter_meaning_witness :
  expression_filter demo_filter [IntValue 3] = Ok false /\ expression_filter demo_filter [IntValue 4] = Ok true.
Proof.
  split.
  - rewrite (expression_filter_meaning demo_filter [IntValue 3]) by reflexivity. reflexivity.
  - rewrite (expression_filter_meaning demo_filter [IntValue 4]) by reflexivity. vm_compute. reflexivity.
Defined.

(** A condition in which one side is a tree and the other a plain column stops the program: the description of the
    column never gets its [is_attr]. *)
Lemma expression_column_undefined tuple field_index i op a :
  expression_filter {| de_left := {| cc_value_index := i; cc_exp_ast := NullAst; cc_is_attr := 0; cc_value := zero_value |};
                       de_right := {| cc_value_index := -1; cc_exp_ast := a; cc_is_attr := 0; cc_value := zero_value |};
                       de_op := op; de_field_index := field_index |} tuple = Ub.
Proof. done. Qed.
