(* ===== verification/KeyOrder.v ===== *)
(** * The order of rows

    The lexicographic comparison of several columns, each ascending or descending: the order in which
    the program keeps groups, where all columns ascend, and sorts rows. *)
From Stdlib Require Import String Floats.SpecFloat.
From S2P Require Import Prelude ReturnCode Effects Bitmap Memory KeyCompare Dates TableMeta ConditionFilter Table.
From S2P Require Import Values.

(** ** Values *)

(** The order of texts by their bytes. *)
Fixpoint text_before (s t : list Z) : Prop :=
  match s, t with
  | _, [] => False
  | [], _ :: _ => True
  | x :: s', y :: t' => x < y \/ x = y /\ text_before s' t'
  end.

Definition value_before (v w : TupleValue) : Prop :=
  match v, w with
  | IntValue x, IntValue y => x < y
  | StringValue _ s, StringValue _ t => text_before s t
  | _, _ => False
  end.

Lemma string_compare_before s t :
  Forall (fun b => 0 < b) s -> Forall (fun b => 0 < b) t -> string_compare s t < 0 <-> text_before s t.
Proof.
  intros Hs. revert t. induction Hs as [|x s Hx Hs IH]; intros t Ht; destruct Ht as [|y t Hy Ht]; cbn [text_before].
  - done.
  - rewrite string_compare_nil_l by done. split; [done|lia].
  - rewrite string_compare_nil_r by done. split; [lia|done].
  - rewrite string_compare_cons by done. destruct (Z.eqb_spec x y) as [->|].
    + rewrite IH by done. split; [by right|intros [?|[_ ?]]; [lia|done]].
    + split; [lia|intros [?|[? _]]; lia].
Qed.

Lemma compare_before k v w c : plain k v -> plain k w -> compare v w = Ok c -> c < 0 <-> value_before v w.
Proof.
  destruct 1 as [x Hx|t s Hs]; inversion 1; subst; cbn [value_before].
  - unfold compare. rewrite !bool_decide_eq_false_2 by done. cbn [value_pointer read_int res_bind].
    rewrite int32_id by (unfold is_int32; lia). intros [= <-]. lia.
  - unfold compare. intros [= <-]. by apply string_compare_before.
Qed.

(** What a comparison of two values means. *)
Definition value_op (op : CompOp) (v w : TupleValue) : Prop :=
  match op with
  | EQUAL_TO => same_value v w
  | LESS_EQUAL => value_before v w \/ same_value v w
  | NOT_EQUAL => ~ same_value v w
  | LESS_THAN => value_before v w
  | GREAT_EQUAL => value_before w v \/ same_value v w
  | GREAT_THAN => value_before w v
  | _ => False
  end.

Lemma compare_result_meaning k v w c op :
  plain k v -> plain k w -> compare v w = Ok c -> compare_result c op = true <-> value_op op v w.
Proof.
  intros Hv Hw E. destruct (compare_plain k v w Hv Hw) as (c' & Ec & Ec' & Ez). rewrite E in Ec. injection Ec as <-.
  pose proof (compare_before k v w c Hv Hw E) as Hlt. pose proof (compare_before k w v (- c) Hw Hv Ec') as Hgt.
  destruct op; cbn [compare_result value_op]; rewrite <- ?Ez, <- ?Hlt, <- ?Hgt;
    rewrite ?Z.eqb_eq, ?negb_true_iff, ?Z.eqb_neq, ?Z.leb_le, ?Z.ltb_lt; try lia; by split.
Qed.

(** ** Rows *)

(** The first comparison of two keys that is not 0; [dirs] tells which columns descend, none if it is too short. *)
Fixpoint oc (dirs : list bool) (a b : list TupleValue) : Z :=
  match a, b with
  | v :: a', w :: b' =>
      match compare v w with
      | Ok c => if c =? 0 then oc (tail dirs) a' b' else match dirs with true :: _ => - c | _ => c end
      | _ => 0
      end
  | _, _ => 0
  end.

(** Keys over columns of the given classes (see [plain] in Values.v). *)
Definition plain_key (ks : list bool) (a : list TupleValue) : Prop := Forall2 plain ks a.

Lemma oc_antisym dirs ks a b : plain_key ks a -> plain_key ks b -> oc dirs b a = - oc dirs a b.
Proof.
  intros Ha. revert dirs b. induction Ha as [|k v ks a Hv Ha IH]; intros dirs b Hb; inversion Hb as [|? w ? b' Hw Hb']; subst; [done|].
  cbn [oc]. destruct (compare_plain k v w Hv Hw) as (c & -> & -> & _).
  destruct (Z.eqb_spec c 0) as [->|]; [by apply IH|]. destruct (Z.eqb_spec (- c) 0), dirs as [|[] ?]; lia.
Qed.

Lemma compare_plain_eq k u v w :
  plain k u -> plain k v -> compare u v = Ok 0 -> plain k w -> compare v w = compare u w.
Proof.
  intros Hu Hv E Hw. destruct (compare_plain k u v Hu Hv) as (c & Hc & _ & Ec). rewrite E in Hc. simplify_eq.
  destruct Ec as [Ec _]. specialize (Ec eq_refl).
  destruct Hu; inversion Hv; subst; simpl in Ec; subst; inversion Hw; by subst.
Qed.

(** Three values of a column: the two comparisons decide the third, in both directions. *)
Lemma compare_plain_three k u v w x y z :
  plain k u -> plain k v -> plain k w -> compare u v = Ok x -> compare v w = Ok y -> compare u w = Ok z ->
  (x <= 0 -> y <= 0 -> z <= 0 /\ (z = 0 -> x = 0 /\ y = 0)) /\ (0 <= x -> 0 <= y -> 0 <= z /\ (z = 0 -> x = 0 /\ y = 0)).
Proof.
  intros Hu Hv Hw Hx Hy Hz.
  assert (Hflip : forall a b c, plain k a -> plain k b -> compare a b = Ok c -> compare b a = Ok (- c)).
  { intros a b c Ha Hb E. destruct (compare_plain k a b Ha Hb) as (c' & E' & E'' & _). rewrite E in E'. by injection E' as ->. }
  split; intros Lx Ly.
  - destruct (compare_plain_trans k u v w x y Hu Hv Hw Hx Hy Lx Ly) as (z' & Hz' & ?). rewrite Hz in Hz'. by injection Hz' as ->.
  - destruct (compare_plain_trans k w v u (- y) (- x) Hw Hv Hu) as (z' & Hz' & Hle & Heq); [by apply Hflip..|lia|lia|].
    rewrite (Hflip _ _ _ Hu Hw Hz) in Hz'. injection Hz' as <-. split; [lia|]. intros ->. destruct (Heq eq_refl). lia.
Qed.

Lemma oc_trans dirs ks a b c :
  plain_key ks a -> plain_key ks b -> plain_key ks c -> oc dirs a b <= 0 -> oc dirs b c <= 0 ->
  oc dirs a c <= 0 /\ (oc dirs a c = 0 -> oc dirs a b = 0 /\ oc dirs b c = 0).
Proof.
  intros Ha. revert dirs b c. induction Ha as [|k u ks a Hu Ha IH]; intros dirs b c Hb Hc;
    inversion Hb as [|? v ? b' Hv Hb']; subst; inversion Hc as [|? w ? c' Hw Hc']; subst; [done|].
  cbn [oc]. destruct (compare_plain k u v Hu Hv) as (x & Hx & _). destruct (compare_plain k v w Hv Hw) as (y & Hy & _).
  destruct (compare_plain k u w Hu Hw) as (z & Hz & _). rewrite Hx, Hy, Hz.
  destruct (compare_plain_three k u v w x y z Hu Hv Hw Hx Hy Hz) as [Hle Hge].
  assert (He : x = 0 -> y = z).
  { intros ->. pose proof (compare_plain_eq k u v w Hu Hv Hx Hw). congruence. }
  destruct (Z.eqb_spec x 0) as [->|Nx].
  - rewrite (He eq_refl). destruct (Z.eqb_spec z 0); [by apply IH|]. destruct dirs as [|[] dirs]; lia.
  - destruct (Z.eqb_spec y 0) as [->|Ny]; destruct dirs as [|[] dirs]; intros Lx Ly;
      first [destruct (Hle ltac:(lia) ltac:(lia)) as [Lz Ez]|destruct (Hge ltac:(lia) ltac:(lia)) as [Lz Ez]];
      (destruct (Z.eqb_spec z 0) as [->|]; [destruct (Ez eq_refl); lia|lia]).
Qed.

(** Two keys compare equal exactly if they have the same values. *)
Lemma oc_zero dirs ks a b : plain_key ks a -> plain_key ks b -> oc dirs a b = 0 <-> Forall2 same_value a b.
Proof.
  intros Ha. revert dirs b. induction Ha as [|k v ks a Hv Ha IH]; intros dirs b Hb; inversion Hb as [|? w ? b' Hw Hb']; subst.
  - split; [constructor|done].
  - cbn [oc]. destruct (compare_plain k v w Hv Hw) as (c & -> & _ & Ec). rewrite Forall2_cons, <- Ec, <- (IH (tail dirs)) by done.
    destruct (Z.eqb_spec c 0); [tauto|]. destruct dirs as [|[] ?]; lia.
Qed.

(** The order of rows: the first column with different values decides. *)
Inductive row_le : list bool -> list TupleValue -> list TupleValue -> Prop :=
| row_le_nil dirs : row_le dirs [] []
| row_le_same dirs v w a b : same_value v w -> row_le (tail dirs) a b -> row_le dirs (v :: a) (w :: b)
| row_le_first dirs v w a b :
    match dirs with true :: _ => value_before w v | _ => value_before v w end -> row_le dirs (v :: a) (w :: b).

Lemma oc_row_le dirs ks a b : plain_key ks a -> plain_key ks b -> oc dirs a b <= 0 -> row_le dirs a b.
Proof.
  intros Ha. revert dirs b. induction Ha as [|k v ks a Hv Ha IH]; intros dirs b Hb; inversion Hb as [|? w ? b' Hw Hb']; subst;
    [constructor|].
  cbn [oc]. destruct (compare_plain k v w Hv Hw) as (c & E & E' & Ec). rewrite E. destruct (Z.eqb_spec c 0) as [->|Hc].
  - intros Hle. apply row_le_same; [by apply Ec|by apply IH].
  - pose proof (compare_before k v w c Hv Hw E) as Hlt. pose proof (compare_before k w v (- c) Hw Hv E') as Hgt.
    intros Hle. apply row_le_first. destruct dirs as [|[] dirs]; first [apply Hlt|apply Hgt]; lia.
Qed.
