(* ===== verification/Aggregation.v ===== *)
(** * Grouping and aggregates (sql/executor/aggregate_execution_node.h, .cpp)

    SimpleAggregationHashTable is a [std::map] with the keys of the groups; here it is a list in
    the order of the keys.  The order is [AggregateKey::operator<]; the model compares in the
    order of the list, which for a strict weak order is what a search tree finds, too. *)
From Stdlib Require Import String Floats.SpecFloat.
From S2P Require Import Prelude ReturnCode Effects Bitmap Memory KeyCompare Dates TableMeta ConditionFilter Table.
From S2P Require Import Values SmallFloats Expression Tuples.

#[local] Open Scope c_scope.

(** ** Keys and values *)

Abbreviation AggregateKey := (list TupleValue).
Record AggregateValue := { aggregates_ : list TupleValue; count_ : list Z }.

(** [operator<]: the loop is over the values of [other]. *)
Fixpoint key_less (k other : AggregateKey) : res bool :=
  match other, k with
  | [], _ => Ok false
  | _, [] => Ub
  | o :: other', v :: k' =>
      let? ret := compare v o in
      if ret =? 0 then key_less k' other' else Ok (ret <? 0)
  end.

(** ** SimpleAggregationHashTable *)

Abbreviation AggTable := (list (AggregateKey * AggregateValue)).

Definition initial_value (t : AggreType) : res TupleValue :=
  match t with
  | COUNTS => Ok (FloatValue (float_of_int 0))
  | SUMS | MINS | MAXS | AVGS => Ok NullValue
  | UNDEFINEDAGG => Ub
  end.

Definition GenerateInitialAggregateValue (descs : list AggreDesc) : res AggregateValue :=
  (let? values := res_map (fun d => initial_value (ad_type d)) descs in
   Ok {| aggregates_ := values; count_ := (fun _ => 0) <$> descs |}).

Definition is_null (v : TupleValue) : bool := bool_decide (Type_of v = UNDEFINED).

(** One round of the loop: the aggregate, its counter and the input. *)
Definition combine_one (t : AggreType) (result : TupleValue) (count : Z) (input : TupleValue) : res (TupleValue * Z) :=
  if is_null input then Ok (result, count)
  else
    let count := int32 (count + 1) in
    let better (b : Z -> bool) :=
      if is_null result then Ok (input, count)
      else let? c := compare input result in Ok (if b c then input else result, count) in
    match t with
    | COUNTS => let? r := plus (float_of_int 1) result in Ok (r, count)
    | SUMS | AVGS =>
        let r := if is_null result then FloatValue (float_of_int 0) else result in
        let? x := value input in
        let? r := plus x r in
        Ok (r, count)
    | MAXS => better (fun c => 0 <? c)
    | MINS => better (fun c => c <? 0)
    | UNDEFINEDAGG => Ub
    end.

Fixpoint combine_all (descs : list AggreDesc) (results : list TupleValue) (counts : list Z) (inputs : list TupleValue)
    : res (list TupleValue * list Z) :=
  match descs, results, counts, inputs with
  | [], _, _, _ => Ok (results, counts)
  | d :: descs', r :: results', c :: counts', i :: inputs' =>
      let? (r, c) := combine_one (ad_type d) r c i in
      let? (rs, cs) := combine_all descs' results' counts' inputs' in
      Ok (r :: rs, c :: cs)
  | _, _, _, _ => Ub
  end.

Definition CombineAggregateValues (descs : list AggreDesc) (result : AggregateValue) (input : AggregateValue)
    : res AggregateValue :=
  (let? (rs, cs) := combine_all descs (aggregates_ result) (count_ result) (aggregates_ input) in
   Ok {| aggregates_ := rs; count_ := cs |}).

(** [ht_.count(key)], [ht_.insert({key, value})] and [f(&ht_[key])]: up to the first key that is not less. *)
Fixpoint ht_count (key : AggregateKey) (ht : AggTable) : res bool :=
  match ht with
  | [] => Ok false
  | (k, _) :: rest =>
      let? less := key_less k key in
      if less then ht_count key rest else let? greater := key_less key k in Ok (negb greater)
  end.

Fixpoint ht_insert (key : AggregateKey) (v : AggregateValue) (ht : AggTable) : res AggTable :=
  match ht with
  | [] => Ok [(key, v)]
  | (k, w) :: rest =>
      let? less := key_less k key in
      if less then let? rest := ht_insert key v rest in Ok ((k, w) :: rest)
      else let? greater := key_less key k in Ok (if greater then (key, v) :: (k, w) :: rest else (k, w) :: rest)
  end.

Definition default_value : AggregateValue := {| aggregates_ := []; count_ := [] |}.

Fixpoint ht_update (key : AggregateKey) (f : AggregateValue -> res AggregateValue) (ht : AggTable) : res AggTable :=
  match ht with
  | [] => let? v := f default_value in Ok [(key, v)]
  | (k, w) :: rest =>
      let? less := key_less k key in
      if less then let? rest := ht_update key f rest in Ok ((k, w) :: rest)
      else
        let? greater := key_less key k in
        if greater then let? v := f default_value in Ok ((key, v) :: (k, w) :: rest)
        else let? w := f w in Ok ((k, w) :: rest)
  end.

Definition InsertCombine (descs : list AggreDesc) (key : AggregateKey) (v : AggregateValue) (ht : AggTable) : res AggTable :=
  (let? present := ht_count key ht in
   let? ht := (if negb present then let? initial := GenerateInitialAggregateValue descs in ht_insert key initial ht
               else Ok ht) in
   ht_update key (fun result => CombineAggregateValues descs result v) ht).

(** ** Keys and values of a tuple *)

(** The value of the column in the tuple. *)
Definition column_value (m : FieldIndex) (table_name field_name : string) (tuple : Tuple) : res TupleValue :=
  (let? fields := map_at m table_name in
   let? index := map_at fields field_name in
   at_index tuple index).

(** [MakeKey]; the state is the schema of the tuples. *)
Fixpoint MakeKey (group_bys : list TupleField) (tuple : Tuple) : M TupleSchema AggregateKey :=
  match group_bys with
  | [] => ret []
  | f :: rest =>
      let! m := table_field_index in
      let! v := of_res (column_value m (tf_table_name f) (tf_field_name f) tuple) in
      let! vs := MakeKey rest tuple in
      ret (v :: vs)
  end.

(** [MakeVal]; [table] is the name for an aggregate that has none. *)
Fixpoint make_values (table : option string) (descs : list AggreDesc) (tuple : Tuple) : M TupleSchema (list TupleValue) :=
  match descs with
  | [] => ret []
  | d :: rest =>
      let! v := (if negb (ad_is_attr d =? 0) then
                   let! m := table_field_index in
                   let! table_name := of_res (non_null (match ad_relation_name d with None => table | t => t end)) in
                   let! attr_name := of_res (non_null (ad_attr_name d)) in
                   of_res (column_value m table_name attr_name tuple)
                 else ret (FloatValue (ad_value d))) in
      let! vs := make_values table rest tuple in
      ret (v :: vs)
  end.

Definition MakeVal (table : option string) (descs : list AggreDesc) (tuple : Tuple) : M TupleSchema AggregateValue :=
  (let! vs := make_values table descs tuple in ret {| aggregates_ := vs; count_ := (fun _ => 1) <$> descs |}).

(** ** Building the output *)

(** The loop over the tuples. *)
Fixpoint aggregate_tuples (table : option string) (group_bys : list TupleField) (descs : list AggreDesc)
    (tuples : list Tuple) (ht : AggTable) : M TupleSchema AggTable :=
  match tuples with
  | [] => ret ht
  | tuple :: rest =>
      let! key := MakeKey group_bys tuple in
      let! v := MakeVal table descs tuple in
      let! ht := of_res (InsertCombine descs key v ht) in
      aggregate_tuples table group_bys descs rest ht
  end.

Definition output_value (t : AggreType) (v : TupleValue) (count : Z) : res TupleValue :=
  if bool_decide (t = AVGS) && negb (is_null v) then
    (let? x := value v in Ok (FloatValue (SFdiv 24 128 x (float_of_int count))))%C
  else Ok v.

Fixpoint output_values (descs : list AggreDesc) (values : list TupleValue) (counts : list Z) : res (list TupleValue) :=
  match descs, values, counts with
  | _, [], _ => Ok []
  | d :: descs', v :: values', c :: counts' =>
      let? v := output_value (ad_type d) v c in
      let? vs := output_values descs' values' counts' in
      Ok (v :: vs)
  | _, _, _ => Ub
  end.

Definition output_tuple (descs : list AggreDesc) (e : AggregateKey * AggregateValue) : res Tuple :=
  (let? vs := output_values descs (aggregates_ e.2) (count_ e.2) in Ok (e.1 ++ vs)).

(** ** AggregationExeNode *)

Record AggregationExeNode := {
  an_table : TableMeta; an_group_bys : TupleSchema; an_descs : list AggreDesc; an_tuple_set : TupleSet; an_ht : AggTable }.

Definition aggregation_init (table : TableMeta) (group_bys : TupleSchema) (tuple_set : TupleSet) : AggregationExeNode :=
  {| an_table := table; an_group_bys := group_bys; an_descs := agg_descs_ group_bys;
     an_tuple_set := (move_assign tuple_set TupleSet_create).1; an_ht := [] |}.

(** The output; the node is used once. *)
Definition aggregation_execute (n : AggregationExeNode) : res TupleSet :=
  (let? ht := (aggregate_tuples (Some (tm_name (an_table n))) (fields_ (an_group_bys n)) (an_descs n)
                 (tuples_ (an_tuple_set n)) (an_ht n) (schema_ (an_tuple_set n))).1 in
   let? rows := res_map (output_tuple (an_descs n)) ht in
   Ok {| tuples_ := rows; schema_ := an_group_bys n |}).
