(* ===== verification/AggregationTheorems.v ===== *)
(** * Theorems on grouping and aggregates

    Grouping by columns of integers or strings without nulls: the table has the distinct keys in
    increasing order, each with the aggregates of exactly the rows of its group.  Then what the
    aggregates of a column are. *)
From Stdlib Require Import String Floats.SpecFloat Sorted.
From S2P Require Import Prelude ReturnCode Effects Bitmap Memory KeyCompare Dates TableMeta ConditionFilter Table.
From S2P Require Import Values SmallFloats Expression Tuples TuplesTheorems KeyOrder Aggregation.

#[local] Open Scope c_scope.

Lemma res_fold_app {A B} (body : B -> A -> res A) l k a :
  res_fold body (l ++ k) a = res_bind (res_fold body l a) (res_fold body k).
Proof. revert a. induction l as [|x l IH]; intros a; [done|]. cbn. destruct (body x a); cbn; [apply IH|done..]. Qed.

(** ** The order of keys *)

Abbreviation kc := (oc []).

Lemma key_less_kc ks a b : plain_key ks a -> plain_key ks b -> key_less a b = Ok (kc a b <? 0).
Proof.
  intros Ha. revert b. induction Ha as [|k v ks a Hv Ha IH]; intros b Hb; inversion Hb as [|? w ? b' Hw Hb']; subst; [done|].
  cbn [key_less oc tail]. destruct (compare_plain k v w Hv Hw) as (c & -> & _). cbn [res_bind].
  destruct (c =? 0); [by apply IH|done].
Qed.

(** ** The table *)

Section grouping.
Context (ks : list bool).

Abbreviation pk := (plain_key ks).

Definition below (x y : AggregateKey * AggregateValue) : Prop := kc x.1 y.1 < 0.

(** Keys of the right kind, strictly increasing. *)
Definition table_ok (ht : AggTable) : Prop := Forall (fun e => pk e.1) ht /\ StronglySorted below ht.

(** What the table has for a key. *)
Fixpoint group_of (key : AggregateKey) (ht : AggTable) : option AggregateValue :=
  match ht with
  | [] => None
  | (k, v) :: rest => if kc k key =? 0 then Some v else group_of key rest
  end.

(** The three ways in which a key can stand to the key that is looked for. *)
Lemma key_cases k key : pk k -> pk key ->
  (kc k key < 0 /\ key_less k key = Ok true) \/
  (0 < kc k key /\ key_less k key = Ok false /\ key_less key k = Ok true) \/
  (kc k key = 0 /\ key_less k key = Ok false /\ key_less key k = Ok false).
Proof.
  intros Hk Hkey. rewrite !(key_less_kc ks) by done. rewrite (oc_antisym [] ks k key Hk Hkey).
  destruct (Z.ltb_spec (kc k key) 0), (Z.ltb_spec (- kc k key) 0); try lia; auto 6 with lia.
Qed.

Lemma kc_below a b c : pk a -> pk b -> pk c -> kc a b < 0 -> kc b c <= 0 -> kc a c < 0.
Proof. intros Ha Hb Hc H1 H2. destruct (oc_trans [] ks a b c); try done; lia. Qed.

Lemma kc_below' a b c : pk a -> pk b -> pk c -> kc a b <= 0 -> kc b c < 0 -> kc a c < 0.
Proof. intros Ha Hb Hc H1 H2. destruct (oc_trans [] ks a b c); try done; lia. Qed.

(** Keys that compare equal are equal for every other key. *)
Lemma kc_same a b c : pk a -> pk b -> pk c -> kc a b = 0 -> (kc a c =? 0) = (kc b c =? 0).
Proof.
  intros Ha Hb Hc E. pose proof (oc_antisym [] ks a b Ha Hb) as Eba.
  pose proof (oc_antisym [] ks a c Ha Hc). pose proof (oc_antisym [] ks b c Hb Hc).
  destruct (Z.eqb_spec (kc a c) 0) as [E1|E1], (Z.eqb_spec (kc b c) 0) as [E2|E2]; try done.
  - destruct (oc_trans [] ks b a c); try done; try lia. destruct (oc_trans [] ks c a b); try done; lia.
  - destruct (oc_trans [] ks a b c); try done; try lia. destruct (oc_trans [] ks c b a); try done; lia.
Qed.

Lemma table_ok_cons k v ht :
  table_ok ((k, v) :: ht) <-> pk k /\ table_ok ht /\ Forall (fun e => kc k e.1 < 0) ht.
Proof.
  unfold table_ok. rewrite Forall_cons. split.
  - intros [[Hk Hf] Hs]. apply StronglySorted_inv in Hs as [Hs Hb]. done.
  - intros (Hk & [Hf Hs] & Hb). split_and!; try done. by constructor.
Qed.

(** Behind a greater key there is none that is looked for. *)
Lemma all_above key k v ht :
  table_ok ((k, v) :: ht) -> pk key -> 0 < kc k key -> Forall (fun e => pk e.1 /\ kc key e.1 < 0) ((k, v) :: ht).
Proof.
  intros (Hk & [Hf _] & Hb)%table_ok_cons Hkey Hlt. pose proof (oc_antisym [] ks k key Hk Hkey).
  constructor; [simpl; split; [done|lia]|]. apply Forall_forall. intros e He.
  rewrite Forall_forall in Hf, Hb. split; [by apply Hf|].
  apply (kc_below key k e.1); [done|done|by apply Hf|lia|]. specialize (Hb e He). lia.
Qed.

Lemma group_of_above key ht : pk key -> Forall (fun e => pk e.1 /\ kc key e.1 < 0) ht -> group_of key ht = None.
Proof.
  intros Hk H. induction H as [|[k v] ht [Hp Hlt] H IH]; [done|]. cbn [group_of fst]. simpl in Hp, Hlt.
  pose proof (oc_antisym [] ks k key Hp Hk). destruct (Z.eqb_spec (kc k key) 0); [lia|by apply IH].
Qed.

Lemma ht_count_spec key ht :
  table_ok ht -> pk key -> ht_count key ht = Ok (bool_decide (is_Some (group_of key ht))).
Proof.
  intros Ht Hkey. induction ht as [|[k v] ht IH]; [done|]. pose proof Ht as (Hk & Ht' & Hb)%table_ok_cons.
  cbn [ht_count group_of]. destruct (key_cases k key Hk Hkey) as [[Hc ->]|[(Hc & -> & ->)|(Hc & -> & ->)]]; cbn [res_bind negb].
  - destruct (Z.eqb_spec (kc k key) 0); [lia|by apply IH].
  - destruct (Z.eqb_spec (kc k key) 0); [lia|]. pose proof (all_above key k v ht Ht Hkey Hc) as Ha. apply Forall_cons_1 in Ha as [_ Ha].
    by rewrite group_of_above.
  - rewrite Hc. done.
Qed.

(** A table after a change at one key. *)
Definition changed_at (key : AggregateKey) (v : AggregateValue) (ht ht' : AggTable) : Prop :=
  table_ok ht' /\
  (forall k, pk k -> group_of k ht' = if kc key k =? 0 then Some v else group_of k ht) /\
  (forall P : AggregateKey -> Prop, P key -> Forall (fun e => P e.1) ht -> Forall (fun e => P e.1) ht').

Lemma changed_cons key v k w ht ht' :
  table_ok ((k, w) :: ht) -> pk key -> kc k key < 0 -> changed_at key v ht ht' -> changed_at key v ((k, w) :: ht) ((k, w) :: ht').
Proof.
  intros (Hk & Ht & Hb)%table_ok_cons Hkey Hlt (Ht' & Hg & Hp). split_and!.
  - apply table_ok_cons. split_and!; [done|done|]. apply (Hp (fun x => kc k x < 0)); done.
  - intros k0 Hk0. cbn [group_of]. rewrite (Hg k0 Hk0). destruct (Z.eqb_spec (kc k k0) 0) as [E|]; [|done].
    destruct (Z.eqb_spec (kc key k0) 0) as [E'|]; [|done]. exfalso.
    pose proof (kc_below k key k0 Hk Hkey Hk0 Hlt). lia.
  - intros P HP H. apply Forall_cons_1 in H as [? ?]. constructor; [done|by apply Hp].
Qed.

Lemma changed_front key v k w ht :
  table_ok ((k, w) :: ht) -> pk key -> 0 < kc k key -> changed_at key v ((k, w) :: ht) ((key, v) :: (k, w) :: ht).
Proof.
  intros Ht Hkey Hlt. pose proof Ht as (Hk & _ & _)%table_ok_cons. split_and!.
  - apply table_ok_cons. split_and!; [done|done|].
    eapply Forall_impl; [exact (all_above key k w ht Ht Hkey Hlt)|]. by intros e [_ ?].
  - done.
  - intros P HP H. by constructor.
Qed.

Lemma ht_insert_spec key v ht :
  table_ok ht -> pk key -> group_of key ht = None -> exists ht', ht_insert key v ht = Ok ht' /\ changed_at key v ht ht'.
Proof.
  intros Ht Hkey. induction ht as [|[k w] ht IH]; intros Hg.
  { eexists. split; [done|]. split_and!; [apply table_ok_cons; by split_and!|done|by constructor]. }
  pose proof Ht as (Hk & Ht' & Hb)%table_ok_cons. cbn [ht_insert group_of] in *.
  destruct (key_cases k key Hk Hkey) as [[Hc ->]|[(Hc & -> & ->)|(Hc & _)]]; cbn [res_bind].
  - destruct (Z.eqb_spec (kc k key) 0); [lia|]. destruct (IH Ht' Hg) as (ht' & -> & Hch). eexists. split; [done|].
    by apply changed_cons.
  - eexists. split; [done|]. by apply changed_front.
  - rewrite Hc in Hg. done.
Qed.

Lemma ht_update_spec key f w w' ht :
  table_ok ht -> pk key -> group_of key ht = Some w -> f w = Ok w' ->
  exists ht', ht_update key f ht = Ok ht' /\ table_ok ht' /\ fst <$> ht' = fst <$> ht /\
    (forall k, pk k -> group_of k ht' = if kc key k =? 0 then Some w' else group_of k ht).
Proof.
  intros Ht Hkey Hg Hf. induction ht as [|[k u] ht IH]; [done|].
  pose proof Ht as (Hk & Ht' & Hb)%table_ok_cons. cbn [ht_update group_of] in *.
  destruct (key_cases k key Hk Hkey) as [[Hc ->]|[(Hc & -> & ->)|(Hc & -> & ->)]]; cbn [res_bind].
  - destruct (Z.eqb_spec (kc k key) 0); [lia|]. destruct (IH Ht' Hg) as (ht' & -> & Hok & Hfst & Hg').
    eexists. split; [done|]. split_and!; [|by rewrite !fmap_cons, Hfst|].
    + apply table_ok_cons. split_and!; [done|done|].
      apply (Forall_fmap fst (fun x => kc k x < 0)). rewrite Hfst. by apply (Forall_fmap fst (fun x => kc k x < 0)).
    + intros k0 Hk0. cbn [group_of]. rewrite Hg' by done. destruct (Z.eqb_spec (kc k k0) 0) as [E|]; [|done].
      destruct (Z.eqb_spec (kc key k0) 0) as [E'|]; [|done]. exfalso.
      pose proof (kc_below k key k0 Hk Hkey Hk0 Hc). lia.
  - pose proof (all_above key k u ht Ht Hkey Hc) as Ha. apply Forall_cons_1 in Ha as [_ Ha].
    destruct (Z.eqb_spec (kc k key) 0); [lia|]. by rewrite group_of_above in Hg.
  - rewrite Hc in Hg. simpl in Hg. simplify_eq. rewrite Hf. cbn [res_bind]. eexists. split; [done|]. split_and!.
    + by apply table_ok_cons.
    + done.
    + intros k0 Hk0. cbn [group_of]. rewrite (kc_same k key k0) by done. destruct (kc key k0 =? 0); done.
Qed.

(** Adding one row: its group is changed and no other. *)
Lemma InsertCombine_spec descs key v ht initial w' :
  table_ok ht -> pk key -> GenerateInitialAggregateValue descs = Ok initial ->
  CombineAggregateValues descs (default initial (group_of key ht)) v = Ok w' ->
  exists ht', InsertCombine descs key v ht = Ok ht' /\ changed_at key w' ht ht'.
Proof.
  intros Ht Hkey Hi Hc. unfold InsertCombine. rewrite ht_count_spec by done. cbn [res_bind].
  destruct (group_of key ht) as [w|] eqn:Hg.
  - rewrite bool_decide_eq_true_2 by done. cbn [negb res_bind].
    destruct (ht_update_spec key (fun r => CombineAggregateValues descs r v) w w' ht Ht Hkey Hg Hc) as (ht' & E & Hok & Hf & Hg').
    exists ht'. split; [done|]. split_and!; [done|done|]. intros P HP H.
    apply (Forall_fmap fst P). rewrite Hf. by apply (Forall_fmap fst P).
  - rewrite bool_decide_eq_false_2 by (intros [? ?]; done). cbn [negb res_bind]. rewrite Hi. cbn [res_bind].
    destruct (ht_insert_spec key initial ht Ht Hkey Hg) as (ht1 & -> & Hok1 & Hg1 & Hp1). cbn [res_bind].
    assert (Hk0 : kc key key = 0) by (pose proof (oc_antisym [] ks key key Hkey Hkey); lia).
    assert (Hkey1 : group_of key ht1 = Some initial) by (rewrite Hg1, Hk0 by done; done).
    destruct (ht_update_spec key (fun r => CombineAggregateValues descs r v) initial w' ht1 Hok1 Hkey Hkey1 Hc)
      as (ht' & E & Hok & Hf & Hg').
    exists ht'. split; [done|]. split_and!; [done| |].
    + intros k Hk. rewrite Hg', Hg1 by done. by destruct (kc key k =? 0).
    + intros P HP H. apply (Forall_fmap fst P). rewrite Hf. apply (Forall_fmap fst P). by apply Hp1.
Qed.

(** ** Grouping *)

(** The loop of the program on the keys and inputs of the rows. *)
Definition insert_all (descs : list AggreDesc) (rows : list (AggregateKey * AggregateValue)) (ht : AggTable) : res AggTable :=
  res_fold (fun r ht => InsertCombine descs r.1 r.2 ht) rows ht.

(** The inputs of one group and their aggregates. *)
Definition rows_of (key : AggregateKey) (rows : list (AggregateKey * AggregateValue)) : list AggregateValue :=
  snd <$> filter (fun r => kc r.1 key = 0) rows.

Definition aggregate_of (descs : list AggreDesc) (inputs : list AggregateValue) : res AggregateValue :=
  let? initial := GenerateInitialAggregateValue descs in
  res_fold (fun v acc => CombineAggregateValues descs acc v) inputs initial.

(** The table holds the groups of the rows. *)
Definition groups_of (descs : list AggreDesc) (rows : list (AggregateKey * AggregateValue)) (ht : AggTable) : Prop :=
  table_ok ht /\ Forall (fun e => e.1 ∈ rows.*1) ht /\
  forall key, pk key ->
    match group_of key ht with
    | None => rows_of key rows = []
    | Some a => rows_of key rows <> [] /\ aggregate_of descs (rows_of key rows) = Ok a
    end.

Lemma insert_all_groups descs rows :
  Forall (fun r => pk r.1) rows ->
  (forall key, pk key -> exists a, aggregate_of descs (rows_of key rows) = Ok a) ->
  exists ht, insert_all descs rows [] = Ok ht /\ groups_of descs rows ht.
Proof.
  induction rows as [|r rows IH] using rev_ind; intros Hp Ha.
  { exists []. split; [done|]. split_and!; [by split; constructor|constructor|done]. }
  apply Forall_app in Hp as [Hp Hr]. apply Forall_cons_1 in Hr as [Hr _].
  assert (Hsnoc : forall key, rows_of key (rows ++ [r]) = rows_of key rows ++ (if kc r.1 key =? 0 then [r.2] else [])).
  { intros key. unfold rows_of. rewrite filter_app, fmap_app. f_equal. rewrite filter_cons, filter_nil.
    destruct (decide (kc r.1 key = 0)) as [->|Hne]; [done|]. by destruct (Z.eqb_spec (kc r.1 key) 0). }
  destruct IH as (ht & E & Hok & Hin & Hg); [done| |].
  { intros key Hkey. destruct (Ha key Hkey) as [a Hka]. rewrite Hsnoc in Hka. unfold aggregate_of in *.
    destruct (GenerateInitialAggregateValue descs) as [i| | |]; try done. cbn [res_bind] in *.
    rewrite res_fold_app in Hka. destruct (res_fold _ (rows_of key rows) i) as [b| | |]; try done. by exists b. }
  destruct r as [key v]. cbn [fst snd] in *.
  assert (Hk0 : kc key key = 0) by (pose proof (oc_antisym [] ks key key Hr Hr); lia).
  destruct (Ha key Hr) as [w' Hw]. rewrite Hsnoc, Hk0 in Hw. cbn [Z.eqb] in Hw. unfold aggregate_of in Hw.
  destruct (GenerateInitialAggregateValue descs) as [initial| | |] eqn:Hi; try done. cbn [res_bind] in Hw.
  rewrite res_fold_app in Hw.
  assert (Hc : CombineAggregateValues descs (default initial (group_of key ht)) v = Ok w').
  { specialize (Hg key Hr). unfold aggregate_of in Hg. rewrite Hi in Hg. cbn [res_bind] in Hg.
    destruct (group_of key ht) as [a|]; [destruct Hg as [_ Hg]; rewrite Hg in Hw|rewrite Hg in Hw];
      cbn [res_fold res_bind default] in *; (destruct (CombineAggregateValues descs _ v); done). }
  destruct (InsertCombine_spec descs key v ht initial w' Hok Hr Hi Hc) as (ht' & Eht & Hok' & Hg' & Hp').
  exists ht'. split; [unfold insert_all in *; rewrite res_fold_app, E; cbn; by rewrite Eht|]. split_and!; [done| |].
  - apply (Hp' (fun k => k ∈ (rows ++ [(key, v)]).*1)); [rewrite fmap_app; set_solver|].
    eapply Forall_impl; [exact Hin|]. intros e He. rewrite fmap_app. set_solver.
  - intros k Hk. rewrite Hg', Hsnoc by done. destruct (Z.eqb_spec (kc key k) 0) as [Ekey|].
    + split; [by destruct (rows_of k rows)|]. unfold aggregate_of. rewrite Hi. cbn [res_bind]. rewrite res_fold_app.
      assert (rows_of k rows = rows_of key rows) as ->; [|done].
      unfold rows_of. f_equal. apply filter_ext. intros [x u] Hx. rewrite Forall_forall in Hp. specialize (Hp _ Hx).
      simpl in *. rewrite (oc_antisym [] ks k x), (oc_antisym [] ks key x) by done.
      pose proof (kc_same key k x Hr Hk Hp Ekey). lia.
    + rewrite app_nil_r. by apply Hg.
Qed.
End grouping.

(** ** One column *)

(** The fold of one aggregate over the inputs of a group. *)
Definition fold_column (t : AggreType) (inputs : list TupleValue) (acc : TupleValue * Z) : res (TupleValue * Z) :=
  res_fold (fun i acc => combine_one t acc.1 acc.2 i) inputs acc.

Definition aggregate_column (t : AggreType) (inputs : list TupleValue) : res (TupleValue * Z) :=
  let? v := initial_value t in fold_column t inputs (v, 0).

(** The inputs that are no nulls. *)
Definition present (inputs : list TupleValue) : list TupleValue := filter (fun v => is_null v = false) inputs.

Lemma present_cons v inputs : present (v :: inputs) = if is_null v then present inputs else v :: present inputs.
Proof. unfold present. rewrite filter_cons. by destruct (is_null v). Qed.

Definition is_count (n : Z) : Prop := 0 <= n < 2 ^ 24.

Lemma fold_count inputs f n :
  int_float f n -> 0 <= n -> n + alen (present inputs) < 2 ^ 24 ->
  exists g, fold_column COUNTS inputs (FloatValue f, n) = Ok (FloatValue g, n + alen (present inputs)) /\
    int_float g (n + alen (present inputs)).
Proof.
  revert f n. induction inputs as [|v inputs IH]; intros f n Hf Hn Hlt.
  { exists f. change (alen (present [])) with 0. by rewrite Z.add_0_r. }
  rewrite present_cons in *. unfold fold_column, combine_one in *. cbn [res_fold fst snd].
  destruct (is_null v); cbn [res_bind]; [by apply IH|]. rewrite alen_cons in *. pose proof (alen_nonneg (present inputs)).
  cbn [plus res_bind]. rewrite int32_id by (unfold is_int32; lia).
  destruct (IH (SFadd 24 128 f (float_of_int 1)) (n + 1)) as (g & E & Hg); [|lia|lia|].
  - apply count_up; [done|]. unfold small; lia.
  - exists g. replace (n + (alen (present inputs) + 1)) with (n + 1 + alen (present inputs)) by lia. done.
Qed.

(** COUNT is the number of values that are not null, in single precision but exact, for fewer than 2^24 of them. *)
Theorem count_exact inputs :
  alen (present inputs) < 2 ^ 24 ->
  exists f, aggregate_column COUNTS inputs = Ok (FloatValue f, alen (present inputs)) /\ int_float f (alen (present inputs)).
Proof.
  intros H. unfold aggregate_column. cbn [initial_value res_bind].
  destruct (fold_count inputs (float_of_int 0) 0) as (f & E & Hf); [by apply float_of_int_exact|lia|lia|].
  rewrite Z.add_0_l in *. by exists f.
Qed.

Lemma count_exact_witness :
  exists f, aggregate_column COUNTS [IntValue 7; NullValue; IntValue 8] = Ok (FloatValue f, 2) /\ int_float f 2.
Proof. apply (count_exact [IntValue 7; NullValue; IntValue 8]). vm_compute. reflexivity. Defined.

(** From 2^24 on, counting has no effect. *)
Lemma count_saturates v c :
  is_null v = false ->
  combine_one COUNTS (FloatValue (float_of_int (2 ^ 24))) c v = Ok (FloatValue (float_of_int (2 ^ 24)), int32 (c + 1)).
Proof. intros Hv. unfold combine_one. rewrite Hv. cbn [plus res_bind]. by rewrite count_stops. Qed.

(** *** Sums *)

(** The integers of a column of integers and nulls. *)
Definition int_of (v : TupleValue) : option Z := match v with IntValue x => Some x | _ => None end.
Definition ints (inputs : list TupleValue) : list Z := omap int_of inputs.
Definition int_column (inputs : list TupleValue) : Prop := Forall (fun v => v = NullValue \/ exists x, v = IntValue x) inputs.
Definition total (l : list Z) : Z := foldr Z.add 0 l.
Definition magnitude (l : list Z) : Z := foldr (fun x a => Z.abs x + a) 0 l.

Lemma total_bound l : Z.abs (total l) <= magnitude l.
Proof. induction l as [|x l IH]; simpl; lia. Qed.

Lemma magnitude_nonneg l : 0 <= magnitude l.
Proof. pose proof (total_bound l). lia. Qed.

Definition is_sum (t : AggreType) : bool := bool_decide (t = SUMS) || bool_decide (t = AVGS).

Lemma fold_sum t inputs f s n :
  is_sum t = true -> int_column inputs -> int_float f s -> Z.abs s + magnitude (ints inputs) < 2 ^ 24 ->
  0 <= n -> n + alen inputs < 2 ^ 31 ->
  exists g, fold_column t inputs (FloatValue f, n) = Ok (FloatValue g, n + alen (ints inputs)) /\
    int_float g (s + total (ints inputs)).
Proof.
  intros Ht Hi. revert f s n. induction Hi as [|v inputs Hv Hi IH]; intros f s n Hf Hs Hn Hlen.
  { exists f. change (alen (ints [])) with 0. cbn. by rewrite !Z.add_0_r. }
  rewrite alen_cons in Hlen. pose proof (alen_nonneg inputs). unfold fold_column in *. cbn [res_fold fst snd].
  destruct Hv as [->|[x ->]]; [apply (IH f s n); try done; lia|].
  change (ints (IntValue x :: inputs)) with (x :: ints inputs) in *. cbn [magnitude foldr] in Hs. fold magnitude in Hs.
  fold (magnitude (ints inputs)) in Hs. pose proof (magnitude_nonneg (ints inputs)).
  assert (combine_one t (FloatValue f) n (IntValue x) = Ok (FloatValue (SFadd 24 128 f (float_of_int x)), n + 1)) as ->.
  { destruct t; try done; unfold combine_one; cbn; rewrite int32_id by (unfold is_int32; lia); done. }
  cbn [res_bind]. destruct (IH (SFadd 24 128 f (float_of_int x)) (s + x) (n + 1)) as (g & -> & Hg); [|lia|lia|lia|].
  - apply SFadd_exact; [done| |unfold small; lia]. apply float_of_int_exact. unfold small; lia.
  - exists g. rewrite alen_cons. cbn [total foldr]. fold (total (ints inputs)). split; [do 2 f_equal; lia|].
    by replace (s + (x + total (ints inputs))) with (s + x + total (ints inputs)) by lia.
Qed.

Lemma ints_shorter inputs : alen (ints inputs) <= alen inputs.
Proof.
  induction inputs as [|v inputs IH]; [done|]. rewrite alen_cons. unfold ints in *. cbn [omap list_omap].
  destruct (int_of v); [rewrite alen_cons|]; lia.
Qed.



(** *** Greatest and least *)

Definition is_extreme (t : AggreType) : bool := bool_decide (t = MAXS) || bool_decide (t = MINS).

(** [v] is at least as good as [w]. *)
Definition as_good (t : AggreType) (v w : TupleValue) : Prop :=
  exists c, compare w v = Ok c /\ (if bool_decide (t = MAXS) then c <= 0 else 0 <= c).

Definition plain_or_null (k : bool) (v : TupleValue) : Prop := v = NullValue \/ plain k v.

Lemma as_good_refl k t v : plain k v -> as_good t v v.
Proof.
  intros Hv. destruct (compare_plain k v v Hv Hv) as (c & Hc & _ & Ec). exists c. split; [done|].
  assert (c = 0) as -> by (apply Ec; destruct Hv; done). destruct (bool_decide _); lia.
Qed.

Lemma as_good_trans k t u v w : plain k u -> plain k v -> plain k w -> as_good t u v -> as_good t v w -> as_good t u w.
Proof.
  intros Hu Hv Hw (a & Ha & La) (b & Hb & Lb). unfold as_good. destruct (bool_decide (t = MAXS)).
  - destruct (compare_plain_trans k w v u b a Hw Hv Hu Hb Ha Lb La) as (c & Hc & Lc & _). by exists c.
  - destruct (compare_plain k v u Hv Hu) as (a' & Ha1 & Ha2 & _). destruct (compare_plain k w v Hw Hv) as (b' & Hb1 & Hb2 & _).
    rewrite Ha in Ha1. rewrite Hb in Hb1. simplify_eq.
    destruct (compare_plain_trans k u v w _ _ Hu Hv Hw Ha2 Hb2 ltac:(lia) ltac:(lia)) as (c & Hc & Lc & _).
    destruct (compare_plain k u w Hu Hw) as (c' & Hc1 & Hc2 & _). rewrite Hc in Hc1. simplify_eq. exists (- c'). split; [done|lia].
Qed.

Lemma fold_extreme k t inputs v n :
  is_extreme t = true -> Forall (fun w => w = NullValue \/ plain k w /\ is_null w = false) inputs ->
  plain k v -> is_null v = false -> 0 <= n -> n + alen inputs < 2 ^ 31 ->
  exists u, fold_column t inputs (v, n) = Ok (u, n + alen (present inputs)) /\
    u ∈ v :: present inputs /\ Forall (as_good t u) (v :: present inputs).
Proof.
  intros Ht Hi. revert v n. induction Hi as [|w inputs Hw Hi IH]; intros v n Hv Nv Hn Hlen.
  { exists v. change (alen (present [])) with 0. rewrite Z.add_0_r. split_and!; [done|set_solver|].
    constructor; [by eapply as_good_refl|constructor]. }
  rewrite alen_cons in Hlen. pose proof (alen_nonneg inputs). rewrite present_cons. unfold fold_column in *. cbn [res_fold fst snd].
  destruct Hw as [->|[Hw Nw]]; [apply (IH v n Hv Nv Hn); lia|]. rewrite Nw.
  destruct (compare_plain k w v Hw Hv) as (c & Hc & Hc' & _).
  set (better := if bool_decide (t = MAXS) then 0 <? c else c <? 0).
  assert (combine_one t v n w = Ok (if better then w else v, n + 1)) as ->.
  { unfold combine_one. rewrite Nw, Nv, Hc. cbn [res_bind]. rewrite int32_id by (unfold is_int32; lia). by destruct t. }
  cbn [res_bind fst snd]. set (x := if better then w else v).
  assert (Hx : plain k x) by (unfold x; by destruct better). assert (Nx : is_null x = false) by (unfold x; by destruct better).
  assert (Gv : as_good t x v /\ as_good t x w).
  { unfold x, better, as_good. destruct (bool_decide (t = MAXS)).
    - destruct (Z.ltb_spec 0 c); split; [exists (- c); split; [done|lia]|by apply (as_good_refl k MAXS)|by apply (as_good_refl k MAXS)|exists c; split; [done|lia]].
    - destruct (Z.ltb_spec c 0); split; [exists (- c); split; [done|lia]|by apply (as_good_refl k MINS)|by apply (as_good_refl k MINS)|exists c; split; [done|lia]]. }
  destruct (IH x (n + 1) Hx Nx) as (u & E & Hu & Hall); [lia|lia|]. exists u. rewrite alen_cons.
  replace (n + (alen (present inputs) + 1)) with (n + 1 + alen (present inputs)) by lia. split; [done|].
  assert (Pu : plain k u).
  { apply elem_of_cons in Hu as [->|Hu]; [done|]. apply list_elem_of_filter in Hu as [Nu Hu].
    rewrite Forall_forall in Hi. destruct (Hi u Hu) as [->|[? _]]; done. }
  apply Forall_cons_1 in Hall as [Gx Hall]. split.
  - unfold x in Hu. destruct better; set_solver.
  - destruct Gv. constructor; [by apply (as_good_trans k t u x v)|]. constructor; [by apply (as_good_trans k t u x w)|done].
Qed.

(** What a greatest (least) value is, without the comparison of the program: no other comes after (before) it. *)
Definition unbeaten (t : AggreType) (u w : TupleValue) : Prop :=
  if bool_decide (t = MAXS) then ~ value_before u w else ~ value_before w u.

Lemma as_good_unbeaten k t u w : plain k u -> plain k w -> as_good t u w -> unbeaten t u w.
Proof.
  intros Hu Hw (c & Hc & Lc). destruct (compare_plain k w u Hw Hu) as (c' & Ec & Ec' & _). rewrite Hc in Ec. injection Ec as <-.
  unfold unbeaten. destruct (bool_decide (t = MAXS)).
  - rewrite <- (compare_before k u w (- c)) by done. lia.
  - rewrite <- (compare_before k w u c) by done. lia.
Qed.

(** C36. MAX and MIN over a column of integers of at most 2^30 or of strings, with nulls: null if all values are null, and
    otherwise one of the values that are not null, such that none of these is greater (less): integers in their order,
    strings in the order of their bytes.  Columns of floats are not covered. *)
Theorem extreme_correct k t inputs :
  is_extreme t = true -> Forall (fun w => w = NullValue \/ plain k w /\ is_null w = false) inputs -> alen inputs < 2 ^ 31 ->
  if is_nil (present inputs) then aggregate_column t inputs = Ok (NullValue, 0)
  else exists u, aggregate_column t inputs = Ok (u, alen (present inputs)) /\
    u ∈ present inputs /\ Forall (unbeaten t u) (present inputs).
Proof.
  intros Ht Hi Hlen. unfold aggregate_column. assert (initial_value t = Ok NullValue) as -> by (by destruct t).
  cbn [res_bind]. induction Hi as [|w inputs Hw Hi IH]; [done|]. rewrite alen_cons in Hlen.
  rewrite present_cons. unfold fold_column in *. cbn [res_fold fst snd].
  destruct Hw as [->|[Hw Nw]]; [apply IH; lia|]. rewrite Nw.
  assert (combine_one t NullValue 0 w = Ok (w, 1)) as ->.
  { unfold combine_one. rewrite Nw. by destruct t. }
  cbn [res_bind is_nil].
  destruct (fold_extreme k t inputs w 1 Ht Hi Hw Nw) as (u & E & Hu & Hg); [lia|lia|]. exists u. rewrite alen_cons.
  replace (alen (present inputs) + 1) with (1 + alen (present inputs)) by lia. split_and!; [done|done|].
  assert (Hp : Forall (plain k) (w :: present inputs)).
  { constructor; [done|]. apply Forall_forall. intros x [Nx Hx]%list_elem_of_filter.
    rewrite Forall_forall in Hi. by destruct (Hi x Hx) as [->|[? _]]. }
  rewrite Forall_forall in Hp, Hg. apply Forall_forall. intros x Hx. apply (as_good_unbeaten k); auto.
Qed.

Lemma extreme_correct_witness :
  exists u, aggregate_column MAXS [IntValue 7; NullValue; IntValue 9] = Ok (u, 2) /\
    u ∈ [IntValue 7; IntValue 9] /\ Forall (unbeaten MAXS u) [IntValue 7; IntValue 9].
Proof.
  apply (extreme_correct false MAXS [IntValue 7; NullValue; IntValue 9]); [reflexivity| |vm_compute; reflexivity].
  repeat (apply Forall_cons_2; [first [by left|right; split; [constructor; lia|done]]|]); apply Forall_nil_2.
Defined.
