(* ===== verification/AggregationGroups.v ===== *)
(** * The output of an aggregation

    Aggregates of a group, column by column; that they are defined for inputs of the right kind;
    and the rows that AggregationExeNode produces. *)
From Stdlib Require Import String Floats.SpecFloat Sorted.
From S2P Require Import Prelude ReturnCode Effects Bitmap Memory KeyCompare Dates TableMeta ConditionFilter Table.
From S2P Require Import Values SmallFloats Expression Tuples TuplesTheorems KeyOrder Aggregation AggregationTheorems.

#[local] Open Scope c_scope.

(** ** Inputs of the right kind *)

(** The class of a column (see [plain]) matters for MAX and MIN only. *)
Definition input_ok (k : bool) (t : AggreType) (v : TupleValue) : Prop :=
  v = NullValue \/
  is_null v = false /\
    match t with
    | COUNTS => True
    | SUMS | AVGS => is_number v = true
    | MAXS | MINS => plain k v
    | UNDEFINEDAGG => False
    end.

Definition result_ok (k : bool) (t : AggreType) (r : TupleValue) : Prop :=
  match t with
  | COUNTS => exists f, r = FloatValue f
  | SUMS | AVGS => r = NullValue \/ exists f, r = FloatValue f
  | MAXS | MINS => r = NullValue \/ plain k r /\ is_null r = false
  | UNDEFINEDAGG => False
  end.

Lemma initial_defined k t : t <> UNDEFINEDAGG -> exists v, initial_value t = Ok v /\ result_ok k t v.
Proof. destruct t; [done|..]; intros _; eexists; (split; [done|]); simpl; eauto. Qed.

Lemma combine_defined k t r c i :
  result_ok k t r -> input_ok k t i -> exists r' c', combine_one t r c i = Ok (r', c') /\ result_ok k t r'.
Proof.
  intros Hr [->|[Ni Hi]]; [by eexists _, _|]. unfold combine_one. rewrite Ni. destruct t; simpl in Hr, Hi; [done|..].
  - destruct Hr as [->|[Hr Nr]]; [eexists _, _; split; [done|by right]|]. rewrite Nr.
    destruct (compare_plain k i r Hi Hr) as (x & -> & _). cbn [res_bind]. eexists _, _. split; [done|]. right. by destruct (0 <? x).
  - destruct Hr as [->|[Hr Nr]]; [eexists _, _; split; [done|by right]|]. rewrite Nr.
    destruct (compare_plain k i r Hi Hr) as (x & -> & _). cbn [res_bind]. eexists _, _. split; [done|]. right. by destruct (x <? 0).
  - destruct i; try done; (destruct Hr as [->|[f ->]]); eexists _, _; (split; [reflexivity|]); right; by eexists.
  - destruct i; try done; (destruct Hr as [->|[f ->]]); eexists _, _; (split; [reflexivity|]); right; by eexists.
  - destruct Hr as [f ->]. eexists _, _. split; [reflexivity|]. by eexists.
Qed.

(** The aggregates of a query with the classes of their columns. *)
Abbreviation AggColumns := (list (bool * AggreDesc)).
Definition known (cols : AggColumns) : Prop := Forall (fun c => ad_type c.2 <> UNDEFINEDAGG) cols.
Definition inputs_ok (cols : AggColumns) (i : AggregateValue) : Prop :=
  Forall2 (fun c v => input_ok c.1 (ad_type c.2) v) cols (aggregates_ i).
Definition results_ok (cols : AggColumns) (r : AggregateValue) : Prop :=
  Forall2 (fun c v => result_ok c.1 (ad_type c.2) v) cols (aggregates_ r) /\ length (count_ r) = length cols.

Lemma initial_all_defined cols :
  known cols -> exists a, GenerateInitialAggregateValue cols.*2 = Ok a /\ results_ok cols a.
Proof.
  intros Hk. unfold GenerateInitialAggregateValue.
  assert (exists vs, res_map (fun d => initial_value (ad_type d)) cols.*2 = Ok vs /\
    Forall2 (fun c v => result_ok c.1 (ad_type c.2) v) cols vs) as (vs & -> & Hvs).
  { induction Hk as [|c cols Hc Hk IH]; [by eexists|]. destruct IH as (vs & E & Hvs).
    destruct (initial_defined c.1 _ Hc) as (v & Ev & Hv). exists (v :: vs). rewrite fmap_cons. cbn [res_map].
    rewrite Ev. cbn [res_bind]. rewrite E. split; [done|by constructor]. }
  eexists. split; [reflexivity|]. split; [done|]. cbn. by rewrite !length_fmap.
Qed.

Lemma combine_all_defined cols rs cs xs :
  Forall2 (fun c v => result_ok c.1 (ad_type c.2) v) cols rs -> length cs = length cols ->
  Forall2 (fun c v => input_ok c.1 (ad_type c.2) v) cols xs ->
  exists rs' cs', combine_all cols.*2 rs cs xs = Ok (rs', cs') /\
    Forall2 (fun c v => result_ok c.1 (ad_type c.2) v) cols rs' /\ length cs' = length cols.
Proof.
  intros Hr. revert cs xs. induction Hr as [|col r cols rs Hr Hrs IH]; intros cs xs Hcs Hi.
  { destruct cs; [|done]. by eexists _, _. }
  destruct cs as [|c cs]; [done|]. inversion Hi as [|? i ? xs' Hi1 Hi2]; subst. rewrite fmap_cons. cbn [combine_all].
  destruct (combine_defined col.1 (ad_type col.2) r c i Hr Hi1) as (r' & c' & -> & Hr'). cbn [res_bind].
  destruct (IH cs xs') as (rs' & cs' & -> & Hrs' & Hcs'); [by injection Hcs|done|]. eexists _, _. split; [reflexivity|].
  split; [by constructor|simpl; lia].
Qed.

Lemma aggregate_defined cols inputs :
  known cols -> Forall (inputs_ok cols) inputs -> exists a, aggregate_of cols.*2 inputs = Ok a /\ results_ok cols a.
Proof.
  intros Hk Hi. unfold aggregate_of. destruct (initial_all_defined cols Hk) as (a & -> & Ha). cbn [res_bind].
  revert a Ha. induction Hi as [|i inputs Hi His IH]; intros a [Ha Hc]; [by eexists|]. cbn [res_fold].
  destruct (combine_all_defined cols _ _ _ Ha Hc Hi) as (rs & cs & E & Hr & Hl). 
  assert (CombineAggregateValues cols.*2 a i = Ok {| aggregates_ := rs; count_ := cs |}) as ->
    by (unfold CombineAggregateValues; by rewrite E).
  cbn [res_bind]. by apply IH.
Qed.

(** ** Aggregates column by column *)

Definition column_at (j : nat) (inputs : list AggregateValue) : list TupleValue := omap (fun i => aggregates_ i !! j) inputs.

Lemma combine_all_at descs rs cs xs rs' cs' j d :
  combine_all descs rs cs xs = Ok (rs', cs') -> descs !! j = Some d ->
  exists r c i r' c', rs !! j = Some r /\ cs !! j = Some c /\ xs !! j = Some i /\
    combine_one (ad_type d) r c i = Ok (r', c') /\ rs' !! j = Some r' /\ cs' !! j = Some c'.
Proof.
  revert rs cs xs rs' cs' j. induction descs as [|d0 descs IH]; intros rs cs xs rs' cs' j E Hj; [done|].
  destruct rs as [|r rs], cs as [|c cs], xs as [|i xs]; try done. cbn [combine_all] in E.
  destruct (combine_one (ad_type d0) r c i) as [[r1 c1]| | |] eqn:E1; try done. cbn [res_bind] in E.
  destruct (combine_all descs rs cs xs) as [[rs1 cs1]| | |] eqn:E2; try done. cbn [res_bind] in E. simplify_eq.
  destruct j as [|j]; simpl in Hj; simplify_eq.
  - eexists _, _, _, _, _. done.
  - exact (IH _ _ _ _ _ j E2 Hj).
Qed.

(** Each aggregate of a group is that of its own column. *)
Lemma aggregate_columns descs inputs a j d :
  aggregate_of descs inputs = Ok a -> descs !! j = Some d ->
  exists v c, aggregates_ a !! j = Some v /\ count_ a !! j = Some c /\
    aggregate_column (ad_type d) (column_at j inputs) = Ok (v, c).
Proof.
  unfold aggregate_of, aggregate_column. intros E Hj.
  destruct (GenerateInitialAggregateValue descs) as [a0| | |] eqn:E0; try done. cbn [res_bind] in E.
  assert (exists v0, initial_value (ad_type d) = Ok v0 /\ aggregates_ a0 !! j = Some v0 /\ count_ a0 !! j = Some 0) as (v0 & -> & Hv & Hc).
  { unfold GenerateInitialAggregateValue in E0. destruct (res_map _ descs) as [vs| | |] eqn:Em; try done. cbn [res_bind] in E0. injection E0 as <-.
    cbn [aggregates_ count_]. rewrite list_lookup_fmap, Hj. clear - Em Hj. revert vs j Em Hj. induction descs as [|d0 descs IH]; intros vs j Em Hj; [done|].
    cbn [res_map] in Em. destruct (initial_value (ad_type d0)) as [v| | |] eqn:Ev; try done. cbn [res_bind] in Em.
    destruct (res_map _ descs) as [vs'| | |] eqn:Evs; try done. cbn in Em. simplify_eq.
    destruct j as [|j]; simpl in Hj; simplify_eq; [exists v; by split_and!|]. by apply (IH vs' j). }
  cbn [res_bind]. clear E0. revert a0 v0 Hv Hc E. generalize 0 as c0. intros c0 a0 v0 Hv Hc E. revert a0 v0 c0 Hv Hc E.
  induction inputs as [|i inputs IH]; intros a0 v0 c0 Hv Hc E.
  { cbn in E. simplify_eq. by eexists _, _. }
  cbn [res_fold] in E. unfold CombineAggregateValues at 1 in E.
  destruct (combine_all descs (aggregates_ a0) (count_ a0) (aggregates_ i)) as [[rs cs]| | |] eqn:Ec; try done.
  cbn [res_bind] in E. destruct (combine_all_at _ _ _ _ _ _ _ _ Ec Hj) as (r & c & x & r' & c' & Hr & Hc' & Hx & E1 & Hr' & Hc1).
  rewrite Hv in Hr. rewrite Hc in Hc'. simplify_eq. unfold column_at, fold_column in *. cbn [omap list_omap]. rewrite Hx. cbn [res_fold fst snd].
  rewrite E1. cbn [res_bind]. by apply (IH {| aggregates_ := rs; count_ := cs |}).
Qed.

(** ** Groups *)

#[export] Instance same_value_decision v w : Decision (same_value v w).
Proof. destruct v, w; simpl; apply _. Defined.

(** A key comes before another: the first column in which they differ decides. *)
Definition key_before (a b : AggregateKey) : Prop := row_le [] a b /\ ~ Forall2 same_value a b.

(** The inputs of the rows that have the values of a key. *)
Definition group_inputs (key : AggregateKey) (rows : list (AggregateKey * AggregateValue)) : list AggregateValue :=
  snd <$> filter (fun r => Forall2 same_value r.1 key) rows.

Lemma rows_of_inputs ks key rows :
  Forall (fun r => plain_key ks r.1) rows -> plain_key ks key -> rows_of key rows = group_inputs key rows.
Proof.
  intros Hrows Hk. unfold rows_of, group_inputs. f_equal. apply filter_ext. intros r Hr. rewrite Forall_forall in Hrows.
  by apply (oc_zero [] ks), Hk; apply Hrows.
Qed.

Lemma below_before ks a b : plain_key ks a -> plain_key ks b -> kc a b < 0 -> key_before a b.
Proof.
  intros Ha Hb Hlt. split; [apply (oc_row_le [] ks); [done|done|lia]|]. intros Hs%(oc_zero [] ks a b Ha Hb). lia.
Qed.

Lemma table_sorted ks ht : table_ok ks ht -> StronglySorted (fun e e' => key_before e.1 e'.1) ht.
Proof.
  intros [Hf Hs]. induction Hs as [|e ht Hs IH Hb]; [constructor|]. apply Forall_cons in Hf as [He Hf].
  constructor; [by apply IH|]. rewrite Forall_forall in Hb, Hf |- *. intros e' Hin.
  apply (below_before ks); [done|by apply Hf|by apply Hb].
Qed.

Lemma group_of_entry ks ht e : table_ok ks ht -> e ∈ ht -> group_of e.1 ht = Some e.2.
Proof.
  induction ht as [|[k v] ht IH]; [by intros _ ?%elem_of_nil|]. intros (Hk & Ht & Hb)%table_ok_cons Hin. cbn [group_of].
  apply elem_of_cons in Hin as [->|Hin].
  - cbn [fst snd]. pose proof (oc_antisym [] ks k k Hk Hk). destruct (Z.eqb_spec (kc k k) 0); [done|lia].
  - rewrite Forall_forall in Hb. specialize (Hb e Hin). destruct (Z.eqb_spec (kc k e.1) 0); [lia|by apply IH].
Qed.

Lemma group_of_found key ht a : group_of key ht = Some a -> exists e, e ∈ ht /\ kc e.1 key = 0.
Proof.
  induction ht as [|[k v] ht IH]; [done|]. cbn [group_of]. destruct (Z.eqb_spec (kc k key) 0) as [E|].
  - intros _. exists (k, v). split; [by left|done].
  - intros H. destruct (IH H) as (e & He & E). exists e. split; [by right|done].
Qed.

(** C23. Grouping, for rows whose keys are strings or integers within 2^30, without nulls and floats, and whose inputs suit
    their aggregates (null, or a number for SUM and AVG, such a value for MAX and MIN): the table that the program
    builds has strictly increasing keys, in the order of the numbers and of the bytes of the texts and by the first column
    that differs; every row finds an entry with the values of its key; and the key of every entry is that of
    a row, with the aggregates of exactly the rows with its values, in their order, each aggregate over its own column. *)
Theorem grouping_correct ks cols rows :
  known cols -> Forall (fun r => plain_key ks r.1 /\ inputs_ok cols r.2) rows ->
  exists ht, insert_all cols.*2 rows [] = Ok ht /\
    StronglySorted (fun e e' => key_before e.1 e'.1) ht /\
    (forall r, r ∈ rows -> exists e, e ∈ ht /\ Forall2 same_value e.1 r.1) /\
    forall e, e ∈ ht -> e.1 ∈ rows.*1 /\
      forall j d, cols.*2 !! j = Some d -> exists v c, aggregates_ e.2 !! j = Some v /\ count_ e.2 !! j = Some c /\
        aggregate_column (ad_type d) (column_at j (group_inputs e.1 rows)) = Ok (v, c).
Proof.
  intros Hk Hrows. pose proof (Forall_impl _ (fun r => plain_key ks r.1) _ Hrows (fun r => @proj1 _ _)) as Hkeys.
  destruct (insert_all_groups ks cols.*2 rows Hkeys) as (ht & E & Hok & Hin & Hg).
  { intros key _. destruct (aggregate_defined cols (rows_of key rows)) as (a & ? & _); [done| |by exists a].
    unfold rows_of. apply Forall_fmap, Forall_forall. intros r [_ Hr]%list_elem_of_filter.
    rewrite Forall_forall in Hrows. by apply Hrows. }
  exists ht. split; [done|]. split; [by apply (table_sorted ks)|]. pose proof Hok as [Hp _]. split.
  - intros r Hr. rewrite Forall_forall in Hkeys, Hp. specialize (Hg r.1 (Hkeys r Hr)). destruct (group_of r.1 ht) as [a|] eqn:Ea.
    + apply group_of_found in Ea as (e & He & E0). exists e. split; [done|]. by apply (oc_zero [] ks); [apply Hp|apply Hkeys|].
    + apply (f_equal length) in Hg. unfold rows_of in Hg. rewrite length_fmap in Hg. apply nil_length_inv in Hg.
      assert (r ∈ filter (fun q => kc q.1 r.1 = 0) rows) as Hq; [|rewrite Hg in Hq; by apply elem_of_nil in Hq].
      apply list_elem_of_filter. split; [|done]. pose proof (oc_antisym [] ks r.1 r.1 (Hkeys r Hr) (Hkeys r Hr)). lia.
  - intros e He. rewrite Forall_forall in Hin. split; [by apply Hin|]. rewrite Forall_forall in Hp.
    specialize (Hg e.1 (Hp e He)). rewrite (group_of_entry ks ht e Hok He), (rows_of_inputs ks) in Hg by (done || by apply Hp).
    destruct Hg as [_ Hg]. intros j d Hj. by apply (aggregate_columns cols.*2).
Qed.

Definition demo_count : AggreDesc :=
  {| ad_type := COUNTS; ad_is_attr := 0; ad_relation_name := None; ad_attr_name := Some "*"%string; ad_is_star := 1;
     ad_value := float_of_int 1 |}.

Definition demo_rows : list (AggregateKey * AggregateValue) :=
  [([IntValue 5], {| aggregates_ := [FloatValue (float_of_int 1)]; count_ := [1] |});
   ([IntValue 3], {| aggregates_ := [FloatValue (float_of_int 1)]; count_ := [1] |});
   ([IntValue 5], {| aggregates_ := [FloatValue (float_of_int 1)]; count_ := [1] |})].

Lemma grouping_correct_witness :
  exists ht, insert_all [demo_count] demo_rows [] = Ok ht /\
    StronglySorted (fun e e' => key_before e.1 e'.1) ht /\
    exists e v c, e ∈ ht /\ Forall2 same_value e.1 [IntValue 5] /\ aggregates_ e.2 !! 0%nat = Some v /\ count_ e.2 !! 0%nat = Some c /\
      aggregate_column COUNTS (column_at 0 (group_inputs e.1 demo_rows)) = Ok (v, c).
Proof.
  destruct (grouping_correct [false] [(false, demo_count)] demo_rows) as (ht & E & Hs & Hr & He).
  - by repeat constructor.
  - repeat (apply Forall_cons_2; [split; [repeat constructor; lia|]|]); [..|apply Forall_nil_2];
      (constructor; [by right|constructor]).
  - exists ht. split; [exact E|]. split; [exact Hs|].
    destruct (Hr ([IntValue 5], {| aggregates_ := [FloatValue (float_of_int 1)]; count_ := [1] |})) as (e & Hin & Hv); [by left|].
    destruct (He e Hin) as [_ Ha]. destruct (Ha 0%nat demo_count eq_refl) as (v & c & Hv1 & Hc & Hagg).
    exists e, v, c. split_and!; [exact Hin|exact Hv|exact Hv1|exact Hc|exact Hagg].
Defined.

(** ** The rows of the node *)

(** The key of a tuple and the inputs of its aggregates, for a map of positions. *)
Definition key_of_tuple (m : FieldIndex) (group_bys : list TupleField) (tuple : Tuple) : res AggregateKey :=
  res_map (fun f => column_value m (tf_table_name f) (tf_field_name f) tuple) group_bys.

Definition input_of (m : FieldIndex) (table : option string) (d : AggreDesc) (tuple : Tuple) : res TupleValue :=
  if negb (ad_is_attr d =? 0) then
    let? table_name := non_null (match ad_relation_name d with None => table | t => t end) in
    let? attr_name := non_null (ad_attr_name d) in
    column_value m table_name attr_name tuple
  else Ok (FloatValue (ad_value d)).

Definition row_of (m : FieldIndex) (table : option string) (group_bys : list TupleField) (descs : list AggreDesc)
    (tuple : Tuple) (r : AggregateKey * AggregateValue) : Prop :=
  key_of_tuple m group_bys tuple = Ok r.1 /\
  res_map (fun d => input_of m table d tuple) descs = Ok (aggregates_ r.2) /\ count_ r.2 = (fun _ => 1) <$> descs.

(** A schema whose map of positions is [m], before or after its first use. *)
Definition has_index (m : FieldIndex) (s : TupleSchema) : Prop :=
  fresh_schema s /\ m = index_fields 0 (fields_ s) ∅ \/
  exists s0, fresh_schema s0 /\ m = index_fields 0 (fields_ s0) ∅ /\ s = set_index m s0.

Lemma has_index_run m s : has_index m s -> exists s', table_field_index s = (Ok m, s') /\ has_index m s'.
Proof.
  intros [[Hs ->]|(s0 & Hs & -> & ->)].
  - rewrite table_field_index_fresh by done. eexists. split; [done|]. right. by eexists.
  - eexists. unfold table_field_index. cbn [table_field_index_ set_index fields_ agg_descs_].
    destruct (bool_decide (index_fields 0 (fields_ s0) ∅ = ∅)) eqn:E; cbn [negb].
    + destruct Hs as [Hc Ha Hn]. rewrite Ha, orb_true_r. cbn [negb is_nil index_aggs]. split; [reflexivity|]. right. by exists s0.
    + split; [done|]. right. by exists s0.
Qed.

Lemma bind_of_res {S A B} (r : res A) (k : A -> M S B) (s : S) a : r = Ok a -> bind (of_res r) k s = k a s.
Proof. by intros ->. Qed.

Lemma MakeKey_run m group_bys tuple k s :
  has_index m s -> key_of_tuple m group_bys tuple = Ok k -> exists s', MakeKey group_bys tuple s = (Ok k, s') /\ has_index m s'.
Proof.
  revert k s. induction group_bys as [|f group_bys IH]; intros k s Hs E; unfold key_of_tuple in *; cbn [res_map MakeKey] in *.
  { simplify_eq. by exists s. }
  destruct (has_index_run m s Hs) as (s1 & E1 & Hs1). rewrite (bind_run _ _ _ _ _ E1).
  destruct (column_value m _ _ tuple) as [v| | |] eqn:Ev; try done. cbn [res_bind] in E.
  destruct (res_map _ group_bys) as [vs| | |] eqn:Evs; try done. cbn [res_bind] in E. simplify_eq.
  rewrite (bind_of_res _ _ _ v eq_refl). destruct (IH vs s1 Hs1 eq_refl) as (s2 & E2 & Hs2).
  rewrite (bind_run _ _ _ _ _ E2). by exists s2.
Qed.

Lemma make_values_run m table descs tuple vs s :
  has_index m s -> res_map (fun d => input_of m table d tuple) descs = Ok vs ->
  exists s', make_values table descs tuple s = (Ok vs, s') /\ has_index m s'.
Proof.
  revert vs s. induction descs as [|d descs IH]; intros vs s Hs E; cbn [res_map make_values] in *.
  { simplify_eq. by exists s. }
  destruct (input_of m table d tuple) as [v| | |] eqn:Ev; try done. cbn [res_bind] in E.
  destruct (res_map _ descs) as [vs'| | |] eqn:Evs; try done. cbn [res_bind] in E. simplify_eq. unfold input_of in Ev.
  assert (exists s1, (if negb (ad_is_attr d =? 0) then
      let! m := table_field_index in
      let! table_name := of_res (non_null (match ad_relation_name d with None => table | t => t end)) in
      let! attr_name := of_res (non_null (ad_attr_name d)) in
      of_res (column_value m table_name attr_name tuple)
    else ret (FloatValue (ad_value d))) s = (Ok v, s1) /\ has_index m s1) as (s1 & E1 & Hs1).
  { destruct (negb (ad_is_attr d =? 0)); [|simplify_eq; by exists s].
    destruct (has_index_run m s Hs) as (s1 & E1 & Hs1). exists s1. split; [|done]. rewrite (bind_run _ _ _ _ _ E1).
    destruct (non_null (match ad_relation_name d with None => table | t => t end)) as [t| | |]; try done. cbn [res_bind] in Ev.
    rewrite (bind_of_res _ _ _ t eq_refl). destruct (non_null (ad_attr_name d)) as [n| | |]; try done. cbn [res_bind] in Ev.
    rewrite (bind_of_res _ _ _ n eq_refl). unfold of_res. by rewrite Ev. }
  rewrite (bind_run _ _ _ _ _ E1). destruct (IH vs' s1 Hs1 eq_refl) as (s2 & E2 & Hs2).
  rewrite (bind_run _ _ _ _ _ E2). by exists s2.
Qed.

Lemma aggregate_tuples_run m table group_bys descs tuples rows ht ht' s :
  has_index m s -> Forall2 (row_of m table group_bys descs) tuples rows -> insert_all descs rows ht = Ok ht' ->
  exists s', aggregate_tuples table group_bys descs tuples ht s = (Ok ht', s').
Proof.
  intros Hs H. revert ht s Hs. induction H as [|tuple r tuples rows (Hk & Hv & Hc) H IH]; intros ht s Hs E.
  { unfold insert_all in E. cbn in E. simplify_eq. by exists s. }
  unfold insert_all in E. cbn [res_fold] in E. destruct (InsertCombine descs r.1 r.2 ht) as [ht1| | |] eqn:E1; try done.
  cbn [aggregate_tuples]. destruct (MakeKey_run m group_bys tuple r.1 s Hs Hk) as (s1 & Ek & Hs1).
  rewrite (bind_run _ _ _ _ _ Ek). destruct (make_values_run m table descs tuple _ s1 Hs1 Hv) as (s2 & Ev & Hs2).
  assert (MakeVal table descs tuple s1 = (Ok r.2, s2)) as Em.
  { unfold MakeVal. rewrite (bind_run _ _ _ _ _ Ev), <- Hc. by destruct r as [? []]. }
  rewrite (bind_run _ _ _ _ _ Em), (bind_of_res _ _ _ ht1 E1). by apply IH.
Qed.
