(* ===== verification/ExecNodes.v ===== *)
(** * Execution nodes (sql/executor/execution_node.h, .cpp, exp_execution_node.cpp, util.h)

    The nodes of a plan: the scan of a table that turns records into tuples, the product of
    several tables with the conditions between them, sorting, and the output with expressions.
    A scan runs on the tables ([DBM]); the other nodes work on tuples in memory ([res]). *)
From Stdlib Require Import String Floats.SpecFloat.
From S2P Require Import Prelude ReturnCode Effects Bitmap Memory Replacer OsFile BufferPool.
From S2P Require Import RecordPage RecordFile KeyCompare BTreeNode BTree BTreeScan Dates TableMeta.
From S2P Require Import ConditionFilter Trx Index Table TableScan Values Expression Tuples TupleFilter Aggregation.

(** ** Scans *)

Section scan.
Context {R W : Type} `{Replacer R} `{OS W} `{HashOrder}.
Variable fuel : nat.

Abbreviation DBM := (M (TS (DB R W))).

(** The memory from a pointer to a record on. *)
Definition bytes_at (p : option (Z * Z)) : DBM (list Z) := record_bytes {| rec_rid := inhabitant; rec_data := p |}.

(** The memory of a field. *)
Definition field_bytes (p : option (Z * Z)) (f : FieldMeta) (len : Z) : DBM (list Z) :=
  let! record := bytes_at p in
  undefined_if (negb ((0 <=? fm_offset f) && (fm_offset f + len <=? alen record))) ;;
  ret (drop (Z.to_nat (fm_offset f)) record).

(** [strlen] on a memory. *)
Definition c_string (m : list Z) : DBM (list Z) := match cstr m with None => undefined | Some s => ret s end.

Definition text_buffer : nat := 4097.

(** The buffer holds the part of the text in the record and the part in its page. *)
Definition tuple_add_text_field (t : Z) (tuple : Tuple) (p : option (Z * Z)) (f : FieldMeta) : DBM Tuple :=
  let! m := field_bytes p f (PAGENUMSIZE + TEXTPATCHSIZE) in
  let! rest := read_text_record t (rd32 m 0) in
  let s := load m PAGENUMSIZE TEXTPATCHSIZE ++ rest in
  let! s := c_string (s ++ replicate (text_buffer - length s) 0) in
  ret (add_value (new_StringValue s) tuple).

(** One round of the loop over the fields of the schema. *)
Definition add_field (t : Z) (m : TableMeta) (p : option (Z * Z)) (field : TupleField) (tuple : Tuple) : DBM Tuple :=
  match field_named m (Some (tf_field_name field)) with
  | None => undefined
  | Some f =>
      let! record := bytes_at p in
      let! null := null_bit record (field_index m (Some (tf_field_name field))) in
      if null then ret (add_value NullValue tuple)
      else match fm_type f with
      | INTS => let! b := field_bytes p f 4 in ret (add_value (IntValue (rd32 b 0)) tuple)
      | FLOATS => let! b := field_bytes p f 4 in ret (add_value (FloatValue (float_at b)) tuple)
      | CHARS | DATES => let! b := field_bytes p f 0 in let! s := c_string b in ret (add_value (new_StringValue s) tuple)
      | TEXTS => tuple_add_text_field t tuple p f
      | UNDEFINED => ret tuple
      end
  end.

Fixpoint add_record_fields (t : Z) (m : TableMeta) (p : option (Z * Z)) (fields : list TupleField) (tuple : Tuple) : DBM Tuple :=
  match fields with
  | [] => ret tuple
  | f :: rest => let! tuple := add_field t m p f tuple in add_record_fields t m p rest tuple
  end.

(** [TupleRecordConverter::add_record]. *)
Definition add_record (t : Z) (tuple_set : TupleSet) (p : option (Z * Z)) : DBM TupleSet :=
  let! x := this t in
  let! tuple := add_record_fields t (table_meta_ x) p (fields_ (schema_ tuple_set)) [] in
  ret (add_tuple tuple tuple_set).

(** SelectExeNode; the transaction is that of the session. *)
Record SelectExeNode := { se_table : Z; se_schema : TupleSchema; se_filters : CompositeConditionFilter }.

Definition select_execute (n : SelectExeNode) (tuple_set : TupleSet) : DBM (RC * TupleSet) :=
  let tuple_set := set_schema (se_schema n) (set_clear tuple_set) in
  scan_bytes fuel (se_table n) true (CompositeFilter (se_filters n)) (-1) tuple_set (add_record (se_table n)).

End scan.

(** ** Products *)

Record cartesianExeNode := {
  ca_sets : list TupleSet; ca_filter : CompositeCartesianFilter; ca_schema : TupleSchema }.

(** The round of the loop for one combination of tuples. *)
Definition cartesian_body (f : CompositeCartesianFilter) (tuples : list Tuple) (tuple_set : TupleSet) : res TupleSet :=
  (let tmp_tuple := concat tuples in
   let? pass := composite_cartesian_filter f tmp_tuple in
   Ok (if pass then add_tuple tmp_tuple tuple_set else tuple_set))%C.

Definition cartesian_execute (fuel : nat) (n : cartesianExeNode) (tuple_set : TupleSet) : res TupleSet :=
  descartes_for fuel (ca_sets n) (DescartesIterator_create (ca_sets n)) (cartesian_body (ca_filter n))
    (set_schema (ca_schema n) tuple_set).

(** ** Sorting *)

(** [std::sort]: with a comparison that is defined and a strict weak order on the elements, the result
    is an ordered permutation; otherwise nothing is known. *)
Class StdSort := { std_sort : forall {A}, (A -> A -> res bool) -> list A -> res (list A) }.

Definition strict_weak_order {A} (lt : A -> A -> bool) (l : list A) : Prop :=
  (forall x, x ∈ l -> lt x x = false) /\
  (forall x y z, x ∈ l -> y ∈ l -> z ∈ l -> lt x y = true -> lt y z = true -> lt x z = true) /\
  (forall x y z, x ∈ l -> y ∈ l -> z ∈ l -> lt x y = false -> lt y z = false -> lt x z = false).

Class StdSortLaws `{StdSort} : Prop :=
  std_sort_sorts : forall A (cmp : A -> A -> res bool) lt l,
    (forall x y, x ∈ l -> y ∈ l -> cmp x y = Ok (lt x y)) -> strict_weak_order lt l ->
    exists l', std_sort cmp l = Ok l' /\ l' ≡ₚ l /\ StronglySorted (fun x y => lt y x = false) l'.

(** [TupleSortUtil::cmp]; an order other than 0 is descending. *)
Fixpoint sort_cmp (field_index : FieldIndex) (fields : list TupleField) (l r : Tuple) : res bool :=
  match fields with
  | [] => Ok false
  | f :: rest =>
      let? columns := map_at field_index (tf_table_name f) in
      let? index := map_at columns (tf_field_name f) in
      let? x := get_pointer l index in
      let? y := get_pointer r index in
      let? ret := compare x y in
      if negb (ret =? 0) then Ok (if tf_order f =? 0 then ret <? 0 else 0 <? ret)
      else sort_cmp field_index rest l r
  end%C.

Record OrderByExeNode := { ob_schema : TupleSchema; ob_field_index : FieldIndex }.

Definition order_by_execute `{StdSort} (n : OrderByExeNode) (tuple_set : TupleSet) : res TupleSet :=
  (let? tuples := std_sort (sort_cmp (ob_field_index n) (fields_ (ob_schema n))) (tuples_ tuple_set) in
   Ok {| tuples_ := tuples; schema_ := schema_ tuple_set |})%C.

(** ** Output *)

Record OutputExeNode := { ou_schema : TupleSchema; ou_tuple_set : TupleSet }.

Definition OutputExeNode_create : OutputExeNode := {| ou_schema := TupleSchema_create; ou_tuple_set := TupleSet_create |}.

(** The columns of the schema in a tuple. *)
Fixpoint output_fields (field_index : FieldIndex) (fields : list TupleField) (tuple output : Tuple) : res Tuple :=
  match fields with
  | [] => Ok output
  | f :: rest =>
      let? columns := map_at field_index (tf_table_name f) in
      let? index := map_at columns (tf_field_name f) in
      let? v := get_pointer tuple index in
      output_fields field_index rest tuple (add_value v output)
  end%C.

Definition output_execute (field_index : FieldIndex) (n : OutputExeNode) (output : TupleSet) : res TupleSet :=
  res_fold (fun tuple out => (let? o := output_fields field_index (fields_ (ou_schema n)) tuple [] in Ok (add_tuple o out))%C)
    (tuples_ (ou_tuple_set n)) (set_schema (ou_schema n) output).

Record ExpExeNode := {
  ex_schema : TupleSchema; ex_filter : CompositeExpressionFilter; ex_tuple_set : TupleSet; ex_field_index : FieldIndex }.

(** The expressions of the schema on a tuple; [Calculate] may not fail. *)
Fixpoint output_exps (field_index : FieldIndex) (exps : list ast) (tuple output : Tuple) : res Tuple :=
  match exps with
  | [] => Ok output
  | a :: rest =>
      match Calculate tuple field_index a with
      | Ok v => output_exps field_index rest tuple (add_value v output)
      | Err _ | Ub => Ub
      | OutOfFuel => OutOfFuel
      end
  end.

Definition exp_row (n : ExpExeNode) (tuple : Tuple) (out : TupleSet) : res TupleSet :=
  (let? pass := composite_expression_filter (ex_filter n) tuple in
   if pass then
     let? o := output_fields (ex_field_index n) (fields_ (ex_schema n)) tuple [] in
     let? o := output_exps (ex_field_index n) (exps_ (ex_schema n)) tuple o in
     Ok (add_tuple o out)
   else Ok out)%C.

Definition exp_execute (n : ExpExeNode) (output : TupleSet) : res TupleSet :=
  res_fold (exp_row n) (tuples_ (ex_tuple_set n)) (set_schema (ex_schema n) (set_clear output)).
