(* ===== verification/Syntax.v ===== *)
(** * Statements (sql/parser/parse_defs.h, parse.cpp)

    The structures that the parser fills in and the functions with which it does: arrays of [MAX_NUM]
    entries with a counter are lists, and a write behind the last entry is undefined.  The parser
    that calls these functions is in Parser.v; the functions that free the structures are not modelled. *)
From Stdlib Require Import String Floats.SpecFloat.
From S2P Require Import Prelude ReturnCode Effects Bitmap Memory KeyCompare Dates TableMeta ConditionFilter Table.
From S2P Require Import Values Expression Tuples.

Definition MAX_NUM : Z := 20.

(** ** Structures *)

Inductive JoinType := INNER_JOIN | OUTER_JOIN | LEFT_JOIN | RIGHT_JOIN.

Record Aggregate := { ag_type : AggreType; ag_is_attr : Z; ag_value : Value; ag_attr : RelAttr }.

Record OrderBy := { or_attribute : RelAttr; or_order : Z }.

(** [Selects], a condition with its expressions and sub-queries, and [Join].  The flag [left_is_select]
    is set exactly when [left_selects] is. *)
Inductive Selects := MkSelects {
  aggregates : list Aggregate; attributes : list RelAttr; attributes_exp : list ast; relations : list string;
  joins : list Join; conditions : list SqlCondition; order_by : list OrderBy; group_bys : list RelAttr }
with SqlCondition := MkCondition {
  plain_condition : Condition; left_ast : ast; right_ast : ast;
  left_selects : option Selects; right_selects : option Selects }
with Join := MkJoin { join_type : JoinType; join_table : string; join_conditions : list SqlCondition }.

Definition empty_selects : Selects :=
  {| aggregates := []; attributes := []; attributes_exp := []; relations := []; joins := []; conditions := [];
     order_by := []; group_bys := [] |}.

Record Inserts := { in_relation : string; in_pairs : list (list Value) }.
Record Deletes := { de_relation : string; de_conditions : list SqlCondition }.
Record Updates := { up_relation : string; up_attribute : string; up_value : Value; up_conditions : list SqlCondition }.
Record CreateTable := { ct_relation : string; ct_attributes : list AttrInfo }.
Record CreateIndex := { ci_index : string; ci_unique : Z; ci_relation : string; ci_attributes : list string }.
Record LoadData := { ld_relation : string; ld_file : list Z }.

Inductive Query :=
| SCF_ERROR
| SCF_SELECT (selection : Selects)
| SCF_INSERT (insertion : Inserts)
| SCF_UPDATE (update : Updates)
| SCF_DELETE (deletion : Deletes)
| SCF_CREATE_TABLE (create_table : CreateTable)
| SCF_DROP_TABLE (relation_name : string)
| SCF_CREATE_INDEX (create_index : CreateIndex)
| SCF_DROP_INDEX (index_name : string)
| SCF_SYNC
| SCF_SHOW_TABLES
| SCF_DESC_TABLE (relation_name : string)
| SCF_BEGIN
| SCF_COMMIT
| SCF_ROLLBACK
| SCF_LOAD_DATA (load_data : LoadData)
| SCF_HELP
| SCF_EXIT.

(** ** Values *)

Definition value_init_null : Value := {| v_type := UNDEFINED; v_isnull := true; v_data := [] |}.
Definition value_init_integer (v : Z) : Value := {| v_type := INTS; v_isnull := false; v_data := le32 v |}.
Definition value_init_float (v : float) : Value :=
  {| v_type := FLOATS; v_isnull := false; v_data := le32 (bits_of_float v) |}.
Definition value_init_string (v : list Z) : res Value :=
  (let? s := non_null (cstr v) in Ok {| v_type := CHARS; v_isnull := false; v_data := s ++ [0] |})%C.

(** The negation of a number in place. *)
Definition negate_value (v : Value) : res Value :=
  if alen (v_data v) <? 4 then Ub
  else match v_type v with
  | INTS => Ok (value_with INTS (wr32 (v_data v) 0 (int32 (- rd32 (v_data v) 0))) v)
  | FLOATS => Ok (value_with FLOATS (wr32 (v_data v) 0 (int32 (bits_of_float (SFopp (float_at (v_data v)))))) v)
  | _ => Ub
  end.

(** A constant of a statement, possibly with a sign; the left operand of a difference is not looked at. *)
Definition context_value_init (a : ast) : res Value :=
  match a with
  | ValNode _ _ v => Ok v
  | OpNode SUBN _ _ _ (ValNode _ _ v) => negate_value v
  | _ => Ub
  end.

(** ** Expressions *)

Definition newast (nodetype : BinaryNode) (l r : ast) : ast := OpNode nodetype 0 0 l r.
Definition newvalNode (val : Value) : ast := ValNode 0 0 val.
Definition newattrNode (attr : RelAttr) : ast := AttrNode 0 0 attr.

Definition relation_attr_init (relation_name : option string) (attribute_name : string) : RelAttr :=
  {| relation_name := relation_name; attribute_name := Some attribute_name |}.

(** ** Conditions *)

(** What one side becomes: [is_attr], the value, the attribute, the expression and the sub-query.  The
    members that are not set keep what they are in the memory of the caller. *)
Definition init_side (side : ast) (selects : option Selects) (value : Value) (attr : RelAttr)
    : res (Z * Value * RelAttr * ast * option Selects) :=
  let value := {| v_type := v_type value; v_isnull := v_isnull value; v_data := [] |} in
  match selects with
  | Some s => Ok (0, value, attr, NullAst, Some s)
  | None =>
      match side with
      | NullAst => Ub
      | AttrNode _ _ a => Ok (1, value, a, NullAst, None)
      | ValNode _ _ v => Ok (0, v, attr, NullAst, None)
      | OpNode _ _ _ _ _ => Ok (0, value, attr, side, None)
      end
  end.

Definition sql_condition_init (old : Condition) (op : CompOp) (left right : ast) (lselects rselects : option Selects)
    : res SqlCondition :=
  (let? l := init_side left lselects (left_value old) (left_attr old) in
   let? r := init_side right rselects (right_value old) (right_attr old) in
   let '(l_is_attr, l_value, l_attr, l_ast, l_selects) := l in
   let '(r_is_attr, r_value, r_attr, r_ast, r_selects) := r in
   Ok {| plain_condition := {| left_is_attr := l_is_attr; left_value := l_value; left_attr := l_attr; comp := op;
                               right_is_attr := r_is_attr; right_value := r_value; right_attr := r_attr |};
         left_ast := l_ast; right_ast := r_ast; left_selects := l_selects; right_selects := r_selects |})%C.

(** ** Aggregates *)

Definition relation_aggre_init (old : Aggregate) (t : AggreType) (is_attr : Z) (relation_name : option string)
    (attribute_name : string) (v : Value) : Aggregate :=
  if is_attr =? 1 then
    {| ag_type := t; ag_is_attr := is_attr; ag_value := ag_value old; ag_attr := relation_attr_init relation_name attribute_name |}
  else {| ag_type := t; ag_is_attr := is_attr; ag_value := v; ag_attr := ag_attr old |}.

(** A negative constant is read from the wrong kind of node; other expressions leave the value and the
    attribute as they were. *)
Definition relation_aggre_init_with_exp (old : Aggregate) (t : AggreType) (a : ast) : res Aggregate :=
  match a with
  | NullAst => Ub
  | OpNode SUBN _ _ _ _ => Ub
  | ValNode _ _ v => Ok {| ag_type := t; ag_is_attr := 0; ag_value := v; ag_attr := ag_attr old |}
  | AttrNode _ _ attr => Ok {| ag_type := t; ag_is_attr := 1; ag_value := ag_value old; ag_attr := attr |}
  | OpNode _ _ _ _ _ => Ok {| ag_type := t; ag_is_attr := 0; ag_value := ag_value old; ag_attr := ag_attr old |}
  end.

(** ** SELECT *)

(** [array[num++] = x]. *)
Definition array_push {A} (l : list A) (x : A) : res (list A) := if alen l <? MAX_NUM then Ok (l ++ [x]) else Ub.

(** The expressions of the columns stay: their counter is not reset. *)
Definition clear_selects (s : Selects) : Selects :=
  {| aggregates := []; attributes := []; attributes_exp := attributes_exp s; relations := []; joins := []; conditions := [];
     order_by := []; group_bys := [] |}.

Definition selects_append_attribute (s : Selects) (attr : RelAttr) : res Selects :=
  (let? l := array_push (attributes s) attr in
   Ok {| aggregates := aggregates s; attributes := l; attributes_exp := attributes_exp s; relations := relations s;
         joins := joins s; conditions := conditions s; order_by := order_by s; group_bys := group_bys s |})%C.

Definition selects_append_attribute_expression (s : Selects) (a : ast) : res Selects :=
  match a with
  | NullAst => Ub
  | AttrNode _ _ attr => selects_append_attribute s attr
  | _ =>
      let? l := array_push (attributes_exp s) a in
      Ok {| aggregates := aggregates s; attributes := attributes s; attributes_exp := l; relations := relations s;
            joins := joins s; conditions := conditions s; order_by := order_by s; group_bys := group_bys s |}
  end%C.

Definition selects_append_aggregate (s : Selects) (a : Aggregate) : res Selects :=
  (let? l := array_push (aggregates s) a in
   Ok {| aggregates := l; attributes := attributes s; attributes_exp := attributes_exp s; relations := relations s;
         joins := joins s; conditions := conditions s; order_by := order_by s; group_bys := group_bys s |})%C.

Definition selects_append_relation (s : Selects) (relation_name : string) : res Selects :=
  (let? l := array_push (relations s) relation_name in
   Ok {| aggregates := aggregates s; attributes := attributes s; attributes_exp := attributes_exp s; relations := l;
         joins := joins s; conditions := conditions s; order_by := order_by s; group_bys := group_bys s |})%C.

Definition selects_append_conditions (s : Selects) (l : list SqlCondition) : res Selects :=
  (let? _ := asserting (alen l <=? MAX_NUM) in
   Ok {| aggregates := aggregates s; attributes := attributes s; attributes_exp := attributes_exp s; relations := relations s;
         joins := joins s; conditions := l; order_by := order_by s; group_bys := group_bys s |})%C.

Definition selects_append_order (s : Selects) (attr : RelAttr) (order : Z) : res Selects :=
  (let? l := array_push (order_by s) {| or_attribute := attr; or_order := order |} in
   Ok {| aggregates := aggregates s; attributes := attributes s; attributes_exp := attributes_exp s; relations := relations s;
         joins := joins s; conditions := conditions s; order_by := l; group_bys := group_bys s |})%C.

Definition selects_append_group (s : Selects) (attr : RelAttr) : res Selects :=
  (let? l := array_push (group_bys s) attr in
   Ok {| aggregates := aggregates s; attributes := attributes s; attributes_exp := attributes_exp s; relations := relations s;
         joins := joins s; conditions := conditions s; order_by := order_by s; group_bys := l |})%C.

Definition join_init (join_type : JoinType) (relation_name : string) (l : list SqlCondition) : res Join :=
  if MAX_NUM <? alen l then Ub else Ok {| join_type := join_type; join_table := relation_name; join_conditions := l |}.

Fixpoint push_joins (l : list Join) (new : list Join) : res (list Join) :=
  match new with [] => Ok l | j :: rest => let? l := array_push l j in push_joins l rest end%C.

Definition selects_append_joins (s : Selects) (new : list Join) : res Selects :=
  (let? l := push_joins (joins s) new in
   Ok {| aggregates := aggregates s; attributes := attributes s; attributes_exp := attributes_exp s; relations := relations s;
         joins := l; conditions := conditions s; order_by := order_by s; group_bys := group_bys s |})%C.

(** ** The other statements *)

(** The values of row [pair_num], which is at most the counter.  The counter also grows when a row is written again, by a second
    statement in one text, and so counts a row that was never written. *)
Definition inserts_append_values (x : Inserts) (pair_num : Z) (values : list Value) : res Inserts :=
  (let? _ := asserting (pair_num <? MAX_NUM) in
   let? _ := asserting (alen values <? MAX_NUM) in
   let? _ := asserting (alen (in_pairs x) <? MAX_NUM) in
   Ok {| in_relation := in_relation x;
         in_pairs := if pair_num <? alen (in_pairs x) then aset (in_pairs x) pair_num values ++ [[]]
                     else in_pairs x ++ [values] |})%C.

Definition inserts_init (x : Inserts) (relation_name : string) : Inserts :=
  {| in_relation := relation_name; in_pairs := in_pairs x |}.

Definition deletes_set_conditions (x : Deletes) (l : list SqlCondition) : res Deletes :=
  (let? _ := asserting (alen l <=? MAX_NUM) in Ok {| de_relation := de_relation x; de_conditions := l |})%C.

Definition updates_init (relation_name attribute_name : string) (v : Value) (l : list SqlCondition) : res Updates :=
  (let? _ := asserting (alen l <=? MAX_NUM) in
   Ok {| up_relation := relation_name; up_attribute := attribute_name; up_value := v; up_conditions := l |})%C.

Definition DATESSIZE : Z := 12.
Definition TEXTSIZE : Z := 32.

Definition attr_info_init (name : string) (type : AttrType) (length : Z) (nullable : Z) : AttrInfo :=
  {| ai_name := Some name; ai_type := type;
     ai_length := match type with DATES => DATESSIZE | TEXTS => TEXTSIZE | _ => length end;
     ai_nullable := nullable |}.

Definition create_table_append_attribute (x : CreateTable) (a : AttrInfo) : res CreateTable :=
  (let? l := array_push (ct_attributes x) a in Ok {| ct_relation := ct_relation x; ct_attributes := l |})%C.

Definition create_index_init (x : CreateIndex) (unique : Z) (index_name relation_name : string) : CreateIndex :=
  {| ci_index := index_name; ci_unique := unique; ci_relation := relation_name; ci_attributes := ci_attributes x |}.

Definition create_index_append_attribute (x : CreateIndex) (attr_name : string) : res CreateIndex :=
  (let? l := array_push (ci_attributes x) attr_name in
   Ok {| ci_index := ci_index x; ci_unique := ci_unique x; ci_relation := ci_relation x; ci_attributes := l |})%C.

Definition is_quote (b : Z) : bool := (b =? 39) || (b =? 34).

(** The quotation marks around the name of the file are dropped; an empty name is read before its start. *)
Definition load_data_init (relation_name : string) (file_name : list Z) : res LoadData :=
  let file_name := match file_name with b :: rest => if is_quote b then rest else file_name | [] => [] end in
  match reverse file_name with
  | [] => Ub
  | b :: rest => Ok {| ld_relation := relation_name; ld_file := if is_quote b then reverse rest else file_name |}
  end.
