(* ===== verification/Select.v ===== *)
(** * SELECT (sql/executor/execute_stage.cpp, exp_execution_node.cpp)

    The functions that build the nodes of a plan from a statement, and [do_select], which runs them: the
    scans of all tables, their product, then aggregation, or sorting and output.  [ES] is the state of the
    server for one session: the session, the response to the client, and the catalog with its tables.
    Statements with joins or sub-queries take another path ([do_select_v2]), which is not modelled. *)
From Stdlib Require Import String Ascii Floats.SpecFloat.
From S2P Require Import Prelude ReturnCode Effects Bitmap Memory Replacer OsFile BufferPool.
From S2P Require Import RecordPage RecordFile KeyCompare BTreeNode BTree BTreeScan Dates TableMeta.
From S2P Require Import ConditionFilter Trx Index Table TableScan Db.
From S2P Require Import Values Expression Tuples TupleFilter Aggregation ExecNodes Syntax.

(** ** Conditions of one table *)

Definition match_table (s : Selects) (table_name_in_condition : option string) (table_name_to_match : string) : bool :=
  match table_name_in_condition with
  | Some t => String.eqb t table_name_to_match
  | None => alen (relations s) =? 1
  end.

Definition has_ast (c : SqlCondition) : bool :=
  match left_ast c, right_ast c with NullAst, NullAst => false | _, _ => true end.

(** The condition involves no other table. *)
Definition applies (s : Selects) (table_name : string) (c : Condition) : bool :=
  let l := match_table s (relation_name (left_attr c)) table_name in
  let r := match_table s (relation_name (right_attr c)) table_name in
  ((left_is_attr c =? 0) && (right_is_attr c =? 0)) || ((left_is_attr c =? 1) && (right_is_attr c =? 0) && l) ||
  ((left_is_attr c =? 0) && (right_is_attr c =? 1) && r) || ((left_is_attr c =? 1) && (right_is_attr c =? 1) && l && r).

Definition with_plain (p : Condition) (c : SqlCondition) : SqlCondition :=
  {| plain_condition := p; left_ast := left_ast c; right_ast := right_ast c;
     left_selects := left_selects c; right_selects := right_selects c |}.

(** The filters of a table; the memory of the conditions is changed, as dates are formatted in place. *)
Fixpoint selection_filters (s : Selects) (table_name : string) (m : TableMeta) (junk : nat -> ConDesc * ConDesc) (i : nat)
    (l : list SqlCondition) : res CompositeConditionFilter * list SqlCondition :=
  match l with
  | [] => (Ok [], [])
  | c :: rest =>
      if has_ast c || negb (applies s table_name (plain_condition c)) then
        let '(r, rest') := selection_filters s table_name m junk (S i) rest in (r, c :: rest')
      else
        match condition_init m (junk i).1 (junk i).2 (plain_condition c) with
        | (Ok f, p) =>
            let '(r, rest') := selection_filters s table_name m junk (S i) rest in
            (res_bind r (fun fs => Ok (f :: fs)), with_plain p c :: rest')
        | (Err rc, p) => (Err rc, with_plain p c :: rest)
        | (Ub, p) => (Ub, with_plain p c :: rest)
        | (OutOfFuel, p) => (OutOfFuel, with_plain p c :: rest)
        end
  end.

(** [schema_add_field] of the stage, which reports a missing field. *)
Definition select_add_field (m : TableMeta) (field_name : option string) (order : Z) (schema : TupleSchema) : res TupleSchema :=
  match field_named m field_name with
  | None => Err SCHEMA_FIELD_MISSING
  | Some f => Ok (add_if_not_exists (fm_type f) (tm_name m) (fm_name f) order schema)
  end.

(** A column of a condition. *)
Definition cartesian_column (field_index : FieldIndex) (table_name : option string) (attr : RelAttr) : res Z :=
  (let? t := non_null table_name in
   let? columns := map_at field_index t in
   let? a := non_null (attribute_name attr) in
   map_at columns a)%C.

(** ** Conditions between tables *)

Fixpoint cartesian_filters (field_index : FieldIndex) (l : list SqlCondition) : res CompositeCartesianFilter :=
  match l with
  | [] => Ok []
  | c :: rest =>
      let p := plain_condition c in
      if (left_is_attr p =? 1) && (right_is_attr p =? 1) then
        let? li := cartesian_column field_index (relation_name (left_attr p)) (left_attr p) in
        let? ri := cartesian_column field_index (relation_name (right_attr p)) (right_attr p) in
        let cond i := {| cc_value_index := i; cc_exp_ast := NullAst; cc_is_attr := 0; cc_value := zero_value |} in
        let? fs := cartesian_filters field_index rest in
        Ok (cartesian_init (cond li) (cond ri) (comp p) :: fs)
      else cartesian_filters field_index rest
  end%C.

(** ** Conditions with expressions *)

(** One side: a column gets its position, but not the mark of a column. *)
Definition expression_desc (field_index : FieldIndex) (first_table : option string) (a : ast) (is_attr : Z) (attr : RelAttr)
    (v : Value) : res CartesianConDesc :=
  match a with
  | NullAst =>
      if negb (is_attr =? 0) then
        let? i := cartesian_column field_index (match relation_name attr with None => first_table | t => t end) attr in
        Ok {| cc_value_index := i; cc_exp_ast := NullAst; cc_is_attr := 0; cc_value := zero_value |}
      else Ok {| cc_value_index := -1; cc_exp_ast := NullAst; cc_is_attr := 0; cc_value := v |}
  | _ => Ok {| cc_value_index := -1; cc_exp_ast := a; cc_is_attr := 0; cc_value := zero_value |}
  end%C.

Fixpoint expression_filters (field_index : FieldIndex) (first_table : option string) (l : list SqlCondition)
    : res CompositeExpressionFilter :=
  match l with
  | [] => Ok []
  | c :: rest =>
      if negb (has_ast c) then expression_filters field_index first_table rest
      else
        let p := plain_condition c in
        let? ld := expression_desc field_index first_table (left_ast c) (left_is_attr p) (left_attr p) (left_value p) in
        let? rd := expression_desc field_index first_table (right_ast c) (right_is_attr p) (right_attr p) (right_value p) in
        let? fs := expression_filters field_index first_table rest in
        Ok (expression_init ld rd (comp p) field_index :: fs)
  end%C.

Definition create_expression_executor (s : Selects) (tuple_set : TupleSet) (output_schema : TupleSchema) (field_index : FieldIndex)
    : res ExpExeNode :=
  (let? fs := expression_filters field_index (head (relations s)) (conditions s) in
   Ok {| ex_schema := foldl (fun schema a => add_exp a schema) output_schema (reverse (attributes_exp s));
         ex_filter := fs; ex_tuple_set := (move_assign tuple_set TupleSet_create).1; ex_field_index := field_index |})%C.

(** ** Aggregates *)

Definition AggreDesc_create : AggreDesc :=
  {| ad_type := UNDEFINEDAGG; ad_is_attr := 0; ad_relation_name := None; ad_attr_name := None; ad_is_star := 0;
     ad_value := S754_zero false |}.

(** An aggregate of a column whose table has the metadata [m]. *)
Definition column_aggregate (a : Aggregate) (m : TableMeta) : res AggreDesc :=
  match field_named m (attribute_name (ag_attr a)) with
  | None => Err SCHEMA_FIELD_MISSING
  | Some f =>
      if bool_decide (fm_type f = UNDEFINED) ||
         ((bool_decide (fm_type f = CHARS) || bool_decide (fm_type f = DATES)) &&
          (bool_decide (ag_type a = SUMS) || bool_decide (ag_type a = AVGS)))
      then Err SCHEMA_FIELD_MISSING
      else Ok {| ad_type := ag_type a; ad_is_attr := ag_is_attr a; ad_relation_name := relation_name (ag_attr a);
                 ad_attr_name := Some (fm_name f); ad_is_star := 0; ad_value := S754_zero false |}
  end.

(** An aggregate of a constant. *)
Definition value_aggregate (a : Aggregate) : res AggreDesc :=
  if numeric (v_type (ag_value a)) then
    let? x := value_as_float (ag_value a) in
    Ok {| ad_type := ag_type a; ad_is_attr := ag_is_attr a; ad_relation_name := None; ad_attr_name := None;
          ad_is_star := 0; ad_value := x |}
  else Err SCHEMA_FIELD_MISSING%C.

Definition is_star (attr : RelAttr) : bool := bool_decide (attribute_name attr = Some "*"%string).

Definition star_aggregate (a : Aggregate) : res AggreDesc :=
  if negb (bool_decide (ag_type a = COUNTS)) then Err SCHEMA_FIELD_MISSING
  else Ok {| ad_type := ag_type a; ad_is_attr := 0; ad_relation_name := relation_name (ag_attr a);
             ad_attr_name := attribute_name (ag_attr a); ad_is_star := 1; ad_value := float_of_int 1 |}.

(** ** The session and the server *)

Record Session := { current_db_ : string; trx_multi_operation_mode_ : bool }.

Section select.
Context {R W J T : Type} `{Replacer R} `{OS W} `{HashOrder} `{Json J T} `{MetaFiles W T} `{Dirs W} `{TableOrder}.
Context `{OperationOrder} `{StdSort}.
Variable fuel : nat.

Record ES := { es_session : Session; es_response : option (list Z); es_cs : CS R W }.

Definition on_cs {A} (m : M (CS R W) A) : M ES A := fun s =>
  let '(r, c) := m (es_cs s) in (r, {| es_session := es_session s; es_response := es_response s; es_cs := c |}).

Definition set_response (text : list Z) : M ES unit :=
  modify (fun s => {| es_session := es_session s; es_response := Some text; es_cs := es_cs s |}).

Definition set_trx_multi_operation_mode (b : bool) : M ES unit :=
  modify (fun s => {| es_session := {| current_db_ := current_db_ (es_session s); trx_multi_operation_mode_ := b |};
                      es_response := es_response s; es_cs := es_cs s |}).

#[local] Instance trx_tables : TrxTables (DB R W) := db_trx_tables fuel.

Definition session_commit : M ES unit := on_cs (on_tables (commit (S := DB R W))).
Definition session_rollback : M ES unit := on_cs (on_tables (rollback (S := DB R W))).

Definition end_trx_if_need (all_right : bool) : M ES unit :=
  let! x := gets es_session in
  if trx_multi_operation_mode_ x then ret tt
  else let! _ := rc_of (if all_right then session_commit else session_rollback) in ret tt.

(** ** Metadata of the tables of a statement *)

Definition meta_of (t : Z) : M (CS R W) TableMeta := on_tables (let! x := this t in ret (table_meta_ x)).

(** [find_table(db, name)->table_meta()], which follows a null pointer when there is no such table. *)
Definition named_meta (db : string) (table_name : option string) : M (CS R W) TableMeta :=
  let! t := find_table (Some db) table_name in
  match t with None => undefined | Some t => meta_of t end.

(** ** Building the nodes *)

Definition create_selection_executor (s : Selects) (db table_name : string) (junk : nat -> ConDesc * ConDesc)
    (l : list SqlCondition) : M (CS R W) (SelectExeNode * list SqlCondition) :=
  let! t := find_table (Some db) (Some table_name) in
  match t with
  | None => fail SCHEMA_TABLE_NOT_EXIST
  | Some t =>
      let! m := meta_of t in
      let '(r, l') := selection_filters s table_name m junk 0 l in
      let! fs := of_res r in
      ret ({| se_table := t; se_schema := from_table m TupleSchema_create; se_filters := fs |}, l')
  end.

(** The map of positions: the tables from the last to the first, each with its columns in order. *)
Fixpoint add_positions (table_name : string) (fields : list FieldMeta) (i : Z) (m : FieldIndex) : FieldIndex :=
  match fields with
  | [] => m
  | f :: rest =>
      add_positions table_name rest (i + 1)
        (<[table_name := <[fm_name f := i]> (default ∅ (m !! table_name))]> m)
  end.

Fixpoint field_positions (db : string) (tables : list string) (fields_num : Z) (m : FieldIndex) : M (CS R W) FieldIndex :=
  match tables with
  | [] => ret m
  | t :: rest =>
      let! meta := named_meta db (Some t) in
      let fields := drop (Z.to_nat sys_field_num) (tm_fields meta) in
      field_positions db rest (fields_num + (field_num meta - sys_field_num)) (add_positions t fields fields_num (<[t := ∅]> m))
  end.

Definition create_field_index (s : Selects) (db : string) : M (CS R W) FieldIndex :=
  field_positions db (reverse (relations s)) 0 ∅.

Fixpoint tables_schema (db : string) (tables : list string) (schema : TupleSchema) : M (CS R W) TupleSchema :=
  match tables with
  | [] => ret schema
  | t :: rest => let! m := named_meta db (Some t) in tables_schema db rest (from_table m schema)
  end.

Definition create_cartesian_executor (s : Selects) (db : string) (tuple_sets : list TupleSet) (field_index : FieldIndex)
    : M (CS R W) cartesianExeNode :=
  let! fs := of_res (cartesian_filters field_index (conditions s)) in
  let! schema := tables_schema db (reverse (relations s)) TupleSchema_create in
  ret {| ca_sets := tuple_sets; ca_filter := fs; ca_schema := schema |}.

Fixpoint order_by_schema (db : string) (first_table : option string) (l : list OrderBy) (schema : TupleSchema)
    : M (CS R W) TupleSchema :=
  match l with
  | [] => ret schema
  | o :: rest =>
      let attr := or_attribute o in
      let! t := find_table (Some db) (match relation_name attr with None => first_table | t => t end) in
      match t with
      | None => fail SCHEMA_TABLE_NOT_EXIST
      | Some t =>
          let! m := meta_of t in
          let! schema := of_res (select_add_field m (attribute_name attr) (or_order o) schema) in
          order_by_schema db first_table rest schema
      end
  end.

Definition create_orderby_executor (s : Selects) (db : string) (field_index : FieldIndex) : M (CS R W) OrderByExeNode :=
  let! schema := order_by_schema db (head (relations s)) (order_by s) TupleSchema_create in
  ret {| ob_schema := schema; ob_field_index := field_index |}.

(** The columns of a statement on one table: the last column asked for comes first; [flag]: there was a star. *)
Fixpoint single_columns (m : TableMeta) (table_name : string) (l : list RelAttr) (flag : bool) (schema : TupleSchema)
    : res TupleSchema :=
  match l with
  | [] => Ok schema
  | attr :: rest =>
      if negb match relation_name attr with None => true | Some t => String.eqb table_name t end
      then single_columns m table_name rest flag schema
      else if bool_decide (attribute_name attr = None) then Ub
      else if is_star attr then single_columns m table_name rest true (from_table m schema)
      else if flag then Err SCHEMA_FIELD_NOT_EXIST
      else
        let? schema := select_add_field m (attribute_name attr) 0 schema in
        single_columns m table_name rest flag schema
  end%C.

Fixpoint multi_columns (db : string) (tables : list string) (l : list RelAttr) (schema : TupleSchema) : M (CS R W) TupleSchema :=
  match l with
  | [] => ret schema
  | attr :: rest =>
      match relation_name attr with
      | None => undefined
      | Some t =>
          undefined_if (negb (bool_decide (t ∈ tables)) || bool_decide (attribute_name attr = None)) ;;
          let! m := named_meta db (Some t) in
          if is_star attr then multi_columns db tables rest (from_table m schema)
          else
            let! schema := of_res (select_add_field m (attribute_name attr) 0 schema) in
            multi_columns db tables rest schema
      end
  end.

(** All tables are looked up first. *)
Definition output_schema (s : Selects) (db : string) : M (CS R W) TupleSchema :=
  let! metas := tables_schema db (relations s) TupleSchema_create in
  match relations s with
  | [table_name] =>
      let! m := named_meta db (Some table_name) in
      of_res (single_columns m table_name (reverse (attributes s)) false TupleSchema_create)
  | tables =>
      match attributes s with
      | [attr] =>
          if bool_decide (relation_name attr = None) && bool_decide (attribute_name attr = None) then undefined
          else if bool_decide (relation_name attr = None) && is_star attr then tables_schema db (reverse tables) TupleSchema_create
          else multi_columns db tables [attr] TupleSchema_create
      | l => multi_columns db tables (reverse l) TupleSchema_create
      end
  end.

Definition create_output_executor (s : Selects) (db : string) (tuple_set : TupleSet) : M (CS R W) OutputExeNode :=
  let! schema := output_schema s db in
  ret {| ou_schema := schema; ou_tuple_set := (move_assign tuple_set TupleSet_create).1 |}.

Definition aggreDesc_check_and_set (s : Selects) (db : string) (a : Aggregate) : M (CS R W) AggreDesc :=
  if ag_is_attr a =? 1 then
    if is_star (ag_attr a) then of_res (star_aggregate a)
    else
      let! m := named_meta db (match relation_name (ag_attr a) with None => head (relations s) | t => t end) in
      of_res (column_aggregate a m)
  else of_res (value_aggregate a).

(** Every failure is reported as INVALID_ARGUMENT. *)
Fixpoint aggregate_descs (s : Selects) (db : string) (l : list Aggregate) : M (CS R W) (list AggreDesc) :=
  match l with
  | [] => ret []
  | a :: rest =>
      let! x := try (aggreDesc_check_and_set s db a) in
      match x with
      | inl _ => fail INVALID_ARGUMENT
      | inr d => let! ds := aggregate_descs s db rest in ret (d :: ds)
      end
  end.

Fixpoint group_by_schema (db : string) (first : option string) (l : list RelAttr) (schema : TupleSchema) : M (CS R W) TupleSchema :=
  match l with
  | [] => ret schema
  | attr :: rest =>
      let! m := named_meta db (match relation_name attr with None => first | t => t end) in
      let! schema := of_res (schema_add_field m (attribute_name attr) schema) in
      group_by_schema db first rest schema
  end.

Definition create_aggregation_executor (s : Selects) (db : string) (tuple_set : TupleSet) : M (CS R W) AggregationExeNode :=
  let! descs := aggregate_descs s db (aggregates s) in
  let! m := named_meta db (head (relations s)) in
  let! group_bys := group_by_schema db (head (relations s)) (group_bys s) TupleSchema_create in
  ret (aggregation_init m (Set_agg_descs descs group_bys) tuple_set).

(** ** do_select *)

(** The nodes of all tables, from the last to the first; table [i] has the memory [junk i]. *)
Fixpoint create_selections (s : Selects) (db : string) (junk : nat -> nat -> ConDesc * ConDesc) (i : nat) (tables : list string)
    (l : list SqlCondition) : M (CS R W) (list SelectExeNode * list SqlCondition) :=
  match tables with
  | [] => ret ([], l)
  | t :: rest =>
      let! (n, l) := create_selection_executor s db t (junk i) l in
      let! (ns, l) := create_selections s db junk (S i) rest l in
      ret (n :: ns, l)
  end.

Fixpoint execute_selections (ns : list SelectExeNode) : M (CS R W) (list TupleSet) :=
  match ns with
  | [] => ret []
  | n :: rest =>
      let! (rc, set) := on_tables (select_execute fuel n TupleSet_create) in
      fail_if (negb (bool_decide (rc = SUCCESS))) rc ;;
      let! sets := execute_selections rest in
      ret ((move_construct set).1 :: sets)
  end.

(** A failure of the first part ends the transaction. *)
Definition or_rollback {A} (m : M ES A) : M ES A :=
  let! x := try m in
  match x with inl rc => end_trx_if_need false ;; fail rc | inr a => ret a end.

(** [assert(rc == RC::SUCCESS)] behind a call. *)
Definition must {S A} (m : M S A) : M S A :=
  let! x := try m in match x with inl _ => undefined | inr a => ret a end.

Definition with_conditions (l : list SqlCondition) (s : Selects) : Selects :=
  {| aggregates := aggregates s; attributes := attributes s; attributes_exp := attributes_exp s; relations := relations s;
     joins := joins s; conditions := l; order_by := order_by s; group_bys := group_bys s |}.

(** The tuples of all tables with the conditions between them: the first two steps. *)
Definition joined_tuples (s : Selects) (db : string) (tuple_sets : list TupleSet) (field_index : FieldIndex) : M (CS R W) TupleSet :=
  match tuple_sets with
  | [] => undefined
  | [set] => ret (move_assign set TupleSet_create).1
  | _ =>
      let! n := must (create_cartesian_executor s db tuple_sets field_index) in
      of_res (cartesian_execute fuel n TupleSet_create)
  end.

(** The steps behind the aggregation; the failure of [create_output_executor] is forgotten. *)
Definition sorted_output (s : Selects) (db : string) (tuples : TupleSet) (field_index : FieldIndex) : M (CS R W) TupleSet :=
  let! tuples := (match order_by s with
                  | [] => ret tuples
                  | _ => let! n := must (create_orderby_executor s db field_index) in of_res (order_by_execute n tuples)
                  end) in
  let! x := try (create_output_executor s db tuples) in
  let n := match x with inl _ => OutputExeNode_create | inr n => n end in
  let! e := must (of_res (create_expression_executor s (ou_tuple_set n) (ou_schema n) field_index)) in
  of_res (exp_execute e TupleSet_create).

Definition do_select (junk : nat -> nat -> ConDesc * ConDesc) (s : Selects) : M ES unit :=
  let! x := gets es_session in
  let db := current_db_ x in
  let! (ns, l) := or_rollback (on_cs (create_selections s db junk 0 (reverse (relations s)) (conditions s))) in
  let s := with_conditions l s in
  or_rollback (fail_if (bool_decide (relations s = [])) SQL_SYNTAX) ;;
  let! tuple_sets := or_rollback (on_cs (execute_selections ns)) in
  let! field_index := must (on_cs (create_field_index s db)) in
  let is_multi_table := 1 <? alen tuple_sets in
  let! tuples := on_cs (joined_tuples s db tuple_sets field_index) in
  let! result := (match aggregates s with
                  | [] => on_cs (sorted_output s db tuples field_index)
                  | _ => let! n := on_cs (create_aggregation_executor s db tuples) in of_res (aggregation_execute n)
                  end) in
  let! text := of_res (set_print is_multi_table result) in
  set_response text ;;
  end_trx_if_need true.

End select.
Arguments ES R W : clear implicits.
