(* ===== verification/LoadData.v ===== *)
(** * Loading a file (storage/default/default_storage_stage.cpp, deps/common/lang/string.cpp)

    [load_data] reads a text file line by line, splits every line at bars, and inserts the values; the numbers are
    read as the operator [>>] of the standard library reads them from a stream that holds one word.  The content of
    files and the texts that name a system error and a time are the class [InputFiles]. *)
From Stdlib Require Import String Floats.SpecFloat.
From S2P Require Import Prelude ReturnCode Effects Bitmap Memory Replacer OsFile BufferPool.
From S2P Require Import RecordPage RecordFile KeyCompare BTreeNode BTree BTreeScan Dates TableMeta.
From S2P Require Import ConditionFilter Trx Index Table TableScan Db.
From S2P Require Import Values Expression Tuples Aggregation ExecNodes Syntax Select.

#[local] Open Scope c_scope.
#[local] Open Scope Z_scope.

(** ** Strings *)

(** [common::strip]; a string of blanks only makes the second loop run off its beginning. *)
Fixpoint skip_spaces (s : list Z) : list Z :=
  match s with [] => [] | b :: rest => if is_space b then skip_spaces rest else s end.

Definition strip (s : list Z) : res (list Z) :=
  if forallb is_space s then Ub else Ok (reverse (skip_spaces (reverse (skip_spaces s)))).

(** [common::split_string]: the parts that are not empty. *)
Fixpoint split_string (delim : Z) (part s : list Z) : list (list Z) :=
  match s with
  | [] => if is_nil part then [] else [part]
  | b :: rest =>
      if b =? delim then (if is_nil part then [] else [part]) ++ split_string delim [] rest
      else split_string delim (part ++ [b]) rest
  end.

(** The calls of [std::getline] until the end of the file. *)
Fixpoint getlines (line s : list Z) : list (list Z) :=
  match s with
  | [] => [line]
  | b :: rest => if b =? 10 then line :: getlines [] rest else getlines (line ++ [b]) rest
  end.

Definition blank_line (s : list Z) : bool := forallb is_space (default s (cstr s)).

(** ** Numbers *)

(** The digits at the beginning: their value and number. *)
Fixpoint read_digits (v : Z) (n : Z) (s : list Z) : Z * Z * list Z :=
  match s with
  | b :: rest => if is_digit b then read_digits (10 * v + (b - 48)) (n + 1) rest else (v, n, s)
  | [] => (v, n, s)
  end.

Definition read_sign (s : list Z) : bool * list Z :=
  match s with
  | b :: rest => if b =? 45 then (true, rest) else if b =? 43 then (false, rest) else (false, s)
  | [] => (false, s)
  end.

(** [stream >> int_value] with nothing left behind the number. *)
Definition parse_int (s : list Z) : option Z :=
  let '(negative, s) := read_sign s in
  let '(v, n, s) := read_digits 0 0 s in
  let v := if negative then - v else v in
  if (0 <? n) && is_nil s && (- 2 ^ 31 <=? v) && (v <? 2 ^ 31) then Some v else None.

(** The exponent, if there is one; [None]: the letter is not followed by a number. *)
Definition read_exponent (s : list Z) : option Z * list Z :=
  match s with
  | b :: rest =>
      if (b =? 101) || (b =? 69) then
        let '(negative, s) := read_sign rest in
        let '(v, n, s) := read_digits 0 0 s in
        (if 0 <? n then Some (if negative then - v else v) else None, s)
      else (Some 0, s)
  | [] => (Some 0, s)
  end.

(** The float nearest to [m * 10 ^ e]. *)
Definition decimal_float (negative : bool) (m e : Z) : float :=
  if m =? 0 then S754_zero negative
  else if 0 <=? e then binary_normalize 24 128 ((if negative then -1 else 1) * m * 10 ^ e) 0 false
  else SFdiv 24 128 (S754_finite negative (Z.to_pos m) 0) (S754_finite false (Z.to_pos (10 ^ (- e))) 0).

(** [stream >> float_value]; a number that is too large is an error. *)
Definition parse_float (s : list Z) : option float :=
  let '(negative, s) := read_sign s in
  let '(v, n, s) := read_digits 0 0 s in
  let '(v, n', s) := match s with
                     | b :: rest => if b =? dot then read_digits v 0 rest else (v, 0, s)
                     | [] => (v, 0, s)
                     end in
  let '(e, s) := read_exponent s in
  match e with
  | Some e =>
      if (0 <? n + n') && is_nil s then
        match decimal_float negative v (e - n') with
        | S754_infinity _ | S754_nan => None
        | f => Some f
        end
      else None
  | None => None
  end.

(** ** One line *)

(** One value: the word and the column. *)
Definition file_value (f : FieldMeta) (word : list Z) : res Value :=
  match fm_type f with
  | INTS => match parse_int word with Some v => Ok (value_init_integer v) | None => Err SCHEMA_FIELD_TYPE_MISMATCH end
  | FLOATS => match parse_float word with Some v => Ok (value_init_float v) | None => Err SCHEMA_FIELD_TYPE_MISMATCH end
  | CHARS | DATES => value_init_string (word ++ [0])
  | _ => Err SCHEMA_FIELD_TYPE_MISMATCH
  end.

(** The messages for a word that is no number; [word] is stripped. *)
Definition value_error (f : FieldMeta) (i : Z) (word : list Z) : list Z :=
  match fm_type f with
  | INTS => bytes_of_string "need an integer but got '" ++ word ++ bytes_of_string "' (field index:" ++ decimal i ++ bytes_of_string ")"
  | FLOATS => bytes_of_string "need a float number but got '" ++ word ++ bytes_of_string "'(field index:" ++ decimal i ++ bytes_of_string ")"
  | _ => bytes_of_string "Unsupported field type to loading: " ++ decimal (attr_code (fm_type f))
  end.

(** The values of a line, or a message. *)
Fixpoint file_values (fields : list FieldMeta) (i : Z) (words : list (list Z)) : res (list Value + list Z) :=
  match fields, words with
  | [], _ => Ok (inl [])
  | f :: fields, w :: words =>
      let? w := strip w in
      match file_value f w with
      | Ok v =>
          let? rest := file_values fields (i + 1) words in
          Ok (match rest with inl vs => inl (v :: vs) | inr message => inr message end)
      | Err _ => Ok (inr (value_error f i w))
      | Ub => Ub
      | OutOfFuel => OutOfFuel
      end
  | _ :: _, [] => Ub
  end.

Class InputFiles (W : Type) := {
  read_file : list Z -> W -> option (list Z);
  system_error : list Z;
  elapsed : list Z }.

Section load.
Context {R W : Type} `{Replacer R} `{OS W} `{HashOrder} `{InputFiles W}.
Variable fuel : nat.

Abbreviation DBM := (M (TS (DB R W))).

(** The return code and the message. *)
Definition insert_record_from_file (t : Z) (words : list (list Z)) (mem : list Z) : DBM (RC * list Z) :=
  let! x := this t in
  let fields := drop (Z.to_nat sys_field_num) (tm_fields (table_meta_ x)) in
  if alen words <? alen fields then ret (SCHEMA_FIELD_MISSING, [])
  else
    let! values := of_res (file_values fields 0 words) in
    match values with
    | inr message => ret (SCHEMA_FIELD_TYPE_MISMATCH, message)
    | inl vs =>
        let! rc := rc_of (let! _ := insert_values fuel t false (alen fields) (Some vs) mem in ret tt) in
        ret (rc, if bool_decide (rc = SUCCESS) then [] else bytes_of_string "insert failed.")
    end.

(** The loop over the lines: the return code, the number of lines and of records, and the text; [mem i] is the memory for the
    record of line [i]. *)
Fixpoint load_lines (t : Z) (mem : Z -> list Z) (lines : list (list Z)) (line_num insertion_count : Z) : DBM (RC * Z * Z * list Z) :=
  match lines with
  | [] => ret (SUCCESS, line_num, insertion_count, [])
  | line :: rest =>
      let line_num := line_num + 1 in
      if blank_line line then load_lines t mem rest line_num insertion_count
      else
        let! (rc, message) := insert_record_from_file t (split_string 124 [] line) (mem line_num) in
        if bool_decide (rc = SUCCESS) then load_lines t mem rest line_num (insertion_count + 1)
        else ret (rc, line_num, insertion_count,
                  bytes_of_string "Line:" ++ decimal line_num ++ bytes_of_string " insert record failed:" ++ message ++
                  bytes_of_string ". error:" ++ bytes_of_string (strrc rc) ++ newline)
  end.

Definition load_data (db_name table_name : string) (file_name : list Z) (mem : Z -> list Z) : M (CS R W) (list Z) :=
  let! t := find_table (Some db_name) (Some table_name) in
  match t with
  | None => ret (bytes_of_string "No such table " ++ bytes_of_string db_name ++ [dot] ++ bytes_of_string table_name ++ newline)
  | Some t =>
      let! content := ask_files (read_file file_name) in
      match content with
      | None => ret (bytes_of_string "Failed to open file: " ++ file_name ++ bytes_of_string ". system error=" ++ system_error ++ newline)
      | Some content =>
          let! (rc, line_num, insertion_count, text) := on_tables (load_lines t mem (getlines [] content) 0 0) in
          ret (text ++ (if bool_decide (rc = SUCCESS) then
                          bytes_of_string (strrc rc) ++ bytes_of_string ". total " ++ decimal line_num ++
                          bytes_of_string " line(s) handled and " ++ decimal insertion_count ++
                          bytes_of_string " record(s) loaded, total cost " ++ elapsed ++ bytes_of_string " second(s)" ++ newline
                        else []))
      end
  end.

End load.

Example float_words :
  (parse_float (bytes_of_string "1.5"), parse_float (bytes_of_string "-.25e1"), parse_float (bytes_of_string "1e"),
   parse_float (bytes_of_string "16777217"), parse_int (bytes_of_string "+12"), parse_int (bytes_of_string "2147483648")) =
  (Some (S754_finite false 12582912 (-23)), Some (S754_finite true 10485760 (-22)), None,
   Some (S754_finite false 8388608 1), Some 12, None).
Proof. vm_compute. reflexivity. Qed.
