(* ===== verification/QueryFilter.v ===== *)
(** * Filters of executors (storage/common/condition_filter.cpp)

    The class [Filter], here [QueryFilter]: a condition between columns and constants that tests a tuple, a
    pair of tuples or, when it is bound to a table, a record; and the functions that make it from the
    conditions of a statement.  A sub-query that is compared with a constant is run at once: running it is
    the argument [run]. *)
From Stdlib Require Import String Floats.SpecFloat.
From S2P Require Import Prelude ReturnCode Effects Bitmap Memory KeyCompare Dates TableMeta ConditionFilter Table.
From S2P Require Import Values Expression Tuples Syntax.

#[local] Open Scope c_scope.
#[local] Open Scope Z_scope.

(** ** The two sides *)

(** [fd_value] is [None] as long as it is not initialised. *)
Record FilterDesc := {
  fd_is_attr : bool; fd_table_name : string; fd_field_name : string; fd_value : option Value;
  fd_attr_length : Z; fd_attr_offset : Z }.

Record QueryFilter := { qf_left : FilterDesc; qf_right : FilterDesc; qf_op : CompOp }.

Definition set_fd_value (v : Value) (d : FilterDesc) : FilterDesc :=
  {| fd_is_attr := fd_is_attr d; fd_table_name := fd_table_name d; fd_field_name := fd_field_name d; fd_value := Some v;
     fd_attr_length := fd_attr_length d; fd_attr_offset := fd_attr_offset d |}.
Definition set_qf_left (d : FilterDesc) (f : QueryFilter) : QueryFilter :=
  {| qf_left := d; qf_right := qf_right f; qf_op := qf_op f |}.
Definition set_qf_right (d : FilterDesc) (f : QueryFilter) : QueryFilter :=
  {| qf_left := qf_left f; qf_right := d; qf_op := qf_op f |}.

(** ** Tuples *)

(** The constructor of StringValue without a length leaves the type of the value uninitialised. *)
Definition construct_tuple_value_from_value (v : Value) : res (option TupleValue) :=
  match v_type v with
  | CHARS | DATES => match cstr (v_data v) with None => Ub | Some s => Ok (Some (StringValue UNDEFINED s)) end
  | FLOATS => if alen (v_data v) <? 4 then Ub else Ok (Some (FloatValue (float_at (v_data v))))
  | INTS => if alen (v_data v) <? 4 then Ub else Ok (Some (IntValue (rd32 (v_data v) 0)))
  | _ => Ok None
  end.

(** The map of positions of a schema; that it is kept in the schema has no effect here. *)
Definition schema_map (s : TupleSchema) : res FieldIndex := (table_field_index s).1.

Definition construct_desc_value (d : FilterDesc) (tuple : Tuple) (schema : TupleSchema) : res (option TupleValue) :=
  (let? m := schema_map schema in
   if fd_is_attr d then
     match find_index_of m (fd_table_name d) (fd_field_name d) with
     | None => Ok None
     | Some i => let? v := get_pointer tuple i in Ok (Some v)
     end
   else let? v := non_null (fd_value d) in construct_tuple_value_from_value v).

(** The value in the left tuple, or else in the right tuple. *)
Definition construct_desc_value2 (d : FilterDesc) (left : Tuple) (left_schema : TupleSchema) (right : Tuple)
    (right_schema : TupleSchema) : res (option TupleValue) :=
  (let? v := construct_desc_value d left left_schema in
   match v with Some _ => Ok v | None => construct_desc_value d right right_schema end).

(** The end of both functions [filter] on tuples; the right side is looked at only if the left side has a value. *)
Definition compare_sides (op : CompOp) (left : res (option TupleValue)) (right : res (option TupleValue)) : res bool :=
  (let? l := left in
   match l with
   | None => Ok false
   | Some l =>
       let? r := right in
       match r with None => Ok false | Some r => let? c := compare l r in Ok (compare_result c op) end
   end).

Definition filter_pair (f : QueryFilter) (left : Tuple) (left_schema : TupleSchema) (right : Tuple)
    (right_schema : TupleSchema) : res bool :=
  compare_sides (qf_op f) (construct_desc_value2 (qf_left f) left left_schema right right_schema)
    (construct_desc_value2 (qf_right f) left left_schema right right_schema).

Definition filter_tuple (f : QueryFilter) (tuple : Tuple) (schema : TupleSchema) : res bool :=
  compare_sides (qf_op f) (construct_desc_value (qf_left f) tuple schema) (construct_desc_value (qf_right f) tuple schema).

(** ** Records *)

(** A column of the table: of its value only the type is set. *)
Definition bind_desc (m : TableMeta) (d : FilterDesc) : res FilterDesc :=
  if fd_is_attr d then
    match field_named m (Some (fd_field_name d)) with
    | None => Err SCHEMA_FIELD_MISSING
    | Some f =>
        Ok {| fd_is_attr := true; fd_table_name := fd_table_name d; fd_field_name := fd_field_name d;
              fd_value := Some {| v_type := fm_type f; v_isnull := false; v_data := [] |};
              fd_attr_length := fm_len f; fd_attr_offset := fm_offset f |}
    end
  else Ok d.

Definition fd_type (d : FilterDesc) : option AttrType := v_type <$> fd_value d.

(** A string that is compared with a date column is a date. *)
Definition as_date (column d : FilterDesc) : FilterDesc :=
  match fd_value d with
  | Some v =>
      if fd_is_attr column && bool_decide (fd_type column = Some DATES) && negb (fd_is_attr d) && bool_decide (v_type v = CHARS)
      then set_fd_value {| v_type := DATES; v_isnull := v_isnull v; v_data := v_data v |} d
      else d
  | None => d
  end.

(** The check of a date; the text is formatted in the filter.  (The statement shares the memory; it gets the
    same text, which a second check leaves as it is.) *)
Definition format_desc (d : FilterDesc) : res unit * FilterDesc :=
  match fd_value d with
  | Some v =>
      if negb (fd_is_attr d) && bool_decide (v_type v = DATES) then
        let '(r, data) := Check_and_format_date theGlobalDateUtil (v_data v) in
        (match r with Ok _ => Ok tt | Err _ => Err SCHEMA_FIELD_TYPE_MISMATCH | Ub => Ub | OutOfFuel => OutOfFuel end,
         set_fd_value {| v_type := DATES; v_isnull := v_isnull v; v_data := data |} d)
      else (Ok tt, d)
  | None => (Ok tt, d)
  end.

Definition format_left : M QueryFilter unit := fun f => let '(r, d) := format_desc (qf_left f) in (r, set_qf_left d f).
Definition format_right : M QueryFilter unit := fun f => let '(r, d) := format_desc (qf_right f) in (r, set_qf_right d f).

Definition bind_table (m : TableMeta) : M QueryFilter unit :=
  (let! f := get in
   let! l := of_res (bind_desc m (qf_left f)) in
   modify (set_qf_left l) ;;
   let! r := of_res (bind_desc m (qf_right f)) in
   modify (set_qf_right r) ;;
   modify (fun f => set_qf_right (as_date (qf_left f) (qf_right f)) f) ;;
   modify (fun f => set_qf_left (as_date (qf_right f) (qf_left f)) f) ;;
   format_left ;;
   format_right ;;
   let! f := get in
   fail_if (bool_decide (fd_type (qf_left f) <> fd_type (qf_right f))) SCHEMA_FIELD_TYPE_MISMATCH).

(** [assert(left_.value.type == right_.value.type)]. *)
Definition same_types (f : QueryFilter) : bool :=
  bool_decide (is_Some (fd_value (qf_left f))) && bool_decide (fd_type (qf_left f) = fd_type (qf_right f)).

(** The memory that a side points to. *)
Definition record_side (d : FilterDesc) (rec : list Z) : list Z :=
  if fd_is_attr d then drop (Z.to_nat (fd_attr_offset d)) rec
  else match fd_value d with Some v => v_data v | None => [] end.

(** [filter(const Record &)] where the assertion holds. *)
Definition record_filter (f : QueryFilter) (rec : list Z) : bool :=
  compare_result (compare_values (default UNDEFINED (fd_type (qf_left f))) (record_side (qf_left f) rec)
                    (record_side (qf_right f) rec)) (qf_op f).

(** ** Filters from conditions *)

Definition zero_int (v : Value) : Value := {| v_type := INTS; v_isnull := v_isnull v; v_data := le32 0 |}.

Definition change_to_true_condition (c : SqlCondition) : SqlCondition :=
  let p := plain_condition c in
  {| plain_condition := {| left_is_attr := 0; left_value := zero_int (left_value p); left_attr := left_attr p; comp := EQUAL_TO;
                           right_is_attr := 0; right_value := zero_int (right_value p); right_attr := right_attr p |};
     left_ast := NullAst; right_ast := NullAst; left_selects := None; right_selects := None |}.

Definition set_left_selects (s : Selects) (c : SqlCondition) : SqlCondition :=
  {| plain_condition := plain_condition c; left_ast := left_ast c; right_ast := right_ast c; left_selects := Some s;
     right_selects := right_selects c |}.
Definition set_right_selects (s : Selects) (c : SqlCondition) : SqlCondition :=
  {| plain_condition := plain_condition c; left_ast := left_ast c; right_ast := right_ast c; left_selects := left_selects c;
     right_selects := Some s |}.

(** One side of a filter, when there is one: no column of another table, and a constant only where constants are
    wanted. *)
Definition side_desc (table : option TableMeta) (attr_only : bool) (is_attr : Z) (attr : RelAttr) (value : Value)
    : res (option FilterDesc) :=
  let desc t n v := {| fd_is_attr := is_attr =? 1; fd_table_name := t; fd_field_name := n; fd_value := v;
                       fd_attr_length := -1; fd_attr_offset := -1 |} in
  if is_attr =? 1 then
    match table, relation_name attr with
    | Some m, Some t =>
        if negb (String.eqb t (tm_name m)) then Ok None
        else let? n := non_null (attribute_name attr) in Ok (Some (desc t n None))
    | None, Some t => let? n := non_null (attribute_name attr) in Ok (Some (desc t n None))
    | Some m, None => let? n := non_null (attribute_name attr) in Ok (Some (desc (tm_name m) n None))
    | None, None => Ub
    end
  else if attr_only then Ok None else Ok (Some (desc EmptyString EmptyString (Some value))).

Section conditions.
Context {S : Type}.

(** The first column of the first row of a sub-query, which is changed while it is built. *)
Variable run : Selects -> M S (TupleValue * Selects).

(** A side of a condition without columns. *)
Definition constant_side (selects : option Selects) (is_attr : Z) (value : Value) : M S (TupleValue * option Selects) :=
  (match selects with
   | Some s => let! (v, s) := run s in ret (v, Some s)
   | None =>
       undefined_if (negb (is_attr =? 0)) ;;
       let! v := of_res (construct_tuple_value_from_value value) in
       let! v := of_res (non_null v) in
       ret (v, None)
   end).

Definition is_select (s : option Selects) : bool := bool_decide (is_Some s).

(** [Filter::from_condition] for one condition: the filter if one is needed, [ban_all], and the condition, which may be
    changed. *)
Definition filter_from_condition (table : option TableMeta) (attr_only : bool) (c : SqlCondition)
    : M S (option QueryFilter * bool * SqlCondition) :=
  (let p := plain_condition c in
   let left_select := is_select (left_selects c) in
   let right_select := is_select (right_selects c) in
   if ((left_is_attr p =? 0) || left_select) && ((right_is_attr p =? 0) || right_select) then
     let! (l, ls) := constant_side (left_selects c) (left_is_attr p) (left_value p) in
     let c := match ls with Some s => set_left_selects s c | None => c end in
     let! (r, rs) := constant_side (right_selects c) (right_is_attr p) (right_value p) in
     let c := match rs with Some s => set_right_selects s c | None => c end in
     let! cmp := of_res (compare l r) in
     if compare_result cmp (comp p) then ret (None, false, change_to_true_condition c) else ret (None, true, c)
   else if left_select || right_select then ret (None, false, c)
   else
     let! l := of_res (side_desc table attr_only (left_is_attr p) (left_attr p) (left_value p)) in
     match l with
     | None => ret (None, false, c)
     | Some l =>
         let! r := of_res (side_desc table attr_only (right_is_attr p) (right_attr p) (right_value p)) in
         ret ((fun r => {| qf_left := l; qf_right := r; qf_op := comp p |}) <$> r, false, c)
     end).

(** [Filter::from_condition] for all conditions: the filters, [ban_all], and the conditions.  A condition that is false ends
    the loop. *)
Fixpoint filters_from_conditions (table : option TableMeta) (attr_only : bool) (l : list SqlCondition)
    (filters : list QueryFilter) : M S (list QueryFilter * bool * list SqlCondition) :=
  (match l with
   | [] => ret (filters, false, [])
   | c :: rest =>
       let! (f, ban_all, c) := filter_from_condition table attr_only c in
       if ban_all then ret ([], true, c :: rest)
       else
         let! (filters, ban_all, rest) :=
           filters_from_conditions table attr_only rest (match f with Some f => filters ++ [f] | None => filters end) in
         ret (filters, ban_all, c :: rest)
   end).

End conditions.
