(* ===== verification/Executors.v ===== *)
(** * Executors (sql/executor/executor.h and its subclasses)

    The second set of executors, for statements with joins or sub-queries: an executor is a tree; [exec_init] binds the
    filters of its scans, [exec_next] computes its rows, with filters of the caller, which every scan binds anew.  The rows
    of a scan are read without a transaction.  An unordered set of values in SubQueryExecutor hashes a string by the bytes
    of its std::string object, which depend on addresses: they are the parameter [StringObjects], as are the hash functions of
    the standard library and its choice of the first element. *)
From Stdlib Require Import String Floats.SpecFloat.
From S2P Require Import Prelude ReturnCode Effects Bitmap Memory Replacer OsFile BufferPool.
From S2P Require Import RecordPage RecordFile KeyCompare BTreeNode BTree BTreeScan Dates TableMeta.
From S2P Require Import ConditionFilter Trx Index Table TableScan.
From S2P Require Import Values Expression Tuples TupleFilter Aggregation ExecNodes Syntax QueryFilter.

#[local] Open Scope c_scope.
#[local] Open Scope Z_scope.

(** ** Sets of values *)

Class StdHash := {
  hash_string : list Z -> Z; hash_int : Z -> Z; hash_float : float -> Z;
  set_begin : list TupleValue -> option TupleValue }.

(** The memory of a string object: of a left or right tuple, in a round, at a position. *)
Inductive Side := LeftTuple | RightTuple.
Class StringObjects := { object_bytes : Side -> nat -> nat -> list Z }.

Definition ValueHash `{StdHash} (object : list Z) (v : TupleValue) : res Z :=
  match Type_of v with
  | CHARS | DATES => match cstr object with None => Ub | Some s => Ok (hash_string s) end
  | INTS => let? x := read_int (value_pointer v) in Ok (hash_int x)
  | FLOATS => let? x := read_float (value_pointer v) in Ok (hash_float x)
  | _ => Ok 0
  end.

Definition ValueEqual (l r : TupleValue) : res bool := let? c := compare l r in Ok (c =? 0).

(** The elements with their hash codes; elements with another hash code are not compared. *)
Abbreviation ValueSet := (list (Z * TupleValue)).

Fixpoint set_count (h : Z) (v : TupleValue) (s : ValueSet) : res bool :=
  match s with
  | [] => Ok false
  | (h', w) :: rest =>
      if h =? h' then let? equal := ValueEqual v w in if equal then Ok true else set_count h v rest else set_count h v rest
  end.

Definition set_insert (h : Z) (v : TupleValue) (s : ValueSet) : res ValueSet :=
  let? present := set_count h v s in Ok (if present then s else (h, v) :: s).

(** The set of the first values of the tuples; [objects j] is the memory of the value of tuple [j]. *)
Fixpoint insert_values `{StdHash} (objects : nat -> list Z) (j : nat) (tuples : list Tuple) (s : ValueSet) : res ValueSet :=
  match tuples with
  | [] => Ok s
  | t :: rest =>
      let? v := get_pointer t 0 in
      let? h := ValueHash (objects j) v in
      let? s := set_insert h v s in
      insert_values objects (S j) rest s
  end.

(** ** The trees *)

Inductive Executor :=
| ScanExecutor (schema : TupleSchema) (table : Z) (filters : list QueryFilter) (ban_all : bool)
| NestLoopJoinExecutor (schema : TupleSchema) (left right : Executor) (filters : list QueryFilter) (ban_all : bool)
| SubQueryExecutor (schema : TupleSchema) (left : Executor) (left_attr : RelAttr) (op : CompOp) (right : Executor)
    (multi_table_conditions : list SqlCondition)
| AggExecutor (schema : TupleSchema) (executor : Executor).

Definition output_schema (e : Executor) : TupleSchema :=
  match e with
  | ScanExecutor schema _ _ _ | NestLoopJoinExecutor schema _ _ _ _ | SubQueryExecutor schema _ _ _ _ _ | AggExecutor schema _ => schema
  end.

Definition set_output_schema (schema : TupleSchema) (e : Executor) : Executor :=
  match e with
  | ScanExecutor _ t fs b => ScanExecutor schema t fs b
  | NestLoopJoinExecutor _ l r fs b => NestLoopJoinExecutor schema l r fs b
  | SubQueryExecutor _ l a op r cs => SubQueryExecutor schema l a op r cs
  | AggExecutor _ e => AggExecutor schema e
  end.

(** The constructor keeps the filters whose columns belong to tables of the schema. *)
Definition joins_table (m : FieldIndex) (d : FilterDesc) : bool :=
  negb (fd_is_attr d) || bool_decide (is_Some (m !! fd_table_name d)).

Definition new_NestLoopJoinExecutor (schema : TupleSchema) (left right : Executor) (filters : list QueryFilter) (ban_all : bool)
    : res Executor :=
  match filters with
  | [] => Ok (NestLoopJoinExecutor schema left right [] ban_all)
  | _ =>
      let? m := schema_map schema in
      Ok (NestLoopJoinExecutor schema left right
            (filter (fun f => joins_table m (qf_left f) && joins_table m (qf_right f)) filters) ban_all)
  end.

Definition new_SubQueryExecutor (left : Executor) (left_attr : RelAttr) (op : CompOp) (right : Executor)
    (multi_table_conditions : list SqlCondition) : Executor :=
  SubQueryExecutor (output_schema left) left left_attr op right multi_table_conditions.

(** ** Filters of the caller *)

(** The conditions between the tables with [value], the value of the left attribute, in place of the column of the left
    tuples. *)
Definition pointed_value (object : list Z) (v : TupleValue) : Value :=
  {| v_type := Type_of v; v_isnull := false;
     v_data := match v with
               | IntValue x => le32 x
               | FloatValue x => le32 (bits_of_float x)
               | StringValue _ _ => object
               | NullValue => []
               end |}.

Definition in_tables (m : FieldIndex) (attr : RelAttr) : option bool :=
  (fun t => bool_decide (is_Some (m !! t))) <$> relation_name attr.

Definition fix_left (v : Value) (p : Condition) : Condition :=
  {| left_is_attr := 0; left_value := {| v_type := v_type v; v_isnull := v_isnull (left_value p); v_data := v_data v |};
     left_attr := left_attr p; comp := comp p; right_is_attr := right_is_attr p; right_value := right_value p;
     right_attr := right_attr p |}.
Definition fix_right (v : Value) (p : Condition) : Condition :=
  {| left_is_attr := left_is_attr p; left_value := left_value p; left_attr := left_attr p; comp := comp p;
     right_is_attr := 0; right_value := {| v_type := v_type v; v_isnull := v_isnull (right_value p); v_data := v_data v |};
     right_attr := right_attr p |}.

(** One round of the loop: the condition, if it is between the tables. *)
Definition correlated (m : FieldIndex) (v : Value) (p : Condition) : option Condition :=
  let attrs := negb (left_is_attr p =? 0) && negb (right_is_attr p =? 0) in
  if attrs && bool_decide (in_tables m (left_attr p) = Some true) && bool_decide (in_tables m (right_attr p) = Some false)
  then Some (fix_left v p)
  else if attrs && bool_decide (in_tables m (right_attr p) = Some true) && bool_decide (in_tables m (left_attr p) = Some false)
  then Some (fix_right v p)
  else None.

Definition with_condition (p : Condition) (c : SqlCondition) : SqlCondition :=
  {| plain_condition := p; left_ast := left_ast c; right_ast := right_ast c; left_selects := left_selects c;
     right_selects := right_selects c |}.

Definition no_sub_query {S A} (s : Selects) : M S A := undefined.

Fixpoint add_multi_table_filter {S} (m : FieldIndex) (v : Value) (conditions : list SqlCondition) (filters : list QueryFilter)
    : M S (list QueryFilter) :=
  match conditions with
  | [] => ret filters
  | c :: rest =>
      match correlated m v (plain_condition c) with
      | None => add_multi_table_filter m v rest filters
      | Some p =>
          let! (f, ban_all, _) := filter_from_condition no_sub_query None false (with_condition p c) in
          if ban_all then ret []
          else let! f := of_res (non_null f) in add_multi_table_filter m v rest (filters ++ [f])
      end
  end.

(** [pop_back] as often as asked for. *)
Definition remove_multi_table_filter (filters : list QueryFilter) (num : nat) : list QueryFilter :=
  take (length filters - num) filters.

(** ** Running *)

Section executors.
Context {R W : Type} `{Replacer R} `{OS W} `{HashOrder} `{StdHash} `{StringObjects}.
Variable fuel : nat.

Abbreviation DBM := (M (TS (DB R W))).

(** [bind_table] of one filter: the return code and the filter. *)
Definition bind_filter (m : TableMeta) (f : QueryFilter) : DBM (RC * QueryFilter) :=
  match bind_table m f with
  | (Ok _, f) => ret (SUCCESS, f)
  | (Err rc, f) => ret (rc, f)
  | (Ub, _) => undefined
  | (OutOfFuel, _) => no_fuel
  end.

(** The loop of [ScanExecutor::init]. *)
Fixpoint bind_filters (m : TableMeta) (l : list QueryFilter) : DBM (RC * list QueryFilter) :=
  match l with
  | [] => ret (SUCCESS, [])
  | f :: rest =>
      let! (rc, f) := bind_filter m f in
      if bool_decide (rc = SUCCESS) then let! (rc, rest) := bind_filters m rest in ret (rc, f :: rest) else ret (rc, f :: rest)
  end.

Fixpoint exec_init (e : Executor) : DBM (RC * Executor) :=
  match e with
  | ScanExecutor schema t fs b =>
      let! x := this t in
      let! (rc, fs) := bind_filters (table_meta_ x) fs in
      ret (rc, ScanExecutor schema t fs b)
  | NestLoopJoinExecutor schema l r fs b =>
      let! (rc, l) := exec_init l in
      if negb (bool_decide (rc = SUCCESS)) then ret (rc, NestLoopJoinExecutor schema l r fs b)
      else let! (rc, r) := exec_init r in ret (rc, NestLoopJoinExecutor schema l r fs b)
  | SubQueryExecutor schema l a op r cs =>
      let! (rc, l) := exec_init l in
      if negb (bool_decide (rc = SUCCESS)) then ret (rc, SubQueryExecutor schema l a op r cs)
      else let! (rc, r) := exec_init r in ret (rc, SubQueryExecutor schema l a op r cs)
  | AggExecutor schema e => let! (rc, e) := exec_init e in ret (rc, AggExecutor schema e)
  end.

(** The filters of the caller, bound to the table of a scan; the return codes are dropped. *)
Fixpoint rebind (m : TableMeta) (l : list QueryFilter) : DBM (list QueryFilter) :=
  match l with
  | [] => ret []
  | f :: rest => let! (_, f) := bind_filter m f in let! rest := rebind m rest in ret (f :: rest)
  end.

(** The filters before the first whose types differ; a record that passes them fails the assertion of that one. *)
Fixpoint sound_filters (l : list QueryFilter) : list QueryFilter :=
  match l with [] => [] | f :: rest => if same_types f then f :: sound_filters rest else [] end.

Definition scan_filtered (t : Z) (fs : list QueryFilter) (set : TupleSet) : DBM (RC * TupleSet) :=
  let good := sound_filters fs in
  let flt := OtherFilters (record_filter <$> good) in
  if (length good =? length fs)%nat then scan_bytes fuel t false flt (-1) set (add_record t)
  else scan_bytes fuel t false flt (-1) set (fun _ _ => undefined).

Definition ScanExecutor_next (schema : TupleSchema) (t : Z) (own : list QueryFilter) (ban_all : bool)
    (filters : option (list QueryFilter)) : DBM (RC * TupleSet * option (list QueryFilter)) :=
  let set := set_schema schema TupleSet_create in
  if ban_all then ret (SUCCESS, set, filters)
  else
    let! x := this t in
    let! filters := (match filters with
                     | None => ret None
                     | Some l => let! l := rebind (table_meta_ x) l in ret (Some l)
                     end) in
    let! (rc, set) := scan_filtered t (default [] filters ++ own) set in
    ret (rc, set, filters).

(** The filters on a pair of tuples, up to the first that fails. *)
Fixpoint pass_pair (fs : list QueryFilter) (left : Tuple) (left_schema : TupleSchema) (right : Tuple) (right_schema : TupleSchema)
    : res bool :=
  match fs with
  | [] => Ok true
  | f :: rest =>
      let? b := filter_pair f left left_schema right right_schema in
      if b then pass_pair rest left left_schema right right_schema else Ok false
  end.

(** One round of the inner loop. *)
Definition join_pair (fs : list QueryFilter) (left_index right_index : list Z) (left_schema right_schema : TupleSchema)
    (left right : Tuple) (set : TupleSet) : res TupleSet :=
  let? b := pass_pair fs left left_schema right right_schema in
  if b then
    let? t := add_fields left left_index [] in
    let? t := add_fields right right_index t in
    Ok (add_tuple t set)
  else Ok set.

Definition join_sets (schema : TupleSchema) (fs : list QueryFilter) (l r set : TupleSet) : res TupleSet :=
  let? left_index := (index_in (fields_ schema) (schema_ l)).1 in
  let? right_index := (index_in (fields_ schema) (schema_ r)).1 in
  res_fold (fun left set =>
    res_fold (join_pair fs left_index right_index (schema_ l) (schema_ r) left) (tuples_ r) set) (tuples_ l) set.

(** Without correlated conditions: whether a left tuple is kept. *)
Definition sub_query_op (op : CompOp) : bool := bool_decide (op = IN_OP) || bool_decide (op = NOT_IN_OP).

Definition value_passes (op : CompOp) (object : list Z) (v : TupleValue) (values : ValueSet) : res bool :=
  if sub_query_op op then
    let? h := ValueHash object v in
    let? present := set_count h v values in
    Ok (if bool_decide (op = IN_OP) then present else negb present)
  else
    let? w := non_null (set_begin (snd <$> values)) in
    let? c := compare v w in
    Ok (compare_result c op).

Fixpoint keep_tuples (op : CompOp) (index : Z) (values : ValueSet) (i : nat) (tuples : list Tuple) : res (list Tuple) :=
  match tuples with
  | [] => Ok []
  | t :: rest =>
      let? v := get_pointer t index in
      let? b := value_passes op (object_bytes LeftTuple 0 i) v values in
      let? kept := keep_tuples op index values (S i) rest in
      Ok (if b then t :: kept else kept)
  end.

(** With correlated conditions: the sub-query runs for every left tuple; [next_right] is [right_executor_->next], which binds
    the filters.  The filters that were added are taken off again, but not when the sub-query is empty. *)
Fixpoint keep_correlated (next_right : list QueryFilter -> DBM (RC * TupleSet * list QueryFilter)) (m : FieldIndex) (op : CompOp)
    (index : Z) (conditions : list SqlCondition) (i : nat) (tuples : list Tuple) (right_next_filters : list QueryFilter)
    : DBM (RC * list Tuple * list QueryFilter) :=
  match tuples with
  | [] => ret (SUCCESS, [], right_next_filters)
  | t :: rest =>
      let! v := of_res (get_pointer t index) in
      let! added := add_multi_table_filter m (pointed_value (object_bytes LeftTuple 0 i) v) conditions [] in
      let! (rc, set, fs) := next_right (right_next_filters ++ added) in
      if negb (bool_decide (rc = SUCCESS)) then ret (rc, [], fs)
      else if negb (sub_query_op op) && is_empty set then
        keep_correlated next_right m op index conditions (S i) rest fs
      else
        let! values := of_res (insert_values (object_bytes RightTuple i) 0 (tuples_ set) []) in
        let! b := of_res (value_passes op (object_bytes LeftTuple 0 i) v values) in
        let! (rc, kept, fs) := keep_correlated next_right m op index conditions (S i) rest
                                 (remove_multi_table_filter fs (length added)) in
        ret (rc, if b then t :: kept else kept, fs)
  end.

(** The filters of the caller on a tuple, up to the first that fails. *)
Fixpoint pass_tuple (fs : list QueryFilter) (tuple : Tuple) (schema : TupleSchema) : res bool :=
  match fs with
  | [] => Ok true
  | f :: rest => let? b := filter_tuple f tuple schema in if b then pass_tuple rest tuple schema else Ok false
  end.

Definition output_kept (fs : list QueryFilter) (schema : TupleSchema) (index : list Z) (tuple : Tuple) (set : TupleSet) : res TupleSet :=
  let? b := pass_tuple fs tuple schema in
  if b then let? t := add_fields tuple index [] in Ok (add_tuple t set) else Ok set.

(** The checks at the beginning of [SubQueryExecutor::next]. *)
Definition sub_query_shape (op : CompOp) (right : TupleSchema) : bool :=
  if sub_query_op op then is_nil (fields_ right) || (alen (fields_ right) =? 1)
  else is_nil (fields_ right) && negb (is_nil (agg_descs_ right)).

Definition AggExecutor_rows (schema left_schema : TupleSchema) (tuples : list Tuple) : res (list Tuple) :=
  let? ht := (aggregate_tuples None (fields_ schema) (agg_descs_ schema) tuples [] left_schema).1 in
  res_map (output_tuple (agg_descs_ schema)) ht.

(** [next]: the return code, the rows, and the filters of the caller, which are bound on the way. *)
Fixpoint exec_next (e : Executor) (filters : option (list QueryFilter)) : DBM (RC * TupleSet * option (list QueryFilter)) :=
  match e with
  | ScanExecutor schema t own ban_all => ScanExecutor_next schema t own ban_all filters
  | NestLoopJoinExecutor schema l r own ban_all =>
      let set := set_schema schema TupleSet_create in
      if ban_all then ret (SUCCESS, set, filters)
      else
        let! (_, ls, _) := exec_next l None in
        let! (_, rs, _) := exec_next r None in
        if is_empty ls || is_empty rs then ret (SUCCESS, set, filters)
        else let! set := of_res (join_sets schema (default [] filters ++ own) ls rs set) in ret (SUCCESS, set, filters)
  | SubQueryExecutor schema l attr op r conditions =>
      if negb (sub_query_shape op (output_schema r)) then ret (INTERNAL, TupleSet_create, filters)
      else
        let set := set_schema schema TupleSet_create in
        let! (rc, ls, filters) := exec_next l filters in
        if negb (bool_decide (rc = SUCCESS)) then ret (rc, set, filters)
        else if is_empty ls then ret (SUCCESS, set, filters)
        else
          let! m := of_res (schema_map (schema_ ls)) in
          let! table_name := of_res (non_null (relation_name attr)) in
          let! field_name := of_res (match m !! table_name with Some _ => non_null (attribute_name attr) | None => Ok EmptyString end) in
          match find_index_of m table_name field_name with
          | None => ret (INVALID_ARGUMENT, set, filters)
          | Some index =>
              let! tuple_index := of_res (index_in (fields_ schema) (schema_ ls)).1 in
              let! (rc, kept, filters) :=
                (match conditions with
                 | [] =>
                     let! (rc, rs, _) := exec_next r None in
                     if negb (bool_decide (rc = SUCCESS)) then ret (rc, [], filters)
                     else if negb (sub_query_op op) && is_empty rs then ret (SUCCESS, [], filters)
                     else
                       let! values := of_res (insert_values (object_bytes RightTuple 0) 0 (tuples_ rs) []) in
                       let! kept := of_res (keep_tuples op index values 0 (tuples_ ls)) in
                       ret (SUCCESS, kept, filters)
                 | _ =>
                     let! m := of_res (schema_map (output_schema l)) in
                     let own := default [] filters in
                     let! (rc, kept, fs) :=
                       keep_correlated (fun fs => let! (rc, rs, fs) := exec_next r (Some fs) in ret (rc, rs, default [] fs))
                         m op index conditions 0 (tuples_ ls) own in
                     ret (rc, kept, (fun _ => take (length own) fs) <$> filters)
                 end) in
              if negb (bool_decide (rc = SUCCESS)) then ret (rc, set, filters)
              else
                let! set := of_res (res_fold (output_kept (default [] filters) (schema_ ls) tuple_index) kept set) in
                ret (SUCCESS, set, filters)
          end
  | AggExecutor schema e =>
      let! (_, ls, filters) := exec_next e filters in
      let! rows := of_res (AggExecutor_rows schema (output_schema e) (tuples_ ls)) in
      ret (SUCCESS, {| tuples_ := rows; schema_ := schema |}, filters)
  end.

End executors.
