(* ===== verification/ExecutorBuilder.v ===== *)
(** * ExecutorBuilder (sql/executor/executor_builder.cpp) and do_select_v2

    The tree of executors for a statement with joins or sub-queries.  Building changes the statement: conditions that
    are found to be true are replaced, and missing table names are filled in; so every function returns what it has
    changed.  A sub-query in a condition without columns is built and run while the filters are made.  [depth] bounds the
    nesting of sub-queries. *)
From Stdlib Require Import String Floats.SpecFloat.
From S2P Require Import Prelude ReturnCode Effects Bitmap Memory Replacer OsFile BufferPool.
From S2P Require Import RecordPage RecordFile KeyCompare BTreeNode BTree BTreeScan Dates TableMeta.
From S2P Require Import ConditionFilter Trx Index Table TableScan Db.
From S2P Require Import Values Expression Tuples TupleFilter Aggregation ExecNodes Syntax Select QueryFilter Executors.

#[local] Open Scope c_scope.
#[local] Open Scope Z_scope.

Definition symmetric_op (op : CompOp) : CompOp :=
  match op with
  | EQUAL_TO => EQUAL_TO
  | LESS_EQUAL => GREAT_EQUAL
  | NOT_EQUAL => NOT_EQUAL
  | LESS_THAN => GREAT_THAN
  | GREAT_EQUAL => LESS_EQUAL
  | GREAT_THAN => LESS_THAN
  | IS => IS
  | IS_NOT => IS_NOT
  | IN_OP => IN_OP
  | NOT_IN_OP => NOT_IN_OP
  | NO_OP => NO_OP
  end.

(** ** Conditions between tables *)

Definition multi_table_condition (table_name : string) (c : SqlCondition) : bool :=
  let p := plain_condition c in
  match relation_name (left_attr p), relation_name (right_attr p) with
  | Some l, Some r =>
      negb (left_is_attr p =? 0) && negb (right_is_attr p =? 0) && (String.eqb l table_name || String.eqb r table_name)
  | _, _ => false
  end.

(** The conditions of the sub-queries are pushed on the stack. *)
Fixpoint push_nested (l : list SqlCondition) (stack : list (list SqlCondition)) : list (list SqlCondition) :=
  match l with
  | [] => stack
  | c :: rest =>
      let stack := match right_selects c with Some s => conditions s :: stack | None => stack end in
      let stack := match left_selects c with Some s => conditions s :: stack | None => stack end in
      push_nested rest stack
  end.

Fixpoint multi_table_loop (rounds : nat) (table_name : string) (stack : list (list SqlCondition)) (found : list SqlCondition)
    : res (list SqlCondition) :=
  match stack with
  | [] => Ok found
  | l :: stack =>
      match rounds with
      | O => OutOfFuel
      | S rounds =>
          multi_table_loop rounds table_name (push_nested l stack) (found ++ filter (fun c => multi_table_condition table_name c) l)
      end
  end.

(** The number of sub-queries in a condition. *)
Fixpoint sub_queries_in (c : SqlCondition) : nat :=
  match c with
  | MkCondition _ _ _ l r =>
      match l with Some s => queries_in s | None => 0 end + match r with Some s => queries_in s | None => 0 end
  end
with queries_in (s : Selects) : nat :=
  match s with MkSelects _ _ _ _ _ l _ _ => S (list_sum (List.map sub_queries_in l)) end.

Definition build_multi_table_conditions (table_name : string) (l : list SqlCondition) : res (list SqlCondition) :=
  multi_table_loop (S (list_sum (List.map sub_queries_in l))) table_name [l] [].

(** ** Statements with changed parts *)

Definition with_attributes (l : list RelAttr) (s : Selects) : Selects :=
  {| aggregates := aggregates s; attributes := l; attributes_exp := attributes_exp s; relations := relations s;
     joins := joins s; conditions := conditions s; order_by := order_by s; group_bys := group_bys s |}.
Definition with_group_bys (l : list RelAttr) (s : Selects) : Selects :=
  {| aggregates := aggregates s; attributes := attributes s; attributes_exp := attributes_exp s; relations := relations s;
     joins := joins s; conditions := conditions s; order_by := order_by s; group_bys := l |}.
Definition with_joins (l : list Join) (s : Selects) : Selects :=
  {| aggregates := aggregates s; attributes := attributes s; attributes_exp := attributes_exp s; relations := relations s;
     joins := l; conditions := conditions s; order_by := order_by s; group_bys := group_bys s |}.
Definition with_join_conditions (l : list SqlCondition) (j : Join) : Join :=
  {| join_type := join_type j; join_table := join_table j; join_conditions := l |}.

Definition default_table (t : option string) (attr : RelAttr) : RelAttr :=
  match relation_name attr with
  | None => {| relation_name := t; attribute_name := attribute_name attr |}
  | Some _ => attr
  end.

(** [select *] without a table. *)
Definition star_only (l : list RelAttr) : res bool :=
  match l with
  | [attr] =>
      if bool_decide (relation_name attr = None) then
        let? n := non_null (attribute_name attr) in Ok (String.eqb "*" n)
      else Ok false
  | _ => Ok false
  end.

Section builder.
Context {R W : Type} `{Replacer R} `{OS W} `{HashOrder} `{StdHash} `{StringObjects} `{OperationOrder}.
Variable fuel : nat.

Abbreviation CM := (M (CS R W)).

(** A table that is followed without a test. *)
Definition table_of (db name : string) : CM (Z * TableMeta) :=
  let! t := find_table (Some db) (Some name) in
  match t with None => undefined | Some t => let! m := meta_of t in ret (t, m) end.

(** ** Schemas of the output *)

(** The columns from the last to the first. *)
Fixpoint output_columns (db : string) (first_table : option string) (l : list RelAttr) (schema : TupleSchema)
    : CM (TupleSchema * list RelAttr) :=
  match l with
  | [] => ret (schema, [])
  | attr :: rest =>
      let attr := default_table first_table attr in
      let! m := named_meta db (relation_name attr) in
      let! n := of_res (non_null (attribute_name attr)) in
      let! schema := (if String.eqb "*" n then ret (from_table m schema) else of_res (schema_add_field m (Some n) schema)) in
      let! (schema, rest) := output_columns db first_table rest schema in
      ret (schema, attr :: rest)
  end.

Definition build_output_schema (s : Selects) (db : string) : CM (TupleSchema * Selects) :=
  let! star := of_res (star_only (attributes s)) in
  if star then
    let! schema := tables_schema db (reverse (relations s)) TupleSchema_create in
    let! schema := tables_schema db (join_table <$> joins s) schema in
    ret (schema, s)
  else
    let! (schema, l) := output_columns db (head (relations s)) (reverse (attributes s)) TupleSchema_create in
    ret (schema, with_attributes (reverse l) s).

(** The table of a column that may have no table name. *)
Definition only_table (s : Selects) (t : option string) : option string :=
  match t with Some t => Some t | None => match relations s with [t] => Some t | _ => None end end.

(** One round of the loop over the aggregates; [None]: the function returns, for an error or for [count] of a star. *)
Definition agg_desc (s : Selects) (db : string) (a : Aggregate) : CM (option AggreDesc) :=
  if ag_is_attr a =? 1 then
    match only_table s (relation_name (ag_attr a)) with
    | None => ret None
    | Some t =>
        if is_star (ag_attr a) then ret None
        else
          let! m := named_meta db (Some t) in
          ret (match column_aggregate a m with
               | Ok d => Some {| ad_type := ad_type d; ad_is_attr := ad_is_attr d; ad_relation_name := Some t;
                                 ad_attr_name := ad_attr_name d; ad_is_star := 0; ad_value := ad_value d |}
               | _ => None
               end)
    end
  else
    match value_aggregate a with
    | Ok d => ret (Some d)
    | Err _ => ret None
    | Ub => undefined
    | OutOfFuel => no_fuel
    end.

Fixpoint agg_descs (s : Selects) (db : string) (l : list Aggregate) : CM (option (list AggreDesc)) :=
  match l with
  | [] => ret (Some [])
  | a :: rest =>
      let! d := agg_desc s db a in
      match d with
      | None => ret None
      | Some d => let! ds := agg_descs s db rest in ret (cons d <$> ds)
      end
  end.

(** The columns of GROUP BY; [false]: the function returns with an error. *)
Fixpoint agg_group_bys (s : Selects) (db : string) (l : list RelAttr) (schema : TupleSchema) : CM (bool * TupleSchema * list RelAttr) :=
  match l with
  | [] => ret (true, schema, [])
  | attr :: rest =>
      match only_table s (relation_name attr) with
      | None => ret (false, schema, attr :: rest)
      | Some t =>
          let attr := default_table (Some t) attr in
          let! m := named_meta db (Some t) in
          let! schema := of_res (schema_add_field m (attribute_name attr) schema) in
          let! (b, schema, rest) := agg_group_bys s db rest schema in
          ret (b, schema, attr :: rest)
      end
  end.

(** [AggExecutor::build_agg_output_schema]; its return code is dropped. *)
Definition build_agg_output_schema (s : Selects) (db : string) : CM (TupleSchema * Selects) :=
  let! ds := agg_descs s db (aggregates s) in
  match ds with
  | None => ret (TupleSchema_create, s)
  | Some ds =>
      let! (b, schema, l) := agg_group_bys s db (group_bys s) TupleSchema_create in
      ret (if b then Set_agg_descs ds schema else schema, with_group_bys l s)
  end.

(** ** Trees *)

Section build.
Variable db : string.

(** [build] of a sub-query. *)
Variable build_nested : Selects -> CM (Executor * Selects).

Definition construct_tuple_value_from_selects (s : Selects) : CM (TupleValue * Selects) :=
  let! (e, s) := build_nested s in
  let! (_, e) := on_tables (exec_init e) in
  let! (_, set, _) := on_tables (exec_next fuel e None) in
  let! tuple := of_res (get_tuple set 0) in
  let! v := of_res (get_pointer tuple 0) in
  ret (v, s).

Abbreviation from_conditions := (filters_from_conditions construct_tuple_value_from_selects).

(** The scan of a table with the conditions on it. *)
Definition scan_executor (name : string) (l : list SqlCondition) : CM (Executor * list SqlCondition) :=
  let! (t, m) := table_of db name in
  let! (fs, ban_all, l) := from_conditions (Some m) false l [] in
  ret (ScanExecutor (from_table m TupleSchema_create) t fs ban_all, l).

Definition join_executor (e r : Executor) (fs : list QueryFilter) (ban_all : bool) : CM Executor :=
  of_res (new_NestLoopJoinExecutor (append (output_schema r) (append (output_schema e) TupleSchema_create)) e r fs ban_all).

Fixpoint build_sub_query_executor (table_name : string) (l : list SqlCondition) (e : Executor) : CM (Executor * list SqlCondition) :=
  match l with
  | [] => ret (e, [])
  | c :: rest =>
      let p := plain_condition c in
      let! (e, c) :=
        (match left_selects c, right_selects c with
         | Some s, None =>
             let! (r, s) := build_nested s in
             let! cs := of_res (build_multi_table_conditions table_name (conditions s)) in
             ret (new_SubQueryExecutor e (default_table (Some table_name) (right_attr p)) (symmetric_op (comp p)) r cs,
                  set_left_selects s c)
         | None, Some s =>
             let! (r, s) := build_nested s in
             let! cs := of_res (build_multi_table_conditions table_name (conditions s)) in
             ret (new_SubQueryExecutor e (default_table (Some table_name) (left_attr p)) (comp p) r cs,
                  set_right_selects s c)
         | _, _ => ret (e, c)
         end) in
      let! (e, rest) := build_sub_query_executor table_name rest e in
      ret (e, c :: rest)
  end.

(** The other tables of the list. *)
Fixpoint join_tables (tables : list string) (e : Executor) (l : list SqlCondition) : CM (Executor * list SqlCondition) :=
  match tables with
  | [] => ret (e, l)
  | name :: rest =>
      let! (r, l) := scan_executor name l in
      let! (fs, ban_all, l) := from_conditions None true l [] in
      let! e := join_executor e r fs ban_all in
      join_tables rest e l
  end.

Definition build_select_executor (s : Selects) : CM (Executor * Selects) :=
  match reverse (relations s), relations s with
  | last :: others, first :: _ =>
      let! (e, l) := scan_executor last (conditions s) in
      let! (e, l) := join_tables others e l in
      let! (e, l) := build_sub_query_executor first l e in
      ret (e, with_conditions l s)
  | _, _ => undefined
  end.

(** The joins; [l] are the conditions of the statement. *)
Fixpoint join_joins (first : string) (js : list Join) (e : Executor) (l : list SqlCondition)
    : CM (Executor * list Join * list SqlCondition) :=
  match js with
  | [] => ret (e, [], l)
  | j :: rest =>
      let! (t, m) := table_of db (join_table j) in
      let! (fs, ban_all, jl) := from_conditions (Some m) false (join_conditions j) [] in
      let! (fs, ban_all, l) := (if ban_all then ret (fs, true, l) else from_conditions (Some m) false l fs) in
      let r := ScanExecutor (from_table m TupleSchema_create) t fs ban_all in
      let! (fs, ban_all, jl) := from_conditions None true jl [] in
      let! (fs, ban_all, l) := (match rest with
                                | [] => if ban_all then ret (fs, true, l) else from_conditions None true l fs
                                | _ => ret (fs, ban_all, l)
                                end) in
      let! e := join_executor e r fs ban_all in
      let! (e, jl) := build_sub_query_executor first jl e in
      let! (e, rest, l) := join_joins first rest e l in
      ret (e, with_join_conditions jl j :: rest, l)
  end.

Definition build_join_executor (e : Executor) (s : Selects) : CM (Executor * Selects) :=
  match relations s with
  | first :: _ => let! (e, js, l) := join_joins first (joins s) e (conditions s) in ret (e, with_joins js (with_conditions l s))
  | [] => undefined
  end.

Definition build_executor (s : Selects) : CM (Executor * Selects) :=
  let! (e, s) := build_select_executor s in
  let! (e, s) := build_join_executor e s in
  match aggregates s with
  | [] => let! (schema, s) := build_output_schema s db in ret (set_output_schema schema e, s)
  | _ => let! (schema, s) := build_agg_output_schema s db in ret (AggExecutor schema e, s)
  end.

End build.

Fixpoint build (depth : nat) (db : string) (s : Selects) : CM (Executor * Selects) :=
  match depth with
  | O => no_fuel
  | S depth =>
      let! d := find_db db in
      match d with None => undefined | Some _ => build_executor db (build depth db) s end
  end.

(** ** do_select_v2 *)

Definition multi_table (s : Selects) : bool := (1 <? alen (relations s)) || (0 <? alen (joins s)).

Definition do_select_v2 (depth : nat) (s : Selects) : M (ES R W) unit :=
  let! x := gets es_session in
  let! (e, s) := on_cs (build depth (current_db_ x) s) in
  let! (rc, e) := on_cs (on_tables (exec_init e)) in
  or_rollback fuel (return_rc rc) ;;
  let! (rc, set, _) := on_cs (on_tables (exec_next fuel e None)) in
  or_rollback fuel (return_rc rc) ;;
  let! text := of_res (set_print (multi_table s) set) in
  set_response text ;;
  end_trx_if_need fuel true.

End builder.
