(* ===== verification/Server.v ===== *)
(** * Statements (sql/executor/execute_stage.cpp, storage/default/default_storage_stage.cpp)

    [handle_request] of the execution stage checks a statement and runs it: queries itself, all statements on tables through
    [handle_event] of the storage stage, and those on the transaction on the session.  [Junk] is the uninitialised memory that a
    statement may use. *)
From Stdlib Require Import String Floats.SpecFloat.
From S2P Require Import Prelude ReturnCode Effects Bitmap Memory Replacer OsFile BufferPool.
From S2P Require Import RecordPage RecordFile KeyCompare BTreeNode BTree BTreeScan Dates TableMeta.
From S2P Require Import ConditionFilter Trx Index Table TableScan Db.
From S2P Require Import Values Expression Tuples TupleFilter Aggregation ExecNodes Syntax Select QueryFilter Executors.
From S2P Require Import ExecutorBuilder LoadData.

#[local] Open Scope c_scope.
#[local] Open Scope Z_scope.

Record Junk := {
  junk_filters : nat -> nat -> ConDesc * ConDesc; junk_record : nat -> list Z; junk_index : IndexFileHeader }.

(** ** Descriptions of tables *)

Definition field_desc (f : FieldMeta) : list Z :=
  bytes_of_string "field name=" ++ bytes_of_string (fm_name f) ++ bytes_of_string ", type=" ++
  bytes_of_string (attr_type_to_string (fm_type f)) ++ bytes_of_string ", len=" ++ decimal (fm_len f) ++
  bytes_of_string ", visible=" ++ bytes_of_string (if fm_visible f then "yes" else "no").

Definition index_desc (i : IndexMeta) : res (list Z) :=
  match im_fields i with
  | [] => Ub
  | f :: _ => Ok (bytes_of_string "index name=" ++ bytes_of_string (im_name i) ++ bytes_of_string ", field=" ++ bytes_of_string f)
  end.

Definition tab : list Z := [9].

Definition table_desc (m : TableMeta) : res (list Z) :=
  let? indexes := res_map index_desc (tm_indexes m) in
  Ok (bytes_of_string (tm_name m) ++ bytes_of_string "(" ++ newline ++
      concat ((fun f => tab ++ field_desc f ++ newline) <$> tm_fields m) ++
      concat ((fun d => tab ++ d ++ newline) <$> indexes) ++ bytes_of_string ")" ++ newline).

(** [snprintf] into a buffer of 256 characters. *)
Definition response_text (s : list Z) : list Z := take 255 s.

Definition success_text : list Z := bytes_of_string "SUCCESS" ++ newline.
Definition failure_text : list Z := bytes_of_string "FAILURE" ++ newline.
Definition outcome (rc : RC) : list Z := if bool_decide (rc = SUCCESS) then success_text else failure_text.

(** The codes of the statements. *)
Definition query_flag (q : Query) : Z :=
  match q with
  | SCF_ERROR => 0 | SCF_SELECT _ => 1 | SCF_INSERT _ => 2 | SCF_UPDATE _ => 3 | SCF_DELETE _ => 4 | SCF_CREATE_TABLE _ => 5
  | SCF_DROP_TABLE _ => 6 | SCF_CREATE_INDEX _ => 7 | SCF_DROP_INDEX _ => 8 | SCF_SYNC => 9 | SCF_SHOW_TABLES => 10
  | SCF_DESC_TABLE _ => 11 | SCF_BEGIN => 12 | SCF_COMMIT => 13 | SCF_ROLLBACK => 14 | SCF_LOAD_DATA _ => 15 | SCF_HELP => 16
  | SCF_EXIT => 17
  end.

(** ** Checks before a query *)

Section server.
Context {R W J T : Type} `{Replacer R} `{OS W} `{HashOrder} `{Json J T} `{MetaFiles W T} `{Dirs W} `{TableOrder}.
Context `{OperationOrder} `{StdSort} `{StdHash} `{StringObjects} `{InputFiles W}.
Variables (fuel depth : nat).

Abbreviation CM := (M (CS R W)).

Definition table_exists (db name : string) : CM bool :=
  let! t := find_table (Some db) (Some name) in ret (bool_decide (is_Some t)).

(** A loop over checks: the first that fails decides. *)
Fixpoint check_each {A} (check : A -> CM unit) (l : list A) : CM unit :=
  match l with [] => ret tt | x :: rest => check x ;; check_each check rest end.

Definition relation_exists (db name : string) : CM unit :=
  let! b := table_exists db name in fail_if (negb b) SCHEMA_TABLE_NOT_EXIST.

(** A column of a condition of a join: its table is named and known. *)
Definition join_attr_unknown (known : list string) (is_attr : Z) (attr : RelAttr) : bool :=
  negb (is_attr =? 0) && match relation_name attr with None => true | Some t => negb (bool_decide (t ∈ known)) end.

(** Another column: its table is not named or known. *)
Definition attr_unknown (known : list string) (is_attr : Z) (attr : RelAttr) : bool :=
  negb (is_attr =? 0) && match relation_name attr with None => false | Some t => negb (bool_decide (t ∈ known)) end.

Fixpoint check_joins (db : string) (known : list string) (js : list Join) : CM (list string) :=
  match js with
  | [] => ret known
  | j :: rest =>
      relation_exists db (join_table j) ;;
      let known := known ++ [join_table j] in
      fail_if (existsb (fun c => let p := plain_condition c in
                 join_attr_unknown known (left_is_attr p) (left_attr p) || join_attr_unknown known (right_is_attr p) (right_attr p))
                 (join_conditions j)) SCHEMA_TABLE_NOT_EXIST ;;
      check_joins db known rest
  end.

(** The column exists in a table that is looked up without a test. *)
Definition field_exists (db : string) (table_name : option string) (name : option string) : CM unit :=
  let! m := named_meta db table_name in fail_if (bool_decide (field_named m name = None)) SCHEMA_FIELD_NOT_EXIST.

(** A column with its table, or of the only table. *)
Definition check_attr (s : Selects) (db : string) (attr : RelAttr) : CM unit :=
  match relation_name attr with
  | Some t => field_exists db (Some t) (attribute_name attr)
  | None =>
      match relations s with
      | [t] => field_exists db (Some t) (attribute_name attr)
      | _ :: _ :: _ => fail SCHEMA_FIELD_NOT_EXIST
      | [] => ret tt
      end
  end.

Definition check_selected (s : Selects) (db : string) (attr : RelAttr) : CM unit :=
  match attribute_name attr with
  | None => fail SCHEMA_FIELD_NOT_EXIST
  | Some n => if String.eqb "*" n then ret tt else check_attr s db attr
  end.

Definition check_condition (s : Selects) (db : string) (c : SqlCondition) : CM unit :=
  let p := plain_condition c in
  (if left_is_attr p =? 1 then check_attr s db (left_attr p) else ret tt) ;;
  (if right_is_attr p =? 1 then check_attr s db (right_attr p) else ret tt).

Definition pre_check (db : string) (q : Query) : CM unit :=
  match q with
  | SCF_SELECT s =>
      check_each (relation_exists db) (relations s) ;;
      let! known := check_joins db (relations s) (joins s) in
      fail_if (existsb (attr_unknown known 1) (attributes s)) SCHEMA_TABLE_NOT_EXIST ;;
      fail_if (existsb (fun c => let p := plain_condition c in
                 attr_unknown known (left_is_attr p) (left_attr p) || attr_unknown known (right_is_attr p) (right_attr p))
                 (conditions s)) SCHEMA_TABLE_NOT_EXIST ;;
      check_each (check_selected s db) (attributes s) ;;
      check_each (check_condition s db) (conditions s)
  | _ => ret tt
  end.

Definition select_with_join_or_subselect (s : Selects) : bool :=
  (0 <? alen (joins s)) || existsb (fun c => is_select (left_selects c) || is_select (right_selects c)) (conditions s).

(** ** The storage stage *)

(** The rows of an insertion; row [i] uses [junk_record i]. *)
Fixpoint insert_pairs (db table_name : string) (junk : Junk) (i : nat) (pairs : list (list Value)) : CM unit :=
  match pairs with
  | [] => ret tt
  | values :: rest =>
      insert_record fuel (Some db) (Some table_name) (alen values) values (junk_record junk i) ;;
      insert_pairs db table_name junk (S i) rest
  end.

Definition plain_conditions (l : list SqlCondition) : list Condition := plain_condition <$> l.

Definition show_tables (db : string) : CM (list Z) :=
  let! d := find_db db in
  ret (match d with
       | None => bytes_of_string "No such database: " ++ bytes_of_string db ++ newline
       | Some d =>
           match (table_order (opened_tables_ d)).*1 with
           | [] => bytes_of_string "No table" ++ newline
           | names => concat ((fun n => bytes_of_string n ++ newline) <$> names) ++ newline
           end
       end).

Definition desc_table (db name : string) : CM (list Z) :=
  let! t := find_table (Some db) (Some name) in
  match t with
  | Some t => let! m := meta_of t in of_res (table_desc m)
  | None => ret (bytes_of_string "No such table: " ++ bytes_of_string name ++ newline)
  end.

(** The switch: the return code and the response. *)
Definition with_outcome (m : CM unit) : CM (RC * list Z) := let! rc := rc_of m in ret (rc, outcome rc).
Definition ignore_count {A} (m : CM A) : CM unit := let! _ := m in ret tt.

Definition delete_rc (m : CM (RC * Z)) : CM unit := let! (rc, _) := m in return_rc rc.

Definition storage_statement (junk : Junk) (db : string) (q : Query) : CM (RC * list Z) :=
  match q with
  | SCF_INSERT x => with_outcome (insert_pairs db (in_relation x) junk 0 (in_pairs x))
  | SCF_UPDATE x =>
      with_outcome (ignore_count (update_record fuel (Some db) (Some (up_relation x)) (Some (up_attribute x)) (up_value x)
                                    (junk_filters junk 0) (plain_conditions (up_conditions x))))
  | SCF_DELETE x =>
      with_outcome (delete_rc (delete_record fuel (Some db) (Some (de_relation x)) (junk_filters junk 0)
                                 (plain_conditions (de_conditions x))))
  | SCF_CREATE_TABLE x =>
      with_outcome (create_table (J := J) (T := T) db (ct_relation x) (alen (ct_attributes x)) (Some (ct_attributes x)))
  | SCF_DROP_TABLE name => with_outcome (drop_table db name)
  | SCF_CREATE_INDEX x =>
      with_outcome (create_index fuel (J := J) (T := T) (Some db) (Some (ci_relation x)) (Some (ci_index x)) (Some <$> ci_attributes x)
                      (ci_unique x) (junk_index junk))
  | SCF_SHOW_TABLES => let! text := show_tables db in ret (SUCCESS, text)
  | SCF_DESC_TABLE name => let! text := desc_table db name in ret (SUCCESS, text)
  | SCF_LOAD_DATA x =>
      let! text := load_data fuel db (ld_relation x) (ld_file x) (fun i => junk_record junk (Z.to_nat i)) in ret (SUCCESS, text)
  | _ => ret (SUCCESS, bytes_of_string "Unsupported sql: " ++ decimal (query_flag q) ++ newline)
  end.

(** [DefaultStorageStage::handle_event]; a commit that fails is followed by a rollback. *)
Definition storage_handle_event (junk : Junk) (q : Query) : M (ES R W) unit :=
  let! x := gets es_session in
  let! (rc, text) := on_cs (storage_statement junk (current_db_ x) q) in
  let! rc := (if bool_decide (rc = SUCCESS) && negb (trx_multi_operation_mode_ x) then rc_of (session_commit fuel) else ret rc) in
  let! rc := (if negb (bool_decide (rc = SUCCESS)) && negb (trx_multi_operation_mode_ x) then rc_of (session_rollback fuel) else ret rc) in
  set_response (response_text text).

(** ** The execution stage *)

Definition set_rc (rc : RC) : M (ES R W) unit := set_response (bytes_of_string (strrc rc)).

Definition help_text : list Z :=
  bytes_of_string "show tables;" ++ newline ++ bytes_of_string "desc `table name`;" ++ newline ++
  bytes_of_string "create table `table name` (`column name` `column type`, ...);" ++ newline ++
  bytes_of_string "create index `index name` on `table` (`column`);" ++ newline ++
  bytes_of_string "insert into `table` values(`value1`,`value2`);" ++ newline ++
  bytes_of_string "update `table` set column=value [where `column`=`value`];" ++ newline ++
  bytes_of_string "delete from `table` [where `column`=`value`];" ++ newline ++
  bytes_of_string "select [ * | `columns` ] from `table`;" ++ newline.

Definition run_select (junk : Junk) (s : Selects) : M (ES R W) unit :=
  let! rc := rc_of (if select_with_join_or_subselect s then do_select_v2 fuel depth s else do_select fuel (junk_filters junk) s) in
  if bool_decide (rc = SUCCESS) then ret tt else set_response failure_text.

Definition end_session_trx (m : M (ES R W) unit) : M (ES R W) unit :=
  let! rc := rc_of m in
  set_trx_multi_operation_mode false ;;
  set_rc rc.

(** The switch of [ExecuteStage::handle_request]. *)
Definition run_statement (junk : Junk) (q : Query) : M (ES R W) unit :=
  match q with
  | SCF_SELECT s => run_select junk s
  | SCF_INSERT _ | SCF_UPDATE _ | SCF_DELETE _ | SCF_CREATE_TABLE _ | SCF_SHOW_TABLES | SCF_DESC_TABLE _ | SCF_DROP_TABLE _
  | SCF_CREATE_INDEX _ | SCF_DROP_INDEX _ | SCF_LOAD_DATA _ => storage_handle_event junk q
  | SCF_SYNC => let! rc := rc_of (on_cs handler_sync) in set_rc rc
  | SCF_BEGIN => set_trx_multi_operation_mode true ;; set_rc SUCCESS
  | SCF_COMMIT => end_session_trx (session_commit fuel)
  | SCF_ROLLBACK => end_session_trx (session_rollback fuel)
  | SCF_HELP => set_response help_text
  | SCF_EXIT => set_response (bytes_of_string "Unsupported" ++ newline)
  | SCF_ERROR => ret tt
  end.

Definition handle_request (junk : Junk) (q : Query) : M (ES R W) unit :=
  let! x := gets es_session in
  let! rc := rc_of (on_cs (pre_check (current_db_ x) q)) in
  if bool_decide (rc = SUCCESS) then run_statement junk q else set_response failure_text.

End server.
