(* ===== verification/RowTheorems.v ===== *)
(** * Rows

    The way of a row through the program: what [make_record] has stored, and a transaction has marked, is
    what the scan of a query shows. *)
From Stdlib Require Import String Floats.SpecFloat.
From S2P Require Import Prelude ReturnCode Effects Bitmap Memory Replacer OsFile BufferPool.
From S2P Require Import RecordPage RecordFile KeyCompare BTreeNode BTree BTreeScan Dates TableMeta TableMetaTheorems.
From S2P Require Import ConditionFilter Trx Index Table TableTheorems TableScan Values SmallFloats Expression Tuples TuplesTheorems ExecNodes.
#[local] Open Scope c_scope.
#[local] Open Scope Z_scope.

(** ** Values *)

(** What a query shows of a value in a column. *)
Definition shown (f : FieldMeta) (v : Value) : TupleValue :=
  if v_isnull v then NullValue
  else match fm_type f with
  | INTS => IntValue (rd32 (v_data v) 0)
  | FLOATS => FloatValue (float_at (v_data v))
  | _ => new_StringValue (default [] (cstr (v_data v)))
  end.

(** A value in memory that ends within its column. *)
Definition ends_within (f : FieldMeta) (v : Value) : Prop :=
  v_isnull v = true \/
  match fm_type f with
  | INTS | FLOATS => fm_len f = 4
  | CHARS | DATES => is_Some (cstr (take (Z.to_nat (fm_len f)) (v_data v)))
  | _ => False
  end.

Lemma cstr_app a b s : cstr a = Some s -> cstr (a ++ b) = Some s.
Proof.
  revert s. induction a as [|x a IH]; intros s; [done|]. cbn [cstr app]. destruct (x =? 0); [done|].
  destruct (cstr a) as [s'|]; [|done]. by rewrite (IH s' eq_refl).
Qed.

Lemma cstr_prefix n d s : cstr (take n d) = Some s -> cstr d = Some s.
Proof. intros E. rewrite <- (take_drop n d). by apply cstr_app. Qed.

Lemma load_drop data off n l : load data off n = l -> 0 <= off ->
  exists rest, drop (Z.to_nat off) data = l ++ rest.
Proof. intros <- Ho. exists (drop (Z.to_nat n) (drop (Z.to_nat off) data)). unfold load. by rewrite take_drop. Qed.

(** ** Fields *)

Lemma stored_app rec tail k f v :
  0 <= k -> k / 8 < alen rec -> in_block rec (fm_offset f) (fm_len f) -> stored rec k f v -> stored (rec ++ tail) k f v.
Proof.
  intros Hk Hb Hin. unfold stored.
  assert (bit (rec ++ tail) k = bit rec k) as ->.
  { unfold bit, aget. pose proof (Z.div_pos k 8 Hk ltac:(lia)). destruct (Z.ltb_spec (k / 8) 0); [lia|].
    f_equal. apply lookup_total_app_l. unfold alen in Hb. lia. }
  assert (load (rec ++ tail) (fm_offset f) (fm_len f) = load rec (fm_offset f) (fm_len f)) as ->; [|done].
  unfold load, in_block, alen in *. rewrite drop_app_le by lia. rewrite take_app_le; [done|].
  rewrite length_drop. lia.
Qed.

Section rows.
Context {R W : Type} `{Replacer R} `{OS W} `{HashOrder}.
Implicit Types (s : TS (DB R W)) (p : option (Z * Z)).

Lemma bytes_at_run p s bytes : store_load p (ts_store s) = Some bytes -> bytes_at p s = (Ok bytes, s).
Proof. intros E. unfold bytes_at, record_bytes, bind, gets. cbn [rec_data]. by rewrite E. Qed.

(** The bytes of a field at the beginning of the memory that [field_bytes] gives. *)
Lemma field_bytes_run p s bytes f len :
  store_load p (ts_store s) = Some bytes -> 0 <= fm_offset f -> fm_offset f + len <= alen bytes ->
  field_bytes p f len s = (Ok (drop (Z.to_nat (fm_offset f)) bytes), s).
Proof.
  intros E Ho Hl. unfold field_bytes. rewrite (bind_run _ _ _ _ _ (bytes_at_run _ _ _ E)).
  replace (negb _) with false by lia. done.
Qed.

(** One column. *)
Lemma add_field_run t m p s bytes field tuple k f v :
  store_load p (ts_store s) = Some bytes ->
  field_named m (Some (tf_field_name field)) = Some f -> field_index m (Some (tf_field_name field)) = k ->
  0 <= k -> k / 8 < alen bytes -> in_block bytes (fm_offset f) (fm_len f) -> stored bytes k f v -> ends_within f v ->
  add_field t m p field tuple s = (Ok (add_value (shown f v) tuple), s).
Proof.
  intros E Hf Hi Hk Hb Hin Hst Hfits. unfold add_field. rewrite Hf, Hi.
  rewrite (bind_run _ _ _ _ _ (bytes_at_run _ _ _ E)). unfold null_bit.
  replace (negb _) with false by lia. cbn [undefined_if]. rewrite (bind_run _ _ s (get_bit bytes k) s) by done.
  rewrite get_bit_bit by done. unfold stored in Hst. unfold shown.
  destruct (v_isnull v) eqn:En; [by rewrite Hst|]. destruct Hst as [-> Hld]. destruct Hfits as [?|Hfits]; [congruence|].
  unfold in_block in Hin. destruct (load_drop _ _ _ _ Hld ltac:(lia)) as (rest & Er).
  assert (Hshort : forall n, n <= fm_len f -> field_bytes p f n s = (Ok (take (Z.to_nat (fm_len f)) (v_data v) ++ rest), s)).
  { intros n Hn. rewrite <- Er. apply field_bytes_run; [done|lia..]. }
  assert (Hword : fm_len f = 4 -> of_le32 (load (take (Z.to_nat (fm_len f)) (v_data v) ++ rest) 0 4) = of_le32 (load (v_data v) 0 4)).
  { intros El. f_equal. unfold load. rewrite !drop_0. change (Z.to_nat 4) with 4%nat. rewrite El. change (Z.to_nat 4) with 4%nat.
    rewrite take_app_le, take_take; [done|].
    assert (Hlen : alen (take (Z.to_nat (fm_len f)) (v_data v)) = fm_len f).
    { rewrite <- Hld. apply alen_load. unfold in_block. lia. }
    rewrite El in Hlen. unfold alen in Hlen. change (Z.to_nat 4) with 4%nat in Hlen. lia. }
  destruct (fm_type f) eqn:Et; try done.
  - rewrite (bind_run _ _ _ _ _ (Hshort 0 ltac:(lia))). destruct Hfits as [str Hs].
    rewrite (bind_run _ _ s str s) by (unfold c_string; by rewrite (cstr_app _ rest _ Hs)).
    by rewrite (cstr_prefix _ _ _ Hs).
  - rewrite (bind_run _ _ _ _ _ (Hshort 4 ltac:(lia))). unfold rd32. by rewrite Hword.
  - rewrite (bind_run _ _ _ _ _ (Hshort 0 ltac:(lia))). destruct Hfits as [str Hs].
    rewrite (bind_run _ _ s str s) by (unfold c_string; by rewrite (cstr_app _ rest _ Hs)).
    by rewrite (cstr_prefix _ _ _ Hs).
  - rewrite (bind_run _ _ _ _ _ (Hshort 4 ltac:(lia))). unfold float_at, rd32. by rewrite Hword.
Qed.

(** ** Rows *)

(** The metadata of a table that [TableMeta::init] has made from attributes with different names: the
    transaction number, which is not shown, and the columns. *)
Record row_meta (m : TableMeta) (columns : list FieldMeta) : Prop := {
  rm_ok : meta_ok m;
  rm_fields : exists trx, tm_fields m = trx :: columns /\ fm_visible trx = false /\ fm_len trx = 4;
  rm_visible : Forall (fun f => fm_visible f = true) columns;
  rm_names : NoDup (fm_name <$> tm_fields m) }.

Definition column (m : TableMeta) (f : FieldMeta) : TupleField :=
  {| tf_type := fm_type f; tf_table_name := tm_name m; tf_field_name := fm_name f; tf_order := 0 |}.

Lemma from_table_fields m (sc : TupleSchema) :
  fields_ (from_table m sc) = fields_ sc ++ (column m <$> filter (fun f => fm_visible f = true) (tm_fields m)).
Proof.
  unfold from_table. generalize (tm_fields m) as l. intros l. revert sc.
  induction l as [|f l IH]; intros sc; cbn [foldl]; [by rewrite app_nil_r|]. rewrite IH, filter_cons.
  destruct (fm_visible f) eqn:E; [|by rewrite decide_False]. rewrite decide_True by done.
  unfold schema_add. cbn [fields_ set_fields]. rewrite fmap_cons, <- app_assoc. done.
Qed.

Lemma row_schema m columns : row_meta m columns -> fields_ (from_table m TupleSchema_create) = column m <$> columns.
Proof.
  intros [_ (trx & E & Hv & _) Hc _]. rewrite from_table_fields, E, filter_cons, decide_False by congruence.
  cbn [fields_ TupleSchema_create app]. f_equal. clear E. induction Hc as [|f l Hf _ IH]; [done|].
  by rewrite filter_cons, decide_True, IH.
Qed.

Lemma find_name (l : list FieldMeta) (k : nat) f :
  NoDup (fm_name <$> l) -> l !! k = Some f -> list_find (fun g => fm_name g = fm_name f) l = Some (k, f).
Proof.
  intros Hn Hk. apply list_find_Some. split_and!; [done|done|]. intros j g Hj Hlt Hg.
  assert (j = k); [|lia]. apply (NoDup_lookup _ _ _ (fm_name f) Hn); rewrite list_lookup_fmap.
  - by rewrite Hj; simpl; f_equal.
  - by rewrite Hk.
Qed.

Lemma row_column m columns (j : nat) f :
  row_meta m columns -> columns !! j = Some f ->
  field_at m (Z.of_nat j + 1) = Some f /\ field_named m (Some (fm_name f)) = Some f /\
  field_index m (Some (fm_name f)) = Z.of_nat j + 1.
Proof.
  intros [_ (trx & E & _) _ Hn] Hj. assert (Hl : tm_fields m !! S j = Some f) by (by rewrite E).
  pose proof (find_name _ _ _ Hn Hl) as Hf. split_and!.
  - apply field_at_lookup. split; [lia|]. by replace (Z.to_nat (Z.of_nat j + 1)) with (S j) by lia.
  - unfold field_named. by rewrite Hf.
  - unfold field_index. rewrite Hf. lia.
Qed.

Lemma add_record_fields_run t m p s (fs : list FieldMeta) (vs : list Value) tuple :
  length fs = length vs ->
  (forall j f v tuple, fs !! j = Some f -> vs !! j = Some v ->
     add_field t m p (column m f) tuple s = (Ok (add_value (shown f v) tuple), s)) ->
  add_record_fields t m p (column m <$> fs) tuple s = (Ok (tuple ++ zip_with shown fs vs), s).
Proof.
  revert vs tuple. induction fs as [|f fs IH]; intros [|v vs] tuple Hl Hrun; try done; rewrite ?fmap_cons; cbn [add_record_fields zip_with].
  { by rewrite app_nil_r. }
  rewrite (bind_run _ _ _ _ _ (Hrun 0%nat f v tuple eq_refl eq_refl)). rewrite (IH vs).
  - unfold add_value. by rewrite <- app_assoc.
  - simpl in Hl. lia.
  - intros j f' v' tuple' Hj Hj'. by apply (Hrun (S j)).
Qed.

(** Writing the transaction number changes no column. *)
Lemma write_trx_stored m columns id del rec b (j : nat) f v :
  row_meta m columns -> alen rec = tm_record_size m -> write_trx m id del rec = Some b -> columns !! j = Some f ->
  stored rec (Z.of_nat j + 1) f v -> alen b = alen rec /\ stored b (Z.of_nat j + 1) f v.
Proof.
  intros Hm Hl Hw Hj Hst. destruct (row_column _ _ _ _ Hm Hj) as [Hat _].
  destruct Hm as [Hok (trx & E & _ & Hlen) _ _]. unfold write_trx, trx_offset, trx_field in Hw. rewrite E in Hw. cbn [head] in Hw.
  destruct ((0 <=? fm_offset trx) && _) eqn:Eb; [|done]. injection Hw as <-. apply andb_true_iff in Eb as [Eb1%Z.leb_le Eb2%Z.leb_le].
  assert (Ht : field_at m 0 = Some trx) by (apply field_at_lookup; by rewrite E).
  split; [apply alen_wr32; unfold in_block; lia|].
  eapply stored_same; [|exact Hst]. eapply (put_field m _ rec 0 trx); [by apply meta_layout|done|done| |done|lia].
  by rewrite Hlen.
Qed.

(** The record with the values as the checks have left them. *)
Lemma stored_row_is_read t x columns n mem values rec values' id del b p rest set s :
  let m := table_meta_ x in
  row_meta m columns -> alen values = n -> make_record m n mem values = (Ok rec, values') ->
  write_trx m id del rec = Some b -> db_tables (ts_store s) !! t = Some x -> store_load p (ts_store s) = Some (b ++ rest) ->
  fields_ (schema_ set) = fields_ (from_table m TupleSchema_create) -> Forall2 ends_within columns values' ->
  add_record t set p s = (Ok (add_tuple (zip_with shown columns values') set), s).
Proof.
  intros m Hm Hn Hrun Hw Ht Hp Hs Hfits. pose proof (meta_layout m (rm_ok _ _ Hm)) as Hlo.
  destruct (make_record_inv _ _ _ _ _ _ Hrun) as (Hnum & Ec & Hmem & Hcopy).
  destruct (copy_values_spec m _ 0 values' mem rec Hlo Hmem Hcopy) as (Hl & _ & Hst).
  unfold add_record. rewrite (bind_run _ _ s x s) by (unfold this, bind, gets; by rewrite Ht).
  fold m. rewrite Hs, (row_schema _ _ Hm).
  rewrite (bind_run _ _ s (zip_with shown columns values') s); [done|].
  apply (add_record_fields_run t m p s columns values' []); [by eapply Forall2_length|].
  intros j f v tuple Hj Hv. destruct (row_column _ _ _ _ Hm Hj) as (Hat & Hnamed & Hidx).
  destruct (Hst j v Hv) as (f' & Hf' & Hstj). change sys_field_num with 1 in *. rewrite Z.add_0_l in *.
  rewrite Hat in Hf'. injection Hf' as <-.
  destruct (write_trx_stored _ _ _ _ _ _ _ _ _ Hm Hl Hw Hj Hstj) as [Hlb Hsb].
  destruct (lo_field m _ Hlo _ _ Hat) as (Hk & Ho & Hlen & He).
  assert (Hkb : (Z.of_nat j + 1) / 8 < alen b) by (apply Z.div_lt_upper_bound; lia).
  assert (Hin : in_block b (fm_offset f) (fm_len f)) by (unfold in_block; lia).
  eapply (add_field_run t m p s (b ++ rest) (column m f) tuple (Z.of_nat j + 1) f v); try done.
  - lia.
  - unfold alen in *. rewrite length_app. lia.
  - unfold in_block, alen in *. rewrite length_app. lia.
  - apply stored_app; [lia|done|done|done].
  - by apply (Forall2_lookup_lr _ _ _ j _ _ Hfits).
Qed.

(** ** What a query shows of the values of a statement *)

Inductive inserted_as (f : FieldMeta) (v : Value) : TupleValue -> Prop :=
| as_null : v_isnull v = true -> inserted_as f v NullValue
| as_int : v_isnull v = false -> fm_type f = INTS -> v_type v = INTS -> inserted_as f v (IntValue (rd32 (v_data v) 0))
| as_float : v_isnull v = false -> fm_type f = FLOATS -> v_type v = FLOATS -> inserted_as f v (FloatValue (float_at (v_data v)))
| as_float_of_int x : v_isnull v = false -> fm_type f = FLOATS -> v_type v = INTS ->
    int_float x (rd32 (v_data v) 0) -> inserted_as f v (FloatValue x)
| as_string str : v_isnull v = false -> fm_type f = CHARS -> v_type v = CHARS -> cstr (v_data v) = Some str ->
    inserted_as f v (new_StringValue str)
| as_date str ys ms ds : v_isnull v = false -> fm_type f = DATES -> v_type v = CHARS -> cstr (v_data v) = Some str ->
    date_form ys ms ds str -> date_ok (numeral ys) (numeral ms) (numeral ds) ->
    inserted_as f v (new_StringValue (take 10 (date_bytes (numeral ys) (numeral ms) (numeral ds)))).

(** A value that the column can hold: its string ends within the column, and an integer for a column of floats is below
    2^24. *)
Definition fits (f : FieldMeta) (v : Value) : Prop :=
  v_isnull v = true \/
  match fm_type f with
  | INTS => fm_len f = 4
  | FLOATS => fm_len f = 4 /\ (v_type v = INTS -> small (rd32 (v_data v) 0))
  | CHARS => is_Some (cstr (take (Z.to_nat (fm_len f)) (v_data v)))
  | DATES => 11 <= fm_len f /\ v_type v = CHARS
  | _ => False
  end.

Lemma cstr_date y m d n rest : date_ok y m d -> (11 <= n)%nat ->
  cstr (take n (date_bytes y m d ++ rest)) = Some (take 10 (date_bytes y m d)).
Proof.
  intros Hok Hn. destruct (date_fields y m d Hok) as (Hy1 & Hy2 & Hm & Hd).
  assert (Hz : forall u w : list Z, Forall (fun b => b <> 0) u -> cstr (u ++ 0 :: w) = Some u).
  { induction 1 as [|b u Hb Hs IH]; [done|]. cbn [app cstr]. by rewrite (proj2 (Z.eqb_neq _ _) Hb), IH. }
  assert (Ht : forall v, 0 <= v < 100 -> Forall (fun b => b <> 0) (two v)).
  { intros v Hv. eapply Forall_impl; [by apply two_digits|]. intros b Hb ->. by vm_compute in Hb. }
  set (text := two (y / 100) ++ two (y mod 100) ++ dash :: two m ++ dash :: two d).
  assert (E : date_bytes y m d ++ rest = text ++ 0 :: 0 :: rest) by done.
  assert (El : length text = 10%nat) by done.
  assert (E10 : take 10 (date_bytes y m d) = text) by done.
  rewrite E, E10, take_app, El. rewrite take_ge by lia. replace (n - 10)%nat with (S (n - 11)) by lia. cbn [take firstn].
  apply Hz. unfold text. rewrite !Forall_app, !Forall_cons, !Forall_app, !Forall_cons. split_and!; auto.
Qed.

(** The value that the checks leave, in the column. *)
Lemma converted_shown f v v' :
  v_isnull v' = v_isnull v -> (v_isnull v = false -> converted f v (v_data v')) ->
  fits f v -> ends_within f v' /\ inserted_as f v (shown f v').
Proof.
  intros En Hc Hf. unfold shown, ends_within. rewrite En. destruct (v_isnull v) eqn:E; [split; [by left|by apply as_null]|].
  destruct Hf as [?|Hf]; [congruence|]. specialize (Hc eq_refl). clear En. revert Hc. generalize (v_data v') as data. intros data Hc.
  destruct Hc as [Et|str ys ms ds Et Ev Hs Hform Hok Hl|n w Et Ev -> Hl -> Hsmall].
  - destruct (fm_type f) eqn:Ef; try done.
    + split; [by right|]. destruct Hf as [str Hs]. apply cstr_prefix in Hs. rewrite Hs. by apply as_string.
    + split; [by right|]. by apply as_int.
    + destruct Hf as [_ Hv]. congruence.
    + split; [right; apply Hf|]. by apply as_float.
  - rewrite Et in *. destruct Hf as [Hf _]. split.
    + right. rewrite cstr_date by (done || lia). by eexists.
    + rewrite <- (take_ge (date_bytes _ _ _ ++ drop 12 (v_data v)) (11 + length (date_bytes (numeral ys) (numeral ms) (numeral ds) ++ drop 12 (v_data v)))) by lia.
      rewrite cstr_date by (done || lia). by eapply as_date.
  - rewrite Et in *. destruct Hf as [Hf Hn]. destruct (Hsmall (Hn Ev)) as [Hx Hi]. split; [by right|]. rewrite Hx. by eapply as_float_of_int.
Qed.

End rows.
