(* ===== verification/QueryTheorems.v ===== *)
(** * Theorems on the nodes of a plan

    Sorting puts the rows into the order of the statement; the product with the conditions between tables
    is the join; the output has the columns asked for. *)
From Stdlib Require Import String Floats.SpecFloat Sorted.
From S2P Require Import Prelude ReturnCode Effects Bitmap Memory KeyCompare Dates TableMeta ConditionFilter Table.
From S2P Require Import Values Expression Tuples TuplesTheorems KeyOrder TupleFilter Aggregation ExecNodes.

#[local] Open Scope c_scope.
#[local] Open Scope Z_scope.

(** ** Sorting *)

Definition sort_dirs (fields : list TupleField) : list bool := (fun f => negb (tf_order f =? 0)) <$> fields.

(** The values of the columns to sort by. *)
Definition sort_key (m : FieldIndex) (fields : list TupleField) (t : Tuple) : res (list TupleValue) :=
  res_map (fun f => column_value m (tf_table_name f) (tf_field_name f) t) fields.

Lemma sort_cmp_oc m fields l r ks a b :
  sort_key m fields l = Ok a -> sort_key m fields r = Ok b -> plain_key ks a -> plain_key ks b ->
  sort_cmp m fields l r = Ok (oc (sort_dirs fields) a b <? 0).
Proof.
  unfold sort_key. revert ks a b. induction fields as [|f fields IH]; intros ks a b; cbn [res_map sort_cmp].
  { intros [= <-] [= <-] _ _. done. }
  unfold column_value at 1 3, get_pointer.
  destruct (map_at m (tf_table_name f)) as [cols| | |]; cbn [res_bind]; try done.
  destruct (map_at cols (tf_field_name f)) as [i| | |]; cbn [res_bind]; try done.
  destruct (at_index l i) as [v| | |]; cbn [res_bind]; try done.
  destruct (res_map _ fields) as [a'| | |] eqn:Ea; cbn [res_bind]; try done. intros [= <-].
  destruct (at_index r i) as [w| | |]; cbn [res_bind]; try done.
  destruct (res_map (fun f => column_value m _ _ r) fields) as [b'| | |] eqn:Eb; cbn [res_bind]; try done. intros [= <-].
  intros Ha Hb. inversion Ha as [|k ? ks' ? Hv Ha']; subst. inversion Hb as [|? ? ? ? Hw Hb']; subst.
  cbn [oc sort_dirs fmap list_fmap tail]. destruct (compare_plain k v w Hv Hw) as (c & Ec & _). rewrite Ec. cbn [res_bind].
  destruct (Z.eqb_spec c 0) as [->|Hc]; cbn [negb]; [by apply (IH ks')|].
  destruct (tf_order f =? 0); cbn [negb]; f_equal; lia.
Qed.

Section sorting.
Context (ks dirs : list bool).

(** The comparison is a strict weak order on the keys of rows. *)
Lemma oc_order {A} (key : A -> list TupleValue) (l : list A) :
  (forall x, x ∈ l -> plain_key ks (key x)) -> strict_weak_order (fun x y => oc dirs (key x) (key y) <? 0) l.
Proof.
  intros Hk. split_and!.
  - intros x Hx. pose proof (oc_antisym dirs ks _ _ (Hk x Hx) (Hk x Hx)). lia.
  - intros x y z Hx Hy Hz Hxy Hyz. apply Z.ltb_lt in Hxy, Hyz.
    destruct (oc_trans dirs ks (key x) (key y) (key z)) as [Hle Heq]; [by apply Hk..|lia|lia|]. apply Z.ltb_lt.
    destruct (Z.eq_dec (oc dirs (key x) (key z)) 0) as [E|]; [destruct (Heq E); lia|lia].
  - intros x y z Hx Hy Hz Hxy Hyz. apply Z.ltb_ge in Hxy, Hyz. apply Z.ltb_ge.
    pose proof (oc_antisym dirs ks _ _ (Hk x Hx) (Hk y Hy)). pose proof (oc_antisym dirs ks _ _ (Hk y Hy) (Hk z Hz)).
    pose proof (oc_antisym dirs ks _ _ (Hk x Hx) (Hk z Hz)).
    destruct (oc_trans dirs ks (key z) (key y) (key x)) as [Hle _]; [by apply Hk..|lia|lia|]. lia.
Qed.
End sorting.

(** C20. ORDER BY: with any implementation of [std::sort] that keeps its contract, for rows whose columns to sort by
    are integers within 2^30 or strings, without nulls and floats, the result has the same rows with the same multiplicity, and
    each row comes before all rows behind it or equals them in the order of the statement: the first column with different
    values decides, upwards or downwards as was asked for.  Nulls end the program, and greater integers are compared
    wrongly. *)
Theorem order_by_sorted `{StdSortLaws} n set ks :
  (forall t, t ∈ tuples_ set -> exists a, sort_key (ob_field_index n) (fields_ (ob_schema n)) t = Ok a /\ plain_key ks a) ->
  exists rows, order_by_execute n set = Ok {| tuples_ := rows; schema_ := schema_ set |} /\ rows ≡ₚ tuples_ set /\
    StronglySorted (fun t u => forall a b, sort_key (ob_field_index n) (fields_ (ob_schema n)) t = Ok a ->
                                 sort_key (ob_field_index n) (fields_ (ob_schema n)) u = Ok b ->
                                 row_le (sort_dirs (fields_ (ob_schema n))) a b) rows.
Proof.
  set (m := ob_field_index n). set (fields := fields_ (ob_schema n)). intros Hk.
  pose (key := fun t => match sort_key m fields t with Ok a => a | _ => [] end).
  assert (Hkey : forall t, t ∈ tuples_ set -> sort_key m fields t = Ok (key t) /\ plain_key ks (key t)).
  { intros t Ht. destruct (Hk t Ht) as (a & E & Hp). unfold key. by rewrite E. }
  destruct (std_sort_sorts _ (sort_cmp m fields) (fun t u => oc (sort_dirs fields) (key t) (key u) <? 0) (tuples_ set))
    as (rows & E & Hperm & Hs).
  - intros t u Ht Hu. apply Hkey in Ht as [Et Pt], Hu as [Eu Pu]. by eapply sort_cmp_oc.
  - apply (oc_order ks). intros t Ht. by apply Hkey.
  - exists rows. split_and!; [unfold order_by_execute; fold m fields; by rewrite E|done|].
    assert (Hin : Forall (fun t => t ∈ tuples_ set) rows) by (apply Forall_forall; intros t Ht; by rewrite <- Hperm).
    clear Hperm E. induction Hs as [|t rows Hs IH Hall]; [constructor|]. apply Forall_cons_1 in Hin as [Ht Hin].
    constructor; [by apply IH|]. rewrite Forall_forall in Hall, Hin |- *. intros u Hu a b Ea Eb.
    destruct (Hkey t Ht) as [Et Pt], (Hkey u (Hin u Hu)) as [Eu Pu]. rewrite Et in Ea. rewrite Eu in Eb. simplify_eq.
    apply (oc_row_le _ ks); [done|done|]. specialize (Hall u Hu). apply Z.ltb_ge in Hall.
    pose proof (oc_antisym (sort_dirs fields) ks _ _ Pt Pu). lia.
Qed.

(** Insertion sort is an implementation. *)
Fixpoint insert_sorted {A} (cmp : A -> A -> res bool) (x : A) (l : list A) : res (list A) :=
  match l with
  | [] => Ok [x]
  | y :: rest => let? less := cmp y x in if less then let? l := insert_sorted cmp x rest in Ok (y :: l) else Ok (x :: y :: rest)
  end.

Fixpoint insertion_sort {A} (cmp : A -> A -> res bool) (l : list A) : res (list A) :=
  match l with [] => Ok [] | x :: rest => let? l := insertion_sort cmp rest in insert_sorted cmp x l end.

#[export] Instance insertion_std_sort : StdSort | 100 := { std_sort := @insertion_sort }.

Lemma insert_sorted_ok {A} (cmp : A -> A -> res bool) lt x l all :
  (forall x y, x ∈ all -> y ∈ all -> cmp x y = Ok (lt x y)) -> strict_weak_order lt all ->
  x ∈ all -> (forall y, y ∈ l -> y ∈ all) -> StronglySorted (fun x y => lt y x = false) l ->
  exists l', insert_sorted cmp x l = Ok l' /\ l' ≡ₚ x :: l /\ StronglySorted (fun x y => lt y x = false) l'.
Proof.
  intros Hc (Hirr & Htr & Hneg) Hx Hl Hs. induction Hs as [|y l Hs IH Hy].
  { eexists. split_and!; [done|done|]. constructor; constructor. }
  cbn [insert_sorted]. assert (Hya : y ∈ all) by (apply Hl; left). rewrite Hc by done. cbn [res_bind].
  destruct (lt y x) eqn:E.
  - destruct IH as (l' & -> & Hp & Hs'); [intros z Hz; apply Hl; by right|]. eexists. split_and!; [done| |].
    + by rewrite Hp, Permutation_swap.
    + constructor; [done|]. rewrite Hp. constructor; [|done].
      destruct (lt x y) eqn:E'; [|done]. pose proof (Htr y x y Hya Hx Hya E E'). by rewrite Hirr in *.
  - eexists. split_and!; [done|done|]. constructor; [by constructor|]. constructor; [done|].
    rewrite Forall_forall in Hy |- *. intros z Hz. assert (Hza : z ∈ all) by (apply Hl; by right).
    by apply (Hneg z y x Hza Hya Hx (Hy z Hz)).
Qed.

#[export] Instance insertion_std_sort_laws : StdSortLaws.
Proof.
  intros A cmp lt l Hc Hswo. cbn [std_sort insertion_std_sort].
  assert (H : forall k, (forall x, x ∈ k -> x ∈ l) ->
    exists k', insertion_sort cmp k = Ok k' /\ k' ≡ₚ k /\ StronglySorted (fun x y => lt y x = false) k'); [|by apply H].
  induction k as [|x k IH]; intros Hk; cbn [insertion_sort]; [eexists; split_and!; [done|done|constructor]|].
  destruct IH as (k' & -> & Hp & Hs); [intros y Hy; apply Hk; by right|]. cbn [res_bind].
  destruct (insert_sorted_ok cmp lt x k' l Hc Hswo) as (k2 & E & Hp2 & Hs2); [apply Hk; left| |done|].
  - intros y Hy. apply Hk. right. by rewrite <- Hp.
  - exists k2. split_and!; [done| |done]. by rewrite Hp2, Hp.
Qed.

(** ** Joins *)

(** [k] are the elements of [l] with the property, in their order. *)
Inductive selected {A} (P : A -> Prop) : list A -> list A -> Prop :=
| selected_nil : selected P [] []
| selected_keep x l k : P x -> selected P l k -> selected P (x :: l) (x :: k)
| selected_drop x l k : ~ P x -> selected P l k -> selected P (x :: l) k.

(** The two columns of a condition, which are null or values of one kind. *)
Definition columns_ok (f : DefaultCartesianFilter) (row : Tuple) : Prop :=
  exists v w, get_pointer row (cc_value_index (dc_left f)) = Ok v /\ get_pointer row (cc_value_index (dc_right f)) = Ok w /\
    (v = NullValue \/ w = NullValue \/ exists k, plain k v /\ plain k w).

(** The condition holds: neither column is null, and the values compare as asked for. *)
Definition meets (row : Tuple) (f : DefaultCartesianFilter) : Prop :=
  exists v w, get_pointer row (cc_value_index (dc_left f)) = Ok v /\ get_pointer row (cc_value_index (dc_right f)) = Ok w /\
    v <> NullValue /\ w <> NullValue /\ value_op (dc_op f) v w.

(** A string value of the type UNDEFINED is taken for a null by the filter; none is ever made. *)
Definition no_typeless (v : TupleValue) : Prop := match v with StringValue t _ => t <> UNDEFINED | _ => True end.

Lemma type_null v : no_typeless v -> bool_decide (Type_of v = UNDEFINED) = true <-> v = NullValue.
Proof. intros Hv. rewrite bool_decide_eq_true. destruct v as [x|x|t s|]; simpl in *; by split. Qed.

Lemma cartesian_filter_meaning f row :
  Forall no_typeless row -> columns_ok f row -> exists b, cartesian_filter f row = Ok b /\ (b = true <-> meets row f).
Proof.
  intros Hty (v & w & Hv & Hw & Hvw). unfold cartesian_filter. rewrite Hv, Hw. cbn [res_bind].
  assert (Hin : forall i x, get_pointer row i = Ok x -> no_typeless x).
  { intros i x Hx. unfold get_pointer, at_index in Hx. destruct (i <? 0); [done|].
    destruct (row !! Z.to_nat i) as [y|] eqn:E; [|done]. simplify_eq. rewrite Forall_forall in Hty. apply Hty.
    by eapply list_elem_of_lookup_2. }
  pose proof (type_null v (Hin _ _ Hv)) as Nv. pose proof (type_null w (Hin _ _ Hw)) as Nw.
  assert (Hmeets : meets row f <-> v <> NullValue /\ w <> NullValue /\ value_op (dc_op f) v w).
  { unfold meets. rewrite Hv, Hw. split; [intros (v' & w' & [= <-] & [= <-] & H); done|intros H; by exists v, w]. }
  setoid_rewrite Hmeets. destruct (bool_decide (Type_of v = UNDEFINED)).
  { exists false. split; [done|]. split; [done|]. intros (H & _). by destruct H; apply Nv. }
  destruct (bool_decide (Type_of w = UNDEFINED)); cbn [orb].
  { exists false. split; [done|]. split; [done|]. intros (_ & H & _). by destruct H; apply Nw. }
  destruct Hvw as [Hvw|[Hvw|(k & Pv & Pw)]]; [by apply Nv in Hvw|by apply Nw in Hvw|].
  destruct (compare_plain k v w Pv Pw) as (c & Ec & _). rewrite Ec. cbn [res_bind]. eexists. split; [done|].
  rewrite (compare_result_meaning k v w c (dc_op f) Pv Pw Ec). split; [|tauto]. intros H. split_and!; [| |done].
  - intros E. by apply Nv in E.
  - intros E. by apply Nw in E.
Qed.

Lemma composite_meaning fs row :
  Forall no_typeless row -> Forall (fun f => columns_ok f row) fs ->
  exists b, composite_cartesian_filter (Some <$> fs) row = Ok b /\ (b = true <-> Forall (meets row) fs).
Proof.
  intros Hty Hok. unfold composite_cartesian_filter. induction Hok as [|f fs Hf Hok IH]; [exists true; by split|].
  rewrite fmap_cons. cbn [all_filters non_null res_bind].
  destruct (cartesian_filter_meaning f row Hty Hf) as (b & -> & Hb). cbn [res_bind]. setoid_rewrite Forall_cons. setoid_rewrite <- Hb.
  destruct b; cbn [negb]; [|exists false; split; [done|naive_solver]]. destruct IH as (b' & -> & Hb'). exists b'. naive_solver.
Qed.

Lemma cartesian_rows fs rows set :
  Forall (fun row => Forall no_typeless (concat row) /\ Forall (fun f => columns_ok f (concat row)) fs) rows ->
  exists out, res_fold (cartesian_body (Some <$> fs)) rows set =
      Ok {| tuples_ := tuples_ set ++ out; schema_ := schema_ set |} /\
    selected (fun row => Forall (meets row) fs) ((fun row => concat row) <$> rows) out.
Proof.
  intros Hok. revert set. induction Hok as [|row rows [Hty Hf] _ IH]; intros set.
  { exists []. rewrite app_nil_r. split; [by destruct set|constructor]. }
  cbn [res_fold]. unfold cartesian_body at 1. destruct (composite_meaning fs (concat row) Hty Hf) as (b & -> & Hb).
  cbn [res_bind]. rewrite fmap_cons. destruct b.
  - destruct (IH (add_tuple (concat row) set)) as (out & -> & Hs). exists (concat row :: out).
    unfold add_tuple. cbn [tuples_ schema_]. rewrite <- app_assoc. split; [done|]. constructor; [by apply Hb|done].
  - destruct (IH set) as (out & -> & Hs). exists out. split; [done|]. constructor; [|done]. intros H. by apply Hb in H.
Qed.

(** C19. The join: the product of the tables with the conditions between them consists of exactly those combinations of one
    row of each table that meet all conditions, in lexicographic order; a null meets none.  The columns of the conditions
    must hold nulls, integers within 2^30 or strings ([columns_ok]): columns of floats are not covered, and for
    integers further apart the difference of the program overflows. *)
Theorem join_correct fuel n fs set :
  let combinations := (fun row => concat row) <$> product (tuples_ <$> ca_sets n) in
  ca_filter n = Some <$> fs -> (length combinations <= fuel)%nat ->
  Forall (fun row => Forall no_typeless row /\ Forall (fun f => columns_ok f row) fs) combinations ->
  exists rows, cartesian_execute fuel n set = Ok {| tuples_ := tuples_ set ++ rows; schema_ := ca_schema n |} /\
    selected (fun row => Forall (meets row) fs) combinations rows.
Proof.
  intros combinations Hf Hfuel Hok. unfold combinations in *. rewrite length_fmap in Hfuel. apply Forall_fmap in Hok.
  unfold cartesian_execute. rewrite descartes_for_product, Hf by done. by apply (cartesian_rows fs _ (set_schema (ca_schema n) set)).
Qed.
