(* ===== verification/SelectTheorems.v ===== *)
(** * Theorems on SELECT

    The map of positions that [do_select] computes agrees with the columns of the product; the output
    consists of the columns and expressions asked for; and the errors that the stage loses. *)
From Stdlib Require Import String Ascii Floats.SpecFloat.
From S2P Require Import Prelude ReturnCode Effects Bitmap Memory Replacer OsFile BufferPool.
From S2P Require Import RecordPage RecordFile KeyCompare BTreeNode BTree BTreeScan Dates TableMeta TableMetaTheorems.
From S2P Require Import ConditionFilter Trx Index Table TableScan TableFrame Db.
From S2P Require Import Values Expression Tuples TuplesTheorems TupleFilter Aggregation ExecNodes Syntax Select RowTheorems QueryTheorems.
#[local] Open Scope c_scope.
#[local] Open Scope Z_scope.

(** ** Positions *)

(** Every column of the list is found at its position. *)
Definition agrees (m : FieldIndex) (fields : list TupleField) : Prop :=
  forall (i : nat) f, fields !! i = Some f -> find_index_of m (tf_table_name f) (tf_field_name f) = Some (Z.of_nat i).

Lemma find_insert t n i (m : FieldIndex) t' n' :
  find_index_of (<[t := <[n := i]> (default ∅ (m !! t))]> m) t' n' =
  if decide ((t, n) = (t', n')) then Some i else find_index_of m t' n'.
Proof.
  unfold find_index_of. destruct (decide (t = t')) as [->|Ht].
  - rewrite lookup_insert_eq. destruct (decide (n = n')) as [->|Hn].
    + by rewrite lookup_insert_eq, decide_True.
    + rewrite lookup_insert_ne, decide_False by congruence. destruct (m !! t'); simpl; [done|]. by rewrite lookup_empty.
  - rewrite lookup_insert_ne, decide_False by congruence. done.
Qed.

Lemma find_add_positions t fs i m t' n' :
  NoDup (fm_name <$> fs) ->
  find_index_of (add_positions t fs i m) t' n' =
  if decide (t = t') then
    match list_find (fun f => fm_name f = n') fs with Some (j, _) => Some (i + Z.of_nat j) | None => find_index_of m t' n' end
  else find_index_of m t' n'.
Proof.
  revert i m. induction fs as [|f fs IH]; intros i m Hn; cbn [add_positions list_find].
  { by destruct (decide (t = t')). }
  rewrite fmap_cons in Hn. apply NoDup_cons in Hn as [Hf Hn]. rewrite IH by done. rewrite find_insert.
  destruct (decide (t = t')) as [->|Ht]; [|rewrite decide_False by congruence; done].
  destruct (decide (fm_name f = n')) as [<-|Hne].
  - destruct (list_find _ fs) as [[j g]|] eqn:E; [|rewrite decide_True by done; f_equal; lia].
    exfalso. apply list_find_Some in E as (Hj & Hg & _). apply Hf. rewrite <- Hg. apply list_elem_of_fmap.
    exists g. split; [done|]. by eapply list_elem_of_lookup_2.
  - destruct (list_find _ fs) as [[j g]|]; simpl; [f_equal; lia|]. by rewrite decide_False by congruence.
Qed.

(** ** Output *)

Lemma output_fields_run m (sc : TupleSchema) tuple fields output :
  agrees m (fields_ sc) -> length tuple = length (fields_ sc) -> Forall (fun f => key_of f ∈ (key_of <$> fields_ sc)) fields ->
  exists vs, output_fields m fields tuple output = Ok (output ++ vs) /\ Forall2 (has_columns sc tuple) fields vs.
Proof.
  intros Ha Hlen Hin. revert output. induction Hin as [|f fields Hf Hin IH]; intros output; cbn [output_fields].
  { exists []. by rewrite app_nil_r. }
  apply list_elem_of_fmap in Hf as (g & Eg & Hg). apply list_elem_of_lookup in Hg as (i & Hi).
  unfold key_of in Eg. injection Eg as Et En. pose proof (Ha i g Hi) as Hp. rewrite <- Et, <- En in Hp.
  unfold find_index_of in Hp. unfold map_at. destruct (m !! tf_table_name f) as [cols|]; [|done]. cbn [res_bind]. rewrite Hp. cbn [res_bind].
  destruct (lookup_lt_is_Some_2 tuple i) as [v Hv]; [rewrite Hlen; by eapply lookup_lt_Some|].
  rewrite (get_pointer_lookup _ _ v) by (lia || by rewrite Nat2Z.id). cbn [res_bind].
  destruct (IH (add_value v output)) as (vs & E & Hvs). exists (v :: vs). unfold add_value in E.
  split; [by rewrite <- app_assoc in E|]. constructor; [|done]. exists i, g. split_and!; [done| |done]. unfold key_of. by rewrite Et, En.
Qed.

(** The number that an expression of the output shows. *)
Definition shows (m : FieldIndex) (tuple : Tuple) (a : ast) (w : TupleValue) : Prop :=
  exists x, float_meaning tuple m a = Some x /\ value w = Ok x.

Lemma output_exps_run m tuple exps output :
  Forall (fun a => well_typed tuple m a = true /\ is_Some (float_meaning tuple m a)) exps ->
  exists ws, output_exps m exps tuple output = Ok (output ++ ws) /\ Forall2 (shows m tuple) exps ws.
Proof.
  intros H. revert output. induction H as [|a exps [Ht [x Hx]] H IH]; intros output; cbn [output_exps].
  { exists []. by rewrite app_nil_r. }
  pose proof (Calculate_result tuple m a Ht) as Hr. rewrite Hx in Hr. destruct Hr as (v & -> & _ & Hv).
  destruct (IH (add_value v output)) as (ws & E & Hws). exists (v :: ws). unfold add_value in E. rewrite <- app_assoc in E.
  split; [exact E|]. constructor; [by exists x|done].
Qed.

(** What a comparison of two floats means: floats that differ by less than 0.00001 count as equal. *)
Definition float_op (op : CompOp) (x y : float) : Prop :=
  let difference := SFsub 24 128 x y in
  let near := SFltb (SFopp eps5) (double_of_float difference) && SFltb (double_of_float difference) eps5 in
  let less := negb near && SFltb difference (S754_zero false) in
  let greater := negb near && SFltb (S754_zero false) difference in
  match op with
  | EQUAL_TO => near = true
  | NOT_EQUAL => near = false
  | LESS_THAN => less = true
  | LESS_EQUAL => near || less = true
  | GREAT_THAN => greater = true
  | GREAT_EQUAL => near || greater = true
  | _ => False
  end.

Lemma sign_of_cases d :
  d <> S754_nan ->
  let near := SFltb (SFopp eps5) (double_of_float d) && SFltb (double_of_float d) eps5 in
  (near = true /\ sign_of d = Ok 0) \/
  (near = false /\ SFltb (S754_zero false) d = true /\ SFltb d (S754_zero false) = false /\ sign_of d = Ok 1) \/
  (near = false /\ SFltb (S754_zero false) d = false /\ SFltb d (S754_zero false) = true /\ sign_of d = Ok (-1)).
Proof.
  intros Hn near. unfold sign_of. fold near. destruct near eqn:E; [by left|right]. subst near.
  destruct d as [|[]| |[] m e]; try done; [by right|by left|by right|by left].
Qed.

Lemma float_op_run op x y :
  SFsub 24 128 x y <> S754_nan ->
  exists c, compare (FloatValue x) (FloatValue y) = Ok c /\ (compare_result c op = true <-> float_op op x y).
Proof.
  intros Hn. unfold float_op, compare. rewrite bool_decide_eq_true_2 by done. cbn [value_pointer read_float res_bind].
  destruct (sign_of_cases _ Hn) as [(E & ->)|[(E & E1 & E2 & ->)|(E & E1 & E2 & ->)]]; eexists; (split; [done|]);
    rewrite ?E, ?E1, ?E2; by destruct op.
Qed.

(** A condition with expressions on a row: the sides are well typed and the difference of their values, if they have some, is
    a number. *)
Definition condition_ok (m : FieldIndex) (tuple : Tuple) (f : DefaultExpressionFilter) : Prop :=
  de_field_index f = m /\ side_ok (de_left f) m tuple = true /\ side_ok (de_right f) m tuple = true /\
  forall x y, side_meaning (de_left f) m tuple = Some x -> side_meaning (de_right f) m tuple = Some y ->
    SFsub 24 128 x y <> S754_nan.

Definition condition_holds (m : FieldIndex) (tuple : Tuple) (f : DefaultExpressionFilter) : Prop :=
  exists x y, side_meaning (de_left f) m tuple = Some x /\ side_meaning (de_right f) m tuple = Some y /\ float_op (de_op f) x y.

Lemma expression_filter_run m tuple f :
  condition_ok m tuple f -> exists b, expression_filter f tuple = Ok b /\ (b = true <-> condition_holds m tuple f).
Proof.
  intros (<- & Hl & Hr & Hc). unfold expression_filter, condition_holds. rewrite !expression_side_ok by done. cbn [res_bind].
  destruct (side_meaning (de_left f) _ _) as [x|]; [|exists false; split; [done|naive_solver]].
  cbn [fmap option_fmap option_map res_bind]. destruct (side_meaning (de_right f) _ _) as [y|]; [|exists false; split; [done|naive_solver]].
  destruct (float_op_run (de_op f) x y (Hc x y eq_refl eq_refl)) as (c & Ec & Hop). cbn [fmap option_fmap option_map]. unfold asserting.
  cbn [Type_of res_bind]. rewrite !bool_decide_eq_true_2, !bool_decide_eq_false_2 by done. cbn [andb orb res_bind]. rewrite Ec. cbn [res_bind].
  eexists. split; [done|]. rewrite Hop. split; [by intros ?; exists x, y|]. by intros (? & ? & [= <-] & [= <-] & ?).
Qed.

Lemma expressions_run m tuple fs :
  Forall (condition_ok m tuple) fs ->
  exists b, composite_expression_filter (Some <$> fs) tuple = Ok b /\ (b = true <-> Forall (condition_holds m tuple) fs).
Proof.
  unfold composite_expression_filter. induction 1 as [|f fs Hf Hfs IH]; [by exists true|].
  rewrite fmap_cons. cbn [all_filters non_null res_bind]. destruct (expression_filter_run m tuple f Hf) as (b & -> & Hb). cbn [res_bind].
  setoid_rewrite Forall_cons. destruct b; cbn [negb]; [|exists false; naive_solver]. destruct IH as (b' & -> & Hb'). exists b'. naive_solver.
Qed.

(** A row of the output: columns of the row, then values of expressions. *)
Definition output_row (sc : TupleSchema) (n : ExpExeNode) (tuple out : Tuple) : Prop :=
  exists vs ws, out = vs ++ ws /\ Forall2 (has_columns sc tuple) (fields_ (ex_schema n)) vs /\
    Forall2 (shows (ex_field_index n) tuple) (exps_ (ex_schema n)) ws.

(** C38. The output of a query: of the rows, those are shown, in their order, that meet all conditions with expressions, each with
    the values of the columns asked for by name, and behind them the numbers that the expressions asked for stand for.  It is
    required that the map of positions agrees with the columns of the product ([agrees]), that the columns asked for are
    among them, that each side of a condition is a constant number or a well-typed expression (a single column ends the
    program) and that the difference of the sides is a number ([condition_ok]), and that the expressions of the output are well typed and have no zero divisors.  A condition with
    a zero divisor holds for no row, and floats that differ by less than 0.00001 count as equal. *)
Theorem output_correct n fs (sc : TupleSchema) set :
  let m := ex_field_index n in
  agrees m (fields_ sc) -> ex_filter n = Some <$> fs ->
  Forall (fun f => key_of f ∈ (key_of <$> fields_ sc)) (fields_ (ex_schema n)) ->
  Forall (fun tuple => length tuple = length (fields_ sc) /\ Forall (condition_ok m tuple) fs /\
    Forall (fun a => well_typed tuple m a = true /\ is_Some (float_meaning tuple m a)) (exps_ (ex_schema n)))
    (tuples_ (ex_tuple_set n)) ->
  exists picked rows, exp_execute n set = Ok {| tuples_ := rows; schema_ := ex_schema n |} /\
    selected (fun tuple => Forall (condition_holds m tuple) fs) (tuples_ (ex_tuple_set n)) picked /\
    Forall2 (output_row sc n) picked rows.
Proof.
  intros m Ha Hf Hin Hrows. unfold exp_execute.
  cut (forall out, exists picked rows, res_fold (exp_row n) (tuples_ (ex_tuple_set n)) out =
         Ok {| tuples_ := tuples_ out ++ rows; schema_ := schema_ out |} /\
       selected (fun tuple => Forall (condition_holds m tuple) fs) (tuples_ (ex_tuple_set n)) picked /\
       Forall2 (output_row sc n) picked rows); [intros Hcut; exact (Hcut (set_schema (ex_schema n) (set_clear set)))|].
  induction Hrows as [|tuple tuples (Hlen & Hc & He) Hrows IH]; intros out; cbn [res_fold].
  { exists [], []. rewrite app_nil_r. split_and!; [by destruct out|constructor|constructor]. }
  unfold exp_row at 1. rewrite Hf. fold m. destruct (expressions_run m tuple fs Hc) as (b & -> & Hb). cbn [res_bind].
  destruct b.
  - destruct (output_fields_run m sc tuple (fields_ (ex_schema n)) [] Ha Hlen Hin) as (vs & -> & Hvs). cbn [res_bind app].
    destruct (output_exps_run m tuple (exps_ (ex_schema n)) vs He) as (ws & -> & Hws). cbn [res_bind].
    destruct (IH (add_tuple (vs ++ ws) out)) as (picked & rows & -> & Hs & Ho). exists (tuple :: picked), ((vs ++ ws) :: rows).
    unfold add_tuple. cbn [tuples_ schema_]. rewrite <- app_assoc. split_and!; [done|constructor; [by apply Hb|done]|].
    constructor; [|done]. by exists vs, ws.
  - cbn [res_bind]. destruct (IH out) as (picked & rows & -> & Hs & Ho). exists picked, rows. split_and!; [done| |done].
    constructor; [|done]. intros H. by apply Hb in H.
Qed.

Section select.
Context {R W J T : Type} `{Replacer R} `{OS W} `{HashOrder} `{Json J T} `{MetaFiles W T} `{Dirs W} `{TableOrder}.
Context `{OperationOrder} `{StdSort}.
Implicit Types (s : CS R W).

(** A table of the catalog with the columns of [TableMeta::init]. *)
Definition found_table (db : string) s (x : TableMeta * list FieldMeta) : Prop :=
  row_meta x.1 x.2 /\ named_meta db (Some (tm_name x.1)) s = (Ok x.1, s).

Definition columns_of (x : TableMeta * list FieldMeta) : list TupleField := column x.1 <$> x.2.

Lemma add_positions_agrees m acc x :
  row_meta x.1 x.2 -> agrees m acc -> (forall f, f ∈ acc -> tf_table_name f <> tm_name x.1) ->
  agrees (add_positions (tm_name x.1) x.2 (alen acc) (<[tm_name x.1 := ∅]> m)) (acc ++ columns_of x).
Proof.
  intros Hx Ha Hne i f Hi. pose proof (rm_names _ _ Hx) as Hn. destruct (rm_fields _ _ Hx) as (trx & E & _).
  rewrite E, fmap_cons in Hn. apply NoDup_cons in Hn as [_ Hn]. rewrite find_add_positions by done.
  apply lookup_app_Some in Hi as [Hi|[Hlen Hi]].
  - assert (Hf : tf_table_name f <> tm_name x.1) by (apply Hne; by eapply list_elem_of_lookup_2).
    rewrite decide_False by congruence. unfold find_index_of. rewrite lookup_insert_ne by congruence. by apply Ha.
  - unfold columns_of in Hi. rewrite list_lookup_fmap in Hi. destruct (x.2 !! _) as [g|] eqn:Eg; [|done]. injection Hi as <-.
    cbn [tf_table_name tf_field_name column]. rewrite decide_True by done. rewrite (find_name _ _ _ Hn Eg).
    f_equal. unfold alen. lia.
Qed.

Lemma field_positions_run db s l acc m :
  Forall (found_table db s) l -> NoDup (tm_name ∘ fst <$> l) -> agrees m acc ->
  (forall f x, f ∈ acc -> x ∈ l -> tf_table_name f <> tm_name x.1) ->
  exists m', field_positions db (tm_name ∘ fst <$> l) (alen acc) m s = (Ok m', s) /\
    agrees m' (acc ++ concat (columns_of <$> l)).
Proof.
  intros Hl. revert acc m. induction Hl as [|x l [Hx Hnamed] Hl IH]; intros acc m Hn Ha Hne; rewrite ?fmap_cons in *.
  { exists m. cbn. by rewrite app_nil_r. }
  cbn [field_positions]. unfold compose at 1 2. rewrite (bind_run _ _ _ _ _ Hnamed).
  destruct (rm_fields _ _ Hx) as (trx & E & _). unfold field_num. rewrite E. change sys_field_num with 1.
  cbn [drop Z.to_nat Pos.to_nat Pos.iter_op Nat.add]. change (drop (Z.to_nat 1) (trx :: x.2)) with x.2.
  apply NoDup_cons in Hn as [Hnx Hn].
  destruct (IH (acc ++ columns_of x) (add_positions (tm_name x.1) x.2 (alen acc) (<[tm_name x.1 := ∅]> m))) as (m' & Hm' & Ha').
  - done.
  - apply add_positions_agrees; [done|done|]. intros f Hf. apply (Hne f x Hf). left.
  - intros f y Hf Hy. apply elem_of_app in Hf as [Hf|Hf]; [apply (Hne f y Hf); by right|].
    apply list_elem_of_fmap in Hf as (g & -> & _). cbn [tf_table_name column]. intros Heq. apply Hnx.
    apply list_elem_of_fmap. by exists y.
  - exists m'. replace (alen acc + (alen (trx :: x.2) - 1)) with (alen (acc ++ columns_of x)).
    + split; [done|]. cbn [concat]. by rewrite app_assoc.
    + unfold columns_of, alen. rewrite length_app, length_fmap. cbn [length]. lia.
Qed.

Lemma tables_schema_run db s l (sc : TupleSchema) :
  Forall (found_table db s) l ->
  exists sc', tables_schema db (tm_name ∘ fst <$> l) sc s = (Ok sc', s) /\
    fields_ sc' = fields_ sc ++ concat (columns_of <$> l).
Proof.
  intros Hl. revert sc. induction Hl as [|x l [Hx Hnamed] Hl IH]; intros sc; rewrite ?fmap_cons.
  { exists sc. cbn. by rewrite app_nil_r. }
  cbn [tables_schema]. unfold compose at 1. rewrite (bind_run _ _ _ _ _ Hnamed).
  destruct (IH (from_table x.1 sc)) as (sc' & -> & E). exists sc'. split; [done|]. rewrite E, from_table_fields.
  cbn [concat]. rewrite app_assoc. do 2 f_equal. pose proof (row_schema _ _ Hx) as Hr. rewrite from_table_fields in Hr. exact Hr.
Qed.

(** The two numberings of the columns of a query agree: for different tables of the catalog, [create_field_index], which
    counts columns, and the schema that [create_cartesian_executor] builds for the product both succeed, and the map gives
    for every column of the product its position there. *)
Theorem positions_agree db q l s :
  relations q = reverse (tm_name ∘ fst <$> l) -> Forall (found_table db s) l -> NoDup (tm_name ∘ fst <$> l) ->
  exists m sc, create_field_index q db s = (Ok m, s) /\
    tables_schema db (reverse (relations q)) TupleSchema_create s = (Ok sc, s) /\
    fields_ sc = concat (columns_of <$> l) /\ agrees m (fields_ sc).
Proof.
  intros Hq Hl Hn. unfold create_field_index. rewrite Hq, reverse_involutive.
  destruct (field_positions_run db s l [] ∅ Hl Hn) as (m & Hm & Ha); [done|by intros f x Hf; apply elem_of_nil in Hf|].
  destruct (tables_schema_run db s l TupleSchema_create Hl) as (sc & Hsc & E). cbn [fields_ TupleSchema_create app] in E.
  exists m, sc. split_and!; [exact Hm|done|done|]. by rewrite E.
Qed.
End select.

(** ** The end of a statement *)

Section ends.
Context {R W J T : Type} `{Replacer R} `{OS W} `{HashOrder} `{Json J T} `{MetaFiles W T} `{Dirs W} `{TableOrder}.
Context `{OperationOrder} `{StdSort}.
Implicit Types (s : ES R W).

Definition same_session s s' : Prop := es_session s' = es_session s.

#[local] Instance same_session_order : PreOrder same_session.
Proof. split; [by intros s|]. intros s1 s2 s3 E1 E2. unfold same_session in *. congruence. Qed.

Definition same_client s s' : Prop := es_session s' = es_session s /\ es_response s' = es_response s.

#[local] Instance same_client_order : PreOrder same_client.
Proof. split; [by intros s|]. intros s1 s2 s3 [E1 F1] [E2 F2]. unfold same_client. split; congruence. Qed.

Lemma client_on_cs {A} (m : M (CS R W) A) : keeps same_client (on_cs m).
Proof. intros s. unfold on_cs. by destruct (m (es_cs s)). Qed.
#[local] Hint Resolve client_on_cs : frames.

Lemma client_end_trx_if_need fuel b : keeps same_client (end_trx_if_need (R := R) (W := W) fuel b).
Proof. unfold end_trx_if_need, session_commit, session_rollback. keeps_tac. Qed.

Lemma keeps_client {A} (m : M (ES R W) A) : keeps same_client m -> keeps same_session m.
Proof. intros Hm s. apply Hm. Qed.

Lemma keeps_on_cs {A} (m : M (CS R W) A) : keeps same_session (on_cs m).
Proof. apply keeps_client, client_on_cs. Qed.

Lemma keeps_must {A} (m : M (ES R W) A) : keeps same_session m -> keeps same_session (must m).
Proof. intros Hm. unfold must. keeps_tac. Qed.

Lemma keeps_set_response text : keeps same_session (set_response (R := R) (W := W) text).
Proof. by intros s. Qed.

#[local] Hint Resolve keeps_on_cs keeps_must keeps_set_response : frames.

Lemma keeps_end_trx_if_need fuel b : keeps same_session (end_trx_if_need (R := R) (W := W) fuel b).
Proof. apply keeps_client, client_end_trx_if_need. Qed.
#[local] Hint Resolve keeps_end_trx_if_need : frames.

Lemma keeps_or_rollback fuel {A} (m : M (ES R W) A) : keeps same_session m -> keeps same_session (or_rollback fuel m).
Proof. intros Hm. unfold or_rollback. keeps_tac. Qed.
#[local] Hint Resolve keeps_or_rollback : frames.

Lemma ended f g s rc s1 : rc_of (on_cs (on_tables (end_trx f g))) s = (Ok rc, s1) -> ts_trx (cs_ts (es_cs s1)) = Trx_create.
Proof.
  unfold rc_of, on_cs, on_tables, end_trx, bind, gets, set_trx, modify.
  destruct (end_operations f g _ SUCCESS _) as [[rc'| | |] x] eqn:Ee; cbn [fst snd]; [by destruct rc'; intros [= _ <-]| |done|done].
  exfalso. clear -Ee. revert Ee. generalize SUCCESS as rc'.
  generalize (operation_order (operations_ (ts_trx (cs_ts (es_cs s))))) as l. generalize (cs_ts (es_cs s)) as y.
  intros y l. revert y. induction l as [|[[t rid] k] l IH]; intros y rc' E; [done|]. cbn [end_operations] in E.
  unfold bind, rc_of in E. destruct k; [destruct (f t rid y) as [[]]| |destruct (g t rid y) as [[]]|]; try done; cbn [ret] in E; by eapply IH.
Qed.

Lemma end_trx_ends fuel b (s s' : ES R W) r :
  end_trx_if_need fuel b s = (Ok r, s') -> trx_multi_operation_mode_ (es_session s) = false -> ts_trx (cs_ts (es_cs s')) = Trx_create.
Proof.
  unfold end_trx_if_need, bind at 1, gets. intros E Hm. rewrite Hm in E. apply bind_Ok in E as (rc & s1 & E & [= _ <-]).
  destruct b; by eapply ended.
Qed.

Lemma session_bind {A B} (m : M (ES R W) A) (k : A -> M (ES R W) B) s b s' :
  bind m k s = (Ok b, s') -> keeps same_session m -> exists a s1, es_session s1 = es_session s /\ k a s1 = (Ok b, s').
Proof.
  intros (a & s1 & E1 & E2)%bind_Ok Hm. exists a, s1. split; [|done]. specialize (Hm s). by rewrite E1 in Hm.
Qed.

(** The steps of a query before its end. *)
Lemma do_select_ends fuel junk q s r s' :
  do_select fuel junk q s = (Ok r, s') ->
  exists s1 text, es_session s1 = es_session s /\ es_response s1 = Some text /\ end_trx_if_need fuel true s1 = (Ok r, s').
Proof.
  intros E. unfold do_select in E.
  repeat match type of E with
  | bind (set_response ?text) _ ?x = _ => exists (set_response text x).2, text; split; [|split; [reflexivity|exact E]]
  | bind _ _ _ = _ =>
      let a := fresh "a" in let x := fresh "s1" in let Hs := fresh "Hs" in
      apply session_bind in E as (a & x & Hs & E); [|solve [keeps_tac]]
  | (let '(_, _) := ?p in _) _ = _ => destruct p
  end.
  cbn [set_response modify snd es_session]. congruence.
Qed.

(** A query that succeeds outside of a transaction of several statements has an answer and leaves no transaction open,
    whatever was open before; the session is the same. *)
Theorem select_ends_transaction fuel junk q s s' :
  do_select fuel junk q s = (Ok tt, s') -> trx_multi_operation_mode_ (es_session s) = false ->
  ts_trx (cs_ts (es_cs s')) = Trx_create /\ es_session s' = es_session s /\ is_Some (es_response s').
Proof.
  intros E Hm. destruct (do_select_ends _ _ _ _ _ _ E) as (s1 & text & Hs & Ht & Ee). split_and!.
  - eapply end_trx_ends; [exact Ee|]. by rewrite Hs.
  - rewrite <- Hs. pose proof (client_end_trx_if_need fuel true s1) as [Hk _]. by rewrite Ee in Hk.
  - exists text. rewrite <- Ht. pose proof (client_end_trx_if_need fuel true s1) as [_ Hk]. by rewrite Ee in Hk.
Qed.
End ends.
