(* ===== verification/ServerTheorems.v ===== *)
(** * Theorems on statements

    Reading leaves the transaction as it is; every statement outside of a transaction of several statements leaves none
    open, whatever its outcome. *)
From Stdlib Require Import String Floats.SpecFloat.
From S2P Require Import Prelude ReturnCode Effects Bitmap Memory Replacer OsFile BufferPool.
From S2P Require Import RecordPage RecordFile KeyCompare BTreeNode BTree BTreeScan Dates TableMeta.
From S2P Require Import ConditionFilter Trx Index Table TableScan TableFrame TrxTheorems TrxRuns Db.
From S2P Require Import Values Expression Tuples TupleFilter Aggregation ExecNodes Syntax Select SelectTheorems QueryFilter Executors.
From S2P Require Import ExecutorBuilder LoadData Server.

#[local] Open Scope c_scope.
#[local] Open Scope Z_scope.

(** ** Reading keeps the transaction *)

Section reading.
Context {R W : Type} `{Replacer R} `{OS W} `{HashOrder}.
Implicit Types (t : Z) (rid : RID) (fuel : nat).

(** The transaction object stays. *)
Definition same_object (y y' : Trx * Z) : Prop := y'.1 = y.1.
#[export] Instance same_object_order : PreOrder same_object.
Proof. split; [by intros ?|]. intros ??? E1 E2. unfold same_object in *. congruence. Qed.
Abbreviation same_trx := (trx_rel (R := R) (W := W) same_object).

#[local] Hint Resolve trx_on_pool trx_on_page_handler trx_on_index trx_upd_table trx_this trx_on_index_at trx_record_bytes
  trx_is_visible trx_null_bit trx_record_handler trx_handler_get trx_read_text : frames.

(** *** Rows *)

Lemma trx_add_field t m p field tuple : keeps same_trx (add_field t m p field tuple).
Proof. unfold add_field, tuple_add_text_field, c_string, field_bytes, bytes_at. keeps_tac. Qed.
#[local] Hint Resolve trx_add_field : frames.
Lemma trx_add_record t set p : keeps same_trx (add_record t set p).
Proof.
  unfold add_record. apply keeps_bind; [apply _|auto with frames typeclass_instances|]. intros x. apply keeps_bind; [apply _| |intros; keeps_tac].
  generalize (@nil TupleValue) as tuple. induction (fields_ (schema_ set)) as [|f l IH]; intros tuple; simpl; keeps_tac.
Qed.

Lemma trx_select_execute fuel n set : keeps same_trx (select_execute fuel n set).
Proof. apply (trx_scan_bytes same_object). intros. apply trx_add_record. Qed.

(** *** The end of a transaction *)

(** The transaction is the same, or there is none. *)
Definition no_new_trx (s s' : TS (DB R W)) : Prop := ts_trx s' = ts_trx s \/ ts_trx s' = Trx_create.

Lemma end_trx_closes f g :
  (forall t rid, keeps same_trx (f t rid)) -> (forall t rid, keeps same_trx (g t rid)) -> forall `{OperationOrder},
  keeps no_new_trx (end_trx f g).
Proof.
  intros Hf Hg HO s. unfold end_trx, bind at 1, gets.
  assert (He : forall l rc, keeps same_trx (end_operations f g l rc)).
  { induction l as [|[[t rid] k] l IH]; intros rc; simpl; keeps_tac; auto with frames. }
  unfold bind at 1. specialize (He (operation_order (operations_ (ts_trx s))) SUCCESS s).
  destruct (end_operations f g _ SUCCESS s) as [[rc| | |] s1]; try by left. right. by destruct rc.
Qed.

(** *** Executors *)

Context `{StdHash} `{StringObjects}.

Lemma trx_bind_filter m f : keeps same_trx (bind_filter (R := R) (W := W) m f).
Proof. unfold bind_filter. destruct (bind_table m f) as [[] ?]; keeps_tac. Qed.
#[local] Hint Resolve trx_bind_filter : frames.
Lemma trx_bind_filters m l : keeps same_trx (bind_filters (R := R) (W := W) m l).
Proof. induction l as [|f l IH]; simpl; keeps_tac. Qed.
Lemma trx_rebind m l : keeps same_trx (rebind (R := R) (W := W) m l).
Proof. induction l as [|f l IH]; simpl; keeps_tac. Qed.
#[local] Hint Resolve trx_bind_filters trx_rebind : frames.

Lemma trx_exec_init e : keeps same_trx (exec_init (R := R) (W := W) e).
Proof. induction e; simpl; keeps_tac. Qed.

Lemma trx_ScanExecutor_next fuel schema t own b filters : keeps same_trx (ScanExecutor_next fuel schema t own b filters).
Proof.
  assert (Hs : forall flt set, keeps same_trx (scan_bytes fuel t false flt (-1) set (add_record t)))
    by (intros; apply (trx_scan_bytes same_object); intros; apply trx_add_record).
  assert (Hu : forall flt (set : TupleSet), keeps same_trx (scan_bytes fuel t false flt (-1) set (fun _ _ => undefined)))
    by (intros; apply (trx_scan_bytes same_object); intros; keeps_tac).
  unfold ScanExecutor_next, scan_filtered. keeps_tac.
Qed.
#[local] Hint Resolve trx_ScanExecutor_next : frames.

Lemma trx_add_multi m v conditions fs : keeps same_trx (add_multi_table_filter (S := TS (DB R W)) m v conditions fs).
Proof.
  revert fs. induction conditions as [|c l IH]; intros fs; simpl; [keeps_tac|]. destruct (correlated _ _ _); [|apply IH].
  unfold filter_from_condition, constant_side, no_sub_query. keeps_tac; apply IH.
Qed.
#[local] Hint Resolve trx_add_multi : frames.

Lemma trx_keep_correlated next_right m op index conditions i tuples fs :
  (forall fs, keeps same_trx (next_right fs)) ->
  keeps same_trx (keep_correlated (R := R) (W := W) next_right m op index conditions i tuples fs).
Proof. intros Hn. revert i fs. induction tuples as [|t l IH]; intros i fs; simpl; keeps_tac; auto. Qed.

Lemma trx_exec_next fuel e filters : keeps same_trx (exec_next (R := R) (W := W) fuel e filters).
Proof.
  revert filters. induction e; intros flt; simpl; keeps_tac; auto; apply trx_keep_correlated; intros; keeps_tac; auto.
Qed.
End reading.

(** ** Statements *)

Section statements.
Context {R W J T : Type} `{Replacer R} `{OS W} `{HashOrder} `{Json J T} `{MetaFiles W T} `{Dirs W} `{TableOrder}.
Context `{OperationOrder} `{StdSort} `{StdHash} `{StringObjects} `{InputFiles W}.
Implicit Types (fuel depth : nat) (q : Query) (sel : Selects) (db : string).

#[local] Abbreviation same_trx := (trx_rel (R := R) (W := W) same_object).

Definition same_trx_cs (s s' : CS R W) : Prop := same_trx (cs_ts s) (cs_ts s').
#[local] Instance same_trx_cs_order : PreOrder same_trx_cs.
Proof. split; [by intros ?|]. intros ??? E1 E2. unfold same_trx_cs, same_trx in *. congruence. Qed.

Lemma cs_on_tables {A} (m : M (TS (DB R W)) A) : keeps same_trx m -> keeps same_trx_cs (on_tables m).
Proof. intros Hm s. unfold on_tables. specialize (Hm (cs_ts s)). by destruct (m (cs_ts s)). Qed.
#[local] Hint Resolve cs_on_tables trx_this : frames.

Lemma cs_try {A} (m : M (CS R W) A) : keeps same_trx_cs m -> keeps same_trx_cs (try m).
Proof. apply keeps_try. Qed.
Lemma cs_must {A} (m : M (CS R W) A) : keeps same_trx_cs m -> keeps same_trx_cs (must m).
Proof. intros Hm. unfold must. keeps_tac. Qed.
Lemma cs_find_db db : keeps same_trx_cs (find_db (R := R) (W := W) db).
Proof. unfold find_db. keeps_tac. Qed.
#[local] Hint Resolve cs_find_db cs_must : frames.
Lemma cs_find_table (db name : option string) : keeps same_trx_cs (find_table (R := R) (W := W) db name).
Proof. unfold find_table. keeps_tac. Qed.
Lemma cs_meta_of t : keeps same_trx_cs (meta_of (R := R) (W := W) t).
Proof. apply cs_on_tables. keeps_tac. Qed.
#[local] Hint Resolve cs_find_table cs_meta_of : frames.
Lemma cs_named_meta db name : keeps same_trx_cs (named_meta (R := R) (W := W) db name).
Proof. unfold named_meta. keeps_tac. Qed.
Lemma cs_table_of db name : keeps same_trx_cs (table_of (R := R) (W := W) db name).
Proof. unfold table_of. keeps_tac. Qed.
#[local] Hint Resolve cs_named_meta cs_table_of : frames.
Lemma cs_tables_schema db l sc : keeps same_trx_cs (tables_schema (R := R) (W := W) db l sc).
Proof. revert sc. induction l as [|t l IH]; intros sc; simpl; keeps_tac; auto. Qed.
#[local] Hint Resolve cs_tables_schema : frames.

(** *** The steps of [do_select] *)

Lemma cs_create_selections sel db junk i tables l : keeps same_trx_cs (create_selections (R := R) (W := W) sel db junk i tables l).
Proof.
  revert i l. induction tables as [|t tables IH]; intros i l; simpl; unfold create_selection_executor; keeps_tac; auto.
Qed.
Lemma cs_execute_selections fuel ns : keeps same_trx_cs (execute_selections (R := R) (W := W) fuel ns).
Proof.
  assert (Hn : forall n set, keeps same_trx_cs (on_tables (select_execute fuel n set)))
    by (intros; apply cs_on_tables, trx_select_execute).
  induction ns as [|n ns IH]; simpl; keeps_tac.
Qed.
Lemma cs_field_positions db l i m : keeps same_trx_cs (field_positions (R := R) (W := W) db l i m).
Proof. revert i m. induction l as [|t l IH]; intros i m; simpl; keeps_tac; auto. Qed.
Lemma cs_joined_tuples fuel sel db sets m : keeps same_trx_cs (joined_tuples (R := R) (W := W) fuel sel db sets m).
Proof. unfold joined_tuples, create_cartesian_executor. keeps_tac. Qed.
Lemma cs_order_by_schema db t l sc : keeps same_trx_cs (order_by_schema (R := R) (W := W) db t l sc).
Proof. revert sc. induction l as [|o l IH]; intros sc; simpl; keeps_tac; auto. Qed.
Lemma cs_multi_columns db tables l sc : keeps same_trx_cs (multi_columns (R := R) (W := W) db tables l sc).
Proof. revert sc. induction l as [|o l IH]; intros sc; simpl; keeps_tac; auto. Qed.
#[local] Hint Resolve cs_create_selections cs_execute_selections cs_field_positions cs_joined_tuples cs_order_by_schema
  cs_multi_columns : frames.
Lemma cs_sorted_output sel db tuples m : keeps same_trx_cs (sorted_output (R := R) (W := W) sel db tuples m).
Proof. unfold sorted_output, create_orderby_executor, create_output_executor, Select.output_schema. keeps_tac. Qed.
Lemma cs_aggregate_descs sel db l : keeps same_trx_cs (aggregate_descs (R := R) (W := W) sel db l).
Proof. induction l as [|a l IH]; simpl; unfold aggreDesc_check_and_set; keeps_tac. Qed.
Lemma cs_group_by_schema db t l sc : keeps same_trx_cs (group_by_schema (R := R) (W := W) db t l sc).
Proof. revert sc. induction l as [|a l IH]; intros sc; simpl; keeps_tac; auto. Qed.
#[local] Hint Resolve cs_sorted_output cs_aggregate_descs cs_group_by_schema : frames.
Lemma cs_create_aggregation sel db tuples : keeps same_trx_cs (create_aggregation_executor (R := R) (W := W) sel db tuples).
Proof. unfold create_aggregation_executor. keeps_tac. Qed.
#[local] Hint Resolve cs_create_aggregation : frames.

(** *** Building executors *)

Section building.
Variables (fuel : nat) (db : string) (nested : Selects -> M (CS R W) (Executor * Selects)).
Hypothesis Hnested : forall sel, keeps same_trx_cs (nested sel).

Lemma cs_exec_init e : keeps same_trx_cs (on_tables (exec_init (R := R) (W := W) e)).
Proof. apply cs_on_tables, trx_exec_init. Qed.
Lemma cs_exec_next e fs : keeps same_trx_cs (on_tables (exec_next (R := R) (W := W) fuel e fs)).
Proof. apply cs_on_tables, trx_exec_next. Qed.
#[local] Hint Resolve cs_exec_init cs_exec_next : frames.
Lemma cs_from_selects sel : keeps same_trx_cs (construct_tuple_value_from_selects fuel nested sel).
Proof. unfold construct_tuple_value_from_selects. keeps_tac. Qed.
#[local] Hint Resolve cs_from_selects : frames.
Lemma cs_from_condition m b c : keeps same_trx_cs (filter_from_condition (construct_tuple_value_from_selects fuel nested) m b c).
Proof. unfold filter_from_condition, constant_side. keeps_tac. Qed.
#[local] Hint Resolve cs_from_condition : frames.
Lemma cs_from_conditions m b l fs :
  keeps same_trx_cs (filters_from_conditions (construct_tuple_value_from_selects fuel nested) m b l fs).
Proof. revert fs. induction l as [|c l IH]; intros fs; cbn [filters_from_conditions]; keeps_tac; auto. Qed.
#[local] Hint Resolve cs_from_conditions : frames.
Lemma cs_scan_executor name l : keeps same_trx_cs (scan_executor fuel db nested name l).
Proof. unfold scan_executor. keeps_tac. Qed.
#[local] Hint Resolve cs_scan_executor : frames.
Lemma cs_sub_query name l e : keeps same_trx_cs (build_sub_query_executor nested name l e).
Proof. revert e. induction l as [|c l IH]; intros e; cbn [build_sub_query_executor]; keeps_tac; auto. Qed.
Lemma cs_join_tables tables e l : keeps same_trx_cs (join_tables fuel db nested tables e l).
Proof. revert e l. induction tables as [|t tables IH]; intros e l; cbn [join_tables]; unfold join_executor; keeps_tac; auto. Qed.
#[local] Hint Resolve cs_sub_query cs_join_tables : frames.
Lemma cs_join_joins name js e l : keeps same_trx_cs (join_joins fuel db nested name js e l).
Proof. revert e l. induction js as [|j js IH]; intros e l; cbn [join_joins]; unfold join_executor; keeps_tac; auto. Qed.
#[local] Hint Resolve cs_join_joins : frames.
Lemma cs_output_columns t l sc : keeps same_trx_cs (output_columns (R := R) (W := W) db t l sc).
Proof. revert sc. induction l as [|c l IH]; intros sc; cbn [output_columns]; keeps_tac; auto. Qed.
Lemma cs_agg_descs sel l : keeps same_trx_cs (agg_descs (R := R) (W := W) sel db l).
Proof. induction l as [|a l IH]; cbn [agg_descs]; unfold agg_desc; keeps_tac. Qed.
Lemma cs_agg_group_bys sel l sc : keeps same_trx_cs (agg_group_bys (R := R) (W := W) sel db l sc).
Proof. revert sc. induction l as [|c l IH]; intros sc; cbn [agg_group_bys]; keeps_tac; auto. Qed.
#[local] Hint Resolve cs_output_columns cs_agg_descs cs_agg_group_bys : frames.
Lemma cs_build_executor sel : keeps same_trx_cs (build_executor fuel db nested sel).
Proof.
  unfold build_executor, build_select_executor, build_join_executor, build_agg_output_schema, build_output_schema. keeps_tac.
Qed.
End building.

Lemma cs_build fuel depth db sel : keeps same_trx_cs (build (R := R) (W := W) fuel depth db sel).
Proof.
  revert sel. induction depth as [|depth IH]; intros sel; cbn [build]; [keeps_tac|].
  apply keeps_bind; [apply _|keeps_tac|]. intros [d|]; [by apply cs_build_executor|keeps_tac].
Qed.

(** *** Checks *)

Lemma cs_check_each {A} (check : A -> M (CS R W) unit) l :
  (forall x, keeps same_trx_cs (check x)) -> keeps same_trx_cs (check_each check l).
Proof. intros Hc. induction l as [|x l IH]; simpl; keeps_tac. Qed.
Lemma cs_relation_exists db name : keeps same_trx_cs (relation_exists (R := R) (W := W) db name).
Proof. unfold relation_exists, table_exists. keeps_tac. Qed.
#[local] Hint Resolve cs_relation_exists : frames.
Lemma cs_check_joins db known js : keeps same_trx_cs (check_joins (R := R) (W := W) db known js).
Proof. revert known. induction js as [|j js IH]; intros known; simpl; keeps_tac; auto. Qed.
Lemma cs_check_attr sel db attr : keeps same_trx_cs (check_attr (R := R) (W := W) sel db attr).
Proof. unfold check_attr, field_exists. keeps_tac. Qed.
#[local] Hint Resolve cs_check_joins cs_check_attr : frames.
Lemma cs_pre_check db q : keeps same_trx_cs (pre_check (R := R) (W := W) db q).
Proof.
  unfold pre_check. keeps_tac; apply cs_check_each; intros; unfold check_selected, check_condition; keeps_tac.
Qed.

(** *** Sessions *)

#[local] Hint Resolve trx_on_pool trx_on_index trx_upd_table : frames.
Lemma trx_sync_indexes t n i : keeps same_trx (sync_indexes (R := R) (W := W) t n i).
Proof. revert i. induction n as [|n IH]; intros i; simpl; unfold on_index_at; keeps_tac; auto. Qed.
#[local] Hint Resolve trx_sync_indexes : frames.
Lemma sync_keeps_trx : keeps same_trx_cs (handler_sync (R := R) (W := W)).
Proof.
  unfold handler_sync. keeps_tac. apply keeps_iter; [apply _|]. intros x. apply keeps_iter; [apply _|]. intros y.
  apply cs_on_tables. unfold TableScan.sync. keeps_tac.
Qed.

Definition open_trx (s : ES R W) : Trx := ts_trx (cs_ts (es_cs s)).

(** The session is the same, and no transaction is opened. *)
Definition closing (s s' : ES R W) : Prop :=
  es_session s' = es_session s /\ (open_trx s' = open_trx s \/ open_trx s' = Trx_create).
#[local] Instance closing_order : PreOrder closing.
Proof. split; [by split; [|left]|]. intros ??? [E1 F1] [E2 F2]. split; [congruence|]. destruct F2 as [->| ->]; auto. Qed.

Lemma closing_on_cs {A} (m : M (CS R W) A) : keeps same_trx_cs m -> keeps closing (on_cs m).
Proof. intros Hm s. unfold on_cs. specialize (Hm (es_cs s)). destruct (m (es_cs s)). split; [done|]. by left. Qed.

Lemma closing_end f g :
  (forall t rid, keeps same_trx (f t rid)) -> (forall t rid, keeps same_trx (g t rid)) ->
  keeps closing (on_cs (on_tables (end_trx (S := DB R W) f g))).
Proof.
  intros Hf Hg s. unfold on_cs, on_tables. pose proof (end_trx_closes f g Hf Hg (cs_ts (es_cs s))) as Hc.
  destruct (end_trx f g (cs_ts (es_cs s))). by split.
Qed.
Lemma closing_commit fuel : keeps closing (session_commit (R := R) (W := W) fuel).
Proof. apply closing_end; intros; [apply (trx_commit_insert same_object)|apply (trx_commit_delete same_object)]. Qed.
Lemma closing_rollback fuel : keeps closing (session_rollback (R := R) (W := W) fuel).
Proof. apply closing_end; intros; [apply (trx_rollback_insert same_object)|apply (trx_rollback_delete same_object)]. Qed.
Lemma closing_set_response text : keeps closing (set_response (R := R) (W := W) text).
Proof. intros s. split; [done|by left]. Qed.
#[local] Hint Resolve closing_commit closing_rollback closing_set_response : frames.
Lemma closing_end_if_need fuel b : keeps closing (end_trx_if_need (R := R) (W := W) fuel b).
Proof. unfold end_trx_if_need. keeps_tac. Qed.
#[local] Hint Resolve closing_end_if_need : frames.
Lemma closing_or_rollback fuel {A} (m : M (ES R W) A) : keeps closing m -> keeps closing (or_rollback fuel m).
Proof. intros Hm. unfold or_rollback. keeps_tac. Qed.
Lemma closing_must {A} (m : M (ES R W) A) : keeps closing m -> keeps closing (must m).
Proof. intros Hm. unfold must. keeps_tac. Qed.
#[local] Hint Resolve closing_or_rollback closing_must closing_on_cs cs_build cs_pre_check sync_keeps_trx : frames.
#[local] Hint Resolve cs_exec_init cs_exec_next cs_create_selections cs_execute_selections cs_field_positions cs_joined_tuples
  cs_sorted_output cs_create_aggregation : frames.

Lemma closing_do_select fuel junk sel : keeps closing (do_select (R := R) (W := W) fuel junk sel).
Proof. unfold do_select, create_field_index. keeps_tac. Qed.
Lemma closing_do_select_v2 fuel depth sel : keeps closing (do_select_v2 (R := R) (W := W) fuel depth sel).
Proof. unfold do_select_v2. keeps_tac. Qed.

(** Outside of a transaction of several statements nothing is open. *)
Definition idle (s : ES R W) : Prop := trx_multi_operation_mode_ (es_session s) = false -> open_trx s = Trx_create.

(** Whether the session is in a transaction of several statements after a statement that passes the checks. *)
Definition mode_after q (b : bool) : bool :=
  match q with SCF_BEGIN => true | SCF_COMMIT | SCF_ROLLBACK => false | _ => b end.

Definition session_after q (x : Session) : Session :=
  {| current_db_ := current_db_ x; trx_multi_operation_mode_ := mode_after q (trx_multi_operation_mode_ x) |}.

Lemma closing_idle s s' : closing s s' -> idle s -> idle s'.
Proof. intros [E [F|F]] Hi Hm; [|done]. rewrite F. apply Hi. by rewrite <- E. Qed.

Lemma storage_ends fuel junk q s s' :
  storage_handle_event fuel (J := J) (T := T) junk q s = (Ok tt, s') -> es_session s' = es_session s /\ idle s'.
Proof.
  unfold storage_handle_event. intros E. rewrite bind_gets in E.
  apply session_bind in E as ([rc text] & s1 & E1 & E); [|intros x; apply keeps_on_cs].
  apply bind_Ok in E as (rc2 & s2 & E2 & E). apply bind_Ok in E as (rc3 & s3 & E3 & [= <-]). unfold idle, open_trx. cbn.
  rewrite <- E1 in *. destruct (trx_multi_operation_mode_ (es_session s1)) eqn:Em.
  { rewrite !andb_false_r in *. injection E2 as -> ->. injection E3 as -> ->. split; [done|]. congruence. }
  rewrite !andb_true_r in *.
  assert (Hr : forall g h (x : ES R W) rc y, rc_of (on_cs (on_tables (end_trx g h))) x = (Ok rc, y) ->
            es_session y = es_session x /\ open_trx y = Trx_create).
  { intros g h x rc' y Ey. split; [|by eapply ended]. pose proof (keeps_rc_of same_session _ (keeps_on_cs (on_tables (end_trx g h))) x) as Hk.
    by rewrite Ey in Hk. }
  assert (Hc : es_session s2 = es_session s1 /\ (rc2 = SUCCESS -> open_trx s2 = Trx_create)).
  { destruct (bool_decide (rc = SUCCESS)) eqn:Eb.
    - apply Hr in E2 as [? ?]. done.
    - injection E2 as -> ->. apply bool_decide_eq_false in Eb. done. }
  destruct Hc as [Hs2 Ht2]. destruct (bool_decide (rc2 = SUCCESS)) eqn:Eb; cbn [negb] in E3.
  - injection E3 as -> ->. apply bool_decide_eq_true in Eb. auto.
  - apply Hr in E3 as [? ?]. split; [congruence|done].
Qed.

#[local] Hint Resolve closing_do_select closing_do_select_v2 : frames.

Lemma run_select_closing fuel depth junk sel : keeps closing (run_select (R := R) (W := W) fuel depth junk sel).
Proof. unfold run_select. keeps_tac. Qed.

Lemma end_session_ends f g s s' :
  end_session_trx (on_cs (on_tables (end_trx f g))) s = (Ok tt, s') ->
  es_session s' = {| current_db_ := current_db_ (es_session s); trx_multi_operation_mode_ := false |} /\ open_trx s' = Trx_create.
Proof.
  unfold end_session_trx. intros (rc & s1 & E1 & E)%bind_Ok. injection E as <-. cbn. split; [|unfold open_trx; cbn; exact (ended _ _ _ _ _ E1)].
  pose proof (keeps_rc_of same_session _ (keeps_on_cs (on_tables (end_trx f g))) s) as Hk. rewrite E1 in Hk. cbn in Hk.
  unfold same_session in Hk. rewrite <- Hk. reflexivity.
Qed.

(** One statement. *)
Lemma statement_idle fuel depth junk q s s' :
  run_statement fuel depth (J := J) (T := T) junk q s = (Ok tt, s') -> idle s ->
  es_session s' = session_after q (es_session s) /\ idle s'.
Proof.
  intros E Hi.
  assert (Hsame : forall m : M (ES R W) unit, keeps closing m -> m s = (Ok tt, s') -> es_session s' = es_session s /\ idle s').
  { intros m Hm Em. specialize (Hm s). rewrite Em in Hm. split; [apply Hm|by apply (closing_idle s)]. }
  assert (Hx : {| current_db_ := current_db_ (es_session s); trx_multi_operation_mode_ := trx_multi_operation_mode_ (es_session s) |} = es_session s)
    by (by destruct (es_session s)).
  unfold session_after. destruct q; cbn [mode_after]; rewrite ?Hx; cbn [run_statement] in E;
    try solve [by eapply storage_ends|exact (Hsame _ (run_select_closing _ _ _ _) E)|eapply Hsame; [|exact E]; unfold set_rc; keeps_tac].
  - injection E as <-. cbn. split; [done|]. intros Hm. done.
  - apply end_session_ends in E as [E Ht]. split; [exact E|]. by intros _.
  - apply end_session_ends in E as [E Ht]. split; [exact E|]. by intros _.
Qed.

Lemma request_idle fuel depth junk q s s' :
  handle_request fuel depth (J := J) (T := T) junk q s = (Ok tt, s') -> idle s ->
  es_session s' = session_after q (es_session s) /\ idle s'.
Proof.
  unfold handle_request. rewrite bind_gets. intros (rc & s1 & E1 & E)%bind_Ok Hi.
  pose proof (keeps_rc_of closing _ (closing_on_cs _ (cs_pre_check (current_db_ (es_session s)) q)) s) as Hc. rewrite E1 in Hc.
  cbn [snd] in Hc. destruct (bool_decide (rc = SUCCESS)) eqn:Eb.
  - apply statement_idle in E as [E Hi']; [|by eapply closing_idle]. split; [|done]. rewrite E. f_equal. apply Hc.
  - injection E as <-. split; [|by apply (closing_idle _ _ Hc)]. cbn. destruct Hc as [-> _]. apply bool_decide_eq_false in Eb.
    unfold session_after. destruct q; cbn [mode_after]; try (by destruct (es_session s)); by injection E1 as <-.
Qed.

(** The statements of a client, one behind the other. *)
Definition requests fuel depth (l : list (Junk * Query)) : M (ES R W) unit :=
  iter_m l (fun x => handle_request fuel depth (J := J) (T := T) x.1 x.2).

(** C17. The transaction of a session: whatever statements of whatever outcome a client sends, BEGIN starts and COMMIT and ROLLBACK
    end the mode of several statements, nothing else does; and whenever the session is not in that mode no transaction
    is open: every statement on its own commits or rolls back what it has done. *)
Theorem requests_end_transactions fuel depth l s s' :
  requests fuel depth l s = (Ok tt, s') -> idle s ->
  es_session s' = foldl (fun x jq => session_after jq.2 x) (es_session s) l /\ idle s'.
Proof.
  revert s. induction l as [|[junk q] l IH]; intros s; unfold requests; cbn [iter_m foldl].
  - by intros [= <-].
  - intros ([] & s1 & E1 & E)%bind_Ok Hi. apply request_idle in E1 as [E1 Hi1]; [|done]. rewrite <- E1. by apply IH.
Qed.
End statements.
