(* ===== verification/ExecutorTheorems.v ===== *)
(** * Theorems on executors

    What the search for conditions between tables finds and that it ends, which rows IN and NOT IN keep, and the rows of
    a join. *)
From Stdlib Require Import String Floats.SpecFloat.
From S2P Require Import Prelude ReturnCode Effects Bitmap Memory Replacer OsFile BufferPool.
From S2P Require Import RecordPage RecordFile KeyCompare BTreeNode BTree BTreeScan Dates TableMeta ConditionFilter Trx Index Table TableScan Db.
From S2P Require Import Values Expression Tuples TuplesTheorems TupleFilter KeyOrder Aggregation AggregationTheorems ExecNodes Syntax Select QueryTheorems.
From S2P Require Import QueryFilter Executors ExecutorBuilder.

#[local] Open Scope c_scope.
#[local] Open Scope Z_scope.

(** ** The operator of a sub-query on the left side *)

Lemma symmetric_op_meaning op v w : value_op (symmetric_op op) w v <-> value_op op v w.
Proof.
  assert (Hs : forall x y, same_value x y -> same_value y x) by (intros [] []; cbn; by auto).
  destruct op; cbn; naive_solver.
Qed.

(** Exchanging the sides of a comparison of two values of a column and its operator does not change the outcome. *)
Lemma symmetric_op_correct k v w c c' op :
  plain k v -> plain k w -> compare v w = Ok c -> compare w v = Ok c' ->
  compare_result c' (symmetric_op op) = compare_result c op.
Proof.
  intros Hv Hw Ec Ec'. apply Bool.eq_iff_eq_true.
  rewrite (compare_result_meaning k w v c' _ Hw Hv Ec'), (compare_result_meaning k v w c _ Hv Hw Ec). apply symmetric_op_meaning.
Qed.

(** ** Conditions between tables *)

(** A condition with all conditions of the sub-queries in it. *)
Fixpoint all_within (c : SqlCondition) : list SqlCondition :=
  match c with
  | MkCondition _ _ _ l r =>
      c :: match l with Some s => all_in s | None => [] end ++ match r with Some s => all_in s | None => [] end
  end
with all_in (s : Selects) : list SqlCondition :=
  match s with MkSelects _ _ _ _ _ l _ _ => concat (List.map all_within l) end.

Definition nested (c : SqlCondition) : list SqlCondition :=
  match left_selects c with Some s => all_in s | None => [] end ++ match right_selects c with Some s => all_in s | None => [] end.

Lemma all_within_nested c : all_within c = c :: nested c.
Proof. by destruct c. Qed.
Lemma all_in_conditions s : all_in s = concat (List.map all_within (conditions s)).
Proof. by destruct s. Qed.
Lemma queries_in_conditions s : queries_in s = S (list_sum (List.map sub_queries_in (conditions s))).
Proof. by destruct s. Qed.
Lemma sub_queries_sides c :
  sub_queries_in c = (match left_selects c with Some s => queries_in s | None => 0 end +
                      match right_selects c with Some s => queries_in s | None => 0 end)%nat.
Proof. by destruct c. Qed.

(** What is left to do with a stack, and the conditions on it. *)
Definition stack_cost (stack : list (list SqlCondition)) : nat :=
  list_sum (List.map (fun l => S (list_sum (List.map sub_queries_in l))) stack).
Definition stack_conditions (stack : list (list SqlCondition)) : list SqlCondition :=
  concat (List.map (fun l => concat (List.map all_within l)) stack).

Lemma stack_cost_cons l stack : stack_cost (l :: stack) = (S (list_sum (List.map sub_queries_in l)) + stack_cost stack)%nat.
Proof. done. Qed.
Lemma stack_conditions_cons l stack : stack_conditions (l :: stack) = concat (List.map all_within l) ++ stack_conditions stack.
Proof. done. Qed.

Lemma push_nested_spec l stack :
  stack_cost (push_nested l stack) = (list_sum (List.map sub_queries_in l) + stack_cost stack)%nat /\
  l ++ stack_conditions (push_nested l stack) ≡ₚ concat (List.map all_within l) ++ stack_conditions stack.
Proof.
  revert stack. induction l as [|c l IH]; intros stack; [done|]. cbn [push_nested].
  match goal with |- stack_cost (push_nested l ?st) = _ /\ _ => destruct (IH st) as [E P]; set (stack' := st) in * end.
  assert (Hc : stack_cost stack' = (sub_queries_in c + stack_cost stack)%nat /\
               stack_conditions stack' ≡ₚ nested c ++ stack_conditions stack).
  { unfold stack', nested. rewrite sub_queries_sides.
    destruct (left_selects c) as [sl|], (right_selects c) as [sr|];
      rewrite ?stack_cost_cons, ?stack_conditions_cons, <- ?all_in_conditions, ?app_nil_r, ?queries_in_conditions, <- ?app_assoc;
      (split; [lia|done]). }
  destruct Hc as [Ec Pc]. split.
  - rewrite E, Ec. change (list_sum (List.map sub_queries_in (c :: l))) with (sub_queries_in c + list_sum (List.map sub_queries_in l))%nat. lia.
  - cbn [List.map concat app]. rewrite all_within_nested, P, Pc. cbn [app]. apply perm_skip. rewrite <- !app_assoc.
    by rewrite Permutation_app_swap_app.
Qed.

Lemma multi_table_loop_spec name rounds stack found :
  (stack_cost stack <= rounds)%nat ->
  exists more, multi_table_loop rounds name stack found = Ok (found ++ more) /\
    more ≡ₚ filter (fun c => multi_table_condition name c) (stack_conditions stack).
Proof.
  revert stack found. induction rounds as [|n IH]; intros [|l stack] found Hc; cbn [multi_table_loop].
  - exists []. by rewrite app_nil_r.
  - rewrite stack_cost_cons in Hc. lia.
  - exists []. by rewrite app_nil_r.
  - destruct (push_nested_spec l stack) as [Ec Pc].
    destruct (IH (push_nested l stack) (found ++ filter (fun c => multi_table_condition name c) l)) as (more & -> & Hm).
    { rewrite Ec. rewrite stack_cost_cons in Hc. lia. }
    eexists. rewrite <- app_assoc. split; [done|]. rewrite Hm, <- filter_app. by rewrite stack_conditions_cons, Pc.
Qed.

(** C39. The search for the conditions of a sub-query that relate its rows to those of an outer table ends, however deep
    sub-queries are nested, and finds exactly the conditions, at any depth, between columns of two tables one of which is the outer one. *)
Theorem multi_table_conditions_found name l :
  exists found, build_multi_table_conditions name l = Ok found /\
    found ≡ₚ filter (fun c => multi_table_condition name c) (concat (List.map all_within l)).
Proof.
  unfold build_multi_table_conditions. destruct (multi_table_loop_spec name (S (list_sum (List.map sub_queries_in l))) [l] [])
    as (more & -> & Hm).
  - rewrite stack_cost_cons. unfold stack_cost. simpl. lia.
  - exists more. split; [done|]. rewrite Hm. unfold stack_conditions. cbn [List.map concat]. by rewrite app_nil_r.
Qed.

(** ** IN and NOT IN *)

Section members.
Context `{StdHash} `{StringObjects}.

(** The integer in a position of a tuple. *)
Definition int_in (i : nat) (t : Tuple) (x : Z) : Prop := t !! i = Some (IntValue x) /\ is_int32 x.

Definition int_set (xs : list Z) : list (Z * TupleValue) := (fun x => (hash_int x, IntValue x)) <$> xs.

Lemma ints_equal x y : is_int32 x -> is_int32 y -> ValueEqual (IntValue x) (IntValue y) = Ok (bool_decide (x = y)).
Proof.
  intros Hx Hy. unfold ValueEqual, compare. rewrite bool_decide_eq_false_2 by done. cbn [value_pointer read_int res_bind].
  f_equal. destruct (decide (x = y)) as [->|Hne].
  - by rewrite Z.sub_diag, bool_decide_eq_true_2.
  - rewrite bool_decide_eq_false_2 by done. apply Z.eqb_neq. unfold int32, is_int32 in *. Z.to_euclidean_division_equations. lia.
Qed.

Lemma set_count_ints x xs :
  is_int32 x -> Forall is_int32 xs -> set_count (hash_int x) (IntValue x) (int_set xs) = Ok (bool_decide (x ∈ xs)).
Proof.
  intros Hx. induction 1 as [|y xs Hy Hxs IH]; [done|]. unfold int_set in *. rewrite fmap_cons. cbn [set_count]. rewrite ints_equal, IH by done.
  cbn [res_bind]. destruct (decide (x = y)) as [->|Hne].
  - rewrite Z.eqb_refl, !bool_decide_eq_true_2 by (done || left). done.
  - rewrite (bool_decide_eq_false_2 (x = y)) by done. replace (bool_decide (x ∈ y :: xs)) with (bool_decide (x ∈ xs)).
    + by destruct (hash_int x =? hash_int y).
    + apply bool_decide_ext. rewrite elem_of_cons. tauto.
Qed.

Lemma insert_ints objects j rows xs ys :
  Forall2 (int_in 0) rows xs -> Forall is_int32 ys ->
  exists zs, insert_values objects j rows (int_set ys) = Ok (int_set zs) /\ Forall is_int32 zs /\
    (forall x, x ∈ zs <-> x ∈ xs \/ x ∈ ys).
Proof.
  intros Hrows. revert j ys. induction Hrows as [|t x rows xs [Ht Hx] Hrows IH]; intros j ys Hys; cbn [insert_values].
  { exists ys. split_and!; [done|done|]. intros x. rewrite elem_of_nil. tauto. }
  rewrite (get_pointer_lookup t 0 (IntValue x)) by done. unfold ValueHash at 1. cbn [res_bind Type_of value_pointer read_int].
  unfold set_insert. rewrite set_count_ints by done. cbn [res_bind].
  destruct (IH (S j) (if bool_decide (x ∈ ys) then ys else x :: ys)) as (zs & Ez & Hzs & Hin).
  { destruct (bool_decide _); [done|by constructor]. }
  exists zs. split_and!; [|done|].
  - rewrite <- Ez. by destruct (bool_decide _).
  - intros y. rewrite Hin, elem_of_cons. case_bool_decide; rewrite ?elem_of_cons; naive_solver.
Qed.

(** C22. IN and NOT IN with a sub-query on integers: IN keeps exactly those rows, in their order, whose value is one of the values of
    the sub-query, NOT IN exactly the others, whatever the hash function; the answer of the sub-query may have duplicates. *)
Theorem in_sub_query_correct op index left_rows ys right_rows xs :
  sub_query_op op = true -> 0 <= index ->
  Forall2 (int_in (Z.to_nat index)) left_rows ys -> Forall2 (int_in 0) right_rows xs ->
  exists values kept, insert_values (object_bytes RightTuple 0) 0 right_rows [] = Ok values /\
    keep_tuples op index values 0 left_rows = Ok kept /\
    selected (fun t => exists y, int_in (Z.to_nat index) t y /\ if bool_decide (op = IN_OP) then y ∈ xs else y ∉ xs) left_rows kept.
Proof.
  intros Hop Hi Hl Hr. destruct (insert_ints (object_bytes RightTuple 0) 0 right_rows xs [] Hr) as (zs & Ez & Hzs & Hin); [done|].
  exists (int_set zs). cut (forall i, exists kept, keep_tuples op index (int_set zs) i left_rows = Ok kept /\
    selected (fun t => exists y, int_in (Z.to_nat index) t y /\ if bool_decide (op = IN_OP) then y ∈ xs else y ∉ xs) left_rows kept).
  { intros Hc. destruct (Hc 0%nat) as (kept & Hk & Hs). exists kept. done. }
  induction Hl as [|t y left_rows ys [Ht Hy] Hl IH]; intros i; cbn [keep_tuples].
  { exists []. split; [done|constructor]. }
  rewrite (get_pointer_lookup t index (IntValue y)) by done. cbn [res_bind]. unfold value_passes. rewrite Hop.
  unfold ValueHash. cbn [Type_of value_pointer read_int res_bind]. rewrite set_count_ints by done. cbn [res_bind].
  destruct (IH (S i)) as (kept & -> & Hs). cbn [res_bind].
  assert (Hxy : y ∈ zs <-> y ∈ xs) by (rewrite Hin, elem_of_nil; tauto).
  assert (Huniq : forall z, int_in (Z.to_nat index) t z -> z = y) by (intros z [Hz _]; congruence).
  eexists. split; [done|].
  destruct (bool_decide (op = IN_OP)), (bool_decide_reflect (y ∈ zs)); cbn [negb]; constructor; try done;
    try (exists y; split; [done|tauto]); intros (z & ->%Huniq & Hz); tauto.
Qed.
End members.

(** ** Joins *)

Section join.
Variables (ls rs : TupleSchema).
Hypotheses (Hls : fresh_schema ls) (Hrs : fresh_schema rs).

(** The value of a tuple in the column of a name. *)
Definition has_key (s : TupleSchema) (tuple : Tuple) (key : string * string) (v : TupleValue) : Prop :=
  exists i g, fields_ s !! i = Some g /\ key_of g = key /\ tuple !! i = Some v.

(** The value of a side of a filter in a pair of rows: that of the left row if it has the column. *)
Definition pair_value (d : FilterDesc) (p : Tuple * Tuple) (v : TupleValue) : Prop :=
  let key := (fd_table_name d, fd_field_name d) in
  if fd_is_attr d then has_key ls p.1 key v \/ (~ (key ∈ (key_of <$> fields_ ls)) /\ has_key rs p.2 key v)
  else (exists x, fd_value d = Some x /\ construct_tuple_value_from_value x = Ok (Some v)).

Definition pair_meets (p : Tuple * Tuple) (f : QueryFilter) : Prop :=
  exists v w, pair_value (qf_left f) p v /\ pair_value (qf_right f) p w /\ value_op (qf_op f) v w.

(** Both sides have values of one class. *)
Definition pair_defined (p : Tuple * Tuple) (f : QueryFilter) : Prop :=
  exists k v w, pair_value (qf_left f) p v /\ pair_value (qf_right f) p w /\ plain k v /\ plain k w.

Lemma key_run s tuple d v :
  fresh_schema s -> fd_is_attr d = true -> has_key s tuple (fd_table_name d, fd_field_name d) v ->
  construct_desc_value d tuple s = Ok (Some v).
Proof.
  intros Hs Hd (i & g & Hg & Hk & Hv). unfold construct_desc_value, schema_map. rewrite table_field_index_fresh, Hd by done. cbn [fst res_bind].
  destruct (find_column_exists s (fd_table_name d) (fd_field_name d) Hs) as [j Hj].
  { rewrite <- Hk. apply list_elem_of_fmap_2. by eapply list_elem_of_lookup_2. }
  rewrite Hj. destruct (find_column_Some _ _ _ _ Hs Hj) as (Hj0 & g' & Hg' & Hk').
  assert (Z.to_nat j = i) as Ei.
  { apply (NoDup_lookup (key_of <$> fields_ s) _ _ (key_of g)); [apply Hs| |].
    - rewrite list_lookup_fmap, Hg'. cbn. congruence.
    - by rewrite list_lookup_fmap, Hg. }
  rewrite (get_pointer_lookup _ _ v); [done|done|congruence].
Qed.

Lemma no_key_run s tuple d :
  fresh_schema s -> fd_is_attr d = true -> (fd_table_name d, fd_field_name d) ∉ (key_of <$> fields_ s) ->
  construct_desc_value d tuple s = Ok None.
Proof.
  intros Hs Hd Hk. unfold construct_desc_value, schema_map. rewrite table_field_index_fresh, Hd by done. cbn [fst res_bind].
  destruct (find_index_of _ _ _) as [j|] eqn:Hj; [|done]. destruct (find_column_Some _ _ _ _ Hs Hj) as (_ & g & Hg & Hkg).
  destruct Hk. rewrite <- Hkg. apply list_elem_of_fmap_2. by eapply list_elem_of_lookup_2.
Qed.

Lemma pair_value_run d p v : pair_value d p v -> construct_desc_value2 d p.1 ls p.2 rs = Ok (Some v).
Proof.
  unfold pair_value, construct_desc_value2. destruct (fd_is_attr d) eqn:Hd.
  - intros [Hl|[Hn Hr]].
    + rewrite (key_run ls p.1 d v) by done. done.
    + rewrite no_key_run by done. cbn [res_bind]. by apply key_run.
  - intros (x & Hx & Hv). unfold construct_desc_value, schema_map. rewrite !table_field_index_fresh by done. cbn [fst res_bind].
    rewrite Hd, Hx. cbn [non_null res_bind]. by rewrite Hv.
Qed.

Lemma pair_value_unique d p v w : pair_value d p v -> pair_value d p w -> v = w.
Proof. intros Hv%pair_value_run Hw%pair_value_run. congruence. Qed.

Lemma filter_pair_run p f :
  pair_defined p f -> exists b, filter_pair f p.1 ls p.2 rs = Ok b /\ (b = true <-> pair_meets p f).
Proof.
  intros (k & v & w & Hv & Hw & Kv & Kw). unfold filter_pair, compare_sides.
  rewrite (pair_value_run _ _ _ Hv), (pair_value_run _ _ _ Hw). cbn [res_bind].
  destruct (compare_plain k v w Kv Kw) as (c & Ec & _). rewrite Ec. cbn [res_bind]. eexists. split; [done|].
  rewrite (compare_result_meaning k v w c _ Kv Kw Ec). split; [by exists v, w|].
  intros (v' & w' & Hv' & Hw' & Hop). by rewrite (pair_value_unique _ _ _ _ Hv Hv'), (pair_value_unique _ _ _ _ Hw Hw').
Qed.

Lemma pass_pair_run p fs :
  Forall (pair_defined p) fs -> exists b, pass_pair fs p.1 ls p.2 rs = Ok b /\ (b = true <-> Forall (pair_meets p) fs).
Proof.
  induction 1 as [|f fs Hf Hfs IH]; cbn [pass_pair]; [by exists true|].
  destruct (filter_pair_run p f Hf) as (b & -> & Hb). cbn [res_bind]. setoid_rewrite Forall_cons.
  destruct b; [|exists false; naive_solver]. destruct IH as (b' & -> & Hb'). exists b'. naive_solver.
Qed.

(** Columns that a schema has; columns that it does not have are left out. *)
Definition in_schema (s : TupleSchema) (f : TupleField) : Prop := key_of f ∈ (key_of <$> fields_ s).

Abbreviation positions s := (omap (fun f => find_index_of (index_fields 0 (fields_ s) ∅) (tf_table_name f) (tf_field_name f))).

Lemma positions_none s fields : fresh_schema s -> Forall (fun f => ~ in_schema s f) fields -> positions s fields = [].
Proof.
  intros Hs. induction 1 as [|f fields Hf _ IH]; [done|]. cbn [omap list_omap].
  destruct (find_index_of _ _ _) as [i|] eqn:E; [|exact IH].
  destruct (find_column_Some _ _ _ _ Hs E) as (_ & g & Hg & Hk). destruct Hf. unfold in_schema, key_of at 1. rewrite <- Hk.
  apply list_elem_of_fmap_2. by eapply list_elem_of_lookup_2.
Qed.

Variables (schema : TupleSchema) (fl fr : list TupleField).
Hypothesis Hschema : fields_ schema = fl ++ fr.
Hypotheses (Hfl : Forall (in_schema ls) fl) (Hfl' : Forall (fun f => ~ in_schema rs f) fl).
Hypotheses (Hfr : Forall (in_schema rs) fr) (Hfr' : Forall (fun f => ~ in_schema ls f) fr).

(** A row of the join: the columns of the left row, then those of the right row. *)
Definition joined_row (p : Tuple * Tuple) (row : Tuple) : Prop :=
  exists vs ws, row = vs ++ ws /\ Forall2 (has_columns ls p.1) fl vs /\ Forall2 (has_columns rs p.2) fr ws.

Definition pair_ok (fs : list QueryFilter) (p : Tuple * Tuple) : Prop :=
  length p.1 = length (fields_ ls) /\ length p.2 = length (fields_ rs) /\ Forall (pair_defined p) fs.

Abbreviation body fs left := (join_pair fs (positions ls (fields_ schema)) (positions rs (fields_ schema)) ls rs left).

Lemma join_pair_run fs p set :
  pair_ok fs p ->
  exists rows, body fs p.1 p.2 set = Ok {| tuples_ := tuples_ set ++ rows; schema_ := schema_ set |} /\
    ((exists row, rows = [row] /\ joined_row p row /\ Forall (pair_meets p) fs) \/ rows = [] /\ ~ Forall (pair_meets p) fs).
Proof.
  intros (Hl & Hr & Hf). unfold join_pair. destruct (pass_pair_run p fs Hf) as (b & -> & Hb). cbn [res_bind].
  rewrite Hschema, !omap_app, (positions_none ls fr), (positions_none rs fl), app_nil_r by done. destruct b.
  - destruct (project_positions ls p.1 fl [] Hls Hl Hfl) as (vs & Ev & Hvs). setoid_rewrite Ev. cbn [res_bind app].
    destruct (project_positions rs p.2 fr vs Hrs Hr Hfr) as (ws & Ew & Hws). setoid_rewrite Ew. cbn [res_bind].
    exists [vs ++ ws]. split; [done|]. left. eexists. split; [done|]. split; [by exists vs, ws|by apply Hb].
  - exists []. rewrite app_nil_r. split; [by destruct set|]. right. split; [done|]. intros Hm. by apply Hb in Hm.
Qed.

Lemma join_pairs_run fs pairs set :
  Forall (pair_ok fs) pairs ->
  exists picked rows, res_fold (fun p set => body fs p.1 p.2 set) pairs set =
      Ok {| tuples_ := tuples_ set ++ rows; schema_ := schema_ set |} /\
    selected (fun p => Forall (pair_meets p) fs) pairs picked /\ Forall2 joined_row picked rows.
Proof.
  intros H. revert set. induction H as [|p pairs Hp _ IH]; intros set.
  { exists [], []. rewrite app_nil_r. split_and!; [by destruct set|constructor|constructor]. }
  cbn [res_fold]. destruct (join_pair_run fs p set Hp) as (new & -> & Hnew). cbn [res_bind].
  match goal with |- context [res_fold _ _ ?x] => destruct (IH x) as (picked & rows & -> & Hs & Hrows) end.
  cbn [tuples_ schema_]. destruct Hnew as [(row & -> & Hrow & Hm)|[-> Hm]].
  - exists (p :: picked), (row :: rows). rewrite <- app_assoc. split_and!; [done|by constructor|by constructor].
  - exists picked, rows. rewrite app_nil_r. split_and!; [done|by constructor|done].
Qed.

Lemma nested_folds {A B C} (g : A -> B -> C -> res C) (la : list A) (lb : list B) (c : C) :
  res_fold (fun a c => res_fold (g a) lb c) la c = res_fold (fun p c => g p.1 p.2 c) (list_prod la lb) c.
Proof.
  revert c. induction la as [|a la IH]; intros c; [done|]. cbn [res_fold list_prod]. rewrite res_fold_app.
  assert (E : forall c, res_fold (g a) lb c = res_fold (fun p c => g p.1 p.2 c) (List.map (fun y => (a, y)) lb) c).
  { clear. induction lb as [|b lb IH]; intros c; [done|]. cbn [res_fold List.map fst snd]. destruct (g a b c); cbn [res_bind]; auto. }
  rewrite <- E. destruct (res_fold (g a) lb c); cbn [res_bind]; auto.
Qed.

End join.

(** C21. The nested loops: the rows of a join are made from exactly those pairs of a row of the left and a row of the right set that
    meet all filters, in lexicographic order; each has the columns that the schema of the join lists, under the right headings,
    provided that this schema lists the columns of the left set before those of the right set, and that the
    values that the filters compare are, for every pair, both integers within 2^30 or both strings, and not null
    ([pair_ok]). *)
Theorem nested_loop_join_correct ls rs schema fl fr fs set :
  fresh_schema (schema_ ls) -> fresh_schema (schema_ rs) -> fields_ schema = fl ++ fr ->
  Forall (in_schema (schema_ ls)) fl -> Forall (fun f => ~ in_schema (schema_ rs) f) fl ->
  Forall (in_schema (schema_ rs)) fr -> Forall (fun f => ~ in_schema (schema_ ls) f) fr ->
  Forall (pair_ok (schema_ ls) (schema_ rs) fs) (list_prod (tuples_ ls) (tuples_ rs)) ->
  exists picked rows, join_sets schema fs ls rs set = Ok {| tuples_ := tuples_ set ++ rows; schema_ := schema_ set |} /\
    selected (fun p => Forall (pair_meets (schema_ ls) (schema_ rs) p) fs) (list_prod (tuples_ ls) (tuples_ rs)) picked /\
    Forall2 (joined_row (schema_ ls) (schema_ rs) fl fr) picked rows.
Proof.
  intros Hls Hrs Hs Hfl Hfl' Hfr Hfr' Hok. unfold join_sets, index_in, bind. rewrite !table_field_index_fresh by done. cbn [fst ret res_bind].
  rewrite nested_folds. by apply (join_pairs_run (schema_ ls) (schema_ rs) Hls Hrs schema fl fr).
Qed.
