(* ===== verification/LoadTheorems.v ===== *)
(** * Theorems on loading a file

    A line that is written from values is read back as these values. *)
From Stdlib Require Import String Floats.SpecFloat.
From S2P Require Import Prelude ReturnCode Effects Bitmap Memory Replacer OsFile BufferPool.
From S2P Require Import RecordPage RecordFile KeyCompare BTreeNode BTree BTreeScan Dates TableMeta ConditionFilter Trx Index Table TableScan Db.
From S2P Require Import Values Expression Tuples Aggregation ExecNodes Syntax Select LoadData.

#[local] Open Scope c_scope.
#[local] Open Scope Z_scope.

Abbreviation bar := 124.

(** The words of a line with bars between them. *)
Fixpoint bar_line (words : list (list Z)) : list Z :=
  match words with [] => [] | [w] => w | w :: rest => w ++ bar :: bar_line rest end.

(** ** Splitting *)

Lemma split_word part w rest :
  Forall (fun b => b <> bar) w -> split_string bar part (w ++ rest) = split_string bar (part ++ w) rest.
Proof.
  intros Hw. revert part. induction Hw as [|b w Hb Hw IH]; intros part; cbn [app split_string]; [by rewrite app_nil_r|].
  destruct (Z.eqb_spec b bar); [done|]. rewrite IH, <- app_assoc. done.
Qed.

Definition a_word (w : list Z) : Prop := w <> [] /\ Forall (fun b => b <> bar) w.

Lemma is_nil_word (w : list Z) : w <> [] -> is_nil w = false.
Proof. by destruct w. Qed.

Lemma split_bar_line words : Forall a_word words -> split_string bar [] (bar_line words) = words.
Proof.
  induction 1 as [|w words [Hn Hw] Hwords IH]; [done|]. destruct words as [|w' words].
  - cbn [bar_line]. rewrite <- (app_nil_r w) at 1. rewrite split_word by done. cbn [split_string app]. by rewrite is_nil_word.
  - cbn [bar_line] in *. rewrite split_word by done. cbn [split_string app Z.eqb Pos.eqb]. rewrite is_nil_word by done. cbn [app].
    by rewrite IH.
Qed.

(** ** Words without blanks at their ends *)

Lemma skip_spaces_id b s : is_space b = false -> skip_spaces (b :: s) = b :: s.
Proof. cbn [skip_spaces]. by intros ->. Qed.

Lemma strip_id s : match head s with Some b => is_space b = false | None => False end ->
  match last s with Some b => is_space b = false | None => False end -> strip s = Ok s.
Proof.
  destruct s as [|b s]; [done|]. cbn [head]. intros Hb Hl. unfold strip. cbn [forallb]. rewrite Hb. cbn [andb].
  rewrite skip_spaces_id by done. rewrite <- (reverse_involutive (b :: s)) in Hl. rewrite last_reverse in Hl.
  destruct (reverse (b :: s)) as [|c r] eqn:E; [done|]. cbn [head] in Hl. rewrite skip_spaces_id, <- E, reverse_involutive by done. done.
Qed.

(** ** Numbers *)

Lemma read_digits_all v n s rest :
  all_digits s -> match head rest with Some b => is_digit b = false | None => True end ->
  read_digits v n (s ++ rest) = (digits_value v s, n + alen s, rest).
Proof.
  intros Hs Hr. revert v n. induction Hs as [|b s Hb Hs IH]; intros v n; cbn [app read_digits digits_value].
  - unfold alen. cbn [length]. rewrite Z.add_0_r. destruct rest as [|b rest]; [done|]. cbn [head] in Hr. cbn [read_digits]. by rewrite Hr.
  - rewrite Hb, IH. unfold alen. cbn [length]. by rewrite Nat2Z.inj_succ, <- Z.add_assoc, Z.add_1_l.
Qed.

Lemma decimal_digits x : is_int32 x ->
  exists ds, decimal x = (if x <? 0 then [dash] else []) ++ ds /\ all_digits ds /\ digits_value 0 ds = Z.abs x /\ ds <> [].
Proof.
  intros Hx. unfold decimal. exists (digits 40 (Z.abs x) []).
  destruct (digits_spec 40 (Z.abs x)) as [Hd Hv]; [unfold is_int32 in Hx; assert (2 ^ 31 < 10 ^ Z.of_nat 40) by done; lia|]. split_and!; try done. apply digits_not_nil.
Qed.

(** The text of an integer is read back. *)
Lemma parse_decimal x : is_int32 x -> parse_int (decimal x) = Some x.
Proof.
  intros Hx. destruct (decimal_digits x Hx) as (ds & -> & Hd & Hv & Hn). unfold parse_int.
  assert (Hs : read_sign ((if x <? 0 then [dash] else []) ++ ds) = (x <? 0, ds)).
  { destruct (x <? 0); [done|]. destruct Hd as [|b ds Hb Hd]; [done|]. cbn [app read_sign]. unfold is_digit in Hb.
    destruct (Z.eqb_spec b 45); [lia|]. destruct (Z.eqb_spec b 43); [lia|done]. }
  rewrite Hs. rewrite <- (app_nil_r ds), (read_digits_all 0 0 ds []), Hv by done.
  destruct ds as [|b ds]; [done|]. cbn [is_nil]. unfold alen, is_int32 in *. cbn [length].
  destruct (Z.ltb_spec x 0);
    repeat match goal with |- context [?a <? ?b] => destruct (Z.ltb_spec a b); try lia | |- context [?a <=? ?b] => destruct (Z.leb_spec a b); try lia end;
    cbn [andb]; f_equal; lia.
Qed.

Lemma digit_no_space b : is_digit b = true -> is_space b = false /\ b <> bar.
Proof. unfold is_digit, is_space. lia. Qed.

Lemma decimal_word x : is_int32 x -> a_word (decimal x) /\ strip (decimal x) = Ok (decimal x).
Proof.
  intros Hx. destruct (decimal_digits x Hx) as (ds & -> & Hd & _ & Hn).
  assert (Hall : Forall (fun b => is_space b = false /\ b <> bar) ((if x <? 0 then [dash] else []) ++ ds)).
  { apply Forall_app. split; [destruct (x <? 0); by repeat constructor|]. eapply Forall_impl; [exact Hd|apply digit_no_space]. }
  assert (Hne : (if x <? 0 then [dash] else []) ++ ds <> []) by (intros E; apply app_eq_nil in E; tauto).
  split; [split; [done|]; eapply Forall_impl; [exact Hall|by intros b [_ ?]]|].
  revert Hall Hne. generalize ((if x <? 0 then [dash] else []) ++ ds) as s. clear. intros s Hall Hne. rewrite Forall_forall in Hall.
  apply strip_id.
  - destruct s as [|b s]; [done|]. apply Hall. left.
  - destruct (last s) as [b|] eqn:El; [|by apply last_None in El]. apply Hall. apply list_elem_of_lookup_2 with (pred (length s)). by rewrite <- last_lookup.
Qed.

(** ** Lines *)

(** A word that stands for a value in a column. *)
Inductive written : FieldMeta -> list Z -> Value -> Prop :=
| written_int f x : fm_type f = INTS -> is_int32 x -> written f (decimal x) (value_init_integer x)
| written_text f w v :
    fm_type f = CHARS \/ fm_type f = DATES -> a_word w -> strip w = Ok w -> value_init_string (w ++ [0]) = Ok v -> written f w v.

Inductive written_line : list FieldMeta -> list (list Z) -> list Value -> Prop :=
| written_nil : written_line [] [] []
| written_cons f w v fs ws vs : written f w v -> written_line fs ws vs -> written_line (f :: fs) (w :: ws) (v :: vs).

Lemma written_word f w v : written f w v -> a_word w /\ strip w = Ok w.
Proof. destruct 1; [by apply decimal_word|done]. Qed.

Lemma written_value f w v : written f w v -> file_value f w = Ok v.
Proof.
  unfold file_value. destruct 1 as [f x -> Hx|f w v [-> | ->] _ _ E]; [|done|done]. by rewrite parse_decimal.
Qed.

(** C40. Reading a line of a file: a line that has, for each column in turn, a decimal integer of 32 bits or a text that is
    not empty and has no bars, and no blanks at its ends, with bars between them, is read as exactly these values. *)
Theorem line_is_read_back fields words vs :
  written_line fields words vs -> file_values fields 0 (split_string bar [] (bar_line words)) = Ok (inl vs).
Proof.
  intros H. rewrite split_bar_line.
  - generalize 0 as i. induction H as [|f w v fs ws vs Hw H IH]; intros i; cbn [file_values]; [done|].
    destruct (written_word f w v Hw) as [_ ->]. cbn [res_bind]. rewrite (written_value f w v Hw), IH. done.
  - induction H as [|f w v fs ws vs Hw H IH]; constructor; [by apply (written_word f w v)|done].
Qed.

Definition load_field (type : AttrType) (name : string) : FieldMeta :=
  {| fm_name := name; fm_type := type; fm_offset := 0; fm_len := 4; fm_visible := true; fm_nullable := false |}.

Lemma line_is_read_back_witness :
  file_values [load_field INTS "id"; load_field CHARS "name"] 0 (split_string bar [] (bytes_of_string "-17|a b")) =
  Ok (inl [value_init_integer (-17); {| v_type := CHARS; v_isnull := false; v_data := bytes_of_string "a b" ++ [0] |}]).
Proof.
  apply (line_is_read_back _ [decimal (-17); bytes_of_string "a b"]).
  apply written_cons; [|apply written_cons; [|apply written_nil]].
  - apply written_int; [done|unfold is_int32; lia].
  - apply written_text; [by left| |reflexivity|reflexivity]. split; [done|]. by repeat (apply Forall_cons; split; [done|]).
Defined.

(** Two bars without a text between them are read as one: the values move to other columns. *)
Lemma empty_text_is_lost :
  split_string bar [] (bytes_of_string "1||2") = split_string bar [] (bytes_of_string "1|2").
Proof. reflexivity. Qed.
