(* ===== verification/SelectDemo.v ===== *)
(** * Concrete queries

    A session on the in-memory catalog: three rows are inserted and queries run on them; the witnesses
    for the theorems on queries. *)
From Stdlib Require Import String Ascii Floats.SpecFloat Sorted.
From S2P Require Import Prelude ReturnCode Effects Bitmap Memory Replacer OsFile BufferPool.
From S2P Require Import RecordPage RecordFile KeyCompare BTreeNode BTree BTreeScan Dates TableMeta TableMetaTheorems.
From S2P Require Import ConditionFilter Trx Index Table TableTheorems TableScan TableFrame TableDemo Db Catalog CatalogRuns.
From S2P Require Import Values Expression Tuples TuplesTheorems KeyOrder TupleFilter Aggregation ExecNodes Syntax Select.
From S2P Require Import RowTheorems QueryTheorems SelectTheorems.

Import JsonTree.

#[local] Open Scope c_scope.
#[local] Open Scope Z_scope.

(** ** Three rows *)

Definition int_value (n : Z) : Value := {| v_type := INTS; v_isnull := false; v_data := le32 n |}.
Definition day_value (day : string) : Value :=
  {| v_type := CHARS; v_isnull := false; v_data := bytes_of_string day ++ replicate 5 0 |}.

Definition insert_day (n : Z) (day : string) (s : demo_cs) : res unit * demo_cs :=
  Db.insert_record 20 (Some "d"%string) (Some "t"%string) 2 [int_value n; day_value day] demo_mem s.

Definition rows_1 : res unit * demo_cs := insert_day 7 "2000-2-29" run_create_table.2.
Definition rows_2 : res unit * demo_cs := insert_day 5 "1999-1-1" rows_1.2.
Definition rows_3 : res unit * demo_cs := insert_day 9 "1999-1-1" rows_2.2.

Example rows_inserted : rows_1.1 = Ok tt /\ rows_2.1 = Ok tt /\ rows_3.1 = Ok tt.
Proof. split_and!; vm_compute; reflexivity. Qed.

Definition demo_es : ES LRU.LRUReplacer MemFS.fs :=
  {| es_session := {| current_db_ := "d"; trx_multi_operation_mode_ := false |}; es_response := None; es_cs := rows_3.2 |}.

(** ** Queries *)

Definition no_desc : ConDesc :=
  {| cd_is_attr := false; cd_attr_index := 0; cd_attr_length := 0; cd_attr_offset := 0; cd_is_null := false; cd_value := None |}.

Definition attr (n : string) : RelAttr := {| relation_name := None; attribute_name := Some n |}.

Definition query (aggs : list Aggregate) (attrs : list string) (exps : list ast) (conds : list SqlCondition)
    (orders : list OrderBy) (groups : list string) : Selects :=
  {| aggregates := aggs; attributes := attr <$> attrs; attributes_exp := exps; relations := ["t"%string]; joins := [];
     conditions := conds; order_by := orders; group_bys := attr <$> groups |}.

Definition string_of_bytes (l : list Z) : string := string_of_list_ascii ((fun z => ascii_of_N (Z.to_N z)) <$> l).

Definition answer (q : Selects) : res unit * option string :=
  let '(r, s) := do_select 30 (fun _ _ => (no_desc, no_desc)) q demo_es in
  (r, string_of_bytes <$> es_response s).

Definition lines (l : list string) : option string := Some (String.concat (String "010" EmptyString) l).

(** [select born, id from t order by id desc], with the list of columns in the order of the parser. *)
Example ordered_query :
  answer (query [] ["id"%string; "born"%string] [] [] [{| or_attribute := attr "id"; or_order := 1 |}] []) =
  (Ok tt, lines ["born | id"; "1999-01-01 | 9"; "2000-02-29 | 7"; "1999-01-01 | 5"; ""]%string).
Proof. vm_compute. reflexivity. Qed.

Definition aggregate (t : AggreType) (column : string) : Aggregate :=
  {| ag_type := t; ag_is_attr := 1; ag_value := int_value 0; ag_attr := attr column |}.

Example grouped_query :
  answer (query [aggregate COUNTS "*"; aggregate SUMS "id"] [] [] [] [] ["born"%string]) =
  (Ok tt, lines ["born | count(*) | sum(id)"; "1999-01-01 | 2 | 14"; "2000-02-29 | 1 | 7"; ""]%string).
Proof. vm_compute. reflexivity. Qed.

Definition id_from_7 : SqlCondition :=
  {| plain_condition := {| left_is_attr := 1; left_value := int_value 0; left_attr := attr "id"; comp := GREAT_EQUAL;
                           right_is_attr := 0; right_value := int_value 7; right_attr := attr "" |};
     left_ast := NullAst; right_ast := NullAst; left_selects := None; right_selects := None |}.

Example expression_query :
  answer (query [] ["*"%string] [OpNode ADDN 0 0 (AttrNode 0 0 (attr "id")) (ValNode 0 0 (int_value 1))] [id_from_7] [] []) =
  (Ok tt, lines ["id | born | id+1"; "7 | 2000-02-29 | 8"; "9 | 1999-01-01 | 10"; ""]%string).
Proof. vm_compute. reflexivity. Qed.

(** [select id, * from t] is an error of [create_output_executor], which is forgotten: the answer is empty and the statement
    succeeds. *)
Lemma output_error_lost : answer (query [] ["id"%string; "*"%string] [] [] [] []) = (Ok tt, Some ""%string).
Proof. vm_compute. reflexivity. Qed.

(** Sorting by a column that does not exist stops the server at an assertion. *)
Lemma order_by_unknown_stops : (answer (query [] ["id"%string] [] [] [{| or_attribute := attr "zz"; or_order := 1 |}] [])).1 = Ub.
Proof. vm_compute. reflexivity. Qed.

(** ** A row *)

(** The record of the demo values, which transaction 5 has marked, at the beginning of a frame. *)
Definition demo_record : res (list Z) * list Value := make_record demo_meta 2 demo_mem demo_values.
Definition demo_rec : list Z := match demo_record.1 with Ok rec => rec | _ => [] end.
Definition demo_bytes : list Z := default [] (write_trx demo_meta 5 false demo_rec).
Definition demo_stored : demo_ts :=
  set_db {| db_pool := db_pool (store_save (Some (0, 0)) demo_bytes (ts_store demo_start));
            db_tables := {[7 := set_meta demo_meta Table_create]} |} demo_start.
Definition demo_columns : list FieldMeta := drop 1 (tm_fields demo_meta).
Definition demo_set : TupleSet := set_schema (from_table demo_meta TupleSchema_create) TupleSet_create.

(** The metadata of a table of the demo columns with a given name. *)
Definition meta_named (name : string) : TableMeta :=
  match table_meta_init (Some name) 2 (Some demo_attrs) with Ok m => m | _ => demo_meta end.

Lemma meta_named_row name : no_name (Some name) = false -> row_meta (meta_named name) demo_columns /\ tm_name (meta_named name) = name.
Proof.
  intros Hb. assert (E : table_meta_init (Some name) 2 (Some demo_attrs) = Ok (meta_named name)).
  { unfold meta_named, table_meta_init. rewrite Hb. vm_compute. reflexivity. }
  pose proof (table_meta_init_spec name 2 demo_attrs _ E eq_refl ltac:(repeat constructor; simpl; lia) eq_refl) as (Hok & Hn & _).
  split; [|exact Hn]. unfold meta_named, table_meta_init in *. rewrite Hb in *. vm_compute in Hok. split; [exact Hok|..].
  - vm_compute. by eexists.
  - repeat constructor.
  - vm_compute. apply (bool_decide_unpack _). vm_compute. exact I.
Qed.


Lemma demo_row_is_read : add_record 7 demo_set (Some (0, 0)) demo_stored =
  (Ok (add_tuple [IntValue 7; new_StringValue (bytes_of_string "2000-02-29")] demo_set), demo_stored).
Proof. vm_compute. reflexivity. Qed.

(** ** Sorting *)

Definition demo_index : FieldIndex := {["t"%string := {["id"%string := 0; "born"%string := 1]}]}.
Definition demo_rows : list Tuple :=
  (fun x => [IntValue x.1; new_StringValue (bytes_of_string x.2)]) <$>
    [(7, "2000-02-29"); (5, "1999-01-01"); (9, "1999-01-01")]%string.
Definition with_rows (rows : list Tuple) : TupleSet := {| tuples_ := rows; schema_ := schema_ demo_set |}.
Definition dated (day : string) : TupleValue := new_StringValue (bytes_of_string day).

(** [order by born asc, id desc]. *)
Definition demo_field (n : string) (order : Z) : TupleField :=
  {| tf_type := UNDEFINED; tf_table_name := "t"; tf_field_name := n; tf_order := order |}.
Definition by_born : OrderByExeNode :=
  {| ob_schema := set_fields [demo_field "born" 0; demo_field "id" 1] TupleSchema_create; ob_field_index := demo_index |}.

Lemma order_by_sorted_witness :
  exists rows, order_by_execute by_born (with_rows demo_rows) = Ok (with_rows rows) /\ rows ≡ₚ demo_rows /\
    rows = [[IntValue 9; dated "1999-01-01"]; [IntValue 5; dated "1999-01-01"]; [IntValue 7; dated "2000-02-29"]].
Proof.
  destruct (order_by_sorted by_born (with_rows demo_rows) [true; false]) as (rows & E & Hp & _).
  - intros t Ht. apply (Forall_forall (fun t => exists a, sort_key demo_index (fields_ (ob_schema by_born)) t = Ok a /\ plain_key [true; false] a) demo_rows);
      [|exact Ht].
    repeat constructor; (eexists; split; [vm_compute; reflexivity|]; repeat constructor; simpl; lia).
  - exists rows. split; [exact E|]. split; [exact Hp|].
    assert (Er : order_by_execute by_born (with_rows demo_rows) =
      Ok (with_rows [[IntValue 9; dated "1999-01-01"]; [IntValue 5; dated "1999-01-01"]; [IntValue 7; dated "2000-02-29"]]))
      by (vm_compute; reflexivity).
    rewrite Er in E. injection E as <-. reflexivity.
Defined.

(** ** A join *)

Definition int_rows (l : list Z) : TupleSet := {| tuples_ := (fun x => [IntValue x]) <$> l; schema_ := TupleSchema_create |}.
Definition side (i : Z) : CartesianConDesc := {| cc_value_index := i; cc_exp_ast := NullAst; cc_is_attr := 1; cc_value := zero_value |}.
Definition same_number : DefaultCartesianFilter := {| dc_left := side 0; dc_right := side 1; dc_op := EQUAL_TO |}.
Definition demo_join : cartesianExeNode :=
  {| ca_sets := [int_rows [1; 2; 3]; int_rows [3; 2]]; ca_filter := [Some same_number]; ca_schema := TupleSchema_create |}.

Lemma join_correct_witness :
  exists rows, cartesian_execute 6 demo_join TupleSet_create = Ok {| tuples_ := rows; schema_ := TupleSchema_create |} /\
    selected (fun row => Forall (meets row) [same_number])
      ((fun row => concat row) <$> product (tuples_ <$> ca_sets demo_join)) rows /\
    rows = [[IntValue 2; IntValue 2]; [IntValue 3; IntValue 3]].
Proof.
  destruct (join_correct 6 demo_join [same_number] TupleSet_create) as (rows & E & Hs).
  - reflexivity.
  - vm_compute. lia.
  - vm_compute product. apply (Forall_fmap _ _ _). repeat constructor;
      (eexists _, _; split; [vm_compute; reflexivity|]; split; [vm_compute; reflexivity|];
       right; right; exists false; split; constructor; lia).
  - exists rows. split; [exact E|]. split; [exact Hs|].
    assert (Er : cartesian_execute 6 demo_join TupleSet_create =
      Ok {| tuples_ := [[IntValue 2; IntValue 2]; [IntValue 3; IntValue 3]]; schema_ := TupleSchema_create |})
      by (vm_compute; reflexivity).
    rewrite Er in E. injection E as <-. reflexivity.
Defined.

(** ** An output *)

Definition id_column : ast := AttrNode 0 0 (attr "id").
Definition id_plus_1 : ast := OpNode ADDN 0 0 id_column (ValNode 0 0 (int_value 1)).
Definition exp_side (a : ast) (v : Value) : CartesianConDesc :=
  {| cc_value_index := -1; cc_exp_ast := a; cc_is_attr := 0; cc_value := v |}.

(** [id + 1 >= 8]. *)
Definition id_from_8 : DefaultExpressionFilter :=
  {| de_left := exp_side id_plus_1 (int_value 0); de_right := exp_side NullAst (int_value 8); de_op := GREAT_EQUAL;
     de_field_index := demo_index |}.
Definition demo_schema : TupleSchema := set_fields [demo_field "id" 0; demo_field "born" 0] TupleSchema_create.

(** [select born, id + 1]. *)
Definition demo_output : ExpExeNode :=
  {| ex_schema := add_exp id_plus_1 (set_fields [demo_field "born" 0] TupleSchema_create); ex_filter := [Some id_from_8];
     ex_tuple_set := with_rows demo_rows; ex_field_index := demo_index |}.

Lemma agrees_demo : agrees demo_index (fields_ demo_schema).
Proof. intros [|[|i]] f; simpl; intros Hf; try done; injection Hf as <-; reflexivity. Qed.

Lemma output_correct_witness :
  exists picked rows, exp_execute demo_output TupleSet_create = Ok {| tuples_ := rows; schema_ := ex_schema demo_output |} /\
    Forall2 (output_row demo_schema demo_output) picked rows /\ length rows = 2%nat.
Proof.
  destruct (output_correct demo_output [id_from_8] demo_schema TupleSet_create) as (picked & rows & E & _ & Ho).
  - exact agrees_demo.
  - reflexivity.
  - repeat constructor.
  - assert (Hrow : forall tuple, tuple ∈ demo_rows -> length tuple = 2%nat /\ condition_ok demo_index tuple id_from_8 /\
      well_typed tuple demo_index id_plus_1 = true /\ is_Some (float_meaning tuple demo_index id_plus_1)).
    { apply Forall_forall. repeat (apply List.Forall_cons || apply List.Forall_nil);
        (split; [reflexivity|]; split; [|split; [vm_compute; reflexivity|eexists; vm_compute; reflexivity]]);
        (split; [reflexivity|]; split; [vm_compute; reflexivity|]; split; [vm_compute; reflexivity|]);
        (intros x y Hx Hy; vm_compute in Hx, Hy; injection Hx as <-; injection Hy as <-; vm_compute; discriminate). }
    apply Forall_forall. intros tuple Ht. destruct (Hrow tuple Ht) as (Hl & Hc & Hw & Hm).
    split; [exact Hl|]. split; [apply List.Forall_cons; [exact Hc|apply List.Forall_nil]|].
    apply List.Forall_cons; [split; [exact Hw|exact Hm]|apply List.Forall_nil].
  - exists picked, rows. split; [exact E|]. split; [exact Ho|].
    assert (El : match exp_execute demo_output TupleSet_create with Ok set => length (tuples_ set) | _ => 0%nat end = 2%nat)
      by (vm_compute; reflexivity).
    rewrite E in El. exact El.
Defined.

(** ** Positions *)

(** A second table. *)
Definition two_tables : res unit * demo_cs :=
  Db.create_table (J := JsonTree.value) (T := JsonTree.value) "d" "u" 2 (Some demo_attrs) run_create_table.2.
Definition demo_tables : list (TableMeta * list FieldMeta) := [(meta_named "t", demo_columns); (meta_named "u", demo_columns)].

Lemma demo_found : Forall (found_table "d" two_tables.2) demo_tables.
Proof.
  unfold demo_tables. apply List.Forall_cons; [|apply List.Forall_cons; [|apply List.Forall_nil]].
  - split; [apply (proj1 (meta_named_row "t" eq_refl))|vm_compute; reflexivity].
  - split; [apply (proj1 (meta_named_row "u" eq_refl))|vm_compute; reflexivity].
Qed.

Lemma positions_agree_witness :
  exists m, create_field_index (with_conditions [] {| aggregates := []; attributes := []; attributes_exp := [];
      relations := ["u"; "t"]%string; joins := []; conditions := []; order_by := []; group_bys := [] |}) "d" two_tables.2 =
      (Ok m, two_tables.2) /\
    find_index_of m "u" "born" = Some 3.
Proof.
  set (q := with_conditions _ _).
  destruct (positions_agree "d" q demo_tables two_tables.2) as (m & sc & Hm & _ & E & Ha).
  - reflexivity.
  - exact demo_found.
  - vm_compute. apply (bool_decide_unpack _). vm_compute. exact I.
  - exists m. split; [exact Hm|]. apply (Ha 3%nat {| tf_type := DATES; tf_table_name := "u"; tf_field_name := "born"; tf_order := 0 |}).
    rewrite E. reflexivity.
Defined.

(** ** The end of a query *)

Definition grouped : Selects := query [aggregate COUNTS "*"; aggregate SUMS "id"] [] [] [] [] ["born"%string].
Definition run_grouped := do_select 30 (fun _ _ => (no_desc, no_desc)) grouped demo_es.

(** The transaction of the three insertions is open before. *)
Lemma select_ends_transaction_witness :
  ts_trx (cs_ts (es_cs demo_es)) <> Trx_create /\ ts_trx (cs_ts (es_cs run_grouped.2)) = Trx_create.
Proof.
  split.
  - assert (E : (trx_id_ (ts_trx (cs_ts (es_cs demo_es))) =? trx_id_ Trx_create) = false) by (vm_compute; reflexivity).
    intros Ht. rewrite Ht in E. discriminate E.
  - apply (select_ends_transaction 30 (fun _ _ => (no_desc, no_desc)) grouped demo_es run_grouped.2).
    + rewrite (surjective_pairing (do_select _ _ _ _)). apply (f_equal2 pair); [vm_compute; reflexivity|reflexivity].
    + reflexivity.
Defined.

(** The sum of a column of dates is an error, after which the transaction is still open. *)
Definition run_wrong_sum := do_select 30 (fun _ _ => (no_desc, no_desc)) (query [aggregate SUMS "born"] [] [] [] [] []) demo_es.

Lemma aggregate_error_open :
  run_wrong_sum.1 = Err INVALID_ARGUMENT /\ trx_id_ (ts_trx (cs_ts (es_cs run_wrong_sum.2))) = 1.
Proof. vm_compute. by split. Qed.
