(* ===== verification/ExecutorDemo.v ===== *)
(** * Concrete statements on two tables

    Tables t and u with two rows each: queries with joins and sub-queries through [do_select_v2], what the stage makes of a session of
    several statements, and the witnesses for the theorems on executors and statements. *)
From Stdlib Require Import String Ascii Floats.SpecFloat Sorted.
From S2P Require Import Prelude ReturnCode Effects Bitmap Memory Replacer OsFile BufferPool.
From S2P Require Import RecordPage RecordFile KeyCompare BTreeNode BTree BTreeScan Dates TableMeta TableMetaTheorems.
From S2P Require Import ConditionFilter Trx Index Table TableTheorems TableScan TableFrame TableDemo Db Catalog CatalogRuns.
From S2P Require Import Values Expression Tuples TuplesTheorems KeyOrder TupleFilter Aggregation ExecNodes Syntax Select.
From S2P Require Import RowTheorems QueryTheorems SelectTheorems SelectDemo LoadData QueryFilter Executors ExecutorBuilder Server.
From S2P Require Import ServerTheorems ExecutorTheorems.

Import JsonTree.

#[local] Open Scope c_scope.
#[local] Open Scope Z_scope.

(** ** The parameters *)

#[local] Instance demo_hash : StdHash := {
  hash_string := fun l => foldl (fun h b => h * 257 + b) 7 l; hash_int := id; hash_float := bits_of_float; set_begin := head }.

(** All string objects are at different addresses. *)
#[local] Instance demo_objects : StringObjects := {
  object_bytes := fun side i j => [match side with LeftTuple => 1 | _ => 2 end; Z.of_nat i + 1; Z.of_nat j + 1; 0] }.

(** One file of two lines. *)
#[local] Instance demo_files : InputFiles MemFS.fs := {
  read_file := fun name _ => if bool_decide (name = bytes_of_string "rows") then Some (newline ++ bytes_of_string "x|2020-1-1") else None;
  system_error := bytes_of_string "No such file"; elapsed := bytes_of_string "0" }.

Definition demo_junk : Junk := {|
  junk_filters := fun _ _ => (no_desc, no_desc); junk_record := fun _ => demo_mem;
  junk_index := junk_header |}.

(** ** Two tables *)

Definition insert_in (t : string) (n : Z) (day : string) (s : demo_cs) : demo_cs :=
  (Db.insert_record 20 (Some "d"%string) (Some t) 2 [int_value n; day_value day] demo_mem s).2.
Definition filled : demo_cs :=
  insert_in "u" 6 "2000-2-29" (insert_in "u" 5 "2001-1-1" (insert_in "t" 5 "1999-1-1" (insert_in "t" 7 "2000-2-29" two_tables.2))).
Definition session_on (s : demo_cs) : ES LRU.LRUReplacer MemFS.fs :=
  {| es_session := {| current_db_ := "d"; trx_multi_operation_mode_ := false |}; es_response := None; es_cs := s |}.

Definition col (t n : string) : RelAttr := {| relation_name := Some t; attribute_name := Some n |}.
Definition between (l : RelAttr) (op : CompOp) (r : RelAttr) : SqlCondition :=
  {| plain_condition := {| left_is_attr := 1; left_value := int_value 0; left_attr := l; comp := op;
                           right_is_attr := 1; right_value := int_value 7; right_attr := r |};
     left_ast := NullAst; right_ast := NullAst; left_selects := None; right_selects := None |}.
Definition sub_query (l : RelAttr) (op : CompOp) (q : Selects) : SqlCondition :=
  {| plain_condition := {| left_is_attr := 1; left_value := int_value 0; left_attr := l; comp := op;
                           right_is_attr := 0; right_value := int_value 7; right_attr := attr "" |};
     left_ast := NullAst; right_ast := NullAst; left_selects := None; right_selects := Some q |}.
Definition select (aggs : list Aggregate) (attrs : list RelAttr) (rels : list string) (js : list Join) (conds : list SqlCondition) : Selects :=
  {| aggregates := aggs; attributes := attrs; attributes_exp := []; relations := rels; joins := js;
     conditions := conds; order_by := []; group_bys := [] |}.
Definition join_u (c : SqlCondition) : Join := {| join_type := INNER_JOIN; join_table := "u"; join_conditions := [c] |}.

Definition answer_v2 (q : Selects) : res unit * option string :=
  let '(r, s) := do_select_v2 30 5 q (session_on filled) in (r, string_of_bytes <$> es_response s).

(** [select * from t inner join u on t.id = u.id]. *)
Example join_query :
  answer_v2 (select [] [attr "*"] ["t"%string] [join_u (between (col "t" "id") EQUAL_TO (col "u" "id"))] []) =
  (Ok tt, lines ["t.id | t.born | u.id | u.born"; "5 | 1999-01-01 | 5 | 2001-01-01"; ""]%string).
Proof. vm_compute. reflexivity. Qed.

(** [select * from t where id in (select id from u)]. *)
Example in_query :
  answer_v2 (select [] [attr "*"] ["t"%string] [] [sub_query (attr "id") IN_OP (select [] [attr "id"] ["u"%string] [] [])]) =
  (Ok tt, lines ["id | born"; "5 | 1999-01-01"; ""]%string).
Proof. vm_compute. reflexivity. Qed.

(** [select * from t where id > (select min(id) from u)]. *)
Example scalar_query :
  answer_v2 (select [] [attr "*"] ["t"%string] [] [sub_query (attr "id") GREAT_THAN (select [aggregate MINS "id"] [] ["u"%string] [] [])]) =
  (Ok tt, lines ["id | born"; "7 | 2000-02-29"; ""]%string).
Proof. vm_compute. reflexivity. Qed.

(** [select u.id, t.id from t inner join u on t.id < u.id]: the columns of the left table come first, under the headings
    in the order of the statement, which is the other one: 5 is the number of t. *)
Lemma join_columns_exchanged :
  answer_v2 (select [] [col "t" "id"; col "u" "id"] ["t"%string] [join_u (between (col "t" "id") LESS_THAN (col "u" "id"))] []) =
  (Ok tt, lines ["u.id | t.id"; "5 | 6"; ""]%string).
Proof. vm_compute. reflexivity. Qed.

(** [select count( * ) from t inner join u on t.id < u.id] prints an element of an empty vector. *)
Lemma join_count_star :
  (answer_v2 (select [aggregate COUNTS "*"] [] ["t"%string] [join_u (between (col "t" "id") LESS_THAN (col "u" "id"))] [])).1 = Ub.
Proof. vm_compute. reflexivity. Qed.

(** [select * from t where born in (select born from u)] finds nothing, although both tables have a row of 2000-02-29: the string
    objects are hashed, not their texts. *)
Lemma in_on_strings_fails :
  answer_v2 (select [] [attr "*"] ["t"%string] [] [sub_query (attr "born") IN_OP (select [] [attr "born"] ["u"%string] [] [])]) =
  (Ok tt, lines ["id | born"; ""]%string).
Proof. vm_compute. reflexivity. Qed.

(** [select * from t where id = (select max(id) from u where u.id = t.id)] finds nothing, although 5 is in both tables: the filter
    for the first row, 7, for which the sub-query is empty, is not taken off for the second. *)
Lemma correlated_filter_stays :
  answer_v2 (select [] [attr "*"] ["t"%string] []
               [sub_query (attr "id") EQUAL_TO (select [aggregate MAXS "id"] [] ["u"%string] [] [between (col "u" "id") EQUAL_TO (col "t" "id")])]) =
  (Ok tt, lines ["id | born"; ""]%string).
Proof. vm_compute. reflexivity. Qed.

(** ** A session *)

Definition insert_into (t : string) (rows : list (Z * string)) : Query :=
  SCF_INSERT {| in_relation := t; in_pairs := (fun x => [int_value x.1; day_value x.2]) <$> rows |}.

Abbreviation request := (handle_request 30 5 (J := JsonTree.value) (T := JsonTree.value) demo_junk).

(** The answers of the statements. *)
Fixpoint answers (l : list Query) (s : ES LRU.LRUReplacer MemFS.fs) : list (res unit * option string) :=
  match l with
  | [] => []
  | q :: rest => let '(r, s) := request q s in (r, string_of_bytes <$> es_response s) :: answers rest s
  end.

Definition all_ids : Query := SCF_SELECT (select [] [attr "id"] ["t"%string] [] []).

(** What a transaction of several statements has inserted is gone after ROLLBACK. *)
Example rolled_back :
  answers [insert_into "t" [(1, "2000-1-1")]; SCF_BEGIN; insert_into "t" [(2, "2000-1-1")]; all_ids; SCF_ROLLBACK; all_ids]%string
    (session_on two_tables.2) =
  [(Ok tt, lines ["SUCCESS"; ""]); (Ok tt, Some "SUCCESS"); (Ok tt, lines ["SUCCESS"; ""]); (Ok tt, lines ["id"; "1"; "2"; ""]);
   (Ok tt, Some "SUCCESS"); (Ok tt, lines ["id"; "1"; ""])]%string.
Proof. vm_compute. reflexivity. Qed.

(** INSERT of two rows, the second with a day that does not exist: outside of a transaction nothing is left of the first row; in a
    transaction it stays, although the statement has failed. *)
Lemma insert_keeps_first_row :
  answers [insert_into "t" [(20, "2000-1-1"); (21, "2000-13-1")]; all_ids; SCF_BEGIN; insert_into "t" [(20, "2000-1-1"); (21, "2000-13-1")];
           SCF_COMMIT; all_ids]%string (session_on two_tables.2) =
  [(Ok tt, lines ["FAILURE"; ""]); (Ok tt, lines ["id"; ""]); (Ok tt, Some "SUCCESS"); (Ok tt, lines ["FAILURE"; ""]);
   (Ok tt, Some "SUCCESS"); (Ok tt, lines ["id"; "20"; ""])]%string.
Proof. vm_compute. reflexivity. Qed.

Example other_statements :
  answers [SCF_SHOW_TABLES; SCF_DESC_TABLE "zz"; SCF_LOAD_DATA {| ld_relation := "t"; ld_file := bytes_of_string "rows" |};
           SCF_DROP_INDEX "i"; SCF_SELECT (select [] [attr "zz"] ["t"] [] [])]%string (session_on two_tables.2) =
  [(Ok tt, lines ["u"; "t"; ""; ""]); (Ok tt, lines ["No such table: zz"; ""]);
   (Ok tt, lines ["Line:2 insert record failed:need an integer but got 'x' (field index:0). error:SCHEMA_FIELD_TYPE_MISMATCH"; ""]);
   (Ok tt, lines ["Unsupported sql: 8"; ""]); (Ok tt, lines ["FAILURE"; ""])]%string.
Proof. vm_compute. reflexivity. Qed.

(** ** Witnesses *)

Definition demo_requests : list (Junk * Query) :=
  pair demo_junk <$> [SCF_BEGIN; insert_into "t" [(2, "2000-1-1")]; all_ids; SCF_COMMIT; insert_into "t" [(20, "2000-13-1")]]%string.
Definition run_requests := requests 30 5 (J := JsonTree.value) (T := JsonTree.value) demo_requests (session_on two_tables.2).

Lemma requests_end_transactions_witness :
  es_session run_requests.2 = {| current_db_ := "d"; trx_multi_operation_mode_ := false |} /\ open_trx run_requests.2 = Trx_create.
Proof.
  destruct (requests_end_transactions 30 5 (J := JsonTree.value) (T := JsonTree.value) demo_requests (session_on two_tables.2) run_requests.2) as [Hs Hi].
  - vm_compute. reflexivity.
  - intros _. vm_compute. reflexivity.
  - split; [exact Hs|]. apply Hi. rewrite Hs. reflexivity.
Defined.

Definition ints (l : list Z) : list Tuple := (fun x => [IntValue x]) <$> l.

Lemma ints_in l : Forall is_int32 l -> Forall2 (int_in 0) (ints l) l.
Proof. induction 1 as [|x l Hx _ IH]; constructor; [by split|exact IH]. Qed.

Lemma in_sub_query_correct_witness :
  exists values kept, insert_values (object_bytes RightTuple 0) 0 (ints [3; 5; 3]) [] = Ok values /\
    keep_tuples NOT_IN_OP 0 values 0 (ints [5; 7; 3]) = Ok kept /\
    selected (fun t => exists y, int_in 0 t y /\ y ∉ [3; 5; 3]) (ints [5; 7; 3]) kept.
Proof.
  apply (in_sub_query_correct NOT_IN_OP 0 (ints [5; 7; 3]) [5; 7; 3] (ints [3; 5; 3]) [3; 5; 3]);
    [reflexivity|lia| |]; apply ints_in; repeat (apply List.Forall_cons; [unfold is_int32; lia|]); apply List.Forall_nil.
Defined.

(** One column id of a table, and the filter [t.id = u.id]. *)
Definition id_field (table : string) : TupleField := TuplesTheorems.demo_field table "id".
Definition one_column (table : string) : TupleSchema := set_fields [id_field table] TupleSchema_create.
Definition rows_of (table : string) (l : list Z) : TupleSet := {| tuples_ := ints l; schema_ := one_column table |}.
Definition id_of (table : string) : FilterDesc :=
  {| fd_is_attr := true; fd_table_name := table; fd_field_name := "id"; fd_value := None; fd_attr_length := -1; fd_attr_offset := -1 |}.
Definition same_id : QueryFilter := {| qf_left := id_of "t"; qf_right := id_of "u"; qf_op := EQUAL_TO |}.

Lemma one_column_fresh table : fresh_schema (one_column table).
Proof. split; [done|done|]. apply NoDup_singleton. Qed.

Lemma t_not_u (t u : string) : t <> u -> ~ in_schema (one_column u) (id_field t).
Proof. intros Hne. unfold in_schema. cbn. by intros [= ->]%list_elem_of_singleton. Qed.

Lemma same_id_pair x y : - 2 ^ 30 <= x < 2 ^ 30 -> - 2 ^ 30 <= y < 2 ^ 30 ->
  pair_ok (one_column "t") (one_column "u") [same_id] ([IntValue x], [IntValue y]).
Proof.
  intros Hx Hy. split_and!; [done|done|]. apply Forall_singleton. exists false, (IntValue x), (IntValue y). split_and!.
  - cbn. apply or_introl. by exists 0%nat, (id_field "t").
  - cbn. apply or_intror. split; [by intros [=]%list_elem_of_singleton|by exists 0%nat, (id_field "u")].
  - by constructor.
  - by constructor.
Qed.

Lemma nested_loop_join_correct_witness :
  exists picked rows,
    join_sets (set_fields [id_field "t"; id_field "u"] TupleSchema_create) [same_id] (rows_of "t" [5; 7]) (rows_of "u" [5; 6]) TupleSet_create =
      Ok {| tuples_ := rows; schema_ := TupleSchema_create |} /\
    selected (fun p => Forall (pair_meets (one_column "t") (one_column "u") p) [same_id])
      (list_prod (ints [5; 7]) (ints [5; 6])) picked /\
    Forall2 (joined_row (one_column "t") (one_column "u") [id_field "t"] [id_field "u"]) picked rows.
Proof.
  apply (nested_loop_join_correct (rows_of "t" [5; 7]) (rows_of "u" [5; 6])
           (set_fields [id_field "t"; id_field "u"] TupleSchema_create) [id_field "t"] [id_field "u"] [same_id] TupleSet_create);
    try apply one_column_fresh; [reflexivity| | | | |].
  1, 3: apply List.Forall_cons; [|apply List.Forall_nil]; unfold in_schema; cbn; by apply list_elem_of_singleton.
  1, 2: apply List.Forall_cons; [by apply t_not_u|apply List.Forall_nil].
  cbn [list_prod rows_of tuples_ ints fmap list_fmap List.map app].
  repeat (apply List.Forall_cons; [apply same_id_pair; lia|]). apply List.Forall_nil.
Defined.
