(* ===== verification/ParserTables.v ===== *)
(** * The tables of the scanner and the parser (sql/parser/lex.yy.c, yacc_sql.tab.c)

    The transition table of the scanner that flex generated from lex_sql.l: the rows of the states overlap, and an entry belongs to
    the state that [yy_chk] says.  The tables of the parser that bison generated from yacc_sql.y: rows of the states for tokens,
    columns of the symbols for the states after a reduction, packed into one vector in the same way. *)
From S2P Require Import Prelude.

(** ** The scanner *)

(** The rule that a state accepts; 0: none, 73: the end of the buffer. *)
Definition yy_accept : list Z :=
  [0; 0; 0; 0; 0; 73; 71; 1; 2; 71; 58; 59; 7; 60; 63; 61; 6; 62; 3; 5; 67; 64; 69; 57; 57; 57; 57; 57; 57; 57;
   57; 57; 57; 57; 57; 57; 57; 57; 57; 57; 57; 57; 57; 57; 72; 0; 70; 0; 3; 65; 66; 68; 57; 57; 57; 57; 57; 57;
   54; 57; 57; 57; 57; 57; 57; 57; 57; 57; 57; 57; 25; 52; 57; 57; 57; 57; 57; 57; 17; 57; 57; 57; 57; 57; 57;
   57; 57; 57; 57; 57; 57; 4; 26; 55; 46; 57; 57; 57; 57; 57; 57; 57; 57; 57; 57; 57; 57; 57; 57; 57; 57; 57;
   57; 36; 57; 57; 44; 45; 49; 57; 57; 57; 57; 32; 57; 47; 57; 57; 57; 57; 57; 57; 57; 57; 37; 57; 57; 57; 42;
   39; 57; 10; 12; 8; 57; 21; 57; 9; 57; 57; 57; 57; 28; 24; 41; 50; 57; 57; 57; 18; 19; 57; 40; 57; 57; 57;
   57; 33; 57; 48; 57; 57; 38; 56; 16; 57; 23; 57; 57; 53; 57; 57; 13; 57; 57; 57; 22; 34; 11; 30; 43; 27; 57;
   57; 20; 14; 15; 31; 29; 57; 57; 51; 35; 0].

(** The class of a byte. *)
Definition yy_ec : list Z :=
  [0; 1; 1; 1; 1; 1; 1; 1; 2; 2; 3; 1; 2; 1; 1; 1; 1; 1; 1; 1; 1; 1; 1; 1; 1; 1; 1; 1; 1; 1; 1; 1; 4; 1; 5; 1;
   1; 1; 1; 5; 6; 7; 8; 9; 10; 11; 12; 13; 14; 14; 14; 14; 14; 14; 14; 14; 14; 14; 1; 15; 16; 17; 18; 1; 1; 19;
   20; 21; 22; 23; 24; 25; 26; 27; 28; 29; 30; 31; 32; 33; 34; 35; 36; 37; 38; 39; 40; 41; 42; 43; 44; 1; 1; 1;
   1; 44; 1; 19; 20; 21; 22; 23; 24; 25; 26; 27; 28; 29; 30; 31; 32; 33; 34; 35; 36; 37; 38; 39; 40; 41; 42;
   43; 44; 1; 1; 1; 1; 1; 1; 1; 1; 1; 1; 1; 1; 1; 1; 1; 1; 1; 1; 1; 1; 1; 1; 1; 1; 1; 1; 1; 1; 1; 1; 1; 1; 1;
   1; 1; 1; 1; 1; 1; 1; 1; 1; 1; 1; 1; 1; 1; 1; 1; 1; 1; 1; 1; 1; 1; 1; 1; 1; 1; 1; 1; 1; 1; 1; 1; 1; 1; 1; 1;
   1; 1; 1; 1; 1; 1; 1; 1; 1; 1; 1; 1; 1; 1; 1; 1; 1; 1; 1; 1; 1; 1; 1; 1; 1; 1; 1; 1; 1; 1; 1; 1; 1; 1; 1; 1;
   1; 1; 1; 1; 1; 1; 1; 1; 1; 1; 1; 1; 1; 1; 1; 1; 1; 1; 1; 1; 1; 1; 1; 1; 1; 1; 1; 1].

(** The class of a class, for the states from 204 on. *)
Definition yy_meta : list Z :=
  [0; 1; 1; 1; 2; 2; 1; 1; 1; 1; 1; 2; 2; 2; 3; 1; 1; 1; 1; 3; 3; 3; 3; 3; 3; 3; 3; 3; 3; 3; 3; 3; 3; 3; 3; 3;
   3; 3; 3; 3; 3; 3; 3; 3; 3].

(** Where the row of a state begins in [yy_nxt] and [yy_chk]. *)
Definition yy_base : list Z :=
  [0; 0; 0; 0; 0; 382; 383; 383; 383; 376; 383; 383; 383; 383; 383; 383; 383; 383; 33; 383; 31; 383; 363; 32;
   36; 37; 38; 39; 41; 40; 42; 46; 52; 365; 53; 61; 54; 68; 70; 75; 76; 77; 78; 80; 383; 373; 372; 362; 93;
   383; 383; 383; 0; 361; 88; 94; 98; 99; 360; 102; 103; 105; 82; 108; 111; 112; 113; 115; 116; 117; 119; 359;
   123; 121; 118; 122; 138; 139; 358; 141; 144; 145; 147; 148; 150; 151; 152; 154; 156; 158; 163; 357; 356;
   355; 354; 170; 153; 159; 171; 173; 177; 179; 184; 181; 185; 187; 190; 193; 194; 195; 197; 196; 199; 198;
   202; 203; 353; 352; 351; 200; 206; 212; 213; 350; 219; 349; 223; 221; 224; 226; 227; 225; 229; 231; 348;
   239; 233; 234; 347; 346; 235; 345; 344; 343; 236; 342; 241; 341; 238; 240; 242; 243; 340; 339; 338; 262;
   253; 263; 270; 337; 336; 245; 335; 255; 244; 272; 273; 334; 271; 333; 274; 276; 332; 331; 330; 278; 329;
   279; 284; 328; 286; 288; 292; 289; 293; 294; 327; 326; 325; 324; 323; 314; 297; 299; 311; 310; 309; 308;
   307; 296; 301; 304; 300; 383; 331; 333; 59; 55].

(** The state whose row is used where the own row has no entry. *)
Definition yy_def : list Z :=
  [0; 203; 1; 204; 204; 203; 203; 203; 203; 205; 203; 203; 203; 203; 203; 203; 203; 203; 203; 203; 203; 203;
   203; 206; 206; 206; 206; 206; 206; 206; 206; 206; 206; 206; 206; 206; 206; 206; 206; 206; 206; 206; 206;
   206; 203; 205; 205; 203; 203; 203; 203; 203; 207; 206; 206; 206; 206; 206; 206; 206; 206; 206; 206; 206;
   206; 206; 206; 206; 206; 206; 206; 206; 206; 206; 206; 206; 206; 206; 206; 206; 206; 206; 206; 206; 206;
   206; 206; 206; 206; 206; 206; 203; 206; 206; 206; 206; 206; 206; 206; 206; 206; 206; 206; 206; 206; 206;
   206; 206; 206; 206; 206; 206; 206; 206; 206; 206; 206; 206; 206; 206; 206; 206; 206; 206; 206; 206; 206;
   206; 206; 206; 206; 206; 206; 206; 206; 206; 206; 206; 206; 206; 206; 206; 206; 206; 206; 206; 206; 206;
   206; 206; 206; 206; 206; 206; 206; 206; 206; 206; 206; 206; 206; 206; 206; 206; 206; 206; 206; 206; 206;
   206; 206; 206; 206; 206; 206; 206; 206; 206; 206; 206; 206; 206; 206; 206; 206; 206; 206; 206; 206; 206;
   206; 206; 206; 206; 206; 206; 206; 206; 206; 206; 206; 206; 206; 0; 203; 203; 203; 203].

(** The next states of all rows. *)
Definition yy_nxt : list Z :=
  [0; 6; 7; 8; 7; 9; 10; 11; 12; 13; 14; 15; 16; 17; 18; 19; 20; 21; 22; 23; 24; 25; 26; 27; 28; 29; 30; 31;
   32; 33; 34; 35; 36; 37; 33; 33; 38; 39; 40; 41; 42; 43; 33; 33; 33; 47; 52; 48; 49; 50; 52; 52; 52; 52; 52;
   52; 52; 62; 52; 57; 52; 63; 53; 59; 54; 69; 52; 52; 52; 55; 60; 66; 56; 61; 64; 52; 68; 67; 70; 58; 74; 65;
   52; 71; 52; 72; 73; 76; 75; 52; 52; 52; 52; 77; 52; 85; 52; 89; 81; 86; 78; 82; 52; 80; 79; 47; 90; 48; 52;
   87; 92; 88; 52; 52; 83; 93; 52; 52; 84; 52; 100; 96; 52; 94; 95; 52; 52; 52; 99; 52; 52; 52; 52; 52; 97; 52;
   52; 52; 101; 104; 115; 109; 98; 110; 103; 102; 105; 108; 106; 107; 114; 111; 52; 52; 117; 52; 112; 113; 52;
   52; 116; 52; 52; 120; 52; 52; 52; 52; 52; 119; 52; 127; 52; 52; 121; 122; 118; 52; 130; 125; 124; 129; 126;
   123; 52; 52; 132; 52; 131; 134; 135; 52; 137; 52; 128; 52; 138; 133; 52; 52; 139; 52; 140; 136; 52; 141;
   144; 52; 52; 52; 52; 52; 52; 52; 52; 142; 52; 52; 148; 150; 52; 145; 151; 143; 149; 154; 52; 52; 147; 156;
   155; 152; 146; 52; 153; 52; 158; 52; 52; 52; 52; 52; 157; 52; 160; 52; 164; 52; 52; 52; 52; 161; 52; 52; 52;
   52; 52; 52; 52; 52; 159; 163; 162; 167; 165; 166; 168; 52; 182; 52; 175; 169; 170; 171; 172; 173; 52; 52;
   176; 177; 174; 178; 184; 180; 52; 52; 52; 52; 52; 179; 52; 181; 52; 52; 183; 185; 186; 188; 52; 189; 52;
   190; 52; 52; 192; 193; 52; 52; 52; 187; 52; 52; 196; 52; 52; 52; 197; 191; 52; 201; 200; 52; 52; 52; 52; 52;
   194; 199; 52; 195; 202; 198; 44; 44; 44; 45; 45; 52; 52; 52; 52; 52; 52; 52; 52; 52; 52; 52; 52; 52; 52; 52;
   52; 52; 52; 52; 52; 52; 52; 52; 52; 52; 52; 52; 52; 52; 52; 52; 52; 52; 52; 91; 52; 52; 52; 52; 91; 46; 46;
   52; 51; 46; 203; 5; 203; 203; 203; 203; 203; 203; 203; 203; 203; 203; 203; 203; 203; 203; 203; 203; 203;
   203; 203; 203; 203; 203; 203; 203; 203; 203; 203; 203; 203; 203; 203; 203; 203; 203; 203; 203; 203; 203;
   203; 203; 203; 203; 203; 203].

(** The state to which an entry of [yy_nxt] belongs. *)
Definition yy_chk : list Z :=
  [0; 1; 1; 1; 1; 1; 1; 1; 1; 1; 1; 1; 1; 1; 1; 1; 1; 1; 1; 1; 1; 1; 1; 1; 1; 1; 1; 1; 1; 1; 1; 1; 1; 1; 1; 1;
   1; 1; 1; 1; 1; 1; 1; 1; 1; 18; 23; 18; 20; 20; 24; 25; 26; 27; 29; 28; 30; 26; 207; 24; 31; 26; 206; 25; 23;
   30; 32; 34; 36; 23; 25; 28; 23; 25; 26; 35; 29; 28; 31; 24; 35; 27; 37; 31; 38; 32; 34; 36; 35; 39; 40; 41;
   42; 36; 43; 40; 62; 42; 39; 40; 37; 39; 54; 38; 37; 48; 43; 48; 55; 41; 54; 41; 56; 57; 39; 55; 59; 60; 39;
   61; 62; 59; 63; 56; 57; 64; 65; 66; 61; 67; 68; 69; 74; 70; 60; 73; 75; 72; 63; 65; 73; 70; 60; 70; 64; 63;
   66; 69; 67; 68; 72; 70; 76; 77; 75; 79; 70; 70; 80; 81; 74; 82; 83; 79; 84; 85; 86; 96; 87; 77; 88; 85; 89;
   97; 80; 81; 76; 90; 88; 83; 82; 87; 84; 81; 95; 98; 90; 99; 89; 96; 97; 100; 99; 101; 86; 103; 100; 95; 102;
   104; 100; 105; 101; 98; 106; 102; 105; 107; 108; 109; 111; 110; 113; 112; 119; 103; 114; 115; 109; 111; 120;
   106; 112; 104; 110; 115; 121; 122; 108; 120; 119; 113; 107; 124; 114; 127; 122; 126; 128; 131; 129; 130;
   121; 132; 126; 133; 130; 136; 137; 140; 144; 127; 148; 135; 149; 146; 150; 151; 164; 161; 124; 129; 128;
   133; 131; 132; 135; 156; 161; 163; 149; 136; 137; 140; 144; 146; 155; 157; 150; 151; 148; 155; 164; 157;
   158; 168; 165; 166; 170; 156; 171; 158; 175; 177; 163; 165; 166; 170; 178; 171; 180; 175; 181; 183; 178;
   180; 182; 184; 185; 168; 199; 192; 183; 193; 202; 200; 184; 177; 201; 199; 193; 198; 197; 196; 195; 194;
   181; 192; 191; 182; 200; 185; 204; 204; 204; 205; 205; 190; 189; 188; 187; 186; 179; 176; 174; 173; 172;
   169; 167; 162; 160; 159; 154; 153; 152; 147; 145; 143; 142; 141; 139; 138; 134; 125; 123; 118; 117; 116; 94;
   93; 92; 91; 78; 71; 58; 53; 47; 46; 45; 33; 22; 9; 5; 203; 203; 203; 203; 203; 203; 203; 203; 203; 203; 203;
   203; 203; 203; 203; 203; 203; 203; 203; 203; 203; 203; 203; 203; 203; 203; 203; 203; 203; 203; 203; 203;
   203; 203; 203; 203; 203; 203; 203; 203; 203; 203; 203; 203; 203].

(** ** The parser *)

Definition YYFINAL : Z := 2.
Definition YYLAST : Z := 297.
Definition YYNTOKENS : Z := 73.
Definition YYMAXUTOK : Z := 327.
Definition YYPACT_NINF : Z := -214.

(** The symbol of the code of a token. *)
Definition yytranslate : list Z :=
  [0; 2; 2; 2; 2; 2; 2; 2; 2; 2; 2; 2; 2; 2; 2; 2; 2; 2; 2; 2; 2; 2; 2; 2; 2; 2; 2; 2; 2; 2; 2; 2; 2; 2; 2; 2;
   2; 2; 2; 2; 2; 2; 2; 2; 2; 2; 2; 2; 2; 2; 2; 2; 2; 2; 2; 2; 2; 2; 2; 2; 2; 2; 2; 2; 2; 2; 2; 2; 2; 2; 2; 2;
   2; 2; 2; 2; 2; 2; 2; 2; 2; 2; 2; 2; 2; 2; 2; 2; 2; 2; 2; 2; 2; 2; 2; 2; 2; 2; 2; 2; 2; 2; 2; 2; 2; 2; 2; 2;
   2; 2; 2; 2; 2; 2; 2; 2; 2; 2; 2; 2; 2; 2; 2; 2; 2; 2; 2; 2; 2; 2; 2; 2; 2; 2; 2; 2; 2; 2; 2; 2; 2; 2; 2; 2;
   2; 2; 2; 2; 2; 2; 2; 2; 2; 2; 2; 2; 2; 2; 2; 2; 2; 2; 2; 2; 2; 2; 2; 2; 2; 2; 2; 2; 2; 2; 2; 2; 2; 2; 2; 2;
   2; 2; 2; 2; 2; 2; 2; 2; 2; 2; 2; 2; 2; 2; 2; 2; 2; 2; 2; 2; 2; 2; 2; 2; 2; 2; 2; 2; 2; 2; 2; 2; 2; 2; 2; 2;
   2; 2; 2; 2; 2; 2; 2; 2; 2; 2; 2; 2; 2; 2; 2; 2; 2; 2; 2; 2; 2; 2; 2; 2; 2; 2; 2; 2; 2; 2; 2; 2; 2; 2; 2; 2;
   2; 2; 2; 2; 1; 2; 3; 4; 5; 6; 7; 8; 9; 10; 11; 12; 13; 14; 15; 16; 17; 18; 19; 20; 21; 22; 23; 24; 25; 26;
   27; 28; 29; 30; 31; 32; 33; 34; 35; 36; 37; 38; 39; 40; 41; 42; 43; 44; 45; 46; 47; 48; 49; 50; 51; 52; 53;
   54; 55; 56; 57; 58; 59; 60; 61; 62; 63; 64; 65; 66; 67; 68; 69; 70; 71; 72].

(** Where the row of a state begins in [yytable] and [yycheck]. *)
Definition yypact : list Z :=
  [(-214); 196; (-214); 3; 44; (-214); (-49); 36; 45; 53; (-214); (-214); 88; 96; 100; 102; 104; 57; (-214);
   (-214); (-214); (-214); (-214); (-214); (-214); (-214); (-214); (-214); (-214); (-214); (-214); (-214); 77;
   (-214); 39; (-214); 49; (-214); 108; (-214); 50; 105; 52; 55; 56; 119; 126; (-214); 62; (-214); (-214);
   (-214); (-214); (-214); 84; 73; 107; 4; (-214); (-214); (-214); (-214); (-214); (-214); 4; (-214); (-214);
   (-214); 121; (-214); (-214); 118; 122; 133; 137; (-214); 148; 98; 129; 166; 168; (-214); (-214); 140; 109;
   142; 110; 23; (-41); (-37); 89; 4; 4; 4; 4; (-214); 124; (-214); 14; 125; 139; 128; (-214); (-214); 173;
   160; 95; 192; 150; (-214); (-214); (-214); 118; 133; (-41); (-41); (-214); (-214); 180; 186; 83; (-214);
   194; (-9); 145; 198; 4; 213; (-4); 178; 183; (-15); (-214); 4; (-214); (-214); 152; 187; (-214); (-214);
   125; 205; (-214); (-214); (-214); (-214); (-214); (-7); 216; 165; 218; 123; 169; 222; (-214); (-214);
   (-214); (-214); (-214); (-214); 184; 193; (-214); 106; 95; (-214); 106; 75; 180; 210; 187; 142; 194; 245;
   182; 195; (-214); 185; 232; 4; 234; 250; (-214); (-214); (-214); (-4); 123; (-214); 183; 123; (-214); 252;
   (-214); 188; (-214); 197; (-214); (-214); (-214); 238; (-214); 240; 191; 243; 218; 244; (-214); 246; (-214);
   (-214); 223; 206; 208; (-214); 264; 232; 265; (-214); 253; 266; (-214); 95; 202; 214; (-214); (-214);
   (-214); (-214); 4; (-214); 178; 235; (-15); 247; 255; 207; (-214); 218; 106; 95; (-214); 106; 209; 202;
   (-214); (-8); 256; 261; 123; (-214); 235; 123; (-214); (-214); 255; (-214); 211; (-214); (-214); 207;
   (-214); 244; (-214); (-214); 16; 256; (-214); (-214); (-214)].

(** The rule by which a state reduces when its row says nothing; 0: an error. *)
Definition yydefact : list Z :=
  [2; 0; 1; 0; 0; 73; 0; 0; 0; 0; 69; 71; 0; 0; 0; 0; 0; 0; 3; 20; 19; 14; 15; 16; 17; 9; 10; 11; 12; 13; 8; 5;
   0; 7; 0; 6; 0; 4; 0; 18; 0; 0; 0; 0; 0; 0; 0; 23; 0; 24; 25; 26; 22; 21; 0; 0; 0; 0; 85; 86; 87; 88; 89; 58;
   0; 77; 55; 56; 66; 57; 65; 80; 0; 80; 0; 75; 0; 0; 0; 0; 0; 29; 28; 0; 0; 101; 0; 0; 60; 0; 0; 0; 0; 0; 0;
   78; 0; 79; 0; 0; 0; 0; 27; 34; 0; 0; 0; 0; 0; 64; 68; 67; 80; 80; 59; 61; 63; 62; 90; 0; 0; 48; 36; 0; 0; 0;
   0; 0; 0; 0; 103; 0; 70; 0; 81; 82; 0; 93; 84; 83; 0; 0; 43; 44; 45; 46; 47; 39; 0; 0; 51; 50; 0; 0; 111;
   112; 113; 114; 115; 116; 0; 117; 119; 0; 0; 102; 0; 101; 90; 0; 93; 101; 36; 0; 0; 0; 41; 0; 32; 0; 0; 0;
   109; 120; 118; 0; 105; 106; 103; 107; 108; 0; 91; 0; 94; 130; 37; 35; 42; 0; 40; 0; 0; 0; 51; 53; 136; 0;
   104; 72; 0; 0; 121; 38; 0; 32; 0; 52; 0; 0; 110; 0; 0; 0; 74; 31; 33; 30; 0; 49; 0; 95; 0; 132; 134; 0; 76;
   51; 0; 0; 92; 0; 0; 0; 131; 125; 128; 0; 97; 98; 95; 99; 100; 133; 134; 127; 0; 126; 123; 0; 122; 53; 96;
   135; 125; 128; 54; 124; 129].

(** Where the column of a symbol begins. *)
Definition yypgoto : list Z :=
  [(-214); (-214); (-214); (-214); (-214); (-214); (-214); (-214); (-214); (-214); (-214); (-214); (-214); 66;
   (-214); (-214); 111; 144; (-214); (-214); (-214); (-214); (-149); (-197); 21; (-214); (-36); (-214); (-214);
   (-214); (-214); (-214); (-214); (-214); (-124); (-214); (-68); 199; (-214); 117; (-214); 116; 37; 51;
   (-148); 103; 130; (-213); (-164); (-130); (-214); 29; 28; 30; (-214); 54; 42; (-214)].

(** The state after a symbol when its column says nothing. *)
Definition yydefgoto : list Z :=
  [(-1); 1; 18; 19; 20; 21; 22; 23; 24; 25; 26; 27; 28; 203; 29; 30; 141; 122; 199; 147; 123; 31; 150; 180;
   219; 70; 87; 32; 33; 34; 35; 36; 236; 37; 38; 72; 95; 73; 74; 137; 170; 171; 240; 231; 107; 165; 130; 131;
   187; 163; 224; 246; 258; 260; 212; 234; 244; 39].

(** What to do: shift to a state, or reduce by a rule (negative). *)
Definition yytable : list Z :=
  [71; 166; 190; 255; 153; 97; 5; 217; 232; 40; 174; 41; 42; 57; 142; 143; 144; 145; 146; 191; 45; 57; 256;
   195; 93; 94; 232; 255; 88; 110; 204; 57; 111; 154; 155; 156; 157; 158; 159; 160; 247; 109; 161; 46; 134;
   135; 162; 175; 47; 176; 43; 63; 257; 44; 112; 114; 115; 116; 117; 63; 64; 207; 120; 66; 67; 68; 57; 69; 64;
   63; 129; 66; 67; 68; 249; 69; 257; 252; 64; 237; 119; 66; 67; 68; 48; 69; 91; 92; 93; 94; 151; 49; 58; 59;
   60; 61; 62; 167; 54; 50; 238; 139; 241; 51; 63; 52; 57; 53; 56; 106; 55; 75; 128; 64; 77; 65; 66; 67; 68;
   76; 69; 78; 81; 185; 79; 80; 84; 186; 129; 82; 189; 83; 58; 59; 60; 61; 62; 90; 91; 92; 93; 94; 85; 151; 63;
   86; 91; 92; 93; 94; 63; 89; 90; 64; 98; 96; 66; 67; 68; 64; 69; 63; 66; 67; 68; 99; 69; 100; 101; 102; 64;
   103; 104; 66; 67; 68; 106; 69; 124; 108; 105; 91; 92; 93; 94; 230; 91; 92; 93; 94; 126; 127; 151; 118; 121;
   132; 2; 125; 133; 136; 3; 4; 248; 230; 138; 251; 5; 6; 7; 8; 9; 10; 11; 140; 148; 149; 12; 13; 14; 152; 164;
   168; 169; 173; 15; 16; 154; 155; 156; 157; 158; 159; 160; 177; 178; 161; 17; 179; 181; 162; 182; 91; 92; 93;
   94; 183; 193; 184; 197; 198; 200; 202; 205; 206; 201; 209; 213; 210; 214; 211; 215; 216; 221; 218; 220; 222;
   223; 225; 227; 229; 228; 233; 239; 235; 243; 259; 245; 242; 253; 261; 264; 226; 266; 196; 172; 192; 194;
   262; 265; 113; 250; 208; 267; 0; 188; 268; 263; 254].

(** To which token or state an entry of [yytable] belongs. *)
Definition yycheck : list Z :=
  [36; 131; 166; 11; 128; 73; 10; 204; 221; 6; 17; 8; 9; 17; 23; 24; 25; 26; 27; 167; 69; 17; 30; 171; 65; 66;
   239; 11; 64; 66; 179; 17; 69; 48; 49; 50; 51; 52; 53; 54; 237; 18; 57; 7; 112; 113; 61; 54; 3; 56; 6; 55;
   60; 9; 90; 91; 92; 93; 94; 55; 64; 185; 98; 67; 68; 69; 17; 71; 64; 55; 106; 67; 68; 69; 238; 71; 60; 241;
   64; 228; 66; 67; 68; 69; 31; 71; 63; 64; 65; 66; 126; 3; 43; 44; 45; 46; 47; 133; 41; 3; 230; 18; 232; 3;
   55; 3; 17; 3; 69; 34; 33; 3; 17; 64; 9; 66; 67; 68; 69; 69; 71; 69; 3; 17; 69; 69; 42; 163; 164; 3; 166; 69;
   43; 44; 45; 46; 47; 19; 63; 64; 65; 66; 69; 179; 55; 38; 63; 64; 65; 66; 55; 30; 19; 64; 17; 33; 67; 68; 69;
   64; 71; 55; 67; 68; 69; 17; 71; 69; 39; 3; 64; 3; 32; 67; 68; 69; 34; 71; 39; 69; 71; 63; 64; 65; 66; 221;
   63; 64; 65; 66; 17; 31; 228; 69; 69; 3; 0; 69; 48; 19; 4; 5; 238; 239; 18; 241; 10; 11; 12; 13; 14; 15; 16;
   19; 69; 17; 20; 21; 22; 6; 37; 69; 35; 18; 28; 29; 48; 49; 50; 51; 52; 53; 54; 17; 69; 57; 40; 19; 69; 61;
   18; 63; 64; 65; 66; 61; 36; 54; 3; 67; 55; 19; 18; 3; 69; 3; 18; 69; 18; 62; 69; 18; 39; 19; 18; 59; 58; 3;
   3; 3; 17; 69; 37; 59; 19; 19; 69; 30; 69; 18; 69; 215; 261; 172; 140; 168; 170; 250; 259; 90; 239; 188; 264;
   (-1); 164; 265; 254; 243].

(** The symbol that leads to a state. *)
Definition yystos : list Z :=
  [0; 74; 0; 4; 5; 10; 11; 12; 13; 14; 15; 16; 20; 21; 22; 28; 29; 40; 75; 76; 77; 78; 79; 80; 81; 82; 83; 84;
   85; 87; 88; 94; 100; 101; 102; 103; 104; 106; 107; 130; 6; 8; 9; 6; 9; 69; 7; 3; 31; 3; 3; 3; 3; 3; 41; 33;
   69; 17; 43; 44; 45; 46; 47; 55; 64; 66; 67; 68; 69; 71; 98; 99; 108; 110; 111; 3; 69; 9; 69; 69; 69; 3; 3;
   69; 42; 69; 38; 99; 99; 30; 19; 63; 64; 65; 66; 109; 33; 109; 17; 17; 69; 39; 3; 3; 32; 71; 34; 117; 69; 18;
   66; 69; 99; 110; 99; 99; 99; 99; 69; 66; 99; 69; 90; 93; 39; 69; 17; 31; 17; 99; 119; 120; 3; 48; 109; 109;
   19; 112; 18; 18; 19; 89; 23; 24; 25; 26; 27; 92; 69; 17; 95; 99; 6; 107; 48; 49; 50; 51; 52; 53; 54; 57; 61;
   122; 37; 118; 122; 99; 69; 35; 113; 114; 90; 18; 17; 54; 56; 17; 69; 19; 96; 69; 18; 61; 54; 17; 99; 121;
   119; 99; 121; 117; 112; 36; 114; 117; 89; 3; 67; 91; 55; 69; 19; 86; 95; 18; 3; 107; 118; 3; 69; 62; 127;
   18; 18; 69; 18; 96; 19; 97; 18; 39; 59; 58; 123; 3; 86; 3; 17; 3; 99; 116; 120; 69; 128; 59; 105; 95; 122;
   37; 115; 122; 30; 19; 129; 69; 124; 96; 99; 121; 116; 99; 121; 69; 128; 11; 30; 60; 125; 19; 126; 18; 115;
   129; 69; 124; 97; 125; 126].

(** The symbol that a rule makes. *)
Definition yyr1 : list Z :=
  [0; 73; 74; 74; 75; 75; 75; 75; 75; 75; 75; 75; 75; 75; 75; 75; 75; 75; 75; 75; 75; 76; 77; 78; 79; 80; 81;
   82; 83; 84; 85; 85; 86; 86; 87; 88; 89; 89; 90; 90; 90; 90; 91; 92; 92; 92; 92; 92; 93; 94; 95; 96; 96; 97;
   97; 98; 98; 98; 98; 99; 99; 99; 99; 99; 99; 99; 99; 99; 99; 100; 101; 102; 103; 104; 105; 106; 107; 108;
   108; 108; 109; 109; 109; 110; 110; 111; 111; 111; 111; 111; 112; 112; 113; 114; 114; 115; 115; 116; 116;
   116; 116; 117; 117; 118; 118; 119; 119; 119; 119; 120; 121; 122; 122; 122; 122; 122; 122; 122; 122; 122;
   122; 123; 123; 124; 124; 125; 125; 125; 126; 126; 127; 127; 128; 128; 129; 129; 130].

(** The number of symbols that a rule replaces. *)
Definition yyr2 : list Z :=
  [0; 2; 0; 2; 1; 1; 1; 1; 1; 1; 1; 1; 1; 1; 1; 1; 1; 1; 1; 1; 1; 2; 2; 2; 2; 2; 2; 4; 3; 3; 10; 10; 0; 3; 4;
   8; 0; 3; 5; 2; 4; 3; 1; 1; 1; 1; 1; 1; 1; 10; 1; 0; 3; 0; 6; 1; 1; 1; 1; 3; 2; 3; 3; 3; 3; 1; 1; 3; 3; 1; 5;
   1; 8; 1; 0; 2; 10; 1; 2; 2; 0; 3; 3; 4; 4; 1; 1; 1; 1; 1; 0; 3; 6; 0; 2; 0; 3; 3; 3; 3; 3; 0; 3; 0; 3; 3; 3;
   3; 3; 3; 3; 1; 1; 1; 1; 1; 1; 1; 2; 1; 2; 0; 4; 2; 4; 0; 1; 1; 0; 3; 0; 4; 1; 3; 0; 3; 8].
