(* ===== verification/Lexer.v ===== *)
(** * The scanner (sql/parser/lex.yy.c)

    The scanner that flex generated from lex_sql.l, in its reentrant form: [yylex] runs the automaton of ParserTables.v on
    the buffer, remembers the last accepting state, backs up to it, and returns the code of a token and its value.  One buffer is
    used, which [scan_string] fills; reading from a file, and with it [YY_INPUT] and the growing of the buffer, is not modelled.
    A pointer into the buffer is an index.  The zero that ends [yytext] is written into the buffer and undone at the next
    call. *)
From Stdlib Require Import Floats.SpecFloat.
From S2P Require Import Prelude ReturnCode Effects Bitmap Memory RecordPage KeyCompare Dates ConditionFilter Values Expression ParserTables.

#[local] Open Scope c_scope.
#[local] Open Scope Z_scope.

(** ** Tokens *)

Module Token.
Definition SEMICOLON : Z := 258.
Definition CREATE : Z := 259.
Definition DROP : Z := 260.
Definition TABLE : Z := 261.
Definition TABLES : Z := 262.
Definition UNIQUE : Z := 263.
Definition INDEX : Z := 264.
Definition SELECT : Z := 265.
Definition DESC : Z := 266.
Definition SHOW : Z := 267.
Definition SYNC : Z := 268.
Definition INSERT : Z := 269.
Definition DELETE : Z := 270.
Definition UPDATE : Z := 271.
Definition LBRACE : Z := 272.
Definition RBRACE : Z := 273.
Definition COMMA : Z := 274.
Definition TRX_BEGIN : Z := 275.
Definition TRX_COMMIT : Z := 276.
Definition TRX_ROLLBACK : Z := 277.
Definition INT_T : Z := 278.
Definition STRING_T : Z := 279.
Definition FLOAT_T : Z := 280.
Definition DATE_T : Z := 281.
Definition TEXT_T : Z := 282.
Definition HELP : Z := 283.
Definition EXIT : Z := 284.
Definition DOT : Z := 285.
Definition INTO : Z := 286.
Definition VALUES : Z := 287.
Definition FROM : Z := 288.
Definition WHERE : Z := 289.
Definition INNER : Z := 290.
Definition JOIN : Z := 291.
Definition AND : Z := 292.
Definition SET : Z := 293.
Definition ON : Z := 294.
Definition LOAD : Z := 295.
Definition DATA : Z := 296.
Definition INFILE : Z := 297.
Definition MAX_T : Z := 298.
Definition MIN_T : Z := 299.
Definition AVG_T : Z := 300.
Definition SUM_T : Z := 301.
Definition COUNT_T : Z := 302.
Definition EQ : Z := 303.
Definition LT : Z := 304.
Definition GT : Z := 305.
Definition LE : Z := 306.
Definition GE : Z := 307.
Definition NE : Z := 308.
Definition NOT_T : Z := 309.
Definition NULL_T : Z := 310.
Definition NULLABLE_T : Z := 311.
Definition IS_T : Z := 312.
Definition ORDER : Z := 313.
Definition BY : Z := 314.
Definition ASC : Z := 315.
Definition IN : Z := 316.
Definition GROUP : Z := 317.
Definition ADD : Z := 318.
Definition SUB : Z := 319.
Definition DIV : Z := 320.
Definition STAR : Z := 321.
Definition NUMBER : Z := 322.
Definition FLOAT : Z := 323.
Definition ID : Z := 324.
Definition PATH : Z := 325.
Definition SSS : Z := 326.
Definition STRING_V : Z := 327.
End Token.

(** The union of the values of tokens and of symbols of the grammar; [value1] points into the array of constants. *)
Inductive YYSTYPE :=
| no_value
| string_value (string : list Z)
| number_value (number : Z)
| float_value (floats : float)
| value1_value (value1 : Z)
| ast1_value (ast1 : ast).

(** ** The state *)

Record YY_BUFFER := {
  yy_ch_buf : list Z; yy_buf_pos : Z; yy_buf_size : Z; buffer_n_chars : Z; yy_buffer_status : Z }.

Record yyguts_t := {
  current_buffer : option YY_BUFFER; yy_hold_char : Z; yy_n_chars : Z; yyleng : Z; yy_c_buf_p : Z; yy_init : Z; yy_start : Z;
  yy_last_accepting_state : Z; yy_last_accepting_cpos : Z; yytext_ptr : Z }.

Definition YY_BUFFER_NEW : Z := 0.
Definition YY_BUFFER_NORMAL : Z := 1.
Definition YY_END_OF_BUFFER_CHAR : Z := 0.
Definition YY_END_OF_BUFFER : Z := 73.

(** [yylex_init_extra] with [yy_init_globals]. *)
Definition yy_init_globals : yyguts_t :=
  {| current_buffer := None; yy_hold_char := 0; yy_n_chars := 0; yyleng := 0; yy_c_buf_p := 0; yy_init := 0; yy_start := 0;
     yy_last_accepting_state := 0; yy_last_accepting_cpos := 0; yytext_ptr := 0 |}.

Definition set_buffer (b : YY_BUFFER) (g : yyguts_t) : yyguts_t :=
  {| current_buffer := Some b; yy_hold_char := yy_hold_char g; yy_n_chars := yy_n_chars g; yyleng := yyleng g;
     yy_c_buf_p := yy_c_buf_p g; yy_init := yy_init g; yy_start := yy_start g;
     yy_last_accepting_state := yy_last_accepting_state g; yy_last_accepting_cpos := yy_last_accepting_cpos g;
     yytext_ptr := yytext_ptr g |}.

Definition set_started (g : yyguts_t) : yyguts_t :=
  {| current_buffer := current_buffer g; yy_hold_char := yy_hold_char g; yy_n_chars := yy_n_chars g; yyleng := yyleng g;
     yy_c_buf_p := yy_c_buf_p g; yy_init := 1; yy_start := (if yy_start g =? 0 then 1 else yy_start g);
     yy_last_accepting_state := yy_last_accepting_state g; yy_last_accepting_cpos := yy_last_accepting_cpos g;
     yytext_ptr := yytext_ptr g |}.

Definition set_last_accepting (state cp : Z) (g : yyguts_t) : yyguts_t :=
  {| current_buffer := current_buffer g; yy_hold_char := yy_hold_char g; yy_n_chars := yy_n_chars g; yyleng := yyleng g;
     yy_c_buf_p := yy_c_buf_p g; yy_init := yy_init g; yy_start := yy_start g;
     yy_last_accepting_state := state; yy_last_accepting_cpos := cp; yytext_ptr := yytext_ptr g |}.

Definition set_c_buf_p (p : Z) (g : yyguts_t) : yyguts_t :=
  {| current_buffer := current_buffer g; yy_hold_char := yy_hold_char g; yy_n_chars := yy_n_chars g; yyleng := yyleng g;
     yy_c_buf_p := p; yy_init := yy_init g; yy_start := yy_start g;
     yy_last_accepting_state := yy_last_accepting_state g; yy_last_accepting_cpos := yy_last_accepting_cpos g;
     yytext_ptr := yytext_ptr g |}.

Definition set_n_chars (n : Z) (g : yyguts_t) : yyguts_t :=
  {| current_buffer := current_buffer g; yy_hold_char := yy_hold_char g; yy_n_chars := n; yyleng := yyleng g;
     yy_c_buf_p := yy_c_buf_p g; yy_init := yy_init g; yy_start := yy_start g;
     yy_last_accepting_state := yy_last_accepting_state g; yy_last_accepting_cpos := yy_last_accepting_cpos g;
     yytext_ptr := yytext_ptr g |}.

Abbreviation LexM := (M yyguts_t).

(** Without a buffer the scanner would read from the standard input. *)
Definition the_buffer : LexM YY_BUFFER := let! g := get in of_res (non_null (current_buffer g)).

Definition char_at (p : Z) : LexM Z :=
  let! b := the_buffer in
  undefined_if ((p <? 0) || (alen (yy_ch_buf b) <=? p)) ;; ret (aget (yy_ch_buf b) p).

Definition with_chars (l : list Z) (b : YY_BUFFER) : YY_BUFFER :=
  {| yy_ch_buf := l; yy_buf_pos := yy_buf_pos b; yy_buf_size := yy_buf_size b; buffer_n_chars := buffer_n_chars b;
     yy_buffer_status := yy_buffer_status b |}.

Definition set_char (p c : Z) : LexM unit :=
  let! b := the_buffer in
  undefined_if ((p <? 0) || (alen (yy_ch_buf b) <=? p)) ;; modify (set_buffer (with_chars (aset (yy_ch_buf b) p c) b)).

(** ** Buffers *)

Definition yy_load_buffer_state : LexM unit :=
  let! b := the_buffer in
  let! c := char_at (yy_buf_pos b) in
  modify (fun g =>
    {| current_buffer := current_buffer g; yy_hold_char := c; yy_n_chars := buffer_n_chars b; yyleng := yyleng g;
       yy_c_buf_p := yy_buf_pos b; yy_init := yy_init g; yy_start := yy_start g;
       yy_last_accepting_state := yy_last_accepting_state g; yy_last_accepting_cpos := yy_last_accepting_cpos g;
       yytext_ptr := yy_buf_pos b |}).

(** There is no buffer before the first call; [scan_string] calls it again with the same buffer, which does nothing. *)
Definition yy_switch_to_buffer (new_buffer : YY_BUFFER) : LexM unit := modify (set_buffer new_buffer) ;; yy_load_buffer_state.

Definition yy_scan_buffer (base : list Z) : LexM unit :=
  let size := alen base in
  undefined_if ((size <? 2) || negb (aget base (size - 2) =? YY_END_OF_BUFFER_CHAR) ||
                negb (aget base (size - 1) =? YY_END_OF_BUFFER_CHAR)) ;;
  yy_switch_to_buffer {| yy_ch_buf := base; yy_buf_pos := 0; yy_buf_size := size - 2; buffer_n_chars := size - 2;
                         yy_buffer_status := YY_BUFFER_NEW |}.

Definition yy_scan_bytes (bytes : list Z) : LexM unit :=
  yy_scan_buffer (bytes ++ [YY_END_OF_BUFFER_CHAR; YY_END_OF_BUFFER_CHAR]).

(** [str] is the memory at the pointer; its string ends at the first zero. *)
Definition scan_string (str : list Z) : LexM unit := let! s := of_res (non_null (cstr str)) in yy_scan_bytes s.

(** ** The automaton *)

(** The number of the first state whose row is not compressed with the classes of bytes. *)
Definition first_template : Z := 204.
Definition jam_base : Z := 383.
Definition jam_state : Z := 203.

(** One transition: the row of the state, or else of its default. *)
Fixpoint next_state (fuel : nat) (yy_current_state yy_c : Z) : res Z :=
  match fuel with
  | O => OutOfFuel
  | S fuel =>
      let i := aget yy_base yy_current_state + yy_c in
      if aget yy_chk i =? yy_current_state then Ok (aget yy_nxt i)
      else
        let state := aget yy_def yy_current_state in
        next_state fuel state (if first_template <=? state then aget yy_meta yy_c else yy_c)
  end.

(** No chain of defaults is longer. *)
Definition default_fuel : nat := 4.

Definition note_accepting (state cp : Z) : LexM unit :=
  if aget yy_accept state =? 0 then ret tt else modify (set_last_accepting state cp).

Fixpoint yy_match (fuel : nat) (yy_current_state yy_cp : Z) : LexM (Z * Z) :=
  match fuel with
  | O => no_fuel
  | S fuel =>
      let! c := char_at yy_cp in
      note_accepting yy_current_state yy_cp ;;
      let! state := of_res (next_state default_fuel yy_current_state (aget yy_ec c)) in
      if aget yy_base state =? jam_base then ret (state, yy_cp + 1) else yy_match fuel state (yy_cp + 1)
  end.

(** The state before the end of the buffer, from [yytext_ptr] to [yy_c_buf_p]; a zero in the text has class 1. *)
Fixpoint yy_get_previous_state (n : nat) (yy_current_state yy_cp : Z) : LexM Z :=
  match n with
  | O => ret yy_current_state
  | S n =>
      let! c := char_at yy_cp in
      note_accepting yy_current_state yy_cp ;;
      let! state := of_res (next_state default_fuel yy_current_state (if c =? 0 then 1 else aget yy_ec c)) in
      yy_get_previous_state n state (yy_cp + 1)
  end.

Definition previous_state : LexM Z :=
  let! g := get in yy_get_previous_state (Z.to_nat (yy_c_buf_p g - yytext_ptr g)) (yy_start g) (yytext_ptr g).

Definition yy_try_NUL_trans (yy_current_state : Z) : LexM Z :=
  let! g := get in
  note_accepting yy_current_state (yy_c_buf_p g) ;;
  let! state := of_res (next_state default_fuel yy_current_state 1) in
  ret (if state =? jam_state then 0 else state).

(** [YY_DO_BEFORE_ACTION]. *)
Definition do_before_action (yy_bp yy_cp : Z) : LexM unit :=
  let! c := char_at yy_cp in
  set_char yy_cp 0 ;;
  modify (fun g =>
    {| current_buffer := current_buffer g; yy_hold_char := c; yy_n_chars := yy_n_chars g; yyleng := yy_cp - yy_bp;
       yy_c_buf_p := yy_cp; yy_init := yy_init g; yy_start := yy_start g;
       yy_last_accepting_state := yy_last_accepting_state g; yy_last_accepting_cpos := yy_last_accepting_cpos g;
       yytext_ptr := yy_bp |}).

Definition yytext : LexM (list Z) :=
  let! g := get in
  let! b := the_buffer in
  of_res (non_null (cstr (drop (Z.to_nat (yytext_ptr g)) (yy_ch_buf b)))).

(** ** Actions *)

(** [atoi] is undefined on a number outside of [int]. *)
Definition number_of_text (s : list Z) : res Z := if atoi s <? 2 ^ 31 then Ok (atoi s) else Ub.

(** [(float)(atof(yytext))]: the nearest [double] to a decimal fraction, and the nearest [float] to that. *)
Definition double_of_decimal (m : Z) (decimals : Z) : double :=
  match m with
  | Zpos p => SFdiv 53 1024 (S754_finite false p 0) (S754_finite false (Z.to_pos (10 ^ decimals)) 0)
  | _ => S754_zero false
  end.

Definition float_of_double (x : double) : float :=
  match x with
  | S754_finite s m e => binary_normalize 24 128 (if s then Zneg m else Zpos m) e s
  | _ => x
  end.

Fixpoint count_digits (s : list Z) : Z :=
  match s with b :: s' => if is_digit b then 1 + count_digits s' else 0 | [] => 0 end.

Definition atof (s : list Z) : double :=
  match after_char 46 s with
  | Some fraction =>
      let n := count_digits fraction in double_of_decimal (digits_value 0 s * 10 ^ n + digits_value 0 fraction) n
  | None => double_of_decimal (digits_value 0 s) 0
  end.

(** A [char] that is returned as an [int]. *)
Definition char_to_int (b : Z) : Z := if b <? 128 then b else b - 256.

(** The rules that do nothing but return a token. *)
Definition rule_token (yy_act : Z) : option Z :=
  match yy_act with
  | 5 => Some Token.SEMICOLON | 6 => Some Token.DOT | 7 => Some Token.STAR | 8 => Some Token.EXIT | 9 => Some Token.HELP
  | 10 => Some Token.DESC | 11 => Some Token.CREATE | 12 => Some Token.DROP | 13 => Some Token.TABLE | 14 => Some Token.TABLES
  | 15 => Some Token.UNIQUE | 16 => Some Token.INDEX | 17 => Some Token.ON | 18 => Some Token.SHOW | 19 => Some Token.SYNC
  | 20 => Some Token.SELECT | 21 => Some Token.FROM | 22 => Some Token.WHERE | 23 => Some Token.INNER | 24 => Some Token.JOIN
  | 25 => Some Token.IN | 26 => Some Token.AND | 27 => Some Token.INSERT | 28 => Some Token.INTO | 29 => Some Token.VALUES
  | 30 => Some Token.DELETE | 31 => Some Token.UPDATE | 32 => Some Token.SET | 33 => Some Token.TRX_BEGIN
  | 34 => Some Token.TRX_COMMIT | 35 => Some Token.TRX_ROLLBACK | 36 => Some Token.INT_T | 37 => Some Token.STRING_T
  | 38 => Some Token.FLOAT_T | 39 => Some Token.DATE_T | 40 => Some Token.TEXT_T | 41 => Some Token.LOAD | 42 => Some Token.DATA
  | 43 => Some Token.INFILE | 44 => Some Token.MAX_T | 45 => Some Token.MIN_T | 46 => Some Token.AVG_T | 47 => Some Token.SUM_T
  | 48 => Some Token.COUNT_T | 49 => Some Token.NOT_T | 50 => Some Token.NULL_T | 51 => Some Token.NULLABLE_T | 52 => Some Token.IS_T
  | 53 => Some Token.ORDER | 54 => Some Token.BY | 55 => Some Token.ASC | 56 => Some Token.GROUP | 58 => Some Token.LBRACE
  | 59 => Some Token.RBRACE | 60 => Some Token.ADD | 61 => Some Token.SUB | 62 => Some Token.DIV | 63 => Some Token.COMMA
  | 64 => Some Token.EQ | 65 => Some Token.LE | 66 => Some Token.NE | 67 => Some Token.LT | 68 => Some Token.GE | 69 => Some Token.GT
  | _ => None
  end.

(** The cases of the switch over the rules: [None] goes on with the next token. *)
Definition rule_action (yy_act : Z) : LexM (option (Z * YYSTYPE)) :=
  match rule_token yy_act with
  | Some t => ret (Some (t, no_value))
  | None =>
      match yy_act with
      | 1 | 2 | 72 => ret None
      | 3 => let! s := yytext in let! n := of_res (number_of_text s) in ret (Some (Token.NUMBER, number_value n))
      | 4 => let! s := yytext in ret (Some (Token.FLOAT, float_value (float_of_double (atof s))))
      | 57 => let! s := yytext in ret (Some (Token.ID, string_value s))
      | 70 => let! s := yytext in ret (Some (Token.SSS, string_value s))
      | 71 => let! g := get in let! c := char_at (yytext_ptr g) in ret (Some (char_to_int c, no_value))
      | 74 | 75 => ret (Some (0, no_value))
      | _ => undefined
      end
  end.

(** The labels of [yylex] that are jumped to. *)
Inductive label := next_token | match_from (bp state cp : Z) | find_action (bp state cp : Z).

(** The case of the end of the buffer, where no more text can be read. *)
Definition end_of_buffer (yy_cp : Z) : LexM (Z + label) :=
  let! g := get in
  let matched := yy_cp - yytext_ptr g - 1 in
  set_char yy_cp (yy_hold_char g) ;;
  let! b := the_buffer in
  (if yy_buffer_status b =? YY_BUFFER_NEW then
     modify (fun g => set_n_chars (buffer_n_chars b)
       (set_buffer {| yy_ch_buf := yy_ch_buf b; yy_buf_pos := yy_buf_pos b; yy_buf_size := yy_buf_size b;
                      buffer_n_chars := buffer_n_chars b; yy_buffer_status := YY_BUFFER_NORMAL |} g))
   else ret tt) ;;
  let! g := get in
  if yy_c_buf_p g <=? yy_n_chars g then
    modify (set_c_buf_p (yytext_ptr g + matched)) ;;
    let! state := previous_state in
    let! next := yy_try_NUL_trans state in
    if next =? 0 then let! g := get in ret (inr (find_action (yytext_ptr g) state (yy_c_buf_p g)))
    else modify (fun g => set_c_buf_p (yy_c_buf_p g + 1) g) ;;
         let! g := get in ret (inr (match_from (yytext_ptr g) next (yy_c_buf_p g)))
  else
    undefined_if (yy_n_chars g + 1 <? yy_c_buf_p g) ;;
    if yy_c_buf_p g - yytext_ptr g =? 1 then
      modify (set_c_buf_p (yytext_ptr g)) ;; ret (inl (YY_END_OF_BUFFER + (yy_start g - 1) / 2 + 1))
    else
      modify (set_c_buf_p (yy_n_chars g)) ;;
      let! state := previous_state in
      let! g := get in ret (inr (find_action (yytext_ptr g) state (yy_c_buf_p g))).

(** ** The scanner *)

Fixpoint yylex_from (fuel : nat) (l : label) : LexM (Z * YYSTYPE) :=
  match fuel with
  | O => no_fuel
  | S fuel =>
      match l with
      | next_token =>
          let! g := get in
          set_char (yy_c_buf_p g) (yy_hold_char g) ;;
          yylex_from fuel (match_from (yy_c_buf_p g) (yy_start g) (yy_c_buf_p g))
      | match_from bp state cp =>
          let! b := the_buffer in
          let! (state, cp) := yy_match (length (yy_ch_buf b)) state cp in
          yylex_from fuel (find_action bp state cp)
      | find_action bp state cp =>
          let! g := get in
          let backed_up := aget yy_accept state =? 0 in
          let cp := if backed_up then yy_last_accepting_cpos g else cp in
          let yy_act := aget yy_accept (if backed_up then yy_last_accepting_state g else state) in
          do_before_action bp cp ;;
          let! r := (if yy_act =? YY_END_OF_BUFFER then end_of_buffer cp else ret (inl yy_act)) in
          match r with
          | inr l => yylex_from fuel l
          | inl yy_act =>
              let! t := rule_action yy_act in
              match t with Some t => ret t | None => yylex_from fuel next_token end
          end
      end
  end.

(** A token that is skipped costs at most four units, and so does the last one. *)
Definition yylex : LexM (Z * YYSTYPE) :=
  let! g := get in
  (if yy_init g =? 0 then modify set_started ;; yy_load_buffer_state else ret tt) ;;
  let! b := the_buffer in
  yylex_from (4 * length (yy_ch_buf b)) next_token.

(** All tokens of a text, as the parser reads them, up to the end. *)
Fixpoint lex_all (fuel : nat) : LexM (list (Z * YYSTYPE)) :=
  match fuel with
  | O => no_fuel
  | S fuel =>
      let! (t, v) := yylex in
      if t <=? 0 then ret [(t, v)] else let! rest := lex_all fuel in ret ((t, v) :: rest)
  end.

Definition tokens_of (s : list Z) : res (list (Z * YYSTYPE)) :=
  fst ((scan_string (s ++ [0]) ;; lex_all (length s + 1)) yy_init_globals).
