(* ===== verification/LexRules.v ===== *)
(** * The rules of the scanner (sql/parser/lex_sql.l)

    The specification from which the tables of the scanner were generated: regular expressions with their languages and
    derivatives, the rules of lex_sql.l, and what it means that a scanner takes the longest match and the first rule.
    Then the tables and the rules: along every text the automaton is in a state that stands for the derivatives of the rules by
    that text.  Which lists of derivatives a state stands for is computed by following the transitions, and checked by
    evaluation for all states and bytes. *)
From Stdlib Require Import String.
From S2P Require Import Prelude ReturnCode Effects Values ParserTables Lexer.

(** ** Regular expressions *)

(** [Bytes l]: one byte in one of the ranges. *)
Inductive rx := Void | Eps | Bytes (ranges : list (Z * Z)) | Cat (r1 r2 : rx) | Alt (r1 r2 : rx) | Star (r : rx).

#[export] Instance rx_eq_dec : EqDecision rx.
Proof. solve_decision. Defined.

Definition in_ranges (c : Z) (l : list (Z * Z)) : bool := existsb (fun '(a, b) => (a <=? c) && (c <=? b)) l.

Inductive lang : rx -> list Z -> Prop :=
| lang_eps : lang Eps []
| lang_byte l c : in_ranges c l = true -> lang (Bytes l) [c]
| lang_cat r1 r2 w1 w2 : lang r1 w1 -> lang r2 w2 -> lang (Cat r1 r2) (w1 ++ w2)
| lang_left r1 r2 w : lang r1 w -> lang (Alt r1 r2) w
| lang_right r1 r2 w : lang r2 w -> lang (Alt r1 r2) w
| lang_done r : lang (Star r) []
| lang_again r w1 w2 : lang r w1 -> lang (Star r) w2 -> lang (Star r) (w1 ++ w2).

Fixpoint nullable (r : rx) : bool :=
  match r with
  | Void | Bytes _ => false
  | Eps | Star _ => true
  | Cat r1 r2 => nullable r1 && nullable r2
  | Alt r1 r2 => nullable r1 || nullable r2
  end.

(** Concatenation and union that keep derivatives finite. *)
Definition cat (r1 r2 : rx) : rx := match r1 with Void => Void | Eps => r2 | _ => Cat r1 r2 end.

Fixpoint is_alternative (r s : rx) : bool :=
  bool_decide (r = s) || match s with Alt s1 s2 => bool_decide (r = s1) || is_alternative r s2 | _ => false end.

Fixpoint alt (r s : rx) : rx :=
  match r with
  | Void => s
  | Alt r1 r2 => alt r1 (alt r2 s)
  | _ => match s with Void => r | _ => if is_alternative r s then s else Alt r s end
  end.

Fixpoint deriv (c : Z) (r : rx) : rx :=
  match r with
  | Void | Eps => Void
  | Bytes l => if in_ranges c l then Eps else Void
  | Cat r1 r2 => if nullable r1 then alt (cat (deriv c r1) r2) (deriv c r2) else cat (deriv c r1) r2
  | Alt r1 r2 => alt (deriv c r1) (deriv c r2)
  | Star r => cat (deriv c r) (Star r)
  end.

#[local] Hint Constructors lang : core.

Lemma lang_void w : lang Void w <-> False.
Proof. split; [|done]. by inversion 1. Qed.

Lemma lang_cat_inv r1 r2 w : lang (Cat r1 r2) w <-> exists w1 w2, w = w1 ++ w2 /\ lang r1 w1 /\ lang r2 w2.
Proof.
  split; [|intros (w1 & w2 & -> & ? & ?); auto]. inversion 1; subst. eauto 6.
Qed.

Lemma lang_alt_inv r1 r2 w : lang (Alt r1 r2) w <-> lang r1 w \/ lang r2 w.
Proof. split; [|intros [?|?]; auto]. inversion 1; subst; auto. Qed.

Lemma lang_eps_inv w : lang Eps w <-> w = [].
Proof. split; [by inversion 1|by intros ->]. Qed.

Lemma lang_bytes_inv l w : lang (Bytes l) w <-> exists c, w = [c] /\ in_ranges c l = true.
Proof. split; [inversion 1; subst; eauto|]. intros (c & -> & ?); auto. Qed.

Lemma lang_nullable r : nullable r = true <-> lang r [].
Proof.
  induction r as [| |l|r1 IH1 r2 IH2|r1 IH1 r2 IH2|r IH]; simpl.
  - by rewrite lang_void.
  - split; auto.
  - split; [done|]. inversion 1.
  - rewrite andb_true_iff, IH1, IH2, lang_cat_inv. split; [intros [? ?]; exists [], []; auto|].
    intros (w1 & w2 & Hw & ? & ?). destruct w1, w2; done.
  - by rewrite orb_true_iff, IH1, IH2, lang_alt_inv.
  - split; auto.
Qed.

Lemma lang_cat_smart r1 r2 w : lang (cat r1 r2) w <-> lang (Cat r1 r2) w.
Proof.
  unfold cat. destruct r1; try done; rewrite lang_cat_inv.
  - split; [by inversion 1|]. intros (? & ? & -> & H & _). inversion H.
  - split; [exists [], w; auto|]. intros (w1 & w2 & -> & H & ?). by inversion H.
Qed.

Lemma is_alternative_sound r s w : is_alternative r s = true -> lang r w -> lang s w.
Proof.
  revert w. induction s as [| |l|s1 IH1 s2 IH2|s1 IH1 s2 IH2|s IH]; intros w; cbn [is_alternative];
    rewrite ?orb_false_r, ?orb_true_iff, ?bool_decide_eq_true; try (by intros ->).
  intros [->|[->|?]] ?; auto.
Qed.

Lemma lang_alt_smart r s w : lang (alt r s) w <-> lang r w \/ lang s w.
Proof.
  assert (Hone : forall r s w, lang (match s with Void => r | _ => if is_alternative r s then s else Alt r s end) w <-> lang r w \/ lang s w).
  { clear. intros r s w. pose proof (is_alternative_sound r s w) as Ha.
    destruct s; try case_match; rewrite ?lang_alt_inv, ?lang_void in *; tauto. }
  revert s w. induction r as [| |l|r1 IH1 r2 IH2|r1 IH1 r2 IH2|r IH]; intros s w; cbn [alt]; try apply Hone.
  - rewrite lang_void. tauto.
  - rewrite IH1, IH2, lang_alt_inv. tauto.
Qed.

Lemma lang_star_cons r c w : lang (Star r) (c :: w) <-> exists w1 w2, w = w1 ++ w2 /\ lang r (c :: w1) /\ lang (Star r) w2.
Proof.
  split; [|intros (w1 & w2 & -> & ? & ?); change (c :: w1 ++ w2) with ((c :: w1) ++ w2); auto].
  remember (Star r) as s eqn:Es. remember (c :: w) as v eqn:Ev. intros H. revert c w Ev. induction H; try done.
  simplify_eq. intros c w Ev. destruct w1 as [|b w1]; simpl in Ev; [by apply IHlang2|]. simplify_eq. eauto.
Qed.

Lemma lang_deriv c r w : lang (deriv c r) w <-> lang r (c :: w).
Proof.
  revert w. induction r as [| |l|r1 IH1 r2 IH2|r1 IH1 r2 IH2|r IH]; intros w; cbn [deriv].
  - rewrite !lang_void. done.
  - rewrite lang_void, lang_eps_inv. done.
  - rewrite lang_bytes_inv. case_match; rewrite ?lang_eps_inv, ?lang_void.
    + split; [intros ->; eauto|]. intros (? & ? & ?). by simplify_eq.
    + split; [done|]. intros (? & ? & ?). congruence.
  - assert (Hd : lang (cat (deriv c r1) r2) w <-> exists w1 w2, w = w1 ++ w2 /\ lang r1 (c :: w1) /\ lang r2 w2).
    { rewrite lang_cat_smart, lang_cat_inv. by setoid_rewrite IH1. }
    rewrite lang_cat_inv. destruct (nullable r1) eqn:En; [rewrite lang_alt_smart|]; rewrite Hd; split.
    + intros [(w1 & w2 & -> & ? & ?)|H]; [exists (c :: w1), w2; auto|]. exists [], (c :: w). rewrite <- IH2, <- lang_nullable. auto.
    + intros (w1 & w2 & Hw & ? & ?). destruct w1 as [|b w1]; simpl in Hw; simplify_eq; [right; by apply IH2|left; eauto].
    + intros (w1 & w2 & -> & ? & ?). exists (c :: w1), w2; auto.
    + intros (w1 & w2 & Hw & H1 & ?). destruct w1 as [|b w1]; simpl in Hw; simplify_eq; [|eauto].
      apply lang_nullable in H1. congruence.
  - by rewrite lang_alt_smart, lang_alt_inv, IH1, IH2.
  - rewrite lang_cat_smart, lang_cat_inv, lang_star_cons. by setoid_rewrite IH.
Qed.

(** ** The rules *)

Definition plus_rx (r : rx) : rx := Cat r (Star r).
Definition byte (c : Z) : rx := Bytes [(c, c)].

Definition lower_upper (c : Z) : rx := Bytes [(c, c); (c - 32, c - 32)].
Fixpoint word_rx (l : list Z) : rx := match l with [] => Eps | [c] => lower_upper c | c :: l => Cat (lower_upper c) (word_rx l) end.
Fixpoint text_rx (l : list Z) : rx := match l with [] => Eps | [c] => byte c | c :: l => Cat (byte c) (text_rx l) end.

(** A keyword in any mixture of small and capital letters; a text of special characters. *)
Definition keyword (s : string) : rx := word_rx (bytes_of_string s).
Definition literal (s : string) : rx := text_rx (bytes_of_string s).

Definition WHITE_SAPCE : rx := Bytes [(32, 32); (9, 9); (8, 8); (12, 12)].
Definition DIGIT : rx := plus_rx (Bytes [(48, 57)]).
Definition ID_rx : rx := Cat (plus_rx (Bytes [(65, 90); (97, 122); (95, 95)])) (Star (Bytes [(65, 90); (97, 122); (48, 57); (95, 95)])).
Definition DOT_rx : rx := byte 46.
Definition QUOTE : rx := Bytes [(39, 39); (34, 34)].
Definition SSS_rx : rx :=
  Cat QUOTE (Cat (Star (Bytes [(32, 32); (34, 34); (39, 39); (65, 90); (97, 122); (48, 57); (95, 95); (47, 47); (46, 46); (45, 45)])) QUOTE).

(** The patterns of the rules 1 to 71. *)
Definition rules : list rx :=
  [WHITE_SAPCE; byte 10;
   plus_rx DIGIT; Cat (plus_rx DIGIT) (Cat DOT_rx (plus_rx DIGIT));
   literal ";"; DOT_rx; literal "*"] ++
  (keyword <$>
   ["exit"; "help"; "desc"; "create"; "drop"; "table"; "tables"; "unique"; "index"; "on"; "show"; "sync"; "select"; "from"; "where";
    "inner"; "join"; "in"; "and"; "insert"; "into"; "values"; "delete"; "update"; "set"; "begin"; "commit"; "rollback"; "int"; "char";
    "float"; "date"; "text"; "load"; "data"; "infile"; "max"; "min"; "avg"; "sum"; "count"; "not"; "null"; "nullable"; "is"; "order";
    "by"; "asc"; "group"]) ++
  [ID_rx; literal "("; literal ")"; literal "+"; literal "-"; literal "/"; literal ","; literal "="; literal "<="; literal "<>";
   literal "<"; literal ">="; literal ">"; SSS_rx; Bytes [(0, 9); (11, 255)]]%string.

Definition rule_matches (n : Z) (w : list Z) : Prop := exists r, 1 <= n /\ rules !! Z.to_nat (n - 1) = Some r /\ lang r w.

(** The longest match at the beginning of a text, and the first rule for it. *)
Record token_at (text w : list Z) (n : Z) (rest : list Z) : Prop := {
  ta_text : text = w ++ rest;
  ta_nonempty : w <> [];
  ta_matches : rule_matches n w;
  ta_first m : rule_matches m w -> n <= m;
  ta_longest w' m : w `prefix_of` w' -> w' `prefix_of` text -> rule_matches m w' -> w' = w }.

(** ** Derivatives of all rules *)

Abbreviation vec := (list (Z * rx)).

Definition start_vec : vec := imap (fun i r => (Z.of_nat i + 1, r)) rules.

Definition step_vec (c : Z) (v : vec) : vec :=
  filter (fun nr => snd nr <> Void) ((fun nr => (fst nr, deriv c (snd nr))) <$> v).

Definition vec_accept (v : vec) : Z :=
  match filter (fun nr => nullable (snd nr) = true) v with (n, _) :: _ => n | [] => 0 end.

Definition after_text (w : list Z) : vec := foldl (fun v c => step_vec c v) start_vec w.

Lemma step_vec_spec c v n w : (exists r, (n, r) ∈ step_vec c v /\ lang r w) <-> exists r, (n, r) ∈ v /\ lang r (c :: w).
Proof.
  unfold step_vec. split.
  - intros (r & Hr & Hw). apply list_elem_of_filter in Hr as [_ Hr].
    apply list_elem_of_fmap in Hr as ([m s] & [=-> ->] & Hs). exists s. by rewrite <- lang_deriv.
  - intros (r & Hr & Hw). exists (deriv c r). rewrite lang_deriv. split; [|done].
    apply list_elem_of_filter. split.
    + intros Hv. simpl in Hv. apply lang_deriv in Hw. rewrite Hv in Hw. by apply lang_void in Hw.
    + apply list_elem_of_fmap. by exists (n, r).
Qed.

Lemma start_vec_elem n r : (n, r) ∈ start_vec <-> 1 <= n /\ rules !! Z.to_nat (n - 1) = Some r.
Proof.
  unfold start_vec. rewrite list_elem_of_lookup. split.
  - intros [i Hi]. rewrite list_lookup_imap in Hi. destruct (rules !! i) as [s|] eqn:E; simplify_eq/=.
    split; [lia|]. by replace (Z.to_nat (Z.of_nat i + 1 - 1)) with i by lia.
  - intros [Hn Hr]. exists (Z.to_nat (n - 1)). rewrite list_lookup_imap, Hr. simpl. f_equal. f_equal. lia.
Qed.

Lemma foldl_step_spec u v n w :
  (exists r, (n, r) ∈ foldl (fun v c => step_vec c v) v u /\ lang r w) <-> exists r, (n, r) ∈ v /\ lang r (u ++ w).
Proof. revert v. induction u as [|c u IH]; intros v; [done|]. cbn [foldl app]. by rewrite IH, step_vec_spec. Qed.

Lemma after_text_matches u n w : (exists r, (n, r) ∈ after_text u /\ lang r w) <-> rule_matches n (u ++ w).
Proof.
  unfold after_text, rule_matches. rewrite foldl_step_spec. setoid_rewrite start_vec_elem. naive_solver.
Qed.

(** The rules stay in their order. *)
Definition ordered (v : vec) : Prop := StronglySorted Z.lt (fst <$> v).

Lemma ordered_step c v : ordered v -> ordered (step_vec c v).
Proof.
  unfold ordered, step_vec. induction v as [|[n r] v IH]; intros Hs; [constructor|].
  cbn [fmap list_fmap] in *. apply StronglySorted_inv in Hs as [Hs Hn]. rewrite filter_cons. case_decide; [|by apply IH].
  cbn [fmap list_fmap fst]. constructor; [by apply IH|]. rewrite Forall_forall in *. intros m Hm.
  apply list_elem_of_fmap in Hm as ([m' s] & -> & Hm). apply list_elem_of_filter in Hm as [_ Hm].
  apply list_elem_of_fmap in Hm as ([m'' s'] & [=-> ->] & Hm). apply Hn. apply list_elem_of_fmap. by exists (m'', s').
Qed.

Lemma ordered_start : ordered start_vec.
Proof.
  apply Sorted_StronglySorted; [by intros ?; lia|]. unfold start_vec. generalize rules. intros l.
  enough (H : forall k, Sorted Z.lt (fst <$> imap (fun i (r : rx) => (Z.of_nat (k + i) + 1, r)) l)) by apply (H 0%nat).
  induction l as [|r l IH]; intros k; [constructor|]. rewrite imap_cons. cbn [fmap list_fmap fst]. constructor.
  - erewrite imap_ext; [apply (IH (S k))|]. intros i x _. simpl. f_equal. lia.
  - destruct l as [|r' l]; constructor. cbn. lia.
Qed.

Lemma ordered_after u : ordered (after_text u).
Proof.
  unfold after_text. generalize ordered_start. generalize start_vec. induction u as [|c u IH]; intros v Hv; [done|].
  by apply IH, ordered_step.
Qed.

(** The first rule that matches, or 0. *)
Lemma vec_accept_spec v :
  ordered v ->
  (vec_accept v = 0 /\ (forall n, ~ exists r, (n, r) ∈ v /\ lang r [])) \/
  ((exists r, (vec_accept v, r) ∈ v /\ lang r []) /\ forall n, (exists r, (n, r) ∈ v /\ lang r []) -> vec_accept v <= n).
Proof.
  unfold vec_accept, ordered. induction v as [|[n r] v IH]; intros Hs.
  - left. split; [done|]. intros n (r & Hr & _). by apply elem_of_nil in Hr.
  - cbn [fmap list_fmap] in Hs. apply StronglySorted_inv in Hs as [Hs Hn]. rewrite filter_cons. case_decide as Ed; cbn [snd] in Ed.
    + right. split; [exists r; split; [by left|by apply lang_nullable]|].
      intros m (s & Hm & _). apply elem_of_cons in Hm as [[=-> ->]|Hm]; [lia|]. rewrite Forall_forall in Hn.
      assert (n < m); [|lia]. apply Hn, list_elem_of_fmap. by exists (m, s).
    + assert (Hnot : ~ lang r []) by (by rewrite <- lang_nullable).
      destruct (IH Hs) as [[-> H]|[(s & Hin & Hl) H]].
      * left. split; [done|]. intros m (s & Hm & Hl). apply elem_of_cons in Hm as [[=-> ->]|Hm]; [done|]. apply (H m). eauto.
      * right. split; [exists s; split; [by right|done]|]. intros m (s' & Hm & Hl').
        apply elem_of_cons in Hm as [[=-> ->]|Hm]; [done|]. apply H. eauto.
Qed.

(** ** Classes of bytes *)

Definition all_bytes : list Z := (fun n => Z.of_nat n + 1) <$> seq 0 255.

(** The first byte of the class of a byte, and one byte of every class. *)
Definition representative (c : Z) : Z := default c (head (filter (fun d => aget yy_ec d = aget yy_ec c) all_bytes)).
Definition representatives : list Z := remove_dups (representative <$> all_bytes).

Fixpoint ranges_of (r : rx) : list (list (Z * Z)) :=
  match r with
  | Void | Eps => []
  | Bytes l => [l]
  | Cat r1 r2 | Alt r1 r2 => ranges_of r1 ++ ranges_of r2
  | Star r => ranges_of r
  end.

Definition rule_ranges : list (list (Z * Z)) := remove_dups (concat (ranges_of <$> rules)).

(** The rules do not tell bytes of one class apart. *)
Lemma class_ranges : forallb (fun c => let d := representative c in
    forallb (fun l => eqb (in_ranges c l) (in_ranges d l)) rule_ranges && (aget yy_ec d =? aget yy_ec c)) all_bytes = true.
Proof. vm_compute. reflexivity. Qed.

Definition over_classes (r : rx) : Prop := Forall (fun l => l ∈ rule_ranges) (ranges_of r).
#[export] Instance over_classes_dec r : Decision (over_classes r).
Proof. unfold over_classes. apply _. Defined.

Lemma all_bytes_elem c : c ∈ all_bytes <-> 1 <= c < 256.
Proof.
  unfold all_bytes. rewrite list_elem_of_fmap. setoid_rewrite elem_of_seq. split; [intros (n & -> & ?); lia|].
  intros Hc. exists (Z.to_nat (c - 1)). lia.
Qed.

Lemma representative_ranges c l : 1 <= c < 256 -> l ∈ rule_ranges -> in_ranges c l = in_ranges (representative c) l.
Proof.
  intros Hc Hl. pose proof class_ranges as H. rewrite forallb_forall in H. specialize (H c).
  rewrite <- list_elem_of_In, all_bytes_elem, andb_true_iff, forallb_forall in H. destruct (H Hc) as [Hr _].
  apply eqb_prop, Hr. by rewrite <- list_elem_of_In.
Qed.

Lemma representative_class c : 1 <= c < 256 -> aget yy_ec (representative c) = aget yy_ec c.
Proof.
  intros Hc. pose proof class_ranges as H. rewrite forallb_forall in H. specialize (H c).
  rewrite <- list_elem_of_In, all_bytes_elem, andb_true_iff in H. destruct (H Hc) as [_ Hr]. lia.
Qed.

Lemma deriv_representative c r : 1 <= c < 256 -> over_classes r -> deriv c r = deriv (representative c) r.
Proof.
  intros Hc. unfold over_classes. induction r as [| |l|r1 IH1 r2 IH2|r1 IH1 r2 IH2|r IH]; cbn [ranges_of deriv]; intros Hr; try done.
  - rewrite Forall_singleton in Hr. by rewrite (representative_ranges c l).
  - apply Forall_app in Hr as [Hr1 Hr2]. by rewrite IH1, IH2.
  - apply Forall_app in Hr as [Hr1 Hr2]. by rewrite IH1, IH2.
  - by rewrite IH.
Qed.

(** ** The certificate *)

Definition transition (state c : Z) : res Z := next_state default_fuel state (aget yy_ec c).

Definition add_vec (state : Z) (v : vec) (table : list (list vec)) : list (list vec) := aset table state (v :: aget table state).
Definition has_vec (state : Z) (v : vec) (table : list (list vec)) : bool := existsb (fun u => bool_decide (u = v)) (aget table state).

(** Follows the transitions of one pair; the table and the new pairs. *)
Definition follow (state : Z) (v : vec) (found : list (list vec) * list (Z * vec)) (c : Z) : list (list vec) * list (Z * vec) :=
  match transition state c, step_vec c v with
  | Ok s, (_ :: _) as u => if has_vec s u (fst found) then found else (add_vec s u (fst found), (s, u) :: snd found)
  | _, _ => found
  end.

Definition follow_all (s : Z) (v : vec) (table : list (list vec)) (todo : list (Z * vec)) : list (list vec) * list (Z * vec) :=
  foldl (follow s v) (table, todo) representatives.

Fixpoint explore (fuel : nat) (table : list (list vec)) (todo : list (Z * vec)) : list (list vec) :=
  match fuel, todo with
  | S fuel, (s, v) :: todo =>
      let found := follow_all s v table todo in explore fuel (fst found) (snd found)
  | _, _ => table
  end.

Definition first_state : Z := 1.

Definition vecs : list (list vec) :=
  explore 1000 (add_vec first_state start_vec (replicate 204 [])) [(first_state, start_vec)].

Definition byte_ok (table : list (list vec)) (state : Z) (v : vec) (c : Z) : bool :=
  match transition state c with
  | Ok s => if s =? jam_state then match step_vec c v with [] => true | _ => false end else (0 <=? s) && (s <? 204) && has_vec s (step_vec c v) table
  | _ => false
  end.

(** At the end of the buffer every state that goes on at all goes to the state of the end. *)
Definition end_state : Z := 5.

Definition pair_ok (table : list (list vec)) (state : Z) (v : vec) : bool :=
  (aget yy_accept state =? vec_accept v) && forallb (byte_ok table state v) representatives &&
  forallb (fun nr => bool_decide (over_classes (snd nr))) v &&
  (if aget yy_base state =? jam_base then forallb (fun c => bool_decide (transition state c = Ok jam_state)) representatives
   else bool_decide (next_state default_fuel state 0 = Ok end_state)) &&
  negb (aget yy_accept state =? YY_END_OF_BUFFER).

Definition certificate_ok (table : list (list vec)) : bool :=
  has_vec first_state start_vec table &&
  forallb (fun n => let s := Z.of_nat n in forallb (pair_ok table s) (aget table s)) (seq 0 204).

Lemma certificate : certificate_ok vecs = true.
Proof. vm_compute. reflexivity. Qed.

(** One byte is always a token. *)
Lemma first_byte : forallb (fun c => match transition first_state c with
                                    | Ok s => negb (aget yy_accept s =? 0) && negb (s =? jam_state)
                                    | _ => false
                                    end) all_bytes = true.
Proof. vm_compute. reflexivity. Qed.

(** ** What the certificate says *)

Definition stands (state : Z) (v : vec) : Prop := 0 <= state < 204 /\ has_vec state v vecs = true.

Definition is_text (w : list Z) : Prop := Forall (fun c => 1 <= c < 256) w.

Lemma transition_representative s c : 1 <= c < 256 -> transition s c = transition s (representative c).
Proof. intros Hc. unfold transition. by rewrite representative_class. Qed.

Lemma representative_elem c : 1 <= c < 256 -> In (representative c) representatives.
Proof.
  intros Hc. unfold representatives. rewrite <- list_elem_of_In, elem_of_remove_dups, list_elem_of_fmap. exists c.
  by rewrite all_bytes_elem.
Qed.

Lemma certificate_pair table s v : certificate_ok table = true -> 0 <= s < 204 -> has_vec s v table = true -> pair_ok table s v = true.
Proof.
  intros C Hs Hv. unfold certificate_ok in C. apply andb_prop in C as [_ C].
  rewrite forallb_forall in C. specialize (C (Z.to_nat s)). cbn zeta in C. rewrite Z2Nat.id in C by lia.
  rewrite forallb_forall in C. apply C; [apply in_seq; lia|].
  unfold has_vec in Hv. rewrite existsb_exists in Hv. destruct Hv as (u & Hu & E). apply bool_decide_eq_true in E. by subst.
Qed.

Lemma certificate_first table : certificate_ok table = true -> has_vec first_state start_vec table = true.
Proof. unfold certificate_ok. intros C. by apply andb_prop in C as [C _]. Qed.

Lemma byte_ok_step table s v c :
  byte_ok table s v c = true ->
  (transition s c = Ok jam_state /\ step_vec c v = []) \/
  (exists s', transition s c = Ok s' /\ s' <> jam_state /\ 0 <= s' < 204 /\ has_vec s' (step_vec c v) table = true).
Proof.
  unfold byte_ok. generalize (step_vec c v), (transition s c). intros u [s'| | |]; try done.
  destruct (s' =? jam_state) eqn:Ej; intros H.
  - left. apply Z.eqb_eq in Ej. subst. by destruct u.
  - right. exists s'. repeat (apply andb_prop in H as [H ?]). split_and!; [done|lia..|done].
Qed.

#[global] Opaque vecs representatives representative start_vec rule_ranges.

Lemma forallb_at {A} (f : A -> bool) l x : forallb f l = true -> In x l -> f x = true.
Proof. rewrite forallb_forall. auto. Qed.

Lemma stands_parts s v :
  stands s v ->
  (aget yy_accept s =? vec_accept v) = true /\ forallb (byte_ok vecs s v) representatives = true /\
  forallb (fun nr => bool_decide (over_classes (snd nr))) v = true /\
  (if aget yy_base s =? jam_base then forallb (fun c => bool_decide (transition s c = Ok jam_state)) representatives
   else bool_decide (next_state default_fuel s 0 = Ok end_state)) = true /\
  negb (aget yy_accept s =? YY_END_OF_BUFFER) = true.
Proof.
  intros [Hs Hv]. pose proof (certificate_pair _ _ _ certificate Hs Hv) as H. unfold pair_ok in H.
  repeat (apply andb_prop in H as [H ?]). auto.
Qed.

Lemma stands_first : stands first_state start_vec.
Proof. split; [unfold first_state; lia|]. apply certificate_first, certificate. Qed.

Lemma step_vec_representative s v c : stands s v -> 1 <= c < 256 -> step_vec c v = step_vec (representative c) v.
Proof.
  intros Hs Hc. destruct (stands_parts s v Hs) as (_ & _ & Ho & _).
  unfold step_vec. f_equal. apply list_fmap_ext. intros i [n r] Hi. cbn [fst snd]. f_equal.
  apply deriv_representative; [done|]. apply list_elem_of_lookup_2, list_elem_of_In in Hi.
  by apply (bool_decide_eq_true_1 _), (forallb_at _ v (n, r) Ho).
Qed.

Lemma stands_step s v c :
  stands s v -> 1 <= c < 256 ->
  (transition s c = Ok jam_state /\ step_vec c v = []) \/
  (exists s', transition s c = Ok s' /\ s' <> jam_state /\ stands s' (step_vec c v)).
Proof.
  intros Hs Hc. rewrite (step_vec_representative s v c Hs Hc), (transition_representative s c Hc).
  destruct (stands_parts s v Hs) as (_ & Hb & _). pose proof (forallb_at _ _ _ Hb (representative_elem c Hc)) as H.
  destruct (byte_ok_step _ _ _ _ H) as [?|(s' & ? & ? & ? & ?)]; [by left|right]. exists s'. repeat split; [assumption|assumption|lia|lia|assumption].
Qed.

Lemma stands_accept s v : stands s v -> aget yy_accept s = vec_accept v /\ aget yy_accept s <> YY_END_OF_BUFFER.
Proof. intros Hs. destruct (stands_parts s v Hs) as (? & _ & _ & _ & ?). lia. Qed.

Lemma stands_end s v :
  stands s v ->
  (aget yy_base s = jam_base /\ forall c, 1 <= c < 256 -> transition s c = Ok jam_state) \/
  (aget yy_base s <> jam_base /\ next_state default_fuel s 0 = Ok end_state).
Proof.
  intros Hs. destruct (stands_parts s v Hs) as (_ & _ & _ & He & _).
  destruct (aget yy_base s =? jam_base) eqn:Eb; [left|right].
  - split; [lia|]. intros c Hc. rewrite (transition_representative s c Hc).
    by apply (bool_decide_eq_true_1 _), (forallb_at _ _ _ He), representative_elem.
  - split; [lia|]. by apply bool_decide_eq_true in He.
Qed.

Lemma first_transition c : 1 <= c < 256 -> exists s, transition first_state c = Ok s /\ aget yy_accept s <> 0 /\ s <> jam_state.
Proof.
  intros Hc. pose proof (forallb_at _ _ c first_byte) as H. rewrite <- list_elem_of_In, all_bytes_elem in H. specialize (H Hc).
  cbn beta in H. destruct (transition first_state c) as [s| | |]; try done. exists s. apply andb_prop in H as [? ?]. split_and!; [done|lia|lia].
Qed.
