(* ===== verification/LexerTheorems.v ===== *)
(** * The scanner takes the longest match (sql/parser/lex.yy.c, lex_sql.l)

    Whatever the text, the tokens that [yylex] returns one after the other are those of the rules of lex_sql.l: at every
    position the longest match, and among the rules that match it the first.  This covers the backing up to the last
    accepting state, and the end of the buffer, where the automaton runs a second time. *)
From S2P Require Import Prelude ReturnCode Effects Memory Dates ConditionFilter Values ParserTables Lexer LexRules.

#[local] Open Scope c_scope.
#[local] Open Scope Z_scope.

(** ** Paths of the automaton *)

(** The state after a text, if no byte of it is refused. *)
Fixpoint walk (s : Z) (w : list Z) : option Z :=
  match w with
  | [] => Some s
  | c :: w => match transition s c with Ok s' => if s' =? jam_state then None else walk s' w | _ => None end
  end.

Lemma walk_stands s v w s' :
  stands s v -> is_text w -> walk s w = Some s' -> stands s' (foldl (fun v c => step_vec c v) v w).
Proof.
  revert s v. induction w as [|c w IH]; intros s v Hs Hw; cbn [walk foldl]; [by intros [=<-]|].
  apply Forall_cons in Hw as [Hc Hw]. destruct (stands_step s v c Hs Hc) as [[-> _]|(s1 & -> & Hj & Hs1)]; [done|].
  rewrite (proj2 (Z.eqb_neq _ _) Hj). by apply IH.
Qed.

Lemma foldl_step_nil w : foldl (fun v c => step_vec c v) [] w = [].
Proof. by induction w. Qed.

Lemma walk_refused s v w : stands s v -> is_text w -> walk s w = None -> foldl (fun v c => step_vec c v) v w = [].
Proof.
  revert s v. induction w as [|c w IH]; intros s v Hs Hw; cbn [walk foldl]; [done|].
  apply Forall_cons in Hw as [Hc Hw]. destruct (stands_step s v c Hs Hc) as [[-> ->]|(s1 & -> & Hj & Hs1)].
  - intros _. apply foldl_step_nil.
  - rewrite (proj2 (Z.eqb_neq _ _) Hj). by apply IH.
Qed.

Lemma walk_app s u w : walk s (u ++ w) = match walk s u with Some s' => walk s' w | None => None end.
Proof. revert s. induction u as [|c u IH]; intros s; [done|]. cbn [walk app]. destruct (transition s c); try done. by case_match. Qed.

(** The rule of a text: the first that matches, or 0. *)
Definition rule_of (w : list Z) : Z := match walk first_state w with Some s => aget yy_accept s | None => 0 end.

Lemma rule_of_spec w :
  is_text w ->
  (rule_of w = 0 /\ forall n, ~ rule_matches n w) \/ (rule_matches (rule_of w) w /\ forall n, rule_matches n w -> rule_of w <= n).
Proof.
  intros Hw. assert (Hm : forall n, (exists r, (n, r) ∈ after_text w /\ lang r []) <-> rule_matches n w).
  { intros n. by rewrite after_text_matches, app_nil_r. }
  unfold rule_of. destruct (walk first_state w) as [s|] eqn:E.
  - destruct (stands_accept _ _ (walk_stands _ _ _ _ stands_first Hw E)) as [-> _].
    destruct (vec_accept_spec _ (ordered_after w)) as [[H1 H2]|[H1 H2]].
    + left. split; [done|]. intros n. rewrite <- Hm. apply H2.
    + right. split; [by apply Hm|]. intros n. rewrite <- Hm. apply H2.
  - left. split; [done|]. intros n. rewrite <- Hm. intros (r & Hr & _). revert Hr. unfold after_text.
    rewrite (walk_refused _ _ _ stands_first Hw E). apply elem_of_nil.
Qed.

Lemma rule_of_refused u w : is_text (u ++ w) -> walk first_state u = None -> rule_of (u ++ w) = 0.
Proof. intros _ E. unfold rule_of. by rewrite walk_app, E. Qed.

(** ** The last accepting position *)

(** What [note_accepting] leaves behind along a text. *)
Fixpoint noted (s p : Z) (w : list Z) (last : Z * Z) : Z * Z :=
  match w with
  | [] => last
  | c :: w => noted (default s (walk s [c])) (p + 1) w (if aget yy_accept s =? 0 then last else (s, p))
  end.

(** The state and the position at which the action is taken. *)
Definition settled (s p : Z) (w : list Z) (last : Z * Z) : Z * Z :=
  let s' := default s (walk s w) in if aget yy_accept s' =? 0 then noted s p w last else (s', p + alen w).

Lemma noted_app s p u w last s' :
  walk s u = Some s' -> noted s p (u ++ w) last = noted s' (p + alen u) w (noted s p u last).
Proof.
  revert s p last. induction u as [|c u IH]; intros s p last Hw; cbn [app].
  - cbn [walk] in Hw. simplify_eq. unfold alen. simpl. by rewrite Z.add_0_r.
  - cbn [noted]. change (c :: u) with ([c] ++ u) in Hw. rewrite walk_app in Hw. destruct (walk s [c]) as [s1|]; [|done].
    rewrite (IH _ _ _ Hw). cbn [default from_option id]. f_equal. unfold alen. simpl. lia.
Qed.

Lemma settled_snoc s p u c last s1 s2 :
  walk s u = Some s1 -> walk s1 [c] = Some s2 ->
  settled s p (u ++ [c]) last = if aget yy_accept s2 =? 0 then settled s p u last else (s2, p + alen u + 1).
Proof.
  intros H1 H2. unfold settled. rewrite walk_app, H1, H2. cbn [default from_option id]. rewrite (noted_app _ _ _ _ _ _ H1).
  cbn [noted]. destruct (aget yy_accept s2 =? 0); [by case_match|]. f_equal. unfold alen. rewrite length_app. simpl. lia.
Qed.

(** On a text that is not refused the action is that of the longest prefix with a rule. *)
Lemma settled_spec p w last s' :
  is_text w -> w <> [] -> walk first_state w = Some s' ->
  exists u s, u <> [] /\ u `prefix_of` w /\ walk first_state u = Some s /\ aget yy_accept s <> 0 /\
    settled first_state p w last = (s, p + alen u) /\
    (forall u', u `prefix_of` u' -> u' `prefix_of` w -> rule_of u' <> 0 -> u' = u).
Proof.
  intros Hw Hne. revert s'. induction w as [|c w IH] using rev_ind; [done|]. clear Hne. intros s2 E.
  apply Forall_app in Hw as [Hw Hc]. rewrite Forall_singleton in Hc. rewrite walk_app in E.
  destruct (walk first_state w) as [s1|] eqn:E1; [|done].
  rewrite (settled_snoc _ _ _ _ _ _ _ E1 E). destruct (aget yy_accept s2 =? 0) eqn:Ea.
  - destruct w as [|b w].
    { cbn [walk] in E1, E. simplify_eq. destruct (first_transition c Hc) as (s & Ht & Ha & _). rewrite Ht in E. case_match; simplify_eq. lia. }
    destruct (IH Hw ltac:(done) _ eq_refl) as (u & s & Hu & Hp & Hs & Ha & Hset & Hmax). exists u, s. split_and!; try done.
    + by apply prefix_app_r.
    + intros u' Hu' Hp' Hr. apply Hmax; try done. destruct Hp' as [z Hz]. destruct z as [|d z _] using rev_ind.
      * rewrite app_nil_r in Hz. subst u'. unfold rule_of in Hr. rewrite walk_app, E1, E in Hr. lia.
      * rewrite app_assoc in Hz. apply app_inj_tail in Hz as [-> _]. by apply prefix_app_r.
  - exists (w ++ [c]), s2. rewrite walk_app, E1, E. split_and!; try done.
    + by destruct w.
    + lia.
    + f_equal. unfold alen. rewrite length_app. simpl. lia.
    + intros u' Hu' Hp' _. by apply (anti_symm prefix).
Qed.

(** What is settled is a token, when the path cannot be continued. *)
Lemma settled_token p w z last s' :
  is_text (w ++ z) -> w <> [] -> walk first_state w = Some s' ->
  (z = [] \/ exists c z', z = c :: z' /\ transition s' c = Ok jam_state) ->
  exists u s rest, token_at (w ++ z) u (aget yy_accept s) rest /\ aget yy_accept s <> 0 /\ aget yy_accept s <> YY_END_OF_BUFFER /\
    settled first_state p w last = (s, p + alen u) /\ u `prefix_of` w.
Proof.
  intros Ht Hne E Hz. assert (Hw : is_text w) by (by apply Forall_app in Ht as [? _]).
  destruct (settled_spec p w last s' Hw Hne E) as (u & s & Hu & [y ->] & Hs & Ha & Hset & Hmax).
  assert (Hut : is_text u) by (by apply Forall_app in Hw as [? _]).
  assert (Hru : rule_of u = aget yy_accept s) by (unfold rule_of; by rewrite Hs).
  exists u, s, (y ++ z). split_and!; try done; [|by apply (stands_accept s _ (walk_stands _ _ _ _ stands_first Hut Hs))|by exists y].
  destruct (rule_of_spec u Hut) as [[? _]|[Hm Hf]]; [lia|]. rewrite Hru in Hm, Hf. constructor; try done.
  - by rewrite app_assoc.
  - intros w' m Hu' [x Hx] Hr.
    assert (Htw : is_text w') by (rewrite Hx in Ht; by apply Forall_app in Ht as [? _]).
    assert (Hrw : rule_of w' <> 0).
    { destruct (rule_of_spec w' Htw) as [[_ H]|[(r & H & _) _]]; [by destruct (H m)|lia]. }
    apply Hmax; try done.
    destruct (prefix_weak_total w' (u ++ y) (w' ++ x)) as [?|[x' Hx']]; [by apply prefix_app_r|rewrite <- Hx; by apply prefix_app_r|done|].
    destruct x' as [|c x']; [rewrite app_nil_r in Hx'; by subst|]. exfalso. apply Hrw.
    rewrite Hx', <- !app_assoc in Hx. do 2 apply app_inv_head in Hx.
    destruct Hz as [->|(c' & z' & -> & Hj)]; [done|]. injection Hx as <- ->. rewrite Hx'.
    change (c' :: x') with ([c'] ++ x'). rewrite app_assoc. apply rule_of_refused; [rewrite <- app_assoc; cbn [app]; by rewrite <- Hx'|].
    rewrite walk_app, E. cbn [walk]. by rewrite Hj.
Qed.

(** ** The state of the scanner *)

Definition chars (text : list Z) : list Z := text ++ [0; 0].
Definition last_of (g : yyguts_t) : Z * Z := (yy_last_accepting_state g, yy_last_accepting_cpos g).
Definition with_last (l : Z * Z) (g : yyguts_t) : yyguts_t := set_last_accepting (fst l) (snd l) g.

Record started (text : list Z) (b : YY_BUFFER) (g : yyguts_t) : Prop := {
  st_buffer : current_buffer g = Some b; st_length : alen (yy_ch_buf b) = alen text + 2;
  st_n_chars : yy_n_chars g = alen text; st_buffer_n : buffer_n_chars b = alen text;
  st_start : yy_start g = 1; st_init : yy_init g = 1 }.

(** While a token is looked for the buffer holds the text. *)
Definition scanning (text : list Z) (g : yyguts_t) : Prop := exists b, started text b g /\ yy_ch_buf b = chars text.

(** Between two tokens the byte at the position is kept aside. *)
Definition ready (text : list Z) (q : Z) (g : yyguts_t) : Prop :=
  exists b, started text b g /\ aset (yy_ch_buf b) q (yy_hold_char g) = chars text /\ yy_c_buf_p g = q.

(** A token has been found from [p] to [q]. *)
Definition tokened (text : list Z) (p q : Z) (g : yyguts_t) : Prop :=
  exists b, started text b g /\ yy_ch_buf b = aset (chars text) q 0 /\ yy_hold_char g = aget (chars text) q /\
    yy_c_buf_p g = q /\ yytext_ptr g = p.

Lemma alen_chars text : alen (chars text) = alen text + 2.
Proof. unfold chars, alen. rewrite length_app. simpl. lia. Qed.

Lemma aset_aget (l : list Z) i : 0 <= i < alen l -> aset l i (aget l i) = l.
Proof. intros Hi. unfold aset. case_match; [done|]. apply list_insert_id. by apply aget_lookup. Qed.

Lemma aset_aset (l : list Z) i x y : aset (aset l i x) i y = aset l i y.
Proof. unfold aset. case_match; [done|]. apply list_insert_insert_eq. Qed.

Lemma tokened_ready text p q g : 0 <= q < alen text + 2 -> tokened text p q g -> ready text q g.
Proof.
  intros Hq (b & Hst & Hb & Hh & Hc & _). exists b. split_and!; [done| |done].
  rewrite Hb, Hh, aset_aset, aset_aget; [done|]. by rewrite alen_chars.
Qed.

Lemma char_at_run text b g p :
  started text b g -> 0 <= p < alen text + 2 -> char_at p g = (Ok (aget (yy_ch_buf b) p), g).
Proof.
  intros [Hb Hl _ _ _ _] Hp. unfold char_at, the_buffer. unfold bind at 1 2, get. cbn [of_res]. rewrite Hb. cbn [non_null].
  unfold bind, undefined_if. rewrite (proj2 (Z.ltb_ge _ _)), Hl, (proj2 (Z.leb_gt _ _)) by lia. done.
Qed.

Lemma set_char_run text b g p c :
  started text b g -> 0 <= p < alen text + 2 ->
  exists b' g', set_char p c g = (Ok tt, g') /\ started text b' g' /\ yy_ch_buf b' = aset (yy_ch_buf b) p c /\
    yy_hold_char g' = yy_hold_char g /\ yy_c_buf_p g' = yy_c_buf_p g /\ yytext_ptr g' = yytext_ptr g /\ last_of g' = last_of g.
Proof.
  intros Hst Hp. pose proof Hst as [Hb Hl ? ? ? ?].
  exists (with_chars (aset (yy_ch_buf b) p c) b), (set_buffer (with_chars (aset (yy_ch_buf b) p c) b) g).
  split_and!; try done.
  - unfold set_char, the_buffer. unfold bind at 1 2, get. cbn [of_res]. rewrite Hb. cbn [non_null].
    unfold bind, undefined_if, of_res. rewrite (proj2 (Z.ltb_ge _ _)), Hl, (proj2 (Z.leb_gt _ _)) by lia. done.
  - constructor; cbn; try done. by rewrite alen_aset.
Qed.

Lemma with_last_started text b g l : started text b g -> started text b (with_last l g).
Proof. intros [? ? ? ? ? ?]. by constructor. Qed.

Lemma with_last_scanning text g l : scanning text g -> scanning text (with_last l g).
Proof. intros (b & ? & ?). exists b. split; [by apply with_last_started|done]. Qed.

Lemma with_last_id g : with_last (last_of g) g = g.
Proof. by destruct g. Qed.

Lemma note_run s p g : note_accepting s p g = (Ok tt, with_last (if aget yy_accept s =? 0 then last_of g else (s, p)) g).
Proof. unfold note_accepting. case_match; [|done]. rewrite with_last_id. done. Qed.

Lemma scanning_char text g p :
  scanning text g -> 0 <= p < alen text + 2 -> char_at p g = (Ok (aget (chars text) p), g).
Proof. intros (b & Hst & Hb) Hp. rewrite (char_at_run text b g p Hst Hp). by rewrite Hb. Qed.

(** The bytes of the text, and the zeros behind it. *)
Lemma chars_at text p c w z :
  0 <= p -> drop (Z.to_nat p) text = (c :: w) ++ z ->
  aget (chars text) p = c /\ p < alen text /\ drop (Z.to_nat (p + 1)) text = w ++ z.
Proof.
  intros Hp Hd. cbn [app] in Hd.
  assert (Hl : text !! Z.to_nat p = Some c) by (rewrite <- (Nat.add_0_r (Z.to_nat p)), <- lookup_drop, Hd; done).
  pose proof (lookup_lt_Some _ _ _ Hl) as Hlt. split_and!.
  - unfold chars. rewrite aget_app by (pose proof (alen_nonneg text); lia). unfold alen. case_match; [|lia].
    unfold aget. rewrite (proj2 (Z.ltb_ge p 0)) by lia. by apply list_lookup_total_correct.
  - unfold alen. lia.
  - replace (Z.to_nat (p + 1)) with (Z.to_nat p + 1)%nat by lia. rewrite <- drop_drop, Hd. done.
Qed.

Lemma chars_end text i : 0 <= i < 2 -> aget (chars text) (alen text + i) = 0.
Proof.
  intros Hi. unfold chars. rewrite aget_app by (pose proof (alen_nonneg text); lia). case_match; [lia|]. replace (alen text + i - alen text) with i by lia.
  assert (i = 0 \/ i = 1) as [->| ->] by lia; done.
Qed.

(** ** The loops *)

Lemma walk_one s c s1 : walk s [c] = Some s1 -> transition s c = Ok s1 /\ s1 <> jam_state.
Proof. cbn [walk]. destruct (transition s c) as [s'| | |]; try done. destruct (s' =? jam_state) eqn:E; [done|]. intros [=<-]. split; [done|lia]. Qed.

Lemma walk_cons s c w s' : walk s (c :: w) = Some s' -> exists s1, walk s [c] = Some s1 /\ walk s1 w = Some s'.
Proof. change (c :: w) with ([c] ++ w). rewrite walk_app. destruct (walk s [c]) as [s1|]; [|done]. eauto. Qed.

Lemma stands_one s v c s1 : stands s v -> 1 <= c < 256 -> walk s [c] = Some s1 -> stands s1 (step_vec c v).
Proof. intros Hs Hc E. apply (walk_stands s v [c] s1 Hs); [by apply Forall_singleton|done]. Qed.

Lemma not_dead s v c s1 : stands s v -> 1 <= c < 256 -> walk s [c] = Some s1 -> aget yy_base s <> jam_base.
Proof.
  intros Hs Hc E. destruct (stands_end s v Hs) as [[_ H]|[? _]]; [|done]. apply walk_one in E as [E Hj].
  rewrite (H c Hc) in E. by simplify_eq.
Qed.

Lemma yy_match_walk text fuel g s v p w z s' :
  scanning text g -> 0 <= p -> is_text (w ++ z) -> drop (Z.to_nat p) text = w ++ z -> stands s v -> walk s w = Some s' ->
  aget yy_base s' <> jam_base ->
  yy_match (length w + fuel) s p g = yy_match fuel s' (p + alen w) (with_last (noted s p w (last_of g)) g).
Proof.
  revert g s v p. induction w as [|c w IH]; intros g s v p Hg Hp Ht Hd Hs E Hb.
  - cbn [walk] in E. injection E as <-. cbn [length noted Nat.add]. rewrite with_last_id. f_equal. unfold alen. simpl. lia.
  - destruct (chars_at _ _ _ _ _ Hp Hd) as (Hc & Hlt & Hd'). apply walk_cons in E as (s1 & E1 & E).
    apply Forall_cons in Ht as [Hcr Ht]. destruct (walk_one _ _ _ E1) as [Et Hj]. unfold transition in Et.
    assert (Hs1 := stands_one _ _ _ _ Hs Hcr E1).
    assert (Hb1 : aget yy_base s1 <> jam_base).
    { destruct w as [|c' w]; [cbn [walk] in E; by injection E as ->|]. apply walk_cons in E as (s2 & E2 & _).
      apply Forall_cons in Ht as [? _]. by eapply not_dead. }
    cbn [length Nat.add yy_match]. erewrite bind_run by (apply (scanning_char text); [done|lia]). rewrite Hc.
    erewrite bind_run by apply note_run. unfold of_res. erewrite bind_run by (rewrite Et; reflexivity).
    rewrite (proj2 (Z.eqb_neq _ _) Hb1). rewrite (IH _ s1 (step_vec c v)); try done; [|by apply with_last_scanning|lia].
    cbn [noted]. rewrite E1. cbn [default from_option id].
    f_equal; [unfold alen; simpl; lia|]. unfold with_last, last_of. by destruct (aget yy_accept s =? 0).
Qed.

Lemma previous_walk text g s v p w z s' :
  scanning text g -> 0 <= p -> is_text (w ++ z) -> drop (Z.to_nat p) text = w ++ z -> stands s v -> walk s w = Some s' ->
  yy_get_previous_state (length w) s p g = (Ok s', with_last (noted s p w (last_of g)) g).
Proof.
  revert g s v p. induction w as [|c w IH]; intros g s v p Hg Hp Ht Hd Hs E.
  - cbn [walk] in E. injection E as <-. cbn [length noted yy_get_previous_state]. by rewrite with_last_id.
  - destruct (chars_at _ _ _ _ _ Hp Hd) as (Hc & Hlt & Hd'). apply walk_cons in E as (s1 & E1 & E).
    apply Forall_cons in Ht as [Hcr Ht]. destruct (walk_one _ _ _ E1) as [Et Hj]. unfold transition in Et.
    cbn [length yy_get_previous_state]. erewrite bind_run by (apply (scanning_char text); [done|lia]). rewrite Hc.
    erewrite bind_run by apply note_run. rewrite (proj2 (Z.eqb_neq c 0)) by lia.
    unfold of_res. erewrite bind_run by (rewrite Et; reflexivity).
    rewrite (IH _ s1 (step_vec c v)); try done; [|by apply with_last_scanning|lia|by eapply stands_one].
    cbn [noted]. rewrite E1. cbn [default from_option id]. f_equal. unfold with_last, last_of. by destruct (aget yy_accept s =? 0).
Qed.

Lemma yy_match_step text fuel g s p s1 :
  scanning text g -> 0 <= p < alen text + 2 -> transition s (aget (chars text) p) = Ok s1 ->
  yy_match (S fuel) s p g =
  (if aget yy_base s1 =? jam_base then ret (s1, p + 1) else yy_match fuel s1 (p + 1))
    (with_last (if aget yy_accept s =? 0 then last_of g else (s, p)) g).
Proof.
  intros Hg Hp Et. cbn [yy_match]. erewrite bind_run by (by apply (scanning_char text)). erewrite bind_run by apply note_run.
  unfold of_res. unfold transition in Et. erewrite bind_run by (rewrite Et; reflexivity). done.
Qed.

Lemma with_last_twice l l' g : with_last l (with_last l' g) = with_last l g.
Proof. done. Qed.

Lemma last_of_with l g : last_of (with_last l g) = l.
Proof. by destruct l. Qed.

(** Which state and position the action belongs to. *)
Definition chosen (state cp : Z) (g : yyguts_t) : Z * Z := if aget yy_accept state =? 0 then last_of g else (state, cp).

Lemma maximal_walk s v t :
  stands s v -> is_text t ->
  exists w z s', t = w ++ z /\ walk s w = Some s' /\ (z = [] \/ exists c z', z = c :: z' /\ transition s' c = Ok jam_state).
Proof.
  revert s v. induction t as [|c t IH]; intros s v Hs Ht; [exists [], [], s; auto|].
  apply Forall_cons in Ht as [Hc Ht]. destruct (stands_step s v c Hs Hc) as [[E _]|(s1 & E & Hj & Hs1)].
  - exists [], (c :: t), s. split_and!; try done. right. eauto.
  - destruct (IH s1 _ Hs1 Ht) as (w & z & s' & -> & Hw & Hz). exists (c :: w), z, s'. split_and!; try done.
    cbn [walk]. rewrite E. by rewrite (proj2 (Z.eqb_neq _ _) Hj).
Qed.

Lemma yy_match_first text fuel g p w z s' :
  scanning text g -> 0 <= p -> is_text (w ++ z) -> drop (Z.to_nat p) text = w ++ z -> walk first_state w = Some s' ->
  aget yy_base s' <> jam_base ->
  yy_match (length w + fuel) first_state p g = yy_match fuel s' (p + alen w) (with_last (noted first_state p w (last_of g)) g).
Proof. intros Hg Hp Ht Hd E Hb. exact (yy_match_walk text fuel g first_state start_vec p w z s' Hg Hp Ht Hd stands_first E Hb). Qed.

(** The loop when the path ends in a state without transitions or at a byte that is refused. *)
Lemma yy_match_settles text fuel g p w z s' :
  scanning text g -> 0 <= p -> is_text (w ++ z) -> drop (Z.to_nat p) text = w ++ z -> w <> [] ->
  walk first_state w = Some s' ->
  aget yy_base s' = jam_base \/ (exists c z', z = c :: z' /\ transition s' c = Ok jam_state) ->
  exists state cp l, yy_match (length w + S fuel) first_state p g = (Ok (state, cp), with_last l g) /\
    chosen state cp (with_last l g) = settled first_state p w (last_of g).
Proof.
  intros Hg Hp Ht Hd Hne E Hz. pose proof (proj1 (proj1 (Forall_app _ _ _) Ht)) as Hw.
  destruct (decide (aget yy_base s' = jam_base)) as [Hb|Hb].
  - clear Hz. destruct w as [|c w _] using rev_ind; [done|]. clear Hne. apply Forall_app in Hw as [Hw Hc].
    rewrite Forall_singleton in Hc. rewrite walk_app in E. destruct (walk first_state w) as [s0|] eqn:E0; [|done].
    pose proof (walk_stands _ _ _ _ stands_first Hw E0) as Hs0. rewrite <- app_assoc in Hd, Ht.
    rewrite length_app. cbn [length]. rewrite <- Nat.add_assoc.
    rewrite (yy_match_first text _ g p w ([c] ++ z) s0 Hg Hp Ht Hd E0 (not_dead _ _ _ _ Hs0 Hc E)).
    destruct (walk_one _ _ _ E) as [Et Hj].
    assert (Hd' : drop (Z.to_nat (p + alen w)) text = [c] ++ z).
    { replace (Z.to_nat (p + alen w)) with (Z.to_nat p + length w)%nat by (unfold alen; lia).
      by rewrite <- drop_drop, Hd, drop_app_length. }
    destruct (chars_at text (p + alen w) c [] z ltac:(pose proof (alen_nonneg w); lia) Hd') as (Hch & Hlt & _).
    exists s', (p + alen w + 1). cbn [Nat.add].
    erewrite (yy_match_step text); [|by apply with_last_scanning|pose proof (alen_nonneg w); lia|rewrite Hch; exact Et].
    rewrite Hb, Z.eqb_refl, last_of_with, with_last_twice. eexists. split; [reflexivity|].
    unfold chosen. rewrite last_of_with. rewrite (settled_snoc _ _ _ _ _ s0 s'); try done.
    unfold settled. rewrite E0. done.
  - destruct Hz as [?|(c & z' & -> & Et)]; [done|].
    rewrite (yy_match_first text _ g p w (c :: z') s' Hg Hp Ht Hd E Hb).
    assert (Hd' : drop (Z.to_nat (p + alen w)) text = [c] ++ z').
    { replace (Z.to_nat (p + alen w)) with (Z.to_nat p + length w)%nat by (unfold alen; lia).
      by rewrite <- drop_drop, Hd, drop_app_length. }
    destruct (chars_at text (p + alen w) c [] z' ltac:(pose proof (alen_nonneg w); lia) Hd') as (Hch & Hlt & _).
    exists jam_state, (p + alen w + 1).
    erewrite (yy_match_step text); [|by apply with_last_scanning|pose proof (alen_nonneg w); lia|rewrite Hch; exact Et].
    change (aget yy_base jam_state =? jam_base) with true. rewrite last_of_with, with_last_twice. eexists. split; [reflexivity|].
    unfold chosen. change (aget yy_accept jam_state =? 0) with true. rewrite last_of_with. unfold settled. by rewrite E.
Qed.

(** The loop at the end of the buffer. *)
Lemma yy_match_end text fuel g p w s' :
  scanning text g -> 0 <= p -> is_text w -> drop (Z.to_nat p) text = w -> p + alen w = alen text -> walk first_state w = Some s' ->
  aget yy_base s' <> jam_base ->
  yy_match (length w + S (S fuel)) first_state p g = (Ok (jam_state, alen text + 2), with_last (end_state, alen text + 1) g).
Proof.
  intros Hg Hp Ht Hd Hend E Hb. pose proof (alen_nonneg text). pose proof (alen_nonneg w).
  assert (Ht' : is_text (w ++ [])) by (by rewrite app_nil_r).
  rewrite (yy_match_first text _ g p w [] s' Hg Hp Ht' ltac:(by rewrite app_nil_r) E Hb).
  rewrite Hend. destruct (stands_end s' _ (walk_stands _ _ _ _ stands_first Ht E)) as [[? _]|[_ Et]]; [done|].
  pose proof (chars_end text 0 ltac:(lia)) as Hz0. rewrite Z.add_0_r in Hz0.
  erewrite (yy_match_step text); [|by apply with_last_scanning|lia|rewrite Hz0; exact Et].
  change (aget yy_base end_state =? jam_base) with false. cbn iota.
  erewrite (yy_match_step text); [|by apply with_last_scanning, with_last_scanning|lia|rewrite (chars_end text 1) by lia; reflexivity].
  change (aget yy_base _ =? jam_base) with true. change (aget yy_accept end_state =? 0) with false. cbn iota.
  rewrite !with_last_twice. unfold ret. do 3 f_equal. lia.
Qed.

(** ** Actions *)

Definition then_go_on (fuel : nat) (t : option (Z * YYSTYPE)) : M yyguts_t (Z * YYSTYPE) :=
  match t with Some t => ret t | None => yylex_from fuel next_token end.

Lemma do_before_action_run text g p q :
  scanning text g -> 0 <= q < alen text + 2 ->
  exists g', do_before_action p q g = (Ok tt, g') /\ tokened text p q g' /\ last_of g' = last_of g.
Proof.
  intros Hg Hq. pose proof Hg as (b & Hst & Hb). unfold do_before_action.
  erewrite bind_run by (by apply (scanning_char text)).
  destruct (set_char_run text b g q 0 Hst Hq) as (b' & g1 & E & [? ? ? ? ? ?] & Hb' & _ & _ & _ & Hl).
  erewrite bind_run by exact E. eexists. split; [reflexivity|]. split; [|done].
  exists b'. split_and!; try done. by rewrite Hb', Hb.
Qed.

Lemma find_action_run text fuel g p state cp s q :
  scanning text g -> 0 <= q < alen text + 2 -> chosen state cp g = (s, q) -> aget yy_accept s <> YY_END_OF_BUFFER ->
  exists g', tokened text p q g' /\
    yylex_from (S fuel) (find_action p state cp) g = bind (rule_action (aget yy_accept s)) (then_go_on fuel) g'.
Proof.
  intros Hg Hq Hc Hs. destruct (do_before_action_run text g p q Hg Hq) as (g' & E & Ht & _). exists g'. split; [done|].
  cbn [yylex_from]. unfold bind at 1, get. unfold chosen, last_of in Hc.
  replace (if aget yy_accept state =? 0 then yy_last_accepting_cpos g else cp) with q by (by case_match; simplify_eq).
  replace (if aget yy_accept state =? 0 then yy_last_accepting_state g else state) with s by (by case_match; simplify_eq).
  erewrite bind_run by exact E. rewrite (proj2 (Z.eqb_neq _ _) Hs). done.
Qed.

Lemma end_restored text p g :
  tokened text p (alen text + 1) g ->
  exists b g', set_char (alen text + 1) (yy_hold_char g) g = (Ok tt, g') /\ started text b g' /\ yy_ch_buf b = chars text /\
    yy_c_buf_p g' = alen text + 1 /\ yytext_ptr g' = p /\ yy_hold_char g' = 0 /\ last_of g' = last_of g.
Proof.
  intros (b & Hst & Hb & Hh & Hc & Hp). pose proof (alen_nonneg text).
  destruct (set_char_run text b g (alen text + 1) (yy_hold_char g) Hst ltac:(lia)) as (b' & g' & E & Hst' & Hb' & Hh' & Hc' & Hp' & Hl).
  exists b', g'. split_and!; try done.
  - rewrite Hb', Hb, Hh, aset_aset, aset_aget; [done|]. rewrite alen_chars. lia.
  - congruence.
  - congruence.
  - rewrite Hh', Hh. apply chars_end. lia.
Qed.

(** What the case of the end of the buffer does before it looks at the position. *)
Lemma end_of_buffer_run text p g :
  tokened text p (alen text + 1) g -> 0 <= p <= alen text ->
  exists b g', started text b g' /\ yy_ch_buf b = chars text /\ yy_c_buf_p g' = alen text + 1 /\ yytext_ptr g' = p /\
    yy_hold_char g' = 0 /\ last_of g' = last_of g /\
    end_of_buffer (alen text + 1) g =
    (if p =? alen text then modify (set_c_buf_p p) ;; ret (inl 74)
     else modify (set_c_buf_p (alen text)) ;;
          let! state := previous_state in
          let! g := get in ret (inr (find_action (yytext_ptr g) state (yy_c_buf_p g)))) g'.
Proof.
  intros Ht Hp. destruct (end_restored text p g Ht) as (b & g1 & E & Hst & Hb & Hc & Hy & Hh & Hl).
  assert (Hstatus : exists b' g', started text b' g' /\ yy_ch_buf b' = chars text /\ yy_c_buf_p g' = alen text + 1 /\
    yytext_ptr g' = p /\ yy_hold_char g' = 0 /\ last_of g' = last_of g /\
    (if yy_buffer_status b =? YY_BUFFER_NEW then
     modify (fun g => set_n_chars (buffer_n_chars b)
       (set_buffer {| yy_ch_buf := yy_ch_buf b; yy_buf_pos := yy_buf_pos b; yy_buf_size := yy_buf_size b;
                      buffer_n_chars := buffer_n_chars b; yy_buffer_status := YY_BUFFER_NORMAL |} g))
     else ret tt) g1 = (Ok tt, g')).
  { pose proof Hst as [? ? ? ? ? ?]. destruct (yy_buffer_status b =? YY_BUFFER_NEW); [|by exists b, g1].
    eexists _, _. split; [|split; [|split; [|split; [|split; [|split; [|reflexivity]]]]]]; [by constructor|exact Hb|exact Hc|exact Hy|exact Hh|exact Hl]. }
  destruct Hstatus as (b' & g' & Hst' & Hb' & Hc' & Hy' & Hh' & Hl' & E'). exists b', g'. split_and!; try done.
  unfold end_of_buffer. unfold bind at 1, get. erewrite bind_run by exact E.
  assert (Eb : the_buffer g1 = (Ok b, g1)).
  { destruct Hst as [Hcb _ _ _ _ _]. unfold the_buffer, bind, get, of_res. by rewrite Hcb. }
  erewrite bind_run by exact Eb. erewrite bind_run by exact E'. unfold bind at 1.
  destruct Hst' as [_ _ Hn _ Hs _]. rewrite Hc', Hn, Hy', Hs, (proj2 (Z.leb_gt _ _)) by lia.
  unfold undefined_if. rewrite (proj2 (Z.ltb_ge _ _)) by lia. rewrite bind_ret.
  replace (alen text + 1 - p =? 1) with (p =? alen text) by lia. done.
Qed.

(** One token at a position before the end of the text. *)
Lemma scan_token text fuel g p :
  scanning text g -> 0 <= p < alen text -> is_text (drop (Z.to_nat p) text) ->
  exists u s rest fuel' g', token_at (drop (Z.to_nat p) text) u (aget yy_accept s) rest /\ (fuel <= fuel')%nat /\
    tokened text p (p + alen u) g' /\
    yylex_from (S (S (S fuel))) (match_from p first_state p) g = bind (rule_action (aget yy_accept s)) (then_go_on fuel') g'.
Proof.
  intros Hg Hp Ht. pose proof Hg as (b & Hst & Hb). pose proof (alen_nonneg text) as H0.
  assert (Eb : the_buffer g = (Ok b, g)).
  { destruct Hst as [Hcb _ _ _ _ _]. unfold the_buffer, bind, get, of_res. by rewrite Hcb. }
  destruct (maximal_walk first_state start_vec _ stands_first Ht) as (w & z & s' & Hd & E & Hz).
  assert (Hlen : (length w + length z = length text - Z.to_nat p)%nat) by (rewrite <- length_app, <- Hd, length_drop; lia).
  assert (Hne : w <> []).
  { intros ->. cbn [walk] in E. injection E as <-. destruct Hz as [->|(c & z' & -> & Hj)].
    - unfold alen in Hp. cbn [length] in Hlen. lia.
    - rewrite Hd in Ht. apply Forall_cons in Ht as [Hc _]. destruct (first_transition c Hc) as (s & Hs & _ & Hn). congruence. }
  rewrite Hd in Ht. pose proof (proj1 (proj1 (Forall_app _ _ _) Ht)) as Hw.
  assert (Hblen : length (yy_ch_buf b) = (length text + 2)%nat) by (destruct Hst as [_ Hl _ _ _ _]; unfold alen in Hl; lia).
  cbn [yylex_from]. erewrite bind_run by exact Eb.
  assert (Hset : forall last, exists u s rest, token_at (w ++ z) u (aget yy_accept s) rest /\ aget yy_accept s <> YY_END_OF_BUFFER /\
            settled first_state p w last = (s, p + alen u) /\ 0 <= p + alen u <= alen text).
  { intros last. destruct (settled_token p w z last s' Ht Hne E Hz) as (u & s & rest & Hta & _ & Hs & Hset & [y Hy]).
    exists u, s, rest. split_and!; try done; [pose proof (alen_nonneg u); lia|]. subst w. rewrite length_app in Hlen. unfold alen in *. lia. }
  assert (Hend : (aget yy_base s' = jam_base \/ exists c z', z = c :: z' /\ transition s' c = Ok jam_state) \/
                 (aget yy_base s' <> jam_base /\ z = [])).
  { destruct (decide (aget yy_base s' = jam_base)); [by left; left|]. destruct Hz as [?|Hz]; [by right|by left; right]. }
  destruct Hend as [Hend|[Hb' ->]].
  - replace (length (yy_ch_buf b)) with (length w + S (length text + 1 - length w))%nat by lia.
    destruct (yy_match_settles text (length text + 1 - length w) g p w z s' Hg ltac:(lia) Ht Hd Hne E Hend) as (state & cp & l & Em & Hch).
    erewrite bind_run by exact Em. cbv beta iota.
    destruct (Hset (last_of g)) as (u & s & rest & Hta & Hs & Hse & Hq). rewrite Hse in Hch.
    destruct (find_action_run text (S fuel) _ p state cp s (p + alen u) (with_last_scanning _ _ l Hg) ltac:(lia) Hch Hs) as (g' & Htk & Ef).
    exists u, s, rest, (S fuel), g'. rewrite Hd. split_and!; try done. lia.
  - rewrite !app_nil_r in *.
    assert (Hpe : p + alen w = alen text) by (unfold alen in *; cbn [length] in Hlen; lia).
    replace (length (yy_ch_buf b)) with (length w + S (S (length text - length w)))%nat by lia.
    pose proof (yy_match_end text (length text - length w) g p w s' Hg ltac:(lia) Hw Hd Hpe E Hb') as Em.
    erewrite bind_run by exact Em. cbv beta iota.
    set (g1 := with_last (end_state, alen text + 1) g) in *.
    destruct (do_before_action_run text g1 p (alen text + 1) (with_last_scanning _ _ _ Hg) ltac:(lia)) as (g2 & E2 & Htk2 & Hl2).
    destruct (end_of_buffer_run text p g2 Htk2 ltac:(lia)) as (b3 & g3 & Hst3 & Hb3 & Hc3 & Hy3 & Hh3 & Hl3 & E3).
    set (g4 := set_c_buf_p (alen text) g3).
    assert (Hg4 : scanning text g4) by (exists b3; split; [destruct Hst3 as [? ? ? ? ? ?]; by constructor|done]).
    assert (Ep : previous_state g4 = (Ok s', with_last (noted first_state p w (last_of g4)) g4)).
    { unfold previous_state. unfold bind, get. destruct Hst3 as [_ _ _ _ Hs3 _].
      change (yy_c_buf_p g4) with (alen text). change (yy_start g4) with (yy_start g3). change (yytext_ptr g4) with (yytext_ptr g3).
      rewrite Hy3, Hs3. replace (Z.to_nat (alen text - p)) with (length w) by (unfold alen in *; lia).
      exact (previous_walk text g4 first_state start_vec p w [] s' Hg4 ltac:(lia) ltac:(by rewrite app_nil_r) ltac:(by rewrite app_nil_r) stands_first E). }
    destruct (Hset (last_of g4)) as (u & s & rest & Hta & Hs & Hse & Hq).
    set (g5 := with_last (noted first_state p w (last_of g4)) g4) in *.
    assert (Hch : chosen s' (alen text) g5 = (s, p + alen u)).
    { unfold chosen, g5. rewrite last_of_with, <- Hse. unfold settled. by rewrite E, Hpe. }
    destruct (find_action_run text fuel g5 p s' (alen text) s (p + alen u) (with_last_scanning _ _ _ Hg4) ltac:(lia) Hch Hs) as (g' & Htk & Ef).
    exists u, s, rest, fuel, g'. rewrite Hd. split_and!; try done. rewrite <- Ef.
    cbn [yylex_from]. unfold bind at 1, get. change (aget yy_accept jam_state =? 0) with true. cbv iota zeta.
    change (yy_last_accepting_cpos g1) with (alen text + 1). change (aget yy_accept (yy_last_accepting_state g1)) with 73.
    erewrite bind_run by exact E2. change (73 =? YY_END_OF_BUFFER) with true. cbv iota.
    erewrite bind_run; [|rewrite E3, (proj2 (Z.eqb_neq p (alen text))) by lia; unfold modify; unfold bind at 1; fold g4;
      erewrite bind_run by exact Ep; unfold bind, get, ret; reflexivity].
    cbv beta iota. fold g5. replace (yytext_ptr g5) with p by (symmetry; exact Hy3). done.
Qed.

(** ** The tokens of a text, by the rules *)

(** The code and the value of what a rule has matched; rules 1 and 2 make no token. *)
Definition token_value (n : Z) (w : list Z) : res (Z * YYSTYPE) :=
  match n with
  | 3 => let? v := number_of_text w in Ok (Token.NUMBER, number_value v)
  | 4 => Ok (Token.FLOAT, float_value (float_of_double (atof w)))
  | 57 => Ok (Token.ID, string_value w)
  | 70 => Ok (Token.SSS, string_value w)
  | 71 => match w with b :: _ => Ok (char_to_int b, no_value) | [] => Ub end
  | _ => match rule_token n with Some t => Ok (t, no_value) | None => Ub end
  end.

(** The first token of a text and what is behind it; blanks and ends of lines are passed over. *)
Inductive first_token : list Z -> res ((Z * YYSTYPE) * list Z) -> Prop :=
| first_end : first_token [] (Ok ((0, no_value), []))
| first_blank text w n rest r : token_at text w n rest -> n <= 2 -> first_token rest r -> first_token text r
| first_found text w n rest : token_at text w n rest -> 3 <= n -> first_token text (let? tv := token_value n w in Ok (tv, rest)).

(** The tokens up to the end, or up to a code that the parser takes for the end. *)
Inductive lexes : list Z -> res (list (Z * YYSTYPE)) -> Prop :=
| lexes_stop text t v rest : first_token text (Ok ((t, v), rest)) -> t <= 0 -> lexes text (Ok [(t, v)])
| lexes_more text t v rest r :
    first_token text (Ok ((t, v), rest)) -> 0 < t -> lexes rest r -> lexes text (let? toks := r in Ok ((t, v) :: toks))
| lexes_undefined text : first_token text Ub -> lexes text Ub.

Lemma token_at_unique text w n rest w' n' rest' :
  token_at text w n rest -> token_at text w' n' rest' -> w = w' /\ n = n' /\ rest = rest'.
Proof.
  intros [H1 H2 H3 H4 H5] [H1' H2' H3' H4' H5'].
  assert (w = w') as <-.
  { assert (Hp : w `prefix_of` text) by (subst; by apply prefix_app_r). assert (Hp' : w' `prefix_of` text) by (rewrite H1'; by apply prefix_app_r).
    destruct (prefix_weak_total w w' text Hp Hp') as [H|H]; [symmetry; by apply (H5 w' n')|by apply (H5' w n)]. }
  split; [done|]. split; [apply Z.le_antisymm; auto|]. subst. by apply app_inv_head in H1'.
Qed.

Lemma token_at_nil w n rest : ~ token_at [] w n rest.
Proof. intros [H1 H2 _ _ _]. by destruct w. Qed.

Lemma first_token_functional text r r' : first_token text r -> first_token text r' -> r = r'.
Proof.
  intros H. revert r'. induction H as [|text w n rest r Ht Hn H IH|text w n rest Ht Hn]; intros r'; inversion 1; subst; try done;
    try (by exfalso; eapply token_at_nil);
    match goal with Ht' : token_at text _ _ _ |- _ => destruct (token_at_unique _ _ _ _ _ _ _ Ht Ht') as (<- & <- & <-) end; try lia; auto.
Qed.

Lemma lexes_functional text r r' : lexes text r -> lexes text r' -> r = r'.
Proof.
  intros H. revert r'. induction H as [text t v rest H Hl|text t v rest r H Hl Hr IH|text H]; intros r' H';
    inversion H' as [text' t' v' rest' Hf Hl' E1 E2|text' t' v' rest' r1 Hf Hl' Hr' E1 E2|text' Hf E1 E2]; subst;
    pose proof (first_token_functional _ _ _ H Hf) as E; simplify_eq; try done; try lia.
  f_equal. by apply IH.
Qed.

Lemma rule_number w n : rule_matches n w -> 1 <= n <= 71.
Proof.
  intros (r & Hn & Hr & _). apply lookup_lt_Some in Hr. change (length rules) with 71%nat in Hr. lia.
Qed.

(** The zero behind a token that has been found. *)
Lemma chars_cut text p w rest :
  0 <= p <= alen text -> drop (Z.to_nat p) text = w ++ rest ->
  exists k, aset (chars text) (p + alen w) 0 = (take (Z.to_nat p) text ++ w) ++ 0 :: k.
Proof.
  intros Hp Hd. pose proof (alen_nonneg w) as Hw. unfold aset. rewrite (proj2 (Z.ltb_ge (p + alen w) 0)) by lia.
  assert (Ec : chars text = (take (Z.to_nat p) text ++ w) ++ (rest ++ [0; 0])).
  { unfold chars. rewrite <- (take_drop (Z.to_nat p) text) at 1. by rewrite Hd, <- !app_assoc. }
  rewrite Ec. replace (Z.to_nat (p + alen w)) with (length (take (Z.to_nat p) text ++ w)).
  - destruct (rest ++ [0; 0]) as [|y k] eqn:E; [by destruct rest|]. exists k.
    rewrite <- (Nat.add_0_r (length _)), insert_app_r. done.
  - rewrite length_app, length_take. unfold alen in *. lia.
Qed.

Lemma cstr_text w k : is_text w -> cstr (w ++ 0 :: k) = Some w.
Proof.
  induction w as [|c w IH]; intros Ht; [done|]. apply Forall_cons in Ht as [Hc Ht].
  cbn [app cstr]. rewrite (proj2 (Z.eqb_neq c 0)) by lia. by rewrite IH.
Qed.

Lemma tokened_text text p w rest g :
  tokened text p (p + alen w) g -> 0 <= p <= alen text -> is_text (w ++ rest) -> drop (Z.to_nat p) text = w ++ rest ->
  yytext g = (Ok w, g) /\ forall c w', w = c :: w' -> char_at p g = (Ok c, g).
Proof.
  intros (b & Hst & Hb & _ & _ & Hp) H0 Ht Hd. destruct (chars_cut text p w rest H0 Hd) as [k Hk]. rewrite Hk in Hb.
  assert (Hlen : length (take (Z.to_nat p) text) = Z.to_nat p) by (rewrite length_take; unfold alen in H0; lia).
  apply Forall_app in Ht as [Ht _]. split.
  - pose proof Hst as [Hcb _ _ _ _ _]. unfold yytext, the_buffer. unfold bind at 1, get. unfold bind at 1 2, of_res. rewrite Hcb.
    cbn [non_null]. rewrite Hp, Hb, <- app_assoc, drop_app_length' by done. by rewrite cstr_text.
  - intros c w' ->. pose proof (f_equal length Hd) as Hl. rewrite length_drop, length_app in Hl. cbn [length] in Hl.
    rewrite (char_at_run text b) by (done || unfold alen in *; lia). f_equal. f_equal. rewrite Hb, <- app_assoc. unfold aget.
    rewrite (proj2 (Z.ltb_ge p 0)) by lia. apply list_lookup_total_correct. rewrite lookup_app_r by lia.
    by rewrite Hlen, Nat.sub_diag.
Qed.

(** The action of a rule. *)
Lemma rule_action_run n w g :
  1 <= n <= 71 -> yytext g = (Ok w, g) -> (forall c w', w = c :: w' -> char_at (yytext_ptr g) g = (Ok c, g)) -> w <> [] ->
  rule_action n g = (if n <=? 2 then Ok None else (let? tv := token_value n w in Ok (Some tv)), g).
Proof.
  intros Hn Hy Hc Hw. unfold rule_action.
  assert (Hcase : n = 1 \/ n = 2 \/ n = 3 \/ n = 4 \/ n = 57 \/ n = 70 \/ n = 71 \/
    exists t, rule_token n = Some t /\ (n <=? 2) = false /\ token_value n w = Ok (t, no_value)).
  { assert (H : Forall (fun k => let n := Z.of_nat k in n = 0 \/ n = 1 \/ n = 2 \/ n = 3 \/ n = 4 \/ n = 57 \/ n = 70 \/ n = 71 \/
      exists t, rule_token n = Some t /\ (n <=? 2) = false /\ token_value n w = Ok (t, no_value)) (seq 0 72)).
    { cbn [seq]. repeat (constructor; [cbn zeta; first [by auto 10|do 8 right; eexists; split_and!; reflexivity]|]). constructor. }
    rewrite Forall_forall in H. specialize (H (Z.to_nat n)). rewrite elem_of_seq in H. specialize (H ltac:(lia)).
    cbn zeta in H. rewrite Z2Nat.id in H by lia. destruct H as [?|H]; [lia|done]. }
  destruct Hcase as [->|[->|[->|[->|[->|[->|[->|(t & -> & -> & ->)]]]]]]]; try done.
  all: change (rule_token _) with (@None Z); cbn [token_value]; change (_ <=? 2) with false; cbv iota.
  - erewrite bind_run by exact Hy. unfold bind, of_res, res_bind. by destruct (number_of_text w).
  - by erewrite bind_run by exact Hy.
  - by erewrite bind_run by exact Hy.
  - by erewrite bind_run by exact Hy.
  - unfold bind at 1, get. destruct w as [|c w]; [done|]. by erewrite bind_run by (by apply (Hc c w)).
Qed.

(** ** The scanner *)

Lemma ready_next_token text q g fuel :
  ready text q g -> 0 <= q < alen text + 2 ->
  exists g', scanning text g' /\ yylex_from (S fuel) next_token g = yylex_from fuel (match_from q first_state q) g'.
Proof.
  intros (b & Hst & Ha & Hc) Hq.
  destruct (set_char_run text b g q (yy_hold_char g) Hst Hq) as (b' & g' & E & Hst' & Hb' & _ & Hc' & _ & _).
  exists g'. split; [exists b'; split; [done|by rewrite Hb']|]. cbn [yylex_from]. unfold bind at 1, get. rewrite Hc.
  erewrite bind_run by exact E. f_equal. f_equal. by destruct Hst.
Qed.

Lemma yylex_from_end text g fuel :
  ready text (alen text) g ->
  exists g', ready text (alen text) g' /\ yylex_from (S (S (S fuel))) next_token g = (Ok (0, no_value), g').
Proof.
  intros Hr. pose proof (alen_nonneg text) as H0.
  destruct (ready_next_token text (alen text) g (S (S fuel)) Hr ltac:(lia)) as (g0 & Hg & E). rewrite E. clear E Hr g.
  pose proof Hg as (b & Hst & Hb).
  assert (Eb : the_buffer g0 = (Ok b, g0)).
  { destruct Hst as [Hcb _ _ _ _ _]. unfold the_buffer, bind, get, of_res. by rewrite Hcb. }
  cbn [yylex_from]. erewrite bind_run by exact Eb.
  assert (Hblen : length (yy_ch_buf b) = (length (@nil Z) + S (S (length text)))%nat).
  { destruct Hst as [_ Hl _ _ _ _]. unfold alen in Hl. cbn [length]. lia. }
  rewrite Hblen.
  assert (Em : yy_match (length (@nil Z) + S (S (length text))) first_state (alen text) g0 =
                 (Ok (jam_state, alen text + 2), with_last (end_state, alen text + 1) g0)).
  { apply (yy_match_end text _ g0 (alen text) [] first_state Hg); try done; [by apply Forall_nil_2|apply drop_ge; unfold alen; lia|unfold alen; simpl; lia]. }
  erewrite bind_run by exact Em. clear Em.
  set (g1 := with_last (end_state, alen text + 1) g0).
  destruct (do_before_action_run text g1 (alen text) (alen text + 1) (with_last_scanning _ _ _ Hg) ltac:(lia)) as (g2 & E2 & Htk2 & _).
  destruct (end_of_buffer_run text (alen text) g2 Htk2 ltac:(lia)) as (b3 & g3 & Hst3 & Hb3 & Hc3 & Hy3 & Hh3 & _ & E3).
  cbv beta iota. unfold bind at 1, get. change (aget yy_accept jam_state =? 0) with true. cbv iota zeta.
  change (yy_last_accepting_cpos g1) with (alen text + 1). change (aget yy_accept (yy_last_accepting_state g1)) with 73.
  erewrite bind_run by exact E2. change (73 =? YY_END_OF_BUFFER) with true. cbv iota.
  erewrite bind_run; [|rewrite E3, Z.eqb_refl; unfold modify, bind, ret; reflexivity]. cbv beta iota.
  erewrite bind_run by reflexivity. eexists. split; [|reflexivity].
  exists b3. destruct Hst3 as [? ? ? ? ? ?]. split; [by constructor|]. split; [|done]. cbn [set_c_buf_p yy_hold_char].
  rewrite Hh3, Hb3. pose proof (chars_end text 0 ltac:(lia)) as Hz. rewrite Z.add_0_r in Hz. rewrite <- Hz.
  apply aset_aget. rewrite alen_chars. lia.
Qed.

(** A token that has a value that is not defined ends the program. *)
Lemma token_value_cases n w : (exists tv, token_value n w = Ok tv) \/ token_value n w = Ub.
Proof.
  unfold token_value, number_of_text. repeat case_match; simpl; eauto.
Qed.

Lemma first_token_suffix t r : first_token t r -> match r with Ok (_, rest) => exists u, t = u ++ rest | _ => True end.
Proof.
  induction 1 as [|text w n rest r Ht Hn H IH|text w n rest Ht Hn].
  - by exists [].
  - destruct r as [[tv rest']| | |]; try done. destruct IH as [u ->]. exists (w ++ u). rewrite <- app_assoc. apply (ta_text _ _ _ _ Ht).
  - destruct (token_value_cases n w) as [[tv ->]| ->]; [|done]. exists w. apply (ta_text _ _ _ _ Ht).
Qed.

Definition found_at (text : list Z) (tv : Z * YYSTYPE) (rest : list Z) (g : yyguts_t) : Prop :=
  exists q, ready text q g /\ 0 <= q <= alen text /\ drop (Z.to_nat q) text = rest.

Lemma yylex_from_run text g p fuel t :
  ready text p g -> 0 <= p <= alen text -> drop (Z.to_nat p) text = t -> is_text t -> (4 * length t + 4 <= fuel)%nat ->
  exists r g', first_token t r /\
    yylex_from fuel next_token g = (let? tvr := r in Ok (fst tvr), g') /\
    match r with
    | Ok (tv, rest) => found_at text tv rest g' /\ (length rest <= length t)%nat /\ (0 < fst tv -> (length rest < length t)%nat)
    | Ub => True
    | _ => False
    end.
Proof.
  remember (length t) as n eqn:En. revert g p t fuel En. induction n as [n IH] using lt_wf_ind. intros g p t fuel -> Hr Hp Hd Ht Hf.
  destruct t as [|c t].
  - assert (p = alen text) as ->.
    { apply (f_equal length) in Hd. rewrite length_drop in Hd. unfold alen in *. simpl in Hd. lia. }
    do 3 (destruct fuel as [|fuel]; [cbn [length] in Hf; lia|]).
    destruct (yylex_from_end text g fuel Hr) as (g' & Hr' & E). eexists (Ok ((0, no_value), [])), g'.
    split; [constructor|]. split; [done|]. split; [exists (alen text); split; [done|split; [lia|done]]|]. cbn [fst length]. lia.
  - assert (Hlt : p < alen text).
    { pose proof (f_equal length Hd) as Hl. rewrite length_drop in Hl. cbn [length] in Hl. unfold alen in *. lia. }
    cbn [length] in Hf. do 4 (destruct fuel as [|fuel]; [lia|]).
    destruct (ready_next_token text p g (S (S (S fuel))) Hr ltac:(lia)) as (g0 & Hg & ->).
    rewrite <- Hd in Ht. destruct (scan_token text fuel g0 p Hg ltac:(lia) Ht) as (u & s & rest & fuel' & g1 & Hta & Hfu & Htk & ->).
    rewrite Hd in Hta, Ht. pose proof (ta_text _ _ _ _ Hta) as Etext. pose proof (ta_nonempty _ _ _ _ Hta) as Hu.
    rewrite Etext in Hd, Ht. destruct (tokened_text text p u rest g1 Htk ltac:(lia) Ht Hd) as [Hy Hch].
    pose proof (rule_number _ _ (ta_matches _ _ _ _ Hta)) as Hn.
    assert (Hptr : yytext_ptr g1 = p) by (by destruct Htk as (? & _ & _ & _ & _ & ?)).
    pose proof (rule_action_run _ u g1 Hn Hy ltac:(by rewrite Hptr) Hu) as Ea.
    assert (Hd' : drop (Z.to_nat (p + alen u)) text = rest).
    { replace (Z.to_nat (p + alen u)) with (Z.to_nat p + length u)%nat by (unfold alen; lia). by rewrite <- drop_drop, Hd, drop_app_length. }
    assert (Hlen : (length rest < length (c :: t))%nat) by (rewrite Etext, length_app; destruct u; [done|simpl; lia]).
    assert (Hq : 0 <= p + alen u <= alen text).
    { pose proof (f_equal length Hd) as Hl. rewrite length_drop, length_app in Hl. unfold alen in *. lia. }
    apply tokened_ready in Htk; [|lia]. destruct (aget yy_accept s <=? 2) eqn:E2.
    + erewrite bind_run by exact Ea. cbn [then_go_on].
      destruct (IH (length rest) Hlen g1 (p + alen u) rest fuel' eq_refl Htk Hq Hd') as (r & g' & Hft & E & Hres).
      { by apply Forall_app in Ht as [_ ?]. } { cbn [length] in Hlen. lia. }
      exists r, g'. split; [eapply first_blank; [exact Hta|lia|exact Hft]|]. split; [done|]. destruct r as [[tv rest']| | |]; try done.
      destruct Hres as (? & ? & ?). split_and!; [done|lia|lia].
    + exists (let? tv := token_value (aget yy_accept s) u in Ok (tv, rest)), g1.
      split; [by eapply first_found; [exact Hta|lia]|].
      unfold bind. rewrite Ea. unfold res_bind.
      destruct (token_value_cases (aget yy_accept s) u) as [[tv ->]| ->]; [|done]. cbn [then_go_on]. split; [done|].
      split; [exists (p + alen u); split; [done|split; [lia|done]]|]. lia.
Qed.

Lemma yylex_run text g p t :
  ready text p g -> 0 <= p <= alen text -> drop (Z.to_nat p) text = t -> is_text t ->
  exists r g', first_token t r /\ yylex g = (let? tvr := r in Ok (fst tvr), g') /\
    match r with
    | Ok (tv, rest) => found_at text tv rest g' /\ (length rest <= length t)%nat /\ (0 < fst tv -> (length rest < length t)%nat)
    | Ub => True
    | _ => False
    end.
Proof.
  intros Hr Hp Hd Ht. pose proof Hr as (b & [Hcb Hl _ _ _ Hi] & _ & _).
  assert (Ef : yylex g = yylex_from (4 * length (yy_ch_buf b)) next_token g).
  { unfold yylex. unfold bind at 1, get. rewrite Hi. change (1 =? 0) with false. cbv iota. rewrite bind_ret.
    unfold the_buffer, bind, get, of_res. by rewrite Hcb. }
  rewrite Ef. apply (yylex_from_run text g p); try done.
  apply (f_equal length) in Hd. rewrite length_drop in Hd. unfold alen in *. lia.
Qed.

Lemma lex_all_run text g p t fuel :
  ready text p g -> 0 <= p <= alen text -> drop (Z.to_nat p) text = t -> is_text t -> (length t < fuel)%nat ->
  lexes t (fst (lex_all fuel g)).
Proof.
  revert g p t. induction fuel as [|fuel IH]; intros g p t Hr Hp Hd Ht Hf; [lia|].
  destruct (yylex_run text g p t Hr Hp Hd Ht) as (r & g' & Hft & E & Hres). cbn [lex_all]. unfold bind at 1. rewrite E.
  destruct r as [[[tok v] rest]| | |]; try done; [|by apply lexes_undefined].
  destruct Hres as ((q & Hr' & Hq & Hd') & Hle & Hlt). cbn [res_bind fst]. destruct (tok <=? 0) eqn:E0.
  - eapply lexes_stop; [exact Hft|lia].
  - cbn [fst] in Hlt. assert (Htr : is_text rest) by (destruct (first_token_suffix _ _ Hft) as [u ->]; by apply Forall_app in Ht as [_ ?]).
    pose proof (IH g' q rest Hr' Hq Hd' Htr ltac:(lia)) as Hrec. unfold bind.
    pose proof (lexes_more t tok v rest _ Hft ltac:(lia) Hrec) as Hm. unfold res_bind in Hm.
    by destruct (lex_all fuel g') as [[?|?| |] ?].
Qed.

Lemma the_buffer_run g b : current_buffer g = Some b -> the_buffer g = (Ok b, g).
Proof. intros Hb. unfold the_buffer, bind, get, of_res. by rewrite Hb. Qed.

Lemma load_run g b :
  current_buffer g = Some b -> yy_buf_pos b = 0 -> 0 < alen (yy_ch_buf b) ->
  yy_load_buffer_state g =
  (Ok tt, {| current_buffer := Some b; yy_hold_char := aget (yy_ch_buf b) 0; yy_n_chars := buffer_n_chars b; yyleng := yyleng g;
             yy_c_buf_p := 0; yy_init := yy_init g; yy_start := yy_start g; yy_last_accepting_state := yy_last_accepting_state g;
             yy_last_accepting_cpos := yy_last_accepting_cpos g; yytext_ptr := 0 |}).
Proof.
  intros Hb Hp Hl. assert (Hc : char_at 0 g = (Ok (aget (yy_ch_buf b) 0), g)).
  { unfold char_at. erewrite bind_run by (by apply the_buffer_run). change (0 <? 0) with false.
    by rewrite (proj2 (Z.leb_gt _ _)) by lia. }
  unfold yy_load_buffer_state. erewrite bind_run by (by apply the_buffer_run). rewrite Hp. erewrite bind_run by exact Hc.
  unfold modify. by rewrite Hb.
Qed.

Lemma scan_string_run s :
  is_text s -> exists g b, scan_string (s ++ [0]) yy_init_globals = (Ok tt, g) /\ current_buffer g = Some b /\ yy_ch_buf b = chars s /\
    buffer_n_chars b = alen s /\ yy_buf_pos b = 0 /\ yy_init g = 0 /\ yy_start g = 0.
Proof.
  intros Hs. pose proof (alen_nonneg s) as H0. unfold scan_string. rewrite cstr_text by done.
  unfold of_res. cbn [non_null]. erewrite bind_run by reflexivity.
  unfold yy_scan_bytes, yy_scan_buffer, YY_END_OF_BUFFER_CHAR. change (s ++ [0; 0]) with (chars s). rewrite alen_chars.
  replace (alen s + 2 - 2) with (alen s) by lia. replace (alen s + 2 - 1) with (alen s + 1) by lia.
  pose proof (chars_end s 0 ltac:(lia)) as E0. rewrite Z.add_0_r in E0. rewrite E0, (chars_end s 1) by lia.
  rewrite (proj2 (Z.ltb_ge _ _)) by lia. change (false || negb (0 =? 0) || negb (0 =? 0)) with false. unfold undefined_if.
  rewrite bind_ret. unfold yy_switch_to_buffer. erewrite bind_run by reflexivity.
  eexists _, _. split; [apply load_run; [reflexivity..|cbn; rewrite alen_chars; lia]|]. done.
Qed.

Lemma yylex_loaded g : yy_init g = 1 -> yylex g = (let! b := the_buffer in yylex_from (4 * length (yy_ch_buf b)) next_token) g.
Proof. intros Hi. unfold yylex. unfold bind at 1, get. rewrite Hi. change (1 =? 0) with false. cbv iota. by rewrite bind_ret. Qed.

(** The first call also sets the start state and loads the buffer. *)
Lemma first_call s g b :
  current_buffer g = Some b -> yy_ch_buf b = chars s -> buffer_n_chars b = alen s -> yy_buf_pos b = 0 -> yy_init g = 0 -> yy_start g = 0 ->
  exists g', ready s 0 g' /\ yylex g = yylex g'.
Proof.
  intros Hb Hc Hn Hp Hi Hs. pose proof (alen_nonneg s) as H0.
  pose proof (load_run (set_started g) b Hb Hp ltac:(rewrite Hc, alen_chars; lia)) as El.
  match type of El with _ = (_, ?x) => exists x end. split.
  - exists b. split; [constructor; try done; [by rewrite Hc, alen_chars|cbn; by rewrite Hs]|]. split; [|done].
    cbn [yy_hold_char]. rewrite Hc. apply aset_aget. rewrite alen_chars. lia.
  - symmetry. rewrite yylex_loaded by done. symmetry. unfold yylex. unfold bind at 1, get. rewrite Hi. change (0 =? 0) with true. cbv iota.
    erewrite bind_run; [reflexivity|]. erewrite bind_run by reflexivity. exact El.
Qed.

Lemma lexes_tokens_of s : is_text s -> lexes s (tokens_of s).
Proof.
  intros Hs. destruct (scan_string_run s Hs) as (g & b & E & Hb & Hc & Hn & Hp & Hi & Hst). unfold tokens_of. erewrite bind_run by exact E.
  destruct (first_call s g b Hb Hc Hn Hp Hi Hst) as (g' & Hr & Ey). pose proof (alen_nonneg s).
  assert (El : lex_all (length s + 1) g = lex_all (length s + 1) g').
  { rewrite Nat.add_1_r. cbn [lex_all]. unfold bind at 1 3. by rewrite Ey. }
  rewrite El. apply (lex_all_run s g' 0); try done; lia.
Qed.

(** C14. The scanner of SQL: the tokens of any text are those that the rules of lex_sql.l describe: at each position the longest
    match, and the first rule among those that match it; blanks are passed over; the scanner ends with the text. *)
Theorem scanner_longest_match s : is_text s -> forall r, lexes s r <-> tokens_of s = r.
Proof.
  intros Hs. pose proof (lexes_tokens_of s Hs) as Hl.
  intros r. split; [|by intros <-]. intros H. by eapply lexes_functional.
Qed.

(** A statement: [SELECT  a1 from t WHERE a1<=12;]. *)
Lemma scanner_longest_match_witness :
  let s := Values.bytes_of_string "SELECT  a1 from t WHERE a1<=12;" in
  is_text s /\
  lexes s (Ok [(Token.SELECT, no_value); (Token.ID, string_value [97; 49]); (Token.FROM, no_value); (Token.ID, string_value [116]);
               (Token.WHERE, no_value); (Token.ID, string_value [97; 49]); (Token.LE, no_value); (Token.NUMBER, number_value 12);
               (Token.SEMICOLON, no_value); (0, no_value)]).
Proof.
  cbv zeta. assert (Ht : is_text (Values.bytes_of_string "SELECT  a1 from t WHERE a1<=12;")).
  { unfold is_text. apply (bool_decide_unpack _). vm_compute. exact I. }
  split; [exact Ht|]. apply (scanner_longest_match _ Ht). vm_compute. reflexivity.
Defined.

(** Two strings of one line are scanned as one when only letters and blanks stand between them. *)
Lemma strings_are_joined :
  tokens_of (Values.bytes_of_string "'a' AND 'b'") = Ok [(Token.SSS, string_value (Values.bytes_of_string "'a' AND 'b'")); (0, no_value)].
Proof. vm_compute. reflexivity. Qed.

(** A byte above 127 is a negative code, which the parser takes for the end of the text. *)
Lemma high_byte_ends : tokens_of (Values.bytes_of_string "exit;" ++ [195; 169] ++ Values.bytes_of_string "garbage") =
  Ok [(Token.EXIT, no_value); (Token.SEMICOLON, no_value); (-61, no_value)].
Proof. vm_compute. reflexivity. Qed.

(** A number that does not fit an [int] is undefined. *)
Lemma large_number : tokens_of (Values.bytes_of_string "2147483648") = Ub.
Proof. vm_compute. reflexivity. Qed.
