(* ===== verification/ParserGrammar.v ===== *)
(** * The grammar of SQL (sql/parser/yacc_sql.y)

    The kinds of symbols, the rules as yacc_sql.y writes them, and the sentences that they generate: the specification of the
    automaton in Parser.v. *)
From S2P Require Import Prelude ParserTables.

(** ** Symbols *)

Inductive yysymbol_kind_t :=
| YYSYMBOL_YYEMPTY | YYSYMBOL_YYEOF | YYSYMBOL_YYerror | YYSYMBOL_YYUNDEF | YYSYMBOL_SEMICOLON | YYSYMBOL_CREATE
| YYSYMBOL_DROP | YYSYMBOL_TABLE | YYSYMBOL_TABLES | YYSYMBOL_UNIQUE | YYSYMBOL_INDEX | YYSYMBOL_SELECT
| YYSYMBOL_DESC | YYSYMBOL_SHOW | YYSYMBOL_SYNC | YYSYMBOL_INSERT | YYSYMBOL_DELETE | YYSYMBOL_UPDATE
| YYSYMBOL_LBRACE | YYSYMBOL_RBRACE | YYSYMBOL_COMMA | YYSYMBOL_TRX_BEGIN | YYSYMBOL_TRX_COMMIT
| YYSYMBOL_TRX_ROLLBACK | YYSYMBOL_INT_T | YYSYMBOL_STRING_T | YYSYMBOL_FLOAT_T | YYSYMBOL_DATE_T | YYSYMBOL_TEXT_T
| YYSYMBOL_HELP | YYSYMBOL_EXIT | YYSYMBOL_DOT | YYSYMBOL_INTO | YYSYMBOL_VALUES | YYSYMBOL_FROM | YYSYMBOL_WHERE
| YYSYMBOL_INNER | YYSYMBOL_JOIN | YYSYMBOL_AND | YYSYMBOL_SET | YYSYMBOL_ON | YYSYMBOL_LOAD | YYSYMBOL_DATA
| YYSYMBOL_INFILE | YYSYMBOL_MAX_T | YYSYMBOL_MIN_T | YYSYMBOL_AVG_T | YYSYMBOL_SUM_T | YYSYMBOL_COUNT_T
| YYSYMBOL_EQ | YYSYMBOL_LT | YYSYMBOL_GT | YYSYMBOL_LE | YYSYMBOL_GE | YYSYMBOL_NE | YYSYMBOL_NOT_T
| YYSYMBOL_NULL_T | YYSYMBOL_NULLABLE_T | YYSYMBOL_IS_T | YYSYMBOL_ORDER | YYSYMBOL_BY | YYSYMBOL_ASC | YYSYMBOL_IN
| YYSYMBOL_GROUP | YYSYMBOL_ADD | YYSYMBOL_SUB | YYSYMBOL_DIV | YYSYMBOL_STAR | YYSYMBOL_NUMBER | YYSYMBOL_FLOAT
| YYSYMBOL_ID | YYSYMBOL_PATH | YYSYMBOL_SSS | YYSYMBOL_STRING_V | YYSYMBOL_YYACCEPT | YYSYMBOL_commands
| YYSYMBOL_command | YYSYMBOL_exit | YYSYMBOL_help | YYSYMBOL_sync | YYSYMBOL_begin | YYSYMBOL_commit
| YYSYMBOL_rollback | YYSYMBOL_drop_table | YYSYMBOL_show_tables | YYSYMBOL_desc_table | YYSYMBOL_create_index
| YYSYMBOL_id_list | YYSYMBOL_drop_index | YYSYMBOL_create_table | YYSYMBOL_attr_def_list | YYSYMBOL_attr_def
| YYSYMBOL_number | YYSYMBOL_type | YYSYMBOL_ID_get | YYSYMBOL_insert | YYSYMBOL_insert_exp | YYSYMBOL_value_list
| YYSYMBOL_insert_pair_list | YYSYMBOL_value | YYSYMBOL_exp | YYSYMBOL_delete_begin | YYSYMBOL_delete
| YYSYMBOL_update_begin | YYSYMBOL_update | YYSYMBOL_select_begin | YYSYMBOL_select_end | YYSYMBOL_select_clause
| YYSYMBOL_select | YYSYMBOL_select_attr | YYSYMBOL_attr_list | YYSYMBOL_aggre_func | YYSYMBOL_aggre_type
| YYSYMBOL_rel_list | YYSYMBOL_inner_join | YYSYMBOL_inner_join_list | YYSYMBOL_join_condition_list
| YYSYMBOL_join_condition | YYSYMBOL_where | YYSYMBOL_condition_list | YYSYMBOL_condition | YYSYMBOL_left_sub_select
| YYSYMBOL_right_sub_select | YYSYMBOL_comOp | YYSYMBOL_order_by | YYSYMBOL_order_item | YYSYMBOL_order
| YYSYMBOL_order_item_list | YYSYMBOL_group_by | YYSYMBOL_group_item | YYSYMBOL_group_item_list | YYSYMBOL_load_data.

(** The number of a symbol in the tables. *)
Definition symbol_number (s : yysymbol_kind_t) : Z :=
  match s with
  | YYSYMBOL_YYEMPTY => (-2) | YYSYMBOL_YYEOF => 0 | YYSYMBOL_YYerror => 1 | YYSYMBOL_YYUNDEF => 2
  | YYSYMBOL_SEMICOLON => 3 | YYSYMBOL_CREATE => 4 | YYSYMBOL_DROP => 5 | YYSYMBOL_TABLE => 6 | YYSYMBOL_TABLES => 7
  | YYSYMBOL_UNIQUE => 8 | YYSYMBOL_INDEX => 9 | YYSYMBOL_SELECT => 10 | YYSYMBOL_DESC => 11 | YYSYMBOL_SHOW => 12
  | YYSYMBOL_SYNC => 13 | YYSYMBOL_INSERT => 14 | YYSYMBOL_DELETE => 15 | YYSYMBOL_UPDATE => 16
  | YYSYMBOL_LBRACE => 17 | YYSYMBOL_RBRACE => 18 | YYSYMBOL_COMMA => 19 | YYSYMBOL_TRX_BEGIN => 20
  | YYSYMBOL_TRX_COMMIT => 21 | YYSYMBOL_TRX_ROLLBACK => 22 | YYSYMBOL_INT_T => 23 | YYSYMBOL_STRING_T => 24
  | YYSYMBOL_FLOAT_T => 25 | YYSYMBOL_DATE_T => 26 | YYSYMBOL_TEXT_T => 27 | YYSYMBOL_HELP => 28
  | YYSYMBOL_EXIT => 29 | YYSYMBOL_DOT => 30 | YYSYMBOL_INTO => 31 | YYSYMBOL_VALUES => 32 | YYSYMBOL_FROM => 33
  | YYSYMBOL_WHERE => 34 | YYSYMBOL_INNER => 35 | YYSYMBOL_JOIN => 36 | YYSYMBOL_AND => 37 | YYSYMBOL_SET => 38
  | YYSYMBOL_ON => 39 | YYSYMBOL_LOAD => 40 | YYSYMBOL_DATA => 41 | YYSYMBOL_INFILE => 42 | YYSYMBOL_MAX_T => 43
  | YYSYMBOL_MIN_T => 44 | YYSYMBOL_AVG_T => 45 | YYSYMBOL_SUM_T => 46 | YYSYMBOL_COUNT_T => 47 | YYSYMBOL_EQ => 48
  | YYSYMBOL_LT => 49 | YYSYMBOL_GT => 50 | YYSYMBOL_LE => 51 | YYSYMBOL_GE => 52 | YYSYMBOL_NE => 53
  | YYSYMBOL_NOT_T => 54 | YYSYMBOL_NULL_T => 55 | YYSYMBOL_NULLABLE_T => 56 | YYSYMBOL_IS_T => 57
  | YYSYMBOL_ORDER => 58 | YYSYMBOL_BY => 59 | YYSYMBOL_ASC => 60 | YYSYMBOL_IN => 61 | YYSYMBOL_GROUP => 62
  | YYSYMBOL_ADD => 63 | YYSYMBOL_SUB => 64 | YYSYMBOL_DIV => 65 | YYSYMBOL_STAR => 66 | YYSYMBOL_NUMBER => 67
  | YYSYMBOL_FLOAT => 68 | YYSYMBOL_ID => 69 | YYSYMBOL_PATH => 70 | YYSYMBOL_SSS => 71 | YYSYMBOL_STRING_V => 72
  | YYSYMBOL_YYACCEPT => 73 | YYSYMBOL_commands => 74 | YYSYMBOL_command => 75 | YYSYMBOL_exit => 76
  | YYSYMBOL_help => 77 | YYSYMBOL_sync => 78 | YYSYMBOL_begin => 79 | YYSYMBOL_commit => 80
  | YYSYMBOL_rollback => 81 | YYSYMBOL_drop_table => 82 | YYSYMBOL_show_tables => 83 | YYSYMBOL_desc_table => 84
  | YYSYMBOL_create_index => 85 | YYSYMBOL_id_list => 86 | YYSYMBOL_drop_index => 87 | YYSYMBOL_create_table => 88
  | YYSYMBOL_attr_def_list => 89 | YYSYMBOL_attr_def => 90 | YYSYMBOL_number => 91 | YYSYMBOL_type => 92
  | YYSYMBOL_ID_get => 93 | YYSYMBOL_insert => 94 | YYSYMBOL_insert_exp => 95 | YYSYMBOL_value_list => 96
  | YYSYMBOL_insert_pair_list => 97 | YYSYMBOL_value => 98 | YYSYMBOL_exp => 99 | YYSYMBOL_delete_begin => 100
  | YYSYMBOL_delete => 101 | YYSYMBOL_update_begin => 102 | YYSYMBOL_update => 103 | YYSYMBOL_select_begin => 104
  | YYSYMBOL_select_end => 105 | YYSYMBOL_select_clause => 106 | YYSYMBOL_select => 107 | YYSYMBOL_select_attr => 108
  | YYSYMBOL_attr_list => 109 | YYSYMBOL_aggre_func => 110 | YYSYMBOL_aggre_type => 111 | YYSYMBOL_rel_list => 112
  | YYSYMBOL_inner_join => 113 | YYSYMBOL_inner_join_list => 114 | YYSYMBOL_join_condition_list => 115
  | YYSYMBOL_join_condition => 116 | YYSYMBOL_where => 117 | YYSYMBOL_condition_list => 118
  | YYSYMBOL_condition => 119 | YYSYMBOL_left_sub_select => 120 | YYSYMBOL_right_sub_select => 121
  | YYSYMBOL_comOp => 122 | YYSYMBOL_order_by => 123 | YYSYMBOL_order_item => 124 | YYSYMBOL_order => 125
  | YYSYMBOL_order_item_list => 126 | YYSYMBOL_group_by => 127 | YYSYMBOL_group_item => 128
  | YYSYMBOL_group_item_list => 129 | YYSYMBOL_load_data => 130
  end.

Coercion symbol_number : yysymbol_kind_t >-> Z.

(** ** Rules *)

Definition rule_t : Type := yysymbol_kind_t * list yysymbol_kind_t.

(** Rules 1, ..., 136. *)
Definition grammar : list rule_t :=
  [
   (YYSYMBOL_YYACCEPT, [YYSYMBOL_commands; YYSYMBOL_YYEOF]); (YYSYMBOL_commands, []);
   (YYSYMBOL_commands, [YYSYMBOL_commands; YYSYMBOL_command]); (YYSYMBOL_command, [YYSYMBOL_select_clause]);
   (YYSYMBOL_command, [YYSYMBOL_insert]); (YYSYMBOL_command, [YYSYMBOL_update]);
   (YYSYMBOL_command, [YYSYMBOL_delete]); (YYSYMBOL_command, [YYSYMBOL_create_table]);
   (YYSYMBOL_command, [YYSYMBOL_drop_table]); (YYSYMBOL_command, [YYSYMBOL_show_tables]);
   (YYSYMBOL_command, [YYSYMBOL_desc_table]); (YYSYMBOL_command, [YYSYMBOL_create_index]);
   (YYSYMBOL_command, [YYSYMBOL_drop_index]); (YYSYMBOL_command, [YYSYMBOL_sync]);
   (YYSYMBOL_command, [YYSYMBOL_begin]); (YYSYMBOL_command, [YYSYMBOL_commit]);
   (YYSYMBOL_command, [YYSYMBOL_rollback]); (YYSYMBOL_command, [YYSYMBOL_load_data]);
   (YYSYMBOL_command, [YYSYMBOL_help]); (YYSYMBOL_command, [YYSYMBOL_exit]);
   (YYSYMBOL_exit, [YYSYMBOL_EXIT; YYSYMBOL_SEMICOLON]); (YYSYMBOL_help, [YYSYMBOL_HELP; YYSYMBOL_SEMICOLON]);
   (YYSYMBOL_sync, [YYSYMBOL_SYNC; YYSYMBOL_SEMICOLON]); (YYSYMBOL_begin, [YYSYMBOL_TRX_BEGIN; YYSYMBOL_SEMICOLON]);
   (YYSYMBOL_commit, [YYSYMBOL_TRX_COMMIT; YYSYMBOL_SEMICOLON]);
   (YYSYMBOL_rollback, [YYSYMBOL_TRX_ROLLBACK; YYSYMBOL_SEMICOLON]);
   (YYSYMBOL_drop_table, [YYSYMBOL_DROP; YYSYMBOL_TABLE; YYSYMBOL_ID; YYSYMBOL_SEMICOLON]);
   (YYSYMBOL_show_tables, [YYSYMBOL_SHOW; YYSYMBOL_TABLES; YYSYMBOL_SEMICOLON]);
   (YYSYMBOL_desc_table, [YYSYMBOL_DESC; YYSYMBOL_ID; YYSYMBOL_SEMICOLON]);
   (YYSYMBOL_create_index, [YYSYMBOL_CREATE; YYSYMBOL_INDEX; YYSYMBOL_ID; YYSYMBOL_ON; YYSYMBOL_ID; YYSYMBOL_LBRACE; YYSYMBOL_ID; YYSYMBOL_id_list; YYSYMBOL_RBRACE; YYSYMBOL_SEMICOLON]);
   (YYSYMBOL_create_index, [YYSYMBOL_CREATE; YYSYMBOL_UNIQUE; YYSYMBOL_INDEX; YYSYMBOL_ID; YYSYMBOL_ON; YYSYMBOL_ID; YYSYMBOL_LBRACE; YYSYMBOL_ID; YYSYMBOL_RBRACE; YYSYMBOL_SEMICOLON]);
   (YYSYMBOL_id_list, []); (YYSYMBOL_id_list, [YYSYMBOL_COMMA; YYSYMBOL_ID; YYSYMBOL_id_list]);
   (YYSYMBOL_drop_index, [YYSYMBOL_DROP; YYSYMBOL_INDEX; YYSYMBOL_ID; YYSYMBOL_SEMICOLON]);
   (YYSYMBOL_create_table, [YYSYMBOL_CREATE; YYSYMBOL_TABLE; YYSYMBOL_ID; YYSYMBOL_LBRACE; YYSYMBOL_attr_def; YYSYMBOL_attr_def_list; YYSYMBOL_RBRACE; YYSYMBOL_SEMICOLON]);
   (YYSYMBOL_attr_def_list, []);
   (YYSYMBOL_attr_def_list, [YYSYMBOL_COMMA; YYSYMBOL_attr_def; YYSYMBOL_attr_def_list]);
   (YYSYMBOL_attr_def, [YYSYMBOL_ID_get; YYSYMBOL_type; YYSYMBOL_LBRACE; YYSYMBOL_number; YYSYMBOL_RBRACE]);
   (YYSYMBOL_attr_def, [YYSYMBOL_ID_get; YYSYMBOL_type]);
   (YYSYMBOL_attr_def, [YYSYMBOL_ID_get; YYSYMBOL_type; YYSYMBOL_NOT_T; YYSYMBOL_NULL_T]);
   (YYSYMBOL_attr_def, [YYSYMBOL_ID_get; YYSYMBOL_type; YYSYMBOL_NULLABLE_T]); (YYSYMBOL_number, [YYSYMBOL_NUMBER]);
   (YYSYMBOL_type, [YYSYMBOL_INT_T]); (YYSYMBOL_type, [YYSYMBOL_STRING_T]); (YYSYMBOL_type, [YYSYMBOL_FLOAT_T]);
   (YYSYMBOL_type, [YYSYMBOL_DATE_T]); (YYSYMBOL_type, [YYSYMBOL_TEXT_T]); (YYSYMBOL_ID_get, [YYSYMBOL_ID]);
   (YYSYMBOL_insert, [YYSYMBOL_INSERT; YYSYMBOL_INTO; YYSYMBOL_ID; YYSYMBOL_VALUES; YYSYMBOL_LBRACE; YYSYMBOL_insert_exp; YYSYMBOL_value_list; YYSYMBOL_RBRACE; YYSYMBOL_insert_pair_list; YYSYMBOL_SEMICOLON]);
   (YYSYMBOL_insert_exp, [YYSYMBOL_exp]); (YYSYMBOL_value_list, []);
   (YYSYMBOL_value_list, [YYSYMBOL_COMMA; YYSYMBOL_insert_exp; YYSYMBOL_value_list]);
   (YYSYMBOL_insert_pair_list, []);
   (YYSYMBOL_insert_pair_list, [YYSYMBOL_COMMA; YYSYMBOL_LBRACE; YYSYMBOL_insert_exp; YYSYMBOL_value_list; YYSYMBOL_RBRACE; YYSYMBOL_insert_pair_list]);
   (YYSYMBOL_value, [YYSYMBOL_NUMBER]); (YYSYMBOL_value, [YYSYMBOL_FLOAT]); (YYSYMBOL_value, [YYSYMBOL_SSS]);
   (YYSYMBOL_value, [YYSYMBOL_NULL_T]); (YYSYMBOL_exp, [YYSYMBOL_exp; YYSYMBOL_ADD; YYSYMBOL_exp]);
   (YYSYMBOL_exp, [YYSYMBOL_SUB; YYSYMBOL_exp]); (YYSYMBOL_exp, [YYSYMBOL_exp; YYSYMBOL_SUB; YYSYMBOL_exp]);
   (YYSYMBOL_exp, [YYSYMBOL_exp; YYSYMBOL_STAR; YYSYMBOL_exp]);
   (YYSYMBOL_exp, [YYSYMBOL_exp; YYSYMBOL_DIV; YYSYMBOL_exp]);
   (YYSYMBOL_exp, [YYSYMBOL_LBRACE; YYSYMBOL_exp; YYSYMBOL_RBRACE]); (YYSYMBOL_exp, [YYSYMBOL_value]);
   (YYSYMBOL_exp, [YYSYMBOL_ID]); (YYSYMBOL_exp, [YYSYMBOL_ID; YYSYMBOL_DOT; YYSYMBOL_ID]);
   (YYSYMBOL_exp, [YYSYMBOL_ID; YYSYMBOL_DOT; YYSYMBOL_STAR]); (YYSYMBOL_delete_begin, [YYSYMBOL_DELETE]);
   (YYSYMBOL_delete, [YYSYMBOL_delete_begin; YYSYMBOL_FROM; YYSYMBOL_ID; YYSYMBOL_where; YYSYMBOL_SEMICOLON]);
   (YYSYMBOL_update_begin, [YYSYMBOL_UPDATE]);
   (YYSYMBOL_update, [YYSYMBOL_update_begin; YYSYMBOL_ID; YYSYMBOL_SET; YYSYMBOL_ID; YYSYMBOL_EQ; YYSYMBOL_exp; YYSYMBOL_where; YYSYMBOL_SEMICOLON]);
   (YYSYMBOL_select_begin, [YYSYMBOL_SELECT]); (YYSYMBOL_select_end, []);
   (YYSYMBOL_select_clause, [YYSYMBOL_select; YYSYMBOL_SEMICOLON]);
   (YYSYMBOL_select, [YYSYMBOL_select_begin; YYSYMBOL_select_attr; YYSYMBOL_FROM; YYSYMBOL_ID; YYSYMBOL_rel_list; YYSYMBOL_inner_join_list; YYSYMBOL_where; YYSYMBOL_group_by; YYSYMBOL_order_by; YYSYMBOL_select_end]);
   (YYSYMBOL_select_attr, [YYSYMBOL_STAR]); (YYSYMBOL_select_attr, [YYSYMBOL_exp; YYSYMBOL_attr_list]);
   (YYSYMBOL_select_attr, [YYSYMBOL_aggre_func; YYSYMBOL_attr_list]); (YYSYMBOL_attr_list, []);
   (YYSYMBOL_attr_list, [YYSYMBOL_COMMA; YYSYMBOL_exp; YYSYMBOL_attr_list]);
   (YYSYMBOL_attr_list, [YYSYMBOL_COMMA; YYSYMBOL_aggre_func; YYSYMBOL_attr_list]);
   (YYSYMBOL_aggre_func, [YYSYMBOL_aggre_type; YYSYMBOL_LBRACE; YYSYMBOL_exp; YYSYMBOL_RBRACE]);
   (YYSYMBOL_aggre_func, [YYSYMBOL_aggre_type; YYSYMBOL_LBRACE; YYSYMBOL_STAR; YYSYMBOL_RBRACE]);
   (YYSYMBOL_aggre_type, [YYSYMBOL_MAX_T]); (YYSYMBOL_aggre_type, [YYSYMBOL_MIN_T]);
   (YYSYMBOL_aggre_type, [YYSYMBOL_AVG_T]); (YYSYMBOL_aggre_type, [YYSYMBOL_SUM_T]);
   (YYSYMBOL_aggre_type, [YYSYMBOL_COUNT_T]); (YYSYMBOL_rel_list, []);
   (YYSYMBOL_rel_list, [YYSYMBOL_COMMA; YYSYMBOL_ID; YYSYMBOL_rel_list]);
   (YYSYMBOL_inner_join, [YYSYMBOL_INNER; YYSYMBOL_JOIN; YYSYMBOL_ID; YYSYMBOL_ON; YYSYMBOL_join_condition; YYSYMBOL_join_condition_list]);
   (YYSYMBOL_inner_join_list, []); (YYSYMBOL_inner_join_list, [YYSYMBOL_inner_join; YYSYMBOL_inner_join_list]);
   (YYSYMBOL_join_condition_list, []);
   (YYSYMBOL_join_condition_list, [YYSYMBOL_AND; YYSYMBOL_join_condition; YYSYMBOL_join_condition_list]);
   (YYSYMBOL_join_condition, [YYSYMBOL_exp; YYSYMBOL_comOp; YYSYMBOL_exp]);
   (YYSYMBOL_join_condition, [YYSYMBOL_exp; YYSYMBOL_comOp; YYSYMBOL_right_sub_select]);
   (YYSYMBOL_join_condition, [YYSYMBOL_left_sub_select; YYSYMBOL_comOp; YYSYMBOL_exp]);
   (YYSYMBOL_join_condition, [YYSYMBOL_left_sub_select; YYSYMBOL_comOp; YYSYMBOL_right_sub_select]);
   (YYSYMBOL_where, []); (YYSYMBOL_where, [YYSYMBOL_WHERE; YYSYMBOL_condition; YYSYMBOL_condition_list]);
   (YYSYMBOL_condition_list, []);
   (YYSYMBOL_condition_list, [YYSYMBOL_AND; YYSYMBOL_condition; YYSYMBOL_condition_list]);
   (YYSYMBOL_condition, [YYSYMBOL_exp; YYSYMBOL_comOp; YYSYMBOL_exp]);
   (YYSYMBOL_condition, [YYSYMBOL_exp; YYSYMBOL_comOp; YYSYMBOL_right_sub_select]);
   (YYSYMBOL_condition, [YYSYMBOL_left_sub_select; YYSYMBOL_comOp; YYSYMBOL_exp]);
   (YYSYMBOL_condition, [YYSYMBOL_left_sub_select; YYSYMBOL_comOp; YYSYMBOL_right_sub_select]);
   (YYSYMBOL_left_sub_select, [YYSYMBOL_LBRACE; YYSYMBOL_select; YYSYMBOL_RBRACE]);
   (YYSYMBOL_right_sub_select, [YYSYMBOL_LBRACE; YYSYMBOL_select; YYSYMBOL_RBRACE]); (YYSYMBOL_comOp, [YYSYMBOL_EQ]);
   (YYSYMBOL_comOp, [YYSYMBOL_LT]); (YYSYMBOL_comOp, [YYSYMBOL_GT]); (YYSYMBOL_comOp, [YYSYMBOL_LE]);
   (YYSYMBOL_comOp, [YYSYMBOL_GE]); (YYSYMBOL_comOp, [YYSYMBOL_NE]); (YYSYMBOL_comOp, [YYSYMBOL_IS_T]);
   (YYSYMBOL_comOp, [YYSYMBOL_IS_T; YYSYMBOL_NOT_T]); (YYSYMBOL_comOp, [YYSYMBOL_IN]);
   (YYSYMBOL_comOp, [YYSYMBOL_NOT_T; YYSYMBOL_IN]); (YYSYMBOL_order_by, []);
   (YYSYMBOL_order_by, [YYSYMBOL_ORDER; YYSYMBOL_BY; YYSYMBOL_order_item; YYSYMBOL_order_item_list]);
   (YYSYMBOL_order_item, [YYSYMBOL_ID; YYSYMBOL_order]);
   (YYSYMBOL_order_item, [YYSYMBOL_ID; YYSYMBOL_DOT; YYSYMBOL_ID; YYSYMBOL_order]); (YYSYMBOL_order, []);
   (YYSYMBOL_order, [YYSYMBOL_ASC]); (YYSYMBOL_order, [YYSYMBOL_DESC]); (YYSYMBOL_order_item_list, []);
   (YYSYMBOL_order_item_list, [YYSYMBOL_COMMA; YYSYMBOL_order_item; YYSYMBOL_order_item_list]);
   (YYSYMBOL_group_by, []);
   (YYSYMBOL_group_by, [YYSYMBOL_GROUP; YYSYMBOL_BY; YYSYMBOL_group_item; YYSYMBOL_group_item_list]);
   (YYSYMBOL_group_item, [YYSYMBOL_ID]); (YYSYMBOL_group_item, [YYSYMBOL_ID; YYSYMBOL_DOT; YYSYMBOL_ID]);
   (YYSYMBOL_group_item_list, []);
   (YYSYMBOL_group_item_list, [YYSYMBOL_COMMA; YYSYMBOL_group_item; YYSYMBOL_group_item_list]);
   (YYSYMBOL_load_data, [YYSYMBOL_LOAD; YYSYMBOL_DATA; YYSYMBOL_INFILE; YYSYMBOL_SSS; YYSYMBOL_INTO; YYSYMBOL_TABLE; YYSYMBOL_ID; YYSYMBOL_SEMICOLON])].

Definition rule_table : list (Z * list Z) := map (fun r : rule_t => (symbol_number (fst r), map symbol_number (snd r))) grammar.

(** Rule [n], by its number. *)
Definition rule_at (n : Z) : option (Z * list Z) := if n <=? 0 then None else rule_table !! Z.to_nat (n - 1).

(** ** Sentences *)

(** The words of tokens that a symbol, or a row of symbols, stands for. *)
Inductive derives : Z -> list Z -> Prop :=
| derives_token t : 0 <= t < YYNTOKENS -> derives t [t]
| derives_rule lhs rhs w : (lhs, rhs) ∈ rule_table -> derives_all rhs w -> derives lhs w
with derives_all : list Z -> list Z -> Prop :=
| derives_nil : derives_all [] []
| derives_cons x xs u w : derives x u -> derives_all xs w -> derives_all (x :: xs) (u ++ w).

(** A text of statements. *)
Definition sentence (w : list Z) : Prop := derives YYSYMBOL_commands w.
