(* ===== verification/Parser.v ===== *)
(** * The parser of SQL (sql/parser/yacc_sql.y, yacc_sql.tab.c)

    [yyparse] is the automaton that bison generated, on the tables of ParserTables.v and the tokens of the scanner; the actions fill
    the structures of Syntax.v through [ParserContext].  [sql_parse] and [parse] run it on a text.  The stacks are lists with the
    top first; [YYSTYPE] knows which member of the union was stored, and another member is undefined.  What the parser prints,
    and freeing the structures of a statement that is dropped, is not modelled. *)
From Stdlib Require Import String Ascii Floats.SpecFloat.
From S2P Require Import Prelude ReturnCode Effects Bitmap Memory KeyCompare Dates TableMeta ConditionFilter Table.
From S2P Require Import Values Expression Tuples Syntax Lexer ParserTables ParserGrammar.

#[local] Open Scope c_scope.
#[local] Open Scope Z_scope.

(** ** The statement that is built *)

Module Flag.
Definition SCF_ERROR : Z := 0.
Definition SCF_SELECT : Z := 1.
Definition SCF_INSERT : Z := 2.
Definition SCF_UPDATE : Z := 3.
Definition SCF_DELETE : Z := 4.
Definition SCF_CREATE_TABLE : Z := 5.
Definition SCF_DROP_TABLE : Z := 6.
Definition SCF_CREATE_INDEX : Z := 7.
Definition SCF_DROP_INDEX : Z := 8.
Definition SCF_SYNC : Z := 9.
Definition SCF_SHOW_TABLES : Z := 10.
Definition SCF_DESC_TABLE : Z := 11.
Definition SCF_BEGIN : Z := 12.
Definition SCF_COMMIT : Z := 13.
Definition SCF_ROLLBACK : Z := 14.
Definition SCF_LOAD_DATA : Z := 15.
Definition SCF_HELP : Z := 16.
Definition SCF_EXIT : Z := 17.
End Flag.

(** The union of the statements with the member that was stored last; [no_statement]: all bytes are zero. *)
Inductive Queries :=
| no_statement
| a_selection (x : Selects)
| an_insertion (x : Inserts)
| a_deletion (x : Deletes)
| an_update (x : Updates)
| a_create_table (x : CreateTable)
| a_drop_table (relation_name : string)
| a_create_index (x : CreateIndex)
| a_drop_index (index_name : string)
| a_desc_table (relation_name : string)
| a_load_data (x : LoadData).

(** The members whose counters are read before they are written: zero at first, and undefined after another statement. *)
Definition the_insertion (q : Queries) : res Inserts :=
  match q with no_statement => Ok {| in_relation := EmptyString; in_pairs := [] |} | an_insertion x => Ok x | _ => Ub end.
Definition the_create_table (q : Queries) : res CreateTable :=
  match q with no_statement => Ok {| ct_relation := EmptyString; ct_attributes := [] |} | a_create_table x => Ok x | _ => Ub end.
Definition the_create_index (q : Queries) : res CreateIndex :=
  match q with
  | no_statement => Ok {| ci_index := EmptyString; ci_unique := 0; ci_relation := EmptyString; ci_attributes := [] |}
  | a_create_index x => Ok x
  | _ => Ub
  end.

(** The statement that the flag and the union make. *)
Definition query_of (flag : Z) (sstr : Queries) : res Query :=
  match flag, sstr with
  | 0, _ => Ok SCF_ERROR
  | 1, a_selection x => Ok (SCF_SELECT x)
  | 2, an_insertion x => Ok (SCF_INSERT x)
  | 3, an_update x => Ok (SCF_UPDATE x)
  | 4, a_deletion x => Ok (SCF_DELETE x)
  | 5, a_create_table x => Ok (SCF_CREATE_TABLE x)
  | 6, a_drop_table x => Ok (SCF_DROP_TABLE x)
  | 7, a_create_index x => Ok (SCF_CREATE_INDEX x)
  | 8, a_drop_index x => Ok (SCF_DROP_INDEX x)
  | 9, _ => Ok SCF_SYNC
  | 10, _ => Ok SCF_SHOW_TABLES
  | 11, a_desc_table x => Ok (SCF_DESC_TABLE x)
  | 12, _ => Ok SCF_BEGIN
  | 13, _ => Ok SCF_COMMIT
  | 14, _ => Ok SCF_ROLLBACK
  | 15, a_load_data x => Ok (SCF_LOAD_DATA x)
  | 16, _ => Ok SCF_HELP
  | 17, _ => Ok SCF_EXIT
  | _, _ => Ub
  end.

(** ** The context *)

(** The entries of all arrays that are indexed by the nesting of queries.  A list of joins is as long as its counter. *)
Record Level := {
  lv_selects : Selects; lv_aggreType : AggreType; lv_joins : list Join;
  lv_join_conditions : list SqlCondition; lv_join_condition_length : Z;
  lv_conditions : list SqlCondition; lv_condition_length : Z; lv_comp : CompOp }.

Record ParserContext := {
  ssql_flag : Z; ssql_sstr : Queries; levels : list Level; select_length : Z;
  left_sub_select : Selects; right_sub_select : Selects; value_length : Z; values : list Value;
  insert_pair_num : Z; ctx_id : string; ctx_order : Z }.

Definition cleared_value : Value := {| v_type := UNDEFINED; v_isnull := false; v_data := [] |}.
Definition zero_attr : RelAttr := {| relation_name := None; attribute_name := None |}.

(** A condition whose bytes are all zero. *)
Definition zero_condition : SqlCondition :=
  {| plain_condition := {| left_is_attr := 0; left_value := cleared_value; left_attr := zero_attr; comp := EQUAL_TO;
                           right_is_attr := 0; right_value := cleared_value; right_attr := zero_attr |};
     left_ast := NullAst; right_ast := NullAst; left_selects := None; right_selects := None |}.

Definition zeros {A} (x : A) : list A := replicate (Z.to_nat MAX_NUM) x.

Definition zero_level : Level :=
  {| lv_selects := empty_selects; lv_aggreType := UNDEFINEDAGG; lv_joins := [];
     lv_join_conditions := zeros zero_condition; lv_join_condition_length := 0;
     lv_conditions := zeros zero_condition; lv_condition_length := 0; lv_comp := EQUAL_TO |}.

(** The context that [sql_parse] clears, with a statement that [query_create] has cleared. *)
Definition zero_context : ParserContext :=
  {| ssql_flag := Flag.SCF_ERROR; ssql_sstr := no_statement; levels := zeros zero_level; select_length := 0;
     left_sub_select := empty_selects; right_sub_select := empty_selects; value_length := 0; values := zeros cleared_value;
     insert_pair_num := 0; ctx_id := EmptyString; ctx_order := 0 |}.

Definition with_statement (flag : Z) (q : Queries) (x : ParserContext) : ParserContext :=
  {| ssql_flag := flag; ssql_sstr := q; levels := levels x; select_length := select_length x;
     left_sub_select := left_sub_select x; right_sub_select := right_sub_select x; value_length := value_length x; values := values x;
     insert_pair_num := insert_pair_num x; ctx_id := ctx_id x; ctx_order := ctx_order x |}.

Definition with_levels (l : list Level) (n : Z) (x : ParserContext) : ParserContext :=
  {| ssql_flag := ssql_flag x; ssql_sstr := ssql_sstr x; levels := l; select_length := n;
     left_sub_select := left_sub_select x; right_sub_select := right_sub_select x; value_length := value_length x; values := values x;
     insert_pair_num := insert_pair_num x; ctx_id := ctx_id x; ctx_order := ctx_order x |}.

Definition with_sub_selects (l r : Selects) (x : ParserContext) : ParserContext :=
  {| ssql_flag := ssql_flag x; ssql_sstr := ssql_sstr x; levels := levels x; select_length := select_length x;
     left_sub_select := l; right_sub_select := r; value_length := value_length x; values := values x;
     insert_pair_num := insert_pair_num x; ctx_id := ctx_id x; ctx_order := ctx_order x |}.

Definition with_values (n : Z) (l : list Value) (x : ParserContext) : ParserContext :=
  {| ssql_flag := ssql_flag x; ssql_sstr := ssql_sstr x; levels := levels x; select_length := select_length x;
     left_sub_select := left_sub_select x; right_sub_select := right_sub_select x; value_length := n; values := l;
     insert_pair_num := insert_pair_num x; ctx_id := ctx_id x; ctx_order := ctx_order x |}.

Definition with_rest (pair_num : Z) (id : string) (order : Z) (x : ParserContext) : ParserContext :=
  {| ssql_flag := ssql_flag x; ssql_sstr := ssql_sstr x; levels := levels x; select_length := select_length x;
     left_sub_select := left_sub_select x; right_sub_select := right_sub_select x; value_length := value_length x; values := values x;
     insert_pair_num := pair_num; ctx_id := id; ctx_order := order |}.

Abbreviation CtxM := (M ParserContext).

Definition in_array {A} (l : list A) (i : Z) : res unit := asserting ((0 <=? i) && (i <? alen l)).

(** [CONTEXT->...[i]], read and written. *)
Definition level_at (i : Z) : CtxM Level :=
  let! x := get in of_res (let? _ := in_array (levels x) i in non_null (levels x !! Z.to_nat i)).

Definition set_level (i : Z) (v : Level) : CtxM unit :=
  let! x := get in
  of_res (in_array (levels x) i) ;; modify (fun x => with_levels (aset (levels x) i v) (select_length x) x).

(** The index of the query that is being read. *)
Definition current_query : CtxM Z := let! x := get in ret (select_length x - 1).

Definition at_current (f : Level -> res Level) : CtxM unit :=
  let! i := current_query in
  let! v := level_at i in
  let! v' := of_res (f v) in
  set_level i v'.

Definition on_selects (f : Selects -> res Selects) (v : Level) : res Level :=
  let? s := f (lv_selects v) in
  Ok {| lv_selects := s; lv_aggreType := lv_aggreType v; lv_joins := lv_joins v; lv_join_conditions := lv_join_conditions v;
        lv_join_condition_length := lv_join_condition_length v; lv_conditions := lv_conditions v;
        lv_condition_length := lv_condition_length v; lv_comp := lv_comp v |}.

Definition with_aggreType (t : AggreType) (v : Level) : res Level :=
  Ok {| lv_selects := lv_selects v; lv_aggreType := t; lv_joins := lv_joins v; lv_join_conditions := lv_join_conditions v;
        lv_join_condition_length := lv_join_condition_length v; lv_conditions := lv_conditions v;
        lv_condition_length := lv_condition_length v; lv_comp := lv_comp v |}.

Definition with_comp (c : CompOp) (v : Level) : res Level :=
  Ok {| lv_selects := lv_selects v; lv_aggreType := lv_aggreType v; lv_joins := lv_joins v; lv_join_conditions := lv_join_conditions v;
        lv_join_condition_length := lv_join_condition_length v; lv_conditions := lv_conditions v;
        lv_condition_length := lv_condition_length v; lv_comp := c |}.

Definition with_lv_joins (l : list Join) (join_condition_length : Z) (v : Level) : Level :=
  {| lv_selects := lv_selects v; lv_aggreType := lv_aggreType v; lv_joins := l; lv_join_conditions := lv_join_conditions v;
     lv_join_condition_length := join_condition_length; lv_conditions := lv_conditions v;
     lv_condition_length := lv_condition_length v; lv_comp := lv_comp v |}.

Definition with_lv_join_conditions (l : list SqlCondition) (n m : Z) (v : Level) : Level :=
  {| lv_selects := lv_selects v; lv_aggreType := lv_aggreType v; lv_joins := lv_joins v; lv_join_conditions := l;
     lv_join_condition_length := n; lv_conditions := lv_conditions v;
     lv_condition_length := m; lv_comp := lv_comp v |}.

Definition with_lv_conditions (l : list SqlCondition) (n : Z) (v : Level) : Level :=
  {| lv_selects := lv_selects v; lv_aggreType := lv_aggreType v; lv_joins := lv_joins v; lv_join_conditions := lv_join_conditions v;
     lv_join_condition_length := lv_join_condition_length v; lv_conditions := l;
     lv_condition_length := n; lv_comp := lv_comp v |}.

(** [array[i] = x]. *)
Definition store {A} (l : list A) (i : Z) (x : A) : res (list A) := let? _ := in_array l i in Ok (aset l i x).

(** ** Helpers of the actions *)

(** The C string of a name. *)
Definition c_name (s : list Z) : string := string_of_list_ascii ((fun b => ascii_of_N (Z.to_N b)) <$> s).

(** [snprintf] into the buffer of [MAX_NUM] bytes for the name of a column. *)
Definition column_id (s : list Z) : string := c_name (take (Z.to_nat (MAX_NUM - 1)) s).

(** [substr(s, n1, n2)]. *)
Definition substr (s : list Z) (n1 n2 : Z) : list Z := take (Z.to_nat (n2 - n1 + 1)) (drop (Z.to_nat n1) s).

(** [yyvsp[-i]] with the member that is read. *)
Definition v_at (vs : list YYSTYPE) (i : nat) : res YYSTYPE := non_null (vs !! i).
Definition v_string (vs : list YYSTYPE) (i : nat) : res (list Z) :=
  let? v := v_at vs i in match v with string_value s => Ok s | _ => Ub end.
Definition v_name (vs : list YYSTYPE) (i : nat) : res string := let? s := v_string vs i in Ok (c_name s).
Definition v_number (vs : list YYSTYPE) (i : nat) : res Z :=
  let? v := v_at vs i in match v with number_value n => Ok n | _ => Ub end.
Definition v_floats (vs : list YYSTYPE) (i : nat) : res float :=
  let? v := v_at vs i in match v with float_value f => Ok f | _ => Ub end.
Definition v_value1 (vs : list YYSTYPE) (i : nat) : res Z :=
  let? v := v_at vs i in match v with value1_value p => Ok p | _ => Ub end.
Definition v_ast1 (vs : list YYSTYPE) (i : nat) : res ast :=
  let? v := v_at vs i in match v with ast1_value a => Ok a | _ => Ub end.

Definition set_statement (flag : Z) (q : Queries) : CtxM unit := modify (with_statement flag q).

(** The flag only. *)
Definition set_flag (flag : Z) : CtxM unit := modify (fun x => with_statement flag (ssql_sstr x) x).

Definition set_value_length (n : Z) : CtxM unit := modify (fun x => with_values n (values x) x).

(** [values[i] = v]. *)
Definition store_value (i : Z) (v : Value) : CtxM unit :=
  let! x := get in
  let! l := of_res (store (values x) i v) in
  modify (with_values (value_length x) l).

(** [value_init_...(&values[value_length++], ...); $$ = &values[value_length - 1]]. *)
Definition push_value (v : res Value) : CtxM YYSTYPE :=
  let! v := of_res v in
  let! x := get in
  store_value (value_length x) v ;;
  set_value_length (value_length x + 1) ;;
  ret (value1_value (value_length x)).

Definition append_attr_info (type : res Z) (length : res Z) (nullable : Z) : CtxM unit :=
  let! type := of_res type in
  let! length := of_res length in
  let! x := get in
  let! t := of_res (the_create_table (ssql_sstr x)) in
  let! t := of_res (create_table_append_attribute t (attr_info_init (ctx_id x) (attr_of_code type) length nullable)) in
  set_statement (ssql_flag x) (a_create_table t) ;;
  set_value_length (value_length x + 1).

Definition append_index_attribute (name : res string) : CtxM unit :=
  let! name := of_res name in
  let! x := get in
  let! i := of_res (the_create_index (ssql_sstr x)) in
  let! i := of_res (create_index_append_attribute i name) in
  set_statement (ssql_flag x) (a_create_index i).

Definition init_index (unique : Z) (index_name relation_name : res string) : CtxM unit :=
  let! index_name := of_res index_name in
  let! relation_name := of_res relation_name in
  set_flag Flag.SCF_CREATE_INDEX ;;
  let! x := get in
  let! i := of_res (the_create_index (ssql_sstr x)) in
  set_statement Flag.SCF_CREATE_INDEX (a_create_index (create_index_init i unique index_name relation_name)).

Definition append_values : CtxM unit :=
  let! x := get in
  let! i := of_res (the_insertion (ssql_sstr x)) in
  let! i := of_res (inserts_append_values i (insert_pair_num x) (take (Z.to_nat (value_length x)) (values x))) in
  set_statement (ssql_flag x) (an_insertion i) ;;
  modify (fun x => with_rest (insert_pair_num x + 1) (ctx_id x) (ctx_order x) x) ;;
  set_value_length 0.

Definition end_insert (relation_name : res string) : CtxM unit :=
  let! relation_name := of_res relation_name in
  let! x := get in
  let! i := of_res (the_insertion (ssql_sstr x)) in
  set_statement Flag.SCF_INSERT (an_insertion (inserts_init i relation_name)) ;;
  modify (fun x => with_rest 0 (ctx_id x) (ctx_order x) x) ;;
  set_value_length 0.

(** The conditions of DELETE and UPDATE are those of level 0. *)
Definition take_conditions : CtxM (list SqlCondition) :=
  let! v := level_at 0 in
  set_level 0 (with_lv_conditions (lv_conditions v) 0 v) ;;
  ret (take (Z.to_nat (lv_condition_length v)) (lv_conditions v)).

Definition end_delete (relation_name : res string) : CtxM unit :=
  let! relation_name := of_res relation_name in
  let! l := take_conditions in
  let! d := of_res (deletes_set_conditions {| de_relation := relation_name; de_conditions := [] |} l) in
  set_statement Flag.SCF_DELETE (a_deletion d).

Definition end_update (relation_name attribute_name : res string) (a : res ast) : CtxM unit :=
  let! relation_name := of_res relation_name in
  let! attribute_name := of_res attribute_name in
  let! a := of_res a in
  let! v := of_res (context_value_init a) in
  store_value 0 v ;;
  let! l := take_conditions in
  let! u := of_res (updates_init relation_name attribute_name v l) in
  set_statement Flag.SCF_UPDATE (an_update u).

Definition begin_statement : CtxM unit := modify (fun x => with_levels (levels x) (select_length x + 1) x).

Definition begin_select : CtxM unit := begin_statement ;; at_current (on_selects (fun s => Ok (clear_selects s))).

Definition end_select (relation_name : res string) : CtxM unit :=
  let! relation_name := of_res relation_name in
  let! i := current_query in
  let! v := level_at i in
  let! s := of_res (selects_append_relation (lv_selects v) relation_name) in
  let! s := of_res (selects_append_conditions s (take (Z.to_nat (lv_condition_length v)) (lv_conditions v))) in
  let! s := of_res (selects_append_joins s (lv_joins v)) in
  at_current (on_selects (fun _ => Ok s)) ;;
  set_statement Flag.SCF_SELECT (a_selection s) ;;
  at_current (fun v => Ok (with_lv_conditions (lv_conditions v) 0 (with_lv_joins [] (lv_join_condition_length v) v))) ;;
  set_value_length 0 ;;
  modify (fun x => with_levels (levels x) (select_length x - 1) x).

Definition append_attribute (attr : res RelAttr) : CtxM unit :=
  let! attr := of_res attr in at_current (on_selects (fun s => selects_append_attribute s attr)).

Definition append_expression (a : res ast) : CtxM unit :=
  let! a := of_res a in at_current (on_selects (fun s => selects_append_attribute_expression s a)).

Definition append_relation (name : res string) : CtxM unit :=
  let! name := of_res name in at_current (on_selects (fun s => selects_append_relation s name)).

Definition append_order (attr : res RelAttr) : CtxM unit :=
  let! attr := of_res attr in
  let! x := get in at_current (on_selects (fun s => selects_append_order s attr (ctx_order x))).

Definition append_group (attr : res RelAttr) : CtxM unit :=
  let! attr := of_res attr in at_current (on_selects (fun s => selects_append_group s attr)).

(** [relation_attr_init] with the names on the stack. *)
Definition plain_attr (name : res string) : res RelAttr := let? name := name in Ok (relation_attr_init None name).
Definition table_attr (table name : res string) : res RelAttr :=
  let? table := table in let? name := name in Ok (relation_attr_init (Some table) name).

Definition set_comp (c : CompOp) : CtxM unit := at_current (with_comp c).
Definition set_aggreType (t : AggreType) : CtxM unit := at_current (with_aggreType t).
Definition set_order (order : Z) : CtxM unit := modify (fun x => with_rest (insert_pair_num x) (ctx_id x) order x).

Definition append_join (name : res string) : CtxM unit :=
  let! name := of_res name in
  at_current (fun v =>
    let? j := join_init INNER_JOIN name (take (Z.to_nat (lv_join_condition_length v)) (lv_join_conditions v)) in
    let? l := array_push (lv_joins v) j in
    Ok (with_lv_joins l 0 v)).

(** The condition of a rule; a side is an expression, or else the sub-query that was read last on this side. *)
Definition make_condition (old : Condition) (left right : option (res ast)) : CtxM SqlCondition :=
  let! i := current_query in
  let! v := level_at i in
  let! x := get in
  let side e := match e with Some a => a | None => Ok NullAst end in
  let! l := of_res (side left) in
  let! r := of_res (side right) in
  of_res (sql_condition_init old (lv_comp v) l r
            (match left with Some _ => None | None => Some (left_sub_select x) end)
            (match right with Some _ => None | None => Some (right_sub_select x) end)).

Definition append_condition (old : Condition) (left right : option (res ast)) : CtxM unit :=
  let! c := make_condition old left right in
  at_current (fun v =>
    let? l := store (lv_conditions v) (lv_condition_length v) c in
    Ok (with_lv_conditions l (lv_condition_length v + 1) v)).

(** A join condition with a sub-query is stored at, and counted as, a condition of WHERE. *)
Definition append_join_condition (old : Condition) (left right : option (res ast)) : CtxM unit :=
  let! c := make_condition old left right in
  at_current (fun v =>
    match left, right with
    | Some _, Some _ =>
        let? l := store (lv_join_conditions v) (lv_join_condition_length v) c in
        Ok (with_lv_join_conditions l (lv_join_condition_length v + 1) (lv_condition_length v) v)
    | _, _ =>
        let? l := store (lv_join_conditions v) (lv_condition_length v) c in
        Ok (with_lv_join_conditions l (lv_join_condition_length v) (lv_condition_length v + 1) v)
    end).

(** [left_sub_select = selects[select_length]], or the right one. *)
Definition keep_sub_select (left : bool) : CtxM unit :=
  let! x := get in
  let! v := level_at (select_length x) in
  modify (fun x => if left then with_sub_selects (lv_selects v) (right_sub_select x) x
                   else with_sub_selects (left_sub_select x) (lv_selects v) x).

(** The braces around an expression are counted in the node. *)
Definition add_braces (a : ast) : res ast :=
  match a with
  | NullAst => Ub
  | OpNode t l r x y => Ok (OpNode t (l + 1) (r + 1) x y)
  | ValNode l r v => Ok (ValNode (l + 1) (r + 1) v)
  | AttrNode l r attr => Ok (AttrNode (l + 1) (r + 1) attr)
  end.

Definition binary (op : BinaryNode) (vs : list YYSTYPE) : CtxM YYSTYPE :=
  let! l := of_res (v_ast1 vs 2) in let! r := of_res (v_ast1 vs 0) in ret (ast1_value (newast op l r)).

Definition attr_node (attr : res RelAttr) : CtxM YYSTYPE := let! attr := of_res attr in ret (ast1_value (newattrNode attr)).

(** ** The actions

    A handler per part of the grammar: the number of the rule, the values on the stack with the top first, [$$ = $1] before
    the action; it returns [$$]. *)

Definition command_action (yyn : Z) (vs : list YYSTYPE) (yyval : YYSTYPE) : CtxM YYSTYPE :=
  match yyn with
  | 21 => set_flag Flag.SCF_EXIT
  | 22 => set_flag Flag.SCF_HELP
  | 23 => set_flag Flag.SCF_SYNC
  | 24 => set_flag Flag.SCF_BEGIN
  | 25 => set_flag Flag.SCF_COMMIT
  | 26 => set_flag Flag.SCF_ROLLBACK
  | 27 => let! name := of_res (v_name vs 1) in set_statement Flag.SCF_DROP_TABLE (a_drop_table name)
  | 28 => set_flag Flag.SCF_SHOW_TABLES
  | 29 => let! name := of_res (v_name vs 1) in set_statement Flag.SCF_DESC_TABLE (a_desc_table name)
  | _ => ret tt
  end ;;
  ret yyval.

Definition create_action (yyn : Z) (vs : list YYSTYPE) (yyval : YYSTYPE) : CtxM YYSTYPE :=
  match yyn with
  | 30 => init_index 0 (v_name vs 7) (v_name vs 5) ;; append_index_attribute (v_name vs 3) ;; ret yyval
  | 31 => init_index 1 (v_name vs 6) (v_name vs 4) ;; append_index_attribute (v_name vs 2) ;; ret yyval
  | 33 => append_index_attribute (v_name vs 1) ;; ret yyval
  | 34 => let! name := of_res (v_name vs 1) in set_statement Flag.SCF_DROP_INDEX (a_drop_index name) ;; ret yyval
  | 35 =>
      let! name := of_res (v_name vs 5) in
      set_flag Flag.SCF_CREATE_TABLE ;;
      let! x := get in
      let! t := of_res (the_create_table (ssql_sstr x)) in
      set_statement Flag.SCF_CREATE_TABLE (a_create_table {| ct_relation := name; ct_attributes := ct_attributes t |}) ;;
      set_value_length 0 ;; ret yyval
  | 38 => append_attr_info (v_number vs 3) (v_number vs 1) 0 ;; ret yyval
  | 39 => append_attr_info (v_number vs 0) (Ok 4) 0 ;; ret yyval
  | 40 => append_attr_info (v_number vs 2) (Ok 4) 0 ;; ret yyval
  | 41 => append_attr_info (v_number vs 1) (Ok 4) 1 ;; ret yyval
  | 42 => let! n := of_res (v_number vs 0) in ret (number_value n)
  | 43 => ret (number_value (attr_code INTS))
  | 44 => ret (number_value (attr_code CHARS))
  | 45 => ret (number_value (attr_code FLOATS))
  | 46 => ret (number_value (attr_code DATES))
  | 47 => ret (number_value (attr_code TEXTS))
  | 48 =>
      let! s := of_res (v_string vs 0) in
      modify (fun x => with_rest (insert_pair_num x) (column_id s) (ctx_order x) x) ;; ret yyval
  | _ => ret yyval
  end.

Definition value_action (yyn : Z) (vs : list YYSTYPE) (yyval : YYSTYPE) : CtxM YYSTYPE :=
  match yyn with
  | 49 => end_insert (v_name vs 7) ;; ret yyval
  | 50 =>
      let! a := of_res (v_ast1 vs 0) in
      let! v := of_res (context_value_init a) in
      let! x := get in store_value (value_length x - 1) v ;; ret yyval
  | 51 => append_values ;; ret yyval
  | 55 => push_value (let? n := v_number vs 0 in Ok (value_init_integer n))
  | 56 => push_value (let? f := v_floats vs 0 in Ok (value_init_float f))
  | 57 => push_value (let? s := v_string vs 0 in value_init_string (substr s 1 (alen s - 2) ++ [0]))
  | 58 => push_value (Ok value_init_null)
  | _ => ret yyval
  end.

Definition exp_action (yyn : Z) (vs : list YYSTYPE) (yyval : YYSTYPE) : CtxM YYSTYPE :=
  match yyn with
  | 59 => binary ADDN vs
  | 60 => let! r := of_res (v_ast1 vs 0) in ret (ast1_value (newast SUBN NullAst r))
  | 61 => binary SUBN vs
  | 62 => binary MULN vs
  | 63 => binary DIVN vs
  | 64 => let! a := of_res (v_ast1 vs 1) in let! a := of_res (add_braces a) in ret (ast1_value a)
  | 65 =>
      let! i := of_res (v_value1 vs 0) in
      let! x := get in
      of_res (in_array (values x) i) ;;
      let! v := of_res (non_null (values x !! Z.to_nat i)) in ret (ast1_value (newvalNode v))
  | 66 => attr_node (plain_attr (v_name vs 0))
  | 67 => attr_node (table_attr (v_name vs 2) (v_name vs 0))
  | 68 => attr_node (table_attr (v_name vs 2) (Ok "*"%string))
  | _ => ret yyval
  end.

(** The members of a local variable that an action does not set are the bytes that were there: any, for every position of
    the scanner. *)
Section Actions.
Variable local_condition : Z -> Condition.
Variable local_aggregate : Z -> Aggregate.
Variable place : Z.

Definition append_aggregate (f : Aggregate -> AggreType -> res Aggregate) : CtxM unit :=
  at_current (fun v =>
    let? a := f (local_aggregate place) (lv_aggreType v) in on_selects (fun s => selects_append_aggregate s a) v).

Definition query_action (yyn : Z) (vs : list YYSTYPE) (yyval : YYSTYPE) : CtxM YYSTYPE :=
  match yyn with
  | 69 | 71 => begin_statement
  | 70 => end_delete (v_name vs 2)
  | 72 => end_update (v_name vs 6) (v_name vs 4) (v_ast1 vs 2)
  | 73 => begin_select
  | 76 => end_select (v_name vs 6)
  | 77 => append_attribute (plain_attr (Ok "*"%string))
  | 78 | 81 => append_expression (v_ast1 vs 1)
  | 83 => let! a := of_res (v_ast1 vs 1) in append_aggregate (fun old t => relation_aggre_init_with_exp old t a)
  | 84 => append_aggregate (fun old t => Ok (relation_aggre_init old t 1 None "*" cleared_value))
  | 85 => set_aggreType MAXS
  | 86 => set_aggreType MINS
  | 87 => set_aggreType AVGS
  | 88 => set_aggreType SUMS
  | 89 => set_aggreType COUNTS
  | 91 => append_relation (v_name vs 1)
  | _ => ret tt
  end ;;
  ret yyval.

Definition condition_action (yyn : Z) (vs : list YYSTYPE) (yyval : YYSTYPE) : CtxM YYSTYPE :=
  match yyn with
  | 92 => append_join (v_name vs 3)
  | 97 => append_join_condition (local_condition place) (Some (v_ast1 vs 2)) (Some (v_ast1 vs 0))
  | 98 => append_join_condition (local_condition place) (Some (v_ast1 vs 2)) None
  | 99 => append_join_condition (local_condition place) None (Some (v_ast1 vs 0))
  | 100 => append_join_condition (local_condition place) None None
  | 105 => append_condition (local_condition place) (Some (v_ast1 vs 2)) (Some (v_ast1 vs 0))
  | 106 => append_condition (local_condition place) (Some (v_ast1 vs 2)) None
  | 107 => append_condition (local_condition place) None (Some (v_ast1 vs 0))
  | 108 => append_condition (local_condition place) None None
  | 109 => keep_sub_select true
  | 110 => keep_sub_select false
  | _ => ret tt
  end ;;
  ret yyval.

Definition comp_action (yyn : Z) (yyval : YYSTYPE) : CtxM YYSTYPE :=
  match yyn with
  | 111 => set_comp EQUAL_TO
  | 112 => set_comp LESS_THAN
  | 113 => set_comp GREAT_THAN
  | 114 => set_comp LESS_EQUAL
  | 115 => set_comp GREAT_EQUAL
  | 116 => set_comp NOT_EQUAL
  | 117 => set_comp IS
  | 118 => set_comp IS_NOT
  | 119 => set_comp IN_OP
  | 120 => set_comp NOT_IN_OP
  | _ => ret tt
  end ;;
  ret yyval.

Definition order_action (yyn : Z) (vs : list YYSTYPE) (yyval : YYSTYPE) : CtxM YYSTYPE :=
  match yyn with
  | 123 => append_order (plain_attr (v_name vs 1))
  | 124 => append_order (table_attr (v_name vs 3) (v_name vs 1))
  | 125 | 126 => set_order 0
  | 127 => set_order 1
  | 132 => append_group (plain_attr (v_name vs 0))
  | 133 => append_group (table_attr (v_name vs 2) (v_name vs 0))
  | 136 =>
      let! name := of_res (v_name vs 1) in
      let! s := of_res (v_string vs 4) in
      let! d := of_res (load_data_init name s) in
      set_statement Flag.SCF_LOAD_DATA (a_load_data d)
  | _ => ret tt
  end ;;
  ret yyval.

(** The switch over the rules. *)
Definition semantic_action (yyn : Z) (vs : list YYSTYPE) (yyval : YYSTYPE) : CtxM YYSTYPE :=
  if yyn <=? 29 then command_action yyn vs yyval
  else if yyn <=? 48 then create_action yyn vs yyval
  else if yyn <=? 58 then value_action yyn vs yyval
  else if yyn <=? 68 then exp_action yyn vs yyval
  else if yyn <=? 91 then query_action yyn vs yyval
  else if yyn <=? 110 then condition_action yyn vs yyval
  else if yyn <=? 120 then comp_action yyn yyval
  else order_action yyn vs yyval.

End Actions.

(** ** The automaton *)

Definition YYEMPTY : Z := -2.
Definition YYEOF : Z := 0.
Definition YYerror : Z := 256.
Definition YYUNDEF : Z := 257.
Definition YYINITDEPTH : Z := 200.
Definition YYMAXDEPTH : Z := 10000.

(** The variables of [yyparse]; the stacks have their top first, and the value below the first state is not there. *)
Record yyparser := {
  extra : ParserContext; scanner : yyguts_t; yyss : list Z; yyvs : list YYSTYPE; yychar : Z; yylval : YYSTYPE;
  yystacksize : Z; yyerrstatus : Z }.

Definition with_extra (x : ParserContext) (p : yyparser) : yyparser :=
  {| extra := x; scanner := scanner p; yyss := yyss p; yyvs := yyvs p; yychar := yychar p; yylval := yylval p;
     yystacksize := yystacksize p; yyerrstatus := yyerrstatus p |}.
Definition with_token (g : yyguts_t) (t : Z) (v : YYSTYPE) (p : yyparser) : yyparser :=
  {| extra := extra p; scanner := g; yyss := yyss p; yyvs := yyvs p; yychar := t; yylval := v;
     yystacksize := yystacksize p; yyerrstatus := yyerrstatus p |}.
Definition with_stacks (ss : list Z) (vs : list YYSTYPE) (p : yyparser) : yyparser :=
  {| extra := extra p; scanner := scanner p; yyss := ss; yyvs := vs; yychar := yychar p; yylval := yylval p;
     yystacksize := yystacksize p; yyerrstatus := yyerrstatus p |}.
Definition with_stacksize (n : Z) (p : yyparser) : yyparser :=
  {| extra := extra p; scanner := scanner p; yyss := yyss p; yyvs := yyvs p; yychar := yychar p; yylval := yylval p;
     yystacksize := n; yyerrstatus := yyerrstatus p |}.
Definition with_errstatus (n : Z) (p : yyparser) : yyparser :=
  {| extra := extra p; scanner := scanner p; yyss := yyss p; yyvs := yyvs p; yychar := yychar p; yylval := yylval p;
     yystacksize := yystacksize p; yyerrstatus := n |}.

Definition YYTRANSLATE (yyx : Z) : Z := if (0 <=? yyx) && (yyx <=? YYMAXUTOK) then aget yytranslate yyx else YYSYMBOL_YYUNDEF.

Abbreviation ParseM := (M yyparser).

(** The state on the top of the stack. *)
Definition top : ParseM Z := let! p := get in of_res (non_null (head (yyss p))).

Definition push_state (state : Z) (v : YYSTYPE) : ParseM unit := modify (fun p => with_stacks (state :: yyss p) (v :: yyvs p) p).

Definition set_lookahead (t : Z) : ParseM unit := modify (fun p => with_token (scanner p) t (yylval p) p).

(** [yychar = yylex(&yylval, scanner)]; a token without a value leaves [yylval] as it is. *)
Definition read_token : ParseM unit :=
  let! p := get in
  match yylex (scanner p) with
  | (Ok (t, v), g) => modify (with_token g t (match v with no_value => yylval p | _ => v end))
  | (Err rc, g) => modify (with_token g (yychar p) (yylval p)) ;; of_res (Err rc)
  | (Ub, g) => modify (with_token g (yychar p) (yylval p)) ;; undefined
  | (OutOfFuel, g) => modify (with_token g (yychar p) (yylval p)) ;; no_fuel
  end.

(** [yyerror]: the statement is an error; the counters are cleared. *)
Definition yyerror (x : ParserContext) : ParserContext :=
  let levels := match levels x with v :: rest => with_lv_conditions (lv_conditions v) 0 v :: rest | [] => [] end in
  with_statement Flag.SCF_ERROR no_statement (with_values 0 (values x) (with_levels levels 0 x)).

(** What a step of the automaton comes to: [None] goes on at [yynewstate]. *)
Definition YYACCEPT : ParseM (option Z) := ret (Some 0).
Definition YYABORT : ParseM (option Z) := ret (Some 1).
Definition yyexhaustedlab : ParseM (option Z) := modify (fun p => with_extra (yyerror (extra p)) p) ;; ret (Some 2).

(** The stacks after popping up to a state that shifts the error token, and that state; [None] when there is none. *)
Definition shifts_error (yystate : Z) : option Z :=
  let yyn := aget yypact yystate in
  if yyn =? YYPACT_NINF then None
  else
    let yyn := yyn + YYSYMBOL_YYerror in
    if (0 <=? yyn) && (yyn <=? YYLAST) && (aget yycheck yyn =? YYSYMBOL_YYerror) && (0 <? aget yytable yyn)
    then Some (aget yytable yyn) else None.

Fixpoint pop_to_error (ss : list Z) (vs : list YYSTYPE) : option (list Z * list YYSTYPE * Z) :=
  match ss with
  | [] => None
  | yystate :: below =>
      match shifts_error yystate with Some next => Some (ss, vs, next) | None => pop_to_error below (drop 1 vs) end
  end.

Definition yyerrlab1 : ParseM (option Z) :=
  modify (with_errstatus 3) ;;
  let! p := get in
  match pop_to_error (yyss p) (yyvs p) with
  | Some (ss, vs, next) => modify (with_stacks ss vs) ;; push_state next (yylval p) ;; ret None
  | None => YYABORT
  end.

Definition yyerrlab : ParseM (option Z) :=
  let! p := get in
  (if yyerrstatus p =? 0 then modify (fun p => with_extra (yyerror (extra p)) p) else ret tt) ;;
  if (yyerrstatus p =? 3) && (yychar p =? YYEOF) then YYABORT
  else
    (if (yyerrstatus p =? 3) && (YYEOF <? yychar p) then set_lookahead YYEMPTY else ret tt) ;;
    yyerrlab1.

Section Automaton.
Variable local_condition : Z -> Condition.
Variable local_aggregate : Z -> Aggregate.

Definition run_action (yyn : Z) (vs : list YYSTYPE) (yyval : YYSTYPE) : ParseM YYSTYPE :=
  fun p =>
    match semantic_action local_condition local_aggregate (yy_c_buf_p (scanner p)) yyn vs yyval (extra p) with
    | (r, x) => (r, with_extra x p)
    end.

(** The state after the symbol of rule [yyn] in state [s]. *)
Definition goto_state (yyn s : Z) : Z :=
  let yylhs := aget yyr1 yyn - YYNTOKENS in
  let yyi := aget yypgoto yylhs + s in
  if (0 <=? yyi) && (yyi <=? YYLAST) && (aget yycheck yyi =? s) then aget yytable yyi else aget yydefgoto yylhs.

Definition yyreduce (yyn : Z) : ParseM (option Z) :=
  let yylen := aget yyr2 yyn in
  let! p := get in
  let! yyval := (if yylen =? 0 then ret no_value else of_res (v_at (yyvs p) (Z.to_nat (yylen - 1)))) in
  let! yyval := run_action yyn (yyvs p) yyval in
  modify (fun p => with_stacks (drop (Z.to_nat yylen) (yyss p)) (drop (Z.to_nat yylen) (yyvs p)) p) ;;
  let! s := top in
  push_state (goto_state yyn s) yyval ;;
  ret None.

Definition yydefault (yystate : Z) : ParseM (option Z) :=
  let yyn := aget yydefact yystate in if yyn =? 0 then yyerrlab else yyreduce yyn.

Definition shift (yystate : Z) : ParseM (option Z) :=
  let! p := get in
  (if yyerrstatus p =? 0 then ret tt else modify (with_errstatus (yyerrstatus p - 1))) ;;
  push_state yystate (yylval p) ;;
  set_lookahead YYEMPTY ;;
  ret None.

Definition on_token (yystate yyn yytoken : Z) : ParseM (option Z) :=
  let yyn := yyn + yytoken in
  if (yyn <? 0) || (YYLAST <? yyn) || negb (aget yycheck yyn =? yytoken) then yydefault yystate
  else
    let yyn := aget yytable yyn in
    if yyn <=? 0 then yyreduce (- yyn) else shift yyn.

Definition yybackup (yystate : Z) : ParseM (option Z) :=
  let yyn := aget yypact yystate in
  if yyn =? YYPACT_NINF then yydefault yystate
  else
    let! p := get in
    (if yychar p =? YYEMPTY then read_token else ret tt) ;;
    let! p := get in
    if yychar p <=? YYEOF then set_lookahead YYEOF ;; on_token yystate yyn YYSYMBOL_YYEOF
    else if yychar p =? YYerror then set_lookahead YYUNDEF ;; yyerrlab1
    else on_token yystate yyn (YYTRANSLATE (yychar p)).

(** From [yysetstate] to the next [yynewstate]. *)
Definition yysetstate : ParseM (option Z) :=
  let! p := get in
  let! yystate := top in
  let size := alen (yyss p) in
  let go_on := if yystate =? YYFINAL then YYACCEPT else yybackup yystate in
  if yystacksize p <=? size then
    if YYMAXDEPTH <=? yystacksize p then yyexhaustedlab
    else
      let n := Z.min YYMAXDEPTH (yystacksize p * 2) in
      modify (with_stacksize n) ;; if n <=? size then YYABORT else go_on
  else go_on.

Fixpoint yyparse_from (fuel : nat) : ParseM Z :=
  match fuel with
  | O => no_fuel
  | S fuel =>
      let! r := yysetstate in
      match r with Some yyresult => ret yyresult | None => yyparse_from fuel end
  end.

(** [yyparse] at its start. *)
Definition yyparse_start (x : ParserContext) (g : yyguts_t) : yyparser :=
  {| extra := x; scanner := g; yyss := [0]; yyvs := []; yychar := YYEMPTY; yylval := no_value; yystacksize := YYINITDEPTH;
     yyerrstatus := 0 |}.

(** A byte is at most a token, and a token costs at most fourteen steps. *)
Definition steps_for (s : list Z) : nat := 14 * (length s + 2).

(** [sql_parse] on a string in memory, with a cleared statement: the result of [yyparse], and the statement. *)
Definition sql_parse (s : list Z) : res (Z * ParserContext) :=
  match scan_string s yy_init_globals with
  | (Ok _, g) =>
      match yyparse_from (steps_for s) (yyparse_start zero_context g) with
      | (Ok yyresult, p) => Ok (yyresult, extra p)
      | (Err rc, _) => Err rc
      | (Ub, _) => Ub
      | (OutOfFuel, _) => OutOfFuel
      end
  | (Err rc, _) => Err rc
  | (Ub, _) => Ub
  | (OutOfFuel, _) => OutOfFuel
  end.

(** [parse]: the result of [yyparse] is dropped. *)
Definition parse (s : list Z) : res Query :=
  let? (_, x) := sql_parse s in
  if ssql_flag x =? Flag.SCF_ERROR then Err SQL_SYNTAX else query_of (ssql_flag x) (ssql_sstr x).

End Automaton.
