(* ===== verification/ParserCertificate.v ===== *)
(** * The certificate of the automaton (sql/parser/yacc_sql.tab.c)

    Facts about the tables that one computation over all states and tokens shows.  [preds] lists for every state the states that may
    lie under it on the stack, which bison had in its hands and did not write down; [heights] bounds the reductions that a state can
    still cause before the next token is shifted. *)
From S2P Require Import Prelude Parser ParserTables ParserGrammar.

Definition preds : list (list Z) :=
  [[]; [0]; [1]; [1]; [1]; [1; 128; 185]; [1]; [1]; [1]; [1]; [1]; [1]; [1]; [1]; [1]; [1]; [1]; [1]; [1]; [1]; [1];
    [1]; [1]; [1]; [1]; [1]; [1]; [1]; [1]; [1]; [1]; [1]; [1]; [1]; [1]; [1]; [1; 128; 185]; [1]; [1]; [1]; [3];
    [3]; [3]; [4]; [4]; [6]; [7]; [8]; [9]; [12]; [13]; [14]; [15]; [16]; [17]; [32]; [34];
    [36; 57; 64; 90; 91; 92; 93; 94; 98; 126; 128; 133; 179; 185; 228]; [36; 90]; [36; 90]; [36; 90]; [36; 90];
    [36; 90];
    [36; 57; 64; 90; 91; 92; 93; 94; 98; 106; 126; 128; 133; 163; 164; 166; 179; 185; 221; 228; 238; 239; 241];
    [36; 57; 64; 90; 91; 92; 93; 94; 98; 106; 126; 128; 133; 163; 164; 166; 179; 185; 221; 228; 238; 239; 241]; [36];
    [36; 57; 64; 90; 91; 92; 93; 94; 98; 106; 126; 128; 133; 163; 164; 166; 179; 185; 221; 228; 238; 239; 241];
    [36; 57; 64; 90; 91; 92; 93; 94; 98; 106; 126; 128; 133; 163; 164; 166; 179; 185; 221; 228; 238; 239; 241];
    [36; 57; 64; 90; 91; 92; 93; 94; 98; 106; 126; 128; 133; 163; 164; 166; 179; 185; 221; 228; 238; 239; 241];
    [36; 57; 64; 90; 91; 92; 93; 94; 98; 106; 126; 128; 133; 163; 164; 166; 179; 185; 221; 228; 238; 239; 241];
    [36; 57; 64; 90; 91; 92; 93; 94; 98; 106; 126; 128; 133; 163; 164; 166; 179; 185; 221; 228; 238; 239; 241]; [36];
    [36]; [36]; [36; 90]; [38]; [40]; [41]; [42]; [43]; [44]; [45]; [46]; [48]; [54]; [55]; [56]; [57; 128; 185];
    [64]; [68]; [71; 73; 112; 113]; [71; 87; 112; 120; 129; 151; 167; 186; 189; 230; 248; 251];
    [71; 87; 112; 120; 129; 151; 167; 186; 189; 230; 248; 251];
    [71; 87; 88; 112; 114; 115; 120; 129; 151; 167; 186; 189; 230; 248; 251];
    [71; 87; 88; 112; 114; 115; 120; 129; 151; 167; 186; 189; 230; 248; 251]; [71]; [72]; [73]; [74]; [76]; [77];
    [78]; [79]; [80]; [83]; [84]; [85; 167; 171]; [85]; [86]; [87]; [89]; [89]; [90]; [90]; [91]; [92]; [93]; [94];
    [96]; [98]; [98]; [99; 140]; [99]; [99; 140]; [100]; [101]; [104]; [105]; [106; 164; 221; 239]; [106; 164];
    [106]; [106; 164]; [107]; [108]; [112]; [113]; [118; 168]; [118]; [119]; [120]; [122; 172]; [122]; [123]; [123];
    [123]; [123]; [123]; [123]; [124]; [125]; [126]; [126; 179; 228]; [127]; [128]; [129; 131; 230; 232];
    [129; 131; 230; 232]; [129; 131; 230; 232]; [129; 131; 230; 232]; [129; 131; 230; 232]; [129; 131; 230; 232];
    [129; 131; 230; 232]; [129; 131; 230; 232]; [129; 131; 230; 232]; [129]; [130; 188]; [130]; [131]; [133]; [136];
    [137; 170]; [137; 170]; [137]; [140]; [141]; [147]; [147]; [147]; [148]; [149]; [150; 204; 237]; [150]; [152];
    [153]; [160]; [161]; [163; 166; 238; 241]; [163]; [163]; [164]; [166]; [166]; [167]; [168]; [169]; [170]; [171];
    [172]; [173]; [174]; [174]; [175]; [177]; [178; 215]; [178]; [179]; [180]; [181]; [185]; [188]; [191]; [193];
    [195]; [195]; [199]; [201]; [202]; [203]; [204]; [205; 261]; [205]; [207]; [210]; [211]; [212]; [212]; [214];
    [215]; [216]; [218]; [219]; [221; 239]; [221]; [221; 239]; [222; 243]; [222]; [223]; [224]; [228]; [230];
    [231; 250]; [231]; [232]; [233]; [234; 254]; [234]; [235; 259]; [235]; [237]; [238]; [238]; [239]; [241]; [241];
    [242]; [243]; [245; 264]; [245]; [245; 264]; [245]; [246; 265]; [246]; [247]; [250]; [254]; [256]; [259]; [261];
    [264]; [265]].

Definition heights : list Z :=
  [2; 0; 0; 0; 0; 1; 0; 0; 0; 0; 1; 1; 0; 0; 0; 0; 0; 0; 0; 1; 1; 1; 1; 1; 1; 1; 1; 1; 1; 1; 1; 1; 0; 1; 0; 1; 0; 1;
    0; 1; 0; 0; 0; 0; 0; 0; 0; 1; 0; 1; 1; 1; 1; 1; 0; 0; 0; 0; 1; 1; 1; 1; 1; 9; 0; 1; 9; 9; 8; 9; 8; 2; 0; 2; 0; 1;
    0; 0; 0; 0; 0; 0; 0; 0; 0; 2; 0; 0; 7; 0; 0; 0; 0; 0; 0; 0; 0; 0; 0; 0; 0; 0; 0; 0; 0; 0; 0; 0; 0; 6; 6; 6; 2; 2;
    6; 6; 6; 6; 12; 0; 0; 1; 2; 0; 0; 0; 0; 0; 0; 0; 7; 0; 0; 0; 0; 0; 0; 10; 0; 0; 0; 0; 3; 3; 3; 3; 3; 2; 0; 0; 2;
    3; 0; 0; 1; 1; 1; 1; 1; 1; 0; 1; 1; 0; 0; 5; 0; 2; 11; 0; 10; 8; 2; 0; 0; 0; 1; 0; 2; 0; 0; 0; 0; 0; 0; 0; 6; 6;
    6; 6; 6; 0; 9; 0; 8; 6; 0; 0; 1; 0; 0; 0; 0; 0; 2; 2; 0; 0; 4; 0; 0; 0; 4; 0; 0; 2; 0; 0; 0; 0; 6; 0; 0; 0; 2; 0;
    0; 0; 0; 0; 0; 8; 0; 5; 4; 0; 0; 2; 0; 0; 6; 0; 0; 0; 2; 4; 2; 0; 7; 7; 7; 7; 7; 3; 3; 3; 0; 3; 2; 0; 0; 2; 5; 1;
    2; 2; 0; 0; 0].

(** ** The checks *)

Definition states : Z := 269.
Definition height (s : Z) : Z := aget heights s.
Definition below (s : Z) : list Z := nth (Z.to_nat s) preds [].

(** State [p] may lie under state [s]. *)
Definition edge (p s : Z) : bool := existsb (Z.eqb p) (below s).

(** The states on every stack with [s] on its top stand for the symbols of [rev_rhs], and [k] holds of the state under them. *)
Fixpoint back (rev_rhs : list Z) (s : Z) (k : Z -> bool) : bool :=
  match rev_rhs with
  | [] => k s
  | x :: rest => (aget yystos s =? x) && negb (s =? 0) && forallb (fun p => back rest p k) (below s)
  end.

(** After rule [yyn], with symbol [lhs] and [n] symbols on its right, in state [s] comes a state that may lie over [p], and a lower
    sum of the depth of the stack and the height. *)
Definition goto_ok (s yyn lhs n p : Z) : bool :=
  let t := goto_state yyn p in edge p t && (aget yystos t =? lhs) && negb (t =? YYFINAL) && (height t + 2 - n <=? height s).

Definition reduce_ok (s yyn : Z) : bool :=
  match rule_at yyn with
  | Some (lhs, rhs) => (aget yyr2 yyn =? alen rhs) && back (rev rhs) s (goto_ok s yyn lhs (alen rhs))
  | None => false
  end.

(** A token raises that sum by less than fourteen; the end of the text, and nothing else, leads to the final state. *)
Definition shift_ok (s yytoken t : Z) : bool :=
  edge s t && (aget yystos t =? yytoken) && Bool.eqb (yytoken =? 0) (t =? YYFINAL) && (height t + 2 <=? height s + 14).

Definition default_ok (s : Z) : bool := (aget yydefact s =? 0) || reduce_ok s (aget yydefact s).

Definition token_ok (s yytoken : Z) : bool :=
  let i := aget yypact s + yytoken in
  if (i <? 0) || (YYLAST <? i) || negb (aget yycheck i =? yytoken) then true
  else if aget yytable i <=? 0 then reduce_ok s (- aget yytable i) else shift_ok s yytoken (aget yytable i).

Definition state_ok (s : Z) : bool :=
  default_ok s && ((aget yypact s =? YYPACT_NINF) || forallb (token_ok s) (seqZ 0 YYNTOKENS)).

Lemma states_certified : forallb (fun s => (s =? YYFINAL) || state_ok s) (seqZ 0 states) = true.
Proof. vm_compute. reflexivity. Qed.

(** No state shifts the token of an error. *)
Lemma errors_certified : forallb (fun s => match shifts_error s with None => 0 <=? height s | Some _ => false end) (seqZ 0 states) = true.
Proof. vm_compute. reflexivity. Qed.

Lemma symbols_certified : forallb (fun k => (0 <=? k) && (k <? YYNTOKENS)) yytranslate = true.
Proof. vm_compute. reflexivity. Qed.

Lemma end_certified : forallb (fun c => negb (aget yytranslate c =? 0)) (seqZ 1 YYMAXUTOK) = true.
Proof. vm_compute. reflexivity. Qed.

(** ** What they show *)

Lemma state_certified s : 0 <= s < states -> s <> YYFINAL -> state_ok s = true.
Proof.
  intros Hs Hf. pose proof (forallb_elem _ _ s states_certified ltac:(apply elem_of_seqZ; lia)) as H. cbv beta in H.
  apply orb_prop in H as [H|H]; [apply Z.eqb_eq in H; contradiction|exact H].
Qed.

Lemma YYTRANSLATE_range c : 0 <= YYTRANSLATE c < YYNTOKENS.
Proof.
  unfold YYTRANSLATE. destruct ((0 <=? c) && (c <=? YYMAXUTOK)) eqn:E; [|unfold YYNTOKENS; simpl; lia].
  assert (Hin : aget yytranslate c ∈ yytranslate).
  { destruct (lookup_lt_is_Some_2 yytranslate (Z.to_nat c)) as [x Hx].
    { change (length yytranslate) with 328%nat. unfold YYMAXUTOK in E. lia. }
    unfold aget. rewrite (proj2 (Z.ltb_ge _ _)) by lia. rewrite (list_lookup_total_correct _ _ _ Hx). by eapply list_elem_of_lookup_2. }
  pose proof (forallb_elem _ _ _ symbols_certified Hin) as H. cbv beta in H. lia.
Qed.

(** Only the end of the text is the end. *)
Lemma YYTRANSLATE_end c : 0 < c -> YYTRANSLATE c <> 0.
Proof.
  intros Hc. unfold YYTRANSLATE. destruct ((0 <=? c) && (c <=? YYMAXUTOK)) eqn:E; [|by intros H].
  pose proof (forallb_elem _ _ c end_certified ltac:(apply elem_of_seqZ; lia)) as H. cbv beta in H. by apply negb_true_iff, Z.eqb_neq in H.
Qed.

Lemma error_certified s : 0 <= s < states -> shifts_error s = None /\ 0 <= height s.
Proof.
  intros Hs. pose proof (forallb_elem _ _ s errors_certified ltac:(apply elem_of_seqZ; lia)) as H. cbv beta in H.
  destruct (shifts_error s); [done|]. split; [done|lia].
Qed.

Lemma edge_range p s : edge p s = true -> 0 < s < states.
Proof.
  unfold edge, below. intros H. destruct (decide (0 < s < states)) as [|Hn]; [done|]. destruct (decide (s <= 0)) as [Hs|Hs].
  - by replace (Z.to_nat s) with O in H by lia.
  - rewrite nth_overflow in H; [done|]. change (length preds) with (Z.to_nat states). lia.
Qed.

Lemma edge_below p s : edge p s = true <-> p ∈ below s.
Proof.
  unfold edge. rewrite existsb_exists. split.
  - intros (x & Hx & E). apply Z.eqb_eq in E as ->. by apply list_elem_of_In.
  - intros H. exists p. split; [by apply list_elem_of_In|apply Z.eqb_refl].
Qed.

Section State.
Context (s : Z) (Hs : 0 <= s < states) (Hf : s <> YYFINAL).

Lemma default_certified : aget yydefact s = 0 \/ reduce_ok s (aget yydefact s) = true.
Proof.
  pose proof (state_certified s Hs Hf) as H. unfold state_ok in H. apply andb_prop in H as [H _].
  apply orb_prop in H as [H|H]; [left; by apply Z.eqb_eq|by right].
Qed.

Lemma token_certified k : aget yypact s <> YYPACT_NINF -> 0 <= k < YYNTOKENS -> token_ok s k = true.
Proof.
  intros Hn Hk. pose proof (state_certified s Hs Hf) as H. unfold state_ok in H. apply andb_prop in H as [_ H]. apply orb_prop in H as [H|H]; [apply Z.eqb_eq in H; contradiction|].
  apply (forallb_elem _ _ _ H). apply elem_of_seqZ. lia.
Qed.
End State.

Lemma reduce_certified s yyn :
  reduce_ok s yyn = true ->
  exists lhs rhs, (lhs, rhs) ∈ rule_table /\ aget yyr2 yyn = alen rhs /\ back (rev rhs) s (goto_ok s yyn lhs (alen rhs)) = true.
Proof.
  unfold reduce_ok, rule_at. destruct (yyn <=? 0); [done|]. destruct (rule_table !! Z.to_nat (yyn - 1)) as [[lhs rhs]|] eqn:E; [|done].
  intros H. apply andb_prop in H as [H1 H2]. apply Z.eqb_eq in H1. exists lhs, rhs. split; [by eapply list_elem_of_lookup_2|done].
Qed.

Lemma goto_certified s yyn lhs n p :
  goto_ok s yyn lhs n p = true ->
  let t := goto_state yyn p in edge p t = true /\ aget yystos t = lhs /\ t <> YYFINAL /\ height t + 2 - n <= height s.
Proof.
  unfold goto_ok. intros H. apply andb_prop in H as [H H4]. apply andb_prop in H as [H H3]. apply andb_prop in H as [H1 H2].
  cbv zeta. split_and!; [done|by apply Z.eqb_eq|by apply Z.eqb_neq, negb_true_iff|by apply Z.leb_le].
Qed.

Lemma shift_certified s k t :
  shift_ok s k t = true -> edge s t = true /\ aget yystos t = k /\ (k = 0 <-> t = YYFINAL) /\ height t + 2 <= height s + 14.
Proof.
  unfold shift_ok. intros H. apply andb_prop in H as [H H4]. apply andb_prop in H as [H H3]. apply andb_prop in H as [H1 H2].
  apply eqb_prop in H3. split_and!; [done|by apply Z.eqb_eq| |by apply Z.leb_le].
  destruct (Z.eqb_spec k 0), (Z.eqb_spec t YYFINAL); try done; lia.
Qed.
