(* ===== verification/ParserTheorems.v ===== *)
(** * The automaton and the grammar

    Every text that the parser accepts is a sentence of the grammar of yacc_sql.y, a text that is none is a syntax error, and the
    parser ends on every text.  The stack of states is a path of the automaton on which every state carries what the symbol
    that led to it derives. *)
From S2P Require Import Prelude ReturnCode Effects Bitmap Memory KeyCompare Dates ConditionFilter Values Expression Syntax.
From S2P Require Import Lexer LexRules LexerTheorems ParserTables ParserGrammar Parser ParserCertificate.

#[local] Open Scope c_scope.
#[local] Open Scope Z_scope.

(** ** The stack of states *)

Lemma derives_all_app xs ys u w : derives_all xs u -> derives_all ys w -> derives_all (xs ++ ys) (u ++ w).
Proof. revert u. induction xs as [|x xs IH]; intros u H Hw; inversion H; subst; [done|]. simpl. rewrite <- app_assoc. constructor; auto. Qed.

(** The states, the top first, and the tokens that have been read for them. *)
Inductive forest : list Z -> list Z -> Prop :=
| forest_bottom : forest [0] []
| forest_push s p ss w u : forest (p :: ss) w -> edge p s = true -> derives (aget yystos s) u -> forest (s :: p :: ss) (w ++ u).

Lemma forest_top ss w : forest ss w -> exists s rest, ss = s :: rest /\ 0 <= s < states.
Proof.
  intros [|s p ss' w' u H E D]; [by exists 0, []|]. exists s, (p :: ss'). split; [done|]. apply edge_range in E. lia.
Qed.

(** The right side of a rule is on the top. *)
Lemma back_forest rev_rhs s ss w k :
  back rev_rhs s k = true -> forest (s :: ss) w ->
  exists p rest w1 w2, drop (length rev_rhs) (s :: ss) = p :: rest /\ forest (p :: rest) w1 /\ w = w1 ++ w2 /\
    derives_all (rev rev_rhs) w2 /\ k p = true.
Proof.
  revert s ss w. induction rev_rhs as [|x rev_rhs IH]; intros s ss w Hb Hf; cbn [back] in Hb.
  - exists s, ss, w, []. rewrite app_nil_r. split_and!; try done. constructor.
  - apply andb_prop in Hb as [Hb Ha]. apply andb_prop in Hb as [Hx H0]. apply Z.eqb_eq in Hx. apply negb_true_iff, Z.eqb_neq in H0.
    inversion Hf as [|s' p ss' w' u Hf' He Hd E1 E2]; subst; [done|].
    apply edge_below in He. pose proof (forallb_elem _ _ _ Ha He) as Hp.
    destruct (IH p ss' w' Hp Hf') as (q & rest & w1 & w2 & Hdr & Hfr & -> & Hda & Hk).
    exists q, rest, w1, (w2 ++ u). split_and!; try done; [by rewrite app_assoc|].
    cbn [rev]. apply derives_all_app; [done|]. rewrite <- (app_nil_r u). constructor; [done|constructor].
Qed.

(** The stack after a reduction. *)
Lemma reduce_forest s ss w yyn :
  reduce_ok s yyn = true -> forest (s :: ss) w ->
  0 <= aget yyr2 yyn <= alen ss /\
  exists p rest, drop (Z.to_nat (aget yyr2 yyn)) (s :: ss) = p :: rest /\ forest (goto_state yyn p :: p :: rest) w /\
    goto_state yyn p <> YYFINAL /\
    alen (goto_state yyn p :: p :: rest) + height (goto_state yyn p) + 1 <= alen (s :: ss) + height s.
Proof.
  intros Hr Hf. destruct (reduce_certified s yyn Hr) as (lhs & rhs & Hin & Hn & Hb). rewrite Hn.
  destruct (back_forest _ _ _ _ _ Hb Hf) as (p & rest & w1 & w2 & Hdr & Hfr & -> & Hda & Hk).
  rewrite length_rev in Hdr. rewrite rev_involutive in Hda. apply goto_certified in Hk as (He & Hst & Hfin & Hh).
  pose proof (f_equal length Hdr) as Hl. rewrite length_drop in Hl. cbn [length] in Hl. unfold alen in *. cbn [length] in *.
  split; [lia|]. exists p, rest. rewrite Nat2Z.id. split_and!; try done; [|lia].
  constructor; [done|done|]. rewrite Hst. by eapply derives_rule.
Qed.

(** The stack in the final state: a sentence and the end of the text. *)
Lemma token_alone k w : 0 <= k < YYNTOKENS -> derives k w -> w = [k].
Proof.
  assert (Hc : forallb (fun r => YYNTOKENS <=? fst r) rule_table = true) by (vm_compute; reflexivity).
  intros Hk H. inversion H as [|lhs rhs w' Hin Ha]; subst; [done|].
  pose proof (forallb_elem _ _ _ Hc Hin) as Hl. cbv beta in Hl. cbn [fst] in Hl. lia.
Qed.

Lemma forest_final ss w : forest (YYFINAL :: ss) w -> alen ss = 2 /\ exists u, w = u ++ [0] /\ sentence u.
Proof.
  intros H. inversion H as [|s p ss' w' u Hf He Hd]; subst.
  apply edge_below in He. change (below YYFINAL) with [1] in He. apply list_elem_of_singleton in He as ->.
  apply (token_alone 0) in Hd as ->; [|done].
  inversion Hf as [|s p ss2 w2 u2 Hf2 He2 Hd2]; subst.
  apply edge_below in He2. change (below 1) with [0] in He2. apply list_elem_of_singleton in He2 as ->.
  inversion Hf2 as [|s p ss3 w3 u3 Hf3 He3]; subst; [|by apply edge_range in He3; lia].
  split; [done|]. by exists u2.
Qed.

(** ** Reading tokens *)

(** What the scanner has still to read. *)
Definition remains (g : yyguts_t) (t : list Z) : Prop :=
  is_text t /\ exists text g' p, yylex g = yylex g' /\ ready text p g' /\ 0 <= p <= alen text /\ drop (Z.to_nat p) text = t.

Lemma remains_start s : is_text s -> exists g, scan_string (s ++ [0]) yy_init_globals = (Ok tt, g) /\ remains g s.
Proof.
  intros Hs. destruct (scan_string_run s Hs) as (g & b & E & Hb & Hc & Hn & Hp & Hi & Hst).
  destruct (first_call s g b Hb Hc Hn Hp Hi Hst) as (g' & Hr & Ey). exists g. split; [done|]. split; [done|].
  exists s, g', 0. pose proof (alen_nonneg s). split_and!; try done; lia.
Qed.

Lemma remains_yylex g t :
  remains g t ->
  (exists c v rest g', yylex g = (Ok (c, v), g') /\ first_token t (Ok ((c, v), rest)) /\ remains g' rest /\
    (0 < c -> (length rest < length t)%nat)) \/
  (exists g', yylex g = (Ub, g')).
Proof.
  intros (Ht & text & g' & p & Ey & Hr & Hp & Hd). rewrite Ey.
  destruct (yylex_run text g' p t Hr Hp Hd Ht) as (r & g2 & Hft & -> & Hres).
  destruct r as [[[c v] rest]| | |]; try done; [left|right; by exists g2].
  destruct Hres as ((q & Hr' & Hq & Hd') & _ & Hlt). exists c, v, rest, g2. split_and!; try done.
  split; [|by exists text, g2, q]. destruct (first_token_suffix _ _ Hft) as [u ->]. by apply Forall_app in Ht as [_ ?].
Qed.

(** The kind of a token; a code that is not positive is the end of the text. *)
Definition symbol_of (tv : Z * YYSTYPE) : Z := if fst tv <=? 0 then 0 else YYTRANSLATE (fst tv).

Definition so_far (text : list Z) (past : list (Z * YYSTYPE)) (t : list Z) : Prop :=
  forall r, lexes t r -> lexes text (let? l := r in Ok (past ++ l)).

Lemma so_far_token text past t c v rest :
  so_far text past t -> first_token t (Ok ((c, v), rest)) -> 0 < c -> so_far text (past ++ [(c, v)]) rest.
Proof.
  intros Hs Hf Hc r Hr. specialize (Hs _ (lexes_more t c v rest r Hf Hc Hr)). destruct r; cbn in *; [by rewrite <- app_assoc|done..].
Qed.

Lemma so_far_end text past t c v rest :
  so_far text past t -> first_token t (Ok ((c, v), rest)) -> c <= 0 -> lexes text (Ok (past ++ [(c, v)])).
Proof. intros Hs Hf Hc. apply (Hs _ (lexes_stop t c v rest Hf Hc)). Qed.

(** The lookahead between two steps, after the tokens [past] have been shifted; at most [n] more will be. *)
Inductive input (text : list Z) : yyguts_t -> Z -> list (Z * YYSTYPE) -> nat -> Prop :=
| input_empty g past t n : remains g t -> so_far text past t -> (length t + 1 <= n)%nat -> input text g YYEMPTY past n
| input_token g past c v t n :
    remains g t -> so_far text (past ++ [(c, v)]) t -> 0 < c -> c <> YYerror -> (length t + 2 <= n)%nat -> input text g c past n
| input_end g past c v n : c <= 0 -> lexes text (Ok (past ++ [(c, v)])) -> (1 <= n)%nat -> input text g YYEOF past n.

(** No token has the code of an error. *)
Lemma token_value_code n w c v : is_text w -> token_value n w = Ok (c, v) -> c <> YYerror.
Proof.
  intros Hw. unfold token_value, rule_token, YYerror.
  repeat case_match; unfold res_bind; intros; repeat case_match; simplify_eq; try done.
  apply Forall_cons in Hw as [Hb _]. unfold char_to_int. case_match; lia.
Qed.

Lemma first_token_code t c v rest : is_text t -> first_token t (Ok ((c, v), rest)) -> c <> YYerror.
Proof.
  intros Ht H. remember (Ok (c, v, rest)) as r eqn:E.
  induction H as [|text w n rest' r Hta Hn H IH|text w n rest' Hta Hn]; [by simplify_eq|..];
    pose proof (ta_text _ _ _ _ Hta) as Et; rewrite Et in Ht; apply Forall_app in Ht as [Hw Hr]; [by apply IH|].
  destruct (token_value n w) as [[c' v']| | |] eqn:Ev; try done. cbn in E. simplify_eq. by apply (token_value_code _ _ _ _ Hw Ev).
Qed.

(** ** Actions end *)

(** A result, or undefined behaviour. *)
Definition settled_res {A} (r : res A) : Prop := match r with Ok _ | Ub => True | _ => False end.
Definition settles {S A} (m : M S A) : Prop := forall s, settled_res (fst (m s)).

Lemma settled_bind {A B} (r : res A) (f : A -> res B) : settled_res r -> (forall a, settled_res (f a)) -> settled_res (res_bind r f).
Proof. destruct r; cbn; auto. Qed.

Lemma settled_asserting b : settled_res (asserting b). Proof. by destruct b. Qed.
Lemma settled_non_null {A} (p : option A) : settled_res (non_null p). Proof. by destruct p. Qed.

Lemma settles_bind {S A B} (m : M S A) (f : A -> M S B) : settles m -> (forall a, settles (f a)) -> settles (bind m f).
Proof.
  intros Hm Hf s. unfold bind. specialize (Hm s). destruct (m s) as [[a| | |] s']; cbn in *; try done. apply Hf.
Qed.

Lemma settles_of_res {S A} (r : res A) : settled_res r -> settles (S := S) (of_res r). Proof. by intros H s. Qed.
Lemma settles_ret {S A} (a : A) : settles (S := S) (ret a). Proof. done. Qed.
Lemma settles_get {S} : settles (S := S) get. Proof. done. Qed.
Lemma settles_modify {S} (f : S -> S) : settles (modify f). Proof. done. Qed.

(** Goes through a definition of the parser and the functions on statements it calls. *)
Ltac head_of t := match t with ?f _ => head_of f | _ => t end.

Ltac settle :=
  repeat first
    [ progress intros
    | apply settles_ret | apply settles_get | apply settles_modify | apply settled_asserting | apply settled_non_null
    | apply settles_bind | apply settled_bind | apply settles_of_res
    | exact I | assumption
    | match goal with |- settled_res ?r => match r with context [match ?x with _ => _ end] => destruct x end end
    | match goal with |- settles ?m => match m with match ?x with _ => _ end => destruct x end end
    | match goal with
      | |- settled_res ?r => let h := head_of r in unfold h
      | |- settles ?m => let h := head_of m in unfold h
      end ].

Lemma settles_if {S A} (b : bool) (m1 m2 : M S A) : settles m1 -> settles m2 -> settles (if b then m1 else m2).
Proof. by destruct b. Qed.

Lemma push_joins_settles l new : settled_res (push_joins l new).
Proof. revert l. induction new as [|j new IH]; intros l; cbn [push_joins]; settle. apply IH. Qed.

Lemma action_settles lc la place yyn vs yyval : settles (semantic_action lc la place yyn vs yyval).
Proof.
  unfold semantic_action. repeat apply settles_if.
  - unfold command_action; settle.
  - unfold create_action; settle.
  - unfold value_action; settle.
  - unfold exp_action; settle.
  - unfold query_action; settle; apply push_joins_settles.
  - unfold condition_action; settle.
  - unfold comp_action; settle.
  - unfold order_action; settle.
Qed.

(** ** Steps *)

Section Steps.
Variable local_condition : Z -> Condition.
Variable local_aggregate : Z -> Aggregate.
Variable text : list Z.

Abbreviation yyreduce := (yyreduce local_condition local_aggregate).
Abbreviation yydefault := (yydefault local_condition local_aggregate).
Abbreviation on_token := (on_token local_condition local_aggregate).
Abbreviation yybackup := (yybackup local_condition local_aggregate).
Abbreviation yysetstate := (yysetstate local_condition local_aggregate).
Abbreviation yyparse_from := (yyparse_from local_condition local_aggregate).

(** Between two steps: [past] has been shifted and at most [n] tokens will be; no error has been met. *)
Record running (p : yyparser) (n : nat) (past : list (Z * YYSTYPE)) : Prop := {
  ru_err : yyerrstatus p = 0;
  ru_forest : forest (yyss p) (symbol_of <$> past);
  ru_top : head (yyss p) <> Some YYFINAL;
  ru_input : input text (scanner p) (yychar p) past n;
  ru_size : alen (yyss p) <= yystacksize p <= YYMAXDEPTH; ru_start : YYINITDEPTH <= yystacksize p }.

(** The whole text has been read. *)
Definition accepted (p : yyparser) : Prop :=
  exists past c v, forest (yyss p) (symbol_of <$> past ++ [(c, v)]) /\ head (yyss p) = Some YYFINAL /\ 3 < yystacksize p /\
    c <= 0 /\ lexes text (Ok (past ++ [(c, v)])).

Definition potential (p : yyparser) : Z := alen (yyss p) + match head (yyss p) with Some s => height s | None => 0 end.

(** What a step with [n] tokens to shift comes to. *)
Definition advanced (p : yyparser) (n : nat) (r : res (option Z) * yyparser) : Prop :=
  let p' := snd r in
  match fst r with
  | Ok None =>
      (exists n' past, running p' n' past /\ potential p' + 14 * Z.of_nat n' + 1 <= potential p + 14 * Z.of_nat n) \/ accepted p'
  | Ok (Some yyresult) => yyresult <> 0 /\ ssql_flag (extra p') = Flag.SCF_ERROR
  | Ub => True
  | _ => False
  end.

Lemma forest_errors ss w vs : forest ss w -> pop_to_error ss vs = None.
Proof.
  intros H. revert vs. induction H as [|s p ss w u H IH He Hd]; intros vs; [done|]. apply edge_range in He.
  destruct (error_certified s ltac:(lia)) as [Hn _]. cbn [pop_to_error]. rewrite Hn. apply IH.
Qed.

Lemma yyerrlab1_run p w : forest (yyss p) w -> yyerrlab1 p = (Ok (Some 1), with_errstatus 3 p).
Proof. intros H. unfold yyerrlab1, modify, get, bind. cbn. by rewrite (forest_errors _ _ _ H). Qed.

Lemma yyerrlab_step p n w : yyerrstatus p = 0 -> forest (yyss p) w -> advanced p n (yyerrlab p).
Proof.
  intros He Hf. unfold yyerrlab. unfold bind at 1, get. rewrite He. cbn [Z.eqb andb]. unfold bind at 1, modify. unfold bind, ret.
  by erewrite yyerrlab1_run.
Qed.

Lemma yyreduce_step p n past s yyn :
  running p n past -> head (yyss p) = Some s -> alen (yyss p) < yystacksize p -> reduce_ok s yyn = true ->
  advanced p n (yyreduce yyn p).
Proof.
  intros [He Hf Ht Hi Hz Hd0] Hs Hl Hr. destruct (yyss p) as [|s' ss] eqn:Ess; [done|]. injection Hs as ->.
  destruct (reduce_forest s ss _ yyn Hr Hf) as (Hn & q & rest & Hd & Hf' & Hfin & Hp).
  unfold Parser.yyreduce, bind, get.
  match goal with |- advanced p n (let (r, s) := (if ?b then ret no_value else of_res ?x) p in _) =>
    assert (Hv : exists y, (if b then ret no_value else of_res x) p = (y, p) /\ settled_res y) end.
  { destruct (_ =? 0); [by exists (Ok no_value)|]. eexists. split; [reflexivity|]. apply settled_non_null. }
  destruct Hv as (y & -> & Hy). destruct y as [yyval| | |]; try done.
  unfold run_action. pose proof (action_settles local_condition local_aggregate (yy_c_buf_p (scanner p)) yyn (yyvs p) yyval (extra p)) as Ha.
  destruct (semantic_action _ _ _ _ _ _ _) as [[yyval'| | |] x]; try done.
  unfold modify, top, push_state, bind, get, of_res, ret. cbn [yyss with_extra with_stacks]. rewrite Ess, Hd. cbn.
  left. exists n, past. split; [|unfold potential; cbn; rewrite Ess; cbn [head]; lia].
  constructor; cbn; try done; [congruence|]. split; [|lia].
  apply (f_equal length) in Hd. rewrite length_drop in Hd. unfold alen in *. cbn [length] in *. lia.
Qed.

Lemma yydefault_step p n past s :
  running p n past -> head (yyss p) = Some s -> alen (yyss p) < yystacksize p -> 0 <= s < states ->
  advanced p n (yydefault s p).
Proof.
  intros H Hs Hl Hr. assert (Hne : s <> YYFINAL) by (intros ->; by apply (ru_top _ _ _ H)).
  unfold Parser.yydefault. destruct (Z.eqb_spec (aget yydefact s) 0).
  - eapply yyerrlab_step; [apply H|apply (ru_forest _ _ _ H)].
  - destruct (default_certified s Hr Hne) as [?|?]; [done|]. by eapply yyreduce_step.
Qed.

Definition lookahead_kind (c : Z) : Z := if c <=? 0 then 0 else YYTRANSLATE c.

Lemma lookahead_range c : 0 <= lookahead_kind c < YYNTOKENS.
Proof. unfold lookahead_kind. destruct (c <=? 0); [done|]. apply YYTRANSLATE_range. Qed.

Lemma shift_step p n past s t :
  running p n past -> head (yyss p) = Some s -> alen (yyss p) < yystacksize p -> yychar p <> YYEMPTY ->
  shift_ok s (lookahead_kind (yychar p)) t = true -> advanced p n (shift t p).
Proof.
  intros [He Hf Ht Hi Hz Hd0] Hs Hl Hc Hk. destruct (yyss p) as [|s' ss] eqn:Ess; [done|]. injection Hs as ->.
  destruct (shift_certified _ _ _ Hk) as (Hed & Hst & Hend & Hh).
  unfold shift, bind, get. rewrite He. cbn [Z.eqb]. unfold ret, push_state, set_lookahead, modify, advanced. cbn [fst snd].
  assert (Hfr : forall tv, lookahead_kind (yychar p) = symbol_of tv -> forest (t :: s :: ss) (symbol_of <$> past ++ [tv])).
  { intros tv E. rewrite fmap_app. constructor; [done|done|]. rewrite Hst, E. constructor. rewrite <- E. apply lookahead_range. }
  unfold alen in *. unfold YYINITDEPTH in *. cbn [length] in *.
  inversion Hi as [g past' t0 n' Hrm Hsf Hn E1 Ec|g past' c v t0 n' Hrm Hsf Hpos Hne Hn E1 Ec|g past' c v n' Hneg Hlex Hn E1 Ec]; subst; [done|..].
  - left. exists (n - 1)%nat, (past ++ [(yychar p, v)]). split; [|unfold potential, alen; cbn; rewrite Ess; cbn [head length]; lia].
    constructor; cbn; rewrite ?Ess; try done.
    + apply Hfr. unfold lookahead_kind, symbol_of. cbn [fst]. by rewrite (proj2 (Z.leb_gt _ _)) by lia.
    + intros [= ->]. pose proof (proj2 Hend eq_refl) as H0. unfold lookahead_kind in H0. rewrite (proj2 (Z.leb_gt _ _)) in H0 by lia.
      by apply YYTRANSLATE_end in Hpos.
    + econstructor; [exact Hrm|exact Hsf|lia].
    + unfold alen. cbn [length]. lia.
  - right. exists past, c, v. cbn. rewrite Ess. split_and!; try done; [|f_equal; apply Hend; by rewrite <- Ec|lia].
    apply Hfr. rewrite <- Ec. unfold symbol_of. cbn [fst]. by rewrite (proj2 (Z.leb_le _ _)).
Qed.

Lemma on_token_step p n past s :
  running p n past -> head (yyss p) = Some s -> alen (yyss p) < yystacksize p -> 0 <= s < states ->
  yychar p <> YYEMPTY -> aget yypact s <> YYPACT_NINF ->
  advanced p n (on_token s (aget yypact s) (lookahead_kind (yychar p)) p).
Proof.
  intros H Hs Hl Hr Hc Hp. assert (Hne : s <> YYFINAL) by (intros ->; by apply (ru_top _ _ _ H)).
  pose proof (token_certified s Hr Hne _ Hp (lookahead_range (yychar p))) as Hk.
  unfold Parser.on_token. unfold token_ok in Hk. destruct (_ || _); [by eapply yydefault_step|].
  destruct (_ <=? 0); [by eapply yyreduce_step|by eapply shift_step].
Qed.

Lemma advanced_same p p' n r : potential p = potential p' -> advanced p n r -> advanced p' n r.
Proof. unfold advanced. by intros ->. Qed.

(** The automaton with a token in hand. *)
Definition decide_token (s yyn : Z) : M yyparser (option Z) :=
  let! p := get in
  if yychar p <=? YYEOF then set_lookahead YYEOF ;; on_token s yyn YYSYMBOL_YYEOF
  else if yychar p =? YYerror then set_lookahead YYUNDEF ;; yyerrlab1
  else on_token s yyn (YYTRANSLATE (yychar p)).

Lemma decide_step p n past s c :
  running (with_token (scanner p) (if c <=? 0 then 0 else c) (yylval p) p) n past -> c <> YYerror -> yychar p = c ->
  head (yyss p) = Some s -> alen (yyss p) < yystacksize p -> 0 <= s < states -> aget yypact s <> YYPACT_NINF ->
  advanced p n (decide_token s (aget yypact s) p).
Proof.
  intros H He Hc Hs Hl Hr Hp. unfold decide_token, bind at 1, get. rewrite Hc. unfold YYEOF.
  pose proof (on_token_step _ n past s H Hs Hl Hr) as Hstep. cbn [yychar with_token] in Hstep. unfold lookahead_kind in Hstep.
  destruct (c <=? 0) eqn:E0.
  - unfold set_lookahead, modify, bind. cbn in Hstep. apply (Hstep ltac:(done) Hp).
  - rewrite (proj2 (Z.eqb_neq _ _) He). rewrite E0 in Hstep. specialize (Hstep ltac:(unfold YYEMPTY; lia) Hp).
    replace (with_token (scanner p) c (yylval p) p) with p in Hstep; [done|]. rewrite <- Hc. by destruct p.
Qed.

Lemma yybackup_step p n past s :
  running p n past -> head (yyss p) = Some s -> alen (yyss p) < yystacksize p -> 0 <= s < states ->
  advanced p n (yybackup s p).
Proof.
  intros H Hs Hl Hr. unfold Parser.yybackup. destruct (Z.eqb_spec (aget yypact s) YYPACT_NINF) as [_|Hp]; [by eapply yydefault_step|].
  change (advanced p n ((let! p := get in (if yychar p =? YYEMPTY then read_token else ret tt) ;; decide_token s (aget yypact s)) p)).
  pose proof H as [He Hf Ht Hi Hz Hd0]. unfold bind at 1, get.
  inversion Hi as [g past' t0 n' Hrm Hsf Hn E1 Ec|g past' c v t0 n' Hrm Hsf Hpos Hne Hn E1 Ec|g past' c v n' Hneg Hlex Hn E1 Ec]; subst.
  - change (YYEMPTY =? YYEMPTY) with true. cbv iota. unfold read_token, bind, get.
    destruct (remains_yylex _ _ Hrm) as [(c & v & rest & g' & -> & Hft & Hrm' & Hlt)|(g' & ->)]; [|done].
    unfold modify. set (p2 := with_token _ _ _ _).
    assert (Hcode : c <> YYerror) by (by apply (first_token_code _ _ _ _ (proj1 Hrm) Hft)).
    eapply (advanced_same p2); [done|]. apply (decide_step p2 n past s c); try done.
    constructor; cbn; try done. destruct (c <=? 0) eqn:E0.
    + apply (input_end _ _ _ c v); [lia|apply (so_far_end _ _ _ _ _ _ Hsf Hft); lia|lia].
    + apply (input_token _ _ _ c v rest); [exact Hrm'|apply (so_far_token _ _ _ _ _ _ Hsf Hft); lia|lia|done|lia].
  - rewrite (proj2 (Z.eqb_neq _ _)) by (unfold YYEMPTY; lia). rewrite bind_ret. apply (decide_step p n past s (yychar p)); try done.
    rewrite (proj2 (Z.leb_gt _ _)) by lia. by destruct p.
  - change (YYEOF =? YYEMPTY) with false. cbv iota. rewrite bind_ret. apply (decide_step p n past s YYEOF); try done.
    change (if YYEOF <=? 0 then 0 else YYEOF) with YYEOF. rewrite Ec. by destruct p.
Qed.

Lemma yysetstate_step p n past : running p n past -> advanced p n (yysetstate p).
Proof.
  intros H. destruct (forest_top _ _ (ru_forest _ _ _ H)) as (s & ss & Ess & Hs).
  assert (Hh : head (yyss p) = Some s) by (by rewrite Ess). pose proof (ru_size _ _ _ H) as Hz. pose proof (ru_start _ _ _ H) as H0.
  assert (Hne : s <> YYFINAL) by (intros ->; by apply (ru_top _ _ _ H)).
  unfold Parser.yysetstate, bind at 1, get. unfold top, bind, get, of_res. rewrite Hh. cbn [non_null].
  rewrite (proj2 (Z.eqb_neq _ _) Hne). unfold YYMAXDEPTH, YYINITDEPTH in *. destruct (yystacksize p <=? alen (yyss p)) eqn:E.
  - destruct (10000 <=? yystacksize p) eqn:E2; [done|].
    unfold modify. rewrite (proj2 (Z.leb_gt _ _)) by lia.
    set (p2 := with_stacksize _ p). apply (advanced_same p2); [done|]. eapply yybackup_step; [|exact Hh|cbn; lia|done].
    destruct H as [? ? ? ? ? ?]. constructor; try done; unfold YYMAXDEPTH, YYINITDEPTH; cbn; lia.
  - eapply yybackup_step; [exact H|exact Hh|lia|done].
Qed.

Lemma yysetstate_accepts p : accepted p -> yysetstate p = (Ok (Some 0), p).
Proof.
  intros (past & c & v & Hf & Hh & Hz & _). destruct (yyss p) as [|s ss] eqn:E; [done|]. injection Hh as ->.
  destruct (forest_final _ _ Hf) as [Hl _]. unfold Parser.yysetstate, bind at 1, get. unfold top, bind, get, of_res. rewrite E. cbn [head non_null].
  change (YYFINAL =? YYFINAL) with true. cbv iota. rewrite (proj2 (Z.leb_gt _ _)); [done|]. unfold alen in *. cbn [length]. lia.
Qed.

(** The text is a sentence, followed by its end. *)
Definition reads_sentence : Prop :=
  exists toks c v, lexes text (Ok (toks ++ [(c, v)])) /\ c <= 0 /\ sentence (symbol_of <$> toks).

Lemma accepted_sentence p : accepted p -> reads_sentence.
Proof.
  intros (past & c & v & Hf & Hh & _ & Hc & Hlex). destruct (yyss p) as [|s ss] eqn:E; [done|]. injection Hh as ->.
  destruct (forest_final _ _ Hf) as (_ & u & Hu & Hs). rewrite fmap_app in Hu. cbn in Hu.
  apply app_inj_2 in Hu as [Hu _]; [|done]. exists past, c, v. split_and!; try done. by rewrite Hu.
Qed.

Lemma potential_pos p n past : running p n past -> 1 <= potential p.
Proof.
  intros H. destruct (forest_top _ _ (ru_forest _ _ _ H)) as (s & ss & E & Hs). unfold potential, alen. rewrite E. cbn [head length].
  destruct (error_certified s Hs) as [_ Hn]. lia.
Qed.

(** The automaton ends, and accepts only sentences; otherwise the flag is that of an error. *)
Lemma parses p n past fuel :
  running p n past -> potential p + 14 * Z.of_nat n + 1 < Z.of_nat fuel ->
  match yyparse_from fuel p with
  | (Ok yyresult, p') => if yyresult =? 0 then reads_sentence else ssql_flag (extra p') = Flag.SCF_ERROR
  | (Ub, _) => True
  | _ => False
  end.
Proof.
  revert p n past. induction fuel as [|fuel IH]; intros p n past H Hfuel; [pose proof (potential_pos _ _ _ H); lia|].
  pose proof (yysetstate_step p n past H) as Hs. cbn [Parser.yyparse_from]. unfold bind.
  destruct (yysetstate p) as [[[yyresult|]| | |] p'] eqn:E; unfold advanced in Hs; cbn [fst snd] in Hs; try done.
  - destruct Hs as [Hr Hf]. cbn. by rewrite (proj2 (Z.eqb_neq _ _) Hr).
  - destruct Hs as [(n' & past' & H' & Hp)|Ha]; [eapply IH; [exact H'|lia]|].
    destruct fuel as [|fuel]; [pose proof (potential_pos _ _ _ H); lia|].
    cbn [Parser.yyparse_from]. unfold bind. rewrite (yysetstate_accepts _ Ha). cbn. by eapply accepted_sentence.
Qed.
End Steps.

Lemma running_start text g : remains g text -> running text (yyparse_start zero_context g) (length text + 1) [].
Proof.
  intros H. constructor; cbn; try done; [constructor|]. econstructor; [exact H| |lia]. intros r Hr. by destruct r.
Qed.

Lemma sql_parse_run lc la text :
  is_text text ->
  match sql_parse lc la (text ++ [0]) with
  | Ok (yyresult, x) => if yyresult =? 0 then reads_sentence text else ssql_flag x = Flag.SCF_ERROR
  | Ub => True
  | _ => False
  end.
Proof.
  intros Ht. destruct (remains_start text Ht) as (g & E & Hr). unfold sql_parse. rewrite E.
  pose proof (parses lc la text _ _ _ (steps_for (text ++ [0])) (running_start text g Hr)) as H.
  change (potential (yyparse_start zero_context g)) with 3 in H.
  specialize (H ltac:(unfold steps_for; rewrite length_app; cbn [length]; lia)). revert H.
  by destruct (Parser.yyparse_from _ _ _ _) as [[?|?| |] ?].
Qed.

(** C3. The parser of SQL accepts nothing but the language: when [parse] makes a statement of a text, the tokens of the text, as the
    rule_table of lex_sql.l cut them, are a sentence of the grammar of yacc_sql.y up to the end of the text. *)
Theorem parse_sound lc la s q :
  is_text s -> parse lc la (s ++ [0]) = Ok q ->
  exists toks c v, tokens_of s = Ok (toks ++ [(c, v)]) /\ c <= 0 /\ sentence (symbol_of <$> toks).
Proof.
  intros Hs H. pose proof (sql_parse_run lc la s Hs) as Hr. unfold parse in H.
  destruct (sql_parse lc la (s ++ [0])) as [[yyresult x]| | |]; try done. cbn [res_bind] in H.
  destruct (yyresult =? 0); [|by rewrite Hr in H].
  destruct Hr as (toks & c & v & Hl & Hc & Hse). exists toks, c, v. split_and!; try done.
  by eapply lexes_functional; [apply lexes_tokens_of|].
Qed.

Lemma query_of_cases flag q : (exists r, query_of flag q = Ok r) \/ query_of flag q = Ub.
Proof. unfold query_of. repeat case_match; eauto. Qed.

(** C15. The parser of SQL ends on every text within fourteen steps for a byte: with statements, with its only
    error, SQL_SYNTAX, or with the undefined behaviour of an action (an assertion, or a write behind an array). *)
Theorem parse_ends lc la s :
  is_text s -> (exists q, parse lc la (s ++ [0]) = Ok q) \/ parse lc la (s ++ [0]) = Err SQL_SYNTAX \/ parse lc la (s ++ [0]) = Ub.
Proof.
  intros Hs. pose proof (sql_parse_run lc la s Hs) as Hr. unfold parse.
  destruct (sql_parse lc la (s ++ [0])) as [[yyresult x]| | |]; try done; [|auto]. cbn [res_bind].
  destruct (ssql_flag x =? Flag.SCF_ERROR); [auto|]. destruct (query_of_cases (ssql_flag x) (ssql_sstr x)) as [[q ->]| ->]; eauto.
Qed.
