(* ===== verification/ParserInsert.v ===== *)
(** * INSERT is read back

    The text of an INSERT statement, printed from rows of constants, is scanned and parsed to the statement with these rows.  The
    proof follows the automaton from the end of the text backwards: [wins] says that the parser succeeds from a stack with
    certain tokens ahead. *)
From Stdlib Require Import String.
From S2P Require Import Prelude ReturnCode Effects Bitmap Memory KeyCompare Dates ConditionFilter Table Values Expression Tuples Syntax.
From S2P Require Import ParserTables Lexer LexRules LexerTheorems ParserGrammar Parser ParserCertificate ParserTheorems LoadTheorems.

#[local] Open Scope c_scope.
#[local] Open Scope Z_scope.

(** ** The tokens that a scanner still returns *)

Inductive feeds : yyguts_t -> list (Z * YYSTYPE) -> Prop :=
| feeds_nil g : feeds g []
| feeds_cons g c v g' toks : yylex g = (Ok (c, v), g') -> feeds g' toks -> feeds g ((c, v) :: toks).

Lemma lexes_feeds g t toks : remains g t -> lexes t (Ok toks) -> feeds g toks.
Proof.
  revert g t. induction toks as [|[c v] toks IH]; intros g t Hr Hl; [constructor|].
  destruct (remains_yylex g t Hr) as [(c' & v' & rest & g' & Ey & Hf & Hr' & _)|(g' & Ey)].
  - inversion Hl as [text t1 v1 rest1 Hf1 Hc E1 E2|text t1 v1 rest1 r Hf1 Hc Hl1 E1 E2|]; subst.
    + pose proof (first_token_functional _ _ _ Hf Hf1). simplify_eq. econstructor; [exact Ey|constructor].
    + destruct r as [l| | |]; try done. cbn in E2. simplify_eq. pose proof (first_token_functional _ _ _ Hf Hf1). simplify_eq.
      econstructor; [exact Ey|]. by eapply IH.
  - exfalso. destruct Hr as (Ht & text & g0 & p & E & Hg & Hp & Hd). destruct (yylex_run text g0 p t Hg Hp Hd Ht) as (r & g2 & Hf & E2 & _).
    rewrite E, E2 in Ey. destruct r as [[? ?]| | |]; try done.
    inversion Hl as [? ? ? ? Hf1|? ? ? ? ? Hf1|]; subst; by pose proof (first_token_functional _ _ _ Hf Hf1).
Qed.

(** ** Moves of the automaton *)

Inductive move := Shift (t : Z) | Reduce (yyn : Z) | Error.

Definition default_move (s : Z) : move := if aget yydefact s =? 0 then Error else Reduce (aget yydefact s).

Definition token_move (s k : Z) : move :=
  let i := aget yypact s + k in
  if (i <? 0) || (YYLAST <? i) || negb (aget yycheck i =? k) then default_move s
  else if aget yytable i <=? 0 then Reduce (- aget yytable i) else Shift (aget yytable i).

(** What a state does with tokens ahead; the first is not looked at in a state with only one move. *)
Definition decided (s : Z) (toks : list (Z * YYSTYPE)) : move :=
  if s =? YYFINAL then Error
  else if aget yypact s =? YYPACT_NINF then default_move s
  else match toks with (c, _) :: _ => if c =? YYerror then Error else token_move s (lookahead_kind c) | [] => Error end.

Section Runs.
Variable local_condition : Z -> Condition.
Variable local_aggregate : Z -> Aggregate.

Abbreviation yyreduce := (yyreduce local_condition local_aggregate).
Abbreviation yydefault := (yydefault local_condition local_aggregate).
Abbreviation on_token := (on_token local_condition local_aggregate).
Abbreviation yybackup := (yybackup local_condition local_aggregate).
Abbreviation yysetstate := (yysetstate local_condition local_aggregate).
Abbreviation yyparse_from := (yyparse_from local_condition local_aggregate).

(** The parser has read the first token, or it has not. *)
Inductive ahead (p : yyparser) : list (Z * YYSTYPE) -> Prop :=
| ahead_unread toks : yychar p = YYEMPTY -> feeds (scanner p) toks -> ahead p toks
| ahead_read c v toks :
    yychar p = (if c <=? 0 then 0 else c) -> c <> YYerror -> feeds (scanner p) toks -> (v <> no_value -> yylval p = v) -> ahead p ((c, v) :: toks).

Record at_state (x : ParserContext) (ss : list Z) (vs : list YYSTYPE) (toks : list (Z * YYSTYPE)) (p : yyparser) : Prop := {
  as_extra : extra p = x; as_ss : yyss p = ss; as_vs : yyvs p = vs; as_err : yyerrstatus p = 0;
  as_size : alen ss <= yystacksize p <= YYMAXDEPTH; as_init : YYINITDEPTH <= yystacksize p; as_ahead : ahead p toks }.

(** From here the parser succeeds, with a context as [final] describes it. *)
Definition wins (final : ParserContext -> Prop) (x : ParserContext) (ss : list Z) (vs : list YYSTYPE) (toks : list (Z * YYSTYPE)) : Prop :=
  forall p, at_state x ss vs toks p -> exists fuel p', yyparse_from fuel p = (Ok 0, p') /\ final (extra p').

Lemma setstate_backup x s ss vs toks p :
  at_state x (s :: ss) vs toks p -> s <> YYFINAL -> alen (s :: ss) < YYMAXDEPTH ->
  exists p2, at_state x (s :: ss) vs toks p2 /\ alen (s :: ss) < yystacksize p2 /\ yysetstate p = yybackup s p2.
Proof.
  intros [Hx Hs Hv He Hz H0 Ha] Hf Hd. unfold Parser.yysetstate, bind at 1, get. unfold top, bind, get, of_res. rewrite Hs.
  cbn [head non_null]. rewrite (proj2 (Z.eqb_neq _ _) Hf). unfold YYMAXDEPTH, YYINITDEPTH in *.
  destruct (yystacksize p <=? alen (s :: ss)) eqn:E.
  - rewrite (proj2 (Z.leb_gt _ _)) by lia. unfold modify. rewrite (proj2 (Z.leb_gt _ _)) by lia.
    eexists. split; [|split; [|reflexivity]]; [|cbn; lia].
    constructor; cbn; unfold YYMAXDEPTH, YYINITDEPTH; try done; try lia. destruct Ha; [by apply ahead_unread|by eapply ahead_read].
  - exists p. split; [by constructor|]. split; [lia|done].
Qed.

(** The first token is read if it is needed. *)
Lemma backup_token x s ss vs c v toks p :
  at_state x ss vs ((c, v) :: toks) p -> aget yypact s <> YYPACT_NINF -> c <> YYerror ->
  exists p2, at_state x ss vs ((c, v) :: toks) p2 /\ yystacksize p2 = yystacksize p /\
    yychar p2 = (if c <=? 0 then 0 else c) /\ feeds (scanner p2) toks /\ (v <> no_value -> yylval p2 = v) /\
    yybackup s p = on_token s (aget yypact s) (lookahead_kind c) p2.
Proof.
  intros [Hx Hs Hv He Hz H0 Ha] Hn Hc. unfold Parser.yybackup. rewrite (proj2 (Z.eqb_neq _ _) Hn).
  assert (Hdecide : forall p3, yychar p3 = c \/ yychar p3 = (if c <=? 0 then 0 else c) ->
    (let! p := get in
     if yychar p <=? YYEOF then set_lookahead YYEOF ;; on_token s (aget yypact s) YYSYMBOL_YYEOF
     else if yychar p =? YYerror then set_lookahead YYUNDEF ;; yyerrlab1 else on_token s (aget yypact s) (YYTRANSLATE (yychar p))) p3 =
    on_token s (aget yypact s) (lookahead_kind c) (with_token (scanner p3) (if c <=? 0 then 0 else c) (yylval p3) p3)).
  { intros p3 H3. unfold bind at 1, get, lookahead_kind, YYEOF. destruct (Z.leb_spec c 0).
    - rewrite (proj2 (Z.leb_le _ _)) by lia. reflexivity.
    - assert (E3 : yychar p3 = c) by (by destruct H3). rewrite (proj2 (Z.leb_gt _ _)) by lia. rewrite (proj2 (Z.eqb_neq _ _)) by lia.
      rewrite E3. f_equal. destruct p3. cbn in *. by subst. }
  unfold bind at 1, get. inversion Ha as [toks' Hy Hfd|c' v' toks' Hy _ Hfd Hl]; subst.
  - rewrite Hy. change (YYEMPTY =? YYEMPTY) with true. cbv iota. inversion Hfd as [|g c' v' g' toks' Ey Hfd']; subst.
    unfold read_token. unfold bind at 1 2, get. rewrite Ey. unfold modify. set (p3 := with_token g' _ _ p).
    eexists. split; [|split; [|split; [|split; [|split; [|apply (Hdecide p3); by left]]]]]; [|done|done|done|].
    + constructor; cbn; try done. eapply ahead_read; cbn; try done. intros Hv. by destruct v.
    + cbn. intros Hv. by destruct v.
  - rewrite (proj2 (Z.eqb_neq _ _)) by (rewrite Hy; unfold YYEMPTY; destruct (Z.leb_spec c 0); lia). rewrite bind_ret.
    eexists. split; [|split; [|split; [|split; [|split; [|apply (Hdecide p); by right]]]]]; [|done|done|done|done].
    constructor; cbn; try done. by eapply ahead_read; cbn.
Qed.

Lemma yyparse_next p p2 r fuel : yysetstate p = (Ok None, p2) -> yyparse_from fuel p2 = r -> yyparse_from (S fuel) p = r.
Proof. intros E H. cbn [Parser.yyparse_from]. unfold bind. by rewrite E. Qed.

Lemma decided_shift s c v toks t :
  decided s ((c, v) :: toks) = Shift t ->
  s <> YYFINAL /\ aget yypact s <> YYPACT_NINF /\ c <> YYerror /\
  forall p, on_token s (aget yypact s) (lookahead_kind c) p = shift t p.
Proof.
  unfold decided, token_move, default_move, Parser.on_token.
  destruct (Z.eqb_spec s YYFINAL); [done|]. destruct (Z.eqb_spec (aget yypact s) YYPACT_NINF); [by destruct (_ =? 0)|].
  destruct (Z.eqb_spec c YYerror); [done|]. destruct (_ || _); [by destruct (_ =? 0)|]. destruct (_ <=? 0); [done|]. by intros [= ->].
Qed.

Lemma decided_reduce s toks yyn x ss vs p :
  decided s toks = Reduce yyn -> at_state x ss vs toks p ->
  s <> YYFINAL /\ exists p2, at_state x ss vs toks p2 /\ yystacksize p2 = yystacksize p /\ yybackup s p = yyreduce yyn p2.
Proof.
  unfold decided, token_move, default_move. intros Hd Hp.
  destruct (Z.eqb_spec s YYFINAL); [done|]. split; [done|].
  destruct (Z.eqb_spec (aget yypact s) YYPACT_NINF) as [E|E].
  - exists p. split; [done|]. split; [done|]. unfold Parser.yybackup. rewrite E. change (YYPACT_NINF =? YYPACT_NINF) with true. cbv iota.
    unfold Parser.yydefault. destruct (_ =? 0); [done|]. by injection Hd as ->.
  - destruct toks as [|[c v] toks]; [done|]. destruct (Z.eqb_spec c YYerror); [done|].
    destruct (backup_token _ s _ _ _ _ _ _ Hp E) as (p2 & H2 & Hz & _ & _ & _ & Eb); [done|]. exists p2. split; [done|]. split; [done|].
    rewrite Eb. unfold Parser.on_token. destruct (_ || _).
    + unfold Parser.yydefault. destruct (_ =? 0); [done|]. by injection Hd as ->.
    + destruct (_ <=? 0); [|done]. by injection Hd as ->.
Qed.

Lemma wins_shift final x s ss vs c v toks t :
  decided s ((c, v) :: toks) = Shift t -> alen (s :: ss) < YYMAXDEPTH ->
  (forall y, (v <> no_value -> y = v) -> wins final x (t :: s :: ss) (y :: vs) toks) -> wins final x (s :: ss) vs ((c, v) :: toks).
Proof.
  intros Hd Hl Hw p Hp. destruct (decided_shift s c v toks t Hd) as (Hf & Hn & Hc & Ht).
  destruct (setstate_backup _ _ _ _ _ _ Hp Hf Hl) as (p2 & H2 & Hz & E).
  destruct (backup_token _ s _ _ _ _ _ _ H2 Hn Hc) as (p3 & H3 & Hz3 & _ & Hfd & Hv & Eb).
  rewrite Eb, Ht in E. destruct H3 as [Hx Hs Hvs He Hsz H0 _].
  unfold shift, bind, get in E. rewrite He in E. unfold ret, push_state, set_lookahead, modify in E. cbn [Z.eqb] in E.
  match type of E with _ = (_, ?p4) => destruct (Hw (yylval p3) Hv p4) as (fuel & p' & Er & Ex) end.
  { constructor; cbn; try done; [by rewrite Hs|by rewrite Hvs| |by apply ahead_unread]. unfold alen in *. cbn [length] in *. lia. }
  exists (S fuel), p'. split; [|done]. by eapply yyparse_next.
Qed.

(** The value before the action of a rule with [n] symbols. *)
Definition value_before (n : nat) (vs : list YYSTYPE) : option YYSTYPE := match n with O => Some no_value | S n => vs !! n end.

Lemma wins_reduce final x s ss vs toks yyn n yyval y x' p rest t :
  decided s toks = Reduce yyn -> aget yyr2 yyn = Z.of_nat n -> drop n (s :: ss) = p :: rest -> value_before n vs = Some yyval ->
  (forall place, semantic_action local_condition local_aggregate place yyn vs yyval x = (Ok y, x')) -> goto_state yyn p = t ->
  alen (s :: ss) < YYMAXDEPTH ->
  wins final x' (t :: p :: rest) (y :: drop n vs) toks -> wins final x (s :: ss) vs toks.
Proof.
  intros Hd Hn Hdr Hv Ha <- Hl Hw p0 Hp.
  destruct (decided_reduce _ _ _ _ _ _ _ Hd Hp) as (Hf & _).
  destruct (setstate_backup _ _ _ _ _ _ Hp Hf Hl) as (p2 & H2 & Hz & E).
  destruct (decided_reduce _ _ _ _ _ _ _ Hd H2) as (_ & p3 & H3 & Hz3 & Eb). rewrite Eb in E. rewrite <- Hz3 in Hz.
  destruct H3 as [Hx Hs Hvs He Hsz H0 Hah]. unfold Parser.yyreduce, bind, get in E. rewrite Hn, Nat2Z.id in E.
  assert (Ev : (if Z.of_nat n =? 0 then ret no_value else of_res (v_at (yyvs p3) (Z.to_nat (Z.of_nat n - 1)))) p3 = (Ok yyval, p3)).
  { destruct n as [|n]; [by injection Hv as ->|]. rewrite (proj2 (Z.eqb_neq _ _)) by lia.
    replace (Z.to_nat (Z.of_nat (S n) - 1)) with n by lia. unfold v_at, of_res. rewrite Hvs. cbn [value_before] in Hv. by rewrite Hv. }
  rewrite Ev in E. unfold run_action in E. rewrite Hvs, Hx, Ha in E.
  unfold modify, top, push_state, bind, get, of_res, ret in E. cbn [yyss with_extra with_stacks] in E. rewrite Hs, Hdr in E. cbn in E.
  match type of E with _ = (_, ?p4) => destruct (Hw p4) as (fuel & p' & Er & Ex) end.
  { constructor; cbn; [done|done|by rewrite Hvs|done| |done|by destruct Hah; [apply ahead_unread|eapply ahead_read]].
    apply (f_equal length) in Hdr. rewrite length_drop in Hdr. unfold alen in *. cbn [length] in *. lia. }
  exists (S fuel), p'. split; [|done]. by eapply yyparse_next.
Qed.

Lemma wins_accept (final : ParserContext -> Prop) x ss vs toks :
  alen (YYFINAL :: ss) < YYINITDEPTH -> final x -> wins final x (YYFINAL :: ss) vs toks.
Proof.
  intros Hl Hfin p [Hx Hs _ _ _ H0 _]. exists 1%nat, p. split; [|by rewrite Hx]. cbn [Parser.yyparse_from]. unfold bind at 1.
  assert (E : yysetstate p = (Ok (Some 0), p)); [|by rewrite E].
  unfold Parser.yysetstate, bind at 1, get. unfold top, bind, get, of_res. rewrite Hs. cbn [head non_null].
  change (YYFINAL =? YYFINAL) with true. cbv iota. rewrite (proj2 (Z.leb_gt _ _)) by lia. done.
Qed.

(** More fuel does not change a result. *)
Lemma more_fuel fuel fuel' p r p' :
  yyparse_from fuel p = (r, p') -> r <> OutOfFuel -> (fuel <= fuel')%nat -> yyparse_from fuel' p = (r, p').
Proof.
  revert fuel' p. induction fuel as [|fuel IH]; intros fuel' p E Hr Hf; [by injection E as <- _|]. destruct fuel' as [|fuel']; [lia|].
  cbn [Parser.yyparse_from] in *. unfold bind in *. destruct (yysetstate p) as [[[res|]| | |] p2]; try done. apply IH; [done|done|lia].
Qed.
End Runs.

(** The parser succeeds on a text whose tokens lead it to the end. *)
Lemma wins_parse lc la text toks final :
  is_text text -> lexes text (Ok toks) -> wins lc la final zero_context [0] [] toks ->
  exists x, sql_parse lc la (text ++ [0]) = Ok (0, x) /\ final x.
Proof.
  intros Ht Hl Hw. destruct (remains_start text Ht) as (g & E & Hr).
  destruct (Hw (yyparse_start zero_context g)) as (fuel & p' & Er & Ex).
  { constructor; cbn; try done. apply ahead_unread; [done|]. by eapply lexes_feeds. }
  pose proof (sql_parse_run lc la text Ht) as Hrun. unfold sql_parse in *. rewrite E in *.
  destruct (Parser.yyparse_from lc la (steps_for (text ++ [0])) _) as [r p2] eqn:E2.
  assert (Hr2 : r <> OutOfFuel) by (by intros ->).
  assert (E3 : (r, p2) = (Ok 0, p')).
  { destruct (Nat.le_ge_cases fuel (steps_for (text ++ [0]))) as [Hle|Hle].
    - rewrite <- E2. by eapply more_fuel.
    - rewrite <- Er. symmetry. by eapply more_fuel. }
  injection E3 as -> ->. by exists (extra p').
Qed.

(** ** The rows so far *)

(** [rows] are complete, and the values of [row] have been read. *)
Record filling (rows : list (list Value)) (row : list Value) (x : ParserContext) : Prop := {
  fi_pairs : the_insertion (ssql_sstr x) = Ok {| in_relation := EmptyString; in_pairs := rows |};
  fi_num : insert_pair_num x = alen rows;
  fi_length : value_length x = alen row;
  fi_values : exists rest, values x = row ++ rest /\ alen (row ++ rest) = MAX_NUM }.

Lemma filling_start : filling [] [] zero_context.
Proof. constructor; try done. by exists (zeros cleared_value). Qed.

Lemma aset_middle {A} (l : list A) a b rest : aset (l ++ a :: rest) (alen l) b = l ++ b :: rest.
Proof. unfold aset, alen. rewrite (proj2 (Z.ltb_ge _ _)) by lia. rewrite Nat2Z.id, insert_app_r_alt by done. by rewrite Nat.sub_diag. Qed.

Lemma store_run (l : list Value) i v : 0 <= i < alen l -> store l i v = Ok (aset l i v).
Proof.
  intros Hi. unfold store, in_array. rewrite (proj2 (Z.leb_le _ _)), (proj2 (Z.ltb_lt _ _)) by lia. done.
Qed.

(** A constant is appended. *)
Lemma push_filling rows row x v :
  filling rows row x -> alen row < MAX_NUM ->
  exists x', push_value (Ok v) x = (Ok (value1_value (alen row)), x') /\ filling rows (row ++ [v]) x'.
Proof.
  intros [Hp Hn Hl (rest & Hv & Hr)] Hrow. rewrite alen_app in Hr. destruct rest as [|a rest]; [rewrite alen_nil in Hr; lia|].
  pose proof (alen_nonneg row). eexists. split.
  - unfold push_value, store_value, set_value_length, bind, of_res, get, modify, ret. rewrite Hl, Hv.
    rewrite store_run; [reflexivity|]. rewrite alen_app. lia.
  - constructor; cbn; [done|done|rewrite alen_app; unfold alen; cbn; lia|]. exists rest. split.
    + rewrite aset_middle. by rewrite <- app_assoc.
    + rewrite <- app_assoc, alen_app. done.
Qed.

(** The constant that has been read last. *)
Lemma last_filling rows row v x :
  filling rows (row ++ [v]) x ->
  in_array (values x) (alen row) = Ok tt /\ values x !! Z.to_nat (alen row) = Some v /\ value_length x - 1 = alen row.
Proof.
  intros [_ _ Hl (rest & Hv & Hr)]. rewrite <- app_assoc in Hv, Hr. rewrite Hv. rewrite alen_app in Hr.
  pose proof (alen_nonneg rest). pose proof (alen_nonneg row). cbn [app] in *. rewrite alen_cons in Hr. split_and!.
  - unfold in_array. rewrite alen_app, alen_cons. by rewrite (proj2 (Z.leb_le _ _)), (proj2 (Z.ltb_lt _ _)) by lia.
  - unfold alen. rewrite Nat2Z.id. by rewrite list_lookup_middle.
  - rewrite Hl, alen_app. unfold alen. cbn. lia.
Qed.

(** It is replaced, when a sign is before it. *)
Lemma replace_filling rows row v v' x :
  filling rows (row ++ [v]) x ->
  exists x', store_value (value_length x - 1) v' x = (Ok tt, x') /\ filling rows (row ++ [v']) x'.
Proof.
  intros H. destruct (last_filling _ _ _ _ H) as (Hin & _ & Hlast). destruct H as [Hp Hn Hl (rest & Hv & Hr)].
  eexists. split.
  - unfold store_value, bind, of_res, get, modify. rewrite Hlast. unfold store. rewrite Hin. reflexivity.
  - constructor; cbn; [done|done|by rewrite Hl, !alen_app|]. exists rest. rewrite Hv, <- !app_assoc. cbn [app].
    rewrite aset_middle. split; [done|].
    rewrite <- app_assoc in Hr. cbn [app] in Hr. rewrite alen_app, alen_cons in Hr. by rewrite alen_app, alen_cons.
Qed.

(** A row is complete. *)
Lemma append_filling rows row x :
  filling rows row x -> alen rows < MAX_NUM -> alen row < MAX_NUM ->
  exists x', append_values x = (Ok tt, x') /\ filling (rows ++ [row]) [] x'.
Proof.
  intros [Hp Hn Hl (rest & Hv & Hr)] Hrows Hrow.
  assert (Ht : take (Z.to_nat (value_length x)) (values x) = row).
  { rewrite Hl, Hv. unfold alen. rewrite Nat2Z.id. apply take_app_length. }
  eexists. split.
  - unfold append_values, bind, get, of_res. rewrite Hp, Ht, Hn. unfold inserts_append_values. cbn [in_pairs in_relation].
    unfold asserting. rewrite !(proj2 (Z.ltb_lt _ _)) by lia. cbn [res_bind]. rewrite (proj2 (Z.ltb_ge _ _)) by lia. reflexivity.
  - constructor; cbn; [done|rewrite Hn, alen_app; unfold alen; cbn; lia|done|]. exists (row ++ rest). by split.
Qed.

(** ** Constants *)

(** The bytes of a string between its quotation marks. *)
Definition string_char (b : Z) : bool :=
  (b =? 32) || (b =? 95) || (b =? 47) || (b =? 46) || (b =? 45) || ((65 <=? b) && (b <=? 90)) || ((97 <=? b) && (b <=? 122)) ||
  ((48 <=? b) && (b <=? 57)).

Inductive sql_literal := IntLit (n : Z) | NullLit | StringLit (s : list Z).

Definition literal_ok (l : sql_literal) : Prop :=
  match l with IntLit n => - 2 ^ 31 < n < 2 ^ 31 | NullLit => True | StringLit s => Forall (fun b => string_char b = true) s end.

Definition string_of (s : list Z) : Value := {| v_type := CHARS; v_isnull := false; v_data := s ++ [0] |}.

Definition literal_value (l : sql_literal) : Value :=
  match l with IntLit n => value_init_integer n | NullLit => value_init_null | StringLit s => string_of s end.

Definition quoted (s : list Z) : list Z := 39 :: s ++ [39].

Definition literal_tokens (l : sql_literal) : list (Z * YYSTYPE) :=
  match l with
  | IntLit n => (if n <? 0 then [(Token.SUB, no_value)] else []) ++ [(Token.NUMBER, number_value (Z.abs n))]
  | NullLit => [(Token.NULL_T, no_value)]
  | StringLit s => [(Token.SSS, string_value (quoted s))]
  end.

Lemma negate_int m : 0 <= m < 2 ^ 31 -> negate_value (value_init_integer m) = Ok (value_init_integer (- m)).
Proof.
  intros Hm. assert (Hr : rd32 (le32 m) 0 = m).
  { unfold rd32. change (load (le32 m) 0 4) with (le32 m). apply of_le32_le32. split; lia. }
  unfold negate_value, value_init_integer. cbn [v_data v_type]. change (alen (le32 m) <? 4) with false. cbv iota. rewrite Hr.
  rewrite int32_id by (split; lia). reflexivity.
Qed.

Lemma string_constant s : Forall (fun b => string_char b = true) s ->
  value_init_string (substr (quoted s) 1 (alen (quoted s) - 2) ++ [0]) = Ok (string_of s).
Proof.
  intros Hs. assert (E : substr (quoted s) 1 (alen (quoted s) - 2) = s).
  { unfold substr, quoted. rewrite alen_cons, alen_app. change (alen [39]) with 1. change (drop (Z.to_nat 1) (39 :: s ++ [39])) with (s ++ [39]).
    replace (Z.to_nat _) with (length s) by (unfold alen; lia). apply take_app_length. }
  rewrite E. unfold value_init_string. change ([0]) with (0 :: []). rewrite cstr_text; [done|].
  eapply Forall_impl; [exact Hs|]. intros b Hb. unfold string_char in Hb. lia.
Qed.

(** A token that is a constant. *)
Inductive constant : Z * YYSTYPE -> Value -> Prop :=
| constant_int n : constant (Token.NUMBER, number_value n) (value_init_integer n)
| constant_null : constant (Token.NULL_T, no_value) value_init_null
| constant_string s : Forall (fun b => string_char b = true) s -> constant (Token.SSS, string_value (quoted s)) (string_of s).

Section Rows.
Variable local_condition : Z -> Condition.
Variable local_aggregate : Z -> Aggregate.
Variable final : ParserContext -> Prop.

Abbreviation wins := (wins local_condition local_aggregate final).
Abbreviation semantic_action := (semantic_action local_condition local_aggregate).

Lemma value_is_exp rows row v x place vs yyval :
  filling rows (row ++ [v]) x ->
  semantic_action place 65 (value1_value (alen row) :: vs) yyval x = (Ok (ast1_value (newvalNode v)), x).
Proof.
  intros H. destruct (last_filling _ _ _ _ H) as (Hin & Hv & _).
  change (semantic_action place 65 (value1_value (alen row) :: vs) yyval x) with
    (((of_res (in_array (values x) (alen row)) ;; let! v := of_res (non_null (values x !! Z.to_nat (alen row))) in ret (ast1_value (newvalNode v))) : M ParserContext YYSTYPE) x).
  unfold bind, of_res. by rewrite Hin, Hv.
Qed.

Ltac depth := unfold YYMAXDEPTH, alen in *; cbn [length] in *; lia.
Ltac shift := eapply wins_shift; [vm_compute; reflexivity|depth|intros ? Hy; try rewrite Hy by done; clear Hy].
Ltac reduce n :=
  eapply (wins_reduce _ _ _ _ _ _ _ _ _ n); [vm_compute; reflexivity|vm_compute; reflexivity|reflexivity|reflexivity| |vm_compute; reflexivity|depth|].

Lemma wins_value s0 sE rows row x ss vs tok v rest :
  (s0, sE) ∈ [(126, 151); (179, 151); (228, 151); (64, 88)] -> constant tok v -> filling rows row x -> alen row < MAX_NUM ->
  alen ss + 4 < YYMAXDEPTH ->
  (forall x', filling rows (row ++ [v]) x' -> wins x' (sE :: s0 :: ss) (ast1_value (newvalNode v) :: vs) rest) ->
  wins x (s0 :: ss) vs (tok :: rest).
Proof.
  intros Hs Hc Hf Hr Hd Hw. destruct (push_filling rows row x v Hf Hr) as (x1 & E1 & F1). specialize (Hw x1 F1).
  repeat (apply elem_of_cons in Hs as [[= -> ->]|Hs]; [destruct Hc as [n| |s Hs']|]); try by apply elem_of_nil in Hs.
  all: shift; reduce 1%nat; [intros place; try exact E1|cbn [drop]; reduce 1%nat; [intros place; by eapply value_is_exp|exact Hw]].
  all: rewrite <- E1, <- (string_constant s Hs'); reflexivity.
Qed.

Lemma store_exp rows row v v' a x :
  filling rows (row ++ [v]) x -> context_value_init a = Ok v' ->
  exists x', (forall place vs yyval, semantic_action place 50 (ast1_value a :: vs) yyval x = (Ok yyval, x')) /\ filling rows (row ++ [v']) x'.
Proof.
  intros Hf Ha. destruct (replace_filling _ _ _ v' _ Hf) as (x' & E & F). exists x'. split; [|done]. intros place vs yyval.
  change (semantic_action place 50 (ast1_value a :: vs) yyval x) with
    ((let! v := of_res (context_value_init a) in let! x := get in store_value (value_length x - 1) v ;; ret yyval) x).
  unfold bind at 1 2, of_res, get. rewrite Ha. unfold bind. by rewrite E.
Qed.

(** What may stand behind a constant. *)
Definition delimiter (c : Z) : Prop := c = Token.COMMA \/ c = Token.RBRACE.

Lemma wins_literal s0 sI l rows row x ss vs c rest :
  (s0, sI) ∈ [(126, 150); (179, 204); (228, 237)] -> delimiter c -> literal_ok l -> filling rows row x -> alen row < MAX_NUM ->
  alen ss + 6 < YYMAXDEPTH ->
  (forall x' y, filling rows (row ++ [literal_value l]) x' -> wins x' (sI :: s0 :: ss) (y :: vs) ((c, no_value) :: rest)) ->
  wins x (s0 :: ss) vs (literal_tokens l ++ (c, no_value) :: rest).
Proof.
  intros Hs Hc Hl Hf Hr Hd Hw.
  assert (Hexp : forall a v x1, filling rows (row ++ [v]) x1 -> context_value_init a = Ok (literal_value l) ->
    wins x1 (151 :: s0 :: ss) (ast1_value a :: vs) ((c, no_value) :: rest)).
  { intros a v x1 F Ha. destruct (store_exp _ _ _ _ _ _ F Ha) as (x2 & E & F2). specialize (Hw x2 (ast1_value a) F2).
    repeat (apply elem_of_cons in Hs as [[= -> ->]|Hs]; [|]); try by apply elem_of_nil in Hs.
    all: destruct Hc as [-> | ->]; (reduce 1%nat; [intros place; apply E|exact Hw]). }
  assert (Hone : forall tok v, constant tok v -> context_value_init (newvalNode v) = Ok (literal_value l) ->
    wins x (s0 :: ss) vs (tok :: (c, no_value) :: rest)).
  { intros tok v Hcst Ev. eapply (wins_value s0 151 rows row x ss vs tok v _); [|done|done|done|lia|].
    - repeat (apply elem_of_cons in Hs as [[= -> ->]|Hs]; [by rewrite !elem_of_cons; auto|]); by apply elem_of_nil in Hs.
    - intros x1 F1. by apply (Hexp _ _ _ F1). }
  destruct l as [n| |s]; cbn [literal_tokens]; [|by eapply Hone; [constructor|]|by eapply Hone; [by constructor|]].
  destruct (Z.ltb_spec n 0) as [Hn|Hn]; cbn [app]; [|rewrite Z.abs_eq by done; by eapply Hone; [constructor|]].
  assert (Hneg : forall y, wins x (64 :: s0 :: ss) (y :: vs) ((Token.NUMBER, number_value (Z.abs n)) :: (c, no_value) :: rest)).
  { intros y. eapply (wins_value 64 88 rows row x (s0 :: ss) (y :: vs) _ (value_init_integer (Z.abs n)) _); [by rewrite !elem_of_cons; auto|constructor|done|done|depth|].
    intros x1 F1. assert (Ev : context_value_init (newast SUBN NullAst (newvalNode (value_init_integer (Z.abs n)))) = Ok (value_init_integer n)).
    { cbn [context_value_init newast newvalNode]. cbn [literal_ok] in Hl. rewrite negate_int by lia. do 2 f_equal. lia. }
    specialize (Hexp _ _ _ F1 Ev).
    repeat (apply elem_of_cons in Hs as [[= -> ->]|Hs]; [|]); try by apply elem_of_nil in Hs.
    all: destruct Hc as [-> | ->]; (reduce 2%nat; [intros place; reflexivity|exact Hexp]). }
  repeat (apply elem_of_cons in Hs as [[= -> ->]|Hs]; [|]); try by apply elem_of_nil in Hs.
  all: shift; apply Hneg.
Qed.

Fixpoint value_list_tokens (ls : list sql_literal) : list (Z * YYSTYPE) :=
  match ls with [] => [] | l :: ls => (Token.COMMA, no_value) :: literal_tokens l ++ value_list_tokens ls end.

Lemma value_list_next ls rest :
  exists c rest', value_list_tokens ls ++ (Token.RBRACE, no_value) :: rest = (c, no_value) :: rest' /\ delimiter c.
Proof. destruct ls as [|l ls]; eexists _, _; (split; [reflexivity|]); unfold delimiter; auto. Qed.

(** The rest of a row. *)
Lemma wins_value_list ls : forall s0 sV rows row x ss vs rest,
  (s0, sV) ∈ [(150, 180); (204, 217); (237, 247)] -> Forall literal_ok ls -> filling rows row x -> alen rows < MAX_NUM ->
  alen row + alen ls < MAX_NUM -> alen ss + 3 * alen ls + 8 < YYMAXDEPTH ->
  (forall x' y, filling (rows ++ [row ++ map literal_value ls]) [] x' ->
    wins x' (sV :: s0 :: ss) (y :: vs) ((Token.RBRACE, no_value) :: rest)) ->
  wins x (s0 :: ss) vs (value_list_tokens ls ++ (Token.RBRACE, no_value) :: rest).
Proof.
  induction ls as [|l ls IH]; intros s0 sV rows row x ss vs rest Hs Hok Hf Hrows Hr Hd Hw.
  - rewrite alen_nil in Hr. destruct (append_filling rows row x Hf) as (x' & E & F); [lia..|].
    cbn [map] in Hw. rewrite app_nil_r in Hw. specialize (fun y => Hw x' y F).
    assert (Ha : forall place, semantic_action place 51 vs no_value x = (Ok no_value, x')).
    { intros place. change (semantic_action place 51 vs no_value x) with ((append_values ;; ret no_value) x). unfold bind. by rewrite E. }
    repeat (apply elem_of_cons in Hs as [[= -> ->]|Hs]; [|]); try by apply elem_of_nil in Hs.
    all: cbn [value_list_tokens app]; (reduce 0%nat; [exact Ha|apply Hw]).
  - apply Forall_cons in Hok as [Hl Hok]. rewrite alen_cons in Hr, Hd. pose proof (alen_nonneg ls). pose proof (alen_nonneg ss).
    cbn [value_list_tokens app]. rewrite <- app_assoc.
    destruct (value_list_next ls rest) as (c & rest' & E & Hc).
    assert (H179 : forall y, wins x (179 :: s0 :: ss) (y :: vs) (literal_tokens l ++ value_list_tokens ls ++ (Token.RBRACE, no_value) :: rest)).
    { intros y. rewrite E. eapply (wins_literal 179 204 l rows row); [by rewrite !elem_of_cons; auto|done|done|done|lia|rewrite alen_cons; lia|].
      intros x1 y1 F1. rewrite <- E.
      eapply (IH 204 217 rows _ x1 (179 :: s0 :: ss)); [by rewrite !elem_of_cons; auto|done|exact F1|done| | |].
      { rewrite alen_app. unfold alen in *. cbn [length]. lia. } { rewrite !alen_cons. lia. }
      intros x2 y2 F2. rewrite <- app_assoc in F2. specialize (fun y => Hw x2 y F2).
      repeat (apply elem_of_cons in Hs as [[= -> ->]|Hs]; [|]); try by apply elem_of_nil in Hs.
      all: reduce 3%nat; [intros place; reflexivity|apply Hw]. }
    repeat (apply elem_of_cons in Hs as [[= -> ->]|Hs]; [|]); try by apply elem_of_nil in Hs.
    all: shift; apply H179.
Qed.

(** ** Rows *)

Definition row_tokens (r : list sql_literal) : list (Z * YYSTYPE) :=
  match r with
  | [] => []
  | l :: ls => (Token.LBRACE, no_value) :: literal_tokens l ++ value_list_tokens ls ++ [(Token.RBRACE, no_value)]
  end.

Fixpoint pair_list_tokens (rs : list (list sql_literal)) : list (Z * YYSTYPE) :=
  match rs with [] => [] | r :: rs => (Token.COMMA, no_value) :: row_tokens r ++ pair_list_tokens rs end.

Definition row_ok (r : list sql_literal) : Prop := r <> [] /\ alen r < MAX_NUM /\ Forall literal_ok r.

(** A row behind its opening brace. *)
Lemma wins_row s0 sI sV r rows x ss vs rest :
  (s0, sI, sV) ∈ [(126, 150, 180); (228, 237, 247)] -> row_ok r -> filling rows [] x -> alen rows < MAX_NUM ->
  alen ss + 100 < YYMAXDEPTH ->
  (forall x' y y', filling (rows ++ [map literal_value r]) [] x' ->
    wins x' (sV :: sI :: s0 :: ss) (y' :: y :: vs) ((Token.RBRACE, no_value) :: rest)) ->
  wins x (s0 :: ss) vs (tail (row_tokens r) ++ rest).
Proof.
  intros Hs (Hne & Hr & Hok) Hf Hrows Hd Hw. destruct r as [|l ls]; [done|]. apply Forall_cons in Hok as [Hl Hok].
  cbn [row_tokens tail]. rewrite <- !app_assoc. cbn [app]. destruct (value_list_next ls rest) as (c & rest' & E & Hc). rewrite E.
  rewrite alen_cons in Hr. pose proof (alen_nonneg ls). pose proof (alen_nonneg ss). unfold MAX_NUM in *.
  eapply (wins_literal s0 sI l rows []); [|done|done|done|rewrite alen_nil; unfold MAX_NUM; lia|lia|].
  - repeat (apply elem_of_cons in Hs as [[= -> -> ->]|Hs]; [by rewrite !elem_of_cons; auto|]); by apply elem_of_nil in Hs.
  - intros x1 y F1. rewrite <- E. cbn [app] in F1.
    eapply (wins_value_list ls sI sV rows _ x1); [|done|exact F1|done|..].
    + repeat (apply elem_of_cons in Hs as [[= -> -> ->]|Hs]; [by rewrite !elem_of_cons; auto|]); by apply elem_of_nil in Hs.
    + unfold alen, MAX_NUM in *. cbn [length]. lia.
    + rewrite alen_cons. lia.
    + intros x2 y' F2. apply Hw. exact F2.
Qed.

Lemma wins_pair_list rs : forall s0 sP rows x ss vs,
  (s0, sP) ∈ [(205, 219); (261, 266)] -> Forall row_ok rs -> filling rows [] x -> alen rows + alen rs <= MAX_NUM ->
  alen ss + 6 * alen rs + 110 < YYMAXDEPTH ->
  (forall x' y, filling (rows ++ map (map literal_value) rs) [] x' ->
    wins x' (sP :: s0 :: ss) (y :: vs) [(Token.SEMICOLON, no_value); (0, no_value)]) ->
  wins x (s0 :: ss) vs (pair_list_tokens rs ++ [(Token.SEMICOLON, no_value); (0, no_value)]).
Proof.
  induction rs as [|r rs IH]; intros s0 sP rows x ss vs Hs Hok Hf Hrows Hd Hw.
  - cbn [map] in Hw. rewrite app_nil_r in Hw.
    repeat (apply elem_of_cons in Hs as [[= -> ->]|Hs]; [|]); try by apply elem_of_nil in Hs.
    all: cbn [pair_list_tokens app]; (reduce 0%nat; [intros place; reflexivity|by apply Hw]).
  - apply Forall_cons in Hok as [Hr Hok]. rewrite alen_cons in Hrows, Hd. pose proof (alen_nonneg rs). pose proof (alen_nonneg ss).
    assert (H228 : forall y y', wins x (228 :: 218 :: s0 :: ss) (y :: y' :: vs)
      (tail (row_tokens r) ++ pair_list_tokens rs ++ [(Token.SEMICOLON, no_value); (0, no_value)])).
    { intros y y'. eapply (wins_row 228 237 247 r rows); [by rewrite !elem_of_cons; auto|done|done|lia|rewrite !alen_cons; lia|].
      intros x1 y1 y2 F1. shift.
      eapply (IH 261 266); [by rewrite !elem_of_cons; auto|done|exact F1|rewrite alen_app; unfold alen in *; cbn [length]; lia| |].
      { rewrite !alen_cons. lia. }
      intros x2 y3 F2. rewrite <- app_assoc in F2. cbn [app] in F2. specialize (fun y => Hw x2 y F2).
      repeat (apply elem_of_cons in Hs as [[= -> ->]|Hs]; [|]); try by apply elem_of_nil in Hs.
      all: reduce 6%nat; [intros place; reflexivity|apply Hw]. }
    destruct Hr as (Hne & _). destruct r as [|l ls]; [done|]. cbn [pair_list_tokens app]. rewrite <- app_assoc. cbn [row_tokens app] in *.
    cbn [tail] in H228.
    repeat (apply elem_of_cons in Hs as [[= -> ->]|Hs]; [|]); try by apply elem_of_nil in Hs.
    all: shift; shift; apply H228.
Qed.

(** ** The statement *)

Definition insert_tokens (t : list Z) (r : list sql_literal) (rs : list (list sql_literal)) : list (Z * YYSTYPE) :=
  (Token.INSERT, no_value) :: (Token.INTO, no_value) :: (Token.ID, string_value t) :: (Token.VALUES, no_value) ::
  row_tokens r ++ pair_list_tokens rs ++ [(Token.SEMICOLON, no_value); (0, no_value)].

Definition insertion_of (t : list Z) (rows : list (list sql_literal)) : Inserts :=
  {| in_relation := c_name t; in_pairs := map (map literal_value) rows |}.

Lemma end_filling rows x t :
  filling rows [] x ->
  exists x', end_insert (Ok (c_name t)) x = (Ok tt, x') /\ ssql_flag x' = Flag.SCF_INSERT /\
    ssql_sstr x' = an_insertion {| in_relation := c_name t; in_pairs := rows |}.
Proof.
  intros [Hp _ _ _]. eexists. split.
  - unfold end_insert, bind, of_res, get, set_statement, set_value_length, modify. rewrite Hp. reflexivity.
  - by split.
Qed.

Lemma wins_insert t r rs :
  Forall row_ok (r :: rs) -> alen (r :: rs) <= MAX_NUM ->
  (forall x, ssql_flag x = Flag.SCF_INSERT -> ssql_sstr x = an_insertion (insertion_of t (r :: rs)) -> final x) ->
  wins zero_context [0] [] (insert_tokens t r rs).
Proof.
  intros Hok Hn Hfin. apply Forall_cons in Hok as [Hr Hok]. rewrite alen_cons in Hn. pose proof (alen_nonneg rs). unfold MAX_NUM in Hn.
  unfold insert_tokens. reduce 0%nat; [intros place; reflexivity|]. shift. shift. shift. shift.
  assert (H126 : forall z1 z2 z3 z4 z5, wins zero_context [126; 104; 83; 48; 9; 1; 0] [z5; z4; string_value t; z3; z2; z1]
    (tail (row_tokens r) ++ pair_list_tokens rs ++ [(Token.SEMICOLON, no_value); (0, no_value)])).
  { intros z1 z2 z3 z4 z5.
    eapply (wins_row 126 150 180 r []); [by rewrite !elem_of_cons; auto|done|apply filling_start|done|done|].
    intros x1 z6 z7 F1. shift.
    eapply (wins_pair_list rs 205 219); [by rewrite !elem_of_cons; auto|done|exact F1|by unfold alen in *; cbn [length app]; unfold MAX_NUM; lia| |].
    { unfold YYMAXDEPTH, alen in *. cbn [length]. lia. }
    intros x2 z9 F2. destruct (end_filling _ _ t F2) as (x3 & E & Hflag & Hq). cbn [app] in Hq.
    shift. reduce 10%nat.
    { intros place. match goal with |- _ ?vs ?yyval x2 = _ => change (semantic_action place 49 vs yyval x2) with ((end_insert (Ok (c_name t)) ;; ret yyval) x2) end.
      unfold bind. by rewrite E. }
    reduce 1%nat; [intros place; reflexivity|]. reduce 2%nat; [intros place; reflexivity|].
    shift. apply wins_accept; [done|]. by apply Hfin. }
  destruct Hr as (Hne & _). destruct r as [|l ls]; [done|]. cbn [row_tokens app] in *. rewrite <- !app_assoc. cbn [app]. cbn [tail] in H126.
  shift. rewrite <- !app_assoc in H126. apply H126.
Qed.
End Rows.

(** ** Scanning the text *)

Definition jams (s c : Z) : bool := match transition s c with Ok s' => s' =? jam_state | _ => false end.

Record lexed (text : list Z) (toks : list (Z * YYSTYPE)) : Prop := { lx_text : is_text text; lx_lexes : lexes text (Ok toks) }.

(** A text that a state accepts is a token when it cannot be continued. *)
Lemma token_of_walk w s rest :
  is_text (w ++ rest) -> w <> [] -> walk first_state w = Some s -> aget yy_accept s <> 0 ->
  match rest with [] => True | c :: _ => jams s c = true end -> token_at (w ++ rest) w (aget yy_accept s) rest.
Proof.
  intros Ht Hne Hw Ha Hj. assert (Hr : rule_of w = aget yy_accept s) by (unfold rule_of; by rewrite Hw).
  pose proof (proj1 (proj1 (Forall_app _ _ _) Ht)) as Htw.
  destruct (rule_of_spec w Htw) as [[? _]|[Hm Hf]]; [congruence|]. rewrite Hr in Hm, Hf. constructor; try done.
  intros w' m [u ->] [z Hz] Hm'. destruct u as [|c u]; [apply app_nil_r|]. exfalso.
  rewrite <- app_assoc in Hz. apply app_inv_head in Hz. subst rest. cbn [app] in Hj.
  assert (Ht' : is_text (w ++ c :: u)) by (rewrite app_assoc in Ht; by apply Forall_app in Ht as [? _]).
  assert (H0 : rule_of (w ++ c :: u) = 0).
  { unfold rule_of. rewrite walk_app, Hw. cbn [walk]. unfold jams in Hj. destruct (transition s c); try done. by rewrite Hj. }
  destruct (rule_of_spec _ Ht') as [[_ H]|[(r & H & _) _]]; [by apply (H m)|lia].
Qed.

Lemma lexed_word w s c v rest toks :
  is_text w -> w <> [] -> walk first_state w = Some s -> 3 <= aget yy_accept s -> token_value (aget yy_accept s) w = Ok (c, v) -> 0 < c ->
  match rest with [] => True | b :: _ => jams s b = true end -> lexed rest toks -> lexed (w ++ rest) ((c, v) :: toks).
Proof.
  intros Htw Hne Hw Ha Hv Hc Hj [Htr Hl]. assert (Ht : is_text (w ++ rest)) by (by apply Forall_app).
  split; [done|]. pose proof (token_of_walk w s rest Ht Hne Hw ltac:(lia) Hj) as Hat.
  pose proof (first_found _ _ _ _ Hat Ha) as Hff. rewrite Hv in Hff. exact (lexes_more _ _ _ _ _ Hff Hc Hl).
Qed.

Lemma lexed_nil : lexed [] [(0, no_value)].
Proof. split; [constructor|]. apply (lexes_stop _ _ _ []); [constructor|done]. Qed.

(** Bytes that no rule goes on behind, and their tokens. *)
Definition single_tokens : list (Z * Z) :=
  [(40, Token.LBRACE); (41, Token.RBRACE); (44, Token.COMMA); (45, Token.SUB); (59, Token.SEMICOLON)].

Definition stands_alone (b : Z) : bool :=
  match walk first_state [b] with Some s => negb (aget yy_accept s =? 0) && forallb (jams s) all_bytes | None => false end.

Lemma single_bytes :
  forallb (fun '(b, c) => (1 <=? b) && (b <? 256) && stands_alone b && (3 <=? rule_of [b]) &&
    bool_decide (rule_token (rule_of [b]) = Some c) && (0 <? c)) single_tokens = true.
Proof. vm_compute. reflexivity. Qed.

Lemma single_byte_token b rest : stands_alone b = true -> is_text (b :: rest) -> token_at (b :: rest) [b] (rule_of [b]) rest.
Proof.
  unfold stands_alone, rule_of. destruct (walk first_state [b]) as [s|] eqn:Hw; [|done]. intros Hb Ht. apply andb_prop in Hb as [Ha Hj].
  apply (token_of_walk [b] s rest); [done|done|done|lia|]. destruct rest as [|c rest]; [done|].
  apply Forall_cons in Ht as [_ Ht]. apply Forall_cons in Ht as [Hc _]. apply (forallb_at _ _ _ Hj).
  by rewrite <- list_elem_of_In, all_bytes_elem.
Qed.

Lemma lexed_byte b c rest toks : In (b, c) single_tokens -> lexed rest toks -> lexed (b :: rest) ((c, no_value) :: toks).
Proof.
  intros Hb [Ht Hl]. pose proof (forallb_at _ _ _ single_bytes Hb) as H. cbn beta iota in H.
  repeat (apply andb_prop in H as [H ?]). assert (Ht' : is_text (b :: rest)) by (constructor; [lia|done]). split; [done|].
  pose proof (first_found _ _ _ _ (single_byte_token b rest ltac:(done) Ht') ltac:(lia)) as Hff.
  assert (Hv : token_value (rule_of [b]) [b] = Ok (c, no_value)).
  { repeat (destruct Hb as [[= <- <-]|Hb]; [vm_compute; reflexivity|]). by destruct Hb. }
  rewrite Hv in Hff. exact (lexes_more _ _ _ _ _ Hff ltac:(lia) Hl).
Qed.

Lemma lexed_space rest toks : lexed rest toks -> lexed (32 :: rest) toks.
Proof.
  intros [Ht Hl]. assert (Ht' : is_text (32 :: rest)) by (by constructor). split; [done|].
  assert (Hat : token_at (32 :: rest) [32] 1 rest) by (apply (single_byte_token 32 rest); [by vm_compute|done]).
  destruct Hl as [text t v rest' Hf Hc|text t v rest' r Hf Hc Hl|text Hf].
  - eapply lexes_stop; [|done]. by eapply first_blank.
  - eapply lexes_more; [|done|exact Hl]. by eapply first_blank.
  - apply lexes_undefined. by eapply first_blank.
Qed.

(** ** Constants and names *)

(** A comma or a brace. *)
Definition delimited (rest : list Z) : Prop := match rest with c :: _ => c = 44 \/ c = 41 | [] => False end.

(** What a state accepts as a number or a string is not continued by a comma or a brace, and an identifier not by a blank. *)
Lemma jam_table :
  forallb (fun n => let s := Z.of_nat n in
    (if aget yy_accept s =? 57 then jams s 32 else true) &&
    (if (aget yy_accept s =? 3) || (aget yy_accept s =? 50) || (aget yy_accept s =? 70) then jams s 44 && jams s 41 else true)) (seq 0 204) = true.
Proof. vm_compute. reflexivity. Qed.

Lemma walk_range w s : is_text w -> walk first_state w = Some s -> In (Z.to_nat s) (seq 0 204) /\ Z.of_nat (Z.to_nat s) = s.
Proof. intros Ht Hw. destruct (walk_stands _ _ _ _ stands_first Ht Hw) as [Hs _]. rewrite in_seq. lia. Qed.

Lemma jams_delimited w s rest :
  is_text w -> walk first_state w = Some s -> aget yy_accept s = 3 \/ aget yy_accept s = 50 \/ aget yy_accept s = 70 -> delimited rest ->
  match rest with [] => True | c :: _ => jams s c = true end.
Proof.
  intros Ht Hw Ha Hr. destruct (walk_range w s Ht Hw) as [Hin Es]. pose proof (forallb_at _ _ _ jam_table Hin) as H. cbv beta zeta in H.
  rewrite Es in H. apply andb_prop in H as [_ H].
  assert (E : (aget yy_accept s =? 3) || (aget yy_accept s =? 50) || (aget yy_accept s =? 70) = true) by lia.
  rewrite E in H. apply andb_prop in H as [? ?]. destruct rest as [|c rest]; [done|]. by destruct Hr as [-> | ->].
Qed.

Lemma jams_blank w s : is_text w -> walk first_state w = Some s -> aget yy_accept s = 57 -> jams s 32 = true.
Proof.
  intros Ht Hw Ha. destruct (walk_range w s Ht Hw) as [Hin Es]. pose proof (forallb_at _ _ _ jam_table Hin) as H. cbv beta zeta in H.
  rewrite Es, Ha in H. by apply andb_prop in H as [H _].
Qed.

(** A set of states that a set of bytes does not leave. *)
Definition closed_under (f : Z -> bool) (states : list Z) : bool :=
  forallb (fun b => if f b then forallb (fun s => match walk s [b] with Some s' => existsb (Z.eqb s') states | None => false end) states else true)
    all_bytes.

Lemma walk_closed f states w s :
  closed_under f states = true -> is_text w -> Forall (fun b => f b = true) w -> In s states ->
  exists s', walk s w = Some s' /\ In s' states.
Proof.
  intros Hc Ht Hw. revert s. induction Hw as [|b w Hb Hw IH]; intros s Hs; [by exists s|]. apply Forall_cons in Ht as [Hbt Ht].
  assert (Hin : In b all_bytes) by (by rewrite <- list_elem_of_In, all_bytes_elem).
  pose proof (forallb_at _ _ _ Hc Hin) as H. cbn beta in H. rewrite Hb in H. pose proof (forallb_at _ _ _ H Hs) as H1. cbn beta in H1.
  change (b :: w) with ([b] ++ w). rewrite walk_app. destruct (walk s [b]) as [s1|]; [|done].
  apply existsb_exists in H1 as (s2 & Hs2 & E). apply Z.eqb_eq in E as ->. by apply IH.
Qed.

(** The states in a string and behind it; the states in a number. *)
Definition string_states : list Z := [9; 45].
Definition string_end : Z := 46.
Definition number_states : list Z := [18; 48].

Lemma string_walk : closed_under string_char string_states = true /\ closed_under is_digit number_states = true.
Proof. split; vm_compute; reflexivity. Qed.

Lemma string_text s : Forall (fun b => string_char b = true) s -> is_text (quoted s).
Proof.
  intros Hs. unfold quoted. constructor; [lia|]. apply Forall_app. split; [|by repeat constructor].
  eapply Forall_impl; [exact Hs|]. intros b Hb. unfold string_char in Hb. lia.
Qed.

Lemma walk_quoted s : Forall (fun b => string_char b = true) s -> walk first_state (quoted s) = Some string_end.
Proof.
  intros Hs. pose proof (string_text s Hs) as Ht. unfold quoted in *. apply Forall_cons in Ht as [_ Ht]. apply Forall_app in Ht as [Ht _].
  destruct (walk_closed _ _ s 9 (proj1 string_walk) Ht Hs) as (s' & E & Hs'); [by left|].
  change (39 :: s ++ [39]) with ([39] ++ (s ++ [39])). rewrite walk_app.
  assert (E0 : walk first_state [39] = Some 9) by (vm_compute; reflexivity). rewrite E0, walk_app, E.
  destruct Hs' as [<-|[<-|[]]]; vm_compute; reflexivity.
Qed.

Lemma walk_number ds : all_digits ds -> ds <> [] -> is_text ds /\ exists s, walk first_state ds = Some s /\ aget yy_accept s = 3.
Proof.
  intros Hd Hne. assert (Ht : is_text ds). { eapply Forall_impl; [exact Hd|]. intros b Hb. unfold is_digit in Hb. lia. }
  split; [done|]. destruct ds as [|d ds]; [done|]. apply Forall_cons in Hd as [Hdd Hd]. apply Forall_cons in Ht as [Hdt Ht].
  assert (H1 : forallb (fun b => if is_digit b then bool_decide (walk first_state [b] = Some 18) else true) all_bytes = true) by (vm_compute; reflexivity).
  assert (Hin : In d all_bytes) by (by rewrite <- list_elem_of_In, all_bytes_elem).
  pose proof (forallb_at _ _ _ H1 Hin) as H2. cbn beta in H2. rewrite Hdd in H2. apply bool_decide_eq_true in H2.
  destruct (walk_closed _ _ ds 18 (proj2 string_walk) Ht Hd) as (s' & E & Hs'); [by left|]. exists s'.
  change (d :: ds) with ([d] ++ ds). rewrite walk_app, H2. split; [done|]. by destruct Hs' as [<-|[<-|[]]].
Qed.

Definition literal_text (l : sql_literal) : list Z :=
  match l with IntLit n => decimal n | NullLit => bytes_of_string "NULL" | StringLit s => quoted s end.

Lemma lexed_number n rest toks :
  0 <= n < 2 ^ 31 -> delimited rest -> lexed rest toks -> lexed (decimal n ++ rest) ((Token.NUMBER, number_value n) :: toks).
Proof.
  intros Hn Hr Hl. destruct (decimal_digits n) as (ds & -> & Hd & Hv & Hne); [split; lia|].
  rewrite (proj2 (Z.ltb_ge _ _)) by lia. cbn [app]. destruct (walk_number ds Hd Hne) as (Ht & s & Hw & Ha).
  apply (lexed_word ds s); try done; [lia| |by eapply jams_delimited; eauto].
  rewrite Ha. unfold token_value, number_of_text.
  assert (E : atoi ds = n) by (destruct (atoi_digits ds [] Hd Hne) as [_ ->]; unfold numeral; lia).
  rewrite E. by rewrite (proj2 (Z.ltb_lt _ _)) by lia.
Qed.

Lemma lexed_literal l rest toks :
  literal_ok l -> delimited rest -> lexed rest toks -> lexed (literal_text l ++ rest) (literal_tokens l ++ toks).
Proof.
  intros Hok Hr Hl. destruct l as [n| |s]; cbn [literal_ok literal_text literal_tokens] in *.
  - destruct (Z.ltb_spec n 0) as [Hn|Hn].
    + assert (E : decimal n = 45 :: decimal (- n)).
      { unfold decimal. rewrite Z.abs_opp, (proj2 (Z.ltb_lt n 0)), (proj2 (Z.ltb_ge (- n) 0)) by lia. done. }
      rewrite E. cbn [app]. apply lexed_byte; [by cbn; auto|]. rewrite Z.abs_neq by lia. apply lexed_number; [lia|done|done].
    + rewrite Z.abs_eq by done. apply lexed_number; [lia|done|done].
  - assert (Ht : is_text (bytes_of_string "NULL")) by (unfold is_text; apply (bool_decide_unpack _); vm_compute; exact I).
    destruct (walk first_state (bytes_of_string "NULL")) as [s|] eqn:Hw; [|by vm_compute in Hw].
    assert (Ha : aget yy_accept s = 50) by (vm_compute in Hw; injection Hw as <-; done).
    apply (lexed_word _ s); try done; [lia|by rewrite Ha|by eapply jams_delimited; eauto].
  - apply (lexed_word _ string_end); try done; [by apply string_text|by apply walk_quoted|].
    eapply (jams_delimited (quoted s)); [by apply string_text|by apply walk_quoted|auto|done].
Qed.

(** ** The text of INSERT *)

Fixpoint value_list_text (ls : list sql_literal) : list Z :=
  match ls with [] => [] | l :: ls => 44 :: literal_text l ++ value_list_text ls end.

Definition row_text (r : list sql_literal) : list Z :=
  match r with [] => [] | l :: ls => 40 :: literal_text l ++ value_list_text ls ++ [41] end.

Fixpoint pair_list_text (rs : list (list sql_literal)) : list Z :=
  match rs with [] => [] | r :: rs => 44 :: row_text r ++ pair_list_text rs end.

(** [INSERT INTO t VALUES (...),(...);] *)
Definition insert_text (t : list Z) (rows : list (list sql_literal)) : list Z :=
  bytes_of_string "INSERT INTO " ++ t ++ bytes_of_string " VALUES " ++ tail (pair_list_text rows) ++ [59].

(** A name that the rule of identifiers matches, and none before it: no keyword. *)
Definition identifier (t : list Z) : Prop := is_text t /\ rule_matches 57 t /\ forall n, rule_matches n t -> 57 <= n.

Lemma delimited_list ls rest : delimited (value_list_text ls ++ 41 :: rest).
Proof. destruct ls; cbn; auto. Qed.

Lemma lexed_value_list ls rest toks :
  Forall literal_ok ls -> delimited rest -> lexed rest toks -> lexed (value_list_text ls ++ rest) (value_list_tokens ls ++ toks).
Proof.
  intros Hok Hr Hl. induction Hok as [|l ls Hlit Hok IH]; [done|]. cbn [value_list_text value_list_tokens app]. rewrite <- !app_assoc.
  apply lexed_byte; [by cbn; auto|]. apply lexed_literal; [done| |done]. destruct Hok; [done|by cbn; auto].
Qed.

Lemma lexed_row r rest toks : row_ok r -> lexed rest toks -> lexed (row_text r ++ rest) (row_tokens r ++ toks).
Proof.
  intros (Hne & _ & Hok) Hl. destruct Hok as [|l ls Hlit Hok]; [done|]. cbn [row_text row_tokens app]. rewrite <- !app_assoc. cbn [app].
  apply lexed_byte; [by cbn; auto|]. apply lexed_literal; [done|apply delimited_list|].
  apply lexed_value_list; [done|by right|]. apply lexed_byte; [by cbn; auto|done].
Qed.

Lemma lexed_pair_list rs rest toks : Forall row_ok rs -> lexed rest toks -> lexed (pair_list_text rs ++ rest) (pair_list_tokens rs ++ toks).
Proof.
  intros Hok Hl. induction Hok as [|r rs Hr Hok IH]; [done|]. cbn [pair_list_text pair_list_tokens app]. rewrite <- !app_assoc.
  apply lexed_byte; [by cbn; auto|]. by apply lexed_row.
Qed.

Lemma lexed_name t rest toks : identifier t -> lexed rest toks -> lexed (t ++ 32 :: rest) ((Token.ID, string_value t) :: toks).
Proof.
  intros (Ht & Hm & Hf) Hl. destruct (rule_of_spec t Ht) as [[_ H]|[H1 H2]]; [by apply H in Hm|].
  assert (Hr : rule_of t = 57) by (apply Z.le_antisymm; auto). unfold rule_of in Hr.
  destruct (walk first_state t) as [s|] eqn:Hw; [|done].
  assert (Hne : t <> []) by (by intros ->; vm_compute in Hw; injection Hw as <-).
  apply (lexed_word t s); try done; [lia|by rewrite Hr|by apply (jams_blank t)|by apply lexed_space].
Qed.

(** A keyword before a blank. *)
Lemma lexed_keyword w c rest toks :
  In (w, c) [(bytes_of_string "INSERT", Token.INSERT); (bytes_of_string "INTO", Token.INTO); (bytes_of_string "VALUES", Token.VALUES)] ->
  lexed rest toks -> lexed (w ++ 32 :: rest) ((c, no_value) :: toks).
Proof.
  intros Hin Hl. destruct (walk first_state w) as [s|] eqn:Hw.
  2: { exfalso. repeat (destruct Hin as [[= <- <-]|Hin]; [by vm_compute in Hw|]). by destruct Hin. }
  assert (H : is_text w /\ w <> [] /\ 3 <= aget yy_accept s /\ token_value (aget yy_accept s) w = Ok (c, no_value) /\ 0 < c /\ jams s 32 = true).
  { repeat (destruct Hin as [[= <- <-]|Hin];
      [vm_compute in Hw; injection Hw as <-; split; [unfold is_text; apply (bool_decide_unpack _); vm_compute; exact I|by vm_compute]|]).
    by destruct Hin. }
  destruct H as (? & ? & ? & ? & ? & ?). apply (lexed_word w s); try done. by apply lexed_space.
Qed.

Lemma lexed_insert t r rs : identifier t -> Forall row_ok (r :: rs) -> lexed (insert_text t (r :: rs)) (insert_tokens t r rs).
Proof.
  intros Ht Hok. apply Forall_cons in Hok as [Hr Hok]. unfold insert_text, insert_tokens. cbn [pair_list_text tail].
  change (bytes_of_string "INSERT INTO ") with (bytes_of_string "INSERT" ++ 32 :: bytes_of_string "INTO" ++ [32]).
  change (bytes_of_string " VALUES ") with (32 :: bytes_of_string "VALUES" ++ [32]). rewrite <- !app_assoc. cbn [app]. rewrite <- !app_assoc. cbn [app].
  apply lexed_keyword; [by left|]. apply lexed_keyword; [by right; left|]. apply lexed_name; [done|]. apply lexed_keyword; [by right; right; left|].
  apply lexed_row; [done|]. apply lexed_pair_list; [done|]. apply lexed_byte; [by cbn; auto 10|]. apply lexed_nil.
Qed.

(** C16. The text of an INSERT of one to twenty rows, each of one to nineteen integers, nulls and plain strings, into a table whose
    name is an identifier and no keyword, is scanned and parsed to the statement with this name and the values of these rows, in
    their order. *)
Theorem insert_read_back local_condition local_aggregate t rows :
  identifier t -> 1 <= alen rows <= MAX_NUM -> Forall row_ok rows ->
  parse local_condition local_aggregate (insert_text t rows ++ [0]) = Ok (SCF_INSERT (insertion_of t rows)).
Proof.
  intros Ht Hn Hok. destruct rows as [|r rs]; [rewrite alen_nil in Hn; lia|].
  destruct (lexed_insert t r rs Ht Hok) as [Htext Hl].
  destruct (wins_parse local_condition local_aggregate _ _
    (fun x => ssql_flag x = Flag.SCF_INSERT /\ ssql_sstr x = an_insertion (insertion_of t (r :: rs))) Htext Hl) as (x & E & Hflag & Hq).
  - apply wins_insert; [done|lia|by split].
  - unfold parse. rewrite E. cbn [res_bind]. by rewrite Hflag, Hq.
Qed.

