(* ===== verification/ParseStage.v ===== *)
(** * From a text to the answer (sql/parser/parse_stage.cpp)

    [ParseStage::handle_request]: the statement of a text is parsed and handed on, through stages that pass it on unchanged, to
    the execution stage; a text with an error is answered at once. *)
From Stdlib Require Import String Floats.SpecFloat.
From S2P Require Import Prelude ReturnCode Effects Bitmap Memory Replacer OsFile BufferPool.
From S2P Require Import RecordPage RecordFile KeyCompare BTreeNode BTree BTreeScan Dates TableMeta.
From S2P Require Import ConditionFilter Trx Index Table TableScan Db.
From S2P Require Import Values Expression Tuples TupleFilter Aggregation ExecNodes Syntax Select QueryFilter Executors.
From S2P Require Import ExecutorBuilder LoadData Server Lexer Parser.

#[local] Open Scope c_scope.
#[local] Open Scope Z_scope.

Section stage.
Context {R W J T : Type} `{Replacer R} `{OS W} `{HashOrder} `{Json J T} `{MetaFiles W T} `{Dirs W} `{TableOrder}.
Context `{OperationOrder} `{StdSort} `{StdHash} `{StringObjects} `{InputFiles W}.
Variables (fuel depth : nat).
Variable local_condition : Z -> Condition.
Variable local_aggregate : Z -> Aggregate.

(** [sql] is the text of the request, which [c_str] ends with a zero. *)
Definition parse_request (junk : Junk) (sql : list Z) : M (ES R W) unit :=
  match parse local_condition local_aggregate (sql ++ [0]) with
  | Ok result => handle_request fuel depth (J := J) (T := T) junk result
  | Err _ => set_response failure_text
  | Ub => undefined
  | OutOfFuel => no_fuel
  end.

End stage.
