(* ===== verification/ParserDemo.v ===== *)
(** * Concrete texts

    What the parser makes of texts of statements, the witnesses for the theorems on the parser, and a session of requests from
    their texts to the answers. *)
From Stdlib Require Import String Ascii Floats.SpecFloat Sorted.
From S2P Require Import Prelude ReturnCode Effects Bitmap Memory Replacer OsFile BufferPool.
From S2P Require Import RecordPage RecordFile KeyCompare BTreeNode BTree BTreeScan Dates TableMeta TableMetaTheorems.
From S2P Require Import ConditionFilter Trx Index Table TableTheorems TableScan TableFrame TableDemo Db Catalog CatalogRuns.
From S2P Require Import Values Expression Tuples TupleFilter Aggregation ExecNodes Syntax Select.
From S2P Require Import TuplesTheorems KeyOrder RowTheorems QueryTheorems SelectTheorems ServerTheorems ExecutorTheorems.
From S2P Require Import SelectDemo LoadData QueryFilter Executors ExecutorBuilder Server ExecutorDemo.
From S2P Require Import Lexer LexRules LexerTheorems ParserTables ParserGrammar Parser ParserCertificate ParserTheorems ParserInsert ParseStage.

Import JsonTree.

#[local] Open Scope c_scope.
#[local] Open Scope Z_scope.

(** ** Texts and their statements *)

Definition cleared_condition (_ : Z) : Condition := plain_condition zero_condition.
Definition cleared_aggregate (_ : Z) : Aggregate :=
  {| ag_type := UNDEFINEDAGG; ag_is_attr := 0; ag_value := cleared_value; ag_attr := zero_attr |}.

Definition parsed (s : string) : res Query := parse cleared_condition cleared_aggregate (bytes_of_string s ++ [0]).

(** The query of a text. *)
Definition query (s : string) : res Selects :=
  let? q := parsed s in match q with SCF_SELECT x => Ok x | _ => Ub end.

(** The only condition of a query. *)
Definition condition_of (s : Selects) : res SqlCondition := match conditions s with [c] => Ok c | _ => Ub end.

Example parsed_insert :
  parsed "insert into t values (1, 'abc', -2.5), (3, null, 'x');" =
  Ok (SCF_INSERT {| in_relation := "t";
    in_pairs := [[value_init_integer 1; {| v_type := CHARS; v_isnull := false; v_data := [97; 98; 99; 0] |};
                  {| v_type := FLOATS; v_isnull := false; v_data := [0; 0; 32; 192] |}];
                 [value_init_integer 3; value_init_null; {| v_type := CHARS; v_isnull := false; v_data := [120; 0] |}]] |}).
Proof. vm_compute. reflexivity. Qed.

Example parsed_create :
  parsed "create table t(id int, name char(10), born date not null, note text nullable);" =
  Ok (SCF_CREATE_TABLE {| ct_relation := "t";
    ct_attributes := [{| ai_name := Some "id"%string; ai_type := INTS; ai_length := 4; ai_nullable := 0 |};
                      {| ai_name := Some "name"%string; ai_type := CHARS; ai_length := 10; ai_nullable := 0 |};
                      {| ai_name := Some "born"%string; ai_type := DATES; ai_length := 12; ai_nullable := 0 |};
                      {| ai_name := Some "note"%string; ai_type := TEXTS; ai_length := 32; ai_nullable := 1 |}] |}).
Proof. vm_compute. reflexivity. Qed.

(** The product binds closer than the sum, operators of one kind group to the left, and a sign reaches over a product. *)
Example parsed_expressions :
  let n x := newvalNode (value_init_integer x) in
  (let? s := query "select 1-2*3-4, -1*2, (5) from t;" in Ok (attributes_exp s)) =
  Ok [ValNode 1 1 (value_init_integer 5); newast SUBN NullAst (newast MULN (n 1) (n 2));
      newast SUBN (newast SUBN (n 1) (newast MULN (n 2) (n 3))) (n 4)].
Proof. vm_compute. reflexivity. Qed.

(** Columns and tables are kept from the last to the first. *)
Example lists_are_reversed :
  (let? s := query "select a, b, t.c from x, y, z;" in Ok (attributes s, relations s)) =
  Ok ([relation_attr_init (Some "t") "c"; relation_attr_init None "b"; relation_attr_init None "a"], ["z"; "y"; "x"])%string.
Proof. vm_compute. reflexivity. Qed.

(** ** Texts that are not understood as they are written *)

(** The names of an index on several columns come out in the opposite order. *)
Lemma index_columns_reversed :
  parsed "create index i on t(a, b, c);" =
  Ok (SCF_CREATE_INDEX {| ci_index := "i"; ci_unique := 0; ci_relation := "t"; ci_attributes := ["c"; "b"; "a"]%string |}).
Proof. vm_compute. reflexivity. Qed.

(** Of several statements in one text only the last one is run. *)
Lemma last_statement_only : parsed "insert into t values (1); exit;" = Ok SCF_EXIT.
Proof. vm_compute. reflexivity. Qed.

(** The second DELETE of a text has lost its conditions, and so deletes all rows. *)
Lemma second_delete_unconditional :
  parsed "delete from t where a = 1; delete from u where b = 2;" = Ok (SCF_DELETE {| de_relation := "u"; de_conditions := [] |}).
Proof. vm_compute. reflexivity. Qed.

(** The second CREATE TABLE of a text also has the columns of the first; names of columns are cut to 19 characters. *)
Lemma second_table_keeps_columns :
  parsed "create table t(a_very_long_name_of_a_column int); create table u(b int);" =
  Ok (SCF_CREATE_TABLE {| ct_relation := "u";
    ct_attributes := [{| ai_name := Some "a_very_long_name_of"%string; ai_type := INTS; ai_length := 4; ai_nullable := 0 |};
                      {| ai_name := Some "b"%string; ai_type := INTS; ai_length := 4; ai_nullable := 0 |}] |}).
Proof. vm_compute. reflexivity. Qed.

(** A column with a length cannot be nullable. *)
Lemma nullable_char_refused : parsed "create table t(a char(3) nullable);" = Err SQL_SYNTAX /\ parsed "create table t(a char nullable);" <> Err SQL_SYNTAX.
Proof. split; vm_compute; congruence. Qed.

(** Constants are the only values of INSERT; anything else fails an assertion. *)
Lemma insert_of_expression : parsed "insert into t values (1+2);" = Ub /\ parsed "insert into t values (a);" = Ub.
Proof. split; vm_compute; reflexivity. Qed.

(** A condition of ON with a sub-query is counted as a condition of WHERE, where a cleared condition is found. *)
Lemma join_sub_query_lost :
  (let? s := query "select * from t inner join u on t.a = (select max(b) from u);" in Ok (join_conditions <$> joins s, conditions s)) =
  Ok ([[]], [zero_condition]).
Proof. vm_compute. reflexivity. Qed.

(** The sub-query on the left of a condition is replaced by one inside of the sub-query on the right. *)
Lemma left_sub_query_replaced :
  (let? s := query "select * from t where (select a from u) = (select b from v where (select c from w) = 1);" in
   let? c := condition_of s in
   Ok (relations <$> left_selects c, relations <$> right_selects c)) = Ok (Some ["w"], Some ["v"])%string.
Proof. vm_compute. reflexivity. Qed.

(** The expression that the first sub-query selects is selected by the second one too. *)
Lemma sub_query_keeps_expression :
  (let? s := query "select * from t where a in (select 1 from u) and b in (select c from v);" in
   Ok ((fun c => (fun l => (attributes l, attributes_exp l)) <$> right_selects c) <$> conditions s)) =
  Ok [Some ([], [newvalNode (value_init_integer 1)]);
      Some ([relation_attr_init None "c"%string], [newvalNode (value_init_integer 1)])].
Proof. vm_compute. reflexivity. Qed.

(** A text is read up to the first byte above 127. *)
Lemma text_behind_high_byte :
  parse cleared_condition cleared_aggregate (bytes_of_string "exit;" ++ [195; 169] ++ bytes_of_string "garbage" ++ [0]) = Ok SCF_EXIT.
Proof. vm_compute. reflexivity. Qed.

(** ** A session of texts *)

#[local] Existing Instances demo_hash demo_objects demo_files.

(** Thirteen bytes are a record of a table with a number and a string of four bytes. *)
Definition session_junk : Junk := {|
  junk_filters := fun _ _ => (no_desc, no_desc); junk_record := fun _ => replicate 13 170; junk_index := junk_header |}.

Abbreviation serve :=
  (parse_request 30 5 (J := JsonTree.value) (T := JsonTree.value) cleared_condition cleared_aggregate session_junk).

Fixpoint conversation (l : list string) (s : ES LRU.LRUReplacer MemFS.fs) : list (res unit * option string) :=
  match l with
  | [] => []
  | text :: rest =>
      let '(r, s) := serve (bytes_of_string text) s in (r, string_of_bytes <$> es_response s) :: conversation rest s
  end.

(** A table is created, filled, read, changed in a transaction that is rolled back, and cleaned up. *)
Example session_of_texts :
  conversation ["create table p(k int, name char(4));"; "insert into p values (3, 'abc'), (1, 'cde');"; "select * from p where k > 1;";
                "select name, k+1 from p order by k;"; "insert into p values (9, 'xyz', 2);"; "selec * from p;"; "begin;";
                "insert into p values (5, 'q12');"; "select count(k), max(k) from p;"; "rollback;"; "delete from p where k = 3;";
                "SELECT p.k FROM p;"]%string (session_on two_tables.2) =
  [(Ok tt, lines ["SUCCESS"; ""]); (Ok tt, lines ["SUCCESS"; ""]); (Ok tt, lines ["k | name"; "3 | abc"; ""]);
   (Ok tt, lines ["name | k+1"; "cde | 2"; "abc | 4"; ""]); (Ok tt, lines ["FAILURE"; ""]); (Ok tt, lines ["FAILURE"; ""]);
   (Ok tt, Some "SUCCESS"); (Ok tt, lines ["SUCCESS"; ""]); (Ok tt, lines ["count(k) | max(k)"; "3 | 5"; ""]);
   (Ok tt, Some "SUCCESS"); (Ok tt, lines ["SUCCESS"; ""]); (Ok tt, lines ["k"; "1"; ""])]%string.
Proof. vm_compute. reflexivity. Qed.

(** The twelve bytes of a day are read from the copy of its string, which is shorter. *)
Lemma day_read_behind_string :
  conversation ["insert into t values (1, '2020-10-10');"]%string (session_on two_tables.2) = [(Ub, None)].
Proof. vm_compute. reflexivity. Qed.

(** ** Witnesses *)

Lemma parse_sound_witness :
  let s := bytes_of_string "select a from t where b in (select max(c) from u) order by a desc;" in
  is_text s /\ exists toks c v, tokens_of s = Ok (toks ++ [(c, v)]) /\ c <= 0 /\ sentence (symbol_of <$> toks).
Proof.
  cbv zeta. assert (Ht : is_text (bytes_of_string "select a from t where b in (select max(c) from u) order by a desc;")).
  { unfold is_text. apply (bool_decide_unpack _). vm_compute. exact I. }
  split; [exact Ht|]. eapply (parse_sound cleared_condition cleared_aggregate _ _ Ht). vm_compute. reflexivity.
Defined.

Lemma parse_ends_witness :
  let s := bytes_of_string "select a from t where;" in
  let r := parse cleared_condition cleared_aggregate (s ++ [0]) in
  is_text s /\ r = Err SQL_SYNTAX /\ ((exists q, r = Ok q) \/ r = Err SQL_SYNTAX \/ r = Ub).
Proof.
  cbv zeta. assert (Ht : is_text (bytes_of_string "select a from t where;")).
  { unfold is_text. apply (bool_decide_unpack _). vm_compute. exact I. }
  split; [exact Ht|]. split; [vm_compute; reflexivity|]. apply (parse_ends cleared_condition cleared_aggregate _ Ht).
Defined.

(** [INSERT INTO t1 VALUES (-7,NULL,'a-b 1'),(2147483647,'','x');] *)
Lemma insert_read_back_witness :
  let t := bytes_of_string "t1" in
  let rows := [[IntLit (-7); NullLit; StringLit (bytes_of_string "a-b 1")]; [IntLit 2147483647; StringLit []; StringLit (bytes_of_string "x")]] in
  insert_text t rows = bytes_of_string "INSERT INTO t1 VALUES (-7,NULL,'a-b 1'),(2147483647,'','x');" /\
  parse cleared_condition cleared_aggregate (insert_text t rows ++ [0]) = Ok (SCF_INSERT (insertion_of t rows)).
Proof.
  intros t rows. split; [vm_compute; reflexivity|]. apply (insert_read_back cleared_condition cleared_aggregate t rows).
  - assert (Ht : is_text (bytes_of_string "t1")) by (unfold is_text; apply (bool_decide_unpack _); vm_compute; exact I).
    split; [exact Ht|]. destruct (rule_of_spec _ Ht) as [[H _]|H]; [by vm_compute in H|].
    assert (E : rule_of (bytes_of_string "t1") = 57) by (vm_compute; reflexivity). by rewrite E in H.
  - by vm_compute.
  - repeat constructor; try done; repeat constructor; vm_compute; done.
Defined.
